(* ===== verification/_CoqProject ===== *)
-Q . S2P
Prelude.v
Wire.v
MgmtCrypto.v
TaskLease.v
RaftLog.v
TaskLeaseRaft.v
TaskGuard.v
FlowRuleset.v
FlowRulesetRaft.v
FlowRaftAdapter.v
FlowRuntime.v
ControlRaft.v
MgmtCodec.v
MgmtEnvelope.v
Replay.v
ControlPrimitives.v
ControlState.v
ControlStateInv.v
ControlSnapshot.v
ControlMmp.v
ControlDocument.v
ControlPolicy.v
ControlChannel.v
ControlOwner.v
ControlReconciler.v
FileSystem.v
ControlWal.v
ControlWalInv.v
ControlWalCrash.v
ControlCheckpoint.v
ControlImport.v
ControlCheckpointInv.v
TunnelTypes.v
TunnelNat.v
TunnelNatInv.v
TunnelNatSpec.v
TunnelPacket.v
TunnelPacketInv.v
TunnelDns.v
TunnelDnsInv.v
TunnelSession.v
TunnelSessionInv.v
TunnelCore.v
TunnelCoreInv.v
