(* ===== verification/Prelude.v ===== *)
(** * turboP2P: the mesh control plane and the tunnel

    turboP2P ([src/]) is a C system of three layers: [p2p/] (peer transport,
    DHT, file transfer), [tunnel/] (a TUN-based IP stack) and [mesh/] (a mesh
    network with a replicated control plane and a signed management protocol on
    top of both).  This development verifies the part of [mesh/src] that decides
    who may do what: the replicated task leases, the replicated packet policy,
    the control group that runs both on one Raft log, the management protocol's
    codec, signatures and replay protection, and the controller-to-node path
    that carries signed intents into a node's desired state, on to the providers
    that run them, and onto the disk from which a node restarts.  Of [tunnel/src]
    it verifies what stands between the device and the proxy: packets, sessions
    and the session table.

    ** The parts and how they interact

    - A _task lease table_ ([mesh_task_lease.c]) grants one worker at a time the
      right to run a task, by a fencing token.  Its commands travel on the Raft
      log ([mesh_task_lease_raft.c]) and are applied by a batch callback
      ([mesh_task_lease_raft_adapter.c]).  A worker asks the _execution guard_
      ([mesh_task_execution_guard.c]) before it runs anything.
    - A _flow ruleset_ ([mesh_flow_ruleset.c]) is an ordered packet filter.  A
      new version travels as BEGIN, CHUNK..., COMMIT commands
      ([mesh_flow_ruleset_raft.c]) cut and applied by an adapter
      ([mesh_flow_ruleset_raft_adapter.c]) which publishes a committed version to
      the packet path ([mesh_flow_runtime.c], called by [mesh.c] for every
      packet) through the bridge ([mesh_control_raft_mesh_bridge.c]).
    - The _control group_ ([mesh_control_raft.c]) routes the entries of one log
      to both machines and serves linearizable reads, whose index the execution
      guard checks against the applied index.
    - The _management protocol_ frames messages as TLV blocks
      ([mesh_mgmt_codec.c]), signs and verifies them ([mesh_mgmt_envelope.c],
      [mesh_mgmt_crypto.c]) and refuses repetitions ([mesh_mgmt_replay.c]).
    - A _control message_ ([mesh_control_primitives.c]) travels in a signed
      management frame ([mesh_control_mmp.c]) and carries a document: a function
      assignment or a network snapshot ([mesh_control_document.c]).  The receiving
      thread pushes it on a bounded channel ([mesh_control_channel.c]); the
      _owner_ ([mesh_control_owner.c]) takes it from there, checks its binding,
      the replay gate, the schema and the node policy
      ([mesh_control_policy.c]), waits for its log index to be durable and
      commits it to the _control state_ ([mesh_control_state.c]), the table of
      desired and observed resources.  The _reconciler_
      ([mesh_control_reconciler.c]) starts the accepted function operations on
      their providers and writes the outcomes back to the control state.
    - What a node acknowledged must survive a crash.  The _journal_
      ([mesh_control_wal.c]) appends each record to a file in an authenticated
      frame and forces it to the disk before it answers; on start it checks the
      whole file and replays the records to its caller.  The _checkpoint_
      ([mesh_control_checkpoint.c]) writes the owner's control state, documents,
      replay gate and log index into one string with a digest, from which a
      restart rebuilds the owner; the journal before that index can then be cut.
    - The _tunnel_ ([tunnel.c]) reads IP packets from a TUN device, parses them
      ([tunnel_ip_stack.c], [tunnel_checksum.c]) and keeps a session
      ([tunnel_session.c]) for each connection, on a table ([tunnel_nat.c]) that is
      a hash table, an order of use and a bitmap of UDP ports at once.  A session
      passes data to a connection at the proxy, which calls back, and answers its
      client with packets it builds.  DNS queries are answered with addresses of a
      reserved range ([tunnel_fake_dns.c]), so that a connection can be opened by
      name.  Once a second the expired sessions are
      evicted.

    ** Which file models which part

    - [Prelude] (this file): machine integers, byte lists, pointers as options,
      slot tables (a C array searched by key), tactics and the hint database
      shared by all files.
    - [Wire]: the little- and big-endian helpers, equal to one reference codec.
    - [MgmtCrypto]: [mesh_mgmt_crypto.c]; classes [Crypto] (the external
      functions) and [CryptoLaws] (what they document).
    - [TaskLease]: [mesh_task_lease.c], its finite-map contract, its invariant.
    - [RaftLog]: the class [ReplicatedMachine], the contract between a state
      machine and the log; the batch loop is studied against the class, and
      [TaskLeaseRaft] and [FlowRaftAdapter] provide its instances.
    - [TaskLeaseRaft]: command codec, apply function and adapter of the leases.
    - [TaskGuard]: the execution guard.
    - [FlowRuleset], [FlowRulesetRaft], [FlowRaftAdapter]: the packet filter, its
      commands and staging store, its batch callback and snapshot sender.
    - [FlowRuntime]: the double-buffered packet-path copy, as sequential calls
      and as interleaved atomic steps, with its callers in [mesh.c].
    - [ControlRaft]: the control group and the bridge to the packet path.
    - [MgmtCodec], [MgmtEnvelope], [Replay]: the management protocol.
    - [ControlPrimitives]: envelopes, function specifications, the life cycle of
      an operation.
    - [ControlState]: [mesh_control_state.c], every operation; [ControlStateInv]:
      its invariant and what each call changes; [ControlSnapshot]: preflight,
      snapshot pages, checkpoint export and import.
    - [ControlMmp], [ControlDocument], [ControlPolicy]: message framing, documents
      and the node policy.
    - [ControlChannel]: the queue, as sequential calls and as interleaved atomic
      steps of producer, consumer and closer; class [Ring] is the ring buffer
      under it.
    - [ControlOwner]: the owner, as calls and as a transition system with the
      producer and the other users of the control state.
    - [ControlReconciler]: the reconciler with arbitrary providers.
    - [FileSystem]: the class of the file operations the journal calls, and an
      instance in memory that keeps apart what was written and what is on the
      disk, and that fails, writes short or crashes as a schedule says.
    - [ControlWal]: [mesh_control_wal.c] over any file system, with classes [Hmac]
      (the external function) and [HmacLaws] (its length); [ControlWalInv]: the
      invariant that ties the handle to the file; [ControlWalCrash]: the journal
      as a transition system with crashes and restarts.
    - [ControlCheckpoint]: [mesh_control_checkpoint.c], with class [Sha256];
      [ControlImport]: what the document decoders and the imports accept;
      [ControlCheckpointInv]: round trip and soundness.
    - [TunnelTypes]: endpoints, keys and sessions ([tunnel_types.h]), and a state
      monad whose computations fail where the code would follow a pointer to
      released memory.
    - [TunnelNat]: [tunnel_nat.c] over a store of sessions, with their links;
      [TunnelNatInv]: the links as list segments of the store; [TunnelNatSpec]: the
      table's specification and its refinement.
    - [TunnelPacket]: [tunnel_checksum.c] and [tunnel_ip_stack.c] for hosts of
      either byte order; [TunnelPacketInv]: RFC 1071 sums and what they give for
      built packets.
    - [TunnelDns]: [tunnel_fake_dns.c]; [TunnelDnsInv]: its refinement of a map from
      names to addresses, and what an answer promises.
    - [TunnelSession]: [tunnel_session.c] and the TCP packets of [tunnel.c], over
      class [TunnelHost] (the proxy client, the device, the fake DNS, the allocator,
      the clocks) with [TunnelHostLaws] (an allocation is not in use);
      [TunnelSessionInv]: its handlers keep the sessions in step with the table.
    - [TunnelCore]: the other packets of [tunnel.c], its routing and its
      maintenance; [TunnelCoreInv]: any sequence of events, and what maintenance
      does.

    Every C function is a definition with the same name where the name is free.
    A [w]-bit integer is a [Z] with its wrap-around written out ([wrap w]), a
    buffer is a list of byte values, a NULL pointer is [None], a structure is a
    record, and an array with a live prefix keeps all its slots.  A function that
    writes through pointers returns its result code with the new contents, on
    every path, so that what an error leaves behind is part of the model.  The
    result of [calloc] is an argument.

    ** What the theorems show

    - _Leases_: the array implementation refines a finite map from command ids to
      tasks, in codes and contents; every sequence of commands keeps the table
      well formed; a lost lease is fenced for ever; only the holder, or the
      clock, changes a leased task; a finished task stays finished; a batch is the
      in-order execution of its accepted prefix and is applied at most once.
    - _Guard_: it answers OK exactly when the table records this worker's live
      lease; a token authorises one worker, or two worker identities collide
      under the hash, and then the colliding inputs are exhibited.
    - _Packet policy_: the bit-mask rule test is membership in CIDR blocks, port
      intervals, protocols and directions; evaluation is first match; replacement
      is all or nothing; sending a snapshot and delivering the entries installs
      exactly that snapshot; under every interleaving of readers with the
      publisher a reader sees one complete version; once a policy is committed
      through the control group, no packet is forwarded unfiltered or by an older
      version.
    - _Control group_: a mixed batch is the two runs side by side; a read
      completes when, and only when, the applied index has reached its safe
      index.
    - _Management protocol_: frames, TLV blocks, headers and commands round-trip
      in both directions (what is accepted is canonical); the verifier accepts
      exactly the frames with a valid hash, constraints and signature; a signed
      request verifies; sequence numbers are accepted once, message ids once per
      lifetime; a checkpoint restores the same verdicts.
    - _Control state_: every sequence of calls keeps keys unique, epochs ordered,
      documents within their budget and cursors consecutive; desired state
      changes only by compare-and-swap on the epoch; the event ring is a window
      on an unbounded log; snapshot pages belong to one generation; a checkpoint
      restores exactly the restorable states.
    - _Control messages_: a decoded message is what its origin signed, a valid
      message that is encoded, signed, verified and decoded arrives unchanged;
      decoded documents are sorted, bound to their envelope, and round-trip; the
      node policy admits an intent exactly when grant and node allow its runtime.
    - _Owner and channel_: under every interleaving the channel's counters stay
      within capacity and byte budget and messages leave in the order they were
      sent; whatever producer, owner loop and other callers do, committed
      messages are intents bound to this owner, in order, each once; committing
      the expected index succeeds.
    - _Reconciler_: whatever the providers answer, at most one operation per
      resource is in flight and the counters are exact; applying a completion
      twice is applying it once.
    - _Journal_: whatever sequence of appends, failures, crashes and restarts a
      node goes through, replaying hands out the records it acknowledged, at
      their indices and in order, and a restart after a crash succeeds unless the
      last call had faulted the handle.
    - _Checkpoint_: encoding a quiescent owner succeeds, and restoring the string
      gives the owner back exactly when its control state is restorable; whatever
      bytes are presented, a restore fails and changes nothing or yields a well
      formed owner.
    - _Session table_: every sequence of calls behaves as its specification over
      two lists, a set of ports and counters, and follows only links to live
      sessions.
    - _Sessions_: whatever bytes the device delivers and whatever the proxy, the
      allocator and the clocks answer, every handler returns, and the table lists
      exactly the sessions in memory, one for each connection and each UDP port in
      use, until the first maintenance.
    - _Packets_: what the stack builds it parses back; updating a checksum is
      recomputing it.
    - _Fake DNS_: hash chains and address array refine one map from names to
      addresses in which no address has two names; an answered query's address
      leads back to the name that was asked, whatever is called in between.
    - Several theorems record behaviour the code does not intend: a command the
      table rejects makes a committed batch fail for good
      ([TaskLeaseRaft.lease_busy_stops_batch]); importing a replay snapshot may
      keep an old preparation valid ([Replay.replay_import_keeps_stale_preparation]);
      a gate's own checkpoint can be refused ([Replay.replay_checkpoint_refused]),
      and so can a control state's
      ([ControlSnapshot.control_checkpoint_duplicate_refused]); the preflight
      ignores the message kind ([ControlSnapshot.control_preflight_predicts]); a
      decoded network document may encode to other bytes
      ([ControlDocument.network_document_reencode]); an owner that ran out of
      memory while committing never processes again
      ([ControlOwner.owner_process_next_blocks]); preparing consumes rejected
      messages ([ControlOwner.owner_prepare_verdict]); a busy provider makes two
      generations of a function start in the wrong order
      ([ControlReconciler.reconciler_backpressure_reorders]); an append that
      failed halfway leaves a journal no open accepts
      ([ControlWalCrash.wal_torn_append_refused]); a record whose [fsync] failed is
      acknowledged by its retry without another one
      ([ControlWalCrash.wal_retry_unsynced]); an open whose [lstat] fails empties
      the journal ([ControlWalCrash.wal_open_truncates_on_stat_error]); the
      checksums of built packets have their bytes swapped on little-endian hosts
      ([TunnelPacketInv.built_checksums]); maintenance compares two clocks and
      evicts every session ([TunnelCoreInv.maintenance_forgets_sessions]), and an
      evicted session that is used or closed ruins the table
      ([TunnelNatSpec.nat_touch_off_table], [TunnelNatSpec.nat_remove_off_table]).
      Besides, [FlowRuleset] accepts a rule with ports and any protocol, which
      [FlowRulesetRaft.rule_valid] refuses, and the policy validator accepts the
      WASM bits its header says it rejects.

    ** Bounds and fuel

    Capacities are the code's (1024 tasks, 256 rules, 15 rules in a chunk, 64
    pending reads, 8192 cached message ids, 16384-byte frames).  The snapshot
    sender runs on [rule_count] rounds of fuel, enough since each round sends at
    least one rule; the TLV scan on the length of the block plus one, enough
    since a field has at least four bytes; both are proved never to run out, for
    every input.  The allocation of a read context is bounded in the code itself,
    by the number of pending reads plus one, and is proved to succeed within it.
    Draining the channel runs on the number of queued messages plus one.  The
    reconciler's loops are structural: on the budget its caller passes, on the
    number of providers or on the table.  The journal's write and read loops run
    on the bytes that remain, enough since each round moves at least one; its scan
    on the length of the file, enough since a frame is longer than one byte; the
    checkpoint's decoding loops run on the counts of its header, as in the code.
    The session table's searches and evictions run on the number of sessions in
    memory plus one, or on the session count, which each round lowers; the search
    for a UDP port on the size of the port range; both are proved enough, for a
    table whose links are in order.  The search for
    a free fake address runs on the size of the range, and is proved to end; the
    readers of a DNS question on the length of the query.  Folding a checksum
    runs on three rounds, enough for a 32-bit sum.

    ** What is not modelled

    The Raft service, the ring buffer, the file system, OpenSSL (signatures, HMAC,
    SHA-256) and BLAKE2b are outside the sources or vendored: their answers are parameters, and what a theorem needs
    of them is a named hypothesis with an instance that satisfies it; the
    providers are arbitrary functions.  The interleavings
    of [FlowRuntime] are sequentially consistent, while the code asks for
    acquire/release order only: executions in which a reader's second look at the
    active slot is older than the publisher's reader count are not covered.  A completion callback is
    recorded, not run, so one that calls back into the control group is not
    covered.  In the tunnel the proxy's callbacks are events of their own: the
    proxy client ([tunnel_proxy.c]) calls back from its poll loop and forgets its
    callbacks when a session is released, which is what [event_ready] of
    [TunnelCoreInv] asks; a callback from inside a call of the session is not
    covered.  The sessions use the fake DNS through class [TunnelHost], whose answers
    are arbitrary, so their theorems hold for [TunnelDns] as well.  Sockets,
    threads, files, the TUN device and the HTTP services are input and output and
    are left out.

    Also left out, for their size and not for a difficulty of principle: the
    outbox of the control plane ([mesh_control_outbox.c]) and its status reports
    ([mesh_control_status.c]), the agent that drives owner, log and reconciler
    ([mesh_control_agent.c]), management dispatch and sessions
    ([mesh_mgmt_dispatch.c], [mesh_mgmt_session.c], [mesh_mgmt_execution.c]), the
    object store ([m3_object_manifest.c], [m3_chunk_replay.c],
    [m3_chunk_receipt.c]), streams ([mesh_stream_codec.c],
    [mesh_stream_qos.c]), the proxy protocols and the
    configuration of the tunnel, and the DHT tables and message codec of [p2p/]. *)

From stdpp Require Export base tactics numbers list sorting gmap.
From Stdlib Require Export ZArith Lia.
#[global] Open Scope Z_scope.

(** ** Notation scope of the development *)

Declare Scope mesh_scope.
Delimit Scope mesh_scope with mesh.
#[global] Open Scope mesh_scope.

(** [e |> f] is [f e]: a C block of field assignments reads top to bottom. *)
Notation "e '|>' f" := (f e) (at level 61, left associativity, only parsing) : mesh_scope.

(** ** Machine integers: a [w]-bit unsigned integer is a [Z] in [0, 2^w) *)

Definition wrap (w z : Z) : Z := z mod 2 ^ w.
Definition uint (w z : Z) : Prop := 0 <= z < 2 ^ w.

Abbreviation u8 := (uint 8).
Abbreviation u16 := (uint 16).
Abbreviation u32 := (uint 32).
Abbreviation u64 := (uint 64).

Definition UINT16_MAX : Z := 2 ^ 16 - 1.
Definition UINT32_MAX : Z := 2 ^ 32 - 1.
Definition UINT64_MAX : Z := 2 ^ 64 - 1.
Definition SIZE_MAX : Z := 2 ^ 64 - 1.

(** [(int32_t)v] of a 32-bit pattern and its inverse [(uint32_t)v]. *)
Definition to_int32 (v : Z) : Z := if v <? 2 ^ 31 then v else v - 2 ^ 32.
Definition int32 (v : Z) : Prop := - 2 ^ 31 <= v < 2 ^ 31.

(** ** Byte strings *)

Abbreviation bytes := (list Z).

Definition bytes_ok (n : nat) (b : bytes) : Prop := length b = n ∧ Forall u8 b.
Definition zeros (n : nat) : bytes := replicate n 0.
Definition len (b : bytes) : Z := Z.of_nat (length b).

(** [memcmp(a, b, n) == 0] *)
Definition memeq (n : nat) (a b : bytes) : bool := bool_decide (take n a = take n b).

(** The bytes at [input + off .. input + off + n - 1]. *)
Definition sub (input : bytes) (off n : nat) : bytes := take n (drop off input).
(** [input[i]] *)
Definition at_ (input : bytes) (i : nat) : Z := default 0 (input !! i).
(** [memcpy(output + off, b, sizeof b)] *)
Definition blit (output : bytes) (off : nat) (b : bytes) : bytes :=
  take off output ++ b ++ drop (off + length b) output.

#[global] Arguments sub : simpl never.
#[global] Arguments at_ : simpl never.
#[global] Arguments blit : simpl never.
#[global] Arguments memeq : simpl never.
#[global] Arguments len : simpl never.
#[global] Arguments wrap : simpl never.
#[global] Arguments zeros : simpl never.

(** The [aggregate |= bytes[i]] loop. *)
Definition or_bytes (b : bytes) : Z := foldl Z.lor 0 b.

(** A pointer argument the code tests against NULL is an [option]; [deref]
    reads it on the paths where the code has tested it. *)
Definition deref {A} (d : A) (p : option A) : A :=
  match p with Some x => x | None => d end.
Definition non_null {A} (p : option A) : bool := bool_decide (is_Some p).
(** [if (p) *p = v;] on an output pointer: the new contents of the pointee. *)
Definition assign {A} (p : option A) (v : A) : option A := (λ _, v) <$> p.

(** Little- and big-endian integers, as the shift loops of the codecs. *)
Fixpoint le_bytes (n : nat) (v : Z) : bytes :=
  match n with
  | O => []
  | S n' => Z.land v 255 :: le_bytes n' (Z.shiftr v 8)
  end.
Fixpoint le_value (b : bytes) : Z :=
  match b with
  | [] => 0
  | x :: b' => Z.lor x (Z.shiftl (le_value b') 8)
  end.
Definition be_bytes (n : nat) (v : Z) : bytes := reverse (le_bytes n v).
Definition be_value (b : bytes) : Z := foldl (λ acc x, Z.lor (Z.shiftl acc 8) x) 0 b.

(** ** Slot tables: fixed arrays of records with an occupied flag *)

(** Index and value of the first element satisfying [p]: the shape of every
    [for (i = 0; i < capacity; ++i) if (p(a[i])) return &a[i];] loop. *)
Fixpoint find_slot {A} (p : A → bool) (l : list A) : option (nat * A) :=
  match l with
  | [] => None
  | x :: l' => if p x then Some (0%nat, x) else prod_map S id <$> find_slot p l'
  end.

(** Number of elements satisfying [p]: the counting loops. *)
Fixpoint count_slots {A} (p : A → bool) (l : list A) : Z :=
  match l with
  | [] => 0
  | x :: l' => (if p x then 1 else 0) + count_slots p l'
  end.

(** [s] is the occupied slot holding key [k]. *)
Definition slot_key {A K} `{EqDecision K} (occ : A → bool) (key : A → K) (k : K) (x : A) : bool :=
  occ x && bool_decide (key x = k).

(** No two occupied slots hold the same key. *)
Definition slots_unique {A K} (occ : A → bool) (key : A → K) (l : list A) : Prop :=
  ∀ i j x y, l !! i = Some x → l !! j = Some y →
    occ x = true → occ y = true → key x = key y → i = j.

(** The finite map a slot table stands for. *)
Definition slot_map {A K} `{Countable K} (occ : A → bool) (key : A → K) (l : list A) : gmap K A :=
  list_to_map ((λ x, (key x, x)) <$> filter (λ x, occ x = true) l).

(** ** Development-wide automation *)

Create HintDb mesh.
Create Rewrite HintDb lens.

(** Typing facts about concrete data are decidable: they are proved by evaluation. *)
#[export] Instance uint_dec w z : Decision (uint w z).
Proof. unfold uint. apply _. Defined.
#[export] Instance int32_dec z : Decision (int32 z).
Proof. unfold int32. apply _. Defined.
#[export] Instance bytes_ok_dec n b : Decision (bytes_ok n b).
Proof. unfold bytes_ok. apply _. Defined.

Ltac evaluate := apply (bool_decide_unpack _); vm_compute; exact I.

(** Turn the boolean guards of the code into propositions. *)
Ltac bool_prop :=
  repeat match goal with
  | H : _ && _ = true |- _ => apply andb_true_iff in H as [? ?]
  | H : _ || _ = false |- _ => apply orb_false_iff in H as [? ?]
  | H : negb _ = true |- _ => apply negb_true_iff in H
  | H : negb _ = false |- _ => apply negb_false_iff in H
  | H : (_ =? _) = true |- _ => apply Z.eqb_eq in H
  | H : (_ =? _) = false |- _ => apply Z.eqb_neq in H
  | H : (_ <? _) = true |- _ => apply Z.ltb_lt in H
  | H : (_ <? _) = false |- _ => apply Z.ltb_ge in H
  | H : (_ <=? _) = true |- _ => apply Z.leb_le in H
  | H : (_ <=? _) = false |- _ => apply Z.leb_gt in H
  | H : bool_decide _ = true |- _ => apply bool_decide_eq_true in H
  | H : bool_decide _ = false |- _ => apply bool_decide_eq_false in H
  end.

(** A guard of the goal that cannot hold: refute each disjunct of it. *)
Ltac refute E :=
  repeat match type of E with _ || _ = true => apply orb_true_iff in E as [E|E] end;
  bool_prop; solve [done | congruence | lia].
Ltac pass_guards :=
  repeat match goal with
  | |- context [if ?b then _ else _] =>
      let E := fresh "E" in destruct b eqn:E; [exfalso; refute E | clear E]
  end.

(** Case on the scrutinee of the outermost [if] or [match] of hypothesis [H]. *)
Ltac step_in H :=
  match type of H with
  | context [if ?b then _ else _] => let E := fresh "E" in destruct b eqn:E
  | context [match ?o with _ => _ end] => let E := fresh "E" in destruct o eqn:E
  end.

(** ** Integer lemmas *)

Section Integers.

Lemma wrap_range w z : 0 <= w → uint w (wrap w z).
Proof. intros. unfold wrap, uint. apply Z.mod_pos_bound. lia. Qed.

Lemma wrap_small w z : uint w z → wrap w z = z.
Proof. unfold wrap, uint. apply Z.mod_small. Qed.

Lemma to_int32_range v : u32 v → int32 (to_int32 v).
Proof. unfold uint, int32, to_int32. case_match; bool_prop; lia. Qed.

Lemma to_int32_wrap v : int32 v → to_int32 (wrap 32 v) = v.
Proof.
  unfold int32, to_int32, wrap. intros Hv.
  destruct (Z.ltb_spec v 0).
  - replace (v mod 2 ^ 32) with (v + 2 ^ 32); [case_match; bool_prop; lia|].
    apply (Zmod_unique _ _ (-1)); lia.
  - rewrite Z.mod_small by lia. case_match; bool_prop; lia.
Qed.

Lemma wrap_to_int32 v : u32 v → wrap 32 (to_int32 v) = v.
Proof.
  unfold uint, to_int32, wrap. intros Hv. case_match; bool_prop.
  - apply Z.mod_small; lia.
  - symmetry. apply (Zmod_unique _ _ (-1)); lia.
Qed.

Lemma land_byte v : u8 (Z.land v 255).
Proof.
  unfold uint. change 255 with (Z.ones 8). rewrite Z.land_ones by lia.
  apply Z.mod_pos_bound. lia.
Qed.

Lemma lor_byte x v : u8 x → 0 <= v → Z.lor x (Z.shiftl v 8) = x + 256 * v.
Proof.
  intros Hx Hv. unfold uint in Hx. pose proof (Z.add_lor_land x (Z.shiftl v 8)) as Hs.
  rewrite Z.shiftl_mul_pow2 in * by lia.
  enough (Z.land x (v * 2 ^ 8) = 0) by lia. clear Hs. apply Z.bits_inj'. intros n Hn.
  rewrite Z.land_spec, Z.bits_0.
  destruct (Z.ltb_spec n 8).
  - rewrite Z.mul_pow2_bits_low by lia. apply andb_false_r.
  - rewrite (Z.bits_above_log2 x n) ; [done|lia|].
    destruct (decide (x = 0)) as [->|]; [simpl; lia|].
    apply Z.log2_lt_pow2; [lia|]. assert (2 ^ 8 <= 2 ^ n) by (apply Z.pow_le_mono_r; lia). lia.
Qed.

End Integers.
#[export] Hint Resolve wrap_range to_int32_range land_byte : mesh.

(** ** Boolean loops *)

Lemma forallb_Forall_true {A} (f : A → bool) (l : list A) :
  forallb f l = true ↔ Forall (λ x, f x = true) l.
Proof.
  rewrite forallb_forall, Forall_forall.
  split; intros H x Hx; apply H; by apply list_elem_of_In.
Qed.

(** ** Byte-string lemmas *)

Section Bytes.
Implicit Types b a : bytes.

Lemma memeq_spec n a b :
  length a = n → length b = n → memeq n a b = bool_decide (a = b).
Proof. intros Ha Hb. unfold memeq. by rewrite !take_ge by lia. Qed.

Lemma memeq_refl n a : memeq n a a = true.
Proof. unfold memeq. by apply bool_decide_eq_true. Qed.

Lemma bytes_ok_length n b : bytes_ok n b → length b = n.
Proof. by intros []. Qed.

Lemma zeros_ok n : bytes_ok n (zeros n).
Proof.
  split; [apply length_replicate|]. apply Forall_replicate. unfold uint; lia.
Qed.

Lemma foldl_lor_zero b : ∀ acc, 0 <= acc → Forall u8 b →
  0 <= foldl Z.lor acc b ∧ (foldl Z.lor acc b = 0 ↔ acc = 0 ∧ Forall (.= 0) b).
Proof.
  induction b as [|x b IH]; intros acc Hacc Hb; simpl.
  { split; [done|]. split; [by split|tauto]. }
  apply Forall_cons in Hb as [Hx Hb]. unfold uint in Hx.
  destruct (IH (Z.lor acc x)) as [Hge Hiff]; [by apply Z.lor_nonneg; lia|done|].
  split; [done|]. rewrite Hiff, Z.lor_eq_0_iff, Forall_cons. tauto.
Qed.

Lemma or_bytes_zero b : Forall u8 b → (or_bytes b = 0 ↔ b = zeros (length b)).
Proof.
  intros Hb. destruct (foldl_lor_zero b 0) as [_ H]; [lia|done|].
  unfold or_bytes, zeros. rewrite H. split.
  - intros [_ Hz]. clear -Hz. induction Hz as [|x l Hx Hl IH]; simpl; [done|].
    by rewrite Hx, <- IH.
  - intros E. split; [done|]. rewrite E. by apply Forall_replicate.
Qed.

Lemma or_zeros n : or_bytes (zeros n) = 0.
Proof.
  apply or_bytes_zero; [apply zeros_ok|]. by rewrite (bytes_ok_length n _ (zeros_ok n)).
Qed.

Lemma length_le_bytes n : ∀ v, length (le_bytes n v) = n.
Proof. induction n as [|n IH]; intros v; simpl; [done|]. by rewrite IH. Qed.

Lemma le_bytes_ok n : ∀ v, Forall u8 (le_bytes n v).
Proof. induction n; intros v; simpl; constructor; auto with mesh. Qed.

Lemma le_value_range b : Forall u8 b → 0 <= le_value b < 2 ^ (8 * len b).
Proof.
  unfold len. induction 1 as [|x b Hx Hb IH]; cbn [le_value length]; [done|].
  rewrite Nat2Z.inj_succ, lor_byte by (done || lia).
  replace (2 ^ (8 * Z.succ (Z.of_nat (length b)))) with (256 * 2 ^ (8 * Z.of_nat (length b)))
    by (rewrite Z.mul_succ_r, Z.pow_add_r by lia; lia).
  unfold uint in Hx. lia.
Qed.

Lemma le_value_bytes n : ∀ v, 0 <= v < 2 ^ (8 * Z.of_nat n) → le_value (le_bytes n v) = v.
Proof.
  induction n as [|n IH]; intros v Hv; cbn [le_bytes le_value].
  { simpl in Hv. lia. }
  rewrite Nat2Z.inj_succ, Z.mul_succ_r, Z.pow_add_r in Hv by lia.
  assert (Hq : 0 <= Z.shiftr v 8 < 2 ^ (8 * Z.of_nat n)).
  { rewrite Z.shiftr_div_pow2 by lia. split; [apply Z.div_pos; lia|].
    apply Z.div_lt_upper_bound; lia. }
  rewrite (IH _ Hq), lor_byte by (lia || apply land_byte).
  change 255 with (Z.ones 8). rewrite Z.land_ones, Z.shiftr_div_pow2 by lia.
  pose proof (Z.div_mod v (2 ^ 8)). lia.
Qed.

Lemma le_bytes_value b : Forall u8 b → le_bytes (length b) (le_value b) = b.
Proof.
  induction 1 as [|x b Hx Hb IH]; cbn [le_value le_bytes length]; [done|].
  pose proof (le_value_range b Hb). rewrite lor_byte by (done || lia).
  unfold uint in Hx. change 255 with (Z.ones 8).
  rewrite Z.land_ones, Z.shiftr_div_pow2 by lia.
  change (2 ^ 8) with 256.
  f_equal.
  - symmetry. apply (Zmod_unique _ _ (le_value b)); lia.
  - replace ((x + 256 * le_value b) / 256) with (le_value b); [done|].
    apply (Zdiv_unique _ _ _ x); lia.
Qed.

Lemma be_value_le b : be_value b = le_value (reverse b).
Proof.
  unfold be_value. induction b as [|x b IH] using rev_ind; [done|].
  rewrite foldl_app, IH, reverse_app. simpl. by rewrite Z.lor_comm.
Qed.

Lemma length_be_bytes n v : length (be_bytes n v) = n.
Proof. unfold be_bytes. by rewrite length_reverse, length_le_bytes. Qed.

Lemma be_bytes_ok n v : Forall u8 (be_bytes n v).
Proof. unfold be_bytes. apply Forall_reverse, le_bytes_ok. Qed.

Lemma be_value_bytes n v : 0 <= v < 2 ^ (8 * Z.of_nat n) → be_value (be_bytes n v) = v.
Proof.
  intros Hv. unfold be_bytes. rewrite be_value_le, reverse_involutive.
  by apply le_value_bytes.
Qed.

Lemma be_bytes_value b : Forall u8 b → be_bytes (length b) (be_value b) = b.
Proof.
  intros Hb. unfold be_bytes.
  rewrite be_value_le, <- (length_reverse b), le_bytes_value, reverse_involutive; [done|].
  by apply Forall_reverse.
Qed.

Lemma be_value_range b : Forall u8 b → 0 <= be_value b < 2 ^ (8 * len b).
Proof.
  intros Hb. rewrite be_value_le.
  unfold len. rewrite <- (length_reverse b).
  apply le_value_range. by apply Forall_reverse.
Qed.

End Bytes.
#[export] Hint Rewrite length_le_bytes length_be_bytes : lens.
#[export] Hint Resolve memeq_refl zeros_ok length_le_bytes le_bytes_ok length_be_bytes
  be_bytes_ok : mesh.

(** ** Windows of a byte string *)

Section Windows.
Implicit Types a b : bytes.

Lemma sub_here a b n : length a = n → sub (a ++ b) 0 n = a.
Proof. intros. unfold sub. rewrite drop_0. by rewrite take_app_length'. Qed.

Lemma sub_skip a b off n : (length a <= off)%nat →
  sub (a ++ b) off n = sub b (off - length a) n.
Proof. intros. unfold sub. by rewrite drop_app_ge. Qed.

Lemma sub_all b n : length b = n → sub b 0 n = b.
Proof. intros. unfold sub. rewrite drop_0. apply take_ge. lia. Qed.

Lemma sub_split b off n m : sub b off (n + m) = sub b off n ++ sub b (off + n) m.
Proof. unfold sub. by rewrite <- drop_drop, <- take_take_drop. Qed.

Lemma length_sub b off n : (off + n <= length b)%nat → length (sub b off n) = n.
Proof. intros. unfold sub. rewrite length_take, length_drop. lia. Qed.

Lemma sub_Forall (P : Z → Prop) b off n : Forall P b → Forall P (sub b off n).
Proof. intros. unfold sub. by apply Forall_take, Forall_drop. Qed.

Lemma sub_bytes_ok m b off n : bytes_ok m b → (off + n <= m)%nat → bytes_ok n (sub b off n).
Proof. intros [? ?] ?. split; [apply length_sub; lia|by apply sub_Forall]. Qed.

Lemma at_sub b i : (i < length b)%nat → sub b i 1 = [at_ b i].
Proof.
  intros [x Hx]%lookup_lt_is_Some. unfold sub, at_. rewrite Hx. simpl.
  by rewrite (drop_S _ _ _ Hx).
Qed.

Lemma at_skip a b i : (length a <= i)%nat → at_ (a ++ b) i = at_ b (i - length a).
Proof. intros. unfold at_. by rewrite lookup_app_r. Qed.

Lemma at_u8 b i : Forall u8 b → u8 (at_ b i).
Proof.
  intros Hb. unfold at_. destruct (b !! i) as [x|] eqn:E; simpl; [|unfold uint; lia].
  by eapply Forall_lookup_1 in Hb.
Qed.

Lemma length_blit b off a : (off + length a <= length b)%nat → length (blit b off a) = length b.
Proof. intros. unfold blit. rewrite !length_app, length_take, length_drop. lia. Qed.

Lemma blit_here b a : sub (blit b 0 a) 0 (length a) = a.
Proof. unfold blit. simpl. by apply sub_here. Qed.

Lemma sub_cons x b off n : (0 < off)%nat → sub (x :: b) off n = sub b (off - 1) n.
Proof. intros. apply (sub_skip [x] b). simpl. lia. Qed.

Lemma app_all_eq (a b : bytes) off n m : sub a off n = sub b off n →
  sub a (off + n) m = sub b (off + n) m → sub a off (n + m) = sub b off (n + m).
Proof. intros H1 H2. by rewrite !sub_split, H1, H2. Qed.

(** Reading fixed-size records out of their concatenation, and back. *)
Lemma concat_windows {A} (enc : A → bytes) (k : nat) (l : list A) (h : bytes) :
  (∀ x, length (enc x) = k) →
  (λ i, sub (h ++ concat (enc <$> l)) (length h + i * k) k) <$> seq 0 (length l) = enc <$> l.
Proof.
  intros Hk. revert h. induction l as [|x l IH]; intros h; [done|].
  cbn [length seq fmap list_fmap concat]. f_equal.
  - rewrite sub_skip by lia. replace (length h + 0 * k - length h)%nat with 0%nat by lia.
    by apply sub_here.
  - etransitivity; [|exact (IH (h ++ enc x))].
    rewrite <- (fmap_S_seq 0), <- list_fmap_compose.
    apply list_fmap_ext. intros _ i _. simpl. rewrite <- app_assoc.
    f_equal. rewrite length_app, Hk. lia.
Qed.

Lemma windows_concat (k n : nat) : ∀ off b, length b = (off + n * k)%nat →
  concat ((λ i, sub b (off + i * k) k) <$> seq 0 n) = drop off b.
Proof.
  induction n as [|n IH]; intros off b Hb; cbn [seq fmap list_fmap concat].
  { rewrite drop_ge; [done|lia]. }
  rewrite <- (fmap_S_seq 0), <- list_fmap_compose.
  rewrite (list_fmap_ext _ (λ i, sub b (off + k + i * k) k)).
  2:{ intros _ i _. simpl. f_equal. lia. }
  rewrite IH by lia. unfold sub. rewrite Nat.mul_0_l, Nat.add_0_r.
  rewrite <- drop_drop. by rewrite take_drop.
Qed.

End Windows.

(** Evaluate the lengths known from the context and the [lens] database. *)
Ltac lens :=
  autorewrite with lens;
  repeat match goal with H : length ?x = _ |- context [length ?x] => rewrite H end;
  cbn [length app]; try done; try lia.

(** Locate a window of an appended byte string, piece by piece. *)
Ltac seek :=
  repeat match goal with
  | |- context [sub (?a ++ ?b) 0%nat ?n] => rewrite (sub_here a b n) by lens
  | |- context [sub (?a ++ ?b) ?off ?n] =>
      rewrite (sub_skip a b off n) by lens; lens; cbn [Nat.sub]
  | |- context [sub (?x :: ?b) ?off ?n] =>
      rewrite (sub_cons x b off n) by lia; cbn [Nat.sub]
  | |- context [sub ?b 0%nat ?n] => rewrite (sub_all b n) by lens
  end.

(** Likewise a single byte. *)
Ltac pick :=
  repeat match goal with
  | |- context [at_ (?a ++ ?b) ?i] => rewrite (at_skip a b i) by lens; lens; cbn [Nat.sub]
  | |- context [at_ (?x :: ?b) 0%nat] => change (at_ (x :: b) 0) with x
  | |- context [at_ (?x :: ?b) (S ?i)] => change (at_ (x :: b) (S i)) with (at_ b i)
  end.
#[export] Hint Resolve sub_bytes_ok sub_Forall at_u8 : mesh.

(** ** Byte strings cut into pieces *)

Lemma sub_cat (b : bytes) off n k m : k = (off + n)%nat → sub b off n ++ sub b k m = sub b off (n + m).
Proof. intros ->. by rewrite sub_split. Qed.

(** Join adjacent windows of [b] back together. *)
Ltac join := rewrite ?sub_cat by reflexivity; cbn [Nat.add].

Lemma take_whole n (b : bytes) : bytes_ok n b → take n b = b.
Proof. intros [Hl _]. apply take_ge. lia. Qed.

(** A byte string cut into pieces of known lengths: the window of each piece. *)
Lemma piece_at (ps : list bytes) ls k x off n : length <$> ps = ls → ps !! k = Some x →
  off = sum_list (take k ls) → ls !! k = Some n → sub (concat ps) off n = x.
Proof.
  intros <-. revert k off. induction ps as [|y ps IH]; intros k off Hx Ho Hn; [done|].
  destruct k as [|k].
  - cbn in *. simplify_eq. by apply sub_here.
  - cbn in *. subst off. rewrite sub_skip by lia. apply (IH k); try done. lia.
Qed.

Fixpoint piece_index (ls : list nat) (off : nat) : nat :=
  match ls with
  | [] => O
  | l :: ls' => match off with O => O | _ => S (piece_index ls' (off - l)) end
  end.

(** Replace every window of [concat ps] by the piece it covers, given the lengths [H]. *)
Ltac find_pieces H :=
  repeat match type of H with length <$> ?ps = ?ls =>
    match goal with |- context [sub (concat ps) ?off ?n] =>
      let k := eval vm_compute in (piece_index ls off) in
      erewrite (piece_at ps ls k _ off n H); [|reflexivity..]
    end end.

Lemma at_window b i n : length b = n → (i < n)%nat → [at_ b i] = sub b i 1.
Proof. intros <- Hi. by rewrite at_sub. Qed.

Lemma memeq_prefix (a b : bytes) : (length b <= length a)%nat →
  memeq (length b) a b = true ↔ sub a 0 (length b) = b.
Proof.
  intros Hl. unfold memeq, sub. rewrite bool_decide_eq_true, drop_0, (take_ge b) by lia. done.
Qed.

Lemma length_concat (ps : list bytes) : length (concat ps) = sum_list (length <$> ps).
Proof. induction ps as [|p ps IH]; [done|]. cbn. by rewrite length_app, IH. Qed.

(** ** Slot-table lemmas *)

Section Slots.
Context {A : Type}.
Implicit Types (p : A → bool) (l : list A).

Lemma find_slot_Some p l i x : find_slot p l = Some (i, x) →
  l !! i = Some x ∧ p x = true.
Proof.
  revert i. induction l as [|y l IH]; intros i; simpl; [done|].
  destruct (p y) eqn:E; [by intros [= <- <-]|].
  destruct (find_slot p l) as [[j z]|]; simpl; [|done].
  intros [= <- <-]. by apply IH.
Qed.

Lemma find_slot_first p l i x j y : find_slot p l = Some (i, x) →
  (j < i)%nat → l !! j = Some y → p y = false.
Proof.
  revert i j. induction l as [|z l IH]; intros i j; simpl; [done|].
  destruct (p z) eqn:E; [intros [= <- <-]; lia|].
  destruct (find_slot p l) as [[k w]|]; simpl; [|done].
  intros [= <- <-] Hj. destruct j as [|j]; simpl; [congruence|].
  intros Hy. eapply IH; [done| |done]. lia.
Qed.

Lemma find_slot_None p l : find_slot p l = None ↔ ∀ i x, l !! i = Some x → p x = false.
Proof.
  induction l as [|y l IH]; simpl; [by split|].
  destruct (p y) eqn:E.
  - split; [done|]. intros H. specialize (H 0%nat y eq_refl). congruence.
  - rewrite fmap_None, IH. split; intros H.
    + intros [|i] x; simpl; [congruence|]. apply H.
    + intros i x Hx. by apply (H (S i)).
Qed.

Lemma find_slot_is_Some p l i x :
  l !! i = Some x → p x = true → is_Some (find_slot p l).
Proof.
  intros Hi Hp. destruct (find_slot p l) eqn:E; [done|].
  rewrite find_slot_None in E. rewrite (E _ _ Hi) in Hp. done.
Qed.

Lemma count_slots_bounds p l : 0 <= count_slots p l <= Z.of_nat (length l).
Proof. induction l as [|x l IH]; simpl; [lia|]. case_match; lia. Qed.

Lemma count_slots_insert p l i x y : l !! i = Some x →
  count_slots p (<[i:=y]> l) =
    count_slots p l - (if p x then 1 else 0) + (if p y then 1 else 0).
Proof.
  revert i. induction l as [|z l IH]; intros [|i]; simpl; try done.
  - intros [= ->]. lia.
  - intros Hx. rewrite (IH _ Hx). lia.
Qed.

Lemma count_slots_full p l :
  find_slot (λ x, negb (p x)) l = None ↔ count_slots p l = Z.of_nat (length l).
Proof.
  induction l as [|x l IH]; [done|]. cbn [find_slot count_slots length].
  pose proof (count_slots_bounds p l).
  destruct (p x); simpl; [rewrite fmap_None, IH; lia|]. split; [done|lia].
Qed.

Lemma count_slots_zero p l i x : count_slots p l = 0 → l !! i = Some x → p x = false.
Proof.
  revert i. induction l as [|y l IH]; intros i; simpl; [done|].
  pose proof (count_slots_bounds p l). destruct (p y) eqn:E; [lia|].
  intros Hc. destruct i as [|i]; simpl; [by intros [= <-]|]. apply IH. lia.
Qed.

Lemma count_slots_ext p q l : (∀ x, x ∈ l → p x = q x) → count_slots p l = count_slots q l.
Proof.
  induction l as [|x l IH]; intros H; simpl; [done|].
  rewrite IH by set_solver. by rewrite (H x) by set_solver.
Qed.

Lemma count_slots_replicate p n x : p x = false → count_slots p (replicate n x) = 0.
Proof. intros H. induction n; simpl; [done|]. rewrite H. lia. Qed.

Lemma find_slot_ext p q l : (∀ x, x ∈ l → p x = q x) → find_slot p l = find_slot q l.
Proof.
  induction l as [|x l IH]; intros H; simpl; [done|].
  rewrite IH by set_solver. by rewrite (H x) by set_solver.
Qed.

Lemma Forall_insert_slot (P : A → Prop) l i y : Forall P l → P y → Forall P (<[i:=y]> l).
Proof. intros. by apply Forall_insert. Qed.

End Slots.

(** ** Keyed slot tables and the maps they implement *)

Section Keyed.
Context {A K : Type} `{Countable K}.
Context (occ : A → bool) (key : A → K).
Implicit Types l : list A.

Lemma slot_key_true k x : slot_key occ key k x = true ↔ occ x = true ∧ key x = k.
Proof. unfold slot_key. by rewrite andb_true_iff, bool_decide_eq_true. Qed.

Lemma slots_unique_insert l i x y :
  slots_unique occ key l → l !! i = Some x →
  (occ y = true → ∀ j z, l !! j = Some z → occ z = true → key z = key y → j = i) →
  slots_unique occ key (<[i:=y]> l).
Proof.
  intros Hu Hi Hy j k z w Hj Hk Hz Hw Heq.
  destruct (decide (j = i)) as [->|Hij], (decide (k = i)) as [->|Hik]; try done.
  - rewrite list_lookup_insert_eq in Hj by (by eapply lookup_lt_Some). simplify_eq.
    rewrite list_lookup_insert_ne in Hk by done. symmetry. by eapply Hy.
  - rewrite list_lookup_insert_eq in Hk by (by eapply lookup_lt_Some). simplify_eq.
    rewrite list_lookup_insert_ne in Hj by done. by eapply Hy.
  - rewrite list_lookup_insert_ne in Hj, Hk by done. by eapply Hu.
Qed.

(** Updating an occupied slot under its own key. *)
Lemma slots_unique_update l i x y :
  slots_unique occ key l → l !! i = Some x → occ x = true → key y = key x →
  slots_unique occ key (<[i:=y]> l).
Proof.
  intros Hu Hi Hx Hk. eapply slots_unique_insert; [done..|].
  intros _ j z Hj Hz Hkz. eapply Hu; [done..|congruence].
Qed.

(** Filling any slot with a key no occupied slot has. *)
Lemma slots_unique_fresh l i x y :
  slots_unique occ key l → l !! i = Some x →
  find_slot (slot_key occ key (key y)) l = None →
  slots_unique occ key (<[i:=y]> l).
Proof.
  intros Hu Hi Hf. eapply slots_unique_insert; [done..|].
  intros _ j z Hj Hz Hkz. rewrite find_slot_None in Hf. specialize (Hf _ _ Hj).
  assert (slot_key occ key (key y) z = true) by (by apply slot_key_true). congruence.
Qed.

(** Clearing a slot. *)
Lemma slots_unique_clear l i x y :
  slots_unique occ key l → l !! i = Some x → occ y = false →
  slots_unique occ key (<[i:=y]> l).
Proof. intros Hu Hi Hy. eapply slots_unique_insert; [done..|congruence]. Qed.

Lemma slots_unique_replicate n x : occ x = false → slots_unique occ key (replicate n x).
Proof.
  intros Hx i j y z Hi _ Hy. apply lookup_replicate_1 in Hi as [-> _]. congruence.
Qed.

Lemma find_slot_unique l i x :
  slots_unique occ key l → l !! i = Some x → occ x = true →
  find_slot (slot_key occ key (key x)) l = Some (i, x).
Proof.
  intros Hu Hi Hx.
  destruct (find_slot (slot_key occ key (key x)) l) as [[j y]|] eqn:E.
  - apply find_slot_Some in E as [Hj [Hy Hk]%slot_key_true].
    assert (j = i) as -> by (by eapply Hu). congruence.
  - rewrite find_slot_None in E. specialize (E _ _ Hi).
    assert (slot_key occ key (key x) x = true) by (by apply slot_key_true). congruence.
Qed.

Lemma slot_keys_NoDup l : slots_unique occ key l →
  NoDup (((λ x, (key x, x)) <$> filter (λ x, occ x = true) l).*1).
Proof.
  intros Hu. rewrite <- list_fmap_compose.
  assert (Hf : (fst ∘ λ x, (key x, x)) <$> filter (λ x, occ x = true) l
    = key <$> filter (λ x, occ x = true) l) by (by apply list_fmap_ext).
  rewrite Hf. clear Hf. induction l as [|y l IH]; [constructor|].
  assert (Hu' : slots_unique occ key l).
  { intros i j z w Hi Hj ???. enough (S i = S j) by lia. by eapply (Hu (S i) (S j)). }
  rewrite filter_cons. case_decide as Hy; [|by apply IH].
  simpl. constructor; [|by apply IH].
  intros (z & Hk & [Hz Hin]%list_elem_of_filter)%list_elem_of_fmap.
  apply list_elem_of_lookup in Hin as [i Hi].
  by specialize (Hu 0%nat (S i) y z eq_refl Hi Hy Hz Hk).
Qed.

Lemma slot_map_lookup l k x : slots_unique occ key l →
  slot_map occ key l !! k = Some x ↔ ∃ i, l !! i = Some x ∧ occ x = true ∧ key x = k.
Proof.
  intros Hu. unfold slot_map. rewrite <- elem_of_list_to_map by (by apply slot_keys_NoDup).
  rewrite list_elem_of_fmap. split.
  - intros (y & [= -> ->] & [Hy Hin]%list_elem_of_filter).
    apply list_elem_of_lookup in Hin as [i Hi]. eauto.
  - intros (i & Hi & Hx & <-). exists x. split; [done|].
    apply list_elem_of_filter. split; [done|]. by eapply list_elem_of_lookup_2.
Qed.

Lemma slot_map_size l : slots_unique occ key l →
  Z.of_nat (size (slot_map occ key l)) = count_slots occ l.
Proof.
  intros Hu. unfold slot_map. rewrite map_size_list_to_map by (by apply slot_keys_NoDup).
  rewrite length_fmap. clear Hu. induction l as [|x l IH]; [done|].
  rewrite filter_cons. simpl. case_decide as Hx; [rewrite Hx; simpl; lia|].
  apply not_true_is_false in Hx. rewrite Hx. lia.
Qed.

(** The loop that looks a key up is lookup in the map. *)
Lemma slot_map_find l k : slots_unique occ key l →
  slot_map occ key l !! k = snd <$> find_slot (slot_key occ key k) l.
Proof.
  intros Hu. apply option_eq. intros x. rewrite slot_map_lookup by done.
  split.
  - intros (i & Hi & Hx & <-). by rewrite (find_slot_unique _ _ _ Hu Hi Hx).
  - intros ([j y] & E & ->)%fmap_Some.
    apply find_slot_Some in E as [Hj [Hy Hk]%slot_key_true]. eauto.
Qed.

(** Writing a slot is insertion in the map, for an update as for a fresh key. *)
Lemma slot_map_insert l i x y :
  slots_unique occ key l → l !! i = Some x → occ y = true →
  (occ x = true → key x = key y) →
  (occ x = false → find_slot (slot_key occ key (key y)) l = None) →
  slot_map occ key (<[i:=y]> l) = <[key y:=y]> (slot_map occ key l).
Proof.
  intros Hu Hi Hy Hsame Hfresh.
  assert (Hu' : slots_unique occ key (<[i:=y]> l)).
  { destruct (occ x) eqn:Hx;
      [eapply slots_unique_update | eapply slots_unique_fresh]; eauto. by rewrite Hsame. }
  assert (Hlt : (i < length l)%nat) by (by eapply lookup_lt_Some).
  apply map_eq. intros k. apply option_eq. intros z.
  rewrite slot_map_lookup by done. rewrite lookup_insert_Some, slot_map_lookup by done.
  split.
  - intros (j & Hj & Hz & <-). destruct (decide (j = i)) as [->|Hij].
    + rewrite list_lookup_insert_eq in Hj by done. left. by simplify_eq.
    + right. split; [|rewrite list_lookup_insert_ne in Hj by done; eauto].
      intros Hk. apply Hij. eapply Hu'; [exact Hj|by apply list_lookup_insert_eq|done..].
  - intros [[<- <-]|(Hk & j & Hj & Hz & <-)].
    + exists i. by rewrite list_lookup_insert_eq.
    + exists j. rewrite list_lookup_insert_ne; [done|]. intros ->.
      simplify_eq. by specialize (Hsame Hz).
Qed.

Lemma slot_map_replicate n x : occ x = false → slot_map occ key (replicate n x) = ∅.
Proof.
  intros Hx. apply map_empty. intros k. apply eq_None_not_Some. intros [y Hy].
  apply slot_map_lookup in Hy as (i & Hi & Hy & _); [|by apply slots_unique_replicate].
  apply lookup_replicate_1 in Hi as [-> _]. congruence.
Qed.

End Keyed.
