(* ===== verification/Wire.v ===== *)
(** * Fixed-width integers on the wire

    The little-endian helpers shared by the Raft command codecs
    ([mesh_task_lease_raft.c], [mesh_flow_ruleset_raft.c]) and the big-endian
    helpers of the management protocol ([mesh_mgmt_wire.h]).  A writer is the
    list of bytes it stores at its output pointer; a reader takes the bytes at
    its input pointer.  Each is shown equal to the reference encoders
    [le_bytes]/[be_bytes] and decoders [le_value]/[be_value] of the prelude. *)

From S2P Require Import Prelude.

(** ** Little endian *)

Definition write_u16_le (value : Z) : bytes :=
  [Z.land value 255; Z.land (Z.shiftr value 8) 255].
Definition read_u16_le (input : bytes) : Z :=
  wrap 16 (Z.lor (at_ input 0) (Z.shiftl (at_ input 1) 8)).

Definition write_u32_le (value : Z) : bytes :=
  [Z.land value 255; Z.land (Z.shiftr value 8) 255;
   Z.land (Z.shiftr value 16) 255; Z.land (Z.shiftr value 24) 255].
Definition read_u32_le (input : bytes) : Z :=
  wrap 32 (Z.lor (Z.lor (Z.lor (at_ input 0) (Z.shiftl (at_ input 1) 8))
                        (Z.shiftl (at_ input 2) 16)) (Z.shiftl (at_ input 3) 24)).

Definition write_u64_le (value : Z) : bytes :=
  (λ index, Z.land (Z.shiftr value (Z.of_nat index * 8)) 255) <$> seq 0 8.
Definition read_u64_le (input : bytes) : Z :=
  foldl (λ value index, Z.lor value (wrap 64 (Z.shiftl (at_ input index) (Z.of_nat index * 8))))
    0 (seq 0 8).

(** ** Big endian *)

Definition mesh_mgmt_wire_read_u16 (b : bytes) : Z :=
  wrap 16 (Z.lor (Z.shiftl (at_ b 0) 8) (at_ b 1)).
Definition mesh_mgmt_wire_read_u32 (b : bytes) : Z :=
  wrap 32 (Z.lor (Z.lor (Z.lor (Z.shiftl (at_ b 0) 24) (Z.shiftl (at_ b 1) 16))
                        (Z.shiftl (at_ b 2) 8)) (at_ b 3)).
Definition mesh_mgmt_wire_read_u64 (b : bytes) : Z :=
  foldl (λ value index, Z.lor (wrap 64 (Z.shiftl value 8)) (at_ b index)) 0 (seq 0 8).

Definition mesh_mgmt_wire_write_u16 (value : Z) : bytes :=
  [Z.land (Z.shiftr value 8) 255; Z.land value 255].
Definition mesh_mgmt_wire_write_u32 (value : Z) : bytes :=
  [Z.land (Z.shiftr value 24) 255; Z.land (Z.shiftr value 16) 255;
   Z.land (Z.shiftr value 8) 255; Z.land value 255].
Definition mesh_mgmt_wire_write_u64 (value : Z) : bytes :=
  (λ index, Z.land (Z.shiftr value (56 - Z.of_nat index * 8)) 255) <$> seq 0 8.

(** Field id, truncated 16-bit length, value. *)
Definition MESH_MGMT_TLV_PREFIX_SIZE : nat := 4.
Definition mesh_mgmt_wire_write_tlv (field_id : Z) (value : bytes) : bytes :=
  mesh_mgmt_wire_write_u16 field_id ++
  mesh_mgmt_wire_write_u16 (wrap 16 (len value)) ++ value.

#[global] Arguments write_u16_le : simpl never.
#[global] Arguments write_u32_le : simpl never.
#[global] Arguments write_u64_le : simpl never.
#[global] Arguments read_u16_le : simpl never.
#[global] Arguments read_u32_le : simpl never.
#[global] Arguments read_u64_le : simpl never.
#[global] Arguments mesh_mgmt_wire_read_u16 : simpl never.
#[global] Arguments mesh_mgmt_wire_read_u32 : simpl never.
#[global] Arguments mesh_mgmt_wire_read_u64 : simpl never.
#[global] Arguments mesh_mgmt_wire_write_u16 : simpl never.
#[global] Arguments mesh_mgmt_wire_write_u32 : simpl never.
#[global] Arguments mesh_mgmt_wire_write_u64 : simpl never.

(** ** Equality with the reference encoders *)

Section Writers.

Lemma write_u16_le_eq v : write_u16_le v = le_bytes 2 v.
Proof. done. Qed.

Lemma write_u32_le_eq v : write_u32_le v = le_bytes 4 v.
Proof. unfold write_u32_le. cbn [le_bytes]. by rewrite !Z.shiftr_shiftr. Qed.

Lemma write_u64_le_eq v : write_u64_le v = le_bytes 8 v.
Proof.
  unfold write_u64_le. cbn [le_bytes seq fmap list_fmap].
  rewrite !Z.shiftr_shiftr by lia. simpl. by rewrite Z.shiftr_0_r.
Qed.

Lemma wire_write_u16_eq v : mesh_mgmt_wire_write_u16 v = be_bytes 2 v.
Proof. done. Qed.

Lemma wire_write_u32_eq v : mesh_mgmt_wire_write_u32 v = be_bytes 4 v.
Proof.
  unfold mesh_mgmt_wire_write_u32, be_bytes. cbn [le_bytes]. by rewrite !Z.shiftr_shiftr.
Qed.

Lemma wire_write_u64_eq v : mesh_mgmt_wire_write_u64 v = be_bytes 8 v.
Proof.
  unfold mesh_mgmt_wire_write_u64, be_bytes. cbn [le_bytes].
  rewrite !Z.shiftr_shiftr by lia. simpl. by rewrite Z.shiftr_0_r.
Qed.

Lemma length_write_u16_le v : length (write_u16_le v) = 2%nat.
Proof. done. Qed.
Lemma length_write_u32_le v : length (write_u32_le v) = 4%nat.
Proof. done. Qed.
Lemma length_write_u64_le v : length (write_u64_le v) = 8%nat.
Proof. done. Qed.
Lemma length_wire_write_u16 v : length (mesh_mgmt_wire_write_u16 v) = 2%nat.
Proof. done. Qed.
Lemma length_wire_write_u32 v : length (mesh_mgmt_wire_write_u32 v) = 4%nat.
Proof. done. Qed.

End Writers.
#[export] Hint Rewrite length_write_u16_le length_write_u32_le length_write_u64_le
  length_wire_write_u16 length_wire_write_u32 : lens.

Section Readers.

(** Destruct a byte string of a small concrete length. *)
Ltac spell b H :=
  repeat (let x := fresh "x" in destruct b as [|x b]; [discriminate H|]; simpl in H);
  destruct b; [|discriminate H]; clear H.

Lemma le_value_wrap w b : Forall u8 b → w = 8 * len b → wrap w (le_value b) = le_value b.
Proof. intros Hb ->. apply wrap_small, le_value_range, Hb. Qed.

Lemma read_u16_le_eq b : bytes_ok 2 b → read_u16_le b = le_value b.
Proof.
  intros [Hl Hb]. rewrite <- (le_value_wrap 16 b Hb) by (unfold len; lia).
  spell b Hl. unfold read_u16_le, at_. simpl. by rewrite Z.lor_0_r.
Qed.

Lemma read_u32_le_eq b : bytes_ok 4 b → read_u32_le b = le_value b.
Proof.
  intros [Hl Hb]. rewrite <- (le_value_wrap 32 b Hb) by (unfold len; lia).
  spell b Hl. unfold read_u32_le, at_. cbn [le_value lookup list_lookup default].
  rewrite !Z.shiftl_lor, !Z.shiftl_shiftl, Z.shiftl_0_l, Z.lor_0_r by lia.
  by rewrite !Z.lor_assoc.
Qed.

Lemma shiftl_byte_wrap x k : u8 x → 0 <= k <= 56 → wrap 64 (Z.shiftl x k) = Z.shiftl x k.
Proof.
  unfold uint. intros Hx Hk. apply wrap_small. unfold uint.
  rewrite Z.shiftl_mul_pow2 by lia.
  assert (2 ^ k <= 2 ^ 56) by (apply Z.pow_le_mono_r; lia). nia.
Qed.

Lemma read_u64_le_eq b : bytes_ok 8 b → read_u64_le b = le_value b.
Proof.
  intros [Hl Hb]. spell b Hl. rewrite !Forall_cons in Hb.
  destruct Hb as (H0 & H1 & H2 & H3 & H4 & H5 & H6 & H7 & _).
  unfold read_u64_le, at_. cbn [seq foldl le_value lookup list_lookup default].
  rewrite !shiftl_byte_wrap by (done || lia).
  rewrite !Z.shiftl_lor, !Z.shiftl_shiftl, Z.shiftl_0_l, Z.lor_0_r by lia.
  change (Z.shiftl x (Z.of_nat 0 * 8)) with (Z.shiftl x 0).
  by rewrite Z.shiftl_0_r, Z.lor_0_l, !Z.lor_assoc.
Qed.

Lemma be_value_wrap w b : Forall u8 b → w = 8 * len b → wrap w (be_value b) = be_value b.
Proof. intros Hb ->. apply wrap_small, be_value_range, Hb. Qed.

Lemma wire_read_u16_eq b : bytes_ok 2 b → mesh_mgmt_wire_read_u16 b = be_value b.
Proof.
  intros [Hl Hb]. rewrite <- (be_value_wrap 16 b Hb) by (unfold len; lia).
  spell b Hl. unfold mesh_mgmt_wire_read_u16, at_, be_value. simpl. done.
Qed.

Lemma wire_read_u32_eq b : bytes_ok 4 b → mesh_mgmt_wire_read_u32 b = be_value b.
Proof.
  intros [Hl Hb]. rewrite <- (be_value_wrap 32 b Hb) by (unfold len; lia).
  spell b Hl. unfold mesh_mgmt_wire_read_u32, at_, be_value.
  cbn [foldl lookup list_lookup default].
  rewrite !Z.shiftl_lor, !Z.shiftl_shiftl, !Z.shiftl_0_l, Z.lor_0_l by lia. done.
Qed.

Lemma be_foldl_wrap b : ∀ acc n, Forall u8 b → 0 <= acc < 2 ^ (8 * n) → 0 <= n →
  n + len b <= 8 →
  foldl (λ v x, Z.lor (wrap 64 (Z.shiftl v 8)) x) acc b =
  foldl (λ v x, Z.lor (Z.shiftl v 8) x) acc b.
Proof.
  induction b as [|x b IH]; intros acc n Hb Hacc Hn Hlen; [done|].
  apply Forall_cons in Hb as [Hx Hb]. unfold len in *. simpl length in Hlen.
  assert (Hs : 0 <= Z.shiftl acc 8 < 2 ^ (8 * (n + 1))).
  { rewrite Z.shiftl_mul_pow2, Z.mul_add_distr_l, Z.pow_add_r by lia. lia. }
  assert (2 ^ (8 * (n + 1)) <= 2 ^ 64) by (apply Z.pow_le_mono_r; lia).
  cbn [foldl]. rewrite wrap_small by (unfold uint; lia).
  apply (IH _ (n + 1)); try done; try lia.
  rewrite Z.lor_comm, lor_byte by (done || lia). unfold uint in Hx.
  rewrite Z.shiftl_mul_pow2 in Hs by lia.
  replace (2 ^ (8 * (n + 1))) with (256 * 2 ^ (8 * n)) by
    (rewrite Z.mul_add_distr_l, Z.pow_add_r by lia; lia). lia.
Qed.

Lemma wire_read_u64_eq b : bytes_ok 8 b → mesh_mgmt_wire_read_u64 b = be_value b.
Proof.
  intros [Hl Hb]. unfold be_value. rewrite <- (be_foldl_wrap b 0 0) by (done || unfold len; lia).
  spell b Hl. unfold mesh_mgmt_wire_read_u64, at_. cbn [seq foldl lookup list_lookup default].
  reflexivity.
Qed.

End Readers.

(** ** Round trips *)

Section RoundTrips.

Lemma read_write_u16_le v : u16 v → read_u16_le (write_u16_le v) = v.
Proof.
  intros Hv. rewrite write_u16_le_eq, read_u16_le_eq by (split; auto with mesh).
  by apply le_value_bytes.
Qed.

Lemma read_write_u32_le v : u32 v → read_u32_le (write_u32_le v) = v.
Proof.
  intros Hv. rewrite write_u32_le_eq, read_u32_le_eq by (split; auto with mesh).
  by apply le_value_bytes.
Qed.

Lemma read_write_u64_le v : u64 v → read_u64_le (write_u64_le v) = v.
Proof.
  intros Hv. rewrite write_u64_le_eq, read_u64_le_eq by (split; auto with mesh).
  by apply le_value_bytes.
Qed.

Lemma write_read_u16_le b : bytes_ok 2 b → write_u16_le (read_u16_le b) = b.
Proof.
  intros Hb. rewrite write_u16_le_eq, read_u16_le_eq by done.
  destruct Hb as [<- Hb]. by apply le_bytes_value.
Qed.

Lemma write_read_u32_le b : bytes_ok 4 b → write_u32_le (read_u32_le b) = b.
Proof.
  intros Hb. rewrite write_u32_le_eq, read_u32_le_eq by done.
  destruct Hb as [<- Hb]. by apply le_bytes_value.
Qed.

Lemma write_read_u64_le b : bytes_ok 8 b → write_u64_le (read_u64_le b) = b.
Proof.
  intros Hb. rewrite write_u64_le_eq, read_u64_le_eq by done.
  destruct Hb as [<- Hb]. by apply le_bytes_value.
Qed.

Lemma wire_read_write_u16 v : u16 v → mesh_mgmt_wire_read_u16 (mesh_mgmt_wire_write_u16 v) = v.
Proof.
  intros Hv. rewrite wire_write_u16_eq, wire_read_u16_eq by (split; auto with mesh).
  by apply be_value_bytes.
Qed.

Lemma wire_read_write_u32 v : u32 v → mesh_mgmt_wire_read_u32 (mesh_mgmt_wire_write_u32 v) = v.
Proof.
  intros Hv. rewrite wire_write_u32_eq, wire_read_u32_eq by (split; auto with mesh).
  by apply be_value_bytes.
Qed.

Lemma wire_read_write_u64 v : u64 v → mesh_mgmt_wire_read_u64 (mesh_mgmt_wire_write_u64 v) = v.
Proof.
  intros Hv. rewrite wire_write_u64_eq, wire_read_u64_eq by (split; auto with mesh).
  by apply be_value_bytes.
Qed.

Lemma wire_write_read_u16 b : bytes_ok 2 b → mesh_mgmt_wire_write_u16 (mesh_mgmt_wire_read_u16 b) = b.
Proof.
  intros Hb. rewrite wire_write_u16_eq, wire_read_u16_eq by done.
  destruct Hb as [<- Hb]. by apply be_bytes_value.
Qed.

Lemma wire_write_read_u32 b : bytes_ok 4 b → mesh_mgmt_wire_write_u32 (mesh_mgmt_wire_read_u32 b) = b.
Proof.
  intros Hb. rewrite wire_write_u32_eq, wire_read_u32_eq by done.
  destruct Hb as [<- Hb]. by apply be_bytes_value.
Qed.

Lemma wire_write_read_u64 b : bytes_ok 8 b → mesh_mgmt_wire_write_u64 (mesh_mgmt_wire_read_u64 b) = b.
Proof.
  intros Hb. rewrite wire_read_u64_eq, wire_write_u64_eq by done.
  rewrite <- (bytes_ok_length 8 b Hb) at 1. apply be_bytes_value, Hb.
Qed.

Lemma read_u16_le_range b : u16 (read_u16_le b).
Proof. by apply wrap_range. Qed.
Lemma read_u32_le_range b : u32 (read_u32_le b).
Proof. by apply wrap_range. Qed.
Lemma read_u64_le_range b : bytes_ok 8 b → u64 (read_u64_le b).
Proof.
  intros Hb. rewrite read_u64_le_eq by done. pose proof (le_value_range b (proj2 Hb)) as H.
  unfold len in H. by rewrite (proj1 Hb) in H.
Qed.
Lemma wire_read_u16_range b : u16 (mesh_mgmt_wire_read_u16 b).
Proof. by apply wrap_range. Qed.
Lemma wire_read_u32_range b : u32 (mesh_mgmt_wire_read_u32 b).
Proof. by apply wrap_range. Qed.

End RoundTrips.
#[export] Hint Resolve read_u16_le_range read_u32_le_range read_u64_le_range
  wire_read_u16_range wire_read_u32_range : mesh.
