(* ===== verification/MgmtCrypto.v ===== *)
(** * Cryptographic wrappers: [mesh/src/mesh_mgmt_crypto.c]

    The Ed25519 functions call OpenSSL, which is outside the repository: what a
    sequence of EVP calls returns is a parameter.  The hash is the vendored
    BLAKE2b, also a parameter.  The constant-time comparisons of the vendored
    library are translated, and proved to decide equality. *)

From S2P Require Import Prelude.

Definition MESH_MGMT_ED25519_PRIVATE_KEY_SIZE : nat := 32.
Definition MESH_MGMT_ED25519_PUBLIC_KEY_SIZE : nat := 32.
Definition MESH_MGMT_ED25519_SIGNATURE_SIZE : nat := 64.
Definition MESH_MGMT_BLAKE2B_256_SIZE : nat := 32.

Inductive mesh_mgmt_crypto_result : Type :=
  | MESH_MGMT_CRYPTO_OK
  | MESH_MGMT_CRYPTO_INVALID_ARG
  | MESH_MGMT_CRYPTO_FAILURE
  | MESH_MGMT_CRYPTO_AUTH_FAILED.

#[export] Instance mesh_mgmt_crypto_result_eq_dec : EqDecision mesh_mgmt_crypto_result.
Proof. solve_decision. Defined.

(** ** External functions *)

(** What the EVP calls of each wrapper yield: a key or context that cannot be
    created, or an operation that fails or answers with another length, is
    [None]; [evp_verify] is the return value of the verification. *)
Class Crypto : Type := {
  evp_public : bytes → option bytes;
  evp_sign : bytes → bytes → option bytes;
  evp_verify : bytes → bytes → bytes → option Z;
  crypto_blake2b : bytes → bytes }.

(** Documented behaviour: output sizes, and that a signature made with a private
    key verifies under its public key. *)
Class CryptoLaws `{Crypto} : Prop := {
  evp_public_size sk pk : evp_public sk = Some pk → bytes_ok 32 pk;
  evp_sign_size sk msg s : evp_sign sk msg = Some s → bytes_ok 64 s;
  crypto_blake2b_size msg : bytes_ok 32 (crypto_blake2b msg);
  evp_sign_verify sk pk msg s : evp_public sk = Some pk → evp_sign sk msg = Some s →
    evp_verify pk msg s = Some 1 }.

(** ** Constant-time comparison *)

Definition load32_le (s : bytes) : Z :=
  Z.lor (Z.lor (Z.lor (at_ s 0) (Z.shiftl (at_ s 1) 8)) (Z.shiftl (at_ s 2) 16))
    (Z.shiftl (at_ s 3) 24).
Definition load64_le (s : bytes) : Z :=
  Z.lor (load32_le s) (Z.shiftl (load32_le (drop 4 s)) 32).
Definition neq0 (diff : Z) : Z :=
  let half := Z.lor (Z.shiftr diff 32) (wrap 32 diff) in
  Z.land 1 (Z.shiftr (wrap 64 (half - 1)) 32) - 1.
Definition x16 (a b : bytes) : Z :=
  Z.lor (Z.lxor (load64_le a) (load64_le b))
        (Z.lxor (load64_le (drop 8 a)) (load64_le (drop 8 b))).
Definition x32 (a b : bytes) : Z := Z.lor (x16 a b) (x16 (drop 16 a) (drop 16 b)).
Definition crypto_verify16 (a b : bytes) : Z := neq0 (x16 a b).
Definition crypto_verify32 (a b : bytes) : Z := neq0 (x32 a b).

Definition mesh_mgmt_crypto_equal_32 (lhs rhs : option bytes) : bool :=
  match lhs, rhs with Some l, Some r => crypto_verify32 l r =? 0 | _, _ => false end.
Definition mesh_mgmt_crypto_equal_16 (lhs rhs : option bytes) : bool :=
  match lhs, rhs with Some l, Some r => crypto_verify16 l r =? 0 | _, _ => false end.

(** ** Wrappers *)

Section Wrappers.
Context `{Crypto}.

Definition mesh_mgmt_ed25519_public_from_private (private_key public_key : option bytes) :
    mesh_mgmt_crypto_result * option bytes :=
  if negb (non_null public_key) then (MESH_MGMT_CRYPTO_INVALID_ARG, public_key)
  else
    let public_key := assign public_key (zeros 32) in
    match private_key with
    | None => (MESH_MGMT_CRYPTO_INVALID_ARG, public_key)
    | Some sk =>
        match evp_public sk with
        | Some pk => (MESH_MGMT_CRYPTO_OK, assign public_key pk)
        | None => (MESH_MGMT_CRYPTO_FAILURE, public_key)
        end
    end.

Definition mesh_mgmt_ed25519_sign (private_key message : option bytes) (message_len : Z)
    (signature : option bytes) : mesh_mgmt_crypto_result * option bytes :=
  if negb (non_null signature) then (MESH_MGMT_CRYPTO_INVALID_ARG, signature)
  else
    let signature := assign signature (zeros 64) in
    match private_key with
    | None => (MESH_MGMT_CRYPTO_INVALID_ARG, signature)
    | Some sk =>
        if negb (non_null message) && negb (message_len =? 0)
        then (MESH_MGMT_CRYPTO_INVALID_ARG, signature)
        else
          match evp_sign sk (take (Z.to_nat message_len) (deref [] message)) with
          | Some s => (MESH_MGMT_CRYPTO_OK, assign signature s)
          | None => (MESH_MGMT_CRYPTO_FAILURE, signature)
          end
    end.

Definition mesh_mgmt_ed25519_verify (public_key message : option bytes) (message_len : Z)
    (signature : option bytes) : mesh_mgmt_crypto_result :=
  match public_key, signature with
  | Some pk, Some s =>
      if negb (non_null message) && negb (message_len =? 0) then MESH_MGMT_CRYPTO_INVALID_ARG
      else
        match evp_verify pk (take (Z.to_nat message_len) (deref [] message)) s with
        | Some verify_result =>
            if verify_result =? 1 then MESH_MGMT_CRYPTO_OK
            else if verify_result =? 0 then MESH_MGMT_CRYPTO_AUTH_FAILED
            else MESH_MGMT_CRYPTO_FAILURE
        | None => MESH_MGMT_CRYPTO_FAILURE
        end
  | _, _ => MESH_MGMT_CRYPTO_INVALID_ARG
  end.

Definition mesh_mgmt_blake2b_256 (message : option bytes) (message_len : Z)
    (digest : option bytes) : mesh_mgmt_crypto_result * option bytes :=
  if negb (non_null digest) then (MESH_MGMT_CRYPTO_INVALID_ARG, digest)
  else
    let digest := assign digest (zeros 32) in
    if negb (non_null message) && negb (message_len =? 0)
    then (MESH_MGMT_CRYPTO_INVALID_ARG, digest)
    else (MESH_MGMT_CRYPTO_OK,
          assign digest (crypto_blake2b (take (Z.to_nat message_len) (deref [] message)))).

End Wrappers.

(** ** Comparison decides equality *)

Lemma load32_le_eq s : (4 <= length s)%nat → Forall u8 s → load32_le s = le_value (sub s 0 4).
Proof.
  intros Hl Hs. destruct s as [|a [|b [|c [|d s]]]]; cbn in Hl; try lia.
  unfold load32_le. change (sub (a :: b :: c :: d :: s) 0 4) with [a; b; c; d].
  change (at_ _ 0) with a. change (at_ _ 1) with b. change (at_ _ 2) with c.
  change (at_ _ 3) with d. cbn [le_value]. change (Z.shiftl 0 8) with 0. rewrite Z.lor_0_r.
  rewrite !Z.shiftl_lor, !Z.shiftl_shiftl by lia. by rewrite !Z.lor_assoc.
Qed.

Lemma le_value_app a b : le_value (a ++ b) = Z.lor (le_value a) (Z.shiftl (le_value b) (8 * len a)).
Proof.
  unfold len. induction a as [|x a IH]; cbn [app le_value length].
  { by rewrite Z.mul_0_r, Z.shiftl_0_r. }
  rewrite IH, Z.shiftl_lor, Z.shiftl_shiftl, Z.lor_assoc by lia. do 2 f_equal. lia.
Qed.

Lemma load64_le_eq s : (8 <= length s)%nat → Forall u8 s → load64_le s = le_value (sub s 0 8).
Proof.
  intros Hl Hs. unfold load64_le. rewrite !load32_le_eq; rewrite ?length_drop; try lia; try done;
    [|by apply Forall_drop].
  change (sub s 0 8) with (sub s 0 (4 + 4)). rewrite sub_split, le_value_app. unfold len. rewrite length_sub by lia. done.
Qed.

Lemma le_value_inj a b : Forall u8 a → Forall u8 b → length a = length b →
  le_value a = le_value b → a = b.
Proof.
  intros Ha Hb Hl He. by rewrite <- (le_bytes_value a), <- (le_bytes_value b), Hl, He.
Qed.

Lemma log2_bits w x : 0 < w → uint w x ↔ 0 <= x ∧ Z.log2 x < w.
Proof.
  intros Hw. unfold uint. destruct (decide (x = 0)) as [->|].
  { assert (0 < 2 ^ w) by (by apply Z.pow_pos_nonneg; lia). change (Z.log2 0) with 0. lia. }
  split; intros [? ?]; (split; [done|]); apply Z.log2_lt_pow2; lia || done.
Qed.

Lemma lor_uint w x y : 0 < w → uint w x → uint w y → uint w (Z.lor x y).
Proof.
  intros Hw. rewrite !log2_bits by done. intros [? ?] [? ?].
  rewrite Z.log2_lor by done. split; [by apply Z.lor_nonneg|lia].
Qed.

Lemma lxor_uint w x y : 0 < w → uint w x → uint w y → uint w (Z.lxor x y).
Proof.
  intros Hw. rewrite !log2_bits by done. intros [? ?] [? ?].
  split; [by apply Z.lxor_nonneg|]. pose proof (Z.log2_lxor x y). lia.
Qed.

Lemma neq0_spec d : u64 d → (neq0 d = 0 ↔ d = 0).
Proof.
  intros Hd. unfold neq0. set (half := Z.lor (Z.shiftr d 32) (wrap 32 d)).
  assert (Hz : half = 0 ↔ d = 0).
  { unfold half. rewrite Z.lor_eq_0_iff. unfold wrap. rewrite Z.shiftr_div_pow2 by lia.
    pose proof (Z.div_mod d (2 ^ 32)). split; [intros [? ?]; lia|by intros ->]. }
  assert (Hh : u32 half).
  { apply lor_uint; [lia| |apply wrap_range; lia]. unfold uint in *.
    rewrite Z.shiftr_div_pow2 by lia. split; [apply Z.div_pos; lia|apply Z.div_lt_upper_bound; lia]. }
  clearbody half. rewrite <- Hz. clear -Hh. unfold uint in Hh.
  destruct (decide (half = 0)) as [->|Hne]; [done|].
  rewrite wrap_small by (unfold uint; lia). rewrite Z.shiftr_div_pow2, Z.div_small by lia.
  change (Z.land 1 0 - 1) with (-1). split; lia.
Qed.

Lemma x16_spec a b : (16 <= length a)%nat → (16 <= length b)%nat → Forall u8 a → Forall u8 b →
  u64 (x16 a b) ∧ (x16 a b = 0 ↔ take 16 a = take 16 b).
Proof.
  intros Hla Hlb Ha Hb. unfold x16.
  assert (Hw : ∀ s, (8 <= length s)%nat → Forall u8 s →
    load64_le s = le_value (sub s 0 8) ∧ u64 (load64_le s)).
  { intros s Hl Hs. rewrite load64_le_eq by done. split; [done|].
    pose proof (le_value_range (sub s 0 8) (sub_Forall _ _ _ _ Hs)) as Hr.
    unfold len in Hr. rewrite length_sub in Hr by lia. exact Hr. }
  destruct (Hw a) as [Ea Ua]; [lia|done|]. destruct (Hw b) as [Eb Ub]; [lia|done|].
  destruct (Hw (drop 8 a)) as [Ea' Ua']; [rewrite length_drop; lia|by apply Forall_drop|].
  destruct (Hw (drop 8 b)) as [Eb' Ub']; [rewrite length_drop; lia|by apply Forall_drop|].
  split; [by apply lor_uint; try apply lxor_uint|].
  rewrite Z.lor_eq_0_iff, !Z.lxor_eq_0_iff, Ea, Eb, Ea', Eb'.
  assert (Hs : ∀ s : bytes, take 16 s = sub s 0 8 ++ sub (drop 8 s) 0 8).
  { intros s. change (take 16 s) with (sub s 0 (8 + 8)). by rewrite sub_split. }
  rewrite !Hs. split.
  - intros [H1 H2]. f_equal; apply le_value_inj; try (by apply sub_Forall);
      try (by apply sub_Forall, Forall_drop); try done;
      by rewrite !length_sub by (rewrite ?length_drop; lia).
  - intros H. apply app_inj_1 in H as [-> ->]; [done|].
    by rewrite !length_sub by lia.
Qed.

Lemma crypto_equal_16_spec a b : bytes_ok 16 a → bytes_ok 16 b →
  mesh_mgmt_crypto_equal_16 (Some a) (Some b) = bool_decide (a = b).
Proof.
  intros [Hla Ha] [Hlb Hb]. cbn. unfold crypto_verify16.
  destruct (x16_spec a b) as [Hu Hz]; [lia|lia|done|done|].
  rewrite !take_ge in Hz by lia. apply eq_bool_prop_intro.
  by rewrite Is_true_true, Z.eqb_eq, bool_decide_spec, neq0_spec, Hz.
Qed.

Lemma crypto_equal_32_spec a b : bytes_ok 32 a → bytes_ok 32 b →
  mesh_mgmt_crypto_equal_32 (Some a) (Some b) = bool_decide (a = b).
Proof.
  intros [Hla Ha] [Hlb Hb]. cbn. unfold crypto_verify32, x32.
  destruct (x16_spec a b) as [Hu Hz]; [lia|lia|done|done|].
  destruct (x16_spec (drop 16 a) (drop 16 b)) as [Hu' Hz'];
    [rewrite length_drop; lia|rewrite length_drop; lia|by apply Forall_drop|by apply Forall_drop|].
  rewrite !(take_ge (drop 16 _)) in Hz' by (rewrite length_drop; lia).
  apply eq_bool_prop_intro. rewrite Is_true_true, Z.eqb_eq, bool_decide_spec, neq0_spec
    by (by apply lor_uint). rewrite Z.lor_eq_0_iff, Hz, Hz'. split.
  - intros [H1 H2]. by rewrite <- (take_drop 16 a), <- (take_drop 16 b), H1, H2.
  - by intros ->.
Qed.

(** ** A concrete instance, for the witnesses of the clients *)

Definition w_hash (b : bytes) : bytes :=
  (λ x, Z.land x 255) <$> take 32 (reverse b ++ zeros 32).

Lemma w_hash_size b : bytes_ok 32 (w_hash b).
Proof.
  unfold w_hash. split.
  - rewrite length_fmap, length_take, length_app.
    rewrite (bytes_ok_length 32 (zeros 32)) by apply zeros_ok. lia.
  - apply Forall_fmap, Forall_true. intros x. apply land_byte.
Qed.

Definition w_crypto : Crypto :=
  {| evp_public sk := Some (w_hash sk);
     evp_sign sk msg := Some (w_hash sk ++ w_hash msg);
     evp_verify pk msg s := Some (if bool_decide (s = pk ++ w_hash msg) then 1 else 0);
     crypto_blake2b := w_hash |}.

Lemma w_crypto_laws : @CryptoLaws w_crypto.
Proof.
  split; cbn.
  - intros sk pk [= <-]. apply w_hash_size.
  - intros sk msg s [= <-]. split; [|by apply Forall_app; split; apply w_hash_size].
    by rewrite length_app, !(bytes_ok_length 32) by apply w_hash_size.
  - apply w_hash_size.
  - intros sk pk msg s [= <-] [= <-]. by rewrite bool_decide_eq_true_2.
Qed.
