(* ===== verification/TaskLease.v ===== *)
(** * Task leases: the replicated lease table of [mesh/src/mesh_task_lease.c]

    The store is a fixed array of entries; [Raft] commits commands and the
    functions below apply them.  A NULL pointer argument is [None]; every
    operation returns the result code, the store and the contents of the
    output entry.  [alloc_ok] is the outcome of [calloc].

    The second half gives the table's contract as operations on a finite map
    from command ids to tasks, the refinement theorem, and the fencing,
    terminality and overflow theorems over arbitrary sequences of commands. *)

From S2P Require Import Prelude.

(** ** Data *)

Definition MESH_MGMT_EXECUTION_ID_SIZE : nat := 16.
Definition MESH_MGMT_EXECUTION_DIGEST_SIZE : nat := 32.
Definition MESH_TASK_LEASE_MAX_TASKS : Z := 1024.

Inductive mesh_task_lease_result : Type :=
  | MESH_TASK_LEASE_OK
  | MESH_TASK_LEASE_INVALID_ARG
  | MESH_TASK_LEASE_INVALID_STATE
  | MESH_TASK_LEASE_NOT_FOUND
  | MESH_TASK_LEASE_CONFLICT
  | MESH_TASK_LEASE_BUSY
  | MESH_TASK_LEASE_FENCED
  | MESH_TASK_LEASE_OUT_OF_ORDER
  | MESH_TASK_LEASE_RESOURCE_EXHAUSTED.

#[export] Instance mesh_task_lease_result_eq_dec : EqDecision mesh_task_lease_result.
Proof. solve_decision. Defined.

(** [mesh_task_state_v1_t]: an enum the wire decoder casts from a 32-bit
    integer and [memset] clears to 0, so it is kept as its integer value. *)
Definition MESH_TASK_STATE_READY : Z := 1.
Definition MESH_TASK_STATE_LEASED : Z := 2.
Definition MESH_TASK_STATE_SUCCEEDED : Z := 3.
Definition MESH_TASK_STATE_FAILED : Z := 4.
Definition MESH_TASK_STATE_CANCELLED : Z := 5.
Definition MESH_TASK_STATE_EXPIRED : Z := 6.

Record mesh_task_lease_entry : Type := mk_entry {
  e_command_id : bytes;
  e_request_digest : bytes;
  e_holder_node_id : bytes;
  e_state : Z;
  e_result_code : Z;
  e_task_deadline_ms : Z;
  e_lease_expires_at_ms : Z;
  e_lease_generation : Z;
  e_fencing_token : Z;
  e_registered_index : Z;
  e_mutation_index : Z;
  e_occupied : bool }.

Record mesh_task_lease_store : Type := mk_store {
  s_entries : list mesh_task_lease_entry;
  s_capacity : Z;
  s_count : Z;
  s_max_lease_duration_ms : Z;
  s_applied_index : Z;
  s_open : bool }.

#[export] Instance mesh_task_lease_entry_eq_dec : EqDecision mesh_task_lease_entry.
Proof. solve_decision. Defined.

(** [memset(entry, 0, sizeof( *entry))] and [memset(store, 0, sizeof( *store))]. *)
Definition zero_entry : mesh_task_lease_entry :=
  mk_entry (zeros 16) (zeros 32) (zeros 32) 0 0 0 0 0 0 0 0 false.
Definition zero_store : mesh_task_lease_store := mk_store [] 0 0 0 0 false.

(** Field assignments. *)
Definition set_holder (v : bytes) (e : mesh_task_lease_entry) :=
  mk_entry (e_command_id e) (e_request_digest e) v (e_state e) (e_result_code e)
    (e_task_deadline_ms e) (e_lease_expires_at_ms e) (e_lease_generation e)
    (e_fencing_token e) (e_registered_index e) (e_mutation_index e) (e_occupied e).
Definition set_state (v : Z) (e : mesh_task_lease_entry) :=
  mk_entry (e_command_id e) (e_request_digest e) (e_holder_node_id e) v (e_result_code e)
    (e_task_deadline_ms e) (e_lease_expires_at_ms e) (e_lease_generation e)
    (e_fencing_token e) (e_registered_index e) (e_mutation_index e) (e_occupied e).
Definition set_result_code (v : Z) (e : mesh_task_lease_entry) :=
  mk_entry (e_command_id e) (e_request_digest e) (e_holder_node_id e) (e_state e) v
    (e_task_deadline_ms e) (e_lease_expires_at_ms e) (e_lease_generation e)
    (e_fencing_token e) (e_registered_index e) (e_mutation_index e) (e_occupied e).
Definition set_expires (v : Z) (e : mesh_task_lease_entry) :=
  mk_entry (e_command_id e) (e_request_digest e) (e_holder_node_id e) (e_state e)
    (e_result_code e) (e_task_deadline_ms e) v (e_lease_generation e)
    (e_fencing_token e) (e_registered_index e) (e_mutation_index e) (e_occupied e).
Definition set_generation (v : Z) (e : mesh_task_lease_entry) :=
  mk_entry (e_command_id e) (e_request_digest e) (e_holder_node_id e) (e_state e)
    (e_result_code e) (e_task_deadline_ms e) (e_lease_expires_at_ms e) v
    (e_fencing_token e) (e_registered_index e) (e_mutation_index e) (e_occupied e).
Definition set_token (v : Z) (e : mesh_task_lease_entry) :=
  mk_entry (e_command_id e) (e_request_digest e) (e_holder_node_id e) (e_state e)
    (e_result_code e) (e_task_deadline_ms e) (e_lease_expires_at_ms e)
    (e_lease_generation e) v (e_registered_index e) (e_mutation_index e) (e_occupied e).
Definition set_mutation (v : Z) (e : mesh_task_lease_entry) :=
  mk_entry (e_command_id e) (e_request_digest e) (e_holder_node_id e) (e_state e)
    (e_result_code e) (e_task_deadline_ms e) (e_lease_expires_at_ms e)
    (e_lease_generation e) (e_fencing_token e) (e_registered_index e) v (e_occupied e).

(** [store->applied_index = v], [++store->count], [store->entries[i] = e]. *)
Definition set_applied (v : Z) (st : mesh_task_lease_store) :=
  mk_store (s_entries st) (s_capacity st) (s_count st) (s_max_lease_duration_ms st) v (s_open st).
Definition incr_count (st : mesh_task_lease_store) :=
  mk_store (s_entries st) (s_capacity st) (wrap 64 (s_count st + 1))
    (s_max_lease_duration_ms st) (s_applied_index st) (s_open st).
Definition put_entry (i : nat) (e : mesh_task_lease_entry) (st : mesh_task_lease_store) :=
  mk_store (<[i:=e]> (s_entries st)) (s_capacity st) (s_count st)
    (s_max_lease_duration_ms st) (s_applied_index st) (s_open st).

(** What an operation hands back: code, store, contents of the output entry. *)
Definition outcome : Type :=
  mesh_task_lease_result * option mesh_task_lease_store * option mesh_task_lease_entry.

(** ** Helpers *)

Definition bytes_nonzero (b : option bytes) : bool :=
  match b with None => false | Some b => negb (or_bytes b =? 0) end.

Definition terminal_state_valid (state : Z) : bool :=
  (state =? MESH_TASK_STATE_SUCCEEDED) || (state =? MESH_TASK_STATE_FAILED) ||
  (state =? MESH_TASK_STATE_CANCELLED).

Definition find_entry (st : mesh_task_lease_store) (command_id : bytes) :
    option (nat * mesh_task_lease_entry) :=
  find_slot (λ e, e_occupied e &&
                  memeq MESH_MGMT_EXECUTION_ID_SIZE (e_command_id e) command_id) (s_entries st).

Definition validate_command (store : option mesh_task_lease_store) (committed_index : Z)
    (command_id request_digest : option bytes) : mesh_task_lease_result :=
  if negb (match store with Some st => s_open st | None => false end)
  then MESH_TASK_LEASE_INVALID_STATE
  else if (committed_index =? 0) || negb (bytes_nonzero command_id) ||
          negb (bytes_nonzero request_digest)
  then MESH_TASK_LEASE_INVALID_ARG
  else if committed_index <=? s_applied_index (deref zero_store store)
  then MESH_TASK_LEASE_OUT_OF_ORDER
  else MESH_TASK_LEASE_OK.

Definition validate_identity (entry : option (nat * mesh_task_lease_entry))
    (request_digest : bytes) : mesh_task_lease_result :=
  match entry with
  | None => MESH_TASK_LEASE_NOT_FOUND
  | Some (_, e) =>
      if memeq MESH_MGMT_EXECUTION_DIGEST_SIZE (e_request_digest e) request_digest
      then MESH_TASK_LEASE_OK else MESH_TASK_LEASE_CONFLICT
  end.

Definition interval_valid (st : mesh_task_lease_store) (e : mesh_task_lease_entry)
    (now_ms expires_at_ms : Z) : bool :=
  negb (now_ms =? 0) && (now_ms <? expires_at_ms) &&
  (expires_at_ms <=? e_task_deadline_ms e) &&
  (wrap 64 (expires_at_ms - now_ms) <=? s_max_lease_duration_ms st).

Definition clear_holder (e : mesh_task_lease_entry) : mesh_task_lease_entry :=
  e |> set_holder (zeros 32) |> set_expires 0.

Definition validate_live_holder (e : mesh_task_lease_entry) (holder_node_id : bytes)
    (expected_fencing_token observed_now_ms : Z) : mesh_task_lease_result :=
  if negb (e_state e =? MESH_TASK_STATE_LEASED) then MESH_TASK_LEASE_INVALID_STATE
  else if (expected_fencing_token =? 0) ||
          negb (e_fencing_token e =? expected_fencing_token) ||
          negb (memeq MESH_MGMT_EXECUTION_DIGEST_SIZE (e_holder_node_id e) holder_node_id)
  then MESH_TASK_LEASE_FENCED
  else if (observed_now_ms =? 0) || (e_lease_expires_at_ms e <=? observed_now_ms) ||
          (e_task_deadline_ms e <=? observed_now_ms)
  then MESH_TASK_LEASE_FENCED
  else MESH_TASK_LEASE_OK.

(** ** Operations *)

Definition mesh_task_lease_store_init_v1 (alloc_ok : bool)
    (store : option mesh_task_lease_store) (capacity max_lease_duration_ms : Z) :
    mesh_task_lease_result * option mesh_task_lease_store :=
  if negb (non_null store) || s_open (deref zero_store store) || (capacity =? 0) ||
     (MESH_TASK_LEASE_MAX_TASKS <? capacity) || (max_lease_duration_ms =? 0)
  then (MESH_TASK_LEASE_INVALID_ARG, store)
  else if negb alloc_ok then (MESH_TASK_LEASE_RESOURCE_EXHAUSTED, store)
  else (MESH_TASK_LEASE_OK,
        Some (mk_store (replicate (Z.to_nat capacity) zero_entry) capacity 0
                max_lease_duration_ms 0 true)).

Definition mesh_task_lease_store_destroy_v1 (store : option mesh_task_lease_store) :
    option mesh_task_lease_store :=
  assign store zero_store.

Definition mesh_task_lease_register_v1 (store : option mesh_task_lease_store)
    (committed_index : Z) (command_id request_digest : option bytes)
    (task_deadline_ms : Z) (out_entry : option mesh_task_lease_entry) : outcome :=
  let result := validate_command store committed_index command_id request_digest in
  let out_entry := assign out_entry zero_entry in
  if negb (bool_decide (result = MESH_TASK_LEASE_OK)) || negb (non_null out_entry) ||
     (task_deadline_ms =? 0)
  then (if bool_decide (result = MESH_TASK_LEASE_OK) then MESH_TASK_LEASE_INVALID_ARG
        else result, store, out_entry)
  else
    let st := deref zero_store store in
    let command_id := deref [] command_id in
    let request_digest := deref [] request_digest in
    match find_entry st command_id with
    | Some (_, e) =>
        if negb (memeq MESH_MGMT_EXECUTION_DIGEST_SIZE (e_request_digest e) request_digest) ||
           negb (e_task_deadline_ms e =? task_deadline_ms)
        then (MESH_TASK_LEASE_CONFLICT, store, out_entry)
        else (MESH_TASK_LEASE_OK, Some (set_applied committed_index st), assign out_entry e)
    | None =>
        if s_count st =? s_capacity st then (MESH_TASK_LEASE_RESOURCE_EXHAUSTED, store, out_entry)
        else
          match find_slot (λ e, negb (e_occupied e)) (s_entries st) with
          | Some (i, _) =>
              let e := mk_entry command_id request_digest (zeros 32) MESH_TASK_STATE_READY 0
                         task_deadline_ms 0 0 0 committed_index committed_index true in
              (MESH_TASK_LEASE_OK,
               Some (st |> put_entry i e |> incr_count |> set_applied committed_index),
               assign out_entry e)
          | None => (MESH_TASK_LEASE_RESOURCE_EXHAUSTED, store, out_entry)
          end
    end.

Definition mesh_task_lease_acquire_v1 (store : option mesh_task_lease_store)
    (committed_index : Z) (command_id request_digest holder_node_id : option bytes)
    (observed_now_ms lease_expires_at_ms : Z)
    (out_entry : option mesh_task_lease_entry) : outcome :=
  let result := validate_command store committed_index command_id request_digest in
  let out_entry := assign out_entry zero_entry in
  if negb (bool_decide (result = MESH_TASK_LEASE_OK)) || negb (non_null out_entry) ||
     negb (bytes_nonzero holder_node_id)
  then (if bool_decide (result = MESH_TASK_LEASE_OK) then MESH_TASK_LEASE_INVALID_ARG
        else result, store, out_entry)
  else
    let st := deref zero_store store in
    let entry := find_entry st (deref [] command_id) in
    let result := validate_identity entry (deref [] request_digest) in
    match result, entry with
    | MESH_TASK_LEASE_OK, Some (i, e) =>
        if e_state e =? MESH_TASK_STATE_LEASED then (MESH_TASK_LEASE_BUSY, store, out_entry)
        else if negb (e_state e =? MESH_TASK_STATE_READY)
        then (MESH_TASK_LEASE_INVALID_STATE, store, out_entry)
        else if negb (interval_valid st e observed_now_ms lease_expires_at_ms)
        then (MESH_TASK_LEASE_INVALID_ARG, store, out_entry)
        else
          let e' := e |> set_holder (deref [] holder_node_id)
                      |> set_state MESH_TASK_STATE_LEASED
                      |> set_expires lease_expires_at_ms
                      |> set_generation (wrap 64 (e_lease_generation e + 1))
                      |> set_token committed_index
                      |> set_mutation committed_index in
          (MESH_TASK_LEASE_OK, Some (st |> put_entry i e' |> set_applied committed_index),
           assign out_entry e')
    | _, _ => (result, store, out_entry)
    end.

Definition mesh_task_lease_renew_v1 (store : option mesh_task_lease_store)
    (committed_index : Z) (command_id request_digest holder_node_id : option bytes)
    (expected_fencing_token observed_now_ms lease_expires_at_ms : Z)
    (out_entry : option mesh_task_lease_entry) : outcome :=
  let result := validate_command store committed_index command_id request_digest in
  let out_entry := assign out_entry zero_entry in
  if negb (bool_decide (result = MESH_TASK_LEASE_OK)) || negb (non_null out_entry) ||
     negb (bytes_nonzero holder_node_id)
  then (if bool_decide (result = MESH_TASK_LEASE_OK) then MESH_TASK_LEASE_INVALID_ARG
        else result, store, out_entry)
  else
    let st := deref zero_store store in
    let entry := find_entry st (deref [] command_id) in
    let result := validate_identity entry (deref [] request_digest) in
    match result, entry with
    | MESH_TASK_LEASE_OK, Some (i, e) =>
        let result := validate_live_holder e (deref [] holder_node_id)
                        expected_fencing_token observed_now_ms in
        if negb (bool_decide (result = MESH_TASK_LEASE_OK)) then (result, store, out_entry)
        else if (lease_expires_at_ms <=? e_lease_expires_at_ms e) ||
                negb (interval_valid st e observed_now_ms lease_expires_at_ms)
        then (MESH_TASK_LEASE_INVALID_ARG, store, out_entry)
        else
          let e' := e |> set_expires lease_expires_at_ms
                      |> set_token committed_index
                      |> set_mutation committed_index in
          (MESH_TASK_LEASE_OK, Some (st |> put_entry i e' |> set_applied committed_index),
           assign out_entry e')
    | _, _ => (result, store, out_entry)
    end.

Definition mesh_task_lease_expire_v1 (store : option mesh_task_lease_store)
    (committed_index : Z) (command_id request_digest : option bytes)
    (expected_fencing_token observed_now_ms : Z)
    (out_entry : option mesh_task_lease_entry) : outcome :=
  let result := validate_command store committed_index command_id request_digest in
  let out_entry := assign out_entry zero_entry in
  if negb (bool_decide (result = MESH_TASK_LEASE_OK)) || negb (non_null out_entry) ||
     (observed_now_ms =? 0)
  then (if bool_decide (result = MESH_TASK_LEASE_OK) then MESH_TASK_LEASE_INVALID_ARG
        else result, store, out_entry)
  else
    let st := deref zero_store store in
    let entry := find_entry st (deref [] command_id) in
    let result := validate_identity entry (deref [] request_digest) in
    match result, entry with
    | MESH_TASK_LEASE_OK, Some (i, e) =>
        if negb (e_state e =? MESH_TASK_STATE_READY) &&
           negb (e_state e =? MESH_TASK_STATE_LEASED)
        then (MESH_TASK_LEASE_INVALID_STATE, store, out_entry)
        else
          let finish e1 :=
            let e' := e1 |> set_mutation committed_index in
            (MESH_TASK_LEASE_OK, Some (st |> put_entry i e' |> set_applied committed_index),
             assign out_entry e') in
          if e_task_deadline_ms e <=? observed_now_ms
          then finish (e |> set_state MESH_TASK_STATE_EXPIRED |> clear_holder)
          else if negb (e_state e =? MESH_TASK_STATE_LEASED) ||
                  negb (expected_fencing_token =? e_fencing_token e) ||
                  (observed_now_ms <? e_lease_expires_at_ms e)
          then (MESH_TASK_LEASE_FENCED, store, out_entry)
          else finish (e |> set_state MESH_TASK_STATE_READY |> clear_holder)
    | _, _ => (result, store, out_entry)
    end.

Definition mesh_task_lease_complete_v1 (store : option mesh_task_lease_store)
    (committed_index : Z) (command_id request_digest holder_node_id : option bytes)
    (expected_fencing_token observed_now_ms terminal_state result_code : Z)
    (out_entry : option mesh_task_lease_entry) : outcome :=
  let result := validate_command store committed_index command_id request_digest in
  let out_entry := assign out_entry zero_entry in
  if negb (bool_decide (result = MESH_TASK_LEASE_OK)) || negb (non_null out_entry) ||
     negb (terminal_state_valid terminal_state) || negb (bytes_nonzero holder_node_id)
  then (if bool_decide (result = MESH_TASK_LEASE_OK) then MESH_TASK_LEASE_INVALID_ARG
        else result, store, out_entry)
  else
    let st := deref zero_store store in
    let entry := find_entry st (deref [] command_id) in
    let result := validate_identity entry (deref [] request_digest) in
    match result, entry with
    | MESH_TASK_LEASE_OK, Some (i, e) =>
        let result := validate_live_holder e (deref [] holder_node_id)
                        expected_fencing_token observed_now_ms in
        if negb (bool_decide (result = MESH_TASK_LEASE_OK)) then (result, store, out_entry)
        else
          let e' := e |> set_state terminal_state |> set_result_code result_code
                      |> clear_holder |> set_mutation committed_index in
          (MESH_TASK_LEASE_OK, Some (st |> put_entry i e' |> set_applied committed_index),
           assign out_entry e')
    | _, _ => (result, store, out_entry)
    end.

Definition mesh_task_lease_get_v1 (store : option mesh_task_lease_store)
    (command_id : option bytes) (out_entry : option mesh_task_lease_entry) :
    mesh_task_lease_result * option mesh_task_lease_entry :=
  if negb (non_null out_entry) then (MESH_TASK_LEASE_INVALID_ARG, out_entry)
  else
    let out_entry := assign out_entry zero_entry in
    if negb (match store with Some st => s_open st | None => false end)
    then (MESH_TASK_LEASE_INVALID_STATE, out_entry)
    else if negb (bytes_nonzero command_id) then (MESH_TASK_LEASE_INVALID_ARG, out_entry)
    else match find_entry (deref zero_store store) (deref [] command_id) with
         | None => (MESH_TASK_LEASE_NOT_FOUND, out_entry)
         | Some (_, e) => (MESH_TASK_LEASE_OK, assign out_entry e)
         end.

(** ** Commands as values, and the transition system they generate *)

Inductive lease_op : Type :=
  | OpRegister (cid dg : bytes) (deadline : Z)
  | OpAcquire (cid dg holder : bytes) (now expires : Z)
  | OpRenew (cid dg holder : bytes) (token now expires : Z)
  | OpExpire (cid dg : bytes) (token now : Z)
  | OpComplete (cid dg holder : bytes) (token now state code : Z).

(** One committed command applied to an existing store, with a result slot. *)
Definition lease_exec (idx : Z) (op : lease_op) (st : mesh_task_lease_store) : outcome :=
  let out := Some zero_entry in
  match op with
  | OpRegister c d dl => mesh_task_lease_register_v1 (Some st) idx (Some c) (Some d) dl out
  | OpAcquire c d h n x =>
      mesh_task_lease_acquire_v1 (Some st) idx (Some c) (Some d) (Some h) n x out
  | OpRenew c d h t n x =>
      mesh_task_lease_renew_v1 (Some st) idx (Some c) (Some d) (Some h) t n x out
  | OpExpire c d t n => mesh_task_lease_expire_v1 (Some st) idx (Some c) (Some d) t n out
  | OpComplete c d h t n s r =>
      mesh_task_lease_complete_v1 (Some st) idx (Some c) (Some d) (Some h) t n s r out
  end.

Definition op_cid (op : lease_op) : bytes :=
  match op with
  | OpRegister c _ _ | OpAcquire c _ _ _ _ | OpRenew c _ _ _ _ _ | OpExpire c _ _ _
  | OpComplete c _ _ _ _ _ _ => c
  end.
Definition op_digest (op : lease_op) : bytes :=
  match op with
  | OpRegister _ d _ | OpAcquire _ d _ _ _ | OpRenew _ d _ _ _ _ | OpExpire _ d _ _
  | OpComplete _ d _ _ _ _ _ => d
  end.

(** The C types of the operands. *)
Definition op_typed (op : lease_op) : Prop :=
  bytes_ok 16 (op_cid op) ∧ bytes_ok 32 (op_digest op) ∧
  match op with
  | OpRegister _ _ dl => u64 dl
  | OpAcquire _ _ h n x => bytes_ok 32 h ∧ u64 n ∧ u64 x
  | OpRenew _ _ h t n x => bytes_ok 32 h ∧ u64 t ∧ u64 n ∧ u64 x
  | OpExpire _ _ t n => u64 t ∧ u64 n
  | OpComplete _ _ h t n s r => bytes_ok 32 h ∧ u64 t ∧ u64 n ∧ u32 s ∧ int32 r
  end.

#[export] Instance op_typed_dec op : Decision (op_typed op).
Proof. unfold op_typed. destruct op; apply _. Defined.

(** How a successful command may change one registered task. *)
Inductive entry_step (max_ms idx : Z) (e : mesh_task_lease_entry) : mesh_task_lease_entry → Prop :=
  | step_acquire holder now expires :
      e_state e = MESH_TASK_STATE_READY →
      bytes_ok 32 holder → holder ≠ zeros 32 →
      0 < now < expires → expires <= e_task_deadline_ms e → expires - now <= max_ms →
      entry_step max_ms idx e
        (mk_entry (e_command_id e) (e_request_digest e) holder MESH_TASK_STATE_LEASED
           (e_result_code e) (e_task_deadline_ms e) expires
           (wrap 64 (e_lease_generation e + 1)) idx (e_registered_index e) idx (e_occupied e))
  | step_renew now expires :
      e_state e = MESH_TASK_STATE_LEASED →
      0 < now < e_lease_expires_at_ms e → e_lease_expires_at_ms e < expires →
      expires <= e_task_deadline_ms e → expires - now <= max_ms →
      entry_step max_ms idx e
        (mk_entry (e_command_id e) (e_request_digest e) (e_holder_node_id e)
           MESH_TASK_STATE_LEASED (e_result_code e) (e_task_deadline_ms e) expires
           (e_lease_generation e) idx (e_registered_index e) idx (e_occupied e))
  | step_release now :
      e_state e = MESH_TASK_STATE_LEASED →
      e_lease_expires_at_ms e <= now < e_task_deadline_ms e →
      entry_step max_ms idx e
        (mk_entry (e_command_id e) (e_request_digest e) (zeros 32) MESH_TASK_STATE_READY
           (e_result_code e) (e_task_deadline_ms e) 0 (e_lease_generation e)
           (e_fencing_token e) (e_registered_index e) idx (e_occupied e))
  | step_expire now :
      e_state e = MESH_TASK_STATE_READY ∨ e_state e = MESH_TASK_STATE_LEASED →
      e_task_deadline_ms e <= now →
      entry_step max_ms idx e
        (mk_entry (e_command_id e) (e_request_digest e) (zeros 32) MESH_TASK_STATE_EXPIRED
           (e_result_code e) (e_task_deadline_ms e) 0 (e_lease_generation e)
           (e_fencing_token e) (e_registered_index e) idx (e_occupied e))
  | step_complete now state code :
      e_state e = MESH_TASK_STATE_LEASED →
      0 < now < e_lease_expires_at_ms e → terminal_state_valid state = true → int32 code →
      entry_step max_ms idx e
        (mk_entry (e_command_id e) (e_request_digest e) (zeros 32) state
           code (e_task_deadline_ms e) 0 (e_lease_generation e)
           (e_fencing_token e) (e_registered_index e) idx (e_occupied e)).

(** How a successful command may change the store. *)
Inductive store_step (idx : Z) (st : mesh_task_lease_store) : mesh_task_lease_store → Prop :=
  | store_same : store_step idx st (set_applied idx st)
  | store_new i x cid dg deadline :
      s_entries st !! i = Some x → e_occupied x = false →
      find_entry st cid = None → s_count st ≠ s_capacity st →
      bytes_ok 16 cid → bytes_ok 32 dg → cid ≠ zeros 16 → u64 deadline → deadline ≠ 0 →
      store_step idx st
        (st |> put_entry i (mk_entry cid dg (zeros 32) MESH_TASK_STATE_READY 0 deadline
                              0 0 0 idx idx true)
            |> incr_count |> set_applied idx)
  | store_entry i e e' :
      s_entries st !! i = Some e → e_occupied e = true →
      entry_step (s_max_lease_duration_ms st) idx e e' →
      store_step idx st (st |> put_entry i e' |> set_applied idx).

(** Any sequence of committed commands, rejected ones included. *)
Inductive lease_steps : mesh_task_lease_store → mesh_task_lease_store → Prop :=
  | steps_refl st : lease_steps st st
  | steps_cons st idx op r st' out st'' :
      op_typed op → u64 idx → lease_exec idx op st = (r, Some st', out) →
      lease_steps st' st'' → lease_steps st st''.

(** A log of committed commands, ignoring the result codes. *)
Fixpoint lease_run (log : list (Z * lease_op)) (st : mesh_task_lease_store) : mesh_task_lease_store :=
  match log with
  | [] => st
  | (idx, op) :: log' =>
      lease_run log' (match lease_exec idx op st with
                      | (_, Some st', _) => st'
                      | (_, None, _) => st
                      end)
  end.

(** ** Invariant *)

(** A registered task; [applied] is the store's applied index. *)
Record entry_ok (applied : Z) (e : mesh_task_lease_entry) : Prop := {
  eok_cid : bytes_ok 16 (e_command_id e);
  eok_cid_nz : e_command_id e ≠ zeros 16;
  eok_digest : bytes_ok 32 (e_request_digest e);
  eok_holder : bytes_ok 32 (e_holder_node_id e);
  eok_deadline : 0 < e_task_deadline_ms e < 2 ^ 64;
  eok_code : int32 (e_result_code e);
  eok_indices : 0 < e_registered_index e <= e_mutation_index e ∧ e_mutation_index e <= applied;
  eok_token : 0 <= e_fencing_token e <= e_mutation_index e;
  eok_generation : 0 <= e_lease_generation e <= e_fencing_token e;
  eok_state : MESH_TASK_STATE_READY <= e_state e <= MESH_TASK_STATE_EXPIRED;
  eok_leased : e_state e = MESH_TASK_STATE_LEASED →
    e_holder_node_id e ≠ zeros 32 ∧ 0 < e_lease_generation e ∧
    0 < e_lease_expires_at_ms e <= e_task_deadline_ms e;
  eok_idle : e_state e ≠ MESH_TASK_STATE_LEASED →
    e_holder_node_id e = zeros 32 ∧ e_lease_expires_at_ms e = 0 }.

Record store_ok (st : mesh_task_lease_store) : Prop := {
  sok_open : s_open st = true;
  sok_capacity : 0 < s_capacity st <= MESH_TASK_LEASE_MAX_TASKS;
  sok_length : Z.of_nat (length (s_entries st)) = s_capacity st;
  sok_count : s_count st = count_slots e_occupied (s_entries st);
  sok_max : 0 < s_max_lease_duration_ms st < 2 ^ 64;
  sok_applied : u64 (s_applied_index st);
  sok_unique : slots_unique e_occupied e_command_id (s_entries st);
  sok_entries : ∀ i e, s_entries st !! i = Some e → e_occupied e = true →
    entry_ok (s_applied_index st) e }.

(** ** Abstract specification: a finite map of tasks *)

Inductive phase : Type :=
  | Ready
  | Leased (holder : bytes) (expires : Z)
  | Expired
  | Finished (state code : Z).

Record task : Type := mk_task {
  t_digest : bytes;
  t_deadline : Z;
  t_phase : phase;
  t_generation : Z;
  t_token : Z }.

Record lease_spec : Type := mk_spec {
  sp_tasks : gmap bytes task;
  sp_capacity : Z;
  sp_max : Z;
  sp_applied : Z }.

Definition spec_put (idx : Z) (cid : bytes) (t : task) (sp : lease_spec) : lease_spec :=
  mk_spec (<[cid:=t]> (sp_tasks sp)) (sp_capacity sp) (sp_max sp) idx.

(** The operand checks that precede any lookup. *)
Definition operands_valid (op : lease_op) : bool :=
  match op with
  | OpRegister _ _ dl => negb (dl =? 0)
  | OpAcquire _ _ h _ _ | OpRenew _ _ h _ _ _ => negb (bool_decide (h = zeros 32))
  | OpExpire _ _ _ n => negb (n =? 0)
  | OpComplete _ _ h _ _ s _ => terminal_state_valid s && negb (bool_decide (h = zeros 32))
  end.

Definition may_lease (sp : lease_spec) (t : task) (now expires : Z) : bool :=
  (0 <? now) && (now <? expires) && (expires <=? t_deadline t) && (expires - now <=? sp_max sp).

(** The holder [h] presenting [token] at time [now] still owns the lease. *)
Definition owns (t : task) (h : bytes) (token now : Z) : bool :=
  match t_phase t with
  | Leased h' x => bool_decide (h = h') && (t_token t =? token) && (0 <? now) && (now <? x)
  | _ => false
  end.
Definition is_leased (t : task) : bool :=
  match t_phase t with Leased _ _ => true | _ => false end.
Definition not_owner (t : task) : mesh_task_lease_result :=
  if is_leased t then MESH_TASK_LEASE_FENCED else MESH_TASK_LEASE_INVALID_STATE.

Definition with_phase (p : phase) (t : task) : task :=
  mk_task (t_digest t) (t_deadline t) p (t_generation t) (t_token t).

(** What each command does to a task it finds: a new task or an error. *)
Definition task_apply (sp : lease_spec) (idx : Z) (op : lease_op) (t : task) :
    mesh_task_lease_result + task :=
  match op with
  | OpRegister _ _ dl =>
      if t_deadline t =? dl then inr t else inl MESH_TASK_LEASE_CONFLICT
  | OpAcquire _ _ h now x =>
      match t_phase t with
      | Leased _ _ => inl MESH_TASK_LEASE_BUSY
      | Ready =>
          if may_lease sp t now x
          then inr (mk_task (t_digest t) (t_deadline t) (Leased h x) (t_generation t + 1) idx)
          else inl MESH_TASK_LEASE_INVALID_ARG
      | _ => inl MESH_TASK_LEASE_INVALID_STATE
      end
  | OpRenew _ _ h token now x =>
      match t_phase t with
      | Leased h' x' =>
          if owns t h token now then
            if (x' <? x) && may_lease sp t now x
            then inr (mk_task (t_digest t) (t_deadline t) (Leased h' x) (t_generation t) idx)
            else inl MESH_TASK_LEASE_INVALID_ARG
          else inl MESH_TASK_LEASE_FENCED
      | _ => inl MESH_TASK_LEASE_INVALID_STATE
      end
  | OpExpire _ _ token now =>
      match t_phase t with
      | Leased _ x =>
          if t_deadline t <=? now then inr (with_phase Expired t)
          else if (t_token t =? token) && (x <=? now) then inr (with_phase Ready t)
          else inl MESH_TASK_LEASE_FENCED
      | Ready =>
          if t_deadline t <=? now then inr (with_phase Expired t)
          else inl MESH_TASK_LEASE_FENCED
      | _ => inl MESH_TASK_LEASE_INVALID_STATE
      end
  | OpComplete _ _ h token now s r =>
      if owns t h token now then inr (with_phase (Finished s r) t) else inl (not_owner t)
  end.

Definition spec_apply (idx : Z) (op : lease_op) (sp : lease_spec) :
    mesh_task_lease_result * lease_spec :=
  if (idx =? 0) || bool_decide (op_cid op = zeros 16) || bool_decide (op_digest op = zeros 32)
  then (MESH_TASK_LEASE_INVALID_ARG, sp)
  else if idx <=? sp_applied sp then (MESH_TASK_LEASE_OUT_OF_ORDER, sp)
  else if negb (operands_valid op) then (MESH_TASK_LEASE_INVALID_ARG, sp)
  else match sp_tasks sp !! op_cid op with
       | Some t =>
           if negb (bool_decide (t_digest t = op_digest op)) then (MESH_TASK_LEASE_CONFLICT, sp)
           else match task_apply sp idx op t with
                | inl r => (r, sp)
                | inr t' => (MESH_TASK_LEASE_OK, spec_put idx (op_cid op) t' sp)
                end
       | None =>
           match op with
           | OpRegister c d dl =>
               if Z.of_nat (size (sp_tasks sp)) =? sp_capacity sp
               then (MESH_TASK_LEASE_RESOURCE_EXHAUSTED, sp)
               else (MESH_TASK_LEASE_OK, spec_put idx c (mk_task d dl Ready 0 0) sp)
           | _ => (MESH_TASK_LEASE_NOT_FOUND, sp)
           end
       end.

(** Abstraction function. *)
Definition abs_phase (e : mesh_task_lease_entry) : phase :=
  if e_state e =? MESH_TASK_STATE_READY then Ready
  else if e_state e =? MESH_TASK_STATE_LEASED
  then Leased (e_holder_node_id e) (e_lease_expires_at_ms e)
  else if e_state e =? MESH_TASK_STATE_EXPIRED then Expired
  else Finished (e_state e) (e_result_code e).
Definition abs_entry (e : mesh_task_lease_entry) : task :=
  mk_task (e_request_digest e) (e_task_deadline_ms e) (abs_phase e)
    (e_lease_generation e) (e_fencing_token e).
Definition abs_store (st : mesh_task_lease_store) : lease_spec :=
  mk_spec (abs_entry <$> slot_map e_occupied e_command_id (s_entries st))
    (s_capacity st) (s_max_lease_duration_ms st) (s_applied_index st).

(** The result of [exec] next to the result of the specification. *)
Definition refines (o : outcome) (s : mesh_task_lease_result * lease_spec) : Prop :=
  ∃ r st' out, o = (r, Some st', out) ∧ s = (r, abs_store st').

(** [e] is the task registered under [cid]. *)
Definition task_at (st : mesh_task_lease_store) (cid : bytes) (e : mesh_task_lease_entry) : Prop :=
  ∃ i, s_entries st !! i = Some e ∧ e_occupied e = true ∧ e_command_id e = cid.

(** [e1] no longer carries the lease that [e] carried. *)
Definition lease_lost (e e1 : mesh_task_lease_entry) : Prop :=
  e_fencing_token e < e_fencing_token e1 ∨
  (e_fencing_token e = e_fencing_token e1 ∧ e_state e1 ≠ MESH_TASK_STATE_LEASED).

(** Compute the fields of an entry after assignments. *)
Ltac entry_fields :=
  unfold clear_holder, set_holder, set_state, set_result_code, set_expires, set_generation,
    set_token, set_mutation in *; simpl in *.

(** ** Lemmas on the guards *)

Section Guards.
Implicit Types (st : mesh_task_lease_store) (e : mesh_task_lease_entry).

Lemma bytes_nonzero_spec n b : bytes_ok n b →
  bytes_nonzero (Some b) = negb (bool_decide (b = zeros n)).
Proof.
  intros [Hl Hb]. unfold bytes_nonzero. f_equal. apply eq_bool_prop_intro.
  rewrite Is_true_true, Z.eqb_eq, bool_decide_spec, (or_bytes_zero b Hb), Hl. done.
Qed.

(** [find_entry] is lookup by key: ids in the table have the array's size. *)
Lemma find_entry_key st cid : store_ok st → length cid = 16%nat →
  find_entry st cid = find_slot (slot_key e_occupied e_command_id cid) (s_entries st).
Proof.
  intros Hok Hc. apply find_slot_ext. intros e [i He]%list_elem_of_lookup.
  unfold slot_key. destruct (e_occupied e) eqn:Ho; [|done]. simpl.
  apply memeq_spec; [|done]. eapply bytes_ok_length, eok_cid, sok_entries; eauto.
Qed.

Lemma find_entry_Some st cid i e : store_ok st → length cid = 16%nat →
  find_entry st cid = Some (i, e) →
  s_entries st !! i = Some e ∧ e_occupied e = true ∧ e_command_id e = cid ∧
  entry_ok (s_applied_index st) e.
Proof.
  intros Hok Hc. rewrite find_entry_key by done.
  intros [Hi [Ho Hk]%slot_key_true]%find_slot_Some. split_and!; try done.
  by eapply sok_entries.
Qed.

Lemma interval_valid_spec st e now x : u64 now → u64 x →
  interval_valid st e now x = true →
  0 < now < x ∧ x <= e_task_deadline_ms e ∧ x - now <= s_max_lease_duration_ms st.
Proof.
  unfold interval_valid, uint. intros Hn Hx H. bool_prop.
  rewrite wrap_small in * by (unfold uint; lia). lia.
Qed.

Lemma validate_live_holder_OK e h t now :
  length h = 32%nat → bytes_ok 32 (e_holder_node_id e) → u64 now →
  validate_live_holder e h t now = MESH_TASK_LEASE_OK →
  e_state e = MESH_TASK_STATE_LEASED ∧ e_holder_node_id e = h ∧ e_fencing_token e = t ∧
  0 < now < e_lease_expires_at_ms e ∧ now < e_task_deadline_ms e.
Proof.
  unfold validate_live_holder, uint. intros Hh [Hl _] Hn H.
  rewrite memeq_spec in H by done.
  repeat (step_in H; try done). bool_prop. repeat split; try done; lia.
Qed.

End Guards.

(** ** Every operation either rejects and changes nothing, or takes a step *)

Section Execution.
Context (st : mesh_task_lease_store) (Hok : store_ok st).

Lemma validate_command_OK idx c d : bytes_ok 16 c → bytes_ok 32 d → u64 idx →
  validate_command (Some st) idx (Some c) (Some d) = MESH_TASK_LEASE_OK →
  c ≠ zeros 16 ∧ d ≠ zeros 32 ∧ 0 < idx ∧ s_applied_index st < idx.
Proof.
  intros Hc Hd Hi H. unfold validate_command in H.
  rewrite (bytes_nonzero_spec 16), (bytes_nonzero_spec 32) in H by done.
  unfold uint in Hi. repeat (step_in H; try done). bool_prop. simpl in *. split_and!; try done; lia.
Qed.

(** The common prologue: a rejected prologue returns the store unchanged. *)
Ltac prologue H :=
  cbv zeta in H; cbn [lease_exec non_null assign deref default] in H;
  match type of H with
  | context [validate_command ?a ?b ?c ?d] =>
      let E := fresh "Hval" in destruct (validate_command a b c d) eqn:E
  end; simpl in H; try (left; by simplify_eq).

Ltac reject := left; by simplify_eq.

Lemma register_exec idx c d dl r st' out : op_typed (OpRegister c d dl) → u64 idx →
  lease_exec idx (OpRegister c d dl) st = (r, Some st', out) →
  (r ≠ MESH_TASK_LEASE_OK ∧ st' = st) ∨
  (r = MESH_TASK_LEASE_OK ∧ s_applied_index st < idx ∧ store_step idx st st').
Proof.
  intros (Hc & Hd & Hdl) Hi H. cbn [op_cid op_digest] in *.
  unfold lease_exec, mesh_task_lease_register_v1 in H. prologue H.
  apply validate_command_OK in Hval as (Hc0 & Hd0 & Hi0 & Hap); [|done..].
  destruct (dl =? 0) eqn:E0; simpl in H; [reject|]. bool_prop.
  destruct (find_entry st c) as [[i e]|] eqn:Ef.
  - step_in H; [reject|]. right. simplify_eq. split_and!; [done..|constructor].
  - step_in H; [reject|]. bool_prop.
    destruct (find_slot _ (s_entries st)) as [[i x]|] eqn:Es; [|reject].
    apply find_slot_Some in Es as [Hx Ho]. bool_prop.
    right. simplify_eq. split_and!; [done..|]. by eapply store_new.
Qed.

(** Commands that act on an existing task. *)
Lemma entry_exec_step idx c i e e' : length c = 16%nat →
  find_entry st c = Some (i, e) →
  entry_step (s_max_lease_duration_ms st) idx e e' →
  store_step idx st (st |> put_entry i e' |> set_applied idx).
Proof.
  intros Hc Hf He. apply find_entry_Some in Hf as (Hi & Ho & _ & _); [|done..].
  by eapply store_entry.
Qed.

Lemma acquire_exec idx c d h n x r st' out : op_typed (OpAcquire c d h n x) → u64 idx →
  lease_exec idx (OpAcquire c d h n x) st = (r, Some st', out) →
  (r ≠ MESH_TASK_LEASE_OK ∧ st' = st) ∨
  (r = MESH_TASK_LEASE_OK ∧ s_applied_index st < idx ∧ store_step idx st st').
Proof.
  intros (Hc & Hd & Hh & Hn & Hx) Hi H. cbn [op_cid op_digest] in *.
  unfold lease_exec, mesh_task_lease_acquire_v1 in H.
  rewrite (bytes_nonzero_spec 32 h) in H by done. prologue H.
  apply validate_command_OK in Hval as (Hc0 & Hd0 & Hi0 & Hap); [|done..].
  step_in H; [reject|]. bool_prop.
  destruct (find_entry st c) as [[i e]|] eqn:Ef; simpl in H; [|reject].
  step_in H; [|reject]. simpl in H.
  step_in H; [reject|]. step_in H; [reject|]. step_in H; [reject|]. bool_prop.
  apply interval_valid_spec in E3 as (? & ? & ?); [|done..].
  right. simplify_eq. split_and!; [done..|].
  apply (entry_exec_step idx c i e _ (bytes_ok_length _ _ Hc) Ef).
  entry_fields. by apply (step_acquire _ _ _ h n x).
Qed.

Lemma renew_exec idx c d h t n x r st' out : op_typed (OpRenew c d h t n x) → u64 idx →
  lease_exec idx (OpRenew c d h t n x) st = (r, Some st', out) →
  (r ≠ MESH_TASK_LEASE_OK ∧ st' = st) ∨
  (r = MESH_TASK_LEASE_OK ∧ s_applied_index st < idx ∧ store_step idx st st').
Proof.
  intros (Hc & Hd & Hh & Ht & Hn & Hx) Hi H. cbn [op_cid op_digest] in *.
  unfold lease_exec, mesh_task_lease_renew_v1 in H.
  rewrite (bytes_nonzero_spec 32 h) in H by done. prologue H.
  apply validate_command_OK in Hval as (Hc0 & Hd0 & Hi0 & Hap); [|done..].
  step_in H; [reject|]. bool_prop.
  destruct (find_entry st c) as [[i e]|] eqn:Ef; simpl in H; [|reject].
  destruct (find_entry_Some _ _ _ _ Hok (bytes_ok_length _ _ Hc) Ef) as (_ & _ & _ & He).
  step_in H; [|reject]. simpl in H. step_in H; [left; by simplify_eq; bool_prop|].
  step_in H; [reject|]. bool_prop.
  apply validate_live_holder_OK in E1 as (Hs & Hho & Htk & Hlive & Hdl);
    [|apply Hh|apply He|done].
  apply interval_valid_spec in H1 as (? & ? & ?); [|done..].
  right. simplify_eq. split_and!; [done..|].
  apply (entry_exec_step idx c i e _ (bytes_ok_length _ _ Hc) Ef).
  entry_fields. rewrite Hs.
  by apply (step_renew _ _ _ n x).
Qed.

Lemma expire_exec idx c d t n r st' out : op_typed (OpExpire c d t n) → u64 idx →
  lease_exec idx (OpExpire c d t n) st = (r, Some st', out) →
  (r ≠ MESH_TASK_LEASE_OK ∧ st' = st) ∨
  (r = MESH_TASK_LEASE_OK ∧ s_applied_index st < idx ∧ store_step idx st st').
Proof.
  intros (Hc & Hd & Ht & Hn) Hi H. cbn [op_cid op_digest] in *.
  unfold lease_exec, mesh_task_lease_expire_v1 in H. prologue H.
  apply validate_command_OK in Hval as (Hc0 & Hd0 & Hi0 & Hap); [|done..].
  step_in H; [reject|]. bool_prop.
  destruct (find_entry st c) as [[i e]|] eqn:Ef; simpl in H; [|reject].
  step_in H; [|reject]. simpl in H. step_in H; [reject|].
  assert (Hlive : e_state e = MESH_TASK_STATE_READY ∨ e_state e = MESH_TASK_STATE_LEASED).
  { apply andb_false_iff in E1 as [?|?]; bool_prop; auto. }
  step_in H; [|step_in H; [reject|]]; bool_prop; right; simplify_eq; split_and!; try done;
    apply (entry_exec_step idx c i e _ (bytes_ok_length _ _ Hc) Ef).
  - entry_fields. by apply (step_expire _ _ _ n).
  - entry_fields. by apply (step_release _ _ _ n).
Qed.

Lemma complete_exec idx c d h t n s k r st' out : op_typed (OpComplete c d h t n s k) → u64 idx →
  lease_exec idx (OpComplete c d h t n s k) st = (r, Some st', out) →
  (r ≠ MESH_TASK_LEASE_OK ∧ st' = st) ∨
  (r = MESH_TASK_LEASE_OK ∧ s_applied_index st < idx ∧ store_step idx st st').
Proof.
  intros (Hc & Hd & Hh & Ht & Hn & Hs & Hk) Hi H. cbn [op_cid op_digest] in *.
  unfold lease_exec, mesh_task_lease_complete_v1 in H.
  rewrite (bytes_nonzero_spec 32 h) in H by done. prologue H.
  apply validate_command_OK in Hval as (Hc0 & Hd0 & Hi0 & Hap); [|done..].
  step_in H; [reject|]. bool_prop.
  destruct (find_entry st c) as [[i e]|] eqn:Ef; simpl in H; [|reject].
  destruct (find_entry_Some _ _ _ _ Hok (bytes_ok_length _ _ Hc) Ef) as (_ & _ & _ & He).
  step_in H; [|reject]. simpl in H. step_in H; [left; by simplify_eq; bool_prop|]. bool_prop.
  apply validate_live_holder_OK in E0 as (Hst & Hho & Htk & Hlive & Hdl);
    [|apply Hh|apply He|done].
  right. simplify_eq. split_and!; [done..|].
  apply (entry_exec_step idx c i e _ (bytes_ok_length _ _ Hc) Ef).
  entry_fields. by apply (step_complete _ _ _ n s k).
Qed.

Lemma exec_cases idx op r st' out : op_typed op → u64 idx →
  lease_exec idx op st = (r, Some st', out) →
  (r ≠ MESH_TASK_LEASE_OK ∧ st' = st) ∨
  (r = MESH_TASK_LEASE_OK ∧ s_applied_index st < idx ∧ store_step idx st st').
Proof.
  destruct op; eauto using register_exec, acquire_exec, renew_exec, expire_exec, complete_exec.
Qed.

End Execution.

(** ** The invariant is inductive *)

Section Invariant.

Lemma entry_ok_weaken ap ap' e : ap <= ap' → entry_ok ap e → entry_ok ap' e.
Proof. intros Hle []. split; try done. lia. Qed.

(** The generation counter cannot wrap: it never exceeds the fencing token. *)
Lemma generation_no_wrap ap idx e : entry_ok ap e → ap < idx → u64 idx →
  wrap 64 (e_lease_generation e + 1) = e_lease_generation e + 1.
Proof.
  intros He Hlt Hi. pose proof (eok_generation _ _ He). pose proof (eok_token _ _ He).
  pose proof (eok_indices _ _ He). unfold uint in Hi. apply wrap_small. unfold uint. lia.
Qed.

(** What no command changes in a registered task. *)
Lemma entry_step_frame mx idx e e' : entry_step mx idx e e' →
  e_command_id e' = e_command_id e ∧ e_request_digest e' = e_request_digest e ∧
  e_task_deadline_ms e' = e_task_deadline_ms e ∧
  e_registered_index e' = e_registered_index e ∧ e_occupied e' = e_occupied e.
Proof. by destruct 1. Qed.

Lemma entry_step_ok mx ap idx e e' : entry_ok ap e → ap < idx → u64 idx →
  entry_step mx idx e e' → entry_ok idx e'.
Proof.
  intros He Hlt Hi Hst. pose proof (generation_no_wrap _ _ _ He Hlt Hi) as Hg.
  destruct He. unfold uint in Hi.
  destruct Hst; split; simpl; rewrite ?Hg; try done; try lia; auto with mesh;
    try (intros; split_and!; done || lia);
    unfold MESH_TASK_STATE_READY, MESH_TASK_STATE_LEASED, MESH_TASK_STATE_EXPIRED in *;
    try (intros; split_and!; done || lia); try lia.
  - destruct eok_leased0 as (? & ? & ?); [done|]. intros; split_and!; done || lia.
  - unfold terminal_state_valid, MESH_TASK_STATE_SUCCEEDED, MESH_TASK_STATE_FAILED,
      MESH_TASK_STATE_CANCELLED in *. lia.
  - intros ->. done.
Qed.

Lemma init_store_ok alloc_ok store capacity mx st :
  0 <= capacity → u64 mx →
  mesh_task_lease_store_init_v1 alloc_ok store capacity mx = (MESH_TASK_LEASE_OK, Some st) →
  store_ok st.
Proof.
  unfold mesh_task_lease_store_init_v1, uint. intros Hc Hm H.
  step_in H; [done|]. step_in H; [done|]. simplify_eq. bool_prop.
  split; simpl; try done; try lia.
  - rewrite length_replicate. lia.
  - by rewrite count_slots_replicate.
  - by apply slots_unique_replicate.
  - intros i e [-> _]%lookup_replicate_1. done.
Qed.

Lemma store_step_ok idx st st' : store_ok st → s_applied_index st < idx → u64 idx →
  store_step idx st st' → store_ok st'.
Proof.
  intros Hok Hlt Hi Hst. destruct Hok.
  assert (Hold : ∀ i e, s_entries st !! i = Some e → e_occupied e = true → entry_ok idx e).
  { intros. eapply entry_ok_weaken; [|by eapply sok_entries0]. lia. }
  destruct Hst as [|i x c d dl Hx Ho Hf Hn Hc Hd Hc0 Hdl Hdl0|i e e' He Ho Hst].
  - by split.
  - assert (Hcnt : wrap 64 (s_count st + 1) = s_count st + 1).
    { apply wrap_small. pose proof (count_slots_bounds e_occupied (s_entries st)).
      unfold uint, MESH_TASK_LEASE_MAX_TASKS in *. lia. }
    split; simpl; try done; rewrite ?length_insert; try done.
    + rewrite Hcnt, (count_slots_insert _ _ _ _ _ Hx), Ho. simpl. lia.
    + eapply slots_unique_fresh; [done|done|].
      cbn [e_command_id]. rewrite <- find_entry_key; [done|by split|apply Hc].
    + intros j y Hj Hy. destruct (decide (j = i)) as [->|].
      * rewrite list_lookup_insert_eq in Hj by (by eapply lookup_lt_Some). simplify_eq.
        unfold uint in *.
        split; simpl; try done; try lia; auto with mesh.
      * rewrite list_lookup_insert_ne in Hj by done. eauto.
  - assert (Hok' : entry_ok idx e') by (eapply entry_step_ok; eauto).
    pose proof (entry_step_frame _ _ _ _ Hst) as (Hc & _ & _ & _ & Ho').
    split; simpl; try done; rewrite ?length_insert; try done.
    + rewrite (count_slots_insert _ _ _ _ _ He), Ho', Ho. lia.
    + by eapply slots_unique_update.
    + intros j y Hj Hy. destruct (decide (j = i)) as [->|].
      * rewrite list_lookup_insert_eq in Hj by (by eapply lookup_lt_Some). by simplify_eq.
      * rewrite list_lookup_insert_ne in Hj by done. eauto.
Qed.

Lemma exec_store_ok idx op st r st' out : store_ok st → op_typed op → u64 idx →
  lease_exec idx op st = (r, Some st', out) → store_ok st'.
Proof.
  intros Hok Hop Hi H. destruct (exec_cases _ Hok _ _ _ _ _ Hop Hi H) as [[_ ->]|(_ & ? & ?)];
    [done|by eapply store_step_ok].
Qed.

Lemma lease_steps_ok st st' : store_ok st → lease_steps st st' → store_ok st'.
Proof. intros Hok Hs. induction Hs; eauto using exec_store_ok. Qed.

End Invariant.

(** ** The table implements the map specification *)

Section Refinement.
Context (st : mesh_task_lease_store) (Hok : store_ok st).
Implicit Types e : mesh_task_lease_entry.

Lemma abs_lookup cid : length cid = 16%nat →
  sp_tasks (abs_store st) !! cid = abs_entry ∘ snd <$> find_entry st cid.
Proof.
  intros Hc. simpl. rewrite lookup_fmap, slot_map_find by apply Hok.
  rewrite find_entry_key by done. by rewrite <- option_fmap_compose.
Qed.

Lemma abs_size : Z.of_nat (size (sp_tasks (abs_store st))) = s_count st.
Proof.
  simpl. rewrite map_size_fmap, slot_map_size by apply Hok. symmetry. apply Hok.
Qed.

Lemma abs_update i e e' idx : s_entries st !! i = Some e → e_occupied e = true →
  e_occupied e' = true → e_command_id e' = e_command_id e →
  abs_store (st |> put_entry i e' |> set_applied idx) =
  spec_put idx (e_command_id e) (abs_entry e') (abs_store st).
Proof.
  intros Hi Ho Ho' Hk. unfold abs_store, spec_put. simpl. f_equal.
  rewrite <- fmap_insert, <- Hk. f_equal.
  eapply slot_map_insert; eauto; [apply Hok|congruence].
Qed.

Lemma abs_fresh i x e idx : s_entries st !! i = Some x → e_occupied x = false →
  e_occupied e = true → length (e_command_id e) = 16%nat → find_entry st (e_command_id e) = None →
  abs_store (st |> put_entry i e |> incr_count |> set_applied idx) =
  spec_put idx (e_command_id e) (abs_entry e) (abs_store st).
Proof.
  intros Hi Ho He Hl Hf. unfold abs_store, spec_put. simpl. f_equal.
  rewrite <- fmap_insert. f_equal.
  eapply slot_map_insert; eauto; [apply Hok|congruence|]. by rewrite <- find_entry_key.
Qed.

Lemma abs_same cid t idx : sp_tasks (abs_store st) !! cid = Some t →
  abs_store (set_applied idx st) = spec_put idx cid t (abs_store st).
Proof. intros Ht. unfold spec_put. by rewrite insert_id. Qed.

Lemma interval_may_lease e now x : u64 now → u64 x →
  interval_valid st e now x = may_lease (abs_store st) (abs_entry e) now x.
Proof.
  unfold interval_valid, may_lease, uint. intros Hn Hx. simpl.
  destruct (Z.ltb_spec now x); [|by rewrite !andb_false_r].
  rewrite wrap_small by (unfold uint; lia).
  replace (negb (now =? 0)) with (0 <? now); [done|]. lia.
Qed.

Lemma live_holder_owns ap e h t now : entry_ok ap e → length h = 32%nat → u64 now →
  validate_live_holder e h t now =
  if owns (abs_entry e) h t now then MESH_TASK_LEASE_OK else not_owner (abs_entry e).
Proof.
  intros He Hh Hn. unfold validate_live_holder, owns, not_owner, is_leased. simpl.
  unfold abs_phase. destruct (Z.eqb_spec (e_state e) MESH_TASK_STATE_LEASED) as [Hs|Hs]; simpl.
  - rewrite Hs. simpl. destruct (eok_leased _ _ He Hs) as (Hnz & Hg & Hx).
    pose proof (eok_generation _ _ He). rewrite memeq_spec by (done || apply He).
    rewrite (bool_decide_ext _ (h = e_holder_node_id e)) by (split; congruence).
    unfold uint in Hn.
    destruct (bool_decide (h = e_holder_node_id e)); simpl; [|by rewrite orb_true_r].
    rewrite orb_false_r.
    destruct (Z.eqb_spec (e_fencing_token e) t) as [<-|]; simpl; [|by rewrite orb_true_r].
    rewrite orb_false_r. repeat case_match; bool_prop; try done; lia.
  - repeat case_match; done.
Qed.

Lemma validate_command_spec idx c d : bytes_ok 16 c → bytes_ok 32 d →
  validate_command (Some st) idx (Some c) (Some d) =
  if (idx =? 0) || bool_decide (c = zeros 16) || bool_decide (d = zeros 32)
  then MESH_TASK_LEASE_INVALID_ARG
  else if idx <=? s_applied_index st then MESH_TASK_LEASE_OUT_OF_ORDER
  else MESH_TASK_LEASE_OK.
Proof.
  intros Hc Hd. unfold validate_command.
  rewrite (sok_open _ Hok), (bytes_nonzero_spec 16), (bytes_nonzero_spec 32) by done.
  by rewrite !negb_involutive.
Qed.

Ltac refine_done := eexists _, _, _; split; [reflexivity|].

(** Open both sides up to the lookup of the task. *)
Ltac open_exec Hc Hd :=
  cbn [op_cid op_digest] in *; unfold lease_exec, mesh_task_lease_register_v1, mesh_task_lease_acquire_v1,
    mesh_task_lease_renew_v1, mesh_task_lease_expire_v1, mesh_task_lease_complete_v1,
    spec_apply; cbn [op_cid op_digest operands_valid];
  cbv zeta; rewrite (validate_command_spec _ _ _ Hc Hd);
  repeat match goal with
  | H : bytes_ok 32 ?h |- context [bytes_nonzero (Some ?h)] =>
      rewrite (bytes_nonzero_spec 32 h H)
  end;
  match goal with |- context [if ?b then MESH_TASK_LEASE_INVALID_ARG else _] => destruct b end;
  [by refine_done|];
  cbn [abs_store sp_applied];
  let Hap := fresh "Hap" in
  match goal with |- context [if ?b then MESH_TASK_LEASE_OUT_OF_ORDER else _] =>
    destruct b eqn:Hap end; [by refine_done|]; apply Z.leb_gt in Hap; simpl.

(** Rewrite the specification's lookup into the table's. *)
Ltac open_lookup Hc Hd :=
  let Ef := fresh "Ef" in
  let Hl := fresh "Hl" in
  let He := fresh "He" in
  pose proof (abs_lookup _ (bytes_ok_length _ _ Hc)) as Hl; simpl in Hl; rewrite Hl;
  match goal with |- context [find_entry st ?c] =>
    destruct (find_entry st c) as [[? ?]|] eqn:Ef end; simpl;
  [pose proof (find_entry_Some _ _ _ _ Hok (bytes_ok_length _ _ Hc) Ef) as (? & ? & <- & He);
   rewrite memeq_spec by (apply He || apply Hd);
   match goal with |- context [bool_decide ?P] => destruct (bool_decide P) eqn:? end; simpl;
   [|by refine_done]
  |try by refine_done].

Lemma register_refines idx c d dl : op_typed (OpRegister c d dl) →
  refines (lease_exec idx (OpRegister c d dl) st) (spec_apply idx (OpRegister c d dl) (abs_store st)).
Proof.
  intros (Hc & Hd & Hdl). open_exec Hc Hd.
  destruct (dl =? 0); simpl; [by refine_done|]. open_lookup Hc Hd.
  - destruct (e_task_deadline_ms m =? dl); simpl; refine_done; [|done].
    f_equal. symmetry. by apply abs_same.
  - rewrite map_size_fmap, slot_map_size by apply Hok. rewrite (sok_count _ Hok).
    destruct (Z.eqb_spec (count_slots e_occupied (s_entries st)) (s_capacity st)) as [E|E];
      [by refine_done|].
    rewrite <- (sok_length _ Hok), <- count_slots_full in E.
    destruct (find_slot _ _) as [[i x]|] eqn:Es; [|done].
    apply find_slot_Some in Es as [Hx Ho]. bool_prop.
    refine_done. f_equal. symmetry. eapply (abs_fresh i x); try done. apply Hc.
Qed.

Lemma acquire_refines idx c d h n x : op_typed (OpAcquire c d h n x) → u64 idx →
  refines (lease_exec idx (OpAcquire c d h n x) st)
          (spec_apply idx (OpAcquire c d h n x) (abs_store st)).
Proof.
  intros (Hc & Hd & Hh & Hn & Hx) Hi. open_exec Hc Hd.
  destruct (bool_decide (h = zeros 32)); simpl; [by refine_done|]. open_lookup Hc Hd.
  rewrite interval_may_lease by done. unfold abs_phase.
  destruct (Z.eqb_spec (e_state m) MESH_TASK_STATE_READY) as [E|E].
  - rewrite E. simpl. destruct (may_lease _ _ _ _); simpl; refine_done; [|done].
    rewrite (abs_update n0 m) by done. unfold abs_entry, abs_phase. simpl.
    by rewrite (generation_no_wrap _ _ _ He Hap Hi).
  - destruct (Z.eqb_spec (e_state m) MESH_TASK_STATE_LEASED); simpl; [by refine_done|].
    destruct (e_state m =? MESH_TASK_STATE_EXPIRED); by refine_done.
Qed.

Lemma renew_refines idx c d h t n x : op_typed (OpRenew c d h t n x) →
  refines (lease_exec idx (OpRenew c d h t n x) st)
          (spec_apply idx (OpRenew c d h t n x) (abs_store st)).
Proof.
  intros (Hc & Hd & Hh & Ht & Hn & Hx). open_exec Hc Hd.
  destruct (bool_decide (h = zeros 32)); simpl; [by refine_done|]. open_lookup Hc Hd.
  rewrite (live_holder_owns _ _ _ _ _ He) by (done || apply Hh).
  rewrite interval_may_lease by done.
  destruct (owns (abs_entry m) h t n) eqn:Eo; simpl.
  - unfold owns in Eo. simpl in Eo. destruct (abs_phase m) eqn:Ep; try done.
    assert (e_lease_expires_at_ms m = expires ∧ e_holder_node_id m = holder) as [-> Hho].
    { unfold abs_phase in Ep. repeat case_match; by simplify_eq. }
    rewrite (Z.leb_antisym expires x).
    destruct (expires <? x) eqn:El; simpl; [|by refine_done].
    destruct (may_lease _ _ _ _); simpl; refine_done; [|done].
    rewrite (abs_update n0 m) by done. unfold abs_entry, abs_phase. simpl.
    destruct (validate_live_holder_OK m h t n) as (Hs & _); [apply Hh|apply He|done| |].
    { rewrite (live_holder_owns _ _ _ _ _ He) by (done || apply Hh).
      unfold owns. simpl. by rewrite Ep, Eo. }
    rewrite Hs. simpl. by rewrite Hho.
  - unfold not_owner, is_leased. simpl. destruct (abs_phase m); by refine_done.
Qed.

Lemma expire_refines idx c d t n : op_typed (OpExpire c d t n) →
  refines (lease_exec idx (OpExpire c d t n) st)
          (spec_apply idx (OpExpire c d t n) (abs_store st)).
Proof.
  intros (Hc & Hd & Ht & Hn). open_exec Hc Hd.
  destruct (n =? 0); simpl; [by refine_done|]. open_lookup Hc Hd.
  unfold abs_phase. rewrite (Z.eqb_sym t).
  destruct (Z.eqb_spec (e_state m) MESH_TASK_STATE_READY) as [E|E]; simpl.
  - rewrite E. destruct (e_task_deadline_ms m <=? n); simpl; refine_done; [|done].
    by rewrite (abs_update n0 m).
  - destruct (Z.eqb_spec (e_state m) MESH_TASK_STATE_LEASED) as [E'|E']; simpl.
    + destruct (e_task_deadline_ms m <=? n); [refine_done; by rewrite (abs_update n0 m)|].
      destruct (e_fencing_token m =? t); simpl; [|by refine_done].
      rewrite Z.ltb_antisym. destruct (e_lease_expires_at_ms m <=? n); simpl; refine_done; [|done].
      by rewrite (abs_update n0 m).
    + destruct (e_state m =? MESH_TASK_STATE_EXPIRED); by refine_done.
Qed.

Lemma complete_refines idx c d h t n s k : op_typed (OpComplete c d h t n s k) →
  refines (lease_exec idx (OpComplete c d h t n s k) st)
          (spec_apply idx (OpComplete c d h t n s k) (abs_store st)).
Proof.
  intros (Hc & Hd & Hh & Ht & Hn & Hs & Hk). open_exec Hc Hd.
  destruct (terminal_state_valid s) eqn:Ev; simpl; [|by refine_done].
  destruct (bool_decide (h = zeros 32)); simpl; [by refine_done|]. open_lookup Hc Hd.
  rewrite (live_holder_owns _ _ _ _ _ He) by (done || apply Hh).
  destruct (owns (abs_entry m) h t n) eqn:Eo; simpl.
  - refine_done. rewrite (abs_update n0 m) by done. f_equal. unfold spec_put, abs_entry. do 3 f_equal.
    unfold abs_phase, terminal_state_valid in *. simpl.
    unfold MESH_TASK_STATE_SUCCEEDED, MESH_TASK_STATE_FAILED, MESH_TASK_STATE_CANCELLED,
      MESH_TASK_STATE_READY, MESH_TASK_STATE_LEASED, MESH_TASK_STATE_EXPIRED in *.
    repeat case_match; bool_prop; subst; done.
  - unfold not_owner. destruct (is_leased _); by refine_done.
Qed.

Lemma exec_refines idx op : op_typed op → u64 idx →
  refines (lease_exec idx op st) (spec_apply idx op (abs_store st)).
Proof.
  destruct op; auto using register_refines, acquire_refines, renew_refines,
    expire_refines, complete_refines.
Qed.

End Refinement.

(** ** Tasks along sequences of commands *)

Section Traces.
Implicit Types (st : mesh_task_lease_store) (e : mesh_task_lease_entry).

Lemma task_at_unique st cid e e' : store_ok st → task_at st cid e → task_at st cid e' → e = e'.
Proof.
  intros Hok (i & Hi & Ho & Hk) (j & Hj & Ho' & Hk').
  assert (i = j) as -> by (eapply (sok_unique _ Hok); eauto; congruence). congruence.
Qed.

Lemma task_at_ok st cid e : store_ok st → task_at st cid e → entry_ok (s_applied_index st) e.
Proof. intros Hok (i & Hi & Ho & _). by eapply sok_entries. Qed.

Lemma task_at_find st cid e : store_ok st → length cid = 16%nat → task_at st cid e →
  ∃ i, find_entry st cid = Some (i, e).
Proof.
  intros Hok Hc (i & Hi & Ho & <-). exists i. rewrite find_entry_key by done.
  apply find_slot_unique; [apply Hok|done..].
Qed.

Lemma task_at_abs st cid e : store_ok st → task_at st cid e →
  sp_tasks (abs_store st) !! cid = Some (abs_entry e).
Proof.
  intros Hok (i & Hi & Ho & Hk). simpl. apply lookup_fmap_Some. exists e. split; [done|].
  apply slot_map_lookup; [apply Hok|]. eauto.
Qed.

Lemma lease_exec_Some idx op st : ∃ r st' out, lease_exec idx op st = (r, Some st', out).
Proof.
  unfold lease_exec, mesh_task_lease_register_v1, mesh_task_lease_acquire_v1,
    mesh_task_lease_renew_v1, mesh_task_lease_expire_v1, mesh_task_lease_complete_v1.
  destruct op; repeat case_match; eauto.
Qed.

Lemma lease_run_steps log st : Forall (λ c, u64 c.1 ∧ op_typed c.2) log →
  lease_steps st (lease_run log st).
Proof.
  intros Hlog. revert st. induction Hlog as [|[idx op] log [Hi Hop] _ IH]; intros st;
    [constructor|]. simpl.
  destruct (lease_exec_Some idx op st) as (r & st' & out & E). rewrite E.
  by eapply steps_cons.
Qed.

(** One command either leaves a task alone or moves it one step. *)
Lemma store_step_task idx st st' cid e : store_ok st → store_step idx st st' → task_at st cid e →
  ∃ e', task_at st' cid e' ∧ (e' = e ∨ entry_step (s_max_lease_duration_ms st) idx e e').
Proof.
  intros Hok Hs (j & Hj & Ho & Hk). destruct Hs as [|i x c d dl Hx Hox|i x x' Hx Hox Hs].
  - exists e. split; [by exists j|by left].
  - exists e. split; [|by left]. exists j. simpl. rewrite list_lookup_insert_ne; [done|].
    intros ->. congruence.
  - destruct (decide (i = j)) as [->|].
    + simplify_eq. pose proof (entry_step_frame _ _ _ _ Hs) as (Hc & _ & _ & _ & Ho').
      exists x'. split; [|by right]. exists j. simpl.
      rewrite list_lookup_insert_eq by (by eapply lookup_lt_Some). split_and!; congruence.
    + exists e. split; [|by left]. exists j. simpl. by rewrite list_lookup_insert_ne.
Qed.

(** Induction over command sequences for a property of one task. *)
Lemma lease_steps_task (P : mesh_task_lease_entry → Prop) st st' cid e :
  (∀ mx ap idx x x', entry_ok ap x → ap < idx → u64 idx → P x → entry_step mx idx x x' → P x') →
  store_ok st → lease_steps st st' → task_at st cid e → P e →
  ∃ e', task_at st' cid e' ∧ P e'.
Proof.
  intros HP Hok Hs. revert e Hok.
  induction Hs as [st|st idx op r st1 out st2 Hop Hi Hx Hs IH]; intros e Hok He Hp; [eauto|].
  destruct (exec_cases _ Hok _ _ _ _ _ Hop Hi Hx) as [[_ ->]|(_ & Hlt & Hst)]; [by eauto|].
  destruct (store_step_task _ _ _ _ _ Hok Hst He) as (e1 & He1 & [->|Hes]);
    (eapply IH; [by eapply store_step_ok|done|]); [done|].
  eapply HP; [|exact Hlt|done|done|exact Hes]. by eapply task_at_ok.
Qed.

Lemma entry_step_token mx ap idx e e' : entry_ok ap e → ap < idx → entry_step mx idx e e' →
  e_fencing_token e <= e_fencing_token e'.
Proof.
  intros He Hlt Hs. pose proof (eok_token _ _ He). pose proof (eok_indices _ _ He).
  destruct Hs; simpl; lia.
Qed.

Lemma lease_lost_step e mx ap idx x x' : entry_ok ap x → ap < idx →
  lease_lost e x → entry_step mx idx x x' → lease_lost e x'.
Proof.
  intros Hx Hlt Hl Hs. pose proof (entry_step_token _ _ _ _ _ Hx Hlt Hs).
  pose proof (eok_token _ _ Hx). pose proof (eok_indices _ _ Hx).
  destruct Hl as [?|[? ?]]; [left; lia|].
  unfold lease_lost. destruct Hs; simpl in *; try done; [left; lia|]. right. split; [lia|done].
Qed.

Lemma terminal_no_step mx idx e e' :
  e_state e ≠ MESH_TASK_STATE_READY → e_state e ≠ MESH_TASK_STATE_LEASED →
  ¬ entry_step mx idx e e'.
Proof. intros ?? Hs. destruct Hs; destruct_or?; congruence. Qed.

(** Facts of the specification. *)
Lemma task_apply_error sp idx op t r : task_apply sp idx op t = inl r → r ≠ MESH_TASK_LEASE_OK.
Proof.
  unfold task_apply, not_owner, is_leased. intros H.
  destruct op; repeat (step_in H; try done); by simplify_eq.
Qed.

Lemma task_apply_owner sp idx op t t' : task_apply sp idx op t = inr t' →
  match op with
  | OpRenew _ _ h k n _ | OpComplete _ _ h k n _ _ => owns t h k n = true
  | _ => True
  end.
Proof. unfold task_apply. intros H. destruct op; try done; repeat (step_in H; try done). Qed.

Lemma spec_apply_found idx op sp sp' t :
  spec_apply idx op sp = (MESH_TASK_LEASE_OK, sp') → sp_tasks sp !! op_cid op = Some t →
  ∃ t', task_apply sp idx op t = inr t' ∧ sp' = spec_put idx (op_cid op) t' sp.
Proof.
  unfold spec_apply. intros H Ht. rewrite Ht in H.
  repeat (step_in H; try done); simplify_eq; [|by eauto].
  exfalso. by eapply task_apply_error.
Qed.

Lemma owns_leased e h k n : owns (abs_entry e) h k n = true →
  e_state e = MESH_TASK_STATE_LEASED ∧ e_fencing_token e = k.
Proof.
  unfold owns. simpl. destruct (abs_phase e) eqn:Ep; try done. intros ?. bool_prop.
  split; [|done]. unfold abs_phase in Ep. repeat case_match; bool_prop; by simplify_eq.
Qed.

End Traces.

(** ** Theorems *)

(** C1: every committed command, on any store satisfying the invariant, acts
    exactly as the map specification: same result code, and the resulting table
    represents the resulting map. *)
Theorem lease_table_refines_map (st : mesh_task_lease_store) (idx : Z) (op : lease_op) :
  store_ok st → op_typed op → u64 idx →
  refines (lease_exec idx op st) (spec_apply idx op (abs_store st)).
Proof. intros. by apply exec_refines. Qed.

(** C23: from initialisation on, any sequence of committed commands keeps the
    invariant: unique ids, exact occupancy count, ordered indices, fencing tokens
    bounded by the applied index, and a holder exactly on leased tasks. *)
Theorem lease_invariant (alloc_ok : bool) (capacity mx : Z) (st st' : mesh_task_lease_store) :
  0 <= capacity → u64 mx →
  mesh_task_lease_store_init_v1 alloc_ok (Some zero_store) capacity mx =
    (MESH_TASK_LEASE_OK, Some st) →
  lease_steps st st' → store_ok st'.
Proof. intros Hc Hm Hi Hs. eapply lease_steps_ok; [|done]. by eapply init_store_ok. Qed.

(** A rejected command leaves the store as it was; an accepted one moves the
    applied index strictly forward to the committed index. *)
Theorem lease_reject_unchanged (st st' : mesh_task_lease_store) (idx : Z) (op : lease_op)
    (r : mesh_task_lease_result) (out : option mesh_task_lease_entry) :
  store_ok st → op_typed op → u64 idx → lease_exec idx op st = (r, Some st', out) →
  (r ≠ MESH_TASK_LEASE_OK ∧ st' = st) ∨
  (r = MESH_TASK_LEASE_OK ∧ s_applied_index st < idx ∧ s_applied_index st' = idx).
Proof.
  intros Hok Hop Hi H. destruct (exec_cases _ Hok _ _ _ _ _ Hop Hi H) as [?|(-> & ? & Hs)];
    [by left|right]. by destruct Hs.
Qed.

(** C11: once a lease is lost (superseded by a newer token, released, expired or
    completed), no later renew or complete that presents its token succeeds,
    whatever commands were committed in between and whoever presents it. *)
Theorem lost_lease_is_fenced (st0 st1 st2 : mesh_task_lease_store) (cid : bytes)
    (e e1 : mesh_task_lease_entry) (idx : Z) (op : lease_op)
    (r : mesh_task_lease_result) (o : option mesh_task_lease_store)
    (out : option mesh_task_lease_entry) :
  store_ok st0 → task_at st0 cid e → lease_steps st0 st1 →
  task_at st1 cid e1 → lease_lost e e1 → lease_steps st1 st2 →
  op_typed op → u64 idx → op_cid op = cid →
  match op with
  | OpRenew _ _ _ token _ _ | OpComplete _ _ _ token _ _ _ => token = e_fencing_token e
  | _ => False
  end →
  lease_exec idx op st2 = (r, o, out) → r ≠ MESH_TASK_LEASE_OK ∧ o = Some st2.
Proof.
  intros Hok0 He Hs01 He1 Hl Hs12 Hop Hi Hcid Htok Hx.
  pose proof (lease_steps_ok _ _ Hok0 Hs01) as Hok1.
  pose proof (lease_steps_ok _ _ Hok1 Hs12) as Hok2.
  destruct (lease_steps_task (lease_lost e) st1 st2 cid e1) as (e2 & He2 & Hl2);
    [by eauto using lease_lost_step|done..|].
  pose proof (exec_refines _ Hok2 _ _ Hop Hi) as (r' & st3 & out' & Hx' & Hsp).
  rewrite Hx in Hx'. simplify_eq.
  destruct (exec_cases _ Hok2 _ _ _ _ _ Hop Hi Hx) as [[? ->]|(-> & _ & _)]; [done|exfalso].
  pose proof (task_at_abs _ _ _ Hok2 He2) as Hab.
  destruct (spec_apply_found _ _ _ _ _ Hsp Hab) as (t' & Hap & _).
  apply task_apply_owner in Hap.
  destruct op; try done; subst; apply owns_leased in Hap as [? ?];
    destruct Hl2 as [?|[_ ?]]; [lia|done|lia|done].
Qed.

(** A task in a terminal state (succeeded, failed, cancelled or expired)
    keeps its whole record unchanged for ever. *)
Theorem terminal_is_final (st st' : mesh_task_lease_store) (cid : bytes)
    (e : mesh_task_lease_entry) :
  store_ok st → task_at st cid e →
  e_state e ≠ MESH_TASK_STATE_READY → e_state e ≠ MESH_TASK_STATE_LEASED →
  lease_steps st st' → task_at st' cid e.
Proof.
  intros Hok He Hr Hl Hs.
  destruct (lease_steps_task (λ x, x = e) st st' cid e) as (e' & He' & ->); try done.
  intros mx ap idx x x' _ _ _ -> Hst. by apply terminal_no_step in Hst.
Qed.

(** While a task is leased, the only accepted commands that change it are a
    renewal or completion by the recorded holder with the current token before
    the lease's expiry, or an expiry observed at or after that expiry. *)
Theorem lease_change_authorised (st st' : mesh_task_lease_store) (idx : Z) (op : lease_op)
    (out : option mesh_task_lease_entry) (cid h : bytes) (x : Z) (t : task) :
  store_ok st → op_typed op → u64 idx →
  lease_exec idx op st = (MESH_TASK_LEASE_OK, Some st', out) →
  sp_tasks (abs_store st) !! cid = Some t → t_phase t = Leased h x →
  sp_tasks (abs_store st') !! cid ≠ Some t →
  op_cid op = cid ∧
  match op with
  | OpRenew _ _ h' k n x' => h' = h ∧ k = t_token t ∧ 0 < n < x ∧ x < x'
  | OpComplete _ _ h' k n _ _ => h' = h ∧ k = t_token t ∧ 0 < n < x
  | OpExpire _ _ k n => x <= n ∧ (k = t_token t ∨ t_deadline t <= n)
  | _ => False
  end.
Proof.
  intros Hok Hop Hi Hx Ht Hph Hne.
  pose proof (exec_refines _ Hok _ _ Hop Hi) as (r' & st2 & out' & Hx' & Hsp).
  rewrite Hx in Hx'. simplify_eq.
  destruct (decide (op_cid op = cid)) as [<-|Hc].
  - destruct (spec_apply_found _ _ _ _ _ Hsp Ht) as (t' & Hap & E). split; [done|].
    rewrite E in Hne. simpl in Hne. rewrite lookup_insert_eq in Hne.
    assert (Hle : x <= t_deadline t).
    { simpl in Ht. apply lookup_fmap_Some in Ht as (e & <- & Hm).
      apply slot_map_lookup in Hm as (i & Hi' & Ho & _); [|apply Hok].
      pose proof (sok_entries _ Hok _ _ Hi' Ho) as He. simpl in *.
      unfold abs_phase in Hph. repeat case_match; bool_prop; simplify_eq.
      by apply (eok_leased _ _ He). }
    unfold task_apply, owns in Hap. rewrite Hph in Hap.
    destruct op; repeat (step_in Hap; try done); bool_prop; simplify_eq;
      split_and!; try done; try lia; auto.
  - exfalso. apply Hne. unfold spec_apply in Hsp.
    repeat (step_in Hsp; try done); simplify_eq;
      try (by exfalso; eapply task_apply_error);
      match goal with H : _ = abs_store st2 |- _ => rewrite <- H end; simpl;
      by rewrite lookup_insert_ne.
Qed.

(** ** Witnesses: a concrete two-slot table and command log *)

Definition w_cid : bytes := 1 :: zeros 15.
Definition w_digest : bytes := 2 :: zeros 31.
Definition w_alice : bytes := 3 :: zeros 31.
Definition w_bob : bytes := 4 :: zeros 31.
Definition w_init : mesh_task_lease_store :=
  mk_store (replicate 2 zero_entry) 2 0 1000 0 true.
Definition w_leased : mesh_task_lease_store :=
  lease_run [(1, OpRegister w_cid w_digest 5000);
             (2, OpAcquire w_cid w_digest w_alice 100 600)] w_init.
Definition w_released : mesh_task_lease_store :=
  lease_run [(3, OpExpire w_cid w_digest 2 700)] w_leased.
Definition w_stolen : mesh_task_lease_store :=
  lease_run [(4, OpAcquire w_cid w_digest w_bob 800 1200)] w_released.
Definition w_done : mesh_task_lease_store :=
  lease_run [(5, OpComplete w_cid w_digest w_bob 4 900 MESH_TASK_STATE_SUCCEEDED 0)] w_stolen.
Definition w_entry (st : mesh_task_lease_store) : mesh_task_lease_entry :=
  default zero_entry (s_entries st !! 0%nat).

Lemma w_init_ok : store_ok w_init.
Proof. by eapply (init_store_ok true (Some zero_store) 2 1000); [| |reflexivity]. Qed.
Lemma w_leased_ok : store_ok w_leased.
Proof. eapply lease_steps_ok; [apply w_init_ok|]. apply lease_run_steps. evaluate. Qed.
Lemma w_done_ok : store_ok w_done.
Proof.
  repeat (eapply lease_steps_ok; [|apply lease_run_steps; evaluate]). apply w_init_ok.
Qed.

Lemma lease_table_refines_map_witness :
  refines (lease_exec 3 (OpExpire w_cid w_digest 2 700) w_leased)
    (spec_apply 3 (OpExpire w_cid w_digest 2 700) (abs_store w_leased)).
Proof. apply lease_table_refines_map; [apply w_leased_ok|evaluate..]. Defined.

Definition w_log : list (Z * lease_op) :=
  [(1, OpRegister w_cid w_digest 5000);
   (2, OpAcquire w_cid w_digest w_alice 100 600);
   (3, OpExpire w_cid w_digest 2 700);
   (4, OpAcquire w_cid w_digest w_bob 800 1200);
   (5, OpComplete w_cid w_digest w_bob 4 900 MESH_TASK_STATE_SUCCEEDED 0)].

Lemma lease_invariant_witness : store_ok (lease_run w_log w_init).
Proof.
  apply (lease_invariant true 2 1000 w_init); [lia|evaluate|reflexivity|].
  apply lease_run_steps. evaluate.
Defined.

Lemma lease_reject_unchanged_witness :
  (MESH_TASK_LEASE_BUSY ≠ MESH_TASK_LEASE_OK ∧ w_leased = w_leased) ∨
  (MESH_TASK_LEASE_BUSY = MESH_TASK_LEASE_OK ∧ s_applied_index w_leased < 3 ∧
   s_applied_index w_leased = 3).
Proof.
  apply (lease_reject_unchanged w_leased w_leased 3 (OpAcquire w_cid w_digest w_bob 700 900)
    MESH_TASK_LEASE_BUSY (Some zero_entry)); [apply w_leased_ok|evaluate|evaluate|].
  vm_compute. reflexivity.
Defined.

Lemma lost_lease_is_fenced_witness :
  MESH_TASK_LEASE_FENCED ≠ MESH_TASK_LEASE_OK ∧ Some w_stolen = Some w_stolen.
Proof.
  apply (lost_lease_is_fenced w_leased w_released w_stolen w_cid (w_entry w_leased)
    (w_entry w_released) 5
    (OpComplete w_cid w_digest w_alice 2 900 MESH_TASK_STATE_SUCCEEDED 0)
    MESH_TASK_LEASE_FENCED (Some w_stolen) (Some zero_entry)).
  - apply w_leased_ok.
  - exists 0%nat. by vm_compute.
  - apply lease_run_steps. evaluate.
  - exists 0%nat. by vm_compute.
  - right. by vm_compute.
  - apply lease_run_steps. evaluate.
  - evaluate.
  - evaluate.
  - reflexivity.
  - reflexivity.
  - vm_compute. reflexivity.
Defined.

Lemma terminal_is_final_witness : task_at
  (lease_run [(6, OpAcquire w_cid w_digest w_alice 900 950)] w_done) w_cid (w_entry w_done).
Proof.
  apply (terminal_is_final w_done).
  - apply w_done_ok.
  - exists 0%nat. by vm_compute.
  - vm_compute. discriminate.
  - vm_compute. discriminate.
  - apply lease_run_steps. evaluate.
Defined.

Lemma w_released_ok : store_ok w_released.
Proof. eapply lease_steps_ok; [apply w_leased_ok|]. apply lease_run_steps. evaluate. Qed.

Lemma lease_change_authorised_witness :
  w_cid = w_cid ∧ 600 <= 700 ∧ (2 = 2 ∨ 5000 <= 700).
Proof.
  apply (lease_change_authorised w_leased w_released 3 (OpExpire w_cid w_digest 2 700)
    (Some (w_entry w_released)) w_cid w_alice 600 (abs_entry (w_entry w_leased))).
  - apply w_leased_ok.
  - evaluate.
  - evaluate.
  - vm_compute. reflexivity.
  - apply task_at_abs; [apply w_leased_ok|exists 0%nat; by vm_compute].
  - vm_compute. reflexivity.
  - rewrite (task_at_abs w_released w_cid (w_entry w_released)).
    + vm_compute. discriminate.
    + apply w_released_ok.
    + exists 0%nat. by vm_compute.
Defined.
