(* ===== verification/RaftLog.v ===== *)
(** * The contract between a replicated state machine and the log that drives it

    [tr_raft_state_machine_t] is a table of callbacks the Raft service calls
    with batches of committed entries.  The class below states what the mesh
    state machines promise: a rejected entry changes nothing, an accepted one
    moves the applied index strictly forward to the entry's index.  The batch
    loop, which the adapters [mesh_task_lease_raft_adapter.c],
    [mesh_flow_ruleset_raft_adapter.c] and [mesh_control_raft.c] all have, is
    studied against the class only. *)

From S2P Require Import Prelude.

(** Codes of [turbo_error.h] (not part of this repository): only their being
    distinct matters.  [TURBO_OTHER] is any other code a callback returns. *)
Inductive turbo_code : Type :=
  | TURBO_OK
  | TURBO_EINVAL
  | TURBO_ENOMEM
  | TURBO_EPROTO
  | TURBO_OTHER (code : Z).

#[export] Instance turbo_code_eq_dec : EqDecision turbo_code.
Proof. solve_decision. Defined.

(** [tr_raft_entry_t]: the committed index and the command bytes. *)
Record raft_entry : Type := mk_raft_entry { re_index : Z; re_data : bytes }.

Definition entry_typed (en : raft_entry) : Prop := u64 (re_index en) ∧ Forall u8 (re_data en).
#[export] Instance entry_typed_dec en : Decision (entry_typed en).
Proof. unfold entry_typed. apply _. Defined.

Class ReplicatedMachine (S : Type) : Type := {
  rm_inv : S → Prop;
  rm_applied : S → Z;
  rm_apply : S → raft_entry → turbo_code * S;
  rm_apply_inv s en c s' : rm_inv s → entry_typed en → rm_apply s en = (c, s') → rm_inv s';
  rm_apply_reject s en c s' : rm_inv s → entry_typed en →
    rm_apply s en = (c, s') → c ≠ TURBO_OK → s' = s;
  rm_apply_accept s en s' : rm_inv s → entry_typed en →
    rm_apply s en = (TURBO_OK, s') →
    rm_applied s < re_index en ∧ rm_applied s' = re_index en }.

Section Batch.
Context {S : Type} `{ReplicatedMachine S}.
Implicit Types (s : S) (es : list raft_entry).

(** The loop of an adapter: stop at the first entry that does not apply. *)
Fixpoint run_batch s es : turbo_code * S :=
  match es with
  | [] => (TURBO_OK, s)
  | en :: es' =>
      match rm_apply s en with
      | (TURBO_OK, s') => run_batch s' es'
      | (c, s') => (c, s')
      end
  end.

(** Strictly increasing indices, all above [lo]. *)
Fixpoint increasing (lo : Z) es : Prop :=
  match es with
  | [] => True
  | en :: es' => lo < re_index en ∧ increasing (re_index en) es'
  end.

Lemma increasing_app lo es1 es2 : increasing lo (es1 ++ es2) ↔
  increasing lo es1 ∧ increasing (from_option re_index lo (last es1)) es2.
Proof.
  revert lo. induction es1 as [|en es1 IH]; intros lo; [simpl; tauto|].
  rewrite last_cons. simpl. rewrite IH. destruct (last es1); simpl; tauto.
Qed.

Lemma run_batch_app s es1 es2 :
  run_batch s (es1 ++ es2) =
  match run_batch s es1 with
  | (TURBO_OK, s') => run_batch s' es2
  | (c, s') => (c, s')
  end.
Proof.
  revert s. induction es1 as [|en es1 IH]; intros s; simpl; [done|].
  destruct (rm_apply s en) as [[] s']; done || apply IH.
Qed.

Lemma run_batch_inv s es c s' : rm_inv s → Forall entry_typed es →
  run_batch s es = (c, s') → rm_inv s'.
Proof.
  intros Hs Ht. revert s Hs. induction Ht as [|en es Hen Ht IH]; intros s Hs; simpl.
  { by intros [= _ <-]. }
  destruct (rm_apply s en) as [k s1] eqn:E. pose proof (rm_apply_inv _ _ _ _ Hs Hen E).
  destruct k; [by apply IH|by intros [= _ <-]..].
Qed.

Lemma run_batch_increasing s es s' : rm_inv s → Forall entry_typed es →
  run_batch s es = (TURBO_OK, s') →
  increasing (rm_applied s) es ∧ rm_applied s' = from_option re_index (rm_applied s) (last es).
Proof.
  intros Hs Ht. revert s Hs. induction Ht as [|en es Hen Ht IH]; intros s Hs; simpl.
  { by intros [= <-]. }
  destruct (rm_apply s en) as [k s1] eqn:E. pose proof (rm_apply_inv _ _ _ _ Hs Hen E) as Hs1.
  destruct k; try done. destruct (rm_apply_accept _ _ _ Hs Hen E) as [Hlt Heq].
  intros Hr. destruct (IH s1 Hs1 Hr) as [Hi Hl]. rewrite Heq in Hi, Hl. split; [done|].
  rewrite Hl, last_cons. by destruct (last es).
Qed.

(** An index already applied is rejected, so nothing is applied twice. *)
Lemma rm_apply_stale s en : rm_inv s → entry_typed en → re_index en <= rm_applied s →
  ∃ c, c ≠ TURBO_OK ∧ rm_apply s en = (c, s).
Proof.
  intros Hs Hen Hle. destruct (rm_apply s en) as [c s1] eqn:E.
  destruct (decide (c = TURBO_OK)) as [->|Hc].
  - destruct (rm_apply_accept _ _ _ Hs Hen E). lia.
  - exists c. split; [done|]. by rewrite (rm_apply_reject _ _ _ _ Hs Hen E Hc).
Qed.

(** Re-delivering a batch whose first entry is already applied is refused
    without touching the machine, whether the first delivery succeeded or
    stopped half way. *)
Lemma run_batch_stale s en es : rm_inv s → entry_typed en → re_index en <= rm_applied s →
  ∃ c, c ≠ TURBO_OK ∧ run_batch s (en :: es) = (c, s).
Proof.
  intros Hs Hen Hle. destruct (rm_apply_stale s en Hs Hen Hle) as (c & Hc & E).
  exists c. split; [done|]. simpl. rewrite E. by destruct c.
Qed.

(** The applied index never decreases. *)
Lemma run_batch_applied_mono s es c s' : rm_inv s → Forall entry_typed es →
  run_batch s es = (c, s') → rm_applied s <= rm_applied s'.
Proof.
  intros Hs Ht. revert s Hs. induction Ht as [|en es Hen Ht IH]; intros s Hs; simpl.
  { intros [= _ <-]. lia. }
  destruct (rm_apply s en) as [k s1] eqn:E. pose proof (rm_apply_inv _ _ _ _ Hs Hen E) as Hs1.
  destruct (decide (k = TURBO_OK)) as [->|Hk].
  - destruct (rm_apply_accept _ _ _ Hs Hen E) as [? Heq]. intros Hr.
    specialize (IH _ Hs1 Hr). lia.
  - rewrite (rm_apply_reject _ _ _ _ Hs Hen E Hk). destruct k; try done; intros [= _ <-]; lia.
Qed.

(** Once the first entry has been applied, the batch can never be applied
    again from the state it left. *)
Lemma run_batch_redelivery s en es c s' : rm_inv s → Forall entry_typed (en :: es) →
  run_batch s (en :: es) = (c, s') → rm_applied s < rm_applied s' →
  ∃ c', c' ≠ TURBO_OK ∧ run_batch s' (en :: es) = (c', s').
Proof.
  intros Hs Ht Hr Hlt. pose proof (run_batch_inv _ _ _ _ Hs Ht Hr) as Hs'.
  apply Forall_cons in Ht as [Hen Ht]. apply run_batch_stale; try done.
  simpl in Hr. destruct (rm_apply s en) as [k s1] eqn:E.
  destruct (decide (k = TURBO_OK)) as [->|Hk].
  - destruct (rm_apply_accept _ _ _ Hs Hen E) as [? <-].
    eapply (run_batch_applied_mono s1 es c); [exact (rm_apply_inv _ _ _ _ Hs Hen E)|done..].
  - rewrite (rm_apply_reject _ _ _ _ Hs Hen E Hk) in Hr. destruct k; try done; injection Hr as _ <-; lia.
Qed.

End Batch.
