(* ===== verification/TaskLeaseRaft.v ===== *)
(** * Task-lease commands on the Raft log

    Models [mesh/src/mesh_task_lease_raft.c] (the canonical 128-byte command,
    its encoder and decoder, and the deterministic apply function) and the
    batch callback of [mesh/src/mesh_task_lease_raft_adapter.c].  A pointer and
    size pair is one byte list, [None] when the pointer is NULL. *)

From S2P Require Import Prelude Wire TaskLease RaftLog.

(** ** Data *)

Definition MESH_TASK_LEASE_RAFT_MAGIC : bytes := [77; 84; 76; 49].
Definition MESH_TASK_LEASE_RAFT_COMMAND_VERSION : Z := 1.
Definition MESH_TASK_LEASE_RAFT_COMMAND_HEADER_SIZE : nat := 8.
Definition MESH_TASK_LEASE_RAFT_COMMAND_SIZE : nat :=
  MESH_TASK_LEASE_RAFT_COMMAND_HEADER_SIZE + MESH_MGMT_EXECUTION_ID_SIZE +
  2 * MESH_MGMT_EXECUTION_DIGEST_SIZE + 4 * 8 + 2 * 4.

(** [mesh_task_lease_raft_operation_v1_t], cast from a wire byte. *)
Definition MESH_TASK_LEASE_RAFT_REGISTER : Z := 1.
Definition MESH_TASK_LEASE_RAFT_ACQUIRE : Z := 2.
Definition MESH_TASK_LEASE_RAFT_RENEW : Z := 3.
Definition MESH_TASK_LEASE_RAFT_EXPIRE : Z := 4.
Definition MESH_TASK_LEASE_RAFT_COMPLETE : Z := 5.

Record mesh_task_lease_raft_command : Type := mk_command {
  c_operation : Z;
  c_command_id : bytes;
  c_request_digest : bytes;
  c_holder_node_id : bytes;
  c_task_deadline_ms : Z;
  c_observed_now_ms : Z;
  c_lease_expires_at_ms : Z;
  c_expected_fencing_token : Z;
  c_result_code : Z;
  c_terminal_state : Z }.

Definition zero_command : mesh_task_lease_raft_command :=
  mk_command 0 (zeros 16) (zeros 32) (zeros 32) 0 0 0 0 0 0.

(** ** Codec *)

Fixpoint bytes_are_zero (b : bytes) : bool :=
  match b with
  | [] => true
  | x :: b' => if negb (x =? 0) then false else bytes_are_zero b'
  end.

Definition command_is_canonical (command : option mesh_task_lease_raft_command) : bool :=
  match command with
  | None => false
  | Some c =>
      if bytes_are_zero (c_command_id c) || bytes_are_zero (c_request_digest c) then false
      else if c_operation c =? MESH_TASK_LEASE_RAFT_REGISTER then
        bytes_are_zero (c_holder_node_id c) && negb (c_task_deadline_ms c =? 0) &&
        (c_observed_now_ms c =? 0) && (c_lease_expires_at_ms c =? 0) &&
        (c_expected_fencing_token c =? 0) && (c_result_code c =? 0) && (c_terminal_state c =? 0)
      else if c_operation c =? MESH_TASK_LEASE_RAFT_ACQUIRE then
        negb (bytes_are_zero (c_holder_node_id c)) && (c_task_deadline_ms c =? 0) &&
        negb (c_observed_now_ms c =? 0) && negb (c_lease_expires_at_ms c =? 0) &&
        (c_expected_fencing_token c =? 0) && (c_result_code c =? 0) && (c_terminal_state c =? 0)
      else if c_operation c =? MESH_TASK_LEASE_RAFT_RENEW then
        negb (bytes_are_zero (c_holder_node_id c)) && (c_task_deadline_ms c =? 0) &&
        negb (c_observed_now_ms c =? 0) && negb (c_lease_expires_at_ms c =? 0) &&
        negb (c_expected_fencing_token c =? 0) && (c_result_code c =? 0) &&
        (c_terminal_state c =? 0)
      else if c_operation c =? MESH_TASK_LEASE_RAFT_EXPIRE then
        bytes_are_zero (c_holder_node_id c) && (c_task_deadline_ms c =? 0) &&
        negb (c_observed_now_ms c =? 0) && (c_lease_expires_at_ms c =? 0) &&
        negb (c_expected_fencing_token c =? 0) && (c_result_code c =? 0) &&
        (c_terminal_state c =? 0)
      else if c_operation c =? MESH_TASK_LEASE_RAFT_COMPLETE then
        terminal_state_valid (c_terminal_state c) &&
        negb (bytes_are_zero (c_holder_node_id c)) && (c_task_deadline_ms c =? 0) &&
        negb (c_observed_now_ms c =? 0) && (c_lease_expires_at_ms c =? 0) &&
        negb (c_expected_fencing_token c =? 0)
      else false
  end.

(** The bytes the encoder stores at [output]. *)
Definition encode_command (c : mesh_task_lease_raft_command) : bytes :=
  MESH_TASK_LEASE_RAFT_MAGIC ++
  [MESH_TASK_LEASE_RAFT_COMMAND_VERSION; Z.land (c_operation c) 255; 0; 0] ++
  c_command_id c ++ c_request_digest c ++ c_holder_node_id c ++
  write_u64_le (c_task_deadline_ms c) ++ write_u64_le (c_observed_now_ms c) ++
  write_u64_le (c_lease_expires_at_ms c) ++ write_u64_le (c_expected_fencing_token c) ++
  write_u32_le (wrap 32 (c_result_code c)) ++ write_u32_le (wrap 32 (c_terminal_state c)).

Definition mesh_task_lease_raft_encode_v1 (command : option mesh_task_lease_raft_command)
    (output : option bytes) (out_size : option Z) :
    mesh_task_lease_result * option bytes * option Z :=
  if negb (command_is_canonical command) || negb (non_null output) ||
     negb (non_null out_size) ||
     (len (deref [] output) <? Z.of_nat MESH_TASK_LEASE_RAFT_COMMAND_SIZE)
  then (MESH_TASK_LEASE_INVALID_ARG, output, out_size)
  else
    let encoded := encode_command (deref zero_command command) in
    (MESH_TASK_LEASE_OK, (λ o, blit o 0 encoded) <$> output, assign out_size (len encoded)).

(** The fields the decoder reads, at the running [offset] of the source. *)
Definition decode_fields (inp : bytes) : mesh_task_lease_raft_command :=
  mk_command (at_ inp 5) (sub inp 8 16) (sub inp 24 32) (sub inp 56 32)
    (read_u64_le (sub inp 88 8)) (read_u64_le (sub inp 96 8))
    (read_u64_le (sub inp 104 8)) (read_u64_le (sub inp 112 8))
    (to_int32 (read_u32_le (sub inp 120 4))) (read_u32_le (sub inp 124 4)).

Definition mesh_task_lease_raft_decode_v1 (input : option bytes)
    (out_command : option mesh_task_lease_raft_command) :
    mesh_task_lease_result * option mesh_task_lease_raft_command :=
  let inp := deref [] input in
  if negb (non_null input) || negb (non_null out_command) ||
     negb (len inp =? Z.of_nat MESH_TASK_LEASE_RAFT_COMMAND_SIZE) ||
     negb (memeq 4 inp MESH_TASK_LEASE_RAFT_MAGIC) ||
     negb (at_ inp 4 =? MESH_TASK_LEASE_RAFT_COMMAND_VERSION) ||
     negb (at_ inp 6 =? 0) || negb (at_ inp 7 =? 0)
  then (MESH_TASK_LEASE_INVALID_ARG, out_command)
  else
    let command := decode_fields inp in
    if negb (command_is_canonical (Some command))
    then (MESH_TASK_LEASE_INVALID_ARG, out_command)
    else (MESH_TASK_LEASE_OK, assign out_command command).

(** ** Apply *)

Definition mesh_task_lease_raft_apply_v1 (store : option mesh_task_lease_store)
    (committed_index : Z) (command_data : option bytes)
    (out_entry : option mesh_task_lease_entry) : outcome :=
  match mesh_task_lease_raft_decode_v1 command_data (Some zero_command) with
  | (MESH_TASK_LEASE_OK, command) =>
      let c := deref zero_command command in
      let result_entry := Some (default zero_entry out_entry) in
      let '(r, store', result_entry') :=
        if c_operation c =? MESH_TASK_LEASE_RAFT_REGISTER then
          mesh_task_lease_register_v1 store committed_index (Some (c_command_id c))
            (Some (c_request_digest c)) (c_task_deadline_ms c) result_entry
        else if c_operation c =? MESH_TASK_LEASE_RAFT_ACQUIRE then
          mesh_task_lease_acquire_v1 store committed_index (Some (c_command_id c))
            (Some (c_request_digest c)) (Some (c_holder_node_id c)) (c_observed_now_ms c)
            (c_lease_expires_at_ms c) result_entry
        else if c_operation c =? MESH_TASK_LEASE_RAFT_RENEW then
          mesh_task_lease_renew_v1 store committed_index (Some (c_command_id c))
            (Some (c_request_digest c)) (Some (c_holder_node_id c))
            (c_expected_fencing_token c) (c_observed_now_ms c)
            (c_lease_expires_at_ms c) result_entry
        else if c_operation c =? MESH_TASK_LEASE_RAFT_EXPIRE then
          mesh_task_lease_expire_v1 store committed_index (Some (c_command_id c))
            (Some (c_request_digest c)) (c_expected_fencing_token c) (c_observed_now_ms c)
            result_entry
        else if c_operation c =? MESH_TASK_LEASE_RAFT_COMPLETE then
          mesh_task_lease_complete_v1 store committed_index (Some (c_command_id c))
            (Some (c_request_digest c)) (Some (c_holder_node_id c))
            (c_expected_fencing_token c) (c_observed_now_ms c) (c_terminal_state c)
            (c_result_code c) result_entry
        else (MESH_TASK_LEASE_INVALID_ARG, store, result_entry) in
      (r, store', match out_entry with None => None | Some _ => result_entry' end)
  | (result, _) => (result, store, out_entry)
  end.

(** ** Adapter *)

Definition map_lease_result (result : mesh_task_lease_result) : turbo_code :=
  match result with
  | MESH_TASK_LEASE_OK => TURBO_OK
  | MESH_TASK_LEASE_RESOURCE_EXHAUSTED => TURBO_ENOMEM
  | _ => TURBO_EPROTO
  end.

(** The adapter structure; a service handle is an identity, [None] when unset. *)
Record mesh_task_lease_raft_adapter : Type := mk_adapter {
  ta_store : option mesh_task_lease_store;
  ta_service : option Z;
  ta_open : bool }.

Definition set_ta_store (v : option mesh_task_lease_store) (a : mesh_task_lease_raft_adapter) :=
  mk_adapter v (ta_service a) (ta_open a).

Fixpoint apply_entries (adapter : mesh_task_lease_raft_adapter) (entries : list raft_entry) :
    turbo_code * mesh_task_lease_raft_adapter :=
  match entries with
  | [] => (TURBO_OK, adapter)
  | en :: entries' =>
      let '(result, store', _) :=
        mesh_task_lease_raft_apply_v1 (ta_store adapter) (re_index en) (Some (re_data en)) None in
      let adapter' := set_ta_store store' adapter in
      if negb (bool_decide (result = MESH_TASK_LEASE_OK))
      then (map_lease_result result, adapter')
      else apply_entries adapter' entries'
  end.

Definition apply_batch (adapter : option mesh_task_lease_raft_adapter)
    (entries : option (list raft_entry)) : turbo_code * option mesh_task_lease_raft_adapter :=
  match adapter, entries with
  | Some a, Some es =>
      if negb (ta_open a) || negb (non_null (ta_store a)) || bool_decide (es = [])
      then (TURBO_EINVAL, adapter)
      else let '(c, a') := apply_entries a es in (c, Some a')
  | _, _ => (TURBO_EINVAL, adapter)
  end.

(** [out_adapter] is the contents of the output pointer, itself possibly NULL. *)
Definition mesh_task_lease_raft_adapter_create_v1 (alloc_ok : bool)
    (store : option mesh_task_lease_store)
    (out_adapter : option (option mesh_task_lease_raft_adapter)) :
    turbo_code * option (option mesh_task_lease_raft_adapter) :=
  if negb (non_null out_adapter) then (TURBO_EINVAL, out_adapter)
  else
    let out_adapter := assign out_adapter None in
    if negb (match store with Some st => s_open st | None => false end)
    then (TURBO_EINVAL, out_adapter)
    else if negb alloc_ok then (TURBO_ENOMEM, out_adapter)
    else (TURBO_OK, assign out_adapter (Some (mk_adapter store None true))).

Definition mesh_task_lease_raft_adapter_bind_service_v1
    (adapter : option mesh_task_lease_raft_adapter) (service : option Z) :
    turbo_code * option mesh_task_lease_raft_adapter :=
  match adapter, service with
  | Some a, Some sv =>
      if negb (ta_open a) || (non_null (ta_service a) && negb (bool_decide (ta_service a = Some sv)))
      then (TURBO_EINVAL, adapter)
      else (TURBO_OK, Some (mk_adapter (ta_store a) (Some sv) (ta_open a)))
  | _, _ => (TURBO_EINVAL, adapter)
  end.

(** [memset] and [free]: the pointer is dangling afterwards. *)
Definition mesh_task_lease_raft_adapter_destroy_v1
    (adapter : option mesh_task_lease_raft_adapter) : option mesh_task_lease_raft_adapter := None.

(** The callback table: the context the Raft service passes back to
    [apply_batch], [None] when both members stay NULL. *)
Definition mesh_task_lease_raft_state_machine_v1 (adapter : option mesh_task_lease_raft_adapter) :
    option (mesh_task_lease_raft_adapter *
            (option mesh_task_lease_raft_adapter → option (list raft_entry) →
             turbo_code * option mesh_task_lease_raft_adapter)) :=
  match adapter with
  | Some a => if ta_open a then Some (a, apply_batch) else None
  | None => None
  end.

(** Either a local error, or the proposal handed to the Raft service. *)
Definition mesh_task_lease_raft_propose_v1 (adapter : option mesh_task_lease_raft_adapter)
    (command_id : Z) (command : option mesh_task_lease_raft_command) (out_receipt : bool) :
    turbo_code + (Z * Z * bytes) :=
  match adapter with
  | Some (mk_adapter _ (Some service) true) =>
      if (command_id =? 0) || negb (non_null command) || negb out_receipt then inl TURBO_EINVAL
      else
        match mesh_task_lease_raft_encode_v1 command
                (Some (zeros MESH_TASK_LEASE_RAFT_COMMAND_SIZE)) (Some 0) with
        | (MESH_TASK_LEASE_OK, output, size) =>
            inr (service, command_id, take (Z.to_nat (deref 0 size)) (deref [] output))
        | (encode_result, _, _) => inl (map_lease_result encode_result)
        end
  | _ => inl TURBO_EINVAL
  end.

(** ** Reading the codec *)

(** The C types of a command structure. *)
Definition command_typed (c : mesh_task_lease_raft_command) : Prop :=
  u8 (c_operation c) ∧ bytes_ok 16 (c_command_id c) ∧ bytes_ok 32 (c_request_digest c) ∧
  bytes_ok 32 (c_holder_node_id c) ∧ u64 (c_task_deadline_ms c) ∧ u64 (c_observed_now_ms c) ∧
  u64 (c_lease_expires_at_ms c) ∧ u64 (c_expected_fencing_token c) ∧ int32 (c_result_code c) ∧
  u32 (c_terminal_state c).
#[export] Instance command_typed_dec c : Decision (command_typed c).
Proof. unfold command_typed. apply _. Defined.

(** The lease operation a canonical command denotes. *)
Definition command_op (c : mesh_task_lease_raft_command) : lease_op :=
  if c_operation c =? MESH_TASK_LEASE_RAFT_REGISTER then
    OpRegister (c_command_id c) (c_request_digest c) (c_task_deadline_ms c)
  else if c_operation c =? MESH_TASK_LEASE_RAFT_ACQUIRE then
    OpAcquire (c_command_id c) (c_request_digest c) (c_holder_node_id c) (c_observed_now_ms c)
      (c_lease_expires_at_ms c)
  else if c_operation c =? MESH_TASK_LEASE_RAFT_RENEW then
    OpRenew (c_command_id c) (c_request_digest c) (c_holder_node_id c)
      (c_expected_fencing_token c) (c_observed_now_ms c) (c_lease_expires_at_ms c)
  else if c_operation c =? MESH_TASK_LEASE_RAFT_EXPIRE then
    OpExpire (c_command_id c) (c_request_digest c) (c_expected_fencing_token c)
      (c_observed_now_ms c)
  else
    OpComplete (c_command_id c) (c_request_digest c) (c_holder_node_id c)
      (c_expected_fencing_token c) (c_observed_now_ms c) (c_terminal_state c) (c_result_code c).

(** The state machine as the Raft service sees it. *)
Definition lease_machine_apply (st : mesh_task_lease_store) (en : raft_entry) :
    turbo_code * mesh_task_lease_store :=
  let '(r, store', _) :=
    mesh_task_lease_raft_apply_v1 (Some st) (re_index en) (Some (re_data en)) None in
  (map_lease_result r, default st store').

Section Codec.
Implicit Types c : mesh_task_lease_raft_command.

Lemma bytes_are_zero_spec n b : length b = n → bytes_are_zero b = bool_decide (b = zeros n).
Proof.
  intros <-. induction b as [|x b IH]; [done|]. simpl. rewrite IH.
  destruct (Z.eqb_spec x 0) as [->|Hx]; simpl.
  - apply bool_decide_ext. split; [intros H; exact (f_equal (cons 0) H)|intros H; by injection H].
  - symmetry. apply bool_decide_eq_false. by intros [=].
Qed.

Lemma length_encode_command c : command_typed c →
  length (encode_command c) = MESH_TASK_LEASE_RAFT_COMMAND_SIZE.
Proof.
  intros (_ & [? _] & [? _] & [? _] & _). unfold encode_command.
  rewrite !length_app. lens.
Qed.

Lemma terminal_state_small c : command_is_canonical (Some c) = true → c_terminal_state c < 6.
Proof.
  unfold command_is_canonical, terminal_state_valid, MESH_TASK_STATE_SUCCEEDED,
    MESH_TASK_STATE_FAILED, MESH_TASK_STATE_CANCELLED.
  intros H. repeat (step_in H; try done); bool_prop; lia.
Qed.

Lemma decode_fields_encode c : command_typed c → command_is_canonical (Some c) = true →
  decode_fields (encode_command c) = c.
Proof.
  intros (Hop & [Hi _] & [Hd _] & [Hh _] & H1 & H2 & H3 & H4 & H5 & H6) Hc.
  pose proof (terminal_state_small c Hc) as Ht.
  assert (Hm : length MESH_TASK_LEASE_RAFT_MAGIC = 4%nat) by done.
  unfold decode_fields, encode_command. seek.
  assert (Hat : ∀ tl, at_ (MESH_TASK_LEASE_RAFT_MAGIC ++
    MESH_TASK_LEASE_RAFT_COMMAND_VERSION :: Z.land (c_operation c) 255 :: tl) 5 = c_operation c).
  { intros tl. change 255 with (Z.ones 8). rewrite Z.land_ones by lia. by apply wrap_small. }
  rewrite Hat, !read_write_u64_le by done.
  rewrite !read_write_u32_le by (by apply wrap_range).
  rewrite to_int32_wrap by done. rewrite wrap_small by done. by destruct c.
Qed.

Lemma decode_encode_command c c0 : command_typed c → command_is_canonical (Some c) = true →
  mesh_task_lease_raft_decode_v1 (Some (encode_command c)) (Some c0) =
  (MESH_TASK_LEASE_OK, Some c).
Proof.
  intros Ht Hc. unfold mesh_task_lease_raft_decode_v1. cbn [deref].
  unfold len. rewrite (length_encode_command c Ht), (decode_fields_encode c Ht Hc), Hc.
  done.
Qed.

(** Equality of the eight header bytes, from the decoder's tests. *)
Lemma header_bytes inp : (8 <= length inp)%nat →
  memeq 4 inp MESH_TASK_LEASE_RAFT_MAGIC = true →
  at_ inp 4 = MESH_TASK_LEASE_RAFT_COMMAND_VERSION → at_ inp 6 = 0 → at_ inp 7 = 0 →
  sub inp 0 8 =
    MESH_TASK_LEASE_RAFT_MAGIC ++ [MESH_TASK_LEASE_RAFT_COMMAND_VERSION; at_ inp 5; 0; 0].
Proof.
  intros Hl Hm H4 H6 H7. unfold memeq in Hm. bool_prop.
  change 8%nat with (4 + (1 + (1 + (1 + 1))))%nat. rewrite !sub_split.
  rewrite !at_sub by lia. simpl. rewrite H4, H6, H7.
  unfold sub. rewrite drop_0, Hm. done.
Qed.

Lemma decode_inv inp c0 c : Forall u8 inp →
  mesh_task_lease_raft_decode_v1 (Some inp) (Some c0) = (MESH_TASK_LEASE_OK, Some c) →
  command_typed c ∧ command_is_canonical (Some c) = true ∧ encode_command c = inp.
Proof.
  intros Hb H. unfold mesh_task_lease_raft_decode_v1 in H. cbn [deref assign] in H.
  step_in H; [done|]. step_in H; [done|]. injection H as <-. bool_prop.
  match goal with Hl : len inp = _ |- _ => rename Hl into Hlen end.
  assert (Hl : length inp = 128%nat).
  { unfold len in Hlen. change (Z.of_nat MESH_TASK_LEASE_RAFT_COMMAND_SIZE) with 128 in Hlen. lia. }
  clear Hlen.
  assert (Hok : bytes_ok 128 inp) by done.
  assert (Ht : command_typed (decode_fields inp)).
  { unfold command_typed, decode_fields. simpl.
    split_and!; try apply read_u64_le_range; try apply to_int32_range, read_u32_le_range;
      try apply read_u32_le_range; try (by apply at_u8);
      by (eapply sub_bytes_ok; [done|lia]). }
  split_and!; [done|done|].
  unfold encode_command, decode_fields.
  cbn [c_operation c_command_id c_request_digest c_holder_node_id c_task_deadline_ms
    c_observed_now_ms c_lease_expires_at_ms c_expected_fencing_token c_result_code
    c_terminal_state].
  rewrite !write_read_u64_le by (eapply sub_bytes_ok; [done|lia]).
  rewrite wrap_to_int32, (wrap_small 32 (read_u32_le _)) by apply read_u32_le_range.
  rewrite !write_read_u32_le by (eapply sub_bytes_ok; [done|lia]).
  change 255 with (Z.ones 8). rewrite Z.land_ones by lia.
  rewrite (Z.mod_small (at_ inp 5)) by (by apply at_u8).
  rewrite app_assoc, <- (header_bytes inp) by (done || lia).
  rewrite <- (sub_all inp 128 Hl) at 11.
  change 128%nat with (8 + (16 + (32 + (32 + (8 + (8 + (8 + (8 + (4 + 4)))))))))%nat.
  by rewrite !sub_split.
Qed.

Lemma decode_OK_Some inp c0 o :
  mesh_task_lease_raft_decode_v1 (Some inp) (Some c0) = (MESH_TASK_LEASE_OK, o) → ∃ c, o = Some c.
Proof.
  unfold mesh_task_lease_raft_decode_v1. intros H. repeat (step_in H; try done).
  simplify_eq. eauto.
Qed.

End Codec.

Section Apply.
Context (st : mesh_task_lease_store).

Lemma command_op_typed c : command_typed c → op_typed (command_op c).
Proof.
  intros (Hop & Hi & Hd & Hh & H1 & H2 & H3 & H4 & H5 & H6).
  unfold op_typed, command_op. repeat case_match; by split_and!.
Qed.

(** A decoded command is executed; a malformed one is refused. *)
Lemma raft_apply_exec idx inp c : Forall u8 inp →
  mesh_task_lease_raft_decode_v1 (Some inp) (Some zero_command) = (MESH_TASK_LEASE_OK, Some c) →
  ∃ r st' out, lease_exec idx (command_op c) st = (r, Some st', out) ∧
    mesh_task_lease_raft_apply_v1 (Some st) idx (Some inp) None = (r, Some st', None).
Proof.
  intros Hb Hdec. destruct (decode_inv _ _ _ Hb Hdec) as (_ & Hcan & _).
  unfold mesh_task_lease_raft_apply_v1. rewrite Hdec. cbn [deref default].
  destruct (lease_exec_Some idx (command_op c) st) as (r & st' & out & E).
  exists r, st', out. split; [done|]. revert E. unfold command_op.
  unfold command_is_canonical in Hcan. step_in Hcan; [done|].
  repeat (match goal with |- context [c_operation c =? ?k] => destruct (c_operation c =? k) end;
          [cbn [lease_exec]; by intros ->|]). done.
Qed.

Lemma raft_apply_malformed idx inp r o :
  mesh_task_lease_raft_decode_v1 (Some inp) (Some zero_command) = (r, o) →
  r ≠ MESH_TASK_LEASE_OK →
  mesh_task_lease_raft_apply_v1 (Some st) idx (Some inp) None = (r, Some st, None).
Proof. unfold mesh_task_lease_raft_apply_v1. intros ->. by destruct r. Qed.

Lemma raft_apply_Some idx inp :
  ∃ r st', mesh_task_lease_raft_apply_v1 (Some st) idx (Some inp) None = (r, Some st', None).
Proof.
  unfold mesh_task_lease_raft_apply_v1.
  destruct (mesh_task_lease_raft_decode_v1 _ _) as [[] o]; try by eauto.
  set (c := deref zero_command o). cbn [default].
  pose proof (lease_exec_Some idx (OpRegister (c_command_id c) (c_request_digest c)
    (c_task_deadline_ms c)) st) as (r1 & s1 & o1 & E1).
  pose proof (lease_exec_Some idx (OpAcquire (c_command_id c) (c_request_digest c)
    (c_holder_node_id c) (c_observed_now_ms c) (c_lease_expires_at_ms c)) st)
    as (r2 & s2 & o2 & E2).
  pose proof (lease_exec_Some idx (OpRenew (c_command_id c) (c_request_digest c)
    (c_holder_node_id c) (c_expected_fencing_token c) (c_observed_now_ms c)
    (c_lease_expires_at_ms c)) st) as (r3 & s3 & o3 & E3).
  pose proof (lease_exec_Some idx (OpExpire (c_command_id c) (c_request_digest c)
    (c_expected_fencing_token c) (c_observed_now_ms c)) st) as (r4 & s4 & o4 & E4).
  pose proof (lease_exec_Some idx (OpComplete (c_command_id c) (c_request_digest c)
    (c_holder_node_id c) (c_expected_fencing_token c) (c_observed_now_ms c)
    (c_terminal_state c) (c_result_code c)) st) as (r5 & s5 & o5 & E5).
  cbn [lease_exec] in *. unfold id. rewrite E1, E2, E3, E4, E5.
  repeat match goal with |- context [if ?b then _ else _] => destruct b end; eauto.
Qed.

Lemma map_lease_result_OK r : map_lease_result r = TURBO_OK ↔ r = MESH_TASK_LEASE_OK.
Proof. by destruct r. Qed.

(** What one log entry does to the table. *)
Lemma lease_machine_cases en : store_ok st → entry_typed en →
  (∃ c st' out, encode_command c = re_data en ∧ command_typed c ∧
     lease_exec (re_index en) (command_op c) st = (MESH_TASK_LEASE_OK, Some st', out) ∧
     lease_machine_apply st en = (TURBO_OK, st')) ∨
  (∃ k, k ≠ TURBO_OK ∧ lease_machine_apply st en = (k, st)).
Proof.
  intros Hok [Hi Hb]. unfold lease_machine_apply.
  destruct (mesh_task_lease_raft_decode_v1 (Some (re_data en)) (Some zero_command)) as [r o] eqn:E.
  destruct (decide (r = MESH_TASK_LEASE_OK)) as [->|Hr].
  - destruct (decode_OK_Some _ _ _ E) as [c ->].
    destruct (decode_inv _ _ _ Hb E) as (Ht & _ & Henc).
    destruct (raft_apply_exec (re_index en) _ _ Hb E) as (r & st' & out & Hx & ->). simpl.
    destruct (exec_cases _ Hok _ _ _ _ _ (command_op_typed c Ht) Hi Hx) as [[Hr ->]|(-> & _)].
    + right. exists (map_lease_result r). by rewrite map_lease_result_OK.
    + left. by exists c, st', out.
  - right. rewrite (raft_apply_malformed _ _ _ _ E Hr). simpl.
    exists (map_lease_result r). by rewrite map_lease_result_OK.
Qed.

End Apply.

(** ** The lease table discharges the replicated-machine contract *)

#[export] Program Instance lease_machine : ReplicatedMachine mesh_task_lease_store := {|
  rm_inv := store_ok;
  rm_applied := s_applied_index;
  rm_apply := lease_machine_apply |}.
Next Obligation.
  intros st en c st' Hok Hen H.
  destruct (lease_machine_cases st en Hok Hen) as
    [(cm & st1 & out & _ & Ht & Hx & E)|(k & Hk & E)]; rewrite E in H; simplify_eq; [|done].
  eapply exec_store_ok; [exact Hok| |apply Hen|exact Hx]. by apply command_op_typed.
Qed.
Next Obligation.
  intros st en c st' Hok Hen H Hc.
  destruct (lease_machine_cases st en Hok Hen) as
    [(cm & st1 & out & _ & Ht & Hx & E)|(k & Hk & E)]; rewrite E in H; by simplify_eq.
Qed.
Next Obligation.
  intros st en st' Hok Hen H.
  destruct (lease_machine_cases st en Hok Hen) as
    [(cm & st1 & out & _ & Ht & Hx & E)|(k & Hk & E)]; rewrite E in H; simplify_eq.
  destruct (exec_cases _ Hok _ _ _ _ _ (command_op_typed cm Ht) (proj1 Hen) Hx)
    as [[? _]|(_ & ? & Hs)]; [done|]. split; [done|]. by destruct Hs.
Qed.

(** The adapter's loop is the generic batch loop. *)
Lemma apply_entries_run_batch st sv op es :
  apply_entries (mk_adapter (Some st) sv op) es =
  prod_map id (λ st', mk_adapter (Some st') sv op) (run_batch st es).
Proof.
  revert st. induction es as [|en es IH]; intros st; [done|].
  cbn [apply_entries run_batch ta_store]. change (rm_apply st en) with (lease_machine_apply st en).
  unfold lease_machine_apply.
  destruct (raft_apply_Some st (re_index en) (re_data en)) as (r & st' & ->).
  cbn [set_ta_store ta_service ta_open default].
  destruct (bool_decide (r = MESH_TASK_LEASE_OK)) eqn:Er; bool_prop; simpl.
  - subst. simpl. apply IH.
  - by destruct r.
Qed.

(** ** Theorems *)

(** A canonical command survives the log: it encodes to exactly 128 bytes,
    whatever buffer it is written to, and those bytes decode to the command. *)
Theorem lease_command_roundtrip (c c0 : mesh_task_lease_raft_command) (buf : bytes) (n : Z) :
  command_typed c → command_is_canonical (Some c) = true → 128 <= len buf →
  ∃ buf', mesh_task_lease_raft_encode_v1 (Some c) (Some buf) (Some n) =
            (MESH_TASK_LEASE_OK, Some buf', Some 128) ∧
          length buf' = length buf ∧
          mesh_task_lease_raft_decode_v1 (Some (take 128 buf')) (Some c0) =
            (MESH_TASK_LEASE_OK, Some c).
Proof.
  intros Ht Hc Hl. pose proof (length_encode_command c Ht) as He.
  change MESH_TASK_LEASE_RAFT_COMMAND_SIZE with 128%nat in He. unfold len in Hl.
  exists (blit buf 0 (encode_command c)). split_and!.
  - unfold mesh_task_lease_raft_encode_v1. rewrite Hc. cbn [deref non_null].
    unfold len. rewrite He. change (Z.of_nat MESH_TASK_LEASE_RAFT_COMMAND_SIZE) with 128.
    destruct (Z.ltb_spec (Z.of_nat (length buf)) 128); [lia|]. done.
  - apply length_blit. lia.
  - unfold blit. rewrite take_0, app_nil_l, take_app_length' by lia.
    by apply decode_encode_command.
Qed.

(** The decoder accepts only canonical encodings: whatever it accepts is
    the encoding of the command it returns, so two different byte strings never
    decode to the same command. *)
Theorem lease_decode_canonical (inp : bytes) (c0 c : mesh_task_lease_raft_command) :
  Forall u8 inp →
  mesh_task_lease_raft_decode_v1 (Some inp) (Some c0) = (MESH_TASK_LEASE_OK, Some c) →
  command_typed c ∧ command_is_canonical (Some c) = true ∧ encode_command c = inp.
Proof. apply decode_inv. Qed.

(** C31: a batch of log entries moves the table exactly as executing, in order,
    the commands that were accepted; acceptance stops at the first entry that is
    malformed, out of order or rejected, and the table is then the one reached by
    the accepted prefix. *)
Theorem lease_batch_is_log_prefix (st : mesh_task_lease_store) (sv : option Z) (op : bool)
    (es : list raft_entry) (code : turbo_code) (a' : mesh_task_lease_raft_adapter) :
  store_ok st → Forall entry_typed es →
  apply_entries (mk_adapter (Some st) sv op) es = (code, a') →
  ∃ pre post cmds,
    es = pre ++ post ∧
    Forall2 (λ en c, encode_command c = re_data en ∧ command_typed c) pre cmds ∧
    ta_store a' = Some (lease_run (zip (re_index <$> pre) (command_op <$> cmds)) st) ∧
    (code = TURBO_OK ↔ post = []).
Proof.
  intros Hok Hes. rewrite apply_entries_run_batch. intros H.
  destruct (run_batch st es) as [k st1] eqn:Hr. simpl in H. simplify_eq. simpl.
  revert st Hok Hr. induction Hes as [|en es Hen Hes IH]; intros st Hok Hr.
  { simpl in Hr. simplify_eq. by exists [], [], []. }
  simpl in Hr. destruct (lease_machine_cases st en Hok Hen) as
    [(c & st2 & out & He & Ht & Hx & E)|(k' & Hk & E)]; rewrite E in Hr.
  - pose proof (rm_apply_inv _ _ _ _ Hok Hen E) as Hok2.
    destruct (IH st2 Hok2 Hr) as (pre & post & cmds & -> & Hf & Hst & Hc).
    exists (en :: pre), post, (c :: cmds). split_and!; [done|by constructor| |done].
    simpl. rewrite Hx. simpl in Hst. by injection Hst as ->.
  - exists [], (en :: es), []. destruct k'; simplify_eq; by split_and!.
Qed.

(** Entries are applied at most once: after a batch has been delivered and
    anything of it was applied, delivering it again is refused and leaves the
    table as it is. *)
Theorem lease_batch_at_most_once (st st' : mesh_task_lease_store) (sv : option Z) (op : bool)
    (en : raft_entry) (es : list raft_entry) (code : turbo_code) :
  store_ok st → Forall entry_typed (en :: es) →
  apply_entries (mk_adapter (Some st) sv op) (en :: es) = (code, mk_adapter (Some st') sv op) →
  s_applied_index st < s_applied_index st' →
  ∃ code', code' ≠ TURBO_OK ∧
    apply_entries (mk_adapter (Some st') sv op) (en :: es) = (code', mk_adapter (Some st') sv op).
Proof.
  rewrite !apply_entries_run_batch. intros Hok Hes H Hlt.
  destruct (run_batch st (en :: es)) as [k st1] eqn:Hr. cbn [prod_map] in H. simplify_eq.
  destruct (@run_batch_redelivery _ lease_machine st en es k st' Hok Hes Hr Hlt) as (c' & Hc & E).
  exists c'. split; [done|]. by rewrite E.
Qed.

(** How the log is cut into batches does not matter: delivering two
    batches one after the other is delivering their concatenation. *)
Theorem lease_batching_irrelevant (a : mesh_task_lease_raft_adapter) (st : mesh_task_lease_store)
    (es1 es2 : list raft_entry) :
  ta_store a = Some st →
  apply_entries a (es1 ++ es2) =
  match apply_entries a es1 with
  | (TURBO_OK, a1) => apply_entries a1 es2
  | (code, a1) => (code, a1)
  end.
Proof.
  destruct a as [? sv op]. simpl. intros ->. rewrite !apply_entries_run_batch, run_batch_app.
  destruct (run_batch st es1) as [[] st1]; simpl; by rewrite ?apply_entries_run_batch.
Qed.

(** ** Concrete log *)

Definition w_cid2 : bytes := 9 :: zeros 15.
Definition w_cmd_register (cid : bytes) : mesh_task_lease_raft_command :=
  mk_command MESH_TASK_LEASE_RAFT_REGISTER cid w_digest (zeros 32) 5000 0 0 0 0 0.
Definition w_cmd_acquire (holder : bytes) : mesh_task_lease_raft_command :=
  mk_command MESH_TASK_LEASE_RAFT_ACQUIRE w_cid w_digest holder 0 100 600 0 0 0.
Definition w_entry_of (idx : Z) (c : mesh_task_lease_raft_command) : raft_entry :=
  mk_raft_entry idx (encode_command c).
(** Two workers compete for the same task; an unrelated task follows. *)
Definition w_batch : list raft_entry :=
  [w_entry_of 1 (w_cmd_register w_cid); w_entry_of 2 (w_cmd_acquire w_alice);
   w_entry_of 3 (w_cmd_acquire w_bob); w_entry_of 4 (w_cmd_register w_cid2)].
Definition w_adapter : mesh_task_lease_raft_adapter := mk_adapter (Some w_init) None true.

(** A committed command that the table rejects for its content (here the
    second of two competing acquisitions) makes the batch callback fail: the
    entries after it are not applied, and delivering the batch again fails at its
    first entry, so the unrelated registration at index 4 stays unapplied. *)
Theorem lease_busy_stops_batch :
  let a' := (apply_entries w_adapter w_batch).2 in
  (apply_entries w_adapter w_batch).1 = TURBO_EPROTO ∧
  apply_entries a' w_batch = (TURBO_EPROTO, a') ∧
  mesh_task_lease_get_v1 (ta_store a') (Some w_cid2) (Some zero_entry) =
    (MESH_TASK_LEASE_NOT_FOUND, Some zero_entry).
Proof. vm_compute. split_and!; reflexivity. Qed.

(** ** Witnesses *)

Lemma lease_command_roundtrip_witness : ∃ buf',
  mesh_task_lease_raft_encode_v1 (Some (w_cmd_acquire w_alice)) (Some (zeros 130)) (Some 0) =
    (MESH_TASK_LEASE_OK, Some buf', Some 128) ∧ length buf' = length (zeros 130) ∧
  mesh_task_lease_raft_decode_v1 (Some (take 128 buf')) (Some zero_command) =
    (MESH_TASK_LEASE_OK, Some (w_cmd_acquire w_alice)).
Proof.
  apply (lease_command_roundtrip (w_cmd_acquire w_alice) zero_command (zeros 130) 0);
    [evaluate|reflexivity|vm_compute; discriminate].
Defined.

Lemma lease_decode_canonical_witness :
  command_typed (w_cmd_acquire w_bob) ∧ command_is_canonical (Some (w_cmd_acquire w_bob)) = true ∧
  encode_command (w_cmd_acquire w_bob) = encode_command (w_cmd_acquire w_bob).
Proof.
  apply (lease_decode_canonical (encode_command (w_cmd_acquire w_bob)) zero_command);
    [evaluate|vm_compute; reflexivity].
Defined.

Lemma lease_batch_is_log_prefix_witness : ∃ pre post cmds,
  w_batch = pre ++ post ∧
  Forall2 (λ en c, encode_command c = re_data en ∧ command_typed c) pre cmds ∧
  ta_store (apply_entries w_adapter w_batch).2 =
    Some (lease_run (zip (re_index <$> pre) (command_op <$> cmds)) w_init) ∧
  (TURBO_EPROTO = TURBO_OK ↔ post = []).
Proof.
  apply (lease_batch_is_log_prefix w_init None true w_batch);
    [apply w_init_ok|evaluate|vm_compute; reflexivity].
Defined.

Lemma lease_batch_at_most_once_witness : ∃ code', code' ≠ TURBO_OK ∧
  apply_entries (mk_adapter (Some w_leased) None true) (take 2 w_batch) =
    (code', mk_adapter (Some w_leased) None true).
Proof.
  apply (lease_batch_at_most_once w_init w_leased None true (w_entry_of 1 (w_cmd_register w_cid))
    [w_entry_of 2 (w_cmd_acquire w_alice)] TURBO_OK);
    [apply w_init_ok|evaluate|vm_compute; reflexivity|vm_compute; reflexivity].
Defined.

Lemma lease_batching_irrelevant_witness :
  apply_entries w_adapter (take 2 w_batch ++ drop 2 w_batch) =
  match apply_entries w_adapter (take 2 w_batch) with
  | (TURBO_OK, a1) => apply_entries a1 (drop 2 w_batch)
  | (code, a1) => (code, a1)
  end.
Proof. apply (lease_batching_irrelevant w_adapter w_init). reflexivity. Defined.
