(* ===== verification/TaskGuard.v ===== *)
(** * The execution guard of [mesh/src/mesh_task_execution_guard.c]

    A worker may run a task only after this check: the lease table, read at a
    linearizable index, must name this very worker process (node identity and
    process generation, hashed) as the holder of the presented fencing token.
    The theorems hold for any hash with 32-byte results, and where they need
    two inputs to differ they exhibit the colliding pair instead of assuming
    that there is none. *)

From S2P Require Import Prelude Wire MgmtCrypto TaskLease.

(** ** Data *)

Inductive mesh_task_execution_guard_result : Type :=
  | MESH_TASK_EXECUTION_GUARD_OK
  | MESH_TASK_EXECUTION_GUARD_INVALID_ARG
  | MESH_TASK_EXECUTION_GUARD_NOT_FOUND
  | MESH_TASK_EXECUTION_GUARD_IDENTITY_CONFLICT
  | MESH_TASK_EXECUTION_GUARD_NOT_LEASED
  | MESH_TASK_EXECUTION_GUARD_FENCED
  | MESH_TASK_EXECUTION_GUARD_STALE_READ
  | MESH_TASK_EXECUTION_GUARD_EXPIRED
  | MESH_TASK_EXECUTION_GUARD_CRYPTO_FAILED.

Record mesh_task_execution_claim : Type := mk_claim {
  cl_command_id : bytes;
  cl_request_digest : bytes;
  cl_target_node_id : bytes;
  cl_task_deadline_ms : Z }.

Record mesh_task_execution_proof : Type := mk_proof {
  pf_fencing_token : Z;
  pf_worker_generation : Z;
  pf_quorum_read_index : Z;
  pf_local_applied_index : Z;
  pf_observed_now_ms : Z }.

(** ** Operations *)

(** ['mesh/task/worker/v1'] *)
Definition WORKER_IDENTITY_DOMAIN : bytes :=
  [109; 101; 115; 104; 47; 116; 97; 115; 107; 47; 119; 111; 114; 107; 101; 114; 47; 118; 49].

Definition bytes_equal (lhs rhs : bytes) (size : nat) : bool :=
  foldl (λ difference index, Z.lor difference (Z.lxor (at_ lhs index) (at_ rhs index)))
    0 (seq 0 size) =? 0.

Definition bytes_are_zero (b : bytes) : bool := or_bytes b =? 0.

Section Guard.
Context {CR : Crypto}.

(** The canonical bytes: domain, node, big-endian generation. *)
Definition worker_canonical (node_id : bytes) (worker_generation : Z) : bytes :=
  WORKER_IDENTITY_DOMAIN ++ node_id ++
  ((λ index, Z.land (Z.shiftr worker_generation ((8 - Z.of_nat index - 1) * 8)) 255) <$> seq 0 8).

Definition mesh_task_worker_identity_v1 (node_id : option bytes) (worker_generation : Z)
    (out_identity : option bytes) : mesh_task_execution_guard_result * option bytes :=
  match node_id with
  | None => (MESH_TASK_EXECUTION_GUARD_INVALID_ARG, out_identity)
  | Some node =>
      if bytes_are_zero node || (worker_generation =? 0) || negb (non_null out_identity)
      then (MESH_TASK_EXECUTION_GUARD_INVALID_ARG, out_identity)
      else
        let canonical := worker_canonical node worker_generation in
        match mesh_mgmt_blake2b_256 (Some canonical) (len canonical) out_identity with
        | (MESH_MGMT_CRYPTO_OK, out_identity) => (MESH_TASK_EXECUTION_GUARD_OK, out_identity)
        | (_, out_identity) => (MESH_TASK_EXECUTION_GUARD_CRYPTO_FAILED, out_identity)
        end
  end.

Definition mesh_task_execution_guard_v1 (store : option mesh_task_lease_store)
    (local_node_id : option bytes) (claim : option mesh_task_execution_claim)
    (proof : option mesh_task_execution_proof) (out_lease : option mesh_task_lease_entry) :
    mesh_task_execution_guard_result * option mesh_task_lease_entry :=
  let out_lease := assign out_lease zero_entry in
  match store, local_node_id, claim, proof, out_lease with
  | Some st, Some node, Some cl, Some pf, Some _ =>
      if negb (s_open st) || (pf_fencing_token pf =? 0) || (pf_worker_generation pf =? 0) ||
         (pf_quorum_read_index pf =? 0) || (pf_local_applied_index pf =? 0) ||
         (pf_observed_now_ms pf =? 0) || bytes_are_zero (cl_command_id cl) ||
         bytes_are_zero (cl_request_digest cl) || bytes_are_zero (cl_target_node_id cl) ||
         (cl_task_deadline_ms cl =? 0)
      then (MESH_TASK_EXECUTION_GUARD_INVALID_ARG, out_lease)
      else if negb (bytes_equal node (cl_target_node_id cl) MESH_MGMT_EXECUTION_DIGEST_SIZE)
      then (MESH_TASK_EXECUTION_GUARD_IDENTITY_CONFLICT, out_lease)
      else
        match mesh_task_lease_get_v1 store (Some (cl_command_id cl)) (Some zero_entry) with
        | (MESH_TASK_LEASE_NOT_FOUND, _) => (MESH_TASK_EXECUTION_GUARD_NOT_FOUND, out_lease)
        | (MESH_TASK_LEASE_OK, got) =>
            let lease := deref zero_entry got in
            if negb (bytes_equal (e_request_digest lease) (cl_request_digest cl) 32) ||
               negb (e_task_deadline_ms lease =? cl_task_deadline_ms cl)
            then (MESH_TASK_EXECUTION_GUARD_IDENTITY_CONFLICT, out_lease)
            else if negb (e_state lease =? MESH_TASK_STATE_LEASED)
            then (MESH_TASK_EXECUTION_GUARD_NOT_LEASED, out_lease)
            else
              match mesh_task_worker_identity_v1 local_node_id (pf_worker_generation pf)
                      (Some (zeros MESH_MGMT_EXECUTION_DIGEST_SIZE)) with
              | (MESH_TASK_EXECUTION_GUARD_OK, worker_identity) =>
                  if negb (bytes_equal (deref [] worker_identity) (e_holder_node_id lease) 32) ||
                     negb (pf_fencing_token pf =? e_fencing_token lease)
                  then (MESH_TASK_EXECUTION_GUARD_FENCED, out_lease)
                  else if (pf_local_applied_index pf <? pf_quorum_read_index pf) ||
                          (pf_quorum_read_index pf <? e_mutation_index lease)
                  then (MESH_TASK_EXECUTION_GUARD_STALE_READ, out_lease)
                  else if (e_lease_expires_at_ms lease <=? pf_observed_now_ms pf) ||
                          (e_task_deadline_ms lease <=? pf_observed_now_ms pf)
                  then (MESH_TASK_EXECUTION_GUARD_EXPIRED, out_lease)
                  else (MESH_TASK_EXECUTION_GUARD_OK, assign out_lease lease)
              | (identity_result, _) => (identity_result, out_lease)
              end
        | _ => (MESH_TASK_EXECUTION_GUARD_INVALID_ARG, out_lease)
        end
  | _, _, _, _, _ => (MESH_TASK_EXECUTION_GUARD_INVALID_ARG, out_lease)
  end.

(** ** Typing of the arguments *)

Definition claim_typed (cl : mesh_task_execution_claim) : Prop :=
  bytes_ok 16 (cl_command_id cl) ∧ bytes_ok 32 (cl_request_digest cl) ∧
  bytes_ok 32 (cl_target_node_id cl) ∧ u64 (cl_task_deadline_ms cl).
Definition proof_typed (pf : mesh_task_execution_proof) : Prop :=
  u64 (pf_fencing_token pf) ∧ u64 (pf_worker_generation pf) ∧ u64 (pf_quorum_read_index pf) ∧
  u64 (pf_local_applied_index pf) ∧ u64 (pf_observed_now_ms pf).

(** What the guard certifies about the task [e] for worker [(node, generation)]. *)
Record authorised (st : mesh_task_lease_store) (node : bytes) (cl : mesh_task_execution_claim)
    (pf : mesh_task_execution_proof) (e : mesh_task_lease_entry) : Prop := {
  au_task : task_at st (cl_command_id cl) e;
  au_target : cl_target_node_id cl = node;
  au_digest : e_request_digest e = cl_request_digest cl;
  au_deadline : e_task_deadline_ms e = cl_task_deadline_ms cl;
  au_leased : e_state e = MESH_TASK_STATE_LEASED;
  au_holder : e_holder_node_id e =
    crypto_blake2b (worker_canonical node (pf_worker_generation pf));
  au_token : e_fencing_token e = pf_fencing_token pf;
  au_fresh : e_mutation_index e <= pf_quorum_read_index pf <= pf_local_applied_index pf;
  au_time : 0 < pf_observed_now_ms pf < e_lease_expires_at_ms e;
  au_inputs : node ≠ zeros 32 ∧ cl_request_digest cl ≠ zeros 32 ∧ 0 < pf_worker_generation pf }.

(** ** Lemmas *)

Lemma lor_eq_foldl f l : ∀ acc, 0 <= acc → (∀ i, 0 <= f i) →
  foldl (λ d (i : nat), Z.lor d (f i)) acc l = 0 ↔ acc = 0 ∧ Forall (λ i, f i = 0) l.
Proof.
  induction l as [|i l IH]; intros acc Ha Hf; simpl.
  { split; [by split|tauto]. }
  rewrite IH; [|apply Z.lor_nonneg; by split|done].
  rewrite Z.lor_eq_0_iff, Forall_cons. tauto.
Qed.

Lemma bytes_equal_spec n a b : bytes_ok n a → bytes_ok n b →
  bytes_equal a b n = bool_decide (a = b).
Proof.
  intros [Ha Hua] [Hb Hub]. unfold bytes_equal. apply eq_bool_prop_intro.
  rewrite Is_true_true, Z.eqb_eq, bool_decide_spec.
  rewrite (lor_eq_foldl (λ i, Z.lxor (at_ a i) (at_ b i))); [|done|].
  2:{ intros i. apply Z.lxor_nonneg.
      pose proof (at_u8 a i Hua). pose proof (at_u8 b i Hub). unfold uint in *. lia. }
  split; [intros [_ H]|by intros ->; split; [done|]; apply Forall_forall; intros; apply Z.lxor_nilpotent].
  apply list_eq_same_length with n; [lia|lia|]. intros i x y Hi Hx Hy.
  assert (E : Z.lxor (at_ a i) (at_ b i) = 0).
  { rewrite Forall_forall in H. apply H. apply elem_of_seq. lia. }
  apply Z.lxor_eq in E. unfold at_ in E. by rewrite Hx, Hy in E.
Qed.

Lemma guard_zero_spec n b : bytes_ok n b → bytes_are_zero b = bool_decide (b = zeros n).
Proof.
  intros [Hl Hb]. unfold bytes_are_zero. apply eq_bool_prop_intro.
  by rewrite Is_true_true, Z.eqb_eq, bool_decide_spec, (or_bytes_zero b Hb), Hl.
Qed.

Lemma worker_canonical_eq node g :
  worker_canonical node g = WORKER_IDENTITY_DOMAIN ++ node ++ be_bytes 8 g.
Proof.
  unfold worker_canonical. rewrite <- wire_write_u64_eq. by do 2 f_equal.
Qed.

(** Different workers hash different strings. *)
Lemma worker_canonical_inj node node' g g' : length node = 32%nat → length node' = 32%nat →
  u64 g → u64 g' → worker_canonical node g = worker_canonical node' g' → node = node' ∧ g = g'.
Proof.
  intros Hn Hn' Hg Hg'. rewrite !worker_canonical_eq. intros H.
  apply app_inv_head in H. apply app_inj_1 in H as [-> H]; [|lia]. split; [done|].
  rewrite <- (be_value_bytes 8 g), <- (be_value_bytes 8 g') by done. by rewrite H.
Qed.

Context (hash_size : ∀ b, bytes_ok 32 (crypto_blake2b b)).

(** The task a lookup would find. *)
Lemma task_at_spec st cid e : store_ok st → length cid = 16%nat →
  task_at st cid e ↔ ∃ i, find_entry st cid = Some (i, e).
Proof.
  intros Hok Hc. split; [by apply task_at_find|].
  intros [i Hi]. apply find_entry_Some in Hi as (? & ? & ? & _); try done. by exists i.
Qed.

Lemma worker_identity_eq node g out :
  mesh_task_worker_identity_v1 (Some node) g (Some out) =
  if bytes_are_zero node || (g =? 0) then (MESH_TASK_EXECUTION_GUARD_INVALID_ARG, Some out)
  else (MESH_TASK_EXECUTION_GUARD_OK, Some (crypto_blake2b (worker_canonical node g))).
Proof.
  unfold mesh_task_worker_identity_v1, mesh_mgmt_blake2b_256. cbn. rewrite orb_false_r.
  unfold len. by rewrite Nat2Z.id, take_ge.
Qed.

Lemma guard_spec st node cl pf out e : store_ok st → bytes_ok 32 node → claim_typed cl →
  proof_typed pf →
  mesh_task_execution_guard_v1 (Some st) (Some node) (Some cl) (Some pf) (Some out) =
    (MESH_TASK_EXECUTION_GUARD_OK, Some e) ↔ authorised st node cl pf e.
Proof.
  intros Hok Hn (Hc & Hd & Ht & Hdl) (H1 & H2 & H3 & H4 & H5).
  unfold mesh_task_execution_guard_v1, mesh_task_lease_get_v1.
  cbn [assign fmap option_fmap option_map deref non_null].
  change MESH_MGMT_EXECUTION_DIGEST_SIZE with 32%nat.
  rewrite (sok_open _ Hok), (guard_zero_spec 16 _ Hc), (guard_zero_spec 32 _ Hd),
    (guard_zero_spec 32 _ Ht), (bytes_nonzero_spec 16 _ Hc),
    (bytes_equal_spec 32 node _ Hn Ht).
  pose proof (bytes_ok_length _ _ Hc) as Hcl.
  destruct (find_entry st (cl_command_id cl)) as [[i x]|] eqn:Ef.
  2:{ split; [intros H; repeat (step_in H; try done)|].
      intros [[j Hj]%task_at_spec]; try done; congruence. }
  destruct (find_entry_Some _ _ _ _ Hok Hcl Ef) as (Hi & Ho & Hk & He).
  pose proof (eok_indices _ _ He) as Hix. pose proof (eok_generation _ _ He) as Hge.
  pose proof (eok_token _ _ He) as Hto. pose proof (eok_cid_nz _ _ He) as Hcz.
  rewrite (bool_decide_eq_false_2 (cl_command_id cl = _)) by congruence.
  change (negb (non_null (Some zero_entry))) with false.
  cbn [negb assign deref fmap option_fmap option_map].
  rewrite worker_identity_eq, (guard_zero_spec 32 _ Hn).
  rewrite (bytes_equal_spec 32 (e_request_digest x))
    by (done || apply He).
  unfold uint in *. split.
  - intros H. repeat (step_in H; try done). cbn [deref] in *.
    rewrite (bytes_equal_spec 32) in * by (apply He || apply hash_size).
    bool_prop. simplify_eq. split; try done; try lia; [by exists i| ].
    split_and!; congruence || lia.
  - intros Ha. assert (x = e) as ->.
    { destruct Ha as [[j Hj]%task_at_spec]; try done; congruence. }
    destruct Ha as [_ Htg Hdg Hdd Hls Hh Htk Hfr Htm (Hn0 & Hd0 & Hg)].
    destruct (eok_leased _ _ He Hls) as (_ & Hgen & Hexp).
    pass_guards. cbn [deref]. rewrite (bytes_equal_spec 32) by (apply He || apply hash_size).
    by pass_guards.
Qed.

(** The holder recorded under one fencing token never changes. *)
Definition same_holder (e x : mesh_task_lease_entry) : Prop :=
  e_fencing_token e < e_fencing_token x ∨
  (e_fencing_token x = e_fencing_token e ∧
   (e_state x = MESH_TASK_STATE_LEASED → e_holder_node_id x = e_holder_node_id e)).

Lemma same_holder_step e mx ap idx x x' : entry_ok ap x → ap < idx → same_holder e x →
  entry_step mx idx x x' → same_holder e x'.
Proof.
  intros Hx Hlt Hl Hs. pose proof (entry_step_token _ _ _ _ _ Hx Hlt Hs).
  pose proof (eok_token _ _ Hx). pose proof (eok_indices _ _ Hx).
  destruct Hl as [?|[? Hh]]; [left; lia|]. unfold same_holder.
  destruct Hs as [| | |? Hst|? ? ? ? ? Hst]; cbn [e_fencing_token e_state e_holder_node_id];
    [left; lia..|right|right|right]; (split; [done|]); try done.
  by intros ->.
Qed.

(** ** Theorems *)

(** C26: the guard answers OK exactly when the table holds a live lease for the
    claimed command whose holder is the hash of this node and process
    generation, with the presented token, the claimed digest and deadline, read
    at an index at or after the task's last change; the lease it hands back is
    the table's record. *)
Theorem guard_authorises (st : mesh_task_lease_store) (node : bytes)
    (cl : mesh_task_execution_claim) (pf : mesh_task_execution_proof)
    (out e : mesh_task_lease_entry) :
  store_ok st → bytes_ok 32 node → claim_typed cl → proof_typed pf →
  mesh_task_execution_guard_v1 (Some st) (Some node) (Some cl) (Some pf) (Some out) =
    (MESH_TASK_EXECUTION_GUARD_OK, Some e) ↔ authorised st node cl pf e.
Proof. apply guard_spec. Qed.

(** A fencing token authorises one worker process only: if, on one history
    of the table, the guard passes twice for the same command and token, the two
    worker processes are the same, or the two identity strings are a collision of
    the hash. *)
Theorem guard_one_worker_per_token (st st' : mesh_task_lease_store) (node node' : bytes)
    (cl cl' : mesh_task_execution_claim) (pf pf' : mesh_task_execution_proof)
    (out out' e e' : mesh_task_lease_entry) :
  store_ok st → lease_steps st st' → bytes_ok 32 node → bytes_ok 32 node' →
  claim_typed cl → claim_typed cl' → proof_typed pf → proof_typed pf' →
  cl_command_id cl = cl_command_id cl' → pf_fencing_token pf = pf_fencing_token pf' →
  mesh_task_execution_guard_v1 (Some st) (Some node) (Some cl) (Some pf) (Some out) =
    (MESH_TASK_EXECUTION_GUARD_OK, Some e) →
  mesh_task_execution_guard_v1 (Some st') (Some node') (Some cl') (Some pf') (Some out') =
    (MESH_TASK_EXECUTION_GUARD_OK, Some e') →
  (node = node' ∧ pf_worker_generation pf = pf_worker_generation pf') ∨
  (worker_canonical node (pf_worker_generation pf) ≠
     worker_canonical node' (pf_worker_generation pf') ∧
   crypto_blake2b (worker_canonical node (pf_worker_generation pf)) =
     crypto_blake2b (worker_canonical node' (pf_worker_generation pf'))).
Proof.
  intros Hok Hs Hn Hn' Hc Hc' Hp Hp' Hcid Htok Hg Hg'.
  pose proof (lease_steps_ok _ _ Hok Hs) as Hok'.
  apply guard_spec in Hg; try done. apply guard_spec in Hg'; try done.
  destruct (lease_steps_task (same_holder e) st st' (cl_command_id cl) e) as (x & Hx & Hsh);
    try done; [by eauto using same_holder_step|apply Hg|by right|].
  assert (x = e') as ->.
  { eapply task_at_unique; [exact Hok'|exact Hx|]. rewrite Hcid. apply Hg'. }
  pose proof (au_token _ _ _ _ _ Hg). pose proof (au_token _ _ _ _ _ Hg').
  destruct Hsh as [?|[_ Hh]]; [lia|]. specialize (Hh (au_leased _ _ _ _ _ Hg')).
  rewrite (au_holder _ _ _ _ _ Hg), (au_holder _ _ _ _ _ Hg') in Hh.
  destruct (decide (worker_canonical node (pf_worker_generation pf) =
     worker_canonical node' (pf_worker_generation pf'))) as [Heq|]; [left|by right].
  apply worker_canonical_inj in Heq; [done|by apply bytes_ok_length..|apply Hp|apply Hp'].
Qed.

(** Once a lease is lost, the guard refuses its token in every later state of
    the table, whoever presents it. *)
Theorem guard_refuses_lost_lease (st0 st1 st2 : mesh_task_lease_store) (node : bytes)
    (cl : mesh_task_execution_claim) (pf : mesh_task_execution_proof)
    (e e1 : mesh_task_lease_entry) (out o : mesh_task_lease_entry) :
  store_ok st0 → task_at st0 (cl_command_id cl) e → lease_steps st0 st1 →
  task_at st1 (cl_command_id cl) e1 → lease_lost e e1 → lease_steps st1 st2 →
  bytes_ok 32 node → claim_typed cl → proof_typed pf →
  pf_fencing_token pf = e_fencing_token e →
  mesh_task_execution_guard_v1 (Some st2) (Some node) (Some cl) (Some pf) (Some out) ≠
    (MESH_TASK_EXECUTION_GUARD_OK, Some o).
Proof.
  intros Hok He Hs1 He1 Hl Hs2 Hn Hc Hp Htok Hg.
  pose proof (lease_steps_ok _ _ Hok Hs1) as Hok1.
  pose proof (lease_steps_ok _ _ Hok1 Hs2) as Hok2.
  apply guard_spec in Hg; try done.
  destruct (lease_steps_task (lease_lost e) st1 st2 (cl_command_id cl) e1) as (x & Hx & Hlx);
    [by eauto using lease_lost_step|done..|].
  assert (x = o) as -> by (eapply task_at_unique; [exact Hok2|exact Hx|apply Hg]).
  pose proof (au_token _ _ _ _ _ Hg). pose proof (au_leased _ _ _ _ _ Hg).
  destruct Hlx as [?|[_ ?]]; [lia|done].
Qed.

End Guard.

(** ** Witnesses: a concrete worker *)

#[local] Existing Instance w_crypto.

Definition w_node : bytes := 7 :: zeros 31.
Definition w_worker : bytes := w_hash (worker_canonical w_node 5).
Definition w_held : mesh_task_lease_store :=
  lease_run [(1, OpRegister w_cid w_digest 5000);
             (2, OpAcquire w_cid w_digest w_worker 100 600)] w_init.
Definition w_freed : mesh_task_lease_store :=
  lease_run [(3, OpExpire w_cid w_digest 2 700)] w_held.
Definition w_claim : mesh_task_execution_claim := mk_claim w_cid w_digest w_node 5000.
Definition w_proof : mesh_task_execution_proof := mk_proof 2 5 2 2 150.

Lemma w_held_ok : store_ok w_held.
Proof. eapply lease_steps_ok; [apply w_init_ok|]. apply lease_run_steps. evaluate. Qed.

Lemma guard_authorises_witness : authorised w_held w_node w_claim w_proof (w_entry w_held).
Proof.
  apply (guard_authorises (CR := w_crypto) w_hash_size w_held w_node w_claim w_proof zero_entry);
    [apply w_held_ok|evaluate|evaluate|evaluate|vm_compute; reflexivity].
Defined.

Lemma guard_one_worker_per_token_witness :
  (w_node = w_node ∧ 5 = 5) ∨
  (worker_canonical w_node 5 ≠ worker_canonical w_node 5 ∧ w_worker = w_worker).
Proof.
  apply (guard_one_worker_per_token (CR := w_crypto) w_hash_size w_held w_held w_node w_node w_claim w_claim
    w_proof w_proof zero_entry zero_entry (w_entry w_held) (w_entry w_held));
    [apply w_held_ok|constructor|evaluate..|reflexivity|reflexivity|
     vm_compute; reflexivity|vm_compute; reflexivity].
Defined.

Lemma guard_refuses_lost_lease_witness :
  mesh_task_execution_guard_v1 (Some w_freed) (Some w_node) (Some w_claim) (Some w_proof)
    (Some zero_entry) ≠ (MESH_TASK_EXECUTION_GUARD_OK, Some (w_entry w_held)).
Proof.
  apply (guard_refuses_lost_lease (CR := w_crypto) w_hash_size w_held w_freed w_freed w_node w_claim w_proof
    (w_entry w_held) (w_entry w_freed)).
  - apply w_held_ok.
  - exists 0%nat. by vm_compute.
  - apply lease_run_steps. evaluate.
  - exists 0%nat. by vm_compute.
  - right. by vm_compute.
  - constructor.
  - evaluate.
  - evaluate.
  - evaluate.
  - reflexivity.
Defined.
