(* ===== verification/FlowRuleset.v ===== *)
(** * Flow rulesets: [mesh/src/mesh_flow_ruleset.c]

    An ordered list of packet-filter rules, replaced as a whole and evaluated by
    first match.  The rule array is a list of [capacity] slots of which the first
    [rule_count] are live.  A pointer is an [option]; [alloc_ok] is the outcome
    of [calloc].

    The specification reads rules as sets of packets (CIDR blocks, port
    intervals, protocols, directions) and a snapshot as the list of its live
    rules. *)

From S2P Require Import Prelude.

(** ** Data *)

Definition MESH_FLOW_RULESET_IDENTITY_SIZE : nat := 32.
Definition MESH_FLOW_RULESET_MAX_RULES : Z := 256.

Inductive mesh_flow_ruleset_result : Type :=
  | MESH_FLOW_RULESET_OK
  | MESH_FLOW_RULESET_INVALID_ARG
  | MESH_FLOW_RULESET_INVALID_STATE
  | MESH_FLOW_RULESET_OUT_OF_ORDER
  | MESH_FLOW_RULESET_RESOURCE_EXHAUSTED.

#[export] Instance mesh_flow_ruleset_result_eq_dec : EqDecision mesh_flow_ruleset_result.
Proof. solve_decision. Defined.

(** [mesh_flow_action_v1_t] is cast from a wire byte and cleared by [memset], so
    it is its integer value; the direction constants are bits. *)
Definition MESH_FLOW_ACTION_DENY : Z := 0.
Definition MESH_FLOW_ACTION_ALLOW : Z := 1.
Definition MESH_FLOW_DIRECTION_ANY : Z := 15.
Definition MESH_FLOW_REASON_RULE : Z := 1.
Definition MESH_FLOW_REASON_DEFAULT : Z := 2.

Record mesh_flow_rule : Type := mk_rule {
  r_rule_id : Z;
  r_src_network_ip : Z;
  r_dst_network_ip : Z;
  r_src_port_start : Z;
  r_src_port_end : Z;
  r_dst_port_start : Z;
  r_dst_port_end : Z;
  r_directions : Z;
  r_src_prefix_len : Z;
  r_dst_prefix_len : Z;
  r_ip_proto : Z;
  r_action : Z }.

Record mesh_flow_query : Type := mk_query {
  q_src_ip : Z;
  q_dst_ip : Z;
  q_src_port : Z;
  q_dst_port : Z;
  q_direction : Z;
  q_ip_proto : Z;
  q_has_ports : Z;
  q_peer_identity : bytes }.

Record mesh_flow_decision : Type := mk_decision {
  d_action : Z;
  d_reason : Z;
  d_rule_id : Z;
  d_policy_epoch : Z;
  d_applied_index : Z;
  d_direction : Z;
  d_peer_identity : bytes }.

Record mesh_flow_ruleset : Type := mk_ruleset {
  fs_rules : list mesh_flow_rule;
  fs_rule_count : Z;
  fs_capacity : Z;
  fs_policy_epoch : Z;
  fs_applied_index : Z;
  fs_default_action : Z;
  fs_open : bool }.

#[export] Instance mesh_flow_rule_eq_dec : EqDecision mesh_flow_rule.
Proof. solve_decision. Defined.
#[export] Instance mesh_flow_decision_eq_dec : EqDecision mesh_flow_decision.
Proof. solve_decision. Defined.

(** Storage cleared by [memset] or [calloc]. *)
Definition zero_rule : mesh_flow_rule := mk_rule 0 0 0 0 0 0 0 0 0 0 0 0.
Definition zero_decision : mesh_flow_decision := mk_decision 0 0 0 0 0 0 (zeros 32).
Definition zero_ruleset : mesh_flow_ruleset := mk_ruleset [] 0 0 0 0 0 false.

(** ** Rules *)

Definition action_valid (action : Z) : bool :=
  (action =? MESH_FLOW_ACTION_DENY) || (action =? MESH_FLOW_ACTION_ALLOW).

Definition prefix_mask (prefix_len : Z) : Z :=
  if prefix_len =? 0 then 0 else wrap 32 (Z.shiftl UINT32_MAX (32 - prefix_len)).

Definition port_range_valid (start end_ : Z) : bool :=
  ((start =? 0) && (end_ =? 0)) || (negb (start =? 0) && (start <=? end_)).

(** [~MESH_FLOW_DIRECTION_ANY] as a [uint32_t]. *)
Definition direction_other : Z := UINT32_MAX - MESH_FLOW_DIRECTION_ANY.

Definition rule_valid (rule : mesh_flow_rule) : bool :=
  if (r_rule_id rule =? 0) || negb (action_valid (r_action rule)) ||
     (32 <? r_src_prefix_len rule) || (32 <? r_dst_prefix_len rule) ||
     (r_directions rule =? 0) ||
     negb (Z.land (r_directions rule) direction_other =? 0) ||
     negb (port_range_valid (r_src_port_start rule) (r_src_port_end rule)) ||
     negb (port_range_valid (r_dst_port_start rule) (r_dst_port_end rule))
  then false
  else if (negb (r_src_port_start rule =? 0) || negb (r_dst_port_start rule =? 0)) &&
          negb (r_ip_proto rule =? 0) && negb (r_ip_proto rule =? 6) &&
          negb (r_ip_proto rule =? 17)
  then false
  else
    let src_mask := prefix_mask (r_src_prefix_len rule) in
    let dst_mask := prefix_mask (r_dst_prefix_len rule) in
    (Z.land (r_src_network_ip rule) src_mask =? r_src_network_ip rule) &&
    (Z.land (r_dst_network_ip rule) dst_mask =? r_dst_network_ip rule).

(** ** Snapshots *)

(** [sizeof(mesh_flow_rule_v1_t)] *)
Definition sizeof_rule : Z := 40.

Definition mesh_flow_ruleset_init_v1 (alloc_ok : bool) (ruleset : option mesh_flow_ruleset)
    (capacity initial_default_action : Z) :
    mesh_flow_ruleset_result * option mesh_flow_ruleset :=
  match ruleset with
  | None => (MESH_FLOW_RULESET_INVALID_ARG, ruleset)
  | Some rs =>
      if fs_open rs || (capacity =? 0) || (MESH_FLOW_RULESET_MAX_RULES <? capacity) ||
         (SIZE_MAX / sizeof_rule <? capacity) || negb (action_valid initial_default_action)
      then (MESH_FLOW_RULESET_INVALID_ARG, ruleset)
      else if negb alloc_ok then (MESH_FLOW_RULESET_RESOURCE_EXHAUSTED, ruleset)
      else (MESH_FLOW_RULESET_OK,
            Some (mk_ruleset (replicate (Z.to_nat capacity) zero_rule) 0 capacity 0 0
                    initial_default_action true))
  end.

Definition mesh_flow_ruleset_destroy_v1 (ruleset : option mesh_flow_ruleset) :
    option mesh_flow_ruleset :=
  match ruleset with None => None | Some _ => Some zero_ruleset end.

(** The validation loop: [before] holds the rules at smaller indices. *)
Fixpoint validate_rules (before rules : list mesh_flow_rule) : bool :=
  match rules with
  | [] => true
  | r :: rules' =>
      if negb (rule_valid r) then false
      else if existsb (λ q, r_rule_id r =? r_rule_id q) before then false
      else validate_rules (before ++ [r]) rules'
  end.

Definition mesh_flow_ruleset_apply_replace_v1 (alloc_ok : bool)
    (ruleset : option mesh_flow_ruleset) (committed_index policy_epoch default_action : Z)
    (rules : option (list mesh_flow_rule)) (rule_count : Z) :
    mesh_flow_ruleset_result * option mesh_flow_ruleset :=
  match ruleset with
  | None => (MESH_FLOW_RULESET_INVALID_STATE, ruleset)
  | Some rs =>
      let input := take (Z.to_nat rule_count) (deref [] rules) in
      if negb (fs_open rs) then (MESH_FLOW_RULESET_INVALID_STATE, ruleset)
      else if (committed_index =? 0) || (policy_epoch =? 0) ||
              negb (action_valid default_action) ||
              (negb (rule_count =? 0) && negb (bool_decide (is_Some rules)))
      then (MESH_FLOW_RULESET_INVALID_ARG, ruleset)
      else if (committed_index <=? fs_applied_index rs) || (policy_epoch <=? fs_policy_epoch rs)
      then (MESH_FLOW_RULESET_OUT_OF_ORDER, ruleset)
      else if fs_capacity rs <? rule_count
      then (MESH_FLOW_RULESET_RESOURCE_EXHAUSTED, ruleset)
      else if negb (validate_rules [] input)
      then (MESH_FLOW_RULESET_INVALID_ARG, ruleset)
      else if negb alloc_ok then (MESH_FLOW_RULESET_RESOURCE_EXHAUSTED, ruleset)
      else
        let candidate :=
          input ++ replicate (Z.to_nat (fs_capacity rs - rule_count)) zero_rule in
        (MESH_FLOW_RULESET_OK,
         Some (mk_ruleset candidate rule_count (fs_capacity rs) policy_epoch committed_index
                 default_action (fs_open rs)))
  end.

(** ** Evaluation *)

Definition query_valid (query : option mesh_flow_query) : bool :=
  match query with
  | None => false
  | Some q =>
      negb (q_direction q =? 0) &&
      (Z.land (q_direction q) (wrap 32 (q_direction q - 1)) =? 0) &&
      negb (Z.land (q_direction q) MESH_FLOW_DIRECTION_ANY =? 0) &&
      (q_has_ports q <=? 1)
  end.

Definition rule_matches (q : mesh_flow_query) (rule : mesh_flow_rule) : bool :=
  if (Z.land (r_directions rule) (q_direction q) =? 0) ||
     (negb (r_ip_proto rule =? 0) && negb (r_ip_proto rule =? q_ip_proto q))
  then false
  else
    let src_mask := prefix_mask (r_src_prefix_len rule) in
    let dst_mask := prefix_mask (r_dst_prefix_len rule) in
    if negb (Z.land (q_src_ip q) src_mask =? r_src_network_ip rule) ||
       negb (Z.land (q_dst_ip q) dst_mask =? r_dst_network_ip rule)
    then false
    else if negb (r_src_port_start rule =? 0) &&
            ((q_has_ports q =? 0) || (q_src_port q <? r_src_port_start rule) ||
             (r_src_port_end rule <? q_src_port q))
    then false
    else if negb (r_dst_port_start rule =? 0) &&
            ((q_has_ports q =? 0) || (q_dst_port q <? r_dst_port_start rule) ||
             (r_dst_port_end rule <? q_dst_port q))
    then false
    else true.

Definition mesh_flow_ruleset_evaluate_v1 (ruleset : option mesh_flow_ruleset)
    (query : option mesh_flow_query) (out_decision : option mesh_flow_decision) :
    mesh_flow_ruleset_result * option mesh_flow_decision :=
  if negb (bool_decide (is_Some out_decision))
  then (MESH_FLOW_RULESET_INVALID_ARG, out_decision)
  else
    let out_decision := assign out_decision zero_decision in
    match ruleset with
    | None => (MESH_FLOW_RULESET_INVALID_STATE, out_decision)
    | Some rs =>
        if negb (fs_open rs) then (MESH_FLOW_RULESET_INVALID_STATE, out_decision)
        else if negb (query_valid query) then (MESH_FLOW_RULESET_INVALID_ARG, out_decision)
        else
          let q := deref (mk_query 0 0 0 0 0 0 0 []) query in
          let decision action reason rule_id :=
            mk_decision action reason rule_id (fs_policy_epoch rs) (fs_applied_index rs)
              (q_direction q) (q_peer_identity q) in
          (MESH_FLOW_RULESET_OK,
           assign out_decision
             match find_slot (rule_matches q) (take (Z.to_nat (fs_rule_count rs)) (fs_rules rs)) with
             | Some (_, r) => decision (r_action r) MESH_FLOW_REASON_RULE (r_rule_id r)
             | None => decision (fs_default_action rs) MESH_FLOW_REASON_DEFAULT 0
             end)
    end.

(** ** Specification *)

Definition rule_typed (r : mesh_flow_rule) : Prop :=
  u64 (r_rule_id r) ∧ u32 (r_src_network_ip r) ∧ u32 (r_dst_network_ip r) ∧
  u16 (r_src_port_start r) ∧ u16 (r_src_port_end r) ∧ u16 (r_dst_port_start r) ∧
  u16 (r_dst_port_end r) ∧ u32 (r_directions r) ∧ u8 (r_src_prefix_len r) ∧
  u8 (r_dst_prefix_len r) ∧ u8 (r_ip_proto r) ∧ u32 (r_action r).
Definition query_typed (q : mesh_flow_query) : Prop :=
  u32 (q_src_ip q) ∧ u32 (q_dst_ip q) ∧ u16 (q_src_port q) ∧ u16 (q_dst_port q) ∧
  u32 (q_direction q) ∧ u8 (q_ip_proto q) ∧ u8 (q_has_ports q) ∧
  bytes_ok 32 (q_peer_identity q).
#[export] Instance rule_typed_dec r : Decision (rule_typed r).
Proof. unfold rule_typed. apply _. Defined.
#[export] Instance query_typed_dec q : Decision (query_typed q).
Proof. unfold query_typed. apply _. Defined.

(** The address block [net/len]. *)
Definition in_block (net plen ip : Z) : Prop := net <= ip < net + 2 ^ (32 - plen).
(** A port constraint: none when it starts at 0, else a closed interval that
    only packets with ports can satisfy. *)
Definition port_admits (start end_ has_ports port : Z) : Prop :=
  start = 0 ∨ (has_ports ≠ 0 ∧ start <= port <= end_).
(** The packets a rule is about. *)
Definition rule_covers (r : mesh_flow_rule) (q : mesh_flow_query) : Prop :=
  (∃ bit, 0 <= bit ∧ Z.testbit (r_directions r) bit = true ∧ Z.testbit (q_direction q) bit = true) ∧
  (r_ip_proto r = 0 ∨ r_ip_proto r = q_ip_proto q) ∧
  in_block (r_src_network_ip r) (r_src_prefix_len r) (q_src_ip q) ∧
  in_block (r_dst_network_ip r) (r_dst_prefix_len r) (q_dst_ip q) ∧
  port_admits (r_src_port_start r) (r_src_port_end r) (q_has_ports q) (q_src_port q) ∧
  port_admits (r_dst_port_start r) (r_dst_port_end r) (q_has_ports q) (q_dst_port q).

(** The live rules. *)
Definition live_rules (rs : mesh_flow_ruleset) : list mesh_flow_rule :=
  take (Z.to_nat (fs_rule_count rs)) (fs_rules rs).

Definition rules_ok (rules : list mesh_flow_rule) : Prop :=
  Forall (λ r, rule_valid r = true) rules ∧ NoDup (r_rule_id <$> rules).

Record ruleset_ok (rs : mesh_flow_ruleset) : Prop := {
  rok_open : fs_open rs = true;
  rok_capacity : 0 < fs_capacity rs <= MESH_FLOW_RULESET_MAX_RULES;
  rok_length : Z.of_nat (length (fs_rules rs)) = fs_capacity rs;
  rok_count : 0 <= fs_rule_count rs <= fs_capacity rs;
  rok_rules : rules_ok (live_rules rs);
  rok_action : action_valid (fs_default_action rs) = true;
  rok_epoch : 0 <= fs_policy_epoch rs;
  rok_applied : 0 <= fs_applied_index rs }.

(** ** Address and port lemmas *)

Section Matching.

Lemma prefix_mask_shift p : 0 <= p <= 32 → prefix_mask p = Z.shiftl (Z.ones p) (32 - p).
Proof.
  intros Hp. unfold prefix_mask. destruct (Z.eqb_spec p 0) as [->|Hp0]; [done|].
  unfold wrap. change UINT32_MAX with (Z.ones 32). rewrite <- Z.land_ones by lia.
  apply Z.bits_inj'. intros n Hn.
  rewrite Z.land_spec, !Z.shiftl_spec, !Z.testbit_ones by lia.
  repeat match goal with
  | |- context [?a <=? ?b] => destruct (Z.leb_spec a b)
  | |- context [?a <? ?b] => destruct (Z.ltb_spec a b)
  end; simpl; done || lia.
Qed.

(** Masking clears the host bits. *)
Lemma land_prefix_mask ip p : 0 <= p <= 32 → u32 ip →
  Z.land ip (prefix_mask p) = ip / 2 ^ (32 - p) * 2 ^ (32 - p).
Proof.
  intros Hp Hip. rewrite prefix_mask_shift by done. unfold uint in Hip.
  rewrite <- Z.shiftl_mul_pow2, <- Z.shiftr_div_pow2 by lia.
  apply Z.bits_inj'. intros n Hn.
  rewrite Z.land_spec, !Z.shiftl_spec by lia.
  destruct (Z.ltb_spec n (32 - p)).
  { rewrite !(Z.testbit_neg_r _ (n - (32 - p))) by lia. apply andb_false_r. }
  rewrite Z.shiftr_spec, Z.testbit_ones by lia.
  replace (n - (32 - p) + (32 - p)) with n by lia.
  destruct (Z.ltb_spec (n - (32 - p)) p).
  - destruct (Z.leb_spec 0 (n - (32 - p))); [|lia]. apply andb_true_r.
  - rewrite (Z.bits_above_log2 ip n); [done|lia|].
    destruct (decide (ip = 0)) as [->|]; [simpl; lia|].
    assert (Z.log2 ip < 32) by (apply Z.log2_lt_pow2; lia). lia.
Qed.

Lemma mask_in_block net p ip : 0 <= p <= 32 → u32 net → u32 ip →
  Z.land net (prefix_mask p) = net →
  Z.land ip (prefix_mask p) = net ↔ in_block net p ip.
Proof.
  intros Hp Hn Hi. rewrite !land_prefix_mask by done. unfold in_block.
  set (k := 2 ^ (32 - p)). assert (0 < k) by (apply Z.pow_pos_nonneg; lia).
  intros Hnet. pose proof (Z.div_mod ip k). pose proof (Z.mod_pos_bound ip k).
  split; [nia|]. intros Hb. rewrite <- Hnet. f_equal.
  rewrite <- Hnet in Hb. symmetry. apply (Zdiv_unique ip k _ (ip - net / k * k)); nia.
Qed.

Lemma land_nonzero a b : 0 <= a → 0 <= b →
  Z.land a b ≠ 0 ↔ ∃ bit, 0 <= bit ∧ Z.testbit a bit = true ∧ Z.testbit b bit = true.
Proof.
  intros Ha Hb. split.
  - intros Hn. exists (Z.log2 (Z.land a b)).
    assert (0 <= Z.land a b) by (apply Z.land_nonneg; lia).
    pose proof (Z.bit_log2 (Z.land a b) ltac:(lia)) as Hbit.
    rewrite Z.land_spec in Hbit. apply andb_true_iff in Hbit.
    split; [apply Z.log2_nonneg|done].
  - intros (bit & Hbit & H1 & H2) E. pose proof (Z.land_spec a b bit) as Hs.
    rewrite E, Z.bits_0, H1, H2 in Hs. done.
Qed.

Lemma port_admits_spec start end_ hp port :
  negb (start =? 0) && ((hp =? 0) || (port <? start) || (end_ <? port)) = false ↔
  port_admits start end_ hp port.
Proof.
  unfold port_admits.
  destruct (Z.eqb_spec start 0), (Z.eqb_spec hp 0), (Z.ltb_spec port start),
    (Z.ltb_spec end_ port); simpl; split; intros; try done; try lia; auto.
Qed.

Lemma rule_matches_covers r q : rule_typed r → query_typed q → rule_valid r = true →
  rule_matches q r = true ↔ rule_covers r q.
Proof.
  intros (_ & Hs & Hd & _ & _ & _ & _ & Hdir & Hsp & Hdp & _) (Hqs & Hqd & _ & _ & Hqdir & _) Hv.
  unfold rule_valid in Hv. repeat (step_in Hv; try done). bool_prop.
  unfold uint in Hsp, Hdp, Hdir, Hqdir.
  unfold rule_covers. rewrite <- (land_nonzero (r_directions r)) by lia.
  rewrite <- !mask_in_block by (done || lia). rewrite <- !port_admits_spec.
  unfold rule_matches. split.
  - intros Hm. repeat (step_in Hm; try done). bool_prop.
    split_and!; try done. rewrite andb_false_iff, !negb_false_iff, !Z.eqb_eq in *. done.
  - intros (Hx1 & Hx2 & Hx3 & Hx4 & Hx5 & Hx6). rewrite Hx3, Hx4, Hx5, Hx6, !Z.eqb_refl.
    destruct (Z.eqb_spec (Z.land (r_directions r) (q_direction q)) 0); [done|].
    destruct Hx2 as [->| ->]; [done|]. rewrite Z.eqb_refl. by rewrite andb_false_r.
Qed.

End Matching.

(** ** Snapshot lemmas *)

Section Snapshots.
Implicit Types (rs : mesh_flow_ruleset) (r : mesh_flow_rule).

Lemma validate_rules_spec before rules : NoDup (r_rule_id <$> before) →
  validate_rules before rules = true ↔
  Forall (λ r, rule_valid r = true) rules ∧ NoDup (r_rule_id <$> before ++ rules).
Proof.
  revert before. induction rules as [|r rules IH]; intros before Hb; simpl.
  { rewrite app_nil_r. split; [by split|done]. }
  rewrite Forall_cons. destruct (rule_valid r) eqn:Hr; [simpl|by split; [|intros [[? _] _]]].
  assert (Hx : existsb (λ q, r_rule_id r =? r_rule_id q) before = true ↔
               r_rule_id r ∈ r_rule_id <$> before).
  { rewrite existsb_exists, list_elem_of_fmap.
    split; intros (q & H1 & H2); exists q; rewrite ?Z.eqb_eq, <- ?list_elem_of_In in *; done. }
  destruct (existsb _ before) eqn:Ex.
  - split; [done|]. intros [_ Hn]. rewrite fmap_app, NoDup_app in Hn.
    destruct Hn as (_ & Hn & _). exfalso. eapply Hn; [by apply Hx|]. simpl. left.
  - assert (Hnin : r_rule_id r ∉ r_rule_id <$> before) by (intros Hin; apply Hx in Hin; done).
    rewrite IH.
    + rewrite <- app_assoc. simpl. tauto.
    + rewrite fmap_app. apply NoDup_app. split_and!; [done| |apply NoDup_singleton].
      intros z Hz Hz'. simpl in Hz'. apply list_elem_of_singleton in Hz' as ->. done.
Qed.

Lemma validate_rules_ok rules : validate_rules [] rules = true ↔ rules_ok rules.
Proof. rewrite validate_rules_spec by constructor. done. Qed.

Lemma init_ruleset_ok alloc_ok o capacity action rs' : 0 <= capacity →
  mesh_flow_ruleset_init_v1 alloc_ok o capacity action = (MESH_FLOW_RULESET_OK, Some rs') →
  ruleset_ok rs' ∧ live_rules rs' = [] ∧ fs_capacity rs' = capacity ∧
  fs_default_action rs' = action ∧ fs_policy_epoch rs' = 0 ∧ fs_applied_index rs' = 0.
Proof.
  unfold mesh_flow_ruleset_init_v1. intros Hc H. repeat (step_in H; try done).
  simplify_eq. bool_prop. split_and!; try done. split; cbn; try done; try lia.
  - rewrite length_replicate. lia.
  - split; constructor.
Qed.

Lemma replace_cases alloc_ok rs idx epoch action rules count res out :
  ruleset_ok rs → u64 idx → u64 epoch → count = Z.of_nat (length rules) →
  mesh_flow_ruleset_apply_replace_v1 alloc_ok (Some rs) idx epoch action (Some rules) count =
    (res, out) →
  (res ≠ MESH_FLOW_RULESET_OK ∧ out = Some rs) ∨
  (res = MESH_FLOW_RULESET_OK ∧
   fs_applied_index rs < idx ∧ fs_policy_epoch rs < epoch ∧ count <= fs_capacity rs ∧
   rules_ok rules ∧ action_valid action = true ∧
   out = Some (mk_ruleset (rules ++ replicate (Z.to_nat (fs_capacity rs - count)) zero_rule)
                 count (fs_capacity rs) epoch idx action true)).
Proof.
  intros Hok Hi He Hc H. unfold mesh_flow_ruleset_apply_replace_v1 in H.
  cbn [deref] in H. rewrite (rok_open _ Hok), take_ge in H by lia.
  repeat (step_in H; [by left; simplify_eq|]). bool_prop. simplify_eq. right.
  rewrite validate_rules_ok in *. by split_and!.
Qed.

Lemma replaced_live rules n idx epoch action capacity :
  live_rules (mk_ruleset (rules ++ replicate n zero_rule) (Z.of_nat (length rules)) capacity
    epoch idx action true) = rules.
Proof. unfold live_rules. cbn. by rewrite Nat2Z.id, take_app_length. Qed.

Lemma replaced_ok rs rules idx epoch action : ruleset_ok rs → u64 idx → u64 epoch →
  Z.of_nat (length rules) <= fs_capacity rs → rules_ok rules → action_valid action = true →
  ruleset_ok (mk_ruleset
    (rules ++ replicate (Z.to_nat (fs_capacity rs - Z.of_nat (length rules))) zero_rule)
    (Z.of_nat (length rules)) (fs_capacity rs) epoch idx action true).
Proof.
  intros Hok Hi He Hle Hr Ha. unfold uint in *. split; cbn; try done; try lia; try apply Hok.
  - rewrite length_app, length_replicate. pose proof (rok_capacity _ Hok). lia.
  - by rewrite replaced_live.
Qed.

End Snapshots.

(** ** Queries *)

Section Queries.

Lemma power_of_two d : 0 < d → Z.land d (d - 1) = 0 → d = 2 ^ Z.log2 d.
Proof.
  intros Hd H. pose proof (Z.log2_spec d Hd) as [Hle Hlt].
  destruct (decide (d = 2 ^ Z.log2 d)) as [|Hne]; [done|exfalso].
  assert (Hl : Z.log2 (d - 1) = Z.log2 d).
  { apply Z.log2_unique; [apply Z.log2_nonneg|lia]. }
  assert (0 < 2 ^ Z.log2 d) by (apply Z.pow_pos_nonneg; [lia|apply Z.log2_nonneg]).
  pose proof (Z.land_spec d (d - 1) (Z.log2 d)) as Hs.
  rewrite H, Z.bits_0, Z.bit_log2 in Hs by lia.
  rewrite <- Hl, Z.bit_log2 in Hs by lia. done.
Qed.

(** Exactly one of the four directions. *)
Lemma query_valid_spec q : query_typed q →
  query_valid (Some q) = true ↔ q_direction q ∈ [1; 2; 4; 8] ∧ q_has_ports q <= 1.
Proof.
  intros (_ & _ & _ & _ & Hd & _). unfold query_valid. unfold uint in Hd. split.
  - intros H. bool_prop. split; [|done].
    rewrite wrap_small in * by (unfold uint; lia).
    assert (Hp : q_direction q = 2 ^ Z.log2 (q_direction q)) by (apply power_of_two; lia).
    assert (Hn : Z.land (q_direction q) MESH_FLOW_DIRECTION_ANY ≠ 0) by done.
    apply land_nonzero in Hn as (bit & Hb & Hb1 & Hb2); [|lia|done].
    rewrite Hp, Z.pow2_bits_eqb in Hb1 by apply Z.log2_nonneg. bool_prop.
    change MESH_FLOW_DIRECTION_ANY with (Z.ones 4) in Hb2.
    rewrite Z.testbit_ones in Hb2 by lia. bool_prop. rewrite Hp.
    assert (Hk : Z.log2 (q_direction q) = 0 ∨ Z.log2 (q_direction q) = 1 ∨
                 Z.log2 (q_direction q) = 2 ∨ Z.log2 (q_direction q) = 3) by lia.
    destruct Hk as [->|[->|[->| ->]]]; set_solver.
  - intros [Hin Hp]. rewrite (proj2 (Z.leb_le _ _) Hp), andb_true_r.
    rewrite !elem_of_cons in Hin. destruct_or! Hin; try (by rewrite Hin); set_solver.
Qed.

End Queries.

(** ** Sequences of replacements *)

(** The operands of one replacement; the outcome of [calloc] varies. *)
Record replace_args : Type := mk_args {
  ra_alloc : bool; ra_index : Z; ra_epoch : Z; ra_action : Z; ra_rules : list mesh_flow_rule }.
Definition args_typed (a : replace_args) : Prop := u64 (ra_index a) ∧ u64 (ra_epoch a).
#[export] Instance args_typed_dec a : Decision (args_typed a).
Proof. unfold args_typed. apply _. Defined.

Definition do_replace (a : replace_args) (rs : mesh_flow_ruleset) :
    mesh_flow_ruleset_result * option mesh_flow_ruleset :=
  mesh_flow_ruleset_apply_replace_v1 (ra_alloc a) (Some rs) (ra_index a) (ra_epoch a)
    (ra_action a) (Some (ra_rules a)) (Z.of_nat (length (ra_rules a))).

Fixpoint replace_all (l : list replace_args) (rs : mesh_flow_ruleset) : mesh_flow_ruleset :=
  match l with
  | [] => rs
  | a :: l' => replace_all l' (deref rs (do_replace a rs).2)
  end.

Lemma replace_ok_iff a rs : ruleset_ok rs → args_typed a →
  (do_replace a rs).1 = MESH_FLOW_RULESET_OK ↔
  ra_alloc a = true ∧ fs_applied_index rs < ra_index a ∧ fs_policy_epoch rs < ra_epoch a ∧
  action_valid (ra_action a) = true ∧ Z.of_nat (length (ra_rules a)) <= fs_capacity rs ∧
  rules_ok (ra_rules a).
Proof.
  intros Hok [Hi He]. split.
  - intros H. destruct (do_replace a rs) as [res out] eqn:E. simpl in H. subst res.
    pose proof E as E'. apply replace_cases in E as [[? _]|(_ & ? & ? & ? & ? & ? & _)]; try done.
    split_and!; try done. unfold do_replace, mesh_flow_ruleset_apply_replace_v1 in E'.
    destruct (ra_alloc a); [done|]. by repeat (step_in E'; try done).
  - intros (Ha & Hlt & Hep & Hact & Hcap & Hr). apply validate_rules_ok in Hr.
    pose proof (rok_epoch _ Hok). pose proof (rok_applied _ Hok).
    unfold do_replace, mesh_flow_ruleset_apply_replace_v1. cbn [deref].
    rewrite (rok_open _ Hok), Ha, Hact, take_ge, Hr, andb_false_r by lia.
    by pass_guards.
Qed.

Lemma replace_step a rs : ruleset_ok rs → args_typed a →
  let rs' := deref rs (do_replace a rs).2 in
  ruleset_ok rs' ∧ fs_capacity rs' = fs_capacity rs ∧
  ((do_replace a rs).1 ≠ MESH_FLOW_RULESET_OK ∧ rs' = rs ∨
   (do_replace a rs).1 = MESH_FLOW_RULESET_OK ∧ fs_applied_index rs < fs_applied_index rs' ∧
   fs_policy_epoch rs < fs_policy_epoch rs').
Proof.
  intros Hok [Hi He]. destruct (do_replace a rs) as [res out] eqn:E.
  apply replace_cases in E as [[? ->]|(-> & ? & ? & ? & ? & ? & ->)]; try done; cbn.
  - split_and!; auto.
  - split_and!; [by apply replaced_ok|done|by right].
Qed.

(** ** Theorems *)

(** The bit-mask test of the code decides exactly whether a packet lies in
    the rule: in both CIDR blocks, in the port intervals, of the rule's protocol
    and travelling in one of its directions. *)
Theorem flow_rule_matches (r : mesh_flow_rule) (q : mesh_flow_query) :
  rule_typed r → query_typed q → rule_valid r = true →
  rule_matches q r = true ↔ rule_covers r q.
Proof. apply rule_matches_covers. Qed.

(** Evaluation of a well-formed query always succeeds and decides by first
    match: the action and id of the first live rule that covers the packet, or
    the default action when none does, stamped with the snapshot's epoch and
    index. *)
Theorem flow_first_match (rs : mesh_flow_ruleset) (q : mesh_flow_query) (out : mesh_flow_decision) :
  ruleset_ok rs → Forall rule_typed (live_rules rs) → query_typed q →
  q_direction q ∈ [1; 2; 4; 8] → q_has_ports q <= 1 →
  ∃ action reason rule_id,
    mesh_flow_ruleset_evaluate_v1 (Some rs) (Some q) (Some out) =
      (MESH_FLOW_RULESET_OK,
       Some (mk_decision action reason rule_id (fs_policy_epoch rs) (fs_applied_index rs)
               (q_direction q) (q_peer_identity q))) ∧
    ((∃ i r, live_rules rs !! i = Some r ∧ rule_covers r q ∧
        (∀ j r', (j < i)%nat → live_rules rs !! j = Some r' → ¬ rule_covers r' q) ∧
        action = r_action r ∧ reason = MESH_FLOW_REASON_RULE ∧ rule_id = r_rule_id r) ∨
     ((∀ r, r ∈ live_rules rs → ¬ rule_covers r q) ∧
        action = fs_default_action rs ∧ reason = MESH_FLOW_REASON_DEFAULT ∧ rule_id = 0)).
Proof.
  intros Hok Hty Hq Hd Hp. assert (Hv : query_valid (Some q) = true) by (by apply query_valid_spec).
  assert (Hm : ∀ r, r ∈ live_rules rs → rule_matches q r = true ↔ rule_covers r q).
  { intros r Hr. apply rule_matches_covers; [by eapply Forall_forall|done|].
    destruct (rok_rules _ Hok) as [Hf _]. rewrite Forall_forall in Hf. by apply Hf. }
  unfold mesh_flow_ruleset_evaluate_v1. rewrite bool_decide_eq_true_2, (rok_open _ Hok), Hv by done.
  cbn [negb deref assign fmap option_fmap option_map]. fold (live_rules rs).
  destruct (find_slot (rule_matches q) (live_rules rs)) as [[i r]|] eqn:Ef; eexists _, _, _;
    (split; [reflexivity|]).
  - pose proof (find_slot_Some _ _ _ _ Ef) as [Hi Hr]. left. exists i, r. split_and!; try done.
    + by apply Hm; [eapply list_elem_of_lookup_2|].
    + intros j r' Hj Hr' Hc. pose proof (find_slot_first _ _ _ _ _ _ Ef Hj Hr').
      apply Hm in Hc; [congruence|by eapply list_elem_of_lookup_2].
  - right. split_and!; try done. intros r Hr Hc. apply Hm in Hc; [|done].
    apply list_elem_of_lookup in Hr as [i Hi]. rewrite find_slot_None in Ef.
    rewrite (Ef _ _ Hi) in Hc. done.
Qed.

(** A replacement is atomic: it succeeds exactly when the index and epoch
    both advance, the default action is valid, the rules fit, are all valid and
    have distinct ids (and memory is available); then the live rules are exactly
    the given list, in order; otherwise nothing changes. *)
Theorem flow_replace_atomic (rs : mesh_flow_ruleset) (a : replace_args) :
  ruleset_ok rs → args_typed a →
  ((do_replace a rs).1 = MESH_FLOW_RULESET_OK ↔
     ra_alloc a = true ∧ fs_applied_index rs < ra_index a ∧ fs_policy_epoch rs < ra_epoch a ∧
     action_valid (ra_action a) = true ∧ Z.of_nat (length (ra_rules a)) <= fs_capacity rs ∧
     rules_ok (ra_rules a)) ∧
  ((do_replace a rs).1 = MESH_FLOW_RULESET_OK →
     ∃ rs', (do_replace a rs).2 = Some rs' ∧ ruleset_ok rs' ∧ live_rules rs' = ra_rules a ∧
       fs_default_action rs' = ra_action a ∧ fs_policy_epoch rs' = ra_epoch a ∧
       fs_applied_index rs' = ra_index a) ∧
  ((do_replace a rs).1 ≠ MESH_FLOW_RULESET_OK → (do_replace a rs).2 = Some rs).
Proof.
  intros Hok Ha. split; [by apply replace_ok_iff|].
  destruct Ha as [Hi He]. destruct (do_replace a rs) as [res out] eqn:E. cbn.
  apply replace_cases in E as [[? ->]|(-> & ? & ? & ? & ? & ? & ->)]; try done.
  split; [|done]. intros _. eexists. split; [done|].
  split; [by apply replaced_ok|]. by rewrite replaced_live.
Qed.

(** From initialisation on, any sequence of replacement attempts keeps the
    snapshot well formed (valid rules, distinct ids, within capacity) and never
    moves the epoch or the index backwards. *)
Theorem flow_ruleset_invariant (alloc_ok : bool) (capacity action : Z) (rs : mesh_flow_ruleset)
    (l l' : list replace_args) :
  0 <= capacity →
  mesh_flow_ruleset_init_v1 alloc_ok (Some zero_ruleset) capacity action =
    (MESH_FLOW_RULESET_OK, Some rs) →
  Forall args_typed (l ++ l') →
  ruleset_ok (replace_all l rs) ∧ fs_capacity (replace_all l rs) = capacity ∧
  fs_policy_epoch (replace_all l rs) <= fs_policy_epoch (replace_all (l ++ l') rs) ∧
  fs_applied_index (replace_all l rs) <= fs_applied_index (replace_all (l ++ l') rs).
Proof.
  intros Hc Hi Hl. destruct (init_ruleset_ok _ _ _ _ _ Hc Hi) as (Hok & _ & <- & _).
  clear Hi Hc. apply Forall_app in Hl as [Hl Hl']. revert rs Hok.
  induction Hl as [|a l Ha Hl IH]; intros rs Hok; cbn [app replace_all].
  - split_and!; [done..| |]; revert rs Hok;
      (induction Hl' as [|b l' Hb Hl' IH']; intros rs Hok; cbn [replace_all]; [lia|];
       destruct (replace_step b rs Hok Hb) as (Hok' & _ & [[_ E]|(_ & ? & ?)]);
       specialize (IH' _ Hok'); [by rewrite E in IH' |- *|lia]).
  - destruct (replace_step a rs Hok Ha) as (Hok' & Hcap & _). specialize (IH _ Hok').
    by rewrite Hcap in IH.
Qed.

(** ** Witnesses *)

(** Allow 10.0.0.0/8 over TCP port 443 inbound; drop 10.1.0.0/16 otherwise. *)
Definition w_rule1 : mesh_flow_rule :=
  mk_rule 1 (10 * 2 ^ 24) 0 0 0 443 443 1 8 0 6 MESH_FLOW_ACTION_ALLOW.
Definition w_rule2 : mesh_flow_rule :=
  mk_rule 2 (10 * 2 ^ 24 + 2 ^ 16) 0 0 0 0 0 15 16 0 0 MESH_FLOW_ACTION_DENY.
Definition w_args : replace_args := mk_args true 7 3 MESH_FLOW_ACTION_DENY [w_rule1; w_rule2].
Definition w_empty : mesh_flow_ruleset :=
  mk_ruleset (replicate 4 zero_rule) 0 4 0 0 MESH_FLOW_ACTION_DENY true.
Definition w_rules : mesh_flow_ruleset := replace_all [w_args] w_empty.
Definition w_query : mesh_flow_query :=
  mk_query (10 * 2 ^ 24 + 2 ^ 16 + 9) 77 5000 443 1 6 1 (zeros 32).

Lemma w_empty_ok : ruleset_ok w_empty.
Proof. by apply (init_ruleset_ok true (Some zero_ruleset) 4 MESH_FLOW_ACTION_DENY). Qed.
Lemma w_rules_ok : ruleset_ok w_rules.
Proof. apply (replace_step w_args w_empty); [apply w_empty_ok|evaluate]. Qed.

Lemma flow_rule_matches_witness : rule_matches w_query w_rule1 = true ↔ rule_covers w_rule1 w_query.
Proof. apply flow_rule_matches; [evaluate|evaluate|vm_compute; reflexivity]. Defined.

Lemma flow_first_match_witness : ∃ action reason rule_id,
  mesh_flow_ruleset_evaluate_v1 (Some w_rules) (Some w_query) (Some zero_decision) =
    (MESH_FLOW_RULESET_OK, Some (mk_decision action reason rule_id 3 7 1 (zeros 32))) ∧
  ((∃ i r, live_rules w_rules !! i = Some r ∧ rule_covers r w_query ∧
      (∀ j r', (j < i)%nat → live_rules w_rules !! j = Some r' → ¬ rule_covers r' w_query) ∧
      action = r_action r ∧ reason = MESH_FLOW_REASON_RULE ∧ rule_id = r_rule_id r) ∨
   ((∀ r, r ∈ live_rules w_rules → ¬ rule_covers r w_query) ∧
      action = fs_default_action w_rules ∧ reason = MESH_FLOW_REASON_DEFAULT ∧ rule_id = 0)).
Proof.
  apply (flow_first_match w_rules w_query zero_decision);
    [apply w_rules_ok|evaluate|evaluate|evaluate|vm_compute; discriminate].
Defined.

Lemma flow_replace_atomic_witness : ∃ rs', (do_replace w_args w_empty).2 = Some rs' ∧
  ruleset_ok rs' ∧ live_rules rs' = [w_rule1; w_rule2] ∧ fs_default_action rs' = 0 ∧
  fs_policy_epoch rs' = 3 ∧ fs_applied_index rs' = 7.
Proof.
  apply (flow_replace_atomic w_empty w_args); [apply w_empty_ok|evaluate|vm_compute; reflexivity].
Defined.

Lemma flow_ruleset_invariant_witness :
  ruleset_ok (replace_all [w_args] w_empty) ∧ fs_capacity (replace_all [w_args] w_empty) = 4 ∧
  fs_policy_epoch (replace_all [w_args] w_empty) <=
    fs_policy_epoch (replace_all ([w_args] ++ [w_args]) w_empty) ∧
  fs_applied_index (replace_all [w_args] w_empty) <=
    fs_applied_index (replace_all ([w_args] ++ [w_args]) w_empty).
Proof.
  apply (flow_ruleset_invariant true 4 MESH_FLOW_ACTION_DENY w_empty [w_args] [w_args]);
    [lia|reflexivity|evaluate].
Defined.
