(* ===== verification/FlowRulesetRaft.v ===== *)
(** * Ruleset snapshots on the Raft log

    Models [mesh/src/mesh_flow_ruleset_raft.c]: a snapshot travels as BEGIN,
    CHUNK..., COMMIT commands of at most 504 bytes, is collected in a staging
    array, and replaces the active ruleset only at COMMIT.  Pointers are
    [option]s and a pointer with a size is one byte list; [alloc_ok] is the
    outcome of the [calloc] inside [mesh_flow_ruleset_apply_replace_v1].

    The command structure keeps its array of 15 rule slots next to
    [rule_count], as the C structure does. *)

From S2P Require Import Prelude Wire RaftLog FlowRuleset.

(** ** Data *)

(** ['M' 'F' 'R' '1'] *)
Definition RULESET_RAFT_MAGIC : bytes := [77; 70; 82; 49].
Definition MESH_FLOW_RULESET_RAFT_VERSION : Z := 1.
Definition MESH_FLOW_RULESET_RAFT_HEADER_SIZE : Z := 24.
Definition MESH_FLOW_RULESET_RAFT_RULE_SIZE : Z := 32.
Definition MESH_FLOW_RULESET_RAFT_MAX_CHUNK_RULES : Z := 15.
Definition MESH_FLOW_RULESET_RAFT_MAX_COMMAND_SIZE : Z :=
  MESH_FLOW_RULESET_RAFT_HEADER_SIZE +
  MESH_FLOW_RULESET_RAFT_RULE_SIZE * MESH_FLOW_RULESET_RAFT_MAX_CHUNK_RULES.

Definition MESH_FLOW_RULESET_RAFT_BEGIN : Z := 1.
Definition MESH_FLOW_RULESET_RAFT_CHUNK : Z := 2.
Definition MESH_FLOW_RULESET_RAFT_COMMIT : Z := 3.

Record mesh_flow_ruleset_raft_command : Type := mk_fcommand {
  f_operation : Z;
  f_policy_epoch : Z;
  f_total_rule_count : Z;
  f_rule_offset : Z;
  f_default_action : Z;
  f_rules : list mesh_flow_rule;
  f_rule_count : Z }.

Definition zero_rules : list mesh_flow_rule := replicate 15 zero_rule.
Definition zero_fcommand : mesh_flow_ruleset_raft_command := mk_fcommand 0 0 0 0 0 zero_rules 0.

Record mesh_flow_ruleset_raft_store : Type := mk_fstore {
  fr_active : option mesh_flow_ruleset;
  fr_staging_rules : list mesh_flow_rule;
  fr_capacity : Z;
  fr_expected_rule_count : Z;
  fr_received_rule_count : Z;
  fr_staging_epoch : Z;
  fr_last_log_index : Z;
  fr_staging_default_action : Z;
  fr_staging : bool;
  fr_open : bool }.

Definition zero_fstore : mesh_flow_ruleset_raft_store := mk_fstore None [] 0 0 0 0 0 0 false false.

(** ** Validation *)

(** The log's own check of a rule: [prefix_mask], [port_range_valid] and
    [action_valid] are repeated verbatim in this source file. *)
Definition rule_valid (rule : mesh_flow_rule) : bool :=
  if (r_rule_id rule =? 0) || (32 <? r_src_prefix_len rule) || (32 <? r_dst_prefix_len rule) ||
     negb (Z.land (r_src_network_ip rule) (prefix_mask (r_src_prefix_len rule)) =?
           r_src_network_ip rule) ||
     negb (Z.land (r_dst_network_ip rule) (prefix_mask (r_dst_prefix_len rule)) =?
           r_dst_network_ip rule) ||
     (r_directions rule =? 0) ||
     negb (Z.land (r_directions rule) direction_other =? 0) ||
     (negb (r_action rule =? MESH_FLOW_ACTION_DENY) &&
      negb (r_action rule =? MESH_FLOW_ACTION_ALLOW)) ||
     negb (port_range_valid (r_src_port_start rule) (r_src_port_end rule)) ||
     negb (port_range_valid (r_dst_port_start rule) (r_dst_port_end rule))
  then false
  else
    let has_ports := negb (r_src_port_start rule =? 0) || negb (r_dst_port_start rule =? 0) in
    negb has_ports || (r_ip_proto rule =? 6) || (r_ip_proto rule =? 17).

Definition command_valid (command : option mesh_flow_ruleset_raft_command) : bool :=
  match command with
  | None => false
  | Some c =>
      if (f_policy_epoch c =? 0) || (MESH_FLOW_RULESET_MAX_RULES <? f_total_rule_count c)
      then false
      else if f_operation c =? MESH_FLOW_RULESET_RAFT_BEGIN then
        (f_rule_offset c =? 0) && (f_rule_count c =? 0) && action_valid (f_default_action c)
      else if f_operation c =? MESH_FLOW_RULESET_RAFT_CHUNK then
        if (f_rule_count c =? 0) || (MESH_FLOW_RULESET_RAFT_MAX_CHUNK_RULES <? f_rule_count c) ||
           negb (f_default_action c =? 0) ||
           (f_total_rule_count c <? wrap 64 (f_rule_offset c + f_rule_count c))
        then false
        else forallb rule_valid (take (Z.to_nat (f_rule_count c)) (f_rules c))
      else if f_operation c =? MESH_FLOW_RULESET_RAFT_COMMIT then
        (f_rule_offset c =? f_total_rule_count c) && (f_rule_count c =? 0) &&
        (f_default_action c =? 0)
      else false
  end.

(** ** Codec *)

(** The 32 bytes stored at [output]. *)
Definition encode_rule (r : mesh_flow_rule) : bytes :=
  write_u64_le (r_rule_id r) ++ write_u32_le (r_src_network_ip r) ++
  write_u32_le (r_dst_network_ip r) ++ write_u16_le (r_src_port_start r) ++
  write_u16_le (r_src_port_end r) ++ write_u16_le (r_dst_port_start r) ++
  write_u16_le (r_dst_port_end r) ++ write_u32_le (r_directions r) ++
  [r_src_prefix_len r; r_dst_prefix_len r; r_ip_proto r; Z.land (r_action r) 255].

Definition decode_rule (input : bytes) : mesh_flow_rule :=
  mk_rule (read_u64_le (sub input 0 8)) (read_u32_le (sub input 8 4))
    (read_u32_le (sub input 12 4)) (read_u16_le (sub input 16 2)) (read_u16_le (sub input 18 2))
    (read_u16_le (sub input 20 2)) (read_u16_le (sub input 22 2)) (read_u32_le (sub input 24 4))
    (at_ input 28) (at_ input 29) (at_ input 30) (at_ input 31).

Definition encode_header (c : mesh_flow_ruleset_raft_command) : bytes :=
  RULESET_RAFT_MAGIC ++
  [MESH_FLOW_RULESET_RAFT_VERSION; Z.land (f_operation c) 255; 0; 0] ++
  write_u64_le (f_policy_epoch c) ++ write_u16_le (f_total_rule_count c) ++
  write_u16_le (f_rule_offset c) ++ [Z.land (f_default_action c) 255; 0; 0; 0].

Definition encode_fcommand (c : mesh_flow_ruleset_raft_command) : bytes :=
  encode_header c ++
  concat (encode_rule <$> take (Z.to_nat (f_rule_count c)) (f_rules c)).

Definition mesh_flow_ruleset_raft_encode_v1 (command : option mesh_flow_ruleset_raft_command)
    (output : option bytes) (out_size : option Z) :
    mesh_flow_ruleset_result * option bytes * option Z :=
  let c := deref zero_fcommand command in
  if negb (command_valid command) || negb (non_null output) || negb (non_null out_size) ||
     ((SIZE_MAX - MESH_FLOW_RULESET_RAFT_HEADER_SIZE) / MESH_FLOW_RULESET_RAFT_RULE_SIZE <?
      f_rule_count c)
  then (MESH_FLOW_RULESET_INVALID_ARG, output, out_size)
  else
    let size := MESH_FLOW_RULESET_RAFT_HEADER_SIZE +
                f_rule_count c * MESH_FLOW_RULESET_RAFT_RULE_SIZE in
    if len (deref [] output) <? size
    then (MESH_FLOW_RULESET_RESOURCE_EXHAUSTED, output, out_size)
    else (MESH_FLOW_RULESET_OK, (λ o, blit o 0 (encode_fcommand c)) <$> output,
          assign out_size size).

(** The rules of the payload, one per 32-byte window. *)
Definition decode_rules (input : bytes) (count : nat) : list mesh_flow_rule :=
  (λ index, decode_rule (sub input (24 + index * 32) 32)) <$> seq 0 count.

Definition decode_fcommand (inp : bytes) : mesh_flow_ruleset_raft_command :=
  let count := (len inp - MESH_FLOW_RULESET_RAFT_HEADER_SIZE) /
               MESH_FLOW_RULESET_RAFT_RULE_SIZE in
  let rules := decode_rules inp (Z.to_nat count) in
  mk_fcommand (at_ inp 5) (read_u64_le (sub inp 8 8)) (read_u16_le (sub inp 16 2))
    (read_u16_le (sub inp 18 2)) (at_ inp 20)
    (rules ++ drop (length rules) zero_rules) count.

Definition mesh_flow_ruleset_raft_decode_v1 (input : option bytes)
    (out_command : option mesh_flow_ruleset_raft_command) :
    mesh_flow_ruleset_result * option mesh_flow_ruleset_raft_command :=
  let inp := deref [] input in
  if negb (non_null input) || negb (non_null out_command) ||
     (len inp <? MESH_FLOW_RULESET_RAFT_HEADER_SIZE) ||
     (MESH_FLOW_RULESET_RAFT_MAX_COMMAND_SIZE <? len inp) ||
     negb (memeq 4 inp RULESET_RAFT_MAGIC) ||
     negb (at_ inp 4 =? MESH_FLOW_RULESET_RAFT_VERSION) || negb (at_ inp 6 =? 0) ||
     negb (at_ inp 7 =? 0) || negb (at_ inp 21 =? 0) || negb (at_ inp 22 =? 0) ||
     negb (at_ inp 23 =? 0)
  then (MESH_FLOW_RULESET_INVALID_ARG, out_command)
  else if negb ((len inp - MESH_FLOW_RULESET_RAFT_HEADER_SIZE) mod
                MESH_FLOW_RULESET_RAFT_RULE_SIZE =? 0)
  then (MESH_FLOW_RULESET_INVALID_ARG, out_command)
  else
    let command := decode_fcommand inp in
    if negb (command_valid (Some command))
    then (MESH_FLOW_RULESET_INVALID_ARG, out_command)
    else (MESH_FLOW_RULESET_OK, assign out_command command).

(** ** Store *)

Definition mesh_flow_ruleset_raft_store_init_v1 (alloc_ok : bool)
    (store : option mesh_flow_ruleset_raft_store) (active_ruleset : option mesh_flow_ruleset) :
    mesh_flow_ruleset_result * option mesh_flow_ruleset_raft_store :=
  match store, active_ruleset with
  | Some st, Some rs =>
      if fr_open st || negb (fs_open rs) || (fs_capacity rs =? 0) ||
         (SIZE_MAX / sizeof_rule <? fs_capacity rs)
      then (MESH_FLOW_RULESET_INVALID_ARG, store)
      else if negb alloc_ok then (MESH_FLOW_RULESET_RESOURCE_EXHAUSTED, Some zero_fstore)
      else (MESH_FLOW_RULESET_OK,
            Some (mk_fstore active_ruleset (replicate (Z.to_nat (fs_capacity rs)) zero_rule)
                    (fs_capacity rs) 0 0 0 (fs_applied_index rs) 0 false true))
  | _, _ => (MESH_FLOW_RULESET_INVALID_ARG, store)
  end.

Definition mesh_flow_ruleset_raft_store_destroy_v1
    (store : option mesh_flow_ruleset_raft_store) : option mesh_flow_ruleset_raft_store :=
  match store with
  | Some st => if fr_open st then Some zero_fstore else store
  | None => None
  end.

(** [memcpy(array + off, src, n * sizeof( *src))] on rule arrays. *)
Definition copy_rules (dst : list mesh_flow_rule) (off : nat) (src : list mesh_flow_rule) :=
  take off dst ++ src ++ drop (off + length src) dst.

Definition mesh_flow_ruleset_raft_apply_v1 (alloc_ok : bool)
    (store : option mesh_flow_ruleset_raft_store) (committed_index : Z)
    (command_data : option bytes) :
    mesh_flow_ruleset_result * option mesh_flow_ruleset_raft_store :=
  match store with
  | None => (MESH_FLOW_RULESET_OUT_OF_ORDER, store)
  | Some st =>
      if negb (fr_open st) || (committed_index =? 0) || (committed_index <=? fr_last_log_index st)
      then (MESH_FLOW_RULESET_OUT_OF_ORDER, store)
      else
        match mesh_flow_ruleset_raft_decode_v1 command_data (Some zero_fcommand) with
        | (MESH_FLOW_RULESET_OK, command) =>
            let c := deref zero_fcommand command in
            let active := deref zero_ruleset (fr_active st) in
            if f_operation c =? MESH_FLOW_RULESET_RAFT_BEGIN then
              if (fr_capacity st <? f_total_rule_count c) ||
                 (f_policy_epoch c <=? fs_policy_epoch active) ||
                 (fr_staging st && (f_policy_epoch c <=? fr_staging_epoch st))
              then (MESH_FLOW_RULESET_OUT_OF_ORDER, store)
              else (MESH_FLOW_RULESET_OK,
                    Some (mk_fstore (fr_active st)
                            (replicate (Z.to_nat (fr_capacity st)) zero_rule) (fr_capacity st)
                            (f_total_rule_count c) 0 (f_policy_epoch c) committed_index
                            (f_default_action c) true (fr_open st)))
            else if f_operation c =? MESH_FLOW_RULESET_RAFT_CHUNK then
              if negb (fr_staging st) || negb (f_policy_epoch c =? fr_staging_epoch st) ||
                 negb (f_total_rule_count c =? fr_expected_rule_count st) ||
                 negb (f_rule_offset c =? fr_received_rule_count st)
              then (MESH_FLOW_RULESET_OUT_OF_ORDER, store)
              else (MESH_FLOW_RULESET_OK,
                    Some (mk_fstore (fr_active st)
                            (copy_rules (fr_staging_rules st)
                               (Z.to_nat (fr_received_rule_count st))
                               (take (Z.to_nat (f_rule_count c)) (f_rules c)))
                            (fr_capacity st) (fr_expected_rule_count st)
                            (wrap 64 (fr_received_rule_count st + f_rule_count c))
                            (fr_staging_epoch st) committed_index
                            (fr_staging_default_action st) (fr_staging st) (fr_open st)))
            else
              if negb (fr_staging st) || negb (f_policy_epoch c =? fr_staging_epoch st) ||
                 negb (f_total_rule_count c =? fr_expected_rule_count st) ||
                 negb (fr_received_rule_count st =? fr_expected_rule_count st)
              then (MESH_FLOW_RULESET_OUT_OF_ORDER, store)
              else
                match mesh_flow_ruleset_apply_replace_v1 alloc_ok (fr_active st) committed_index
                        (fr_staging_epoch st) (fr_staging_default_action st)
                        (Some (fr_staging_rules st)) (fr_expected_rule_count st) with
                | (MESH_FLOW_RULESET_OK, active') =>
                    (MESH_FLOW_RULESET_OK,
                     Some (mk_fstore active' (fr_staging_rules st) (fr_capacity st) 0 0
                             (fr_staging_epoch st) committed_index
                             (fr_staging_default_action st) false (fr_open st)))
                | (result, active') =>
                    (result,
                     Some (mk_fstore active' (fr_staging_rules st) (fr_capacity st)
                             (fr_expected_rule_count st) (fr_received_rule_count st)
                             (fr_staging_epoch st) (fr_last_log_index st)
                             (fr_staging_default_action st) (fr_staging st) (fr_open st)))
                end
        | (result, _) => (result, store)
        end
  end.

(** ** Typing and invariants *)

Definition fcommand_typed (c : mesh_flow_ruleset_raft_command) : Prop :=
  u8 (f_operation c) ∧ u64 (f_policy_epoch c) ∧ u16 (f_total_rule_count c) ∧
  u16 (f_rule_offset c) ∧ u32 (f_default_action c) ∧ length (f_rules c) = 15%nat ∧
  Forall rule_typed (f_rules c) ∧ u64 (f_rule_count c).
#[export] Instance fcommand_typed_dec c : Decision (fcommand_typed c).
Proof. unfold fcommand_typed. apply _. Defined.

(** The unused rule slots are cleared, as every sender and the decoder do. *)
Definition slots_clear (c : mesh_flow_ruleset_raft_command) : Prop :=
  drop (Z.to_nat (f_rule_count c)) (f_rules c) = drop (Z.to_nat (f_rule_count c)) zero_rules.
#[export] Instance slots_clear_dec c : Decision (slots_clear c).
Proof. unfold slots_clear. apply _. Defined.

(** What a CHUNK adds is bounded and valid; see [fstore_ok]. *)
Record staging_ok (rs : mesh_flow_ruleset) (st : mesh_flow_ruleset_raft_store) : Prop := {
  stg_counts : 0 <= fr_received_rule_count st <= fr_expected_rule_count st;
  stg_room : fr_expected_rule_count st <= fr_capacity st;
  stg_epoch : fs_policy_epoch rs < fr_staging_epoch st < 2 ^ 64;
  stg_action : action_valid (fr_staging_default_action st) = true;
  stg_valid : Forall (λ r, rule_valid r = true ∧ rule_typed r)
                (take (Z.to_nat (fr_received_rule_count st)) (fr_staging_rules st)) }.

Record fstore_ok (st : mesh_flow_ruleset_raft_store) (rs : mesh_flow_ruleset) : Prop := {
  fok_open : fr_open st = true;
  fok_active : fr_active st = Some rs;
  fok_ruleset : ruleset_ok rs;
  fok_typed : Forall rule_typed (live_rules rs);
  fok_capacity : fr_capacity st = fs_capacity rs;
  fok_length : Z.of_nat (length (fr_staging_rules st)) = fr_capacity st;
  fok_index : fs_applied_index rs <= fr_last_log_index st < 2 ^ 64;
  fok_staging : fr_staging st = true → staging_ok rs st }.

(** The rules collected so far. *)
Definition staged_rules (st : mesh_flow_ruleset_raft_store) : list mesh_flow_rule :=
  take (Z.to_nat (fr_received_rule_count st)) (fr_staging_rules st).

(** ** Codec lemmas *)

Section RuleCodec.
Implicit Types r : mesh_flow_rule.

Lemma length_encode_rule r : length (encode_rule r) = 32%nat.
Proof. unfold encode_rule. rewrite !length_app. lens. Qed.

(** The log's check implies the ruleset's check. *)
Lemma raft_rule_valid r : rule_valid r = true → FlowRuleset.rule_valid r = true.
Proof.
  unfold rule_valid, FlowRuleset.rule_valid, action_valid. intros H. repeat (step_in H; try done).
  bool_prop.
  repeat match goal with H : ?b = ?c |- context [?b] => rewrite H end.
  rewrite negb_orb. pass_guards. by rewrite !Z.eqb_refl.
Qed.

Lemma decode_encode_rule r : rule_typed r → r_action r < 256 → decode_rule (encode_rule r) = r.
Proof.
  intros (H1 & H2 & H3 & H4 & H5 & H6 & H7 & H8 & H9 & H10 & H11 & H12) Ha.
  unfold decode_rule, encode_rule. seek. pick.
  rewrite read_write_u64_le, !read_write_u32_le, !read_write_u16_le by done.
  change 255 with (Z.ones 8). rewrite Z.land_ones, Z.mod_small by (unfold uint in *; lia).
  by destruct r.
Qed.

Lemma decode_rule_typed b : bytes_ok 32 b → rule_typed (decode_rule b) ∧ u8 (r_action (decode_rule b)).
Proof.
  intros Hb. pose proof Hb as [_ Hu]. unfold decode_rule, rule_typed. cbn [r_rule_id
    r_src_network_ip r_dst_network_ip r_src_port_start r_src_port_end r_dst_port_start
    r_dst_port_end r_directions r_src_prefix_len r_dst_prefix_len r_ip_proto r_action].
  assert (∀ i, u32 (at_ b i)) by (intros i; pose proof (at_u8 b i Hu); unfold uint in *; lia).
  split_and!; eauto using at_u8, read_u32_le_range, read_u16_le_range.
  apply read_u64_le_range. by eapply sub_bytes_ok; [exact Hb|lia].
Qed.

Lemma encode_decode_rule b : bytes_ok 32 b → encode_rule (decode_rule b) = b.
Proof.
  intros Hb. pose proof (decode_rule_typed b Hb) as [_ Ha].
  assert (Hs : ∀ off n, (off + n <= 32)%nat → bytes_ok n (sub b off n))
    by (intros; by eapply sub_bytes_ok).
  unfold encode_rule. cbn [decode_rule r_rule_id
    r_src_network_ip r_dst_network_ip r_src_port_start r_src_port_end r_dst_port_start
    r_dst_port_end r_directions r_src_prefix_len r_dst_prefix_len r_ip_proto r_action] in *.
  rewrite write_read_u64_le, !write_read_u32_le, !write_read_u16_le by (apply Hs; lia).
  change 255 with (Z.ones 8). rewrite Z.land_ones, Z.mod_small by (unfold uint in *; lia).
  destruct Hb as [Hl _].
  change [at_ b 28; at_ b 29; at_ b 30; at_ b 31] with
    ([at_ b 28] ++ [at_ b 29] ++ [at_ b 30] ++ [at_ b 31]).
  rewrite <- !at_sub by lia.
  repeat (etransitivity; [symmetry; apply (sub_split b)|]; cbn [Nat.add]).
  rewrite <- !(sub_split b). by apply sub_all.
Qed.

End RuleCodec.

Section CommandCodec.
Implicit Types c : mesh_flow_ruleset_raft_command.

Lemma length_encode_header c : length (encode_header c) = 24%nat.
Proof. unfold encode_header. rewrite !length_app. lens. Qed.

Lemma length_encode_rules l : length (concat (encode_rule <$> l)) = (32 * length l)%nat.
Proof.
  induction l as [|r l IH]; [done|]. cbn [fmap list_fmap concat length].
  rewrite length_app, length_encode_rule, IH. lia.
Qed.

Lemma command_valid_bounds c : fcommand_typed c → command_valid (Some c) = true →
  0 <= f_rule_count c <= 15 ∧ 0 < f_policy_epoch c ∧ f_default_action c < 2 ∧
  f_total_rule_count c <= 256 ∧ 1 <= f_operation c <= 3 ∧
  f_rule_offset c + f_rule_count c <= f_total_rule_count c ∧
  Forall (λ r, rule_valid r = true) (take (Z.to_nat (f_rule_count c)) (f_rules c)).
Proof.
  intros (H1 & H2 & H3 & H4 & H5 & H6 & H7 & H8). unfold uint in *.
  unfold command_valid, action_valid, MESH_FLOW_ACTION_DENY, MESH_FLOW_ACTION_ALLOW,
    MESH_FLOW_RULESET_MAX_RULES, MESH_FLOW_RULESET_RAFT_MAX_CHUNK_RULES,
    MESH_FLOW_RULESET_RAFT_BEGIN, MESH_FLOW_RULESET_RAFT_CHUNK, MESH_FLOW_RULESET_RAFT_COMMIT.
  intros H. repeat (step_in H; try done); bool_prop;
    try rewrite wrap_small in * by (unfold uint; lia).
  - split_and!; try lia. by replace (f_rule_count c) with 0 by lia; constructor.
  - split_and!; try lia.
    by apply forallb_Forall_true.
  - split_and!; try lia. by replace (f_rule_count c) with 0 by lia; constructor.
Qed.

Lemma decode_rules_encode h l : length h = 24%nat →
  Forall (λ r, rule_typed r ∧ r_action r < 256) l →
  decode_rules (h ++ concat (encode_rule <$> l)) (length l) = l.
Proof.
  intros Hh Hl. unfold decode_rules.
  pose proof (concat_windows encode_rule 32 l h length_encode_rule) as Hw.
  rewrite Hh in Hw.
  assert (E : decode_rule <$> (encode_rule <$> l) = l).
  { rewrite <- list_fmap_compose. rewrite <- (list_fmap_id l) at 2. apply Forall_fmap_ext_1.
    eapply Forall_impl; [exact Hl|]. intros r []. by apply decode_encode_rule. }
  etransitivity; [|exact E]. etransitivity; [|exact (f_equal (fmap decode_rule) Hw)].
  by rewrite <- list_fmap_compose.
Qed.

Lemma length_live_rules c : fcommand_typed c → command_valid (Some c) = true →
  Z.of_nat (length (take (Z.to_nat (f_rule_count c)) (f_rules c))) = f_rule_count c.
Proof.
  intros Ht Hv. pose proof (command_valid_bounds c Ht Hv) as (Hn & _).
  destruct Ht as (_ & _ & _ & _ & _ & Hl & _). rewrite length_take, Hl. lia.
Qed.

Lemma len_encode_fcommand c : fcommand_typed c → command_valid (Some c) = true →
  len (encode_fcommand c) = 24 + f_rule_count c * 32.
Proof.
  intros Ht Hv. pose proof (length_live_rules c Ht Hv) as Hl. unfold len, encode_fcommand.
  rewrite length_app, length_encode_header, length_encode_rules. lia.
Qed.

Lemma decode_fcommand_encode c : fcommand_typed c → slots_clear c →
  command_valid (Some c) = true → decode_fcommand (encode_fcommand c) = c.
Proof.
  intros Ht Hs Hv. pose proof (command_valid_bounds c Ht Hv) as (Hn & _ & Ha & _ & Ho & _ & Hr).
  pose proof (length_live_rules c Ht Hv) as Hl.
  unfold decode_fcommand. rewrite len_encode_fcommand by done.
  change MESH_FLOW_RULESET_RAFT_HEADER_SIZE with 24.
  change MESH_FLOW_RULESET_RAFT_RULE_SIZE with 32.
  replace ((24 + f_rule_count c * 32 - 24) / 32) with (f_rule_count c)
    by (rewrite Z.add_simpl_l; symmetry; by apply Z.div_mul).
  pose proof Ht as (H1 & H2 & H3 & H4 & H5 & H6 & H7 & H8).
  assert (Hrs : decode_rules (encode_fcommand c) (Z.to_nat (f_rule_count c)) =
                take (Z.to_nat (f_rule_count c)) (f_rules c)).
  { unfold encode_fcommand.
    replace (Z.to_nat (f_rule_count c)) with
      (length (take (Z.to_nat (f_rule_count c)) (f_rules c))) at 2 by lia.
    apply decode_rules_encode; [apply length_encode_header|].
    apply Forall_forall. intros r Hin. split.
    - revert r Hin. by apply Forall_forall, Forall_take.
    - eapply Forall_forall in Hr; [|exact Hin]. unfold rule_valid in Hr.
      repeat (step_in Hr; try done). unfold MESH_FLOW_ACTION_DENY, MESH_FLOW_ACTION_ALLOW in *.
      bool_prop. lia. }
  rewrite Hrs. unfold encode_fcommand, encode_header.
  assert (length RULESET_RAFT_MAGIC = 4%nat) by done.
  rewrite <- !app_assoc. seek. pick.
  rewrite read_write_u64_le, !read_write_u16_le by done.
  replace (length (take _ _)) with (Z.to_nat (f_rule_count c)) by lia.
  unfold slots_clear in Hs. rewrite <- Hs, take_drop.
  change 255 with (Z.ones 8). rewrite !Z.land_ones, !Z.mod_small by (unfold uint in *; lia).
  by destruct c.
Qed.

Lemma decode_encode_fcommand c c0 : fcommand_typed c → slots_clear c →
  command_valid (Some c) = true →
  mesh_flow_ruleset_raft_decode_v1 (Some (encode_fcommand c)) (Some c0) =
    (MESH_FLOW_RULESET_OK, Some c).
Proof.
  intros Ht Hs Hv. pose proof (command_valid_bounds c Ht Hv) as (Hn & _).
  unfold mesh_flow_ruleset_raft_decode_v1. cbn [deref].
  rewrite len_encode_fcommand, decode_fcommand_encode, Hv by done.
  change (negb (memeq 4 (encode_fcommand c) RULESET_RAFT_MAGIC)) with false.
  change MESH_FLOW_RULESET_RAFT_HEADER_SIZE with 24.
  change MESH_FLOW_RULESET_RAFT_MAX_COMMAND_SIZE with 504.
  change MESH_FLOW_RULESET_RAFT_RULE_SIZE with 32.
  rewrite Z.add_simpl_l, Z.mod_mul by done.
  destruct (Z.ltb_spec (24 + f_rule_count c * 32) 24); [lia|].
  destruct (Z.ltb_spec 504 (24 + f_rule_count c * 32)); [lia|]. done.
Qed.

Lemma length_decode_rules inp n : length (decode_rules inp n) = n.
Proof. unfold decode_rules. by rewrite length_fmap, length_seq. Qed.

Lemma decode_rules_windows inp n : length inp = (24 + n * 32)%nat → Forall u8 inp →
  Forall (λ i, bytes_ok 32 (sub inp (24 + i * 32) 32)) (seq 0 n).
Proof.
  intros Hl Hu. apply Forall_forall. intros i Hi%elem_of_seq.
  apply (sub_bytes_ok (length inp)); [done|lia].
Qed.

Lemma decode_rules_typed inp n : length inp = (24 + n * 32)%nat → Forall u8 inp →
  Forall rule_typed (decode_rules inp n).
Proof.
  intros Hl Hu. apply Forall_fmap. eapply Forall_impl; [by apply decode_rules_windows|].
  intros i Hi. by apply decode_rule_typed.
Qed.

Lemma encode_decode_rules inp n : length inp = (24 + n * 32)%nat → Forall u8 inp →
  concat (encode_rule <$> decode_rules inp n) = drop 24 inp.
Proof.
  intros Hl Hu. rewrite <- (windows_concat 32 n 24 inp Hl). f_equal.
  unfold decode_rules. rewrite <- list_fmap_compose. apply Forall_fmap_ext_1.
  eapply Forall_impl; [by apply decode_rules_windows|]. intros i Hi. by apply encode_decode_rule.
Qed.

(** The header bytes, from the decoder's tests. *)
Lemma fheader_bytes inp : (24 <= length inp)%nat → Forall u8 inp →
  memeq 4 inp RULESET_RAFT_MAGIC = true → at_ inp 4 = MESH_FLOW_RULESET_RAFT_VERSION →
  at_ inp 6 = 0 → at_ inp 7 = 0 → at_ inp 21 = 0 → at_ inp 22 = 0 → at_ inp 23 = 0 →
  encode_header (decode_fcommand inp) = take 24 inp.
Proof.
  intros Hl Hu Hm H4 H6 H7 H21 H22 H23. unfold memeq in Hm. bool_prop.
  assert (Hw : ∀ off n, (off + n <= 24)%nat → bytes_ok n (sub inp off n)).
  { intros. apply (sub_bytes_ok (length inp)); [done|lia]. }
  unfold encode_header, decode_fcommand.
  cbn [f_operation f_policy_epoch f_total_rule_count f_rule_offset f_default_action].
  rewrite write_read_u64_le, !write_read_u16_le by (apply Hw; lia).
  change 255 with (Z.ones 8).
  rewrite !Z.land_ones, !Z.mod_small by (try lia; apply at_u8, Hu).
  change (take 24 inp) with (sub inp 0 (4 + (1 + (1 + (1 + (1 + (8 + (2 + (2 + (1 + (1 + (1 + 1)))))))))))).
  rewrite !sub_split, !at_sub by (simpl; lia). cbn [Nat.add].
  rewrite H4, H6, H7, H21, H22, H23. change (sub inp 0 4) with (take 4 inp). by rewrite Hm.
Qed.

(** What the decoder accepts is the encoding of what it returns. *)
Lemma decode_fcommand_inv inp c0 c : Forall u8 inp →
  mesh_flow_ruleset_raft_decode_v1 (Some inp) (Some c0) = (MESH_FLOW_RULESET_OK, Some c) →
  fcommand_typed c ∧ slots_clear c ∧ command_valid (Some c) = true ∧ encode_fcommand c = inp.
Proof.
  intros Hu. unfold mesh_flow_ruleset_raft_decode_v1. cbn [deref]. intros H.
  repeat (step_in H; try done). bool_prop. cbn in H. simplify_eq.
  change MESH_FLOW_RULESET_RAFT_HEADER_SIZE with 24 in *.
  change MESH_FLOW_RULESET_RAFT_MAX_COMMAND_SIZE with 504 in *.
  change MESH_FLOW_RULESET_RAFT_RULE_SIZE with 32 in *. unfold len in *.
  set (n := Z.to_nat ((Z.of_nat (length inp) - 24) / 32)).
  assert (Hn : length inp = (24 + n * 32)%nat) by
    (pose proof (Z.div_mod (Z.of_nat (length inp) - 24) 32); lia).
  assert (Hrules : f_rules (decode_fcommand inp) = decode_rules inp n ++ drop n zero_rules).
  { unfold decode_fcommand, len. cbn [f_rules]. by rewrite length_decode_rules. }
  assert (Hcount : f_rule_count (decode_fcommand inp) = Z.of_nat n).
  { unfold decode_fcommand, len. cbn [f_rule_count]. unfold n.
    pose proof (Z.div_pos (Z.of_nat (length inp) - 24) 32).
    change MESH_FLOW_RULESET_RAFT_HEADER_SIZE with 24.
    change MESH_FLOW_RULESET_RAFT_RULE_SIZE with 32. lia. }
  assert (Hz : length zero_rules = 15%nat) by done.
  split_and!; [| |done|].
  - unfold fcommand_typed. rewrite Hrules, Hcount. split_and!.
    + apply at_u8, Hu.
    + apply read_u64_le_range, (sub_bytes_ok (length inp)); [done|lia].
    + apply read_u16_le_range.
    + apply read_u16_le_range.
    + pose proof (at_u8 inp 20 Hu). unfold decode_fcommand, uint in *. cbn. lia.
    + rewrite length_app, length_decode_rules, length_drop, Hz. lia.
    + apply Forall_app. split; [by apply decode_rules_typed|].
      apply Forall_drop, Forall_replicate. evaluate.
    + unfold uint. lia.
  - unfold slots_clear. rewrite Hrules, Hcount, Nat2Z.id.
    by rewrite drop_app_length' by (by rewrite length_decode_rules).
  - unfold encode_fcommand. rewrite Hrules, Hcount, Nat2Z.id.
    rewrite take_app_length' by (by rewrite length_decode_rules).
    rewrite encode_decode_rules, fheader_bytes by (done || lia). apply take_drop.
Qed.

Lemma fdecode_OK_Some inp c0 o :
  mesh_flow_ruleset_raft_decode_v1 (Some inp) (Some c0) = (MESH_FLOW_RULESET_OK, o) →
  ∃ c, o = Some c.
Proof.
  unfold mesh_flow_ruleset_raft_decode_v1. intros H. repeat (step_in H; try done).
  simplify_eq. eauto.
Qed.

End CommandCodec.

(** ** The store as a transition system *)

(** What an accepted command does; [c] is the decoded command. *)
Inductive flow_step (alloc_ok : bool) (rs : mesh_flow_ruleset) (st : mesh_flow_ruleset_raft_store)
    (idx : Z) (c : mesh_flow_ruleset_raft_command) :
    mesh_flow_ruleset → mesh_flow_ruleset_raft_store → Prop :=
  | step_begin :
      f_operation c = MESH_FLOW_RULESET_RAFT_BEGIN →
      f_total_rule_count c <= fr_capacity st → fs_policy_epoch rs < f_policy_epoch c →
      (fr_staging st = true → fr_staging_epoch st < f_policy_epoch c) →
      flow_step alloc_ok rs st idx c rs
        (mk_fstore (Some rs) (replicate (Z.to_nat (fr_capacity st)) zero_rule) (fr_capacity st)
           (f_total_rule_count c) 0 (f_policy_epoch c) idx (f_default_action c) true true)
  | step_chunk :
      f_operation c = MESH_FLOW_RULESET_RAFT_CHUNK →
      fr_staging st = true → f_policy_epoch c = fr_staging_epoch st →
      f_total_rule_count c = fr_expected_rule_count st →
      f_rule_offset c = fr_received_rule_count st →
      flow_step alloc_ok rs st idx c rs
        (mk_fstore (Some rs)
           (copy_rules (fr_staging_rules st) (Z.to_nat (fr_received_rule_count st))
              (take (Z.to_nat (f_rule_count c)) (f_rules c)))
           (fr_capacity st) (fr_expected_rule_count st)
           (fr_received_rule_count st + f_rule_count c) (fr_staging_epoch st) idx
           (fr_staging_default_action st) true true)
  | step_commit rs' :
      f_operation c = MESH_FLOW_RULESET_RAFT_COMMIT →
      fr_staging st = true → f_policy_epoch c = fr_staging_epoch st →
      f_total_rule_count c = fr_expected_rule_count st →
      fr_received_rule_count st = fr_expected_rule_count st →
      NoDup (r_rule_id <$> staged_rules st) → alloc_ok = true →
      ruleset_ok rs' → live_rules rs' = staged_rules st →
      rs' = mk_ruleset (fs_rules rs') (fr_expected_rule_count st) (fs_capacity rs)
              (fr_staging_epoch st) idx (fr_staging_default_action st) true →
      flow_step alloc_ok rs st idx c rs'
        (mk_fstore (Some rs') (fr_staging_rules st) (fr_capacity st) 0 0
           (fr_staging_epoch st) idx (fr_staging_default_action st) false true).

Section Store.
Context (st : mesh_flow_ruleset_raft_store) (rs : mesh_flow_ruleset) (Hok : fstore_ok st rs).

Lemma staged_full : fr_staging st = true →
  fr_received_rule_count st = fr_expected_rule_count st →
  take (Z.to_nat (fr_expected_rule_count st)) (fr_staging_rules st) = staged_rules st ∧
  Z.of_nat (length (staged_rules st)) = fr_expected_rule_count st.
Proof.
  intros Hs He. pose proof (fok_staging _ _ Hok Hs) as Hst.
  pose proof (stg_counts _ _ Hst). pose proof (stg_room _ _ Hst). pose proof (fok_length _ _ Hok).
  unfold staged_rules. rewrite <- He. split; [done|]. rewrite length_take. lia.
Qed.

(** Only the first [count] rules of the argument matter to a replacement. *)
Lemma replace_take alloc_ok o idx epoch action rules n : (n <= length rules)%nat →
  mesh_flow_ruleset_apply_replace_v1 alloc_ok o idx epoch action (Some rules) (Z.of_nat n) =
  mesh_flow_ruleset_apply_replace_v1 alloc_ok o idx epoch action (Some (take n rules)) (Z.of_nat n).
Proof.
  intros Hn. unfold mesh_flow_ruleset_apply_replace_v1. cbn [deref].
  rewrite Nat2Z.id, take_take, Nat.min_id. done.
Qed.

Lemma commit_result alloc_ok idx : fr_staging st = true →
  fr_received_rule_count st = fr_expected_rule_count st → u64 idx → fr_last_log_index st < idx →
  (alloc_ok = true ∧ NoDup (r_rule_id <$> staged_rules st) ∧
   ∃ rs', mesh_flow_ruleset_apply_replace_v1 alloc_ok (Some rs) idx (fr_staging_epoch st)
            (fr_staging_default_action st) (Some (fr_staging_rules st))
            (fr_expected_rule_count st) = (MESH_FLOW_RULESET_OK, Some rs') ∧
          ruleset_ok rs' ∧ live_rules rs' = staged_rules st ∧
          rs' = mk_ruleset (fs_rules rs') (fr_expected_rule_count st) (fs_capacity rs)
              (fr_staging_epoch st) idx (fr_staging_default_action st) true) ∨
  ((alloc_ok = false ∨ ¬ NoDup (r_rule_id <$> staged_rules st)) ∧
   ∃ r, r ≠ MESH_FLOW_RULESET_OK ∧
     mesh_flow_ruleset_apply_replace_v1 alloc_ok (Some rs) idx (fr_staging_epoch st)
       (fr_staging_default_action st) (Some (fr_staging_rules st))
       (fr_expected_rule_count st) = (r, Some rs)).
Proof.
  intros Hs He Hi Hlt. pose proof (fok_staging _ _ Hok Hs) as Hst.
  destruct (staged_full Hs He) as [Htake Hlen].
  pose proof (stg_counts _ _ Hst). pose proof (stg_room _ _ Hst). pose proof (fok_length _ _ Hok).
  pose proof (fok_index _ _ Hok). pose proof (fok_capacity _ _ Hok).
  pose proof (stg_epoch _ _ Hst). pose proof (rok_epoch _ (fok_ruleset _ _ Hok)).
  set (a := mk_args alloc_ok idx (fr_staging_epoch st) (fr_staging_default_action st) (staged_rules st)).
  assert (Ha : args_typed a) by (split; [done|]; unfold uint; simpl; lia).
  assert (E : mesh_flow_ruleset_apply_replace_v1 alloc_ok (Some rs) idx (fr_staging_epoch st)
       (fr_staging_default_action st) (Some (fr_staging_rules st))
       (fr_expected_rule_count st) = do_replace a rs).
  { unfold do_replace. cbn [ra_alloc ra_index ra_epoch ra_action ra_rules a].
    rewrite Hlen, <- Htake.
    pose proof (replace_take alloc_ok (Some rs) idx (fr_staging_epoch st)
      (fr_staging_default_action st) (fr_staging_rules st)
      (Z.to_nat (fr_expected_rule_count st))) as Ht.
    rewrite Z2Nat.id in Ht by lia. apply Ht. lia. }
  rewrite E. pose proof (replace_ok_iff a rs (fok_ruleset _ _ Hok) Ha) as Hiff.
  destruct (do_replace a rs) as [res out] eqn:Er. cbn [fst] in Hiff. pose proof Er as Er'.
  apply replace_cases in Er' as [[Hne ->]|(-> & _ & _ & _ & Hr & _ & ->)];
    [right|left|apply Hok|done|apply Ha|done].
  - split; [|by eauto]. destruct alloc_ok; [right|by left]. intros Hnd. apply Hne, Hiff.
    cbn [ra_alloc ra_index ra_epoch ra_action ra_rules a]. split_and!; try done; try lia.
    + apply Hst.
    + split; [|done]. eapply Forall_impl; [apply (stg_valid _ _ Hst)|].
      intros r [? _]. by apply raft_rule_valid.
  - destruct (proj1 Hiff eq_refl) as (Halloc & _ & _ & _ & _ & _ & Hnd). split_and!; try done.
    eexists. split; [done|]. cbn [ra_alloc ra_index ra_epoch ra_action ra_rules a].
    split; [apply replaced_ok; try done; [apply Hok|apply Ha|lia|apply Hst]|].
    split; [apply replaced_live|]. cbn. by rewrite Hlen.
Qed.

(** The rejected commands change nothing; the accepted ones take one step. *)
Lemma flow_apply_cases alloc_ok idx data r o : u64 idx → Forall u8 data →
  mesh_flow_ruleset_raft_apply_v1 alloc_ok (Some st) idx (Some data) = (r, o) →
  (r ≠ MESH_FLOW_RULESET_OK ∧ o = Some st) ∨
  (r = MESH_FLOW_RULESET_OK ∧ fr_last_log_index st < idx ∧
   ∃ c rs' st', o = Some st' ∧ fcommand_typed c ∧ slots_clear c ∧ command_valid (Some c) = true ∧
     encode_fcommand c = data ∧ flow_step alloc_ok rs st idx c rs' st').
Proof.
  intros Hi Hu H. unfold mesh_flow_ruleset_raft_apply_v1 in H.
  rewrite (fok_open _ _ Hok) in H. step_in H; [by left; simplify_eq|].
  destruct (mesh_flow_ruleset_raft_decode_v1 (Some data) (Some zero_fcommand)) as [d o'] eqn:Ed.
  destruct (decide (d = MESH_FLOW_RULESET_OK)) as [->|Hd]; [|by left; destruct d; simplify_eq].
  destruct (fdecode_OK_Some _ _ _ Ed) as [c ->].
  pose proof (decode_fcommand_inv _ _ _ Hu Ed) as (Ht & Hcl & Hv & He).
  pose proof (command_valid_bounds c Ht Hv) as (Hn & _ & _ & Htot & Hop & Hoff & _).
  assert (Hr : fr_received_rule_count st + f_rule_count c < 2 ^ 64 ∨
               f_rule_offset c ≠ fr_received_rule_count st).
  { destruct (decide (f_rule_offset c = fr_received_rule_count st)) as [E'|]; [left; lia|by right]. }
  rewrite (fok_active _ _ Hok) in H. cbn [deref negb orb] in H. bool_prop.
  step_in H; [|step_in H].
  - (* BEGIN *)
    step_in H; [by left; simplify_eq|]. bool_prop. right. simplify_eq.
    split_and!; [done|lia|]. eexists c, rs, _. split_and!; try done. constructor; try done; try lia.
    intros Hs. rewrite Hs in *. bool_prop. lia.
  - (* CHUNK *)
    step_in H; [by left; simplify_eq|]. bool_prop. right. simplify_eq.
    split_and!; [done|lia|]. eexists c, rs, _. split_and!; try done.
    pose proof (stg_counts _ _ (fok_staging _ _ Hok ltac:(done))).
    rewrite wrap_small by (unfold uint; lia).
    match goal with Hs : fr_staging st = true |- _ => rewrite Hs end. by constructor.
  - (* COMMIT *)
    step_in H; [by left; simplify_eq|]. bool_prop.
    destruct (commit_result alloc_ok idx) as
      [(Ha & Hnd & rs' & E1 & Hok' & Hlive & Hrs)|(_ & r1 & Hr1 & E1)]; try done; try lia;
      rewrite E1 in H.
    + right. simplify_eq. split_and!; [done|lia|]. eexists c, rs', _. split_and!; try done.
      apply step_commit; try done; try lia.
      unfold MESH_FLOW_RULESET_RAFT_BEGIN, MESH_FLOW_RULESET_RAFT_CHUNK,
        MESH_FLOW_RULESET_RAFT_COMMIT in *. lia.
    + left. pose proof (fok_open _ _ Hok) as Ho. pose proof (fok_active _ _ Hok) as Hac.
      assert (E2 : r = r1 ∧ o = Some st).
      { destruct r1; [done|..]; injection H as <- <-; (split; [done|]); rewrite <- Hac, <- Ho;
          by destruct st. }
      by destruct E2 as [-> ->].
Qed.

Lemma copy_rules_take l off new : (off + length new <= length l)%nat →
  take (off + length new) (copy_rules l off new) = take off l ++ new ∧
  length (copy_rules l off new) = length l.
Proof.
  intros Hl. unfold copy_rules. split.
  - rewrite app_assoc. apply take_app_length'. rewrite length_app, length_take. lia.
  - rewrite !length_app, length_take, length_drop. lia.
Qed.

Lemma flow_step_ok alloc_ok idx c rs' st' : u64 idx → fr_last_log_index st < idx →
  fcommand_typed c → command_valid (Some c) = true →
  flow_step alloc_ok rs st idx c rs' st' → fstore_ok st' rs' ∧ fr_last_log_index st' = idx.
Proof.
  intros Hi Hlt Ht Hv Hs.
  pose proof (command_valid_bounds c Ht Hv) as (Hn & Hep & _ & Htot & Hop & Hoff & Hrv).
  pose proof (length_live_rules c Ht Hv) as Hll.
  pose proof (rok_capacity _ (fok_ruleset _ _ Hok)).
  pose proof (fok_index _ _ Hok). pose proof (fok_length _ _ Hok). pose proof (fok_capacity _ _ Hok).
  unfold uint in Hi. destruct Hs as [Ho Hcap Hepoch Hst|Ho Hst Hepoch Hcount Hoff2|
    rs' Ho Hst Hepoch Hcount Hfull Hnd _ Hok' Hlive Hrs']; (split; [|done]).
  - split; cbn; try done; try apply Hok; try lia.
    + rewrite length_replicate. lia.
    + intros _. pose proof Ht as (_ & Hu & Hu2 & _). unfold uint in *.
      split; cbn; try lia; [|constructor].
      unfold command_valid in Hv. rewrite Ho in Hv. cbn in Hv. repeat (step_in Hv; try done).
      by bool_prop.
  - pose proof (fok_staging _ _ Hok Hst) as Hstg.
    pose proof (stg_counts _ _ Hstg). pose proof (stg_room _ _ Hstg).
    destruct (copy_rules_take (fr_staging_rules st) (Z.to_nat (fr_received_rule_count st))
      (take (Z.to_nat (f_rule_count c)) (f_rules c))) as [Htk Hln]; [lia|].
    split; cbn; try done; try apply Hok; try lia.
    intros _. split; cbn; try apply Hstg; try lia.
    replace (Z.to_nat (fr_received_rule_count st + f_rule_count c)) with
      (Z.to_nat (fr_received_rule_count st) +
       length (take (Z.to_nat (f_rule_count c)) (f_rules c)))%nat by lia.
    rewrite Htk. apply Forall_app. split; [apply Hstg|].
    apply Forall_and. split; [done|]. apply Forall_take. apply Ht.
  - pose proof (fok_staging _ _ Hok Hst) as Hstg.
    split; cbn; try done; try lia.
    + rewrite Hlive. eapply Forall_impl; [apply (stg_valid _ _ Hstg)|]. by intros r [].
    + rewrite Hrs'. cbn. lia.
    + rewrite Hrs'. cbn. lia.
Qed.

End Store.

Lemma finit_ok alloc_ok rs st : ruleset_ok rs → Forall rule_typed (live_rules rs) →
  fs_applied_index rs < 2 ^ 64 →
  mesh_flow_ruleset_raft_store_init_v1 alloc_ok (Some zero_fstore) (Some rs) =
    (MESH_FLOW_RULESET_OK, Some st) → fstore_ok st rs.
Proof.
  intros Hok Ht Hi H. unfold mesh_flow_ruleset_raft_store_init_v1 in H.
  repeat (step_in H; try done). simplify_eq. bool_prop. pose proof (rok_capacity _ Hok).
  split; cbn; try done; try apply Hok; try lia. rewrite length_replicate. lia.
Qed.

Lemma flow_apply_effect (st : mesh_flow_ruleset_raft_store) (rs : mesh_flow_ruleset)
    (alloc_ok : bool) (idx : Z) (data : bytes) (r : mesh_flow_ruleset_result)
    (o : option mesh_flow_ruleset_raft_store) :
  fstore_ok st rs → u64 idx → Forall u8 data →
  mesh_flow_ruleset_raft_apply_v1 alloc_ok (Some st) idx (Some data) = (r, o) →
  (r ≠ MESH_FLOW_RULESET_OK ∧ o = Some st) ∨
  (r = MESH_FLOW_RULESET_OK ∧ ∃ st' rs', o = Some st' ∧ fstore_ok st' rs' ∧
     fr_last_log_index st < idx ∧ fr_last_log_index st' = idx ∧
     (rs' = rs ∨
      (at_ data 5 = MESH_FLOW_RULESET_RAFT_COMMIT ∧ live_rules rs' = staged_rules st ∧
       fs_policy_epoch rs' = fr_staging_epoch st ∧ fs_policy_epoch rs < fs_policy_epoch rs' ∧
       fs_default_action rs' = fr_staging_default_action st ∧ fs_applied_index rs' = idx))).
Proof.
  intros Hok Hi Hu H. destruct (flow_apply_cases _ _ Hok _ _ _ _ _ Hi Hu H) as
    [?|(-> & Hlt & c & rs' & st' & -> & Ht & _ & Hv & He & Hs)]; [by left|right].
  destruct (flow_step_ok _ _ Hok _ _ _ _ _ Hi Hlt Ht Hv Hs) as [Hok' Hidx].
  split; [done|]. exists st', rs'. split_and!; try done.
  pose proof (command_valid_bounds c Ht Hv) as (_ & _ & _ & _ & Hop & _).
  destruct Hs as [| |rs' Ho Hst Hepoch _ _ _ _ _ Hlive Hrs']; [by left..|right].
  assert (Hat : at_ data 5 = f_operation c).
  { rewrite <- He. unfold encode_fcommand, encode_header. rewrite <- !app_assoc. cbn [app].
    change (Z.land (f_operation c) 255 = f_operation c).
    change 255 with (Z.ones 8). rewrite Z.land_ones, Z.mod_small by lia. done. }
  pose proof (stg_epoch _ _ (fok_staging _ _ Hok Hst)) as [? _].
  split_and!; [congruence|done|..]; rewrite Hrs'; done.
Qed.

(** ** Theorems *)

(** Every valid command with cleared spare slots encodes into the buffer and
    decodes to itself. *)
Theorem flow_command_roundtrip (c c0 : mesh_flow_ruleset_raft_command) (buf : bytes) (n : Z) :
  fcommand_typed c → slots_clear c → command_valid (Some c) = true →
  24 + f_rule_count c * 32 <= len buf →
  ∃ buf', mesh_flow_ruleset_raft_encode_v1 (Some c) (Some buf) (Some n) =
            (MESH_FLOW_RULESET_OK, Some buf', Some (24 + f_rule_count c * 32)) ∧
          length buf' = length buf ∧
          mesh_flow_ruleset_raft_decode_v1
            (Some (take (Z.to_nat (24 + f_rule_count c * 32)) buf')) (Some c0) =
            (MESH_FLOW_RULESET_OK, Some c).
Proof.
  intros Ht Hs Hv Hl. pose proof (command_valid_bounds c Ht Hv) as (Hn & _).
  pose proof (len_encode_fcommand c Ht Hv) as He. unfold len in He, Hl.
  exists (blit buf 0 (encode_fcommand c)). split_and!.
  - unfold mesh_flow_ruleset_raft_encode_v1. rewrite Hv. cbn [deref]. unfold len.
    change MESH_FLOW_RULESET_RAFT_HEADER_SIZE with 24.
    change MESH_FLOW_RULESET_RAFT_RULE_SIZE with 32.
    change ((SIZE_MAX - 24) / 32) with 576460752303423487.
    destruct (Z.ltb_spec 576460752303423487 (f_rule_count c)); [lia|].
    destruct (Z.ltb_spec (Z.of_nat (length buf)) (24 + f_rule_count c * 32)); [lia|]. done.
  - apply length_blit. lia.
  - unfold blit. rewrite take_0, app_nil_l, take_app_length' by lia.
    by apply decode_encode_fcommand.
Qed.

(** The decoder accepts only canonical encodings: whatever it accepts is the
    encoding of the command it returns. *)
Theorem flow_decode_canonical (inp : bytes) (c0 c : mesh_flow_ruleset_raft_command) :
  Forall u8 inp →
  mesh_flow_ruleset_raft_decode_v1 (Some inp) (Some c0) = (MESH_FLOW_RULESET_OK, Some c) →
  fcommand_typed c ∧ slots_clear c ∧ command_valid (Some c) = true ∧ encode_fcommand c = inp.
Proof. apply decode_fcommand_inv. Qed.

(** C32: one committed command either is rejected and changes nothing, or keeps
    the store's invariant (staging copies stay inside the array) and moves the
    log index strictly forward; the active ruleset is replaced only by a COMMIT,
    and then by exactly the staged rules under a newer epoch. *)
Theorem flow_apply_atomic (st : mesh_flow_ruleset_raft_store) (rs : mesh_flow_ruleset)
    (alloc_ok : bool) (idx : Z) (data : bytes) (r : mesh_flow_ruleset_result)
    (o : option mesh_flow_ruleset_raft_store) :
  fstore_ok st rs → u64 idx → Forall u8 data →
  mesh_flow_ruleset_raft_apply_v1 alloc_ok (Some st) idx (Some data) = (r, o) →
  (r ≠ MESH_FLOW_RULESET_OK ∧ o = Some st) ∨
  (r = MESH_FLOW_RULESET_OK ∧ ∃ st' rs', o = Some st' ∧ fstore_ok st' rs' ∧
     fr_last_log_index st < idx ∧ fr_last_log_index st' = idx ∧
     (rs' = rs ∨
      (at_ data 5 = MESH_FLOW_RULESET_RAFT_COMMIT ∧ live_rules rs' = staged_rules st ∧
       fs_policy_epoch rs' = fr_staging_epoch st ∧ fs_policy_epoch rs < fs_policy_epoch rs' ∧
       fs_default_action rs' = fr_staging_default_action st ∧ fs_applied_index rs' = idx))).
Proof. apply flow_apply_effect. Qed.

(** A complete transaction always commits: when all announced rules have
    arrived, a COMMIT for the staged epoch succeeds exactly when the rule ids are
    distinct and memory is available; it cannot fail for its index, epoch, size
    or the validity of a rule. *)
Theorem flow_commit_succeeds (st : mesh_flow_ruleset_raft_store) (rs : mesh_flow_ruleset)
    (alloc_ok : bool) (idx : Z) :
  fstore_ok st rs → u64 idx → fr_last_log_index st < idx → fr_staging st = true →
  fr_received_rule_count st = fr_expected_rule_count st →
  (mesh_flow_ruleset_raft_apply_v1 alloc_ok (Some st) idx
     (Some (encode_fcommand (mk_fcommand MESH_FLOW_RULESET_RAFT_COMMIT (fr_staging_epoch st)
        (fr_expected_rule_count st) (fr_expected_rule_count st) 0 zero_rules 0)))).1 =
    MESH_FLOW_RULESET_OK ↔
  alloc_ok = true ∧ NoDup (r_rule_id <$> staged_rules st).
Proof.
  intros Hok Hi Hlt Hst Hfull. set (c := mk_fcommand _ _ _ _ _ _ _).
  pose proof (fok_staging _ _ Hok Hst) as Hstg. pose proof (stg_counts _ _ Hstg).
  pose proof (stg_room _ _ Hstg). pose proof (stg_epoch _ _ Hstg).
  pose proof (rok_epoch _ (fok_ruleset _ _ Hok)).
  pose proof (rok_capacity _ (fok_ruleset _ _ Hok)) as Hcap. pose proof (fok_capacity _ _ Hok).
  unfold MESH_FLOW_RULESET_MAX_RULES in Hcap.
  assert (Ht : fcommand_typed c).
  { unfold fcommand_typed, uint. cbn. split_and!; try done; try lia. evaluate. }
  assert (Hv : command_valid (Some c) = true).
  { unfold command_valid. cbn. rewrite Z.eqb_refl.
    change MESH_FLOW_RULESET_MAX_RULES with 256. by pass_guards. }
  unfold mesh_flow_ruleset_raft_apply_v1. rewrite decode_encode_fcommand by done.
  rewrite (fok_open _ _ Hok), (fok_active _ _ Hok), Hst. cbn [deref negb orb].
  cbn [f_operation f_policy_epoch f_total_rule_count f_rule_offset c].
  change (MESH_FLOW_RULESET_RAFT_COMMIT =? MESH_FLOW_RULESET_RAFT_BEGIN) with false.
  change (MESH_FLOW_RULESET_RAFT_COMMIT =? MESH_FLOW_RULESET_RAFT_CHUNK) with false.
  pose proof (fok_index _ _ Hok). pose proof (rok_applied _ (fok_ruleset _ _ Hok)).
  rewrite Hfull, !Z.eqb_refl. cbn [negb orb]. pass_guards.
  destruct (commit_result _ _ Hok alloc_ok idx) as
    [(-> & Hnd & rs' & -> & _)|(Hno & r & Hr & ->)]; try done.
  split; [by destruct r|]. intros [-> ?]. by destruct Hno.
Qed.

(** ** Witnesses *)

Definition w_chunk : mesh_flow_ruleset_raft_command :=
  mk_fcommand MESH_FLOW_RULESET_RAFT_CHUNK 3 2 0 0 ([w_rule1; w_rule2] ++ drop 2 zero_rules) 2.
Definition w_begin : mesh_flow_ruleset_raft_command :=
  mk_fcommand MESH_FLOW_RULESET_RAFT_BEGIN 3 2 0 MESH_FLOW_ACTION_DENY zero_rules 0.
Definition w_fresh : mesh_flow_ruleset_raft_store :=
  deref zero_fstore (mesh_flow_ruleset_raft_store_init_v1 true (Some zero_fstore) (Some w_empty)).2.
Definition w_apply (idx : Z) (c : mesh_flow_ruleset_raft_command)
    (st : mesh_flow_ruleset_raft_store) : mesh_flow_ruleset_raft_store :=
  deref st (mesh_flow_ruleset_raft_apply_v1 true (Some st) idx (Some (encode_fcommand c))).2.
Definition w_begun : mesh_flow_ruleset_raft_store := w_apply 5 w_begin w_fresh.
Definition w_staged : mesh_flow_ruleset_raft_store := w_apply 6 w_chunk w_begun.

Lemma w_fresh_ok : fstore_ok w_fresh w_empty.
Proof. apply (finit_ok true); [apply w_empty_ok|evaluate|evaluate|vm_compute; reflexivity]. Qed.

Lemma w_step_ok st rs idx c st' : fstore_ok st rs → u64 idx → Forall u8 (encode_fcommand c) →
  mesh_flow_ruleset_raft_apply_v1 true (Some st) idx (Some (encode_fcommand c)) =
    (MESH_FLOW_RULESET_OK, Some st') →
  fr_active st' = Some rs → fstore_ok st' rs.
Proof.
  intros Hok Hi Hu H Ha. destruct (flow_apply_cases _ _ Hok _ _ _ _ _ Hi Hu H) as
    [[? _]|(_ & Hlt & d & rs' & st2 & E & Ht & _ & Hv & _ & Hs)]; [done|]. injection E as <-.
  destruct (flow_step_ok _ _ Hok _ _ _ _ _ Hi Hlt Ht Hv Hs) as [Hok' _].
  pose proof (fok_active _ _ Hok'). congruence.
Qed.

Lemma w_begun_ok : fstore_ok w_begun w_empty.
Proof.
  apply (w_step_ok w_fresh w_empty 5 w_begin); [apply w_fresh_ok|evaluate|evaluate|..];
    by vm_compute.
Qed.
Lemma w_staged_ok : fstore_ok w_staged w_empty.
Proof.
  apply (w_step_ok w_begun w_empty 6 w_chunk); [apply w_begun_ok|evaluate|evaluate|..];
    by vm_compute.
Qed.

Lemma flow_command_roundtrip_witness : ∃ buf',
  mesh_flow_ruleset_raft_encode_v1 (Some w_chunk) (Some (zeros 100)) (Some 0) =
    (MESH_FLOW_RULESET_OK, Some buf', Some 88) ∧ length buf' = length (zeros 100) ∧
  mesh_flow_ruleset_raft_decode_v1 (Some (take 88 buf')) (Some zero_fcommand) =
    (MESH_FLOW_RULESET_OK, Some w_chunk).
Proof.
  apply (flow_command_roundtrip w_chunk zero_fcommand (zeros 100) 0);
    [evaluate|evaluate|vm_compute; reflexivity|vm_compute; discriminate].
Defined.

Lemma flow_decode_canonical_witness : fcommand_typed w_chunk ∧ slots_clear w_chunk ∧
  command_valid (Some w_chunk) = true ∧ encode_fcommand w_chunk = encode_fcommand w_chunk.
Proof.
  apply (flow_decode_canonical (encode_fcommand w_chunk) zero_fcommand);
    [evaluate|vm_compute; reflexivity].
Defined.

Lemma flow_apply_atomic_witness :
  (MESH_FLOW_RULESET_OK ≠ MESH_FLOW_RULESET_OK ∧ Some w_staged = Some w_begun) ∨
  (MESH_FLOW_RULESET_OK = MESH_FLOW_RULESET_OK ∧ ∃ st' rs', Some w_staged = Some st' ∧
     fstore_ok st' rs' ∧ fr_last_log_index w_begun < 6 ∧ fr_last_log_index st' = 6 ∧
     (rs' = w_empty ∨
      (at_ (encode_fcommand w_chunk) 5 = MESH_FLOW_RULESET_RAFT_COMMIT ∧
       live_rules rs' = staged_rules w_begun ∧
       fs_policy_epoch rs' = fr_staging_epoch w_begun ∧
       fs_policy_epoch w_empty < fs_policy_epoch rs' ∧
       fs_default_action rs' = fr_staging_default_action w_begun ∧ fs_applied_index rs' = 6))).
Proof.
  apply (flow_apply_atomic w_begun w_empty true 6 (encode_fcommand w_chunk));
    [apply w_begun_ok|evaluate|evaluate|vm_compute; reflexivity].
Defined.

Lemma flow_commit_succeeds_witness :
  (mesh_flow_ruleset_raft_apply_v1 true (Some w_staged) 7
     (Some (encode_fcommand (mk_fcommand MESH_FLOW_RULESET_RAFT_COMMIT 3 2 2 0 zero_rules 0)))).1 =
    MESH_FLOW_RULESET_OK ↔ true = true ∧ NoDup (r_rule_id <$> [w_rule1; w_rule2]).
Proof.
  apply (flow_commit_succeeds w_staged w_empty true 7);
    [apply w_staged_ok|evaluate|vm_compute; reflexivity..].
Defined.
