(* ===== verification/FlowRaftAdapter.v ===== *)
(** * The ruleset's Raft adapter: [mesh/src/mesh_flow_ruleset_raft_adapter.c]

    The batch callback with its require/publish hooks, and the sender that cuts a
    snapshot into BEGIN, CHUNK..., COMMIT proposals.  The hooks are C function
    pointers with a [void *] context: here functions on an optional context of
    any type [C], which they may update.  The Raft service is not part of the
    repository; [propose] is its admission decision for a proposal, and
    [alloc index] is whether memory is available when the entry at [index] is
    applied. *)

From S2P Require Import Prelude Wire RaftLog FlowRuleset FlowRulesetRaft.

(** ** Data *)

Definition MESH_FLOW_RULESET_RAFT_MAX_TRANSACTION_ENTRIES : Z := 20.

Definition map_ruleset_result (result : mesh_flow_ruleset_result) : turbo_code :=
  match result with
  | MESH_FLOW_RULESET_OK => TURBO_OK
  | MESH_FLOW_RULESET_RESOURCE_EXHAUSTED => TURBO_ENOMEM
  | _ => TURBO_EPROTO
  end.

Section Adapter.
Context {C : Type}.

Definition require_fn : Type := option C → Z → turbo_code * option C.
Definition publish_fn : Type := option C → mesh_flow_ruleset → turbo_code * option C.

Record mesh_flow_ruleset_raft_adapter : Type := mk_fadapter {
  fa_store : option mesh_flow_ruleset_raft_store;
  fa_service : option Z;
  fa_require : option require_fn;
  fa_publish : option publish_fn;
  fa_publisher_context : option C;
  fa_published_index : Z;
  fa_publish_pending : bool;
  fa_open : bool }.

Definition zero_fadapter : mesh_flow_ruleset_raft_adapter :=
  mk_fadapter None None None None None 0 false false.

Definition set_fa_store v (a : mesh_flow_ruleset_raft_adapter) :=
  mk_fadapter v (fa_service a) (fa_require a) (fa_publish a) (fa_publisher_context a)
    (fa_published_index a) (fa_publish_pending a) (fa_open a).
Definition set_fa_context v (a : mesh_flow_ruleset_raft_adapter) :=
  mk_fadapter (fa_store a) (fa_service a) (fa_require a) (fa_publish a) v
    (fa_published_index a) (fa_publish_pending a) (fa_open a).
Definition set_fa_published v (a : mesh_flow_ruleset_raft_adapter) :=
  mk_fadapter (fa_store a) (fa_service a) (fa_require a) (fa_publish a) (fa_publisher_context a)
    v (fa_publish_pending a) (fa_open a).
Definition set_fa_pending v (a : mesh_flow_ruleset_raft_adapter) :=
  mk_fadapter (fa_store a) (fa_service a) (fa_require a) (fa_publish a) (fa_publisher_context a)
    (fa_published_index a) v (fa_open a).

(** [adapter->store->active] *)
Definition fa_active (a : mesh_flow_ruleset_raft_adapter) : mesh_flow_ruleset :=
  deref zero_ruleset (fr_active (deref zero_fstore (fa_store a))).

(** [adapter->publish(adapter->publisher_context, adapter->store->active)] *)
Definition call_publish (p : publish_fn) (a : mesh_flow_ruleset_raft_adapter) :
    turbo_code * mesh_flow_ruleset_raft_adapter :=
  let '(r, ctx) := p (fa_publisher_context a) (fa_active a) in (r, set_fa_context ctx a).

(** ** Applying a batch *)

Section Apply.
Context (alloc : Z → bool).

(** One iteration of the loop. *)
Definition apply_entry (adapter : mesh_flow_ruleset_raft_adapter) (en : raft_entry) :
    turbo_code * mesh_flow_ruleset_raft_adapter :=
  match mesh_flow_ruleset_raft_decode_v1 (Some (re_data en)) (Some zero_fcommand) with
  | (MESH_FLOW_RULESET_OK, command) =>
      let commit := f_operation (deref zero_fcommand command) =? MESH_FLOW_RULESET_RAFT_COMMIT in
      let '(callback_result, adapter) :=
        match fa_require adapter with
        | Some require =>
            if commit then
              let '(r, ctx) := require (fa_publisher_context adapter) (re_index en) in
              (r, set_fa_context ctx adapter)
            else (TURBO_OK, adapter)
        | None => (TURBO_OK, adapter)
        end in
      if negb (bool_decide (callback_result = TURBO_OK)) then (callback_result, adapter)
      else
        let '(result, store') :=
          mesh_flow_ruleset_raft_apply_v1 (alloc (re_index en)) (fa_store adapter) (re_index en)
            (Some (re_data en)) in
        let adapter := set_fa_store store' adapter in
        if negb (bool_decide (result = MESH_FLOW_RULESET_OK))
        then (map_ruleset_result result, adapter)
        else
          match fa_publish adapter with
          | Some publish =>
              if commit then
                let '(callback_result, adapter) := call_publish publish adapter in
                if bool_decide (callback_result = TURBO_OK)
                then (TURBO_OK, adapter |> set_fa_published (fs_applied_index (fa_active adapter))
                                        |> set_fa_pending false)
                else (TURBO_OK, adapter |> set_fa_pending true)
              else (TURBO_OK, adapter)
          | None => (TURBO_OK, adapter)
          end
  | (decode_result, _) => (map_ruleset_result decode_result, adapter)
  end.

Fixpoint apply_entries (adapter : mesh_flow_ruleset_raft_adapter) (entries : list raft_entry) :
    turbo_code * mesh_flow_ruleset_raft_adapter :=
  match entries with
  | [] => (TURBO_OK, adapter)
  | en :: entries' =>
      match apply_entry adapter en with
      | (TURBO_OK, adapter') => apply_entries adapter' entries'
      | (code, adapter') => (code, adapter')
      end
  end.

Definition apply_batch (adapter : option mesh_flow_ruleset_raft_adapter)
    (entries : option (list raft_entry)) : turbo_code * option mesh_flow_ruleset_raft_adapter :=
  match adapter, entries with
  | Some a, Some es =>
      if negb (fa_open a) || negb (bool_decide (is_Some (fa_store a))) || bool_decide (es = [])
      then (TURBO_EINVAL, adapter)
      else let '(c, a') := apply_entries a es in (c, Some a')
  | _, _ => (TURBO_EINVAL, adapter)
  end.

End Apply.

(** ** Life cycle *)

Definition mesh_flow_ruleset_raft_adapter_create_v1 (alloc_ok : bool)
    (store : option mesh_flow_ruleset_raft_store)
    (out_adapter : option (option mesh_flow_ruleset_raft_adapter)) :
    turbo_code * option (option mesh_flow_ruleset_raft_adapter) :=
  if negb (bool_decide (is_Some out_adapter)) then (TURBO_EINVAL, out_adapter)
  else
    let out_adapter := assign out_adapter None in
    if negb (match store with Some st => fr_open st | None => false end)
    then (TURBO_EINVAL, out_adapter)
    else if negb alloc_ok then (TURBO_ENOMEM, out_adapter)
    else (TURBO_OK, assign out_adapter (Some (mk_fadapter store None None None None 0 false true))).

Definition mesh_flow_ruleset_raft_adapter_destroy_v1
    (adapter : option mesh_flow_ruleset_raft_adapter) : option mesh_flow_ruleset_raft_adapter :=
  None.

(** The context handed back to [apply_batch], [None] when both members are NULL. *)
Definition mesh_flow_ruleset_raft_state_machine_v1
    (adapter : option mesh_flow_ruleset_raft_adapter) : option mesh_flow_ruleset_raft_adapter :=
  match adapter with
  | Some a => if fa_open a then Some a else None
  | None => None
  end.

Definition mesh_flow_ruleset_raft_adapter_bind_service_v1
    (adapter : option mesh_flow_ruleset_raft_adapter) (service : option Z) :
    turbo_code * option mesh_flow_ruleset_raft_adapter :=
  match adapter, service with
  | Some a, Some sv =>
      if negb (fa_open a) ||
         (bool_decide (is_Some (fa_service a)) && negb (bool_decide (fa_service a = Some sv)))
      then (TURBO_EINVAL, adapter)
      else (TURBO_OK,
            Some (mk_fadapter (fa_store a) (Some sv) (fa_require a) (fa_publish a)
                    (fa_publisher_context a) (fa_published_index a) (fa_publish_pending a)
                    (fa_open a)))
  | _, _ => (TURBO_EINVAL, adapter)
  end.

Definition mesh_flow_ruleset_raft_adapter_set_publisher_v1
    (adapter : option mesh_flow_ruleset_raft_adapter) (require : option require_fn)
    (publish : option publish_fn) (publisher_context : option C) :
    turbo_code * option mesh_flow_ruleset_raft_adapter :=
  match adapter, require, publish, publisher_context with
  | Some a, Some _, Some _, Some _ =>
      if negb (fa_open a) || bool_decide (is_Some (fa_require a)) ||
         bool_decide (is_Some (fa_publish a))
      then (TURBO_EINVAL, adapter)
      else (TURBO_OK,
            Some (mk_fadapter (fa_store a) (fa_service a) require publish publisher_context
                    (fa_published_index a) (fa_publish_pending a) (fa_open a)))
  | _, _, _, _ => (TURBO_EINVAL, adapter)
  end.

(** A pending publication always has a publisher, so the NULL call of the last
    branch is never reached (see [pending_has_publisher]). *)
Definition mesh_flow_ruleset_raft_adapter_poll_publish_v1
    (adapter : option mesh_flow_ruleset_raft_adapter) (out_published : option Z) :
    turbo_code * option mesh_flow_ruleset_raft_adapter * option Z :=
  let out_published := assign out_published 0 in
  match adapter, out_published with
  | Some a, Some _ =>
      if negb (fa_open a) then (TURBO_EINVAL, adapter, out_published)
      else if negb (fa_publish_pending a) then (TURBO_OK, adapter, out_published)
      else
        match fa_publish a with
        | Some publish =>
            let '(result, a) := call_publish publish a in
            if negb (bool_decide (result = TURBO_OK)) then (result, Some a, out_published)
            else (TURBO_OK,
                  Some (a |> set_fa_published (fs_applied_index (fa_active a))
                          |> set_fa_pending false), assign out_published 1)
        | None => (TURBO_EINVAL, adapter, out_published)
        end
  | _, _ => (TURBO_EINVAL, adapter, out_published)
  end.

(** ** Proposing a snapshot *)

Section Propose.
(** [tr_raft_service_propose_with_receipt]: its answer to (service, command id, bytes). *)
Context (propose : Z → Z → bytes → turbo_code).

(** The result and the proposals the service admitted. *)
Definition propose_command (adapter : mesh_flow_ruleset_raft_adapter) (command_id : Z)
    (command : mesh_flow_ruleset_raft_command) : turbo_code * list (Z * bytes) :=
  match mesh_flow_ruleset_raft_encode_v1 (Some command)
          (Some (zeros (Z.to_nat MESH_FLOW_RULESET_RAFT_MAX_COMMAND_SIZE))) (Some 0) with
  | (MESH_FLOW_RULESET_OK, output, size) =>
      let data := take (Z.to_nat (deref 0 size)) (deref [] output) in
      match propose (deref 0 (fa_service adapter)) command_id data with
      | TURBO_OK => (TURBO_OK, [(command_id, data)])
      | code => (code, [])
      end
  | (result, _, _) => (map_ruleset_result result, [])
  end.

(** The CHUNK command for the rules at [offset]. *)
Definition chunk_command (policy_epoch : Z) (rules : list mesh_flow_rule)
    (rule_count offset chunk_count : Z) : mesh_flow_ruleset_raft_command :=
  mk_fcommand MESH_FLOW_RULESET_RAFT_CHUNK policy_epoch (wrap 16 rule_count) (wrap 16 offset) 0
    (copy_rules zero_rules 0 (take (Z.to_nat chunk_count) (drop (Z.to_nat offset) rules)))
    chunk_count.

(** The [while (offset < rule_count)] loop; [None] when [fuel] runs out. *)
Fixpoint propose_chunks (fuel : nat) (adapter : mesh_flow_ruleset_raft_adapter)
    (first_command_id policy_epoch : Z) (rules : list mesh_flow_rule)
    (rule_count offset submitted : Z) (sent : list (Z * bytes)) :
    option (turbo_code * Z * list (Z * bytes)) :=
  if negb (offset <? rule_count) then Some (TURBO_OK, submitted, sent)
  else
    match fuel with
    | O => None
    | S fuel' =>
        let chunk_count :=
          if MESH_FLOW_RULESET_RAFT_MAX_CHUNK_RULES <? rule_count - offset
          then MESH_FLOW_RULESET_RAFT_MAX_CHUNK_RULES else rule_count - offset in
        match propose_command adapter (wrap 64 (first_command_id + submitted))
                (chunk_command policy_epoch rules rule_count offset chunk_count) with
        | (TURBO_OK, log) =>
            propose_chunks fuel' adapter first_command_id policy_epoch rules rule_count
              (offset + chunk_count) (submitted + 1) (sent ++ log)
        | (result, log) => Some (result, submitted, sent ++ log)
        end
    end.

(** The code, the proposals admitted in order, and [*out_submitted]. *)
Definition mesh_flow_ruleset_raft_propose_snapshot_v1
    (adapter : option mesh_flow_ruleset_raft_adapter)
    (first_command_id policy_epoch default_action : Z) (rules : option (list mesh_flow_rule))
    (rule_count : Z) (receipts : bool) (receipt_capacity : Z) (out_submitted : option Z) :
    option (turbo_code * list (Z * bytes) * option Z) :=
  let out_submitted := assign out_submitted 0 in
  let required_receipts :=
    2 + wrap 64 (rule_count + MESH_FLOW_RULESET_RAFT_MAX_CHUNK_RULES - 1) /
        MESH_FLOW_RULESET_RAFT_MAX_CHUNK_RULES in
  match adapter with
  | Some a =>
      if negb (fa_open a) || negb (bool_decide (is_Some (fa_service a))) ||
         (first_command_id =? 0) || (policy_epoch =? 0) ||
         (MESH_FLOW_RULESET_MAX_RULES <? rule_count) ||
         (negb (rule_count =? 0) && negb (bool_decide (is_Some rules))) || negb receipts ||
         negb (bool_decide (is_Some out_submitted)) ||
         (MESH_FLOW_RULESET_RAFT_MAX_TRANSACTION_ENTRIES <? required_receipts) ||
         (receipt_capacity <? required_receipts) ||
         (UINT64_MAX - (required_receipts - 1) <? first_command_id)
      then Some (TURBO_EINVAL, [], out_submitted)
      else
        let begin := mk_fcommand MESH_FLOW_RULESET_RAFT_BEGIN policy_epoch (wrap 16 rule_count) 0
                       default_action zero_rules 0 in
        match propose_command a first_command_id begin with
        | (TURBO_OK, log) =>
            match propose_chunks (Z.to_nat rule_count) a first_command_id policy_epoch
                    (deref [] rules) rule_count 0 1 log with
            | None => None
            | Some (TURBO_OK, submitted, sent) =>
                let commit := mk_fcommand MESH_FLOW_RULESET_RAFT_COMMIT policy_epoch
                                (wrap 16 rule_count) (wrap 16 rule_count) 0 zero_rules 0 in
                match propose_command a (wrap 64 (first_command_id + submitted)) commit with
                | (TURBO_OK, log) =>
                    Some (TURBO_OK, sent ++ log, assign out_submitted (submitted + 1))
                | (result, log) => Some (result, sent ++ log, assign out_submitted submitted)
                end
            | Some (result, submitted, sent) =>
                Some (result, sent, assign out_submitted submitted)
            end
        | (result, log) => Some (result, log, out_submitted)
        end
  | None => Some (TURBO_EINVAL, [], out_submitted)
  end.

End Propose.
End Adapter.

#[global] Arguments mesh_flow_ruleset_raft_adapter : clear implicits.
#[global] Arguments require_fn : clear implicits.
#[global] Arguments publish_fn : clear implicits.

(** ** The store as a replicated machine *)

Definition flow_machine_apply (alloc : Z → bool) (st : mesh_flow_ruleset_raft_store)
    (en : raft_entry) : turbo_code * mesh_flow_ruleset_raft_store :=
  let '(r, o) :=
    mesh_flow_ruleset_raft_apply_v1 (alloc (re_index en)) (Some st) (re_index en)
      (Some (re_data en)) in
  (map_ruleset_result r, default st o).

Lemma map_ruleset_result_OK r : map_ruleset_result r = TURBO_OK ↔ r = MESH_FLOW_RULESET_OK.
Proof. by destruct r. Qed.

Lemma flow_machine_cases alloc st rs en c st' : fstore_ok st rs → entry_typed en →
  flow_machine_apply alloc st en = (c, st') →
  (c ≠ TURBO_OK ∧ st' = st) ∨
  (c = TURBO_OK ∧ fr_last_log_index st < re_index en ∧ fr_last_log_index st' = re_index en ∧
   ∃ rs', fstore_ok st' rs').
Proof.
  intros Hok [Hi Hu] H. unfold flow_machine_apply in H.
  destruct (mesh_flow_ruleset_raft_apply_v1 _ _ _ _) as [r o] eqn:E. injection H as <- <-.
  destruct (flow_apply_cases _ _ Hok _ _ _ _ _ Hi Hu E) as
    [[Hr ->]|(-> & Hlt & d & rs' & st2 & -> & Ht & _ & Hv & _ & Hs)].
  - left. split; [|done]. by rewrite map_ruleset_result_OK.
  - right. destruct (flow_step_ok _ _ Hok _ _ _ _ _ Hi Hlt Ht Hv Hs). simpl. eauto.
Qed.

#[export] Instance flow_machine (alloc : Z → bool) :
  ReplicatedMachine mesh_flow_ruleset_raft_store.
Proof.
  refine {| rm_inv st := ∃ rs, fstore_ok st rs;
            rm_applied := fr_last_log_index;
            rm_apply := flow_machine_apply alloc |}.
  - intros st en c st' [rs Hok] Hen H.
    destruct (flow_machine_cases _ _ _ _ _ _ Hok Hen H) as [[_ ->]|(_ & _ & _ & ?)]; eauto.
  - intros st en c st' [rs Hok] Hen H Hc.
    by destruct (flow_machine_cases _ _ _ _ _ _ Hok Hen H) as [[_ ->]|(? & _)].
  - intros st en st' [rs Hok] Hen H.
    by destruct (flow_machine_cases _ _ _ _ _ _ Hok Hen H) as [[? _]|(_ & ? & ? & _)].
Defined.

(** ** Delivering one snapshot *)

(** The transaction for [rules] in pieces of 15. *)
Fixpoint chunk_commands (fuel : nat) (epoch : Z) (rules : list mesh_flow_rule) (total offset : Z) :
    list mesh_flow_ruleset_raft_command :=
  if negb (offset <? total) then []
  else
    match fuel with
    | O => []
    | S fuel' =>
        let n := Z.min 15 (total - offset) in
        chunk_command epoch rules total offset n :: chunk_commands fuel' epoch rules total (offset + n)
    end.

Definition snapshot_commands (epoch action : Z) (rules : list mesh_flow_rule) :
    list mesh_flow_ruleset_raft_command :=
  let total := Z.of_nat (length rules) in
  [mk_fcommand MESH_FLOW_RULESET_RAFT_BEGIN epoch total 0 action zero_rules 0] ++
  chunk_commands (length rules) epoch rules total 0 ++
  [mk_fcommand MESH_FLOW_RULESET_RAFT_COMMIT epoch total total 0 zero_rules 0].

(** A snapshot that may be sent. *)
Record sendable (epoch action : Z) (rules : list mesh_flow_rule) : Prop := {
  sd_epoch : 0 < epoch < 2 ^ 64;
  sd_action : action_valid action = true;
  sd_size : Z.of_nat (length rules) <= 256;
  sd_rules : Forall (λ r, rule_valid r = true ∧ rule_typed r) rules;
  sd_ids : NoDup (r_rule_id <$> rules) }.
#[export] Instance sendable_dec epoch action rules : Decision (sendable epoch action rules).
Proof.
  refine (cast_if (decide ((0 < epoch < 2 ^ 64) ∧ action_valid action = true ∧
    Z.of_nat (length rules) <= 256 ∧ Forall (λ r, rule_valid r = true ∧ rule_typed r) rules ∧
    NoDup (r_rule_id <$> rules)))).
  - abstract (destruct_and!; by split).
  - abstract (intros []; naive_solver).
Defined.

Section Deliver.
Context (epoch action : Z) (rules : list mesh_flow_rule) (Hsd : sendable epoch action rules).
Let total : Z := Z.of_nat (length rules).

Lemma begin_valid :
  let c := mk_fcommand MESH_FLOW_RULESET_RAFT_BEGIN epoch total 0 action zero_rules 0 in
  fcommand_typed c ∧ slots_clear c ∧ command_valid (Some c) = true.
Proof.
  destruct Hsd as [He Ha Hs _ _]. fold total in Hs. assert (0 <= total) by (unfold total; lia).
  assert (0 <= action < 2).
  { revert Ha. unfold action_valid, MESH_FLOW_ACTION_DENY, MESH_FLOW_ACTION_ALLOW. lia. }
  split_and!; [unfold fcommand_typed, uint; cbn; split_and!; try done; try lia; evaluate|done|].
  unfold command_valid. cbn. rewrite Ha. change MESH_FLOW_RULESET_MAX_RULES with 256.
  by pass_guards.
Qed.

Lemma commit_valid :
  let c := mk_fcommand MESH_FLOW_RULESET_RAFT_COMMIT epoch total total 0 zero_rules 0 in
  fcommand_typed c ∧ slots_clear c ∧ command_valid (Some c) = true.
Proof.
  destruct Hsd as [He Ha Hs _ _]. fold total in Hs. assert (0 <= total) by (unfold total; lia).
  split_and!; [unfold fcommand_typed, uint; cbn; split_and!; try done; try lia; evaluate|done|].
  unfold command_valid. cbn. rewrite Z.eqb_refl. change MESH_FLOW_RULESET_MAX_RULES with 256.
  by pass_guards.
Qed.

Lemma chunk_rules_eq offset n : 0 <= offset → 0 < n <= 15 → offset + n <= total →
  let piece := take (Z.to_nat n) (drop (Z.to_nat offset) rules) in
  length piece = Z.to_nat n ∧
  f_rules (chunk_command epoch rules total offset n) = piece ++ drop (Z.to_nat n) zero_rules.
Proof.
  intros Ho Hn Hle. assert (Hl : length (take (Z.to_nat n) (drop (Z.to_nat offset) rules)) = Z.to_nat n).
  { rewrite length_take, length_drop. unfold total in Hle. lia. }
  split; [done|]. cbn [f_rules chunk_command]. unfold copy_rules. by rewrite Hl.
Qed.

Lemma chunk_valid offset n : 0 <= offset → 0 < n <= 15 → offset + n <= total →
  let c := chunk_command epoch rules total offset n in
  fcommand_typed c ∧ slots_clear c ∧ command_valid (Some c) = true.
Proof.
  intros Ho Hn Hle. destruct (chunk_rules_eq offset n Ho Hn Hle) as [Hl Hr].
  destruct Hsd as [He Ha Hs Hrl _]. fold total in Hs.
  assert (Hp : Forall (λ r, rule_valid r = true ∧ rule_typed r)
    (take (Z.to_nat n) (drop (Z.to_nat offset) rules))) by (by apply Forall_take, Forall_drop).
  cbv zeta. split_and!.
  - unfold fcommand_typed. rewrite Hr. cbn [chunk_command f_operation f_policy_epoch
      f_total_rule_count f_rule_offset f_default_action f_rule_count].
    rewrite length_app, length_drop, Hl. change (length zero_rules) with 15%nat.
    split_and!; try apply wrap_range; try (unfold uint; lia); [done|].
    apply Forall_app. split; [eapply Forall_impl; [exact Hp|]; by intros ? []|].
    apply Forall_drop, Forall_replicate. evaluate.
  - unfold slots_clear. rewrite Hr. cbn [chunk_command f_rule_count].
    by rewrite drop_app_length' by lia.
  - unfold command_valid. rewrite Hr. cbn [chunk_command f_operation f_policy_epoch
      f_total_rule_count f_rule_offset f_default_action f_rule_count].
    rewrite take_app_length' by lia. rewrite !(wrap_small 16), wrap_small by (unfold uint; lia).
    change MESH_FLOW_RULESET_MAX_RULES with 256.
    change MESH_FLOW_RULESET_RAFT_MAX_CHUNK_RULES with 15.
    change (MESH_FLOW_RULESET_RAFT_CHUNK =? MESH_FLOW_RULESET_RAFT_BEGIN) with false.
    change (MESH_FLOW_RULESET_RAFT_CHUNK =? MESH_FLOW_RULESET_RAFT_CHUNK) with true.
    cbv iota. replace ((epoch =? 0) || (256 <? total)) with false by lia.
    replace ((n =? 0) || (15 <? n) || negb (0 =? 0) || (total <? offset + n)) with false by lia.
    apply forallb_Forall_true. eapply Forall_impl; [exact Hp|]. by intros ? [].
Qed.

(** The store is collecting this snapshot and holds its rules [pre]. *)
Record collecting (st : mesh_flow_ruleset_raft_store) (rs : mesh_flow_ruleset)
    (pre : list mesh_flow_rule) : Prop := {
  col_ok : fstore_ok st rs;
  col_staging : fr_staging st = true;
  col_epoch : fr_staging_epoch st = epoch;
  col_action : fr_staging_default_action st = action;
  col_expected : fr_expected_rule_count st = total;
  col_received : fr_received_rule_count st = Z.of_nat (length pre);
  col_rules : staged_rules st = pre }.

Lemma guard_passes st rs idx : fstore_ok st rs → fr_last_log_index st < idx →
  negb (fr_open st) || (idx =? 0) || (idx <=? fr_last_log_index st) = false.
Proof.
  intros Hok Hlt. rewrite (fok_open _ _ Hok). cbn [negb orb].
  pose proof (fok_index _ _ Hok). pose proof (rok_applied _ (fok_ruleset _ _ Hok)). lia.
Qed.

Lemma apply_begin alloc st rs idx : fstore_ok st rs → u64 idx → fr_last_log_index st < idx →
  fs_policy_epoch rs < epoch → (fr_staging st = true → fr_staging_epoch st < epoch) →
  total <= fr_capacity st →
  ∃ st', flow_machine_apply alloc st (mk_raft_entry idx (encode_fcommand
           (mk_fcommand MESH_FLOW_RULESET_RAFT_BEGIN epoch total 0 action zero_rules 0))) =
         (TURBO_OK, st') ∧ fr_last_log_index st' = idx ∧ collecting st' rs [].
Proof.
  intros Hok Hi Hlt He Hst Hcap. destruct begin_valid as (Ht & Hc & Hv).
  unfold flow_machine_apply, mesh_flow_ruleset_raft_apply_v1. cbn [re_index re_data].
  rewrite decode_encode_fcommand by done. rewrite (guard_passes _ _ _ Hok Hlt).
  cbn [deref f_operation f_total_rule_count f_policy_epoch f_default_action].
  rewrite Z.eqb_refl, (fok_active _ _ Hok). cbn [deref].
  assert (E : fr_staging st && (epoch <=? fr_staging_epoch st) = false).
  { destruct (fr_staging st); [|done]. specialize (Hst eq_refl). cbn. lia. }
  rewrite E. pass_guards. eexists. split; [reflexivity|]. cbn [default]. split; [done|].
  pose proof (step_begin (alloc idx) rs st idx
    (mk_fcommand MESH_FLOW_RULESET_RAFT_BEGIN epoch total 0 action zero_rules 0)
    eq_refl Hcap He Hst) as Hs.
  pose proof (flow_step_ok st rs Hok (alloc idx) idx _ rs _ Hi Hlt Ht Hv Hs) as [Hok' _].
  rewrite (fok_open _ _ Hok). by split.
Qed.

Lemma apply_chunk alloc st rs idx offset n :
  0 <= offset → 0 < n <= 15 → offset + n <= total →
  collecting st rs (take (Z.to_nat offset) rules) → u64 idx → fr_last_log_index st < idx →
  ∃ st', flow_machine_apply alloc st (mk_raft_entry idx (encode_fcommand
           (chunk_command epoch rules total offset n))) = (TURBO_OK, st') ∧
         fr_last_log_index st' = idx ∧ collecting st' rs (take (Z.to_nat (offset + n)) rules).
Proof.
  intros Ho Hn Hle [Hok Hst He Ha Hx Hr Hrl] Hi Hlt.
  destruct (chunk_valid offset n Ho Hn Hle) as (Ht & Hc & Hv).
  destruct (chunk_rules_eq offset n Ho Hn Hle) as [Hpl Hpr].
  pose proof (sd_size _ _ _ Hsd) as Hsz. fold total in Hsz.
  assert (Hlp : length (take (Z.to_nat offset) rules) = Z.to_nat offset).
  { rewrite length_take. unfold total in Hle. lia. }
  unfold flow_machine_apply, mesh_flow_ruleset_raft_apply_v1. cbn [re_index re_data].
  rewrite decode_encode_fcommand by done. rewrite (guard_passes _ _ _ Hok Hlt).
  cbn [deref]. rewrite Hpr. cbn [chunk_command f_operation f_total_rule_count f_policy_epoch
    f_rule_offset f_rule_count].
  rewrite Hst, He, Hx, Hr, Hlp, !(wrap_small 16), (wrap_small 64), !Z.eqb_refl by (unfold uint; lia).
  change (MESH_FLOW_RULESET_RAFT_CHUNK =? MESH_FLOW_RULESET_RAFT_BEGIN) with false.
  rewrite Z2Nat.id, Z.eqb_refl by lia. cbn [negb orb]. cbv iota.
  eexists. split; [reflexivity|]. cbn [default]. split; [done|].
  pose proof (step_chunk (alloc idx) rs st idx (chunk_command epoch rules total offset n)
    eq_refl Hst) as Hs. rewrite Hpr in Hs. cbn [chunk_command f_policy_epoch f_total_rule_count
    f_rule_offset f_rule_count] in Hs.
  rewrite !(wrap_small 16), He, Hx, Hr, Hlp, Z2Nat.id in Hs by (unfold uint; lia).
  specialize (Hs eq_refl eq_refl eq_refl).
  pose proof (flow_step_ok st rs Hok (alloc idx) idx _ rs _ Hi Hlt Ht Hv Hs) as [Hok' _].
  rewrite (fok_active _ _ Hok), (fok_open _ _ Hok). unfold id. split; try done.
  - cbn. rewrite length_take. unfold total in Hle. lia.
  - pose proof (fok_staging _ _ Hok Hst) as Hstg. pose proof (stg_room _ _ Hstg).
    pose proof (fok_length _ _ Hok).
    unfold staged_rules. cbn [fr_received_rule_count fr_staging_rules].
    rewrite take_app_length' by lia.
    destruct (copy_rules_take (fr_staging_rules st) (Z.to_nat offset)
      (take (Z.to_nat n) (drop (Z.to_nat offset) rules))) as [Hcp _]; [lia|].
    rewrite Hpl in Hcp. rewrite Z2Nat.inj_add, Hcp by lia.
    rewrite <- (take_take_drop rules). f_equal.
    rewrite <- Hrl. unfold staged_rules. by rewrite Hr, Hlp, Nat2Z.id.
Qed.

Lemma apply_commit alloc st rs idx : collecting st rs rules → u64 idx →
  fr_last_log_index st < idx → alloc idx = true →
  ∃ st' rs', flow_machine_apply alloc st (mk_raft_entry idx (encode_fcommand
      (mk_fcommand MESH_FLOW_RULESET_RAFT_COMMIT epoch total total 0 zero_rules 0))) =
    (TURBO_OK, st') ∧ fr_last_log_index st' = idx ∧ fstore_ok st' rs' ∧ fr_staging st' = false ∧
    live_rules rs' = rules ∧ fs_policy_epoch rs' = epoch ∧ fs_default_action rs' = action ∧
    fs_applied_index rs' = idx ∧ fs_capacity rs' = fs_capacity rs.
Proof.
  intros [Hok Hst He Ha Hx Hr Hrl] Hi Hlt Hal. destruct commit_valid as (Ht & Hc & Hv).
  unfold flow_machine_apply, mesh_flow_ruleset_raft_apply_v1. cbn [re_index re_data].
  rewrite decode_encode_fcommand by done. rewrite (guard_passes _ _ _ Hok Hlt).
  cbn [deref f_operation f_total_rule_count f_policy_epoch f_rule_offset f_rule_count].
  change (MESH_FLOW_RULESET_RAFT_COMMIT =? MESH_FLOW_RULESET_RAFT_BEGIN) with false.
  change (MESH_FLOW_RULESET_RAFT_COMMIT =? MESH_FLOW_RULESET_RAFT_CHUNK) with false. cbv iota.
  assert (Hfull : fr_received_rule_count st = fr_expected_rule_count st) by (rewrite Hr, Hx; done).
  rewrite Hst, Hfull, He, Hx, !Z.eqb_refl. cbn [negb orb]. cbv iota.
  destruct (commit_result st rs Hok (alloc idx) idx Hst Hfull Hi Hlt) as
    [(_ & Hnd & rs' & E & Hok' & Hlive & Hrs)|([Hno|Hno] & _)];
    [|congruence|rewrite Hrl in Hno; by apply sd_ids in Hsd].
  rewrite He, Hx in E. rewrite (fok_active _ _ Hok), E. eexists _, rs'. split; [reflexivity|].
  assert (Hco : f_operation (mk_fcommand MESH_FLOW_RULESET_RAFT_COMMIT epoch total total 0
    zero_rules 0) = MESH_FLOW_RULESET_RAFT_COMMIT) by done.
  pose proof (step_commit (alloc idx) rs st idx _ rs' Hco Hst (eq_sym He) (eq_sym Hx) Hfull Hnd Hal
    Hok' Hlive Hrs) as Hs.
  pose proof (flow_step_ok st rs Hok (alloc idx) idx _ rs' _ Hi Hlt Ht Hv Hs) as [Hok2 _].
  rewrite (fok_open _ _ Hok). cbn [default]. unfold id. rewrite He in Hok2.
  split_and!; try done; rewrite ?Hlive; try done; rewrite Hrs; cbn; congruence.
Qed.

(** The CHUNK part, from any offset. *)
Lemma deliver_chunks alloc fuel : ∀ offset st rs es,
  0 <= offset <= total → total - offset <= Z.of_nat fuel →
  collecting st rs (take (Z.to_nat offset) rules) →
  Forall2 (λ c en, re_data en = encode_fcommand c)
    (chunk_commands fuel epoch rules total offset) es →
  Forall (λ en, u64 (re_index en)) es → increasing (fr_last_log_index st) es →
  ∃ st', @run_batch _ (flow_machine alloc) st es = (TURBO_OK, st') ∧ collecting st' rs rules ∧
    fr_last_log_index st' = from_option re_index (fr_last_log_index st) (last es).
Proof.
  induction fuel as [|fuel IH]; intros offset st rs es Ho Hf Hcol H2 Hu Hinc.
  - assert (offset = total) as -> by lia. cbn [chunk_commands] in H2. rewrite Z.ltb_irrefl in H2.
    apply Forall2_nil_inv_l in H2 as ->. exists st. split_and!; try done.
    unfold total in Hcol. by rewrite Nat2Z.id, firstn_all in Hcol.
  - cbn [chunk_commands] in H2. destruct (Z.ltb_spec offset total) as [Hlt|].
    + cbn [negb] in H2. set (n := Z.min 15 (total - offset)) in *.
      apply Forall2_cons_inv_l in H2 as (en & es' & He & H2 & ->).
      apply Forall_cons in Hu as [Hu1 Hu]. destruct Hinc as [Hi1 Hinc].
      destruct (apply_chunk alloc st rs (re_index en) offset n) as (st1 & E & Hidx & Hcol1);
        try done; try (unfold n; lia).
      rewrite <- He in E. cbn [run_batch].
      replace (rm_apply st en) with (TURBO_OK, st1) by (rewrite <- E; by destruct en).
      rewrite <- Hidx in Hinc.
      destruct (IH (offset + n) st1 rs es') as (st2 & E2 & Hcol2 & Hidx2); try done; try (unfold n; lia).
      exists st2. split_and!; try done. rewrite Hidx2, Hidx, last_cons. by destruct (last es').
    + assert (offset = total) as -> by lia. cbn [negb] in H2. apply Forall2_nil_inv_l in H2 as ->.
      exists st. split_and!; try done. unfold total in Hcol. by rewrite Nat2Z.id, firstn_all in Hcol.
Qed.

(** The whole transaction. *)
Lemma deliver_snapshot alloc st rs es : fstore_ok st rs →
  fs_policy_epoch rs < epoch → (fr_staging st = true → fr_staging_epoch st < epoch) →
  total <= fr_capacity st → (∀ idx, alloc idx = true) →
  Forall2 (λ c en, re_data en = encode_fcommand c) (snapshot_commands epoch action rules) es →
  Forall (λ en, u64 (re_index en)) es → increasing (fr_last_log_index st) es →
  ∃ st' rs', @run_batch _ (flow_machine alloc) st es = (TURBO_OK, st') ∧ fstore_ok st' rs' ∧
    fr_staging st' = false ∧ live_rules rs' = rules ∧ fs_policy_epoch rs' = epoch ∧
    fs_default_action rs' = action ∧ Some (fs_applied_index rs') = re_index <$> last es.
Proof.
  intros Hok He Hst Hcap Hal H2 Hu Hinc. unfold snapshot_commands in H2. cbn [app] in H2.
  apply Forall2_cons_inv_l in H2 as (en0 & es0 & H0 & H2 & ->).
  apply Forall2_app_inv_l in H2 as (es1 & es2 & H1 & H2 & ->).
  apply Forall2_cons_inv_l in H2 as (en2 & es3 & H3 & H2 & ->).
  apply Forall2_nil_inv_l in H2 as ->.
  apply Forall_cons in Hu as [Hu0 Hu]. apply Forall_app in Hu as [Hu1 Hu2].
  apply Forall_cons in Hu2 as [Hu2 _]. destruct Hinc as [Hi0 Hinc].
  destruct (apply_begin alloc st rs (re_index en0)) as (st0 & E0 & Hx0 & Hc0); try done.
  fold total in H0, H1, H3. rewrite <- H0 in E0. cbn [run_batch].
  replace (rm_apply st en0) with (TURBO_OK, st0) by (rewrite <- E0; by destruct en0).
  rewrite <- Hx0 in Hinc. apply increasing_app in Hinc as [Hinc1 [Hinc2 _]].
  destruct (deliver_chunks alloc (length rules) 0 st0 rs es1) as (st1 & E1 & Hc1 & Hx1);
    try done; try (unfold total; lia).
  rewrite run_batch_app, E1. cbn [run_batch]. rewrite <- Hx1 in Hinc2.
  destruct (apply_commit alloc st1 rs (re_index en2)) as
    (st2 & rs2 & E2 & Hx2 & Hok2 & Hst2 & Hl2 & He2 & Ha2 & Hi2 & _); try done.
  rewrite <- H3 in E2.
  replace (rm_apply st1 en2) with (TURBO_OK, st2) by (rewrite <- E2; by destruct en2).
  exists st2, rs2. split_and!; try done. rewrite last_cons, last_snoc. cbn. by rewrite Hi2.
Qed.

End Deliver.

(** ** The sender *)

Section Sender.
Context {C : Type} (propose : Z → Z → bytes → turbo_code).
Implicit Types a : mesh_flow_ruleset_raft_adapter C.

Lemma propose_command_sends a id c : fcommand_typed c → command_valid (Some c) = true →
  propose_command propose a id c =
  match propose (deref 0 (fa_service a)) id (encode_fcommand c) with
  | TURBO_OK => (TURBO_OK, [(id, encode_fcommand c)])
  | code => (code, [])
  end.
Proof.
  intros Ht Hv. pose proof (command_valid_bounds c Ht Hv) as (Hn & _).
  pose proof (len_encode_fcommand c Ht Hv) as He. unfold len in He.
  unfold propose_command, mesh_flow_ruleset_raft_encode_v1. rewrite Hv. cbn [deref].
  change (len (zeros (Z.to_nat MESH_FLOW_RULESET_RAFT_MAX_COMMAND_SIZE))) with 504.
  change MESH_FLOW_RULESET_RAFT_HEADER_SIZE with 24.
  change MESH_FLOW_RULESET_RAFT_RULE_SIZE with 32.
  change ((SIZE_MAX - 24) / 32) with 576460752303423487.
  destruct (Z.ltb_spec 576460752303423487 (f_rule_count c)); [lia|].
  destruct (Z.ltb_spec 504 (24 + f_rule_count c * 32)); [lia|]. cbn -[encode_fcommand blit take].
  assert (Hb : take (Z.to_nat (24 + f_rule_count c * 32))
    (blit (zeros (Z.to_nat MESH_FLOW_RULESET_RAFT_MAX_COMMAND_SIZE)) 0 (encode_fcommand c)) =
    encode_fcommand c).
  { unfold blit. rewrite take_0, app_nil_l. apply take_app_length'. lia. }
  by rewrite Hb.
Qed.

(** The loop always finishes: each round advances by at least one rule. *)
Lemma propose_chunks_total fuel a first epoch rules total : ∀ offset submitted sent,
  total - offset <= Z.of_nat fuel →
  is_Some (propose_chunks propose fuel a first epoch rules total offset submitted sent).
Proof.
  induction fuel as [|fuel IH]; intros offset submitted sent Hf; cbn [propose_chunks].
  - destruct (Z.ltb_spec offset total); [lia|done].
  - destruct (Z.ltb_spec offset total); cbn [negb]; [|done].
    destruct (propose_command _ _ _ _) as [[] log]; try done. apply IH.
    change MESH_FLOW_RULESET_RAFT_MAX_CHUNK_RULES with 15. case_match; bool_prop; lia.
Qed.

Context (epoch action : Z) (rules : list mesh_flow_rule) (Hsd : sendable epoch action rules).
Context (accepts : ∀ s id data, propose s id data = TURBO_OK).
Let total : Z := Z.of_nat (length rules).

Lemma propose_chunks_sends fuel a first : ∀ offset submitted sent,
  0 <= offset <= total → total - offset <= Z.of_nat fuel →
  ∃ ids, propose_chunks propose fuel a first epoch rules total offset submitted sent =
    Some (TURBO_OK, submitted + Z.of_nat (length ids),
          sent ++ zip ids (encode_fcommand <$> chunk_commands fuel epoch rules total offset)) ∧
    length ids = length (chunk_commands fuel epoch rules total offset).
Proof.
  induction fuel as [|fuel IH]; intros offset submitted sent Ho Hf;
    cbn [propose_chunks chunk_commands].
  - assert (offset = total) as -> by lia. rewrite Z.ltb_irrefl. exists []. cbn.
    by rewrite app_nil_r, Z.add_0_r.
  - destruct (Z.ltb_spec offset total) as [Hlt|]; cbn [negb].
    2:{ exists []. cbn. by rewrite app_nil_r, Z.add_0_r. }
    change MESH_FLOW_RULESET_RAFT_MAX_CHUNK_RULES with 15.
    replace (if 15 <? total - offset then 15 else total - offset) with (Z.min 15 (total - offset))
      by (case_match; bool_prop; lia).
    set (n := Z.min 15 (total - offset)).
    destruct (chunk_valid epoch action rules Hsd offset n) as (Ht & _ & Hv);
      [lia|unfold n; lia|fold total; unfold n; lia|]. fold total in Ht, Hv.
    rewrite propose_command_sends, accepts by done. cbv iota.
    destruct (IH (offset + n) (submitted + 1)
      (sent ++ [(wrap 64 (first + submitted), encode_fcommand (chunk_command epoch rules total offset n))]))
      as (ids & -> & Hl); [unfold n; lia|unfold n; lia|].
    exists (wrap 64 (first + submitted) :: ids). split; [|cbn; by rewrite Hl].
    cbn [length zip fmap list_fmap zip_with]. rewrite <- app_assoc. cbn [app].
    do 3 f_equal. lia.
Qed.

Lemma propose_snapshot_sends a first cap n0 :
  fa_open a = true → is_Some (fa_service a) → 0 < first → first + 19 < 2 ^ 64 → 20 <= cap →
  ∃ log, mesh_flow_ruleset_raft_propose_snapshot_v1 propose (Some a) first epoch action
           (Some rules) total true cap (Some n0) =
         Some (TURBO_OK, log, Some (Z.of_nat (length log))) ∧
         log.*2 = encode_fcommand <$> snapshot_commands epoch action rules.
Proof.
  intros Hop Hsv Hf1 Hf2 Hcap. pose proof (sd_epoch _ _ _ Hsd). pose proof (sd_size _ _ _ Hsd) as Hsz.
  fold total in Hsz. assert (0 <= total) by (unfold total; lia).
  assert (Hreq : 2 <= 2 + (total + 15 - 1) / 15 <= 20).
  { pose proof (Z.div_le_mono (total + 15 - 1) 270 15). pose proof (Z.div_pos (total + 15 - 1) 15).
    change (270 / 15) with 18 in *. lia. }
  unfold mesh_flow_ruleset_raft_propose_snapshot_v1. rewrite Hop.
  rewrite (bool_decide_eq_true_2 _ Hsv), andb_false_r. cbn [assign fmap option_fmap option_map].
  change MESH_FLOW_RULESET_RAFT_MAX_CHUNK_RULES with 15. change MESH_FLOW_RULESET_MAX_RULES with 256.
  change MESH_FLOW_RULESET_RAFT_MAX_TRANSACTION_ENTRIES with 20.
  rewrite (wrap_small 64 (total + 15 - 1)), !(wrap_small 16 total) by (unfold uint; lia).
  change (negb (bool_decide (is_Some (Some 0)))) with false. change (negb true) with false.
  rewrite !orb_false_r. cbn [orb]. unfold UINT64_MAX.
  match goal with |- context [if ?b then _ else _] => replace b with false by (symmetry; lia) end.
  destruct (begin_valid epoch action rules Hsd) as (Ht & _ & Hv). fold total in Ht, Hv.
  rewrite propose_command_sends, accepts by done. cbv iota. cbn [deref].
  destruct (propose_chunks_sends (Z.to_nat total) a first 0 1
    [(first, encode_fcommand (mk_fcommand MESH_FLOW_RULESET_RAFT_BEGIN epoch total 0 action zero_rules 0))])
    as (ids & -> & Hl); [lia|lia|].
  destruct (commit_valid epoch action rules Hsd) as (Ht2 & _ & Hv2). fold total in Ht2, Hv2.
  rewrite propose_command_sends, accepts by done. cbv iota.
  eexists. split.
  - do 3 f_equal. cbn [assign fmap option_fmap option_map]. f_equal.
    rewrite !length_app, length_zip, length_fmap, Hl. cbn. lia.
  - unfold snapshot_commands. fold total.
    rewrite !fmap_app, snd_zip by (rewrite length_fmap; lia). rewrite <- app_assoc.
    assert (Hn : Z.to_nat total = length rules) by apply Nat2Z.id. by rewrite Hn.
Qed.

End Sender.

(** ** The batch callback *)

Section Hooks.
Context {C : Type} (alloc : Z → bool).
Implicit Types a : mesh_flow_ruleset_raft_adapter C.

(** The require hook lets every COMMIT pass. *)
Definition require_passes a : Prop :=
  ∀ f, fa_require a = Some f → ∀ ctx idx, (f ctx idx).1 = TURBO_OK.

(** The published snapshot is the active one, or a publication is pending. *)
Definition publication_ok a : Prop :=
  fa_publish_pending a = true ∨ fa_published_index a = fs_applied_index (fa_active a).

Lemma flow_raft_apply_Some alloc_ok st idx data :
  ∃ r st', mesh_flow_ruleset_raft_apply_v1 alloc_ok (Some st) idx data = (r, Some st').
Proof. unfold mesh_flow_ruleset_raft_apply_v1. repeat case_match; eauto. Qed.

Lemma decode_error inp c0 r o :
  mesh_flow_ruleset_raft_decode_v1 (Some inp) c0 = (r, o) →
  r = MESH_FLOW_RULESET_OK ∨ r = MESH_FLOW_RULESET_INVALID_ARG.
Proof.
  unfold mesh_flow_ruleset_raft_decode_v1. intros H. repeat (step_in H; try done); simplify_eq; auto.
Qed.

(** An entry leaves the service, the hooks and the open flag alone. *)
Lemma apply_entry_shape a st en c a' : fa_store a = Some st → apply_entry alloc a en = (c, a') →
  ∃ st' ctx index pending,
    a' = mk_fadapter (Some st') (fa_service a) (fa_require a) (fa_publish a) ctx index pending
           (fa_open a).
Proof.
  destruct a as [s0 sv rq pb cx ix pe op]. cbn [fa_store]. intros -> H.
  unfold apply_entry, call_publish in H. cbn [fa_require fa_publisher_context] in H.
  destruct (mesh_flow_ruleset_raft_decode_v1 _ _) as [d o].
  destruct d; [|injection H as <- <-; by eexists _, _, _, _..].
  set (cb := match rq with Some _ => _ | None => _ end) in H.
  assert (Hcb : ∃ ctx, cb.2 = mk_fadapter (Some st) sv rq pb ctx ix pe op).
  { subst cb. destruct rq as [f|]; [|by eexists]. destruct (_ =? _); [|by eexists].
    destruct (f _ _) as [r0 ctx]. by eexists. }
  destruct Hcb as [ctx Hctx]. destruct cb as [r0 a1]. cbn [snd] in Hctx. subst a1.
  cbn [fa_store] in H.
  destruct (flow_raft_apply_Some (alloc (re_index en)) st (re_index en) (Some (re_data en)))
    as (r & st' & E). rewrite E in H. cbn [fa_publish set_fa_store fa_publisher_context] in H.
  destruct (bool_decide (r0 = TURBO_OK)); [|injection H as <- <-; by eexists _, _, _, _].
  destruct (bool_decide (r = MESH_FLOW_RULESET_OK)); [|injection H as <- <-; by eexists _, _, _, _].
  destruct pb as [p|]; [|injection H as <- <-; by eexists _, _, _, _].
  destruct (_ =? _); [|injection H as <- <-; by eexists _, _, _, _].
  destruct (p _ _) as [r1 ctx1].
  destruct (bool_decide (r1 = TURBO_OK)); injection H as <- <-; by eexists _, _, _, _.
Qed.

(** What one entry does to the adapter, besides the hooks' own context. *)
Lemma apply_entry_frame a st en c a' : fa_store a = Some st → require_passes a →
  apply_entry alloc a en = (c, a') →
  c = (flow_machine_apply alloc st en).1 ∧
  fa_store a' = Some (flow_machine_apply alloc st en).2 ∧
  fa_require a' = fa_require a ∧ fa_publish a' = fa_publish a.
Proof.
  intros Hst Hreq H. unfold apply_entry in H. unfold flow_machine_apply.
  destruct (flow_raft_apply_Some (alloc (re_index en)) st (re_index en) (Some (re_data en)))
    as (r & st' & E).
  destruct (mesh_flow_ruleset_raft_decode_v1 (Some (re_data en)) (Some zero_fcommand))
    as [d o] eqn:Ed.
  destruct (decode_error _ _ _ _ Ed) as [->| ->]; cbv iota beta in H.
  2:{ simplify_eq. unfold mesh_flow_ruleset_raft_apply_v1 in *. rewrite Ed in *. by case_match. }
  set (commit := f_operation _ =? _) in H.
  assert (Hcb : ∃ a1, match fa_require a with
      | Some require => if commit then
          let '(r, ctx) := require (fa_publisher_context a) (re_index en) in
          (r, set_fa_context ctx a) else (TURBO_OK, a)
      | None => (TURBO_OK, a) end = (TURBO_OK, a1) ∧ fa_store a1 = Some st ∧
      fa_require a1 = fa_require a ∧ fa_publish a1 = fa_publish a).
  { destruct (fa_require a) as [f|] eqn:Ef; [|by exists a]. destruct commit; [|by exists a].
    pose proof (Hreq f Ef (fa_publisher_context a) (re_index en)) as Hf.
    destruct (f _ _) as [r0 ctx]. cbn in Hf. subst r0. by eexists. }
  destruct Hcb as (a1 & Ecb & Hst1 & Hr1 & Hp1). rewrite Ecb in H. cbv iota beta in H.
  rewrite bool_decide_eq_true_2 in H by done. cbn [negb] in H. rewrite Hst1, E in H.
  rewrite E. cbn [fst snd default]. unfold id.
  destruct (decide (r = MESH_FLOW_RULESET_OK)) as [->|Hr].
  - rewrite bool_decide_eq_true_2 in H by done. cbn [negb] in H. unfold call_publish in H.
    cbn [fa_publish set_fa_store] in H. rewrite Hp1 in H.
    destruct (fa_publish a) as [p|]; [|by simplify_eq].
    destruct commit; [|by simplify_eq]. destruct (p _ _) as [r1 ctx].
    case_bool_decide; by simplify_eq.
  - rewrite bool_decide_eq_false_2 in H by done. injection H as <- <-. by split_and!.
Qed.

Lemma run_batch_cons st en es :
  @run_batch _ (flow_machine alloc) st (en :: es) =
  match flow_machine_apply alloc st en with
  | (TURBO_OK, s') => @run_batch _ (flow_machine alloc) s' es
  | (c, s') => (c, s')
  end.
Proof. done. Qed.

(** The hooks do not influence the store. *)
Lemma apply_entries_store a st es : fa_store a = Some st → require_passes a →
  (apply_entries alloc a es).1 = (@run_batch _ (flow_machine alloc) st es).1 ∧
  fa_store (apply_entries alloc a es).2 = Some (@run_batch _ (flow_machine alloc) st es).2.
Proof.
  revert a st. induction es as [|en es IH]; intros a st Hst Hreq; [done|].
  rewrite run_batch_cons. cbn [apply_entries].
  destruct (apply_entry alloc a en) as [c a1] eqn:Ea.
  destruct (apply_entry_frame a st en c a1 Hst Hreq Ea) as (Hc & Hs & Hr & Hp).
  destruct (flow_machine_apply alloc st en) as [c' st1]. cbn [fst snd] in *. subst c'.
  destruct c; try done. apply IH; [done|]. unfold require_passes. by rewrite Hr.
Qed.

Lemma fa_active_store a st rs : fa_store a = Some st → fstore_ok st rs → fa_active a = rs.
Proof. intros Hs Hok. unfold fa_active. rewrite Hs. cbn. by rewrite (fok_active _ _ Hok). Qed.

End Hooks.

Section Publication.
Context {C : Type} (alloc : Z → bool).
Implicit Types a : mesh_flow_ruleset_raft_adapter C.

Lemma decoded_operation_known inp c0 o :
  mesh_flow_ruleset_raft_decode_v1 (Some inp) (Some c0) = (MESH_FLOW_RULESET_OK, o) →
  f_operation (deref zero_fcommand o) = at_ inp 5.
Proof.
  unfold mesh_flow_ruleset_raft_decode_v1. intros H. repeat (step_in H; try done). by simplify_eq.
Qed.

Lemma apply_entry_publication a st rs p en c a' : fa_store a = Some st → fstore_ok st rs →
  entry_typed en → fa_publish a = Some p → apply_entry alloc a en = (c, a') →
  (∃ st' rs', fa_store a' = Some st' ∧ fstore_ok st' rs') ∧ fa_publish a' = Some p ∧
  (publication_ok a ∨ (c = TURBO_OK ∧ at_ (re_data en) 5 = MESH_FLOW_RULESET_RAFT_COMMIT) →
   publication_ok a').
Proof.
  intros Hst Hok [Hi Hu] Hp H. unfold apply_entry in H.
  destruct (mesh_flow_ruleset_raft_decode_v1 (Some (re_data en)) (Some zero_fcommand))
    as [d o] eqn:Ed.
  destruct (decode_error _ _ _ _ Ed) as [->| ->]; cbv iota beta in H.
  2:{ simplify_eq. split_and!; [by eauto|done|]. by intros [?|[? _]]. }
  rewrite (decoded_operation_known _ _ _ Ed) in H.
  set (commit := at_ (re_data en) 5 =? _) in H.
  set (cb := match fa_require a with Some _ => _ | None => _ end) in H.
  assert (Hcb : ∃ ctx, cb.2 = set_fa_context ctx a).
  { subst cb. destruct (fa_require a) as [f|]; [|exists (fa_publisher_context a); by destruct a].
    destruct commit; [|exists (fa_publisher_context a); by destruct a].
    destruct (f _ _) as [r0 ctx]. by exists ctx. }
  destruct Hcb as [ctx Hctx]. destruct cb as [r0 a1]. cbn [snd] in Hctx. subst a1.
  case_bool_decide as Hr0; cbn [negb] in H.
  2:{ simplify_eq. split_and!; [by eauto|done|]. by intros [?|[? _]]. }
  cbn [fa_store set_fa_context] in H. rewrite Hst in H.
  destruct (mesh_flow_ruleset_raft_apply_v1 _ _ _ _) as [r o'] eqn:Er.
  destruct (flow_apply_effect _ _ _ _ _ _ _ Hok Hi Hu Er) as
    [[Hr ->]|(-> & st' & rs' & -> & Hok' & _ & _ & Hact)].
  - rewrite bool_decide_eq_false_2 in H by done. injection H as <- <-.
    split_and!; [by eauto|done|].
    intros [Hpub|[Hc _]]; [|by apply map_ruleset_result_OK in Hc].
    unfold publication_ok, fa_active in *. cbn. by rewrite Hst in Hpub.
  - rewrite bool_decide_eq_true_2 in H by done. cbn [negb] in H. unfold call_publish in H.
    cbn [fa_publish set_fa_store set_fa_context] in H. rewrite Hp in H.
    assert (Hold : fa_active a = rs) by (by eapply fa_active_store).
    destruct commit eqn:Ecm.
    + destruct (p _ _) as [r1 ctx1]. case_bool_decide as Hr1; simplify_eq;
        (split_and!; [by eauto|done|]); intros _; [by right|by left].
    + subst commit. bool_prop. simplify_eq. split_and!; [by eauto|done|].
      intros [Hpub|[_ ?]]; [|done]. destruct Hact as [->|[? _]]; [|done].
      unfold publication_ok in *. destruct Hpub as [?|Hpub]; [by left|right].
      unfold fa_active at 1. cbn. by rewrite (fok_active _ _ Hok').
Qed.

Lemma apply_entries_publication es : ∀ a st rs p c a', fa_store a = Some st → fstore_ok st rs →
  Forall entry_typed es → fa_publish a = Some p → apply_entries alloc a es = (c, a') →
  (publication_ok a ∨
   (c = TURBO_OK ∧ Exists (λ en, at_ (re_data en) 5 = MESH_FLOW_RULESET_RAFT_COMMIT) es)) →
  publication_ok a'.
Proof.
  induction es as [|en es IH]; intros a st rs p c a' Hst Hok Ht Hp H Hpre; cbn [apply_entries] in H.
  { simplify_eq. destruct Hpre as [?|[_ He]]; [done|by inversion He]. }
  apply Forall_cons in Ht as [Hen Ht]. destruct (apply_entry alloc a en) as [c1 a1] eqn:Ea.
  destruct (apply_entry_publication _ _ _ _ _ _ _ Hst Hok Hen Hp Ea) as
    ((st1 & rs1 & Hst1 & Hok1) & Hp1 & Hpub).
  destruct (decide (c1 = TURBO_OK)) as [->|Hc1].
  - eapply (IH a1); try done. destruct Hpre as [?|[Hc He]]; [left; by apply Hpub; left|].
    apply Exists_cons in He as [He|He]; [left; apply Hpub; by right|by right].
  - assert (E : (c1, a1) = (c, a')) by (by destruct c1). simplify_eq.
    apply Hpub. destruct Hpre as [?|[? _]]; [by left|done].
Qed.

(** A pending publication has a publisher to retry it. *)
Lemma pending_has_publisher a en c a' :
  (fa_publish_pending a = true → is_Some (fa_publish a)) → apply_entry alloc a en = (c, a') →
  (fa_publish_pending a' = true → is_Some (fa_publish a')).
Proof.
  intros Ha H. unfold apply_entry in H.
  destruct (mesh_flow_ruleset_raft_decode_v1 _ _) as [d o]. destruct d; try by simplify_eq.
  set (cb := match fa_require a with Some _ => _ | None => _ end) in H.
  assert (Hcb : ∃ ctx, cb.2 = set_fa_context ctx a).
  { subst cb. destruct (fa_require a) as [f|]; [|exists (fa_publisher_context a); by destruct a].
    destruct (_ =? _); [|exists (fa_publisher_context a); by destruct a].
    destruct (f _ _) as [r0 ctx]. by exists ctx. }
  destruct Hcb as [ctx Hctx]. destruct cb as [r0 a1]. cbn [snd] in Hctx. subst a1.
  unfold call_publish in H. cbn [fa_publish set_fa_store set_fa_context fa_store] in H.
  repeat (step_in H; try (by simplify_eq)); simplify_eq; cbn;
    try (match goal with E : fa_publish a = _ |- _ => by rewrite E end); try done.
  repeat case_match; simplify_eq. cbn. rewrite E3. by eexists.
Qed.

End Publication.

Lemma fmap_eq_Forall2 {A B D} (f : A → D) (g : B → D) (l : list A) (k : list B) :
  f <$> l = g <$> k → Forall2 (λ y x, f x = g y) k l.
Proof.
  revert k. induction l as [|x l IH]; intros [|y k]; try done. intros [= ??].
  constructor; [done|by apply IH].
Qed.

(** ** Theorems *)

(** C20: sending a snapshot and delivering its log entries installs it: when
    the service admits every proposal, the sender reports success and the
    admitted byte strings, applied in order at any increasing indices to any
    store with an older epoch and enough room, make the active ruleset exactly
    the given rules, in order, with the given epoch and default action. *)
Theorem flow_snapshot_installs {C : Type} (alloc : Z → bool)
    (propose : Z → Z → bytes → turbo_code) (a : mesh_flow_ruleset_raft_adapter C)
    (epoch action first cap n0 : Z) (rules : list mesh_flow_rule) :
  sendable epoch action rules → (∀ s id data, propose s id data = TURBO_OK) →
  (∀ idx, alloc idx = true) →
  fa_open a = true → is_Some (fa_service a) → 0 < first → first + 19 < 2 ^ 64 → 20 <= cap →
  ∃ log, mesh_flow_ruleset_raft_propose_snapshot_v1 propose (Some a) first epoch action
           (Some rules) (Z.of_nat (length rules)) true cap (Some n0) =
         Some (TURBO_OK, log, Some (Z.of_nat (length log))) ∧
    ∀ (b : mesh_flow_ruleset_raft_adapter C) (st : mesh_flow_ruleset_raft_store)
      (rs : mesh_flow_ruleset) (es : list raft_entry),
      fa_store b = Some st → fstore_ok st rs → require_passes b →
      fs_policy_epoch rs < epoch → (fr_staging st = true → fr_staging_epoch st < epoch) →
      Z.of_nat (length rules) <= fr_capacity st →
      re_data <$> es = log.*2 → Forall (λ en, u64 (re_index en)) es →
      increasing (fr_last_log_index st) es →
      ∃ b' st' rs', apply_entries alloc b es = (TURBO_OK, b') ∧ fa_store b' = Some st' ∧
        fstore_ok st' rs' ∧ fr_staging st' = false ∧ live_rules rs' = rules ∧
        fs_policy_epoch rs' = epoch ∧ fs_default_action rs' = action ∧
        Some (fs_applied_index rs') = re_index <$> last es.
Proof.
  intros Hsd Hprop Hal Hop Hsv Hf1 Hf2 Hcap.
  destruct (propose_snapshot_sends propose epoch action rules Hsd Hprop a first cap n0)
    as (log & E & Hlog); try done.
  exists log. split; [done|]. intros b st rs es Hst Hok Hreq He Hstg Hroom Hdata Hu Hinc.
  assert (H2 : Forall2 (λ c en, re_data en = encode_fcommand c)
    (snapshot_commands epoch action rules) es).
  { apply fmap_eq_Forall2. by rewrite Hdata. }
  destruct (deliver_snapshot epoch action rules Hsd alloc st rs es) as
    (st' & rs' & Er & Hok' & ? & ? & ? & ? & ?); try done.
  destruct (apply_entries_store alloc b st es Hst Hreq) as [Hc1 Hc2].
  rewrite Er in Hc1, Hc2. cbn [fst snd] in Hc1, Hc2.
  exists (apply_entries alloc b es).2, st', rs'. split_and!; try done.
  destruct (apply_entries alloc b es). cbn in *. by subst.
Qed.

(** C36: the sender always returns: the chunk loop ends within [rule_count]
    rounds, whatever the service answers. *)
Theorem flow_propose_terminates {C : Type} (propose : Z → Z → bytes → turbo_code)
    (adapter : option (mesh_flow_ruleset_raft_adapter C)) (first epoch action : Z)
    (rules : option (list mesh_flow_rule)) (rule_count : Z) (receipts : bool) (cap : Z)
    (out : option Z) :
  is_Some (mesh_flow_ruleset_raft_propose_snapshot_v1 propose adapter first epoch action rules
             rule_count receipts cap out).
Proof.
  unfold mesh_flow_ruleset_raft_propose_snapshot_v1.
  destruct adapter as [a|]; [|done]. case_match; [done|].
  destruct (propose_command _ _ _ _) as [[] log]; try done.
  destruct (propose_chunks_total propose (Z.to_nat rule_count) a first epoch (deref [] rules)
    rule_count 0 1 log) as [[[code n] sent] ->]; [lia|].
  destruct code; try done. by destruct (propose_command _ _ _ _) as [[] ?].
Qed.

(** The hooks never influence the replicated store: if the require hook
    lets commits pass, a batch returns the code and leaves the store that the
    bare state machine gives, whatever the publish hook answers. *)
Theorem flow_hooks_transparent {C : Type} (alloc : Z → bool)
    (a : mesh_flow_ruleset_raft_adapter C) (st : mesh_flow_ruleset_raft_store)
    (es : list raft_entry) :
  fa_store a = Some st → require_passes a →
  (apply_entries alloc a es).1 = (@run_batch _ (flow_machine alloc) st es).1 ∧
  fa_store (apply_entries alloc a es).2 = Some (@run_batch _ (flow_machine alloc) st es).2.
Proof. apply apply_entries_store. Qed.

(** Publication is never lost: after a batch that committed a snapshot
    (or from a state where publication was up to date), the published index is
    the active ruleset's or a publication is pending for the poll to retry. *)
Theorem flow_publication_tracks {C : Type} (alloc : Z → bool)
    (a a' : mesh_flow_ruleset_raft_adapter C) (st : mesh_flow_ruleset_raft_store)
    (rs : mesh_flow_ruleset) (p : publish_fn C) (es : list raft_entry) (c : turbo_code) :
  fa_store a = Some st → fstore_ok st rs → Forall entry_typed es → fa_publish a = Some p →
  apply_entries alloc a es = (c, a') →
  publication_ok a ∨
  (c = TURBO_OK ∧ Exists (λ en, at_ (re_data en) 5 = MESH_FLOW_RULESET_RAFT_COMMIT) es) →
  publication_ok a'.
Proof. apply apply_entries_publication. Qed.

(** ** Witnesses *)

Definition w_fadapter : mesh_flow_ruleset_raft_adapter unit :=
  mk_fadapter (Some w_fresh) (Some 1) None None None 0 false true.
(** A publisher that fails. *)
Definition w_failing : publish_fn unit := λ ctx _, (TURBO_EPROTO, ctx).
Definition w_fadapter_failing : mesh_flow_ruleset_raft_adapter unit :=
  mk_fadapter (Some w_fresh) (Some 1) (Some (λ ctx _, (TURBO_OK, ctx))) (Some w_failing)
    (Some tt) 0 false true.
Definition w_snapshot : list raft_entry :=
  zip_with (λ i c, mk_raft_entry i (encode_fcommand c)) [5; 6; 9]
    (snapshot_commands 3 MESH_FLOW_ACTION_DENY [w_rule1; w_rule2]).

Lemma flow_snapshot_installs_witness : ∃ b' st' rs',
  apply_entries (λ _, true) w_fadapter w_snapshot = (TURBO_OK, b') ∧ fa_store b' = Some st' ∧
  fstore_ok st' rs' ∧ fr_staging st' = false ∧ live_rules rs' = [w_rule1; w_rule2] ∧
  fs_policy_epoch rs' = 3 ∧ fs_default_action rs' = MESH_FLOW_ACTION_DENY ∧
  Some (fs_applied_index rs') = re_index <$> last w_snapshot.
Proof.
  destruct (flow_snapshot_installs (λ _, true) (λ _ _ _, TURBO_OK) w_fadapter 3
    MESH_FLOW_ACTION_DENY 100 20 0 [w_rule1; w_rule2]) as (log & E & H);
    [evaluate|done|done|done|by eexists|lia|lia|lia|].
  apply (H w_fadapter w_fresh w_empty w_snapshot).
  - reflexivity.
  - apply w_fresh_ok.
  - intros f Hf. discriminate Hf.
  - reflexivity.
  - intros Hs. discriminate Hs.
  - vm_compute. discriminate.
  - vm_compute in E. injection E as <-. vm_compute. reflexivity.
  - evaluate.
  - vm_compute. done.
Defined.

Lemma flow_hooks_transparent_witness :
  (apply_entries (λ _, true) w_fadapter_failing w_snapshot).1 =
    (@run_batch _ (flow_machine (λ _, true)) w_fresh w_snapshot).1 ∧
  fa_store (apply_entries (λ _, true) w_fadapter_failing w_snapshot).2 =
    Some (@run_batch _ (flow_machine (λ _, true)) w_fresh w_snapshot).2.
Proof.
  apply flow_hooks_transparent; [reflexivity|]. intros f E ctx idx. by injection E as <-.
Defined.

Lemma flow_publication_tracks_witness :
  publication_ok (apply_entries (λ _, true) w_fadapter_failing w_snapshot).2.
Proof.
  apply (flow_publication_tracks (λ _, true) w_fadapter_failing _ w_fresh w_empty w_failing
    w_snapshot TURBO_OK);
    [reflexivity|apply w_fresh_ok|evaluate|reflexivity|vm_compute; reflexivity|].
  right. split; [reflexivity|]. evaluate.
Defined.
