(* ===== verification/FlowRuntime.v ===== *)
(** * The packet-path ruleset: [mesh/src/mesh_flow_runtime.c]

    Two ruleset slots, an active index, a reader count per slot and a writer
    flag.  The first part gives each function as one uninterrupted call and
    includes the callers in [mesh.c] and [mesh_control_raft_mesh_bridge.c].
    The second part splits publisher and readers into their atomic accesses and
    interleaves any number of readers with the publisher; the replacement of a
    slot is not atomic there, the slot holds arbitrary contents until it ends.
    Interleavings are sequentially consistent. *)

From S2P Require Import Prelude Wire RaftLog FlowRuleset.

(** ** Data *)

Inductive mesh_flow_runtime_result : Type :=
  | MESH_FLOW_RUNTIME_OK
  | MESH_FLOW_RUNTIME_DISABLED
  | MESH_FLOW_RUNTIME_INVALID_ARG
  | MESH_FLOW_RUNTIME_INVALID_STATE
  | MESH_FLOW_RUNTIME_OUT_OF_ORDER
  | MESH_FLOW_RUNTIME_RESOURCE_EXHAUSTED
  | MESH_FLOW_RUNTIME_BUSY.

#[export] Instance mesh_flow_runtime_result_eq_dec : EqDecision mesh_flow_runtime_result.
Proof. solve_decision. Defined.

(** [slots[2]] and [readers[2]] are pairs; slot numbers are booleans, [active ^ 1]
    is [negb]. *)
Record mesh_flow_runtime : Type := mk_runtime {
  rt_slots : mesh_flow_ruleset * mesh_flow_ruleset;
  rt_active_slot : bool;
  rt_readers : Z * Z;
  rt_published : bool;
  rt_required_index : Z;
  rt_writer : bool;
  rt_open : bool }.

Definition zero_runtime : mesh_flow_runtime :=
  mk_runtime (zero_ruleset, zero_ruleset) false (0, 0) false 0 false false.

Definition pick_slot {A} (p : A * A) (i : bool) : A := if i then p.2 else p.1.
Definition put_slot {A} (p : A * A) (i : bool) (v : A) : A * A :=
  if i then (p.1, v) else (v, p.2).

Definition set_slots v (rt : mesh_flow_runtime) :=
  mk_runtime v (rt_active_slot rt) (rt_readers rt) (rt_published rt) (rt_required_index rt)
    (rt_writer rt) (rt_open rt).
Definition set_active v (rt : mesh_flow_runtime) :=
  mk_runtime (rt_slots rt) v (rt_readers rt) (rt_published rt) (rt_required_index rt)
    (rt_writer rt) (rt_open rt).
Definition set_readers v (rt : mesh_flow_runtime) :=
  mk_runtime (rt_slots rt) (rt_active_slot rt) v (rt_published rt) (rt_required_index rt)
    (rt_writer rt) (rt_open rt).
Definition set_published v (rt : mesh_flow_runtime) :=
  mk_runtime (rt_slots rt) (rt_active_slot rt) (rt_readers rt) v (rt_required_index rt)
    (rt_writer rt) (rt_open rt).
Definition set_required v (rt : mesh_flow_runtime) :=
  mk_runtime (rt_slots rt) (rt_active_slot rt) (rt_readers rt) (rt_published rt) v
    (rt_writer rt) (rt_open rt).
Definition set_writer v (rt : mesh_flow_runtime) :=
  mk_runtime (rt_slots rt) (rt_active_slot rt) (rt_readers rt) (rt_published rt)
    (rt_required_index rt) v (rt_open rt).

Definition map_ruleset_result (result : mesh_flow_ruleset_result) : mesh_flow_runtime_result :=
  match result with
  | MESH_FLOW_RULESET_OK => MESH_FLOW_RUNTIME_OK
  | MESH_FLOW_RULESET_INVALID_ARG => MESH_FLOW_RUNTIME_INVALID_ARG
  | MESH_FLOW_RULESET_INVALID_STATE => MESH_FLOW_RUNTIME_INVALID_STATE
  | MESH_FLOW_RULESET_OUT_OF_ORDER => MESH_FLOW_RUNTIME_OUT_OF_ORDER
  | MESH_FLOW_RULESET_RESOURCE_EXHAUSTED => MESH_FLOW_RUNTIME_RESOURCE_EXHAUSTED
  end.

Definition read_u16_be (input : bytes) : Z :=
  wrap 16 (Z.lor (Z.shiftl (at_ input 0) 8) (at_ input 1)).
Definition read_u32_be (input : bytes) : Z :=
  wrap 32 (Z.lor (Z.lor (Z.lor (Z.shiftl (at_ input 0) 24) (Z.shiftl (at_ input 1) 16))
                        (Z.shiftl (at_ input 2) 8)) (at_ input 3)).

(** ** Life cycle *)

Definition mesh_flow_runtime_init_v1 (alloc0 alloc1 : bool) (runtime : option mesh_flow_runtime)
    (capacity initial_default_action : Z) :
    mesh_flow_runtime_result * option mesh_flow_runtime :=
  match runtime with
  | None => (MESH_FLOW_RUNTIME_INVALID_ARG, runtime)
  | Some rt =>
      if rt_open rt then (MESH_FLOW_RUNTIME_INVALID_ARG, runtime)
      else
        match mesh_flow_ruleset_init_v1 alloc0 (Some zero_ruleset) capacity
                initial_default_action with
        | (MESH_FLOW_RULESET_OK, slot0) =>
            match mesh_flow_ruleset_init_v1 alloc1 (Some zero_ruleset) capacity
                    initial_default_action with
            | (MESH_FLOW_RULESET_OK, slot1) =>
                (MESH_FLOW_RUNTIME_OK,
                 Some (mk_runtime (deref zero_ruleset slot0, deref zero_ruleset slot1)
                         false (0, 0) false 0 false true))
            | (result, slot1) =>
                (map_ruleset_result result,
                 Some (set_slots (deref zero_ruleset (mesh_flow_ruleset_destroy_v1 slot0),
                                  deref zero_ruleset slot1) zero_runtime))
            end
        | (result, slot0) =>
            (map_ruleset_result result,
             Some (set_slots (deref zero_ruleset slot0, zero_ruleset) zero_runtime))
        end
  end.

(** The compare-and-exchange loop; [failures] are the weak exchanges that fail
    spuriously before one succeeds. *)
Fixpoint raise_required (failures : list unit) (current required_index : Z) : Z :=
  if current <? required_index
  then match failures with
       | [] => required_index
       | _ :: failures' => raise_required failures' current required_index
       end
  else current.

Definition mesh_flow_runtime_require_index_v1 (failures : list unit)
    (runtime : option mesh_flow_runtime) (required_index : Z) :
    mesh_flow_runtime_result * option mesh_flow_runtime :=
  match runtime with
  | None => (MESH_FLOW_RUNTIME_INVALID_ARG, runtime)
  | Some rt =>
      if negb (rt_open rt) || (required_index =? 0) then (MESH_FLOW_RUNTIME_INVALID_ARG, runtime)
      else (MESH_FLOW_RUNTIME_OK,
            Some (set_required (raise_required failures (rt_required_index rt) required_index) rt))
  end.

Definition mesh_flow_runtime_destroy_v1 (runtime : option mesh_flow_runtime) :
    option mesh_flow_runtime :=
  match runtime with
  | Some rt => if negb (rt_open rt) then runtime else Some zero_runtime
  | None => None
  end.

(** ** Publishing *)

Definition mesh_flow_runtime_publish_v1 (alloc_ok : bool) (runtime : option mesh_flow_runtime)
    (committed_index policy_epoch default_action : Z) (rules : option (list mesh_flow_rule))
    (rule_count : Z) : mesh_flow_runtime_result * option mesh_flow_runtime :=
  match runtime with
  | None => (MESH_FLOW_RUNTIME_INVALID_ARG, runtime)
  | Some rt =>
      if negb (rt_open rt) then (MESH_FLOW_RUNTIME_INVALID_ARG, runtime)
      else if rt_writer rt then (MESH_FLOW_RUNTIME_BUSY, runtime)
      else
        let active := rt_active_slot rt in
        let inactive := negb active in
        let current := pick_slot (rt_slots rt) active in
        if rt_published rt &&
           ((committed_index <=? fs_applied_index current) ||
            (policy_epoch <=? fs_policy_epoch current))
        then (MESH_FLOW_RUNTIME_OUT_OF_ORDER, Some (set_writer false rt))
        else if negb (pick_slot (rt_readers rt) inactive =? 0)
        then (MESH_FLOW_RUNTIME_BUSY, Some (set_writer false rt))
        else
          let '(result, slot) :=
            mesh_flow_ruleset_apply_replace_v1 alloc_ok (Some (pick_slot (rt_slots rt) inactive))
              committed_index policy_epoch default_action rules rule_count in
          let rt := set_slots (put_slot (rt_slots rt) inactive (deref zero_ruleset slot)) rt in
          let rt := if bool_decide (result = MESH_FLOW_RULESET_OK)
                    then rt |> set_active inactive |> set_published true else rt in
          (map_ruleset_result result, Some (set_writer false rt))
  end.

(** ** Evaluating a packet *)

Definition MESH_IPV4_MIN_HEADER_SIZE : Z := 20.
Definition MESH_IPV4_VERSION : Z := 4.
Definition MESH_IPV4_TCP_PROTOCOL : Z := 6.
Definition MESH_IPV4_UDP_PROTOCOL : Z := 17.

(** The query built from the header, after the size checks. *)
Definition packet_query (packet : bytes) (direction : Z) (peer_identity : option bytes) :
    mesh_flow_query :=
  let header_size := Z.land (at_ packet 0) 15 * 4 in
  let total_size := read_u16_be (drop 2 packet) in
  let ip_proto := at_ packet 9 in
  let fragment := read_u16_be (drop 6 packet) in
  let has := ((ip_proto =? MESH_IPV4_TCP_PROTOCOL) || (ip_proto =? MESH_IPV4_UDP_PROTOCOL)) &&
             (Z.land fragment 8191 =? 0) && (header_size + 4 <=? total_size) in
  mk_query (read_u32_be (drop 12 packet)) (read_u32_be (drop 16 packet))
    (if has then read_u16_be (drop (Z.to_nat header_size) packet) else 0)
    (if has then read_u16_be (drop (Z.to_nat header_size + 2) packet) else 0)
    direction ip_proto (if has then 1 else 0) (deref (zeros 32) peer_identity).

Definition packet_size_ok (packet : bytes) : bool :=
  let header_size := Z.land (at_ packet 0) 15 * 4 in
  let total_size := read_u16_be (drop 2 packet) in
  negb ((header_size <? MESH_IPV4_MIN_HEADER_SIZE) || (len packet <? header_size) ||
        (total_size <? header_size) || (len packet <? total_size)).

(** The decision with the pinned slot, and the freshness test. *)
Definition evaluate_slot (slot : mesh_flow_ruleset) (required_index : Z) (query : mesh_flow_query)
    (out : mesh_flow_decision) : mesh_flow_runtime_result * option mesh_flow_decision :=
  let '(result, decision) := mesh_flow_ruleset_evaluate_v1 (Some slot) (Some query) (Some out) in
  let result :=
    if bool_decide (result = MESH_FLOW_RULESET_OK) && (fs_applied_index slot <? required_index)
    then MESH_FLOW_RULESET_INVALID_STATE else result in
  (map_ruleset_result result, decision).

(** Without a concurrent publisher the pin loop ends in its first round and the
    reader count returns to its value. *)
Definition mesh_flow_runtime_evaluate_ipv4_v1 (runtime : option mesh_flow_runtime) (direction : Z)
    (packet : option bytes) (peer_identity : option bytes)
    (out_decision : option mesh_flow_decision) :
    mesh_flow_runtime_result * option mesh_flow_decision :=
  match runtime, packet, out_decision with
  | Some rt, Some pk, Some out =>
      if negb (rt_open rt) || (len pk <? MESH_IPV4_MIN_HEADER_SIZE) ||
         negb (Z.shiftr (at_ pk 0) 4 =? MESH_IPV4_VERSION)
      then (MESH_FLOW_RUNTIME_INVALID_ARG, out_decision)
      else if negb (rt_published rt) then
        (if rt_required_index rt =? 0 then MESH_FLOW_RUNTIME_DISABLED
         else MESH_FLOW_RUNTIME_INVALID_STATE, out_decision)
      else if negb (packet_size_ok pk) then (MESH_FLOW_RUNTIME_INVALID_ARG, out_decision)
      else evaluate_slot (pick_slot (rt_slots rt) (rt_active_slot rt)) (rt_required_index rt)
             (packet_query pk direction peer_identity) out
  | _, _, _ => (MESH_FLOW_RUNTIME_INVALID_ARG, out_decision)
  end.

(** ** Callers: [mesh.c] and the bridge *)

(** [mesh->runtime_flow_policy] is the only field of the network these use;
    a NULL [mesh] is [None]. *)
Section Callers.
Context (alloc : nat → bool).

Definition mesh_internal_flow_policy_publish_v1 (mesh : option mesh_flow_runtime)
    (committed_index policy_epoch default_action : Z) (rules : option (list mesh_flow_rule))
    (rule_count : Z) : mesh_flow_runtime_result * option mesh_flow_runtime :=
  match mesh with
  | None => (MESH_FLOW_RUNTIME_INVALID_ARG, mesh)
  | Some rt =>
      if negb (rt_open rt) then
        match mesh_flow_runtime_init_v1 (alloc 0) (alloc 1) mesh MESH_FLOW_RULESET_MAX_RULES
                default_action with
        | (MESH_FLOW_RUNTIME_OK, mesh) =>
            mesh_flow_runtime_publish_v1 (alloc 2) mesh committed_index policy_epoch default_action
              rules rule_count
        | (result, mesh) => (result, mesh)
        end
      else mesh_flow_runtime_publish_v1 (alloc 2) mesh committed_index policy_epoch default_action
             rules rule_count
  end.

Definition mesh_internal_flow_policy_prepare_v1 (mesh : option mesh_flow_runtime) :
    mesh_flow_runtime_result * option mesh_flow_runtime :=
  match mesh with
  | None => (MESH_FLOW_RUNTIME_INVALID_ARG, mesh)
  | Some rt =>
      if rt_open rt then (MESH_FLOW_RUNTIME_OK, mesh)
      else mesh_flow_runtime_init_v1 (alloc 0) (alloc 1) mesh MESH_FLOW_RULESET_MAX_RULES
             MESH_FLOW_ACTION_DENY
  end.

Definition mesh_internal_flow_policy_require_v1 (mesh : option mesh_flow_runtime)
    (required_index : Z) : mesh_flow_runtime_result * option mesh_flow_runtime :=
  match mesh with
  | None => (MESH_FLOW_RUNTIME_INVALID_ARG, mesh)
  | Some rt =>
      if required_index =? 0 then (MESH_FLOW_RUNTIME_INVALID_ARG, mesh)
      else if negb (rt_open rt) then
        match mesh_flow_runtime_init_v1 (alloc 0) (alloc 1) mesh MESH_FLOW_RULESET_MAX_RULES
                MESH_FLOW_ACTION_DENY with
        | (MESH_FLOW_RUNTIME_OK, mesh) => mesh_flow_runtime_require_index_v1 [] mesh required_index
        | (result, mesh) => (result, mesh)
        end
      else mesh_flow_runtime_require_index_v1 [] mesh required_index
  end.

Definition map_runtime_result (result : mesh_flow_runtime_result) : turbo_code :=
  match result with
  | MESH_FLOW_RUNTIME_OK => TURBO_OK
  | MESH_FLOW_RUNTIME_RESOURCE_EXHAUSTED => TURBO_ENOMEM
  | _ => TURBO_EPROTO
  end.

Definition require_index (context : option mesh_flow_runtime) (required_index : Z) :
    turbo_code * option mesh_flow_runtime :=
  let '(r, mesh) := mesh_internal_flow_policy_require_v1 context required_index in
  (map_runtime_result r, mesh).

Definition publish_ruleset (context : option mesh_flow_runtime) (ruleset : mesh_flow_ruleset) :
    turbo_code * option mesh_flow_runtime :=
  if negb (fs_open ruleset) then (TURBO_EINVAL, context)
  else
    let '(r, mesh) :=
      mesh_internal_flow_policy_publish_v1 context (fs_applied_index ruleset)
        (fs_policy_epoch ruleset) (fs_default_action ruleset) (Some (fs_rules ruleset))
        (fs_rule_count ruleset) in
    (map_runtime_result r, mesh).

End Callers.

(** ** Interleaving publisher and readers *)

(** Program points of a call to the packet evaluation. *)
Inductive reader_pc : Type :=
  | RIdle
  | RStart
  | RLoaded (s : bool)
  | RPinned (s : bool)
  | RChecked (s : bool)
  | RReading (s : bool)
  | REvaluated (s : bool) (r : mesh_flow_ruleset_result) (index : Z) (d : option mesh_flow_decision)
  | RLeaving (s : bool) (r : mesh_flow_runtime_result) (d : option mesh_flow_decision)
  | RBackoff (s : bool)
  | RRetry
  | RDone (r : mesh_flow_runtime_result) (d : option mesh_flow_decision).

(** Program points of the publisher that owns the writer flag. *)
Inductive writer_pc : Type :=
  | WIdle
  | WLocked (a : replace_args)
  | WLoaded (a : replace_args) (active : bool)
  | WChecked (a : replace_args) (active : bool)
  | WWriting (a : replace_args) (active : bool) (old : mesh_flow_ruleset)
  | WWritten (active : bool) (r : mesh_flow_ruleset_result)
  | WFlipped
  | WRelease (r : mesh_flow_runtime_result).

Record system : Type := mk_system {
  sys_rt : mesh_flow_runtime;
  sys_writer : writer_pc;
  sys_readers : list reader_pc }.

Definition bump (s : bool) (delta : Z) (rt : mesh_flow_runtime) : mesh_flow_runtime :=
  set_readers (put_slot (rt_readers rt) s (wrap 32 (pick_slot (rt_readers rt) s + delta))) rt.

(** One atomic access of a reader. *)
Inductive reader_step (rt : mesh_flow_runtime) : reader_pc → mesh_flow_runtime → reader_pc → Prop :=
  | rd_start : rt_published rt = true → reader_step rt RIdle rt RStart
  | rd_load : reader_step rt RStart rt (RLoaded (rt_active_slot rt))
  | rd_pin s : reader_step rt (RLoaded s) (bump s 1 rt) (RPinned s)
  | rd_check s : rt_active_slot rt = s → reader_step rt (RPinned s) rt (RChecked s)
  | rd_moved s : rt_active_slot rt ≠ s → reader_step rt (RPinned s) rt (RBackoff s)
  | rd_enter s : rt_published rt = true → reader_step rt (RChecked s) rt (RReading s)
  | rd_closed s : rt_published rt = false → reader_step rt (RChecked s) rt (RBackoff s)
  | rd_backoff s : reader_step rt (RBackoff s) (bump s (-1) rt) RRetry
  | rd_retry : rt_published rt = true → reader_step rt RRetry rt RStart
  | rd_disabled : rt_published rt = false →
      reader_step rt RRetry rt (RDone MESH_FLOW_RUNTIME_DISABLED None)
  | rd_evaluate s q out r d :
      mesh_flow_ruleset_evaluate_v1 (Some (pick_slot (rt_slots rt) s)) (Some q) (Some out) = (r, d) →
      reader_step rt (RReading s) rt
        (REvaluated s r (fs_applied_index (pick_slot (rt_slots rt) s)) d)
  | rd_fresh s r index d :
      reader_step rt (REvaluated s r index d) rt
        (RLeaving s (map_ruleset_result
           (if bool_decide (r = MESH_FLOW_RULESET_OK) && (index <? rt_required_index rt)
            then MESH_FLOW_RULESET_INVALID_STATE else r)) d)
  | rd_leave s r d : reader_step rt (RLeaving s r d) (bump s (-1) rt) (RDone r d).

(** One atomic access of the publisher; between the start and the end of the
    replacement the slot may hold anything. *)
Inductive writer_step (rt : mesh_flow_runtime) : writer_pc → mesh_flow_runtime → writer_pc → Prop :=
  | wr_lock a : rt_writer rt = false → args_typed a →
      writer_step rt WIdle (set_writer true rt) (WLocked a)
  | wr_load a : writer_step rt (WLocked a) rt (WLoaded a (rt_active_slot rt))
  | wr_stale a act :
      rt_published rt && ((ra_index a <=? fs_applied_index (pick_slot (rt_slots rt) act)) ||
        (ra_epoch a <=? fs_policy_epoch (pick_slot (rt_slots rt) act))) = true →
      writer_step rt (WLoaded a act) rt (WRelease MESH_FLOW_RUNTIME_OUT_OF_ORDER)
  | wr_newer a act :
      rt_published rt && ((ra_index a <=? fs_applied_index (pick_slot (rt_slots rt) act)) ||
        (ra_epoch a <=? fs_policy_epoch (pick_slot (rt_slots rt) act))) = false →
      writer_step rt (WLoaded a act) rt (WChecked a act)
  | wr_busy a act : pick_slot (rt_readers rt) (negb act) ≠ 0 →
      writer_step rt (WChecked a act) rt (WRelease MESH_FLOW_RUNTIME_BUSY)
  | wr_begin a act : pick_slot (rt_readers rt) (negb act) = 0 →
      writer_step rt (WChecked a act) rt
        (WWriting a act (pick_slot (rt_slots rt) (negb act)))
  | wr_partial a act old garbage :
      writer_step rt (WWriting a act old)
        (set_slots (put_slot (rt_slots rt) (negb act) garbage) rt) (WWriting a act old)
  | wr_end a act old r slot : do_replace a old = (r, Some slot) →
      writer_step rt (WWriting a act old)
        (set_slots (put_slot (rt_slots rt) (negb act) slot) rt) (WWritten act r)
  | wr_flip act :
      writer_step rt (WWritten act MESH_FLOW_RULESET_OK) (set_active (negb act) rt) WFlipped
  | wr_failed act r : r ≠ MESH_FLOW_RULESET_OK →
      writer_step rt (WWritten act r) rt (WRelease (map_ruleset_result r))
  | wr_publish : writer_step rt WFlipped (set_published true rt) (WRelease MESH_FLOW_RUNTIME_OK)
  | wr_release r : writer_step rt (WRelease r) (set_writer false rt) WIdle.

Inductive sys_step : system → system → Prop :=
  | sys_reader rt w rs i pc rt' pc' : rs !! i = Some pc → reader_step rt pc rt' pc' →
      sys_step (mk_system rt w rs) (mk_system rt' w (<[i:=pc']> rs))
  | sys_writer_step rt w rs rt' w' : writer_step rt w rt' w' →
      sys_step (mk_system rt w rs) (mk_system rt' w' rs)
  | sys_require rt w rs idx :
      sys_step (mk_system rt w rs)
        (mk_system (set_required (raise_required [] (rt_required_index rt) idx) rt) w rs).

Inductive sys_steps : system → system → Prop :=
  | sys_refl s : sys_steps s s
  | sys_trans s s' s'' : sys_step s s' → sys_steps s' s'' → sys_steps s s''.

(** A runtime fresh from initialisation with [n] idle readers. *)
Definition sys_init (rt : mesh_flow_runtime) (n : nat) : system :=
  mk_system rt WIdle (replicate n RIdle).

(** ** Invariants *)

(** The reader holds a count on slot [s]. *)
Definition pinned_at (s : bool) (pc : reader_pc) : bool :=
  match pc with
  | RPinned s' | RChecked s' | RReading s' | REvaluated s' _ _ _ | RLeaving s' _ _ | RBackoff s' =>
      bool_decide (s = s')
  | _ => false
  end.
(** The reader has verified slot [s] and may read it. *)
Definition reading_at (s : bool) (pc : reader_pc) : bool :=
  match pc with
  | RChecked s' | RReading s' | REvaluated s' _ _ _ => bool_decide (s = s')
  | _ => false
  end.

(** The publisher's knowledge at each point. *)
Definition writer_ok (rt : mesh_flow_runtime) (rs : list reader_pc) (w : writer_pc) : Prop :=
  match w with
  | WLoaded _ act | WChecked _ act => rt_active_slot rt = act
  | WWriting _ act old => rt_active_slot rt = act ∧ ruleset_ok old ∧
      Forall (λ pc, reading_at (negb act) pc = false) rs
  | WWritten act _ => rt_active_slot rt = act
  | _ => True
  end.

(** The slot being overwritten, if any. *)
Definition writing (w : writer_pc) : option bool :=
  match w with WWriting _ act _ => Some (negb act) | _ => None end.

Definition writer_typed (w : writer_pc) : Prop :=
  match w with
  | WLocked a | WLoaded a _ | WChecked a _ | WWriting a _ _ => args_typed a
  | _ => True
  end.

Record sys_ok (s : system) : Prop := {
  so_threads : Z.of_nat (length (sys_readers s)) < 2 ^ 32;
  so_count : ∀ i, pick_slot (rt_readers (sys_rt s)) i = count_slots (pinned_at i) (sys_readers s);
  so_typed : writer_typed (sys_writer s);
  so_writer : writer_ok (sys_rt s) (sys_readers s) (sys_writer s);
  so_slots : ∀ i, writing (sys_writer s) ≠ Some i → ruleset_ok (pick_slot (rt_slots (sys_rt s)) i) }.

Section Invariant.

Lemma pick_put_eq {A} (p : A * A) i v : pick_slot (put_slot p i v) i = v.
Proof. by destruct i. Qed.
Lemma pick_put_ne {A} (p : A * A) i j v : i ≠ j → pick_slot (put_slot p i v) j = pick_slot p j.
Proof. by destruct i, j. Qed.

(** Reader steps touch only the counts, and only by the change of pinning. *)
Lemma reader_step_frame rt pc rt' pc' : reader_step rt pc rt' pc' →
  rt_slots rt' = rt_slots rt ∧ rt_active_slot rt' = rt_active_slot rt ∧
  (∀ i, pick_slot (rt_readers rt') i = pick_slot (rt_readers rt) i -
          (if pinned_at i pc then 1 else 0) + (if pinned_at i pc' then 1 else 0) ∨
        pick_slot (rt_readers rt') i = wrap 32 (pick_slot (rt_readers rt) i -
          (if pinned_at i pc then 1 else 0) + (if pinned_at i pc' then 1 else 0))) ∧
  (∀ i, reading_at i pc' = true → reading_at i pc = true ∨ rt_active_slot rt = i).
Proof.
  intros Hs. destruct Hs; (split_and!; [done|done| |]); intros i; cbn;
    try (case_bool_decide; [subst i|]);
    try (left; lia); try done; try (by auto);
    unfold bump; cbn; rewrite ?pick_put_eq, ?pick_put_ne by done;
    try (right; f_equal; lia); try (left; lia); auto.
Qed.

Lemma sys_step_ok s s' : sys_ok s → sys_step s s' → sys_ok s'.
Proof.
  intros [Hth Hct Hty Hw Hsl] Hs. destruct Hs as [rt w rs i pc rt' pc' Hi Hr|rt w rs rt' w' Hr|];
    cbn [sys_rt sys_writer sys_readers] in *.
  - destruct (reader_step_frame _ _ _ _ Hr) as (Hslots & Hact & Hcnt & Hrd).
    split; cbn [sys_rt sys_writer sys_readers].
    + by rewrite length_insert.
    + intros k. rewrite (count_slots_insert _ _ _ _ _ Hi), <- Hct.
      destruct (Hcnt k) as [->| ->]; [done|]. apply wrap_small. rewrite Hct.
      rewrite <- (count_slots_insert _ _ _ _ _ Hi).
      pose proof (count_slots_bounds (pinned_at k) (<[i:=pc']> rs)) as Hb.
      rewrite length_insert in Hb. unfold uint. lia.
    + done.
    + unfold writer_ok in *. rewrite Hact. destruct w; try done.
      destruct Hw as (Ha & Hold & Hf). split_and!; try done.
      apply Forall_insert; [done|]. destruct (reading_at (negb active) pc') eqn:E; [|done].
      destruct (Hrd _ E) as [E'|E'].
      * eapply Forall_lookup_1 in Hf; [|exact Hi]. cbn in Hf. congruence.
      * rewrite Ha in E'. by destruct active.
    + by rewrite Hslots.
  - destruct Hr as [| | | |a act Hbusy|a act Hz| | | | | |]; (split; cbn; try done);
      cbn in *; try (by intros k; apply Hsl); try (by destruct Hw).
    + split_and!; [done|by apply Hsl|]. apply Forall_lookup. intros j pc Hj.
      destruct (reading_at (negb act) pc) eqn:E; [|done].
      rewrite Hct in Hz. apply (count_slots_zero _ _ _ _ Hz) in Hj. destruct pc; cbn in *; congruence.
    + intros k Hk. apply Hsl. congruence.
    + intros k Hk. rewrite pick_put_ne; [by apply Hsl|congruence].
    + intros k _. destruct (decide (negb act = k)) as [<-|Hne].
      * rewrite pick_put_eq. destruct Hw as (_ & Hold & _).
        pose proof (replace_step a old Hold Hty) as (Hok & _).
        change (do_replace a old = (r, Some slot)) in H. by rewrite H in Hok.
      * rewrite pick_put_ne by done. apply Hsl. congruence.
  - by split.
Qed.

Lemma sys_steps_ok s s' : sys_ok s → sys_steps s s' → sys_ok s'.
Proof. intros Hok Hs. induction Hs; [done|]. eauto using sys_step_ok. Qed.

Lemma init_runtime_ok alloc0 alloc1 capacity action rt n : 0 <= capacity →
  Z.of_nat n < 2 ^ 32 →
  mesh_flow_runtime_init_v1 alloc0 alloc1 (Some zero_runtime) capacity action =
    (MESH_FLOW_RUNTIME_OK, Some rt) → sys_ok (sys_init rt n).
Proof.
  intros Hc Hn H. unfold mesh_flow_runtime_init_v1 in H. cbn [rt_open zero_runtime] in H.
  destruct (mesh_flow_ruleset_init_v1 alloc0 _ _ _) as [r0 o0] eqn:E0.
  destruct r0; try done. destruct (mesh_flow_ruleset_init_v1 alloc1 _ _ _) as [r1 o1] eqn:E1.
  destruct r1; try done. injection H as <-.
  assert (Hsome : ∀ b o, mesh_flow_ruleset_init_v1 b (Some zero_ruleset) capacity action =
    (MESH_FLOW_RULESET_OK, o) → ruleset_ok (deref zero_ruleset o)).
  { intros b o Ho. destruct o as [rs|].
    - by eapply init_ruleset_ok.
    - unfold mesh_flow_ruleset_init_v1 in Ho. by repeat (step_in Ho; try done). }
  split; cbn; try done.
  - by rewrite length_replicate.
  - intros i. rewrite count_slots_replicate by done. by destruct i.
  - intros i _. destruct i; cbn; by eapply Hsome.
Qed.

(** A slot some reader may read is never the one being overwritten. *)
Lemma reading_not_writing s i pc k : sys_ok s → sys_readers s !! i = Some pc →
  reading_at k pc = true → writing (sys_writer s) ≠ Some k.
Proof.
  intros [_ _ _ Hw _] Hi Hk E. destruct s as [rt w rs]. cbn in *.
  destruct w; try done. cbn in *. injection E as <-. destruct Hw as (_ & _ & Hf).
  eapply Forall_lookup_1 in Hf; [|exact Hi]. cbn in Hf. congruence.
Qed.

Lemma sys_step_stable s s' i pc k : sys_ok s → sys_step s s' →
  sys_readers s !! i = Some pc → reading_at k pc = true →
  pick_slot (rt_slots (sys_rt s')) k = pick_slot (rt_slots (sys_rt s)) k.
Proof.
  intros Hok Hs Hi Hk. pose proof (reading_not_writing _ _ _ _ Hok Hi Hk) as Hnw.
  destruct Hs as [rt w rs j pc1 rt' pc1' Hj Hr|rt w rs rt' w' Hr|]; cbn in *; try done.
  - apply reader_step_frame in Hr as [-> _]. done.
  - destruct Hr; cbn in *; try done; by rewrite pick_put_ne by congruence.
Qed.

End Invariant.

(** ** Publishing refines replacement of one ruleset *)

Definition current (rt : mesh_flow_runtime) : mesh_flow_ruleset :=
  pick_slot (rt_slots rt) (rt_active_slot rt).

(** Between calls: the spare slot is never newer than the active one, and
    nothing is published before the first snapshot. *)
Record runtime_ok (rt : mesh_flow_runtime) : Prop := {
  rto_open : rt_open rt = true;
  rto_writer : rt_writer rt = false;
  rto_slots : ∀ i, ruleset_ok (pick_slot (rt_slots rt) i);
  rto_capacity : ∀ i, fs_capacity (pick_slot (rt_slots rt) i) = fs_capacity (current rt);
  rto_older : ∀ i, fs_applied_index (pick_slot (rt_slots rt) i) <= fs_applied_index (current rt) ∧
                   fs_policy_epoch (pick_slot (rt_slots rt) i) <= fs_policy_epoch (current rt);
  rto_unpublished : rt_published rt = false →
    fs_applied_index (current rt) = 0 ∧ fs_policy_epoch (current rt) = 0;
  rto_required : 0 <= rt_required_index rt }.

Section Refinement.
Context (rt : mesh_flow_runtime) (Hok : runtime_ok rt).

(** Filling the spare slot and flipping. *)
Definition flipped (new : mesh_flow_ruleset) : mesh_flow_runtime :=
  rt |> set_slots (put_slot (rt_slots rt) (negb (rt_active_slot rt)) new)
     |> set_active (negb (rt_active_slot rt)) |> set_published true |> set_writer false.

Lemma flipped_ok new : ruleset_ok new → fs_capacity new = fs_capacity (current rt) →
  fs_applied_index (current rt) <= fs_applied_index new →
  fs_policy_epoch (current rt) <= fs_policy_epoch new →
  runtime_ok (flipped new) ∧ current (flipped new) = new.
Proof.
  intros Hnew Hcap Hidx Hep. assert (Hc : current (flipped new) = new).
  { unfold current, flipped. cbn. apply pick_put_eq. }
  split; [|done].
  assert (Hpick : ∀ i, pick_slot (rt_slots (flipped new)) i = new ∨
    pick_slot (rt_slots (flipped new)) i = current rt).
  { intros i. unfold flipped, current. cbn. destruct (rt_active_slot rt), i; cbn; auto. }
  split; try done; try (rewrite Hc).
  - apply Hok.
  - intros i. destruct (Hpick i) as [->| ->]; [done|apply Hok].
  - intros i. by destruct (Hpick i) as [->| ->].
  - intros i. destruct (Hpick i) as [->| ->]; lia.
  - apply Hok.
Qed.

Lemma publish_cases a r o : args_typed a →
  pick_slot (rt_readers rt) (negb (rt_active_slot rt)) = 0 →
  mesh_flow_runtime_publish_v1 (ra_alloc a) (Some rt) (ra_index a) (ra_epoch a) (ra_action a)
    (Some (ra_rules a)) (Z.of_nat (length (ra_rules a))) = (r, o) →
  ∃ rt', o = Some rt' ∧ runtime_ok rt' ∧ rt_required_index rt' = rt_required_index rt ∧
  ((r = MESH_FLOW_RUNTIME_OK ∧ (do_replace a (current rt)).1 = MESH_FLOW_RULESET_OK ∧
    rt_published rt' = true ∧ live_rules (current rt') = ra_rules a ∧
    fs_policy_epoch (current rt') = ra_epoch a ∧ fs_applied_index (current rt') = ra_index a ∧
    fs_default_action (current rt') = ra_action a) ∨
   (r ≠ MESH_FLOW_RUNTIME_OK ∧ (do_replace a (current rt)).1 ≠ MESH_FLOW_RULESET_OK ∧
    rt' = rt)).
Proof.
  intros Ha Hrd H. set (act := rt_active_slot rt) in *.
  pose proof (rto_slots _ Hok act) as Hcur. fold (current rt) in Hcur.
  pose proof (rto_slots _ Hok (negb act)) as Hin.
  pose proof (rto_older _ Hok (negb act)) as [Hold1 Hold2].
  pose proof (rto_capacity _ Hok (negb act)) as Hcap.
  pose proof (rok_applied _ Hin). pose proof (rok_epoch _ Hin).
  assert (Hid : set_writer false rt = rt).
  { pose proof (rto_writer _ Hok) as Hw. destruct rt. cbn in *. by rewrite <- Hw. }
  unfold mesh_flow_runtime_publish_v1 in H. rewrite (rto_open _ Hok), (rto_writer _ Hok) in H.
  cbn [negb] in H. fold act in H. change (pick_slot (rt_slots rt) act) with (current rt) in H.
  rewrite Hrd, Hid in H. change (negb (0 =? 0)) with false in H. cbv iota in H.
  fold (do_replace a (pick_slot (rt_slots rt) (negb act))) in H.
  assert (Hiff : (do_replace a (current rt)).1 = MESH_FLOW_RULESET_OK ↔
    rt_published rt && ((ra_index a <=? fs_applied_index (current rt)) ||
      (ra_epoch a <=? fs_policy_epoch (current rt))) = false ∧
    (do_replace a (pick_slot (rt_slots rt) (negb act))).1 = MESH_FLOW_RULESET_OK).
  { rewrite !replace_ok_iff, Hcap by done. pose proof (rto_unpublished _ Hok) as Hup.
    destruct (rt_published rt); cbn [andb]; [|specialize (Hup eq_refl)]; split;
      intros; destruct_and!; split_and!; try done; lia. }
  step_in H.
  { injection H as <- <-. exists rt. split_and!; try done. right. split_and!; try done.
    rewrite Hiff. by intros [? _]. }
  destruct (do_replace a (pick_slot (rt_slots rt) (negb act))) as [res slot] eqn:Er.
  pose proof Er as Er'. cbn [fst] in Hiff.
  apply replace_cases in Er' as [[Hne ->]|(-> & Hlt & Hep & Hc & Hr & Hav & ->)];
    [| |done|apply Ha|apply Ha|done].
  - rewrite bool_decide_eq_false_2 in H by done. injection H as <- <-.
    exists rt. split_and!; try done.
    + f_equal. destruct rt as [[s0 s1] ac]. subst act. cbn in *. by destruct ac.
    + right. split_and!; try done; [by destruct res|]. rewrite Hiff. by intros [_ ?].
  - rewrite bool_decide_eq_true_2 in H by done. injection H as <- <-. eexists. split; [done|].
    set (new := mk_ruleset _ _ _ _ _ _ _).
    assert (Hnew : ruleset_ok new) by (apply replaced_ok; done || apply Ha).
    assert (Hcmp : fs_applied_index (current rt) < ra_index a ∧
                   fs_policy_epoch (current rt) < ra_epoch a).
    { pose proof (rto_unpublished _ Hok). destruct (rt_published rt); cbn in E; lia. }
    destruct (flipped_ok new) as [Hrt' Hc']; [done|done|cbn; lia|cbn; lia|].
    change (set_writer false _) with (flipped new). split_and!; [done|done|]. left.
    rewrite Hc'. split_and!; try done; [by apply Hiff|]. apply replaced_live.
Qed.

End Refinement.

Lemma runtime_init_ok alloc0 alloc1 capacity action rt : 0 <= capacity →
  mesh_flow_runtime_init_v1 alloc0 alloc1 (Some zero_runtime) capacity action =
    (MESH_FLOW_RUNTIME_OK, Some rt) →
  runtime_ok rt ∧ rt_published rt = false ∧ rt_required_index rt = 0.
Proof.
  intros Hc H. unfold mesh_flow_runtime_init_v1 in H. cbn [rt_open zero_runtime] in H.
  destruct (mesh_flow_ruleset_init_v1 alloc0 _ _ _) as [r0 o0] eqn:E0.
  destruct r0; try done. destruct (mesh_flow_ruleset_init_v1 alloc1 _ _ _) as [r1 o1] eqn:E1.
  destruct r1; try done. injection H as <-.
  assert (Hsome : ∀ b o, mesh_flow_ruleset_init_v1 b (Some zero_ruleset) capacity action =
    (MESH_FLOW_RULESET_OK, o) → ∃ rs, o = Some rs).
  { intros b o Ho. unfold mesh_flow_ruleset_init_v1 in Ho. repeat (step_in Ho; try done).
    simplify_eq. eauto. }
  destruct (Hsome _ _ E0) as [s0 ->]. destruct (Hsome _ _ E1) as [s1 ->].
  apply init_ruleset_ok in E0 as (Hok0 & _ & Hc0 & _ & He0 & Hi0); [|done].
  apply init_ruleset_ok in E1 as (Hok1 & _ & Hc1 & _ & He1 & Hi1); [|done].
  split_and!; try done. split; cbn; try done.
  - by intros [].
  - intros []; cbn; congruence.
  - intros []; cbn; lia.
Qed.

Lemma raise_required_max failures current required :
  raise_required failures current required = Z.max current required.
Proof.
  induction failures as [|[] l IH]; cbn [raise_required];
    destruct (Z.ltb_spec current required); lia.
Qed.

Lemma evaluate_OK_index rs q out d :
  mesh_flow_ruleset_evaluate_v1 (Some rs) (Some q) (Some out) = (MESH_FLOW_RULESET_OK, Some d) →
  d_applied_index d = fs_applied_index rs ∧ d_policy_epoch d = fs_policy_epoch rs.
Proof.
  unfold mesh_flow_ruleset_evaluate_v1. intros H.
  repeat (step_in H; try done); by injection H as <-.
Qed.

Lemma evaluate_OK_some rs q out d :
  mesh_flow_ruleset_evaluate_v1 (Some rs) (Some q) (Some out) = (MESH_FLOW_RULESET_OK, d) →
  ∃ dec, d = Some dec ∧ d_applied_index dec = fs_applied_index rs ∧
    d_policy_epoch dec = fs_policy_epoch rs.
Proof.
  intros H. destruct d as [dec|].
  - exists dec. split; [done|]. by apply evaluate_OK_index in H.
  - unfold mesh_flow_ruleset_evaluate_v1 in H. by repeat (step_in H; try done).
Qed.

Lemma evaluate_fresh rt direction packet peer out r d :
  mesh_flow_runtime_evaluate_ipv4_v1 (Some rt) direction (Some packet) peer (Some out) = (r, d) →
  (r = MESH_FLOW_RUNTIME_DISABLED → rt_required_index rt = 0 ∧ rt_published rt = false) ∧
  (r = MESH_FLOW_RUNTIME_OK → rt_published rt = true ∧
     rt_required_index rt <= fs_applied_index (current rt) ∧
     mesh_flow_ruleset_evaluate_v1 (Some (current rt)) (Some (packet_query packet direction peer))
       (Some out) = (MESH_FLOW_RULESET_OK, d)).
Proof.
  unfold mesh_flow_runtime_evaluate_ipv4_v1, evaluate_slot. intros H.
  fold (current rt) in H.
  destruct (mesh_flow_ruleset_evaluate_v1 _ _ _) as [res dec].
  repeat (step_in H; try done); bool_prop; simplify_eq; (split; [|intros Hr]); try done;
    try by destruct res.
  assert (res = MESH_FLOW_RULESET_OK) as -> by (by destruct res).
  rewrite bool_decide_eq_true_2 in * by done. cbn [andb] in *. bool_prop.
  split_and!; [by destruct (rt_published rt)|done|done].
Qed.

(** ** Theorems *)

(** The double buffer behaves as one ruleset replaced in place: when the
    spare slot has no reader, a publication succeeds exactly when replacing the
    current ruleset would, the new current ruleset is then the published one,
    and otherwise the runtime is unchanged. *)
Theorem runtime_publish_refines (rt : mesh_flow_runtime) (a : replace_args)
    (r : mesh_flow_runtime_result) (o : option mesh_flow_runtime) :
  runtime_ok rt → args_typed a → pick_slot (rt_readers rt) (negb (rt_active_slot rt)) = 0 →
  mesh_flow_runtime_publish_v1 (ra_alloc a) (Some rt) (ra_index a) (ra_epoch a) (ra_action a)
    (Some (ra_rules a)) (Z.of_nat (length (ra_rules a))) = (r, o) →
  ∃ rt', o = Some rt' ∧ runtime_ok rt' ∧ rt_required_index rt' = rt_required_index rt ∧
  ((r = MESH_FLOW_RUNTIME_OK ∧ (do_replace a (current rt)).1 = MESH_FLOW_RULESET_OK ∧
    rt_published rt' = true ∧ live_rules (current rt') = ra_rules a ∧
    fs_policy_epoch (current rt') = ra_epoch a ∧ fs_applied_index (current rt') = ra_index a ∧
    fs_default_action (current rt') = ra_action a) ∨
   (r ≠ MESH_FLOW_RUNTIME_OK ∧ (do_replace a (current rt)).1 ≠ MESH_FLOW_RULESET_OK ∧
    rt' = rt)).
Proof. intros Hok. by apply publish_cases. Qed.

(** The packet path fails closed: once an index has been required, no later
    packet is reported as unfiltered, and a packet is decided only by a snapshot
    at or after that index. *)
Theorem runtime_fails_closed (rt rt' : mesh_flow_runtime) (failures : list unit)
    (index direction : Z) (packet : bytes) (peer : option bytes) (out : mesh_flow_decision)
    (r : mesh_flow_runtime_result) (d : option mesh_flow_decision) :
  runtime_ok rt →
  mesh_flow_runtime_require_index_v1 failures (Some rt) index = (MESH_FLOW_RUNTIME_OK, Some rt') →
  mesh_flow_runtime_evaluate_ipv4_v1 (Some rt') direction (Some packet) peer (Some out) = (r, d) →
  0 < index →
  r ≠ MESH_FLOW_RUNTIME_DISABLED ∧
  (r = MESH_FLOW_RUNTIME_OK → ∃ dec, d = Some dec ∧ index <= d_applied_index dec ∧
     d_policy_epoch dec = fs_policy_epoch (current rt)).
Proof.
  intros Hok H He Hi. unfold mesh_flow_runtime_require_index_v1 in H.
  step_in H; [done|]. injection H as <-. rewrite raise_required_max in He.
  apply evaluate_fresh in He as [Hdis Hfresh].
  cbn [rt_required_index rt_published set_required] in Hdis, Hfresh.
  change (current (set_required _ rt)) with (current rt) in Hfresh.
  pose proof (rto_required _ Hok). split.
  - intros ->. destruct (Hdis eq_refl). lia.
  - intros ->. destruct (Hfresh eq_refl) as (_ & Hle & Hev).
    destruct (evaluate_OK_some _ _ _ _ Hev) as (dec & -> & Ed & Ep).
    exists dec. rewrite Ed, Ep. split_and!; done || lia.
Qed.


(** ** Witnesses *)

Definition w_rt : mesh_flow_runtime :=
  deref zero_runtime (mesh_flow_runtime_init_v1 true true (Some zero_runtime) 4
    MESH_FLOW_ACTION_DENY).2.
Definition w_rt_published : mesh_flow_runtime :=
  deref zero_runtime (mesh_flow_runtime_publish_v1 true (Some w_rt) 7 3 MESH_FLOW_ACTION_DENY
    (Some [w_rule1; w_rule2]) 2).2.

Lemma w_rt_ok : runtime_ok w_rt.
Proof. apply (runtime_init_ok true true 4 MESH_FLOW_ACTION_DENY); [lia|reflexivity]. Qed.

Lemma w_rt_published_ok : runtime_ok w_rt_published.
Proof.
  destruct (publish_cases w_rt w_rt_ok w_args MESH_FLOW_RUNTIME_OK (Some w_rt_published))
    as (rt' & E & Hok & _); [evaluate|reflexivity|vm_compute; reflexivity|].
  by injection E as <-.
Qed.

Lemma runtime_publish_refines_witness : ∃ rt', Some w_rt_published = Some rt' ∧ runtime_ok rt' ∧
  rt_required_index rt' = rt_required_index w_rt ∧
  ((MESH_FLOW_RUNTIME_OK = MESH_FLOW_RUNTIME_OK ∧
    (do_replace w_args (current w_rt)).1 = MESH_FLOW_RULESET_OK ∧
    rt_published rt' = true ∧ live_rules (current rt') = [w_rule1; w_rule2] ∧
    fs_policy_epoch (current rt') = 3 ∧ fs_applied_index (current rt') = 7 ∧
    fs_default_action (current rt') = MESH_FLOW_ACTION_DENY) ∨
   (MESH_FLOW_RUNTIME_OK ≠ MESH_FLOW_RUNTIME_OK ∧
    (do_replace w_args (current w_rt)).1 ≠ MESH_FLOW_RULESET_OK ∧ rt' = w_rt)).
Proof.
  apply (runtime_publish_refines w_rt w_args MESH_FLOW_RUNTIME_OK (Some w_rt_published));
    [apply w_rt_ok|evaluate|reflexivity|vm_compute; reflexivity].
Defined.

(** A TCP packet from 10.1.0.9 to port 443. *)
Definition w_packet : bytes :=
  [69; 0; 0; 40; 0; 0; 0; 0; 64; 6; 0; 0; 10; 1; 0; 9; 0; 0; 0; 77; 19; 136; 1; 187] ++ zeros 16.

Lemma runtime_fails_closed_witness :
  MESH_FLOW_RUNTIME_OK ≠ MESH_FLOW_RUNTIME_DISABLED ∧
  (MESH_FLOW_RUNTIME_OK = MESH_FLOW_RUNTIME_OK → ∃ dec,
     Some (mk_decision MESH_FLOW_ACTION_ALLOW MESH_FLOW_REASON_RULE 1 3 7 1 (zeros 32)) = Some dec ∧
     7 <= d_applied_index dec ∧ d_policy_epoch dec = fs_policy_epoch (current w_rt_published)).
Proof.
  apply (runtime_fails_closed w_rt_published (set_required 7 w_rt_published) [tt] 7 1 w_packet None
    zero_decision);
    [apply w_rt_published_ok|reflexivity|vm_compute; reflexivity|lia].
Defined.

(** A first snapshot is published; a reader enters it while the publisher starts
    overwriting the other slot with the second one. *)
Definition w_args2 : replace_args := mk_args true 8 4 MESH_FLOW_ACTION_ALLOW [w_rule2].
Definition w_mid : system :=
  mk_system
    (bump true 1 (set_writer true w_rt_published))
    (WWriting w_args2 true (pick_slot (rt_slots w_rt_published) false)) [RReading true].

Lemma w_mid_reachable : sys_steps (sys_init w_rt 1) w_mid.
Proof.
  pose (first := pick_slot (rt_slots w_rt_published) true).
  eapply sys_trans; [apply sys_writer_step, (wr_lock _ w_args); [done|evaluate]|].
  eapply sys_trans; [apply sys_writer_step, wr_load|].
  eapply sys_trans; [apply sys_writer_step, wr_newer; by vm_compute|].
  eapply sys_trans; [apply sys_writer_step, wr_begin; by vm_compute|].
  eapply sys_trans; [apply sys_writer_step, (wr_partial _ _ _ _ zero_ruleset)|].
  eapply sys_trans; [apply sys_writer_step, (wr_end _ _ _ _ MESH_FLOW_RULESET_OK first); by vm_compute|].
  eapply sys_trans; [apply sys_writer_step, wr_flip|].
  eapply sys_trans; [apply sys_writer_step, wr_publish|].
  eapply sys_trans; [apply sys_writer_step, wr_release|].
  eapply sys_trans; [apply (sys_reader _ _ _ 0 RIdle); [done|apply rd_start; by vm_compute]|].
  eapply sys_trans; [apply (sys_reader _ _ _ 0 RStart); [done|apply rd_load]|].
  eapply sys_trans; [apply (sys_reader _ _ _ 0 (RLoaded true)); [by vm_compute|apply rd_pin]|].
  eapply sys_trans; [apply sys_writer_step, (wr_lock _ w_args2); [done|evaluate]|].
  eapply sys_trans; [apply (sys_reader _ _ _ 0 (RPinned true)); [done|by apply rd_check]|].
  eapply sys_trans; [apply sys_writer_step, wr_load|].
  eapply sys_trans; [apply sys_writer_step, wr_newer; by vm_compute|].
  eapply sys_trans; [apply sys_writer_step, wr_begin; by vm_compute|].
  eapply sys_trans; [apply (sys_reader _ _ _ 0 (RChecked true)); [done|apply rd_enter; by vm_compute]|].
  vm_compute. apply sys_refl.
Qed.

