(* ===== verification/ControlRaft.v ===== *)
(** * One log for both state machines: [mesh/src/mesh_control_raft.c]

    The control group multiplexes ruleset and lease commands over one log by
    their magic, tracks the applied index, and serves linearizable reads: a
    read registers a context with the Raft service, receives a safe index, and
    completes when the local applied index has reached it.  The last part adds
    [mesh_control_raft_mesh_bridge.c], which publishes committed rulesets to the
    packet path.

    The Raft service is outside the repository: [read_index] is its answer to a
    read request and [responses] the read states it hands out before it answers
    "no entry".  Completion callbacks are recorded in call order. *)

From S2P Require Import Prelude Wire RaftLog TaskLease TaskLeaseRaft FlowRuleset.
From S2P Require Import FlowRulesetRaft FlowRaftAdapter FlowRuntime.

(** ** Data *)

Definition FLOW_MAGIC : bytes := [77; 70; 82; 49].
Definition TASK_MAGIC : bytes := [77; 84; 76; 49].
Definition CONTROL_READ_CONTEXT_PREFIX : Z := 0x4d43545200000000.
Definition CONTROL_READ_CONTEXT_MASK : Z := 0x00000000ffffffff.
Definition MESH_CONTROL_RAFT_MAX_PENDING_READS : nat := 64.

(** A function pointer and its user data are identities. *)
Record mesh_control_pending_read : Type := mk_pending {
  pr_context_id : Z;
  pr_safe_index : Z;
  pr_complete : option Z;
  pr_user_data : option Z;
  pr_active : bool;
  pr_ready : bool }.
Definition zero_pending : mesh_control_pending_read := mk_pending 0 0 None None false false.

Section Control.
Context {C : Type}.

Record mesh_control_raft : Type := mk_control {
  mc_flow : option (mesh_flow_ruleset_raft_adapter C);
  mc_task : option mesh_task_lease_raft_adapter;
  mc_service : option Z;
  mc_applied_index : Z;
  mc_next_read_sequence : Z;
  mc_pending_reads : list mesh_control_pending_read;
  mc_pending_read_count : Z;
  mc_open : bool }.

Definition zero_control : mesh_control_raft :=
  mk_control None None None 0 0 (replicate MESH_CONTROL_RAFT_MAX_PENDING_READS zero_pending) 0 false.

Definition set_mc_flow v (c : mesh_control_raft) :=
  mk_control v (mc_task c) (mc_service c) (mc_applied_index c) (mc_next_read_sequence c)
    (mc_pending_reads c) (mc_pending_read_count c) (mc_open c).
Definition set_mc_task v (c : mesh_control_raft) :=
  mk_control (mc_flow c) v (mc_service c) (mc_applied_index c) (mc_next_read_sequence c)
    (mc_pending_reads c) (mc_pending_read_count c) (mc_open c).
Definition set_mc_service v (c : mesh_control_raft) :=
  mk_control (mc_flow c) (mc_task c) v (mc_applied_index c) (mc_next_read_sequence c)
    (mc_pending_reads c) (mc_pending_read_count c) (mc_open c).
Definition set_mc_applied v (c : mesh_control_raft) :=
  mk_control (mc_flow c) (mc_task c) (mc_service c) v (mc_next_read_sequence c)
    (mc_pending_reads c) (mc_pending_read_count c) (mc_open c).
Definition set_mc_sequence v (c : mesh_control_raft) :=
  mk_control (mc_flow c) (mc_task c) (mc_service c) (mc_applied_index c) v
    (mc_pending_reads c) (mc_pending_read_count c) (mc_open c).
Definition set_mc_pending v n (c : mesh_control_raft) :=
  mk_control (mc_flow c) (mc_task c) (mc_service c) (mc_applied_index c) (mc_next_read_sequence c)
    v n (mc_open c).

(** ** Applying a batch *)

Section Apply.
Context (alloc : Z → bool).

Definition is_flow (data : bytes) : bool := (4 <=? len data) && memeq 4 data FLOW_MAGIC.
Definition is_task (data : bytes) : bool := (4 <=? len data) && memeq 4 data TASK_MAGIC.

(** One iteration of the loop. *)
Definition control_apply_entry (control : mesh_control_raft) (en : raft_entry) :
    turbo_code * mesh_control_raft :=
  let '(result, control) :=
    if is_flow (re_data en) then
      let '(r, flow) := FlowRaftAdapter.apply_batch alloc (mc_flow control) (Some [en]) in
      (r, set_mc_flow flow control)
    else if is_task (re_data en) then
      let '(r, task) := TaskLeaseRaft.apply_batch (mc_task control) (Some [en]) in
      (r, set_mc_task task control)
    else (TURBO_EPROTO, control) in
  if negb (bool_decide (result = TURBO_OK)) then (result, control)
  else (TURBO_OK, set_mc_applied (re_index en) control).

Fixpoint control_apply_entries (control : mesh_control_raft) (entries : list raft_entry) :
    turbo_code * mesh_control_raft :=
  match entries with
  | [] => (TURBO_OK, control)
  | en :: entries' =>
      match control_apply_entry control en with
      | (TURBO_OK, control') => control_apply_entries control' entries'
      | (code, control') => (code, control')
      end
  end.

Definition control_apply_batch (control : option mesh_control_raft)
    (entries : option (list raft_entry)) : turbo_code * option mesh_control_raft :=
  match control, entries with
  | Some c, Some es =>
      if negb (mc_open c) || bool_decide (es = []) then (TURBO_EINVAL, control)
      else if negb (bool_decide (is_Some (mesh_flow_ruleset_raft_state_machine_v1 (mc_flow c)))) ||
              negb (match mesh_task_lease_raft_state_machine_v1 (mc_task c) with
                    | Some _ => true | None => false end)
      then (TURBO_EINVAL, control)
      else let '(r, c') := control_apply_entries c es in (r, Some c')
  | _, _ => (TURBO_EINVAL, control)
  end.

End Apply.

(** ** Life cycle *)

(** [alloc0], [alloc1], [alloc2]: the three allocations in order. *)
Definition mesh_control_raft_create_v1 (alloc0 alloc1 alloc2 : bool)
    (flow_store : option mesh_flow_ruleset_raft_store) (task_store : option mesh_task_lease_store)
    (out_control : option (option mesh_control_raft)) :
    turbo_code * option (option mesh_control_raft) :=
  if negb (bool_decide (is_Some out_control)) then (TURBO_EINVAL, out_control)
  else
    let out_control := assign out_control None in
    if negb (match flow_store with Some st => fr_open st | None => false end) ||
       negb (match task_store with Some st => s_open st | None => false end)
    then (TURBO_EINVAL, out_control)
    else if negb alloc0 then (TURBO_ENOMEM, out_control)
    else
      match mesh_flow_ruleset_raft_adapter_create_v1 alloc1 flow_store (Some None) with
      | (TURBO_OK, flow) =>
          match mesh_task_lease_raft_adapter_create_v1 alloc2 task_store (Some None) with
          | (TURBO_OK, task) =>
              (TURBO_OK,
               assign out_control
                 (Some (mk_control (deref None flow) (deref None task) None 0 0
                    (replicate MESH_CONTROL_RAFT_MAX_PENDING_READS zero_pending) 0 true)))
          | (result, _) => (result, out_control)
          end
      | (result, _) => (result, out_control)
      end.

Definition mesh_control_raft_destroy_v1 (control : option mesh_control_raft) :
    option mesh_control_raft := None.

Definition mesh_control_raft_state_machine_v1 (control : option mesh_control_raft) :
    option mesh_control_raft :=
  match control with
  | Some c => if mc_open c then Some c else None
  | None => None
  end.

Definition mesh_control_raft_bind_service_v1 (control : option mesh_control_raft)
    (service : option Z) : turbo_code * option mesh_control_raft :=
  match control, service with
  | Some c, Some sv =>
      if negb (mc_open c) ||
         (bool_decide (is_Some (mc_service c)) && negb (bool_decide (mc_service c = Some sv)))
      then (TURBO_EINVAL, control)
      else
        let '(r, flow) := mesh_flow_ruleset_raft_adapter_bind_service_v1 (mc_flow c) service in
        let c := set_mc_flow flow c in
        if negb (bool_decide (r = TURBO_OK)) then (r, Some c)
        else
          let '(r, task) := mesh_task_lease_raft_adapter_bind_service_v1 (mc_task c) service in
          let c := set_mc_task task c in
          if negb (bool_decide (r = TURBO_OK)) then (r, Some c)
          else (TURBO_OK, Some (set_mc_service service c))
  | _, _ => (TURBO_EINVAL, control)
  end.

Definition mesh_control_raft_set_flow_publisher_v1 (control : option mesh_control_raft)
    (require : option (require_fn C)) (publish : option (publish_fn C))
    (publisher_context : option C) : turbo_code * option mesh_control_raft :=
  match control with
  | Some c =>
      if negb (mc_open c) then (TURBO_EINVAL, control)
      else
        let '(r, flow) := mesh_flow_ruleset_raft_adapter_set_publisher_v1 (mc_flow c) require
                            publish publisher_context in
        (r, Some (set_mc_flow flow c))
  | None => (TURBO_EINVAL, control)
  end.

Definition mesh_control_raft_poll_v1 (control : option mesh_control_raft)
    (out_flow_published : option Z) : turbo_code * option mesh_control_raft * option Z :=
  match control with
  | Some c =>
      if negb (mc_open c) then (TURBO_EINVAL, control, out_flow_published)
      else
        let '(r, flow, out) :=
          mesh_flow_ruleset_raft_adapter_poll_publish_v1 (mc_flow c) out_flow_published in
        (r, Some (set_mc_flow flow c), out)
  | None => (TURBO_EINVAL, control, out_flow_published)
  end.

Definition mesh_control_raft_applied_index_v1 (control : option mesh_control_raft)
    (out_applied_index : option Z) : turbo_code * option Z :=
  match control, out_applied_index with
  | Some c, Some _ =>
      if negb (mc_open c) then (TURBO_EINVAL, out_applied_index)
      else (TURBO_OK, assign out_applied_index (mc_applied_index c))
  | _, _ => (TURBO_EINVAL, out_applied_index)
  end.

(** ** Linearizable reads *)

Definition find_pending_read (control : mesh_control_raft) (context_id : Z) :
    option (nat * mesh_control_pending_read) :=
  find_slot (λ p, pr_active p && (pr_context_id p =? context_id)) (mc_pending_reads control).

(** The next sequence number, skipping 0. *)
Definition next_sequence (sequence : Z) : Z :=
  let s := Z.land (wrap 64 (sequence + 1)) CONTROL_READ_CONTEXT_MASK in
  if s =? 0 then 1 else s.

(** The allocation loop with [attempts] rounds left. *)
Fixpoint allocate_rounds (attempts : nat) (control : mesh_control_raft) :
    Z * mesh_control_raft :=
  match attempts with
  | O => (0, control)
  | S attempts' =>
      let control := set_mc_sequence (next_sequence (mc_next_read_sequence control)) control in
      let context_id := Z.lor CONTROL_READ_CONTEXT_PREFIX (mc_next_read_sequence control) in
      match find_pending_read control context_id with
      | None => (context_id, control)
      | Some _ => allocate_rounds attempts' control
      end
  end.

Definition allocate_read_context (control : mesh_control_raft) : Z * mesh_control_raft :=
  allocate_rounds (S (Z.to_nat (mc_pending_read_count control))) control.

Definition mesh_control_raft_read_index_v1 (read_index : Z → Z → turbo_code)
    (control : option mesh_control_raft) (complete user_data : option Z)
    (out_context_id : option Z) : turbo_code * option mesh_control_raft * option Z :=
  let out_context_id := assign out_context_id 0 in
  match control, complete, out_context_id with
  | Some c, Some _, Some _ =>
      match mc_service c with
      | Some service =>
          if negb (mc_open c) then (TURBO_EINVAL, control, out_context_id)
          else
            match find_slot (λ p, negb (pr_active p)) (mc_pending_reads c) with
            | None => (TURBO_ENOMEM, control, out_context_id)
            | Some (i, _) =>
                let '(context_id, c) := allocate_read_context c in
                if context_id =? 0 then (TURBO_ENOMEM, Some c, out_context_id)
                else
                  let slot := mk_pending context_id 0 complete user_data true false in
                  let c := set_mc_pending (<[i:=slot]> (mc_pending_reads c))
                             (wrap 64 (mc_pending_read_count c + 1)) c in
                  match read_index service context_id with
                  | TURBO_OK => (TURBO_OK, Some c, assign out_context_id context_id)
                  | result =>
                      (result,
                       Some (set_mc_pending (<[i:=zero_pending]> (mc_pending_reads c))
                               (wrap 64 (mc_pending_read_count c - 1)) c), out_context_id)
                  end
            end
      | None => (TURBO_EINVAL, control, out_context_id)
      end
  | _, _, _ => (TURBO_EINVAL, control, out_context_id)
  end.

(** [take_read_state]: the read states (context, index) the service still has;
    [inl code] is a failure of the service, the end of the list its "no entry". *)
Fixpoint take_read_states (control : mesh_control_raft) (responses : list (turbo_code + Z * Z)) :
    turbo_code * mesh_control_raft :=
  match responses with
  | [] => (TURBO_OK, control)
  | inl code :: _ => (code, control)
  | inr (context_id, index) :: responses' =>
      match find_pending_read control context_id with
      | None => (TURBO_EPROTO, control)
      | Some (i, p) =>
          if pr_ready p then (TURBO_EPROTO, control)
          else
            let p' := mk_pending (pr_context_id p) index (pr_complete p) (pr_user_data p)
                        (pr_active p) true in
            take_read_states
              (set_mc_pending (<[i:=p']> (mc_pending_reads control)) (mc_pending_read_count control)
                 control) responses'
      end
  end.

(** A completion: callback, user data, safe index, applied index. *)
Definition completion : Type := option Z * option Z * Z * Z.

Definition read_completes (applied_index : Z) (p : mesh_control_pending_read) : bool :=
  pr_active p && pr_ready p && (pr_safe_index p <=? applied_index).

(** The completion loop over the slots from [index] on. *)
Fixpoint complete_reads (applied_index : Z) (slots : list mesh_control_pending_read) (count : Z) :
    list mesh_control_pending_read * Z * list completion :=
  match slots with
  | [] => ([], count, [])
  | p :: slots' =>
      if negb (read_completes applied_index p)
      then let '(l, n, done_) := complete_reads applied_index slots' count in (p :: l, n, done_)
      else
        let '(l, n, done_) := complete_reads applied_index slots' (wrap 64 (count - 1)) in
        (zero_pending :: l, n,
         (pr_complete p, pr_user_data p, pr_safe_index p, applied_index) :: done_)
  end.

Definition mesh_control_raft_poll_reads_v1 (responses : list (turbo_code + Z * Z))
    (control : option mesh_control_raft) (out_completed : option Z) :
    turbo_code * option mesh_control_raft * option Z * list completion :=
  let out_completed := assign out_completed 0 in
  match control, out_completed with
  | Some c, Some _ =>
      if negb (mc_open c) || negb (bool_decide (is_Some (mc_service c)))
      then (TURBO_EINVAL, control, out_completed, [])
      else
        match take_read_states c responses with
        | (TURBO_OK, c) =>
            let '(slots, count, done_) :=
              complete_reads (mc_applied_index c) (mc_pending_reads c) (mc_pending_read_count c) in
            (TURBO_OK, Some (set_mc_pending slots count c),
             assign out_completed (Z.of_nat (length done_)), done_)
        | (code, c) => (code, Some c, out_completed, [])
        end
  | _, _ => (TURBO_EINVAL, control, out_completed, [])
  end.

(** ** Proposals *)

Definition mesh_control_raft_propose_flow_snapshot_v1 (propose : Z → Z → bytes → turbo_code)
    (control : option mesh_control_raft) (first_command_id policy_epoch default_action : Z)
    (rules : option (list mesh_flow_rule)) (rule_count : Z) (receipts : bool)
    (receipt_capacity : Z) (out_submitted : option Z) :
    option (turbo_code * list (Z * bytes) * option Z) :=
  match control with
  | Some c =>
      if negb (mc_open c) then Some (TURBO_EINVAL, [], out_submitted)
      else mesh_flow_ruleset_raft_propose_snapshot_v1 propose (mc_flow c) first_command_id
             policy_epoch default_action rules rule_count receipts receipt_capacity out_submitted
  | None => Some (TURBO_EINVAL, [], out_submitted)
  end.

Definition mesh_control_raft_propose_task_v1 (control : option mesh_control_raft) (command_id : Z)
    (command : option mesh_task_lease_raft_command) (out_receipt : bool) :
    turbo_code + (Z * Z * bytes) :=
  match control with
  | Some c =>
      if negb (mc_open c) then inl TURBO_EINVAL
      else mesh_task_lease_raft_propose_v1 (mc_task c) command_id command out_receipt
  | None => inl TURBO_EINVAL
  end.

End Control.

#[global] Arguments mesh_control_raft : clear implicits.

(** ** The bridge to the packet path *)

(** [mem index k]: whether the [k]-th allocation made for the entry at [index]
    succeeds. *)
Definition bridge_require (mem : Z → nat → bool) : require_fn mesh_flow_runtime :=
  λ ctx idx, require_index (mem idx) ctx idx.
Definition bridge_publish (mem : Z → nat → bool) : publish_fn mesh_flow_runtime :=
  λ ctx rs, publish_ruleset (mem (fs_applied_index rs)) ctx rs.

Definition mesh_control_raft_bind_mesh_v1 (mem : Z → nat → bool)
    (control : option (mesh_control_raft mesh_flow_runtime)) (mesh : option mesh_flow_runtime) :
    turbo_code * option (mesh_control_raft mesh_flow_runtime) * option mesh_flow_runtime :=
  match control, mesh with
  | Some _, Some _ =>
      let '(r, mesh) := mesh_internal_flow_policy_prepare_v1 (mem 0) mesh in
      if negb (bool_decide (map_runtime_result r = TURBO_OK))
      then (map_runtime_result r, control, mesh)
      else
        let '(r, control) :=
          mesh_control_raft_set_flow_publisher_v1 control (Some (bridge_require mem))
            (Some (bridge_publish mem)) mesh in
        (r, control, mesh)
  | _, _ => (TURBO_EINVAL, control, mesh)
  end.

(** ** Routing *)

Section Routing.
Context {C : Type} (alloc : Z → bool).
Implicit Types c : mesh_control_raft C.

(** Both adapters are present and usable. *)
Record control_ready c (fa : mesh_flow_ruleset_raft_adapter C)
    (ta : mesh_task_lease_raft_adapter) : Prop := {
  cr_flow : mc_flow c = Some fa;
  cr_task : mc_task c = Some ta;
  cr_flow_open : fa_open fa = true;
  cr_task_open : ta_open ta = true;
  cr_flow_store : is_Some (fa_store fa);
  cr_task_store : is_Some (ta_store ta) }.

Lemma apply_entry_keeps (a a' : mesh_flow_ruleset_raft_adapter C) en code : is_Some (fa_store a) →
  apply_entry alloc a en = (code, a') → fa_open a' = fa_open a ∧ is_Some (fa_store a').
Proof.
  intros [st Hst] H. destruct (apply_entry_shape _ _ _ _ _ _ Hst H) as (st' & ? & ? & ? & ->).
  cbn. eauto.
Qed.

Lemma task_apply_keeps (a a' : mesh_task_lease_raft_adapter) en code : is_Some (ta_store a) →
  TaskLeaseRaft.apply_entries a [en] = (code, a') →
  ta_open a' = ta_open a ∧ is_Some (ta_store a').
Proof.
  intros [st Hst] H. destruct a as [s0 sv op]. cbn in Hst. subst s0.
  rewrite apply_entries_run_batch in H. destruct (run_batch st [en]) as [k st1].
  cbn in H. by simplify_eq.
Qed.

Lemma control_ready_entry c fa ta en code c' : control_ready c fa ta →
  control_apply_entry alloc c en = (code, c') →
  (is_flow (re_data en) = true ∧ ∃ fa', FlowRaftAdapter.apply_entries alloc fa [en] = (code, fa') ∧
     control_ready c' fa' ta) ∨
  (is_flow (re_data en) = false ∧ is_task (re_data en) = true ∧
     ∃ ta', TaskLeaseRaft.apply_entries ta [en] = (code, ta') ∧ control_ready c' fa ta') ∨
  (is_flow (re_data en) = false ∧ is_task (re_data en) = false ∧ code ≠ TURBO_OK).
Proof.
  intros [Hf Ht Hfo Hto Hfs Hts] H. unfold control_apply_entry in H.
  destruct (is_flow (re_data en)) eqn:E1; [left; split; [done|]|right].
  - unfold FlowRaftAdapter.apply_batch in H. rewrite Hf, Hfo, bool_decide_eq_true_2 in H by done.
    cbn [negb orb] in H. rewrite bool_decide_eq_false_2 in H by done.
    destruct (FlowRaftAdapter.apply_entries alloc fa [en]) as [k fa'] eqn:Ea.
    assert (Hk : fa_open fa' = fa_open fa ∧ is_Some (fa_store fa')).
    { cbn in Ea. destruct (apply_entry alloc fa en) as [k1 a1] eqn:E2.
      apply (apply_entry_keeps fa a1 en k1 Hfs) in E2. destruct k1; by simplify_eq. }
    destruct Hk as [Ho Hs]. exists fa'. case_bool_decide; cbn [negb] in H; simplify_eq;
      (split; [done|]); split; cbn; congruence || done.
  - destruct (is_task (re_data en)) eqn:E2; [left|right].
    + split_and!; try done. unfold TaskLeaseRaft.apply_batch in H.
      rewrite Ht, Hto in H. unfold non_null in H. rewrite bool_decide_eq_true_2 in H by done.
      cbn [negb orb] in H. rewrite bool_decide_eq_false_2 in H by done.
      destruct (TaskLeaseRaft.apply_entries ta [en]) as [k ta'] eqn:Ea.
      destruct (task_apply_keeps _ _ _ _ Hts Ea) as [Ho Hs].
      exists ta'. case_bool_decide; cbn [negb] in H; simplify_eq;
        (split; [done|]); split; cbn; congruence || done.
    + rewrite bool_decide_eq_false_2 in H by done. injection H as <- _. by split_and!.
Qed.

Lemma flow_entries_cons a en es :
  FlowRaftAdapter.apply_entries alloc a (en :: es) =
  match FlowRaftAdapter.apply_entries (C := C) alloc a [en] with
  | (TURBO_OK, a') => FlowRaftAdapter.apply_entries alloc a' es
  | (code, a') => (code, a')
  end.
Proof. cbn. by destruct (apply_entry alloc a en) as [[] a']. Qed.

Lemma task_entries_cons a en es :
  TaskLeaseRaft.apply_entries a (en :: es) =
  match TaskLeaseRaft.apply_entries a [en] with
  | (TURBO_OK, a') => TaskLeaseRaft.apply_entries a' es
  | (code, a') => (code, a')
  end.
Proof.
  cbn. destruct (mesh_task_lease_raft_apply_v1 _ _ _ _) as [[r st'] o].
  destruct r; cbn; try done.
Qed.

Lemma control_entry_applied c en c' :
  control_apply_entry alloc c en = (TURBO_OK, c') → mc_applied_index c' = re_index en.
Proof.
  unfold control_apply_entry. destruct (if is_flow _ then _ else _) as [r c1].
  case_bool_decide; cbn; intros; by simplify_eq.
Qed.

Definition flow_entries (es : list raft_entry) : list raft_entry :=
  filter (λ en, is_flow (re_data en) = true) es.
Definition task_entries (es : list raft_entry) : list raft_entry :=
  filter (λ en, is_flow (re_data en) = false ∧ is_task (re_data en) = true) es.
Definition routed (en : raft_entry) : Prop :=
  is_flow (re_data en) = true ∨ is_task (re_data en) = true.

Lemma control_entries_split es : ∀ c fa ta, control_ready c fa ta →
  ((control_apply_entries alloc c es).1 = TURBO_OK ↔
     (FlowRaftAdapter.apply_entries alloc fa (flow_entries es)).1 = TURBO_OK ∧
     (TaskLeaseRaft.apply_entries ta (task_entries es)).1 = TURBO_OK ∧ Forall routed es) ∧
  ((control_apply_entries alloc c es).1 = TURBO_OK →
     control_ready (control_apply_entries alloc c es).2
       (FlowRaftAdapter.apply_entries alloc fa (flow_entries es)).2
       (TaskLeaseRaft.apply_entries ta (task_entries es)).2 ∧
     mc_applied_index (control_apply_entries alloc c es).2 =
       from_option re_index (mc_applied_index c) (last es)).
Proof.
  induction es as [|en es IH]; intros c fa ta Hr.
  { cbn. split; [by repeat split|done]. }
  cbn [control_apply_entries]. destruct (control_apply_entry alloc c en) as [k c1] eqn:Ec.
  unfold flow_entries, task_entries. rewrite !filter_cons. fold (flow_entries es) (task_entries es).
  rewrite Forall_cons, last_cons. unfold routed at 1.
  destruct (control_ready_entry _ _ _ _ _ _ Hr Ec) as
    [(E1 & fa' & Ef & Hr')|[(E1 & E2 & ta' & Et & Hr')|(E1 & E2 & Hk)]]; rewrite E1.
  - rewrite decide_True, decide_False by naive_solver. rewrite flow_entries_cons, Ef.
    destruct (decide (k = TURBO_OK)) as [->|Hk].
    + pose proof (control_entry_applied _ _ _ Ec) as Hap. destruct (IH _ _ _ Hr') as [H1 H2].
      rewrite Hap in H2. split; [tauto|]. intros H. destruct (H2 H) as [? ->].
      split; [done|]. by destruct (last es).
    + destruct k; [done|..]; cbn [fst]; (split; [split; [done|by intros [? _]]|done]).
  - rewrite decide_False, decide_True by naive_solver. rewrite task_entries_cons, Et.
    destruct (decide (k = TURBO_OK)) as [->|Hk].
    + pose proof (control_entry_applied _ _ _ Ec) as Hap. destruct (IH _ _ _ Hr') as [H1 H2].
      rewrite Hap in H2. split; [tauto|]. intros H. destruct (H2 H) as [? ->].
      split; [done|]. by destruct (last es).
    + destruct k; [done|..]; cbn [fst]; (split; [split; [done|by intros (_ & ? & _)]|done]).
  - rewrite E2.
    destruct k; [done|..]; cbn [fst]; (split; [split; [done|by intros (_ & _ & [[?|?] _])]|done]).
Qed.

End Routing.

(** ** Read contexts *)

Section Reads.
Context {C : Type}.
Implicit Types c : mesh_control_raft C.

Definition read_context (sequence : Z) : Z := Z.lor CONTROL_READ_CONTEXT_PREFIX sequence.

(** The pending-read table: distinct contexts, an exact count. *)
Record reads_ok c : Prop := {
  ro_length : length (mc_pending_reads c) = MESH_CONTROL_RAFT_MAX_PENDING_READS;
  ro_count : mc_pending_read_count c = count_slots pr_active (mc_pending_reads c);
  ro_unique : slots_unique pr_active pr_context_id (mc_pending_reads c);
  ro_sequence : 0 <= mc_next_read_sequence c < 2 ^ 32 }.

Lemma next_sequence_eq s : 0 <= s < 2 ^ 32 →
  next_sequence s = if s =? 2 ^ 32 - 1 then 1 else s + 1.
Proof.
  intros Hs. unfold next_sequence. change CONTROL_READ_CONTEXT_MASK with (Z.ones 32).
  rewrite wrap_small by (unfold uint; lia). rewrite Z.land_ones by lia.
  destruct (Z.eqb_spec s (2 ^ 32 - 1)) as [->|]; [done|].
  rewrite Z.mod_small by lia. destruct (Z.eqb_spec (s + 1) 0); lia.
Qed.

(** The sequence number after [j] rounds. *)
Definition sequence_after (s j : Z) : Z := if s + j <? 2 ^ 32 then s + j else s + j - (2 ^ 32 - 1).

Lemma sequence_after_next s j : 0 <= s < 2 ^ 32 → 0 <= j < 2 ^ 31 →
  sequence_after (next_sequence s) j = sequence_after s (j + 1).
Proof.
  intros Hs Hj. rewrite next_sequence_eq by done. unfold sequence_after.
  destruct (Z.eqb_spec s (2 ^ 32 - 1)) as [->|]; repeat case_match; bool_prop; lia.
Qed.

Lemma read_context_eq s : 0 <= s < 2 ^ 32 → read_context s = CONTROL_READ_CONTEXT_PREFIX + s.
Proof.
  intros Hs. unfold read_context. change CONTROL_READ_CONTEXT_PREFIX with (Z.shiftl 0x4d435452 32).
  pose proof (Z.add_lor_land (Z.shiftl 0x4d435452 32) s) as Hl.
  enough (Z.land (Z.shiftl 0x4d435452 32) s = 0) by lia. clear Hl.
  apply Z.bits_inj'. intros n Hn. rewrite Z.land_spec, Z.bits_0.
  destruct (Z.ltb_spec n 32).
  - rewrite Z.shiftl_spec_low by lia. done.
  - rewrite (Z.bits_above_log2 s n); [apply andb_false_r|lia|].
    destruct (decide (s = 0)) as [->|]; [simpl; lia|].
    assert (Z.log2 s < 32) by (apply Z.log2_lt_pow2; lia). lia.
Qed.

(** The contexts tried in [k] rounds. *)
Fixpoint tried (k : nat) (s : Z) : list Z :=
  match k with O => [] | S k' => read_context (next_sequence s) :: tried k' (next_sequence s) end.

Lemma next_sequence_range s : 0 <= s < 2 ^ 32 → 0 <= next_sequence s < 2 ^ 32.
Proof. intros Hs. rewrite next_sequence_eq by done. case_match; bool_prop; lia. Qed.

Lemma tried_lookup k : ∀ s j, 0 <= s < 2 ^ 32 → (j < k)%nat → Z.of_nat k < 2 ^ 31 →
  tried k s !! j = Some (CONTROL_READ_CONTEXT_PREFIX + sequence_after s (Z.of_nat j + 1)).
Proof.
  induction k as [|k IH]; intros s j Hs Hj Hk; [lia|]. pose proof (next_sequence_range s Hs) as Hn.
  destruct j as [|j]; cbn [tried lookup list_lookup].
  - rewrite read_context_eq by done. do 2 f_equal. rewrite <- sequence_after_next by lia.
    unfold sequence_after. case_match; bool_prop; lia.
  - rewrite IH by lia. rewrite sequence_after_next by lia. do 3 f_equal. lia.
Qed.

Lemma tried_NoDup k s : 0 <= s < 2 ^ 32 → Z.of_nat k < 2 ^ 31 → NoDup (tried k s).
Proof.
  intros Hs Hk. assert (Hlen : ∀ k s, length (tried k s) = k).
  { clear. induction k as [|k IH]; intros s; [done|]. cbn. by rewrite IH. }
  apply NoDup_alt. intros i j x Hi Hj.
  pose proof (lookup_lt_Some _ _ _ Hi) as Hli. pose proof (lookup_lt_Some _ _ _ Hj) as Hlj.
  rewrite Hlen in Hli, Hlj. rewrite tried_lookup in Hi, Hj by done.
  simplify_eq. unfold sequence_after in *. repeat case_match; bool_prop; lia.
Qed.

(** If every round finds its context taken, that many contexts are pending. *)
Lemma allocate_rounds_cases k : ∀ c, 0 <= mc_next_read_sequence c < 2 ^ 32 →
  let '(ctx, c') := allocate_rounds k c in
  mc_pending_reads c' = mc_pending_reads c ∧
  mc_pending_read_count c' = mc_pending_read_count c ∧ mc_open c' = mc_open c ∧
  mc_service c' = mc_service c ∧ mc_applied_index c' = mc_applied_index c ∧
  0 <= mc_next_read_sequence c' < 2 ^ 32 ∧
  ((ctx ≠ 0 ∧ find_pending_read c ctx = None) ∨
   (ctx = 0 ∧ Forall (λ x, is_Some (find_pending_read c x)) (tried k (mc_next_read_sequence c)))).
Proof.
  induction k as [|k IH]; intros c Hs; cbn [allocate_rounds tried].
  { split_and!; try done; try lia. right. by split; [|constructor]. }
  pose proof (next_sequence_range _ Hs) as Hn.
  set (c1 := set_mc_sequence _ c).
  change (mc_next_read_sequence c1) with (next_sequence (mc_next_read_sequence c)).
  fold (read_context (next_sequence (mc_next_read_sequence c))).
  change (find_pending_read c1) with (find_pending_read c).
  destruct (find_pending_read c _) as [ip|] eqn:Ef.
  - specialize (IH c1 Hn). destruct (allocate_rounds k c1) as [ctx c'].
    destruct IH as (H1 & H2 & H3 & H4 & H5 & H6 & [H7|[H7 H8]]); split_and!; try done; try lia; [by left|].
    right. split; [done|]. constructor; [by rewrite Ef|done].
  - split_and!; try done; try (cbn; lia). left. split; [|done]. rewrite read_context_eq by done.
    unfold CONTROL_READ_CONTEXT_PREFIX. lia.
Qed.

Lemma allocate_fresh c : reads_ok c →
  let '(ctx, c') := allocate_read_context c in
  ctx ≠ 0 ∧ find_pending_read c ctx = None ∧
  mc_pending_reads c' = mc_pending_reads c ∧ mc_pending_read_count c' = mc_pending_read_count c ∧
  mc_open c' = mc_open c ∧ mc_service c' = mc_service c ∧
  mc_applied_index c' = mc_applied_index c ∧ 0 <= mc_next_read_sequence c' < 2 ^ 32.
Proof.
  intros [Hl Hc Hu Hs]. unfold allocate_read_context.
  pose proof (allocate_rounds_cases (S (Z.to_nat (mc_pending_read_count c))) c Hs) as H.
  destruct (allocate_rounds _ c) as [ctx c'].
  destruct H as (H1 & H2 & H3 & H4 & H5 & H6 & [[H7 H8]|[_ H8]]); [by split_and!; try lia|exfalso].
  set (k := S (Z.to_nat (mc_pending_read_count c))) in *.
  pose proof (count_slots_bounds pr_active (mc_pending_reads c)) as Hb. rewrite Hl, <- Hc in Hb.
  assert (Hk : Z.of_nat k < 2 ^ 31).
  { unfold k. unfold MESH_CONTROL_RAFT_MAX_PENDING_READS in Hb. lia. }
  pose proof (tried_NoDup k (mc_next_read_sequence c) Hs Hk) as Hnd.
  set (act := pr_context_id <$> filter (λ p, pr_active p = true) (mc_pending_reads c)).
  assert (Hsub : tried k (mc_next_read_sequence c) ⊆+ act).
  { apply NoDup_submseteq; [done|]. intros x Hx. rewrite Forall_forall in H8.
    destruct (H8 x Hx) as [[i p] Hp]. unfold find_pending_read in Hp.
    apply find_slot_Some in Hp as [Hi Hp]. bool_prop. apply list_elem_of_fmap. exists p.
    split; [done|]. apply list_elem_of_filter. split; [done|]. by eapply list_elem_of_lookup_2. }
  apply submseteq_length in Hsub. unfold act in Hsub. rewrite length_fmap in Hsub.
  assert (Hlen : ∀ k s, length (tried k s) = k).
  { clear. induction k as [|k IH]; intros s; [done|]. cbn. by rewrite IH. }
  rewrite Hlen in Hsub.
  assert (Hf : Z.of_nat (length (filter (λ p, pr_active p = true) (mc_pending_reads c))) =
               count_slots pr_active (mc_pending_reads c)).
  { clear. induction (mc_pending_reads c) as [|p l IH]; [done|]. rewrite filter_cons. cbn.
    destruct (pr_active p); [rewrite decide_True by done|rewrite decide_False by done]; cbn; lia. }
  unfold k in Hsub. lia.
Qed.

Lemma find_pending_key c ctx :
  find_pending_read c ctx = find_slot (slot_key pr_active pr_context_id ctx) (mc_pending_reads c).
Proof.
  apply find_slot_ext. intros p _. unfold slot_key. f_equal.
  apply eq_bool_prop_intro. by rewrite Is_true_true, Z.eqb_eq, bool_decide_spec.
Qed.

Lemma count_active_bounds c : reads_ok c → 0 <= mc_pending_read_count c <= 64.
Proof.
  intros [Hl Hc _ _]. pose proof (count_slots_bounds pr_active (mc_pending_reads c)) as H.
  rewrite Hl in H. unfold MESH_CONTROL_RAFT_MAX_PENDING_READS in H. lia.
Qed.

Lemma read_index_cases read_index c complete user r c' out : reads_ok c → mc_open c = true →
  mesh_control_raft_read_index_v1 read_index (Some c) (Some complete) user (Some 0) =
    (r, Some c', out) →
  reads_ok c' ∧ mc_applied_index c' = mc_applied_index c ∧
  (r = TURBO_OK → ∃ ctx i, out = Some ctx ∧ ctx ≠ 0 ∧ find_pending_read c ctx = None ∧
     find_pending_read c' ctx = Some (i, mk_pending ctx 0 (Some complete) user true false)) ∧
  (r ≠ TURBO_OK → mc_pending_read_count c' = mc_pending_read_count c).
Proof.
  intros Hok Hop H. unfold mesh_control_raft_read_index_v1 in H.
  cbn [assign fmap option_fmap option_map] in H.
  destruct (mc_service c) as [sv|] eqn:Hsv; [|by simplify_eq].
  rewrite Hop in H. cbn [negb] in H.
  destruct (find_slot (λ p, negb (pr_active p)) (mc_pending_reads c)) as [[i p]|] eqn:Ei;
    [|by simplify_eq].
  apply find_slot_Some in Ei as [Hi Hp]. apply negb_true_iff in Hp.
  pose proof (allocate_fresh c Hok) as Hal. destruct (allocate_read_context c) as [ctx c1].
  destruct Hal as (Hctx & Hfree & Hpr & Hct & _ & _ & Hap & Hsq).
  pose proof (count_active_bounds c Hok) as Hb. destruct Hok as [Hl Hc Hu Hs].
  destruct (Z.eqb_spec ctx 0); [done|]. rewrite Hpr, Hct in H.
  set (slot := mk_pending ctx 0 (Some complete) user true false) in H.
  assert (Hu' : slots_unique pr_active pr_context_id (<[i:=slot]> (mc_pending_reads c))).
  { eapply slots_unique_fresh; [done..|]. by rewrite <- find_pending_key. }
  assert (Hlt : (i < length (mc_pending_reads c))%nat) by (by eapply lookup_lt_Some).
  pose proof (count_slots_insert pr_active _ i p slot Hi) as Hcnt. rewrite Hp in Hcnt. cbn in Hcnt.
  destruct (decide (read_index sv ctx = TURBO_OK)) as [Er|Er].
  - rewrite Er in H. injection H as <- <- <-. split_and!; try done.
    + split; cbn; try done; [by rewrite length_insert|].
      rewrite Hcnt, wrap_small by (unfold uint; lia). lia.
    + intros _. exists ctx, i. split_and!; try done. rewrite find_pending_key. cbn.
      apply (find_slot_unique pr_active pr_context_id _ i slot); try done.
      by apply list_lookup_insert_eq.
  - assert (E : (read_index sv ctx, Some (set_mc_pending (<[i:=zero_pending]> (<[i:=slot]> (mc_pending_reads c)))
      (wrap 64 (wrap 64 (mc_pending_read_count c + 1) - 1)) c1), Some 0) = (r, Some c', out)).
    { rewrite <- H. by destruct (read_index sv ctx). }
    clear H. injection E as <- <- <-. cbn [mc_pending_read_count set_mc_pending].
    rewrite list_insert_insert_eq, (wrap_small 64 (mc_pending_read_count c + 1)) by (unfold uint; lia).
    rewrite wrap_small by (unfold uint; lia). split_and!; try done; [|lia].
    split; cbn; try done; [by rewrite length_insert| |].
    + rewrite (count_slots_insert pr_active _ i p zero_pending Hi), Hp. cbn. lia.
    + by eapply slots_unique_clear.
Qed.

Lemma take_read_states_ok responses : ∀ c r c', reads_ok c →
  take_read_states c responses = (r, c') →
  reads_ok c' ∧ mc_applied_index c' = mc_applied_index c ∧
  mc_pending_read_count c' = mc_pending_read_count c.
Proof.
  induction responses as [|[code|[ctx idx]] l IH]; intros c r c' Hok H; cbn [take_read_states] in H;
    [by simplify_eq..|].
  destruct (find_pending_read c ctx) as [[i p]|] eqn:Ef; [|by simplify_eq].
  destruct (pr_ready p); [by simplify_eq|].
  rewrite find_pending_key in Ef. apply find_slot_Some in Ef as [Hi [Ha Hk]%slot_key_true].
  apply IH in H as (H1 & H2 & H3).
  - by split_and!.
  - destruct Hok as [Hl Hc Hu Hs]. split; cbn; try done; [by rewrite length_insert| |].
    + rewrite (count_slots_insert pr_active _ i p _ Hi). cbn. rewrite Ha. lia.
    + by eapply slots_unique_update.
Qed.

Definition clear_done (ap : Z) (p : mesh_control_pending_read) : mesh_control_pending_read :=
  if read_completes ap p then zero_pending else p.

Lemma complete_reads_spec ap slots : ∀ n, count_slots pr_active slots <= n < 2 ^ 64 →
  complete_reads ap slots n =
  (clear_done ap <$> slots,
   n - count_slots pr_active slots + count_slots pr_active (clear_done ap <$> slots),
   (λ p, (pr_complete p, pr_user_data p, pr_safe_index p, ap)) <$>
     filter (λ p, read_completes ap p = true) slots).
Proof.
  induction slots as [|p slots IH]; intros n Hn; cbn [complete_reads fmap list_fmap count_slots].
  { do 2 f_equal. lia. }
  cbn [count_slots] in Hn. pose proof (count_slots_bounds pr_active slots).
  rewrite filter_cons. unfold clear_done at 1 3. destruct (read_completes ap p) eqn:E; cbn [negb].
  - assert (Ha : pr_active p = true) by (unfold read_completes in E; by bool_prop).
    rewrite Ha in *. rewrite wrap_small by (unfold uint; lia). rewrite IH by lia.
    rewrite decide_True by done. cbn. do 2 f_equal. lia.
  - rewrite IH by (case_match; lia). rewrite decide_False by done. do 2 f_equal. lia.
Qed.

Lemma clear_done_ok ap l : slots_unique pr_active pr_context_id l →
  slots_unique pr_active pr_context_id (clear_done ap <$> l).
Proof.
  intros Hu i j x y Hi Hj Hx Hy Hk. rewrite list_lookup_fmap in Hi, Hj.
  destruct (l !! i) as [p|] eqn:Ep; [|done]. destruct (l !! j) as [q|] eqn:Eq; [|done].
  cbn in Hi, Hj. unfold clear_done in *. injection Hi as <-. injection Hj as <-.
  destruct (read_completes ap p); [done|]. destruct (read_completes ap q); [done|].
  by eapply Hu.
Qed.

Lemma completed_count ap l :
  Z.of_nat (length (filter (λ p, read_completes ap p = true) l)) =
  count_slots pr_active l - count_slots pr_active (clear_done ap <$> l).
Proof.
  induction l as [|p l IH]; [done|]. rewrite filter_cons. cbn [fmap list_fmap count_slots].
  unfold clear_done at 1. destruct (read_completes ap p) eqn:E.
  - rewrite decide_True by done. unfold read_completes in E. bool_prop.
    cbn [length pr_active zero_pending]. case_match; [|congruence]. lia.
  - rewrite decide_False by done. lia.
Qed.

End Reads.

(** ** The bridge between the log and the packet path *)

Section Bridge.
Context (alloc : Z → bool) (mem : Z → nat → bool).
Implicit Types a : mesh_flow_ruleset_raft_adapter mesh_flow_runtime.

(** The adapter publishes to the open runtime [rt], where at least index [k] is
    required. *)
Definition bridged (k : Z) a : Prop :=
  fa_require a = Some (bridge_require mem) ∧ fa_publish a = Some (bridge_publish mem) ∧
  ∃ rt, fa_publisher_context a = Some rt ∧ rt_open rt = true ∧ k <= rt_required_index rt.

Lemma bridge_require_spec rt idx code ctx : rt_open rt = true →
  bridge_require mem (Some rt) idx = (code, ctx) →
  ∃ rt', ctx = Some rt' ∧ rt_open rt' = true ∧ rt_required_index rt <= rt_required_index rt' ∧
    (code = TURBO_OK → idx ≠ 0 ∧ idx <= rt_required_index rt').
Proof.
  intros Ho H. unfold bridge_require, require_index, mesh_internal_flow_policy_require_v1,
    mesh_flow_runtime_require_index_v1 in H.
  rewrite Ho in H. cbn [negb orb] in H. destruct (Z.eqb_spec idx 0) as [->|Hne].
  - injection H as <- <-. exists rt. split_and!; done || lia.
  - injection H as <- <-. eexists. split; [done|].
    cbn [rt_open rt_required_index set_required].
    destruct (Z.ltb_spec (rt_required_index rt) idx); split_and!; done || lia.
Qed.

Lemma bridge_publish_spec rt rs code ctx : rt_open rt = true →
  bridge_publish mem (Some rt) rs = (code, ctx) →
  ∃ rt', ctx = Some rt' ∧ rt_open rt' = true ∧ rt_required_index rt' = rt_required_index rt.
Proof.
  intros Ho H. unfold bridge_publish, publish_ruleset, mesh_internal_flow_policy_publish_v1,
    mesh_flow_runtime_publish_v1 in H. rewrite Ho in H. cbn [negb] in H.
  step_in H; [injection H as _ <-; eauto|].
  step_in H; [injection H as _ <-; eauto|].
  step_in H; [injection H as _ <-; eauto|].
  step_in H; [injection H as _ <-; eauto|].
  destruct (mesh_flow_ruleset_apply_replace_v1 _ _ _ _ _ _ _) as [res slot].
  injection H as _ <-. eexists. split; [done|]. by destruct (bool_decide _).
Qed.

(** The entry holds a COMMIT command. *)
Definition is_commit (en : raft_entry) : Prop :=
  ∃ cmd, mesh_flow_ruleset_raft_decode_v1 (Some (re_data en)) (Some zero_fcommand) =
    (MESH_FLOW_RULESET_OK, Some cmd) ∧ f_operation cmd = MESH_FLOW_RULESET_RAFT_COMMIT.

Lemma bridged_entry k a en code a' : bridged k a → apply_entry alloc a en = (code, a') →
  bridged k a' ∧ (code = TURBO_OK → is_commit en → re_index en ≠ 0 ∧ bridged (re_index en) a').
Proof.
  intros (Hrq & Hpb & rt & Hctx & Hop & Hk) H. unfold apply_entry in H.
  destruct (mesh_flow_ruleset_raft_decode_v1 _ _) as [dr cmd] eqn:Ed.
  destruct (decide (dr = MESH_FLOW_RULESET_OK)) as [->|Hne].
  2:{ assert (a' = a) as -> by (destruct dr; by simplify_eq).
      split; [by repeat (split || exists rt)|]. intros _ (c & Hc & _). congruence. }
  destruct (f_operation (deref zero_fcommand cmd) =? MESH_FLOW_RULESET_RAFT_COMMIT) eqn:Ec.
  - rewrite Hrq, Hctx in H. destruct (bridge_require mem (Some rt) (re_index en)) as [r ctx] eqn:Er.
    destruct (bridge_require_spec _ _ _ _ Hop Er) as (rt1 & -> & Ho1 & Hm1 & Hok1).
    case_bool_decide as Hr; cbn [negb] in H.
    2:{ injection H as <- <-. split; [|done]. repeat split; [done..|]. exists rt1.
        split_and!; done || lia. }
    destruct (mesh_flow_ruleset_raft_apply_v1 _ _ _ _) as [res st'].
    specialize (Hok1 Hr) as [Hnz Hge].
    case_bool_decide as Hres; cbn [negb] in H.
    2:{ injection H as <- <-. split; [repeat split; [done..|]; exists rt1; split_and!; done || lia|].
        by intros ?%map_ruleset_result_OK. }
    cbn [fa_publish set_fa_store set_fa_context] in H. rewrite Hpb in H.
    unfold call_publish in H. cbn [fa_publisher_context set_fa_store set_fa_context] in H.
    destruct (bridge_publish mem (Some rt1) _) as [pr ctx] eqn:Ep.
    destruct (bridge_publish_spec _ _ _ _ Ho1 Ep) as (rt2 & -> & Ho2 & Hq2).
    assert (Hb : ∀ j, j <= rt_required_index rt1 → bridged j a').
    { intros j Hj. case_bool_decide; injection H as _ <-; (repeat split; [done..|]); exists rt2;
        (split_and!; [done..|lia]). }
    split; [apply Hb; lia|]. intros _ _. split; [done|]. by apply Hb.
  - split.
    + rewrite Hrq in H. rewrite bool_decide_eq_true_2 in H by done. cbn [negb] in H.
      destruct (mesh_flow_ruleset_raft_apply_v1 _ _ _ _) as [res st'].
      case_bool_decide; cbn [negb fa_publish set_fa_store] in H; [rewrite Hpb in H|];
        injection H as _ <-; (repeat split; [done..|]); exists rt; by split_and!.
    + intros _ (c & Hc & Hop'). rewrite Ed in Hc. injection Hc as ->. apply Z.eqb_neq in Ec. done.
Qed.

Lemma bridged_entries es : ∀ k a code a', bridged k a →
  FlowRaftAdapter.apply_entries alloc a es = (code, a') →
  bridged k a' ∧ (code = TURBO_OK → ∀ en, en ∈ es → is_commit en →
    re_index en ≠ 0 ∧ bridged (re_index en) a').
Proof.
  induction es as [|en es IH]; intros k a code a' Hb H; cbn in H.
  { simplify_eq. split; [done|]. by intros _ en ?%not_elem_of_nil. }
  destruct (apply_entry alloc a en) as [c1 a1] eqn:E1.
  destruct (bridged_entry _ _ _ _ _ Hb E1) as [Hb1 Hc1].
  destruct (decide (c1 = TURBO_OK)) as [->|Hne].
  - destruct (IH _ _ _ _ Hb1 H) as [Hb' Hc']. split; [done|].
    intros Hcode en' [->|Hin]%elem_of_cons Hcm; [|by apply Hc'].
    destruct (Hc1 eq_refl Hcm) as [Hnz Hb2]. split; [done|].
    exact (proj1 (IH _ _ _ _ Hb2 H)).
  - assert (a' = a1 ∧ code = c1) as [-> ->] by (destruct c1; by simplify_eq). done.
Qed.

Lemma commit_is_flow en : is_commit en → is_flow (re_data en) = true.
Proof.
  intros (cmd & H & _). unfold mesh_flow_ruleset_raft_decode_v1 in H. cbn [deref] in H.
  step_in H; [done|]. bool_prop. unfold is_flow. apply andb_true_iff. split; [|done].
  unfold MESH_FLOW_RULESET_RAFT_HEADER_SIZE in *. apply Z.leb_le. lia.
Qed.

Lemma apply_batch_bridged k a es code o : bridged k a →
  FlowRaftAdapter.apply_batch alloc (Some a) (Some es) = (code, o) →
  ∃ a', o = Some a' ∧ bridged k a' ∧ (code = TURBO_OK → ∀ en, en ∈ es → is_commit en →
    re_index en ≠ 0 ∧ bridged (re_index en) a').
Proof.
  intros Hb H. unfold FlowRaftAdapter.apply_batch in H. step_in H; [injection H as <- <-; exists a; by split_and!|].
  destruct (FlowRaftAdapter.apply_entries alloc a es) as [c1 a1] eqn:E1.
  injection H as <- <-. exists a1. split; [done|]. by eapply bridged_entries.
Qed.

Lemma control_entry_bridged k (c : mesh_control_raft mesh_flow_runtime) a en code c' :
  mc_flow c = Some a → bridged k a → control_apply_entry alloc c en = (code, c') →
  ∃ a', mc_flow c' = Some a' ∧ bridged k a' ∧ (code = TURBO_OK → is_commit en →
    re_index en ≠ 0 ∧ bridged (re_index en) a').
Proof.
  intros Hf Hb H. unfold control_apply_entry in H. rewrite Hf in H.
  pose proof (commit_is_flow en) as Hcf. destruct (is_flow (re_data en)).
  - destruct (FlowRaftAdapter.apply_batch alloc (Some a) (Some [en])) as [r o] eqn:E.
    destruct (apply_batch_bridged _ _ _ _ _ Hb E) as (a' & -> & Hb' & Hc').
    exists a'. case_bool_decide as Hr; cbn [negb] in H; injection H as <- <-; (split_and!; [done..|]);
      [|done]. intros _. apply Hc'; [done|]. by apply list_elem_of_singleton.
  - exists a. assert (Hne : ¬ is_commit en) by (intros ?%Hcf; done).
    destruct (is_task (re_data en)).
    + destruct (TaskLeaseRaft.apply_batch _ _) as [r o].
      case_bool_decide; injection H as <- <-; by split_and!.
    + by injection H as <- <-; split_and!.
Qed.

Lemma control_entries_bridged es : ∀ k (c : mesh_control_raft mesh_flow_runtime) a code c',
  mc_flow c = Some a → bridged k a → control_apply_entries alloc c es = (code, c') →
  ∃ a', mc_flow c' = Some a' ∧ bridged k a' ∧ (code = TURBO_OK → ∀ en, en ∈ es → is_commit en →
    re_index en ≠ 0 ∧ bridged (re_index en) a').
Proof.
  induction es as [|en es IH]; intros k c a code c' Hf Hb H; cbn [control_apply_entries] in H.
  { simplify_eq. exists a. split_and!; [done..|]. by intros _ en ?%not_elem_of_nil. }
  destruct (control_apply_entry alloc c en) as [c1 s1] eqn:E1.
  destruct (control_entry_bridged _ _ _ _ _ _ Hf Hb E1) as (a1 & Hf1 & Hb1 & Hc1).
  destruct (decide (c1 = TURBO_OK)) as [->|Hne].
  - destruct (IH _ _ _ _ _ Hf1 Hb1 H) as (a' & Hf' & Hb' & Hc'). exists a'.
    split_and!; [done..|]. intros Hcode en' [->|Hin]%elem_of_cons Hcm; [|by apply Hc'].
    destruct (Hc1 eq_refl Hcm) as [Hnz Hb2]. split; [done|].
    destruct (IH _ _ _ _ _ Hf1 Hb2 H) as (a2 & Hf2 & Hb3 & _). congruence.
  - assert (c' = s1 ∧ code = c1) as [-> ->] by (destruct c1; by simplify_eq).
    exists a1. by split_and!.
Qed.

Lemma control_batch_bridged k (c : mesh_control_raft mesh_flow_runtime) a es code o :
  mc_flow c = Some a → bridged k a → control_apply_batch alloc (Some c) (Some es) = (code, o) →
  ∃ c' a', o = Some c' ∧ mc_flow c' = Some a' ∧ bridged k a' ∧
    (code = TURBO_OK → ∀ en, en ∈ es → is_commit en → re_index en ≠ 0 ∧ bridged (re_index en) a').
Proof.
  intros Hf Hb H. unfold control_apply_batch in H.
  step_in H; [injection H as <- <-; exists c, a; by split_and!|].
  step_in H; [injection H as <- <-; exists c, a; by split_and!|].
  destruct (control_apply_entries alloc c es) as [c1 s1] eqn:E1. injection H as <- <-.
  destruct (control_entries_bridged _ _ _ _ _ _ Hf Hb E1) as (a' & ? & ? & ?). eauto 10.
Qed.

Lemma control_poll_bridged k (c : mesh_control_raft mesh_flow_runtime) a out code o out' :
  mc_flow c = Some a → bridged k a → mesh_control_raft_poll_v1 (Some c) out = (code, o, out') →
  ∃ c' a', o = Some c' ∧ mc_flow c' = Some a' ∧ bridged k a'.
Proof.
  intros Hf Hb H. unfold mesh_control_raft_poll_v1 in H.
  step_in H; [injection H as <- <- <-; eauto|].
  destruct (mesh_flow_ruleset_raft_adapter_poll_publish_v1 _ _) as [[r o'] out1] eqn:Ep.
  injection H as <- <- <-. eexists. cbn [mc_flow set_mc_flow].
  unfold mesh_flow_ruleset_raft_adapter_poll_publish_v1 in Ep. rewrite Hf in Ep.
  destruct out as [v|]; cbn [assign fmap option_fmap option_map] in Ep; [|injection Ep as <- <- <-; eauto].
  step_in Ep; [injection Ep as <- <- <-; eauto|].
  step_in Ep; [injection Ep as <- <- <-; eauto|].
  destruct Hb as (Hrq & Hpb & rt & Hctx & Hop & Hk). rewrite Hpb in Ep.
  unfold call_publish in Ep. rewrite Hctx in Ep.
  destruct (bridge_publish mem (Some rt) _) as [pr ctx] eqn:Eb.
  destruct (bridge_publish_spec _ _ _ _ Hop Eb) as (rt2 & -> & Ho2 & Hq2).
  case_bool_decide; cbn [negb] in Ep; injection Ep as <- <- <-; eexists; (split; [done|]);
    (split; [done|]); (repeat split; [done..|]); exists rt2; split_and!; done || lia.
Qed.

(** What the control group does after binding: batches, whatever their result,
    and polls, in any order. *)
Inductive control_run : mesh_control_raft mesh_flow_runtime →
    mesh_control_raft mesh_flow_runtime → Prop :=
  | run_refl c : control_run c c
  | run_batch_step c es code c1 c2 :
      control_apply_batch alloc (Some c) (Some es) = (code, Some c1) →
      control_run c1 c2 → control_run c c2
  | run_poll_step c out code c1 out' c2 :
      mesh_control_raft_poll_v1 (Some c) out = (code, Some c1, out') →
      control_run c1 c2 → control_run c c2.

Lemma control_run_bridged k c c' a : control_run c c' → mc_flow c = Some a → bridged k a →
  ∃ a', mc_flow c' = Some a' ∧ bridged k a'.
Proof.
  intros Hr. revert a. induction Hr as [c|c es code c1 c2 H _ IH|c out code c1 out' c2 H _ IH];
    intros a Hf Hb; [eauto| |].
  - destruct (control_batch_bridged _ _ _ _ _ _ Hf Hb H) as (? & ? & [= <-] & ? & ? & _). eauto.
  - destruct (control_poll_bridged _ _ _ _ _ _ _ Hf Hb H) as (? & ? & [= <-] & ? & ?). eauto.
Qed.

Lemma bind_mesh_bridged c fa rt c1 m : mc_flow c = Some fa → 0 <= rt_required_index rt →
  mesh_control_raft_bind_mesh_v1 mem (Some c) (Some rt) = (TURBO_OK, Some c1, m) →
  ∃ a, mc_flow c1 = Some a ∧ bridged 0 a.
Proof.
  intros Hf Hq H. unfold mesh_control_raft_bind_mesh_v1 in H.
  destruct (mesh_internal_flow_policy_prepare_v1 (mem 0) (Some rt)) as [r o] eqn:Ep.
  step_in H; [by injection H as ? _ _; bool_prop|]. bool_prop.
  assert (r = MESH_FLOW_RUNTIME_OK) as -> by (by destruct r).
  assert (∃ rt', o = Some rt' ∧ rt_open rt' = true ∧ 0 <= rt_required_index rt') as
    (rt' & -> & Ho & Hq').
  { unfold mesh_internal_flow_policy_prepare_v1 in Ep. destruct (rt_open rt) eqn:Eo.
    - injection Ep as <-. eauto.
    - unfold mesh_flow_runtime_init_v1 in Ep. rewrite Eo in Ep.
      destruct (mesh_flow_ruleset_init_v1 _ _ _ _) as [[] s0]; try done.
      destruct (mesh_flow_ruleset_init_v1 _ _ _ _) as [[] s1]; try done.
      injection Ep as <-. eexists. split; [done|]. cbn. split; [done|lia]. }
  unfold mesh_control_raft_set_flow_publisher_v1 in H. rewrite Hf in H.
  destruct (negb (mc_open c)); [done|].
  unfold mesh_flow_ruleset_raft_adapter_set_publisher_v1 in H.
  destruct (negb (fa_open fa) || _ || _); [done|]. injection H as <- _.
  eexists. cbn [mc_flow set_mc_flow]. split; [done|]. repeat split. by exists rt'.
Qed.

End Bridge.

(** ** Theorems *)

(** One log carries both state machines without interference: a batch
    succeeds exactly when every entry has a known magic, the ruleset entries
    succeed on the ruleset adapter and the lease entries on the lease adapter,
    each run by itself in log order; the adapters then hold the results of
    those runs and the applied index is that of the last entry. *)
Theorem control_batch_decomposes {C : Type} (alloc : Z → bool) (c : mesh_control_raft C)
    (fa : mesh_flow_ruleset_raft_adapter C) (ta : mesh_task_lease_raft_adapter)
    (es : list raft_entry) (r : turbo_code) (o : option (mesh_control_raft C)) :
  control_ready c fa ta → mc_open c = true → es ≠ [] →
  control_apply_batch alloc (Some c) (Some es) = (r, o) →
  (r = TURBO_OK ↔
     (FlowRaftAdapter.apply_entries alloc fa (flow_entries es)).1 = TURBO_OK ∧
     (TaskLeaseRaft.apply_entries ta (task_entries es)).1 = TURBO_OK ∧ Forall routed es) ∧
  (r = TURBO_OK → ∃ c', o = Some c' ∧
     control_ready c' (FlowRaftAdapter.apply_entries alloc fa (flow_entries es)).2
       (TaskLeaseRaft.apply_entries ta (task_entries es)).2 ∧
     Some (mc_applied_index c') = re_index <$> last es).
Proof.
  intros Hr Ho Hes H. unfold control_apply_batch in H. rewrite Ho in H.
  rewrite bool_decide_eq_false_2 in H by done. cbn [negb orb] in H.
  destruct Hr as [Hf Ht Hfo Hto Hfs Hts]. rewrite Hf, Ht in H.
  unfold mesh_flow_ruleset_raft_state_machine_v1, mesh_task_lease_raft_state_machine_v1 in H.
  rewrite Hfo, Hto in H. rewrite bool_decide_eq_true_2 in H by done. cbn [negb orb] in H.
  destruct (control_entries_split alloc es c fa ta) as [H1 H2]; [by split|].
  destruct (control_apply_entries alloc c es) as [r' c']. injection H as <- <-.
  split; [done|]. intros Hr. destruct (H2 Hr) as [Hr' Hap]. exists c'. split_and!; [done..|].
  cbn [snd] in Hap. rewrite Hap. destruct (last es) eqn:El; [done|]. by apply last_None in El.
Qed.

(** A read request that the service accepts gets a nonzero context no other
    pending read uses, even when the sequence number wraps or its successors are
    taken; a failed request leaves the number of pending reads as it was. *)
Theorem control_read_registers {C : Type} (read_index : Z → Z → turbo_code)
    (c c' : mesh_control_raft C) (complete : Z) (user : option Z) (r : turbo_code)
    (out : option Z) :
  reads_ok c → mc_open c = true →
  mesh_control_raft_read_index_v1 read_index (Some c) (Some complete) user (Some 0) =
    (r, Some c', out) →
  reads_ok c' ∧ mc_applied_index c' = mc_applied_index c ∧
  (r = TURBO_OK → ∃ ctx i, out = Some ctx ∧ ctx ≠ 0 ∧ find_pending_read c ctx = None ∧
     find_pending_read c' ctx = Some (i, mk_pending ctx 0 (Some complete) user true false)) ∧
  (r ≠ TURBO_OK → mc_pending_read_count c' = mc_pending_read_count c).
Proof. apply read_index_cases. Qed.


(** C13: the packet path never lags behind the log: after the network is bound
    and a batch containing a COMMIT has been applied, and whatever batches and
    polls follow, no packet passes unfiltered and every decision comes from a
    snapshot at or after that COMMIT. *)
Theorem control_policy_fails_closed (alloc : Z → bool) (mem : Z → nat → bool)
    (c c1 c2 c3 c4 : mesh_control_raft mesh_flow_runtime)
    (fa : mesh_flow_ruleset_raft_adapter mesh_flow_runtime) (rt : mesh_flow_runtime)
    (m : option mesh_flow_runtime) (es : list raft_entry) (en : raft_entry) :
  mc_flow c = Some fa → 0 <= rt_required_index rt →
  mesh_control_raft_bind_mesh_v1 mem (Some c) (Some rt) = (TURBO_OK, Some c1, m) →
  control_run alloc c1 c2 →
  control_apply_batch alloc (Some c2) (Some es) = (TURBO_OK, Some c3) →
  Forall entry_typed es → en ∈ es → is_commit en →
  control_run alloc c3 c4 →
  ∃ a rt', mc_flow c4 = Some a ∧ fa_publisher_context a = Some rt' ∧
  ∀ direction packet peer out r d,
    mesh_flow_runtime_evaluate_ipv4_v1 (Some rt') direction (Some packet) peer (Some out) = (r, d) →
    r ≠ MESH_FLOW_RUNTIME_DISABLED ∧
    (r = MESH_FLOW_RUNTIME_OK → ∃ dec, d = Some dec ∧ re_index en <= d_applied_index dec).
Proof.
  intros Hf Hq Hbind Hr1 Hb Hty Hin Hcm Hr2.
  destruct (bind_mesh_bridged mem _ _ _ _ _ Hf Hq Hbind) as (a1 & Hf1 & Hb1).
  destruct (control_run_bridged _ mem _ _ _ _ Hr1 Hf1 Hb1) as (a2 & Hf2 & Hb2).
  destruct (control_batch_bridged _ mem _ _ _ _ _ _ Hf2 Hb2 Hb) as (? & a3 & [= <-] & Hf3 & _ & Hc3).
  destruct (Hc3 eq_refl en Hin Hcm) as [Hnz Hb3].
  destruct (control_run_bridged _ mem _ _ _ _ Hr2 Hf3 Hb3) as (a4 & Hf4 & _ & _ & rt' & Hctx & _ & Hle).
  rewrite Forall_forall in Hty. destruct (Hty en Hin) as [Hidx _]. unfold uint in Hidx.
  exists a4, rt'. split_and!; [done..|]. intros direction packet peer out r d He.
  apply evaluate_fresh in He as [Hdis Hfresh]. split.
  - intros ->. destruct (Hdis eq_refl). lia.
  - intros ->. destruct (Hfresh eq_refl) as (_ & Hge & Hev).
    destruct (evaluate_OK_some _ _ _ _ Hev) as (dec & -> & Ed & _).
    exists dec. rewrite Ed. split; [done|lia].
Qed.

(** ** Witnesses *)

Definition w_control {C} (fa : mesh_flow_ruleset_raft_adapter C)
    (sequence : Z) (reads : list mesh_control_pending_read) (count : Z) : mesh_control_raft C :=
  mk_control (Some fa) (Some w_adapter) (Some 1) 12 sequence
    (reads ++ replicate (64 - length reads) zero_pending) count true.

(** Lease commands around and between the entries of a ruleset transaction. *)
Definition w_mixed : list raft_entry :=
  [w_entry_of 1 (w_cmd_register w_cid)] ++ take 1 w_snapshot ++
  [w_entry_of 6 (w_cmd_acquire w_alice)] ++
  [mk_raft_entry 7 (encode_fcommand w_chunk)] ++ drop 2 w_snapshot.

Lemma control_batch_decomposes_witness :
  let c := w_control w_fadapter 0 [] 0 in
  let o := (control_apply_batch (λ _, true) (Some c) (Some w_mixed)).2 in
  (TURBO_OK = TURBO_OK ↔
     (FlowRaftAdapter.apply_entries (λ _, true) w_fadapter (flow_entries w_mixed)).1 = TURBO_OK ∧
     (TaskLeaseRaft.apply_entries w_adapter (task_entries w_mixed)).1 = TURBO_OK ∧
     Forall routed w_mixed) ∧
  (TURBO_OK = TURBO_OK → ∃ c', o = Some c' ∧
     control_ready c'
       (FlowRaftAdapter.apply_entries (λ _, true) w_fadapter (flow_entries w_mixed)).2
       (TaskLeaseRaft.apply_entries w_adapter (task_entries w_mixed)).2 ∧
     Some (mc_applied_index c') = re_index <$> last w_mixed).
Proof.
  apply (control_batch_decomposes (λ _, true) (w_control w_fadapter 0 [] 0) w_fadapter w_adapter
    w_mixed TURBO_OK);
    [split; done || eexists; reflexivity|reflexivity|discriminate|vm_compute; reflexivity].
Defined.

(** The sequence number is at its maximum and its successor 1 is taken. *)
Definition w_reading : mesh_control_raft unit :=
  w_control w_fadapter (2 ^ 32 - 1)
    [mk_pending (read_context 1) 0 (Some 5) None true false;
     mk_pending (read_context 7) 0 (Some 6) None true false] 2.

Lemma w_reading_ok : reads_ok w_reading.
Proof.
  split; [reflexivity|reflexivity| |cbn; lia].
  intros i j x y Hi Hj Hx Hy Hk.
  assert (Hr : ∀ i x, mc_pending_reads w_reading !! i = Some x → pr_active x = true →
    (i = 0%nat ∧ pr_context_id x = read_context 1) ∨ (i = 1%nat ∧ pr_context_id x = read_context 7)).
  { clear. intros [|[|i]] x H Hx; [injection H as <-; by left|injection H as <-; by right|].
    change (replicate 62 zero_pending !! i = Some x) in H.
    apply lookup_replicate in H as [-> _]. done. }
  destruct (Hr _ _ Hi Hx) as [[-> Ex]|[-> Ex]], (Hr _ _ Hj Hy) as [[-> Ey]|[-> Ey]]; try done;
    rewrite Ex, Ey in Hk; vm_compute in Hk; discriminate.
Qed.

Lemma control_read_registers_witness :
  let q := mesh_control_raft_read_index_v1 (λ _ _, TURBO_OK) (Some w_reading) (Some 9) None (Some 0) in
  let c' := deref w_reading q.1.2 in
  q.1.1 = TURBO_OK ∧ q.2 = Some (read_context 2) ∧
  reads_ok c' ∧ mc_applied_index c' = mc_applied_index w_reading ∧
  (q.1.1 = TURBO_OK → ∃ ctx i, q.2 = Some ctx ∧ ctx ≠ 0 ∧ find_pending_read w_reading ctx = None ∧
     find_pending_read c' ctx = Some (i, mk_pending ctx 0 (Some 9) None true false)) ∧
  (q.1.1 ≠ TURBO_OK → mc_pending_read_count c' = mc_pending_read_count w_reading).
Proof.
  intros q c'. split; [reflexivity|]. split; [vm_compute; reflexivity|].
  apply (control_read_registers (λ _ _, TURBO_OK) w_reading c' 9 None);
    [apply w_reading_ok|reflexivity|vm_compute; reflexivity].
Defined.


Definition w_bound : mesh_control_raft mesh_flow_runtime :=
  w_control (mk_fadapter (Some w_fresh) (Some 1) None None None 0 false true) 0 [] 0.
Definition w_mem : Z → nat → bool := λ _ _, true.
Definition w_c1 : mesh_control_raft mesh_flow_runtime :=
  deref w_bound (mesh_control_raft_bind_mesh_v1 w_mem (Some w_bound) (Some zero_runtime)).1.2.
Definition w_c3 : mesh_control_raft mesh_flow_runtime :=
  deref w_bound (control_apply_batch (λ _, true) (Some w_c1) (Some w_snapshot)).2.

Definition w_mesh : mesh_flow_runtime :=
  deref zero_runtime (mesh_control_raft_bind_mesh_v1 w_mem (Some w_bound) (Some zero_runtime)).2.

(** A result that evaluates to success with a value, without evaluating the value. *)
Definition succeeds {A} (q : turbo_code * option A) : bool :=
  bool_decide (q.1 = TURBO_OK) && bool_decide (is_Some q.2).
Lemma succeeds_eq {A} (q : turbo_code * option A) d : succeeds q = true →
  q = (TURBO_OK, Some (deref d q.2)).
Proof. destruct q as [[] [x|]]; done. Qed.

Lemma w_bind_ok :
  mesh_control_raft_bind_mesh_v1 w_mem (Some w_bound) (Some zero_runtime) =
    (TURBO_OK, Some w_c1, Some w_mesh).
Proof.
  pose (q := mesh_control_raft_bind_mesh_v1 w_mem (Some w_bound) (Some zero_runtime)).
  pose proof (succeeds_eq (q.1) w_bound) as H1.
  pose proof (succeeds_eq (TURBO_OK, q.2) zero_runtime) as H2.
  assert (E1 : succeeds q.1 = true) by (vm_compute; reflexivity).
  assert (E2 : succeeds (TURBO_OK, q.2) = true) by (vm_compute; reflexivity).
  specialize (H1 E1). specialize (H2 E2). unfold w_c1, w_mesh. fold q. clearbody q.
  destruct q as [q1 q2]. cbn [fst snd] in *. injection H2 as <-. by rewrite <- H1.
Qed.

Lemma control_policy_fails_closed_witness :
  ∃ a rt', mc_flow w_c3 = Some a ∧ fa_publisher_context a = Some rt' ∧
  ∀ direction packet peer out r d,
    mesh_flow_runtime_evaluate_ipv4_v1 (Some rt') direction (Some packet) peer (Some out) = (r, d) →
    r ≠ MESH_FLOW_RUNTIME_DISABLED ∧
    (r = MESH_FLOW_RUNTIME_OK → ∃ dec, d = Some dec ∧ 9 <= d_applied_index dec).
Proof.
  apply (control_policy_fails_closed (λ _, true) w_mem w_bound w_c1 w_c1 w_c3 w_c3
    (mk_fadapter (Some w_fresh) (Some 1) None None None 0 false true) zero_runtime
    (Some w_mesh) w_snapshot (nth 2 w_snapshot (mk_raft_entry 0 [])));
    [reflexivity|cbn; lia|apply w_bind_ok|constructor|
     apply succeeds_eq; vm_compute; reflexivity|evaluate|
     by apply list_elem_of_lookup; exists 2%nat|eexists; split; vm_compute; reflexivity|constructor].
Defined.
