(* ===== verification/MgmtCodec.v ===== *)
(** * Frames of the management protocol: [mesh/src/mesh_mgmt_codec.c]

    A frame is a 14-byte prefix, a header and a payload of TLV fields with
    strictly increasing ids, and a signature.  A pointer with a separate length
    is an optional byte list and the length; a pointer into another buffer that
    a view hands out is the list of the bytes it covers. *)

From S2P Require Import Prelude Wire.

(** ** Data *)

Definition MESH_MGMT_FRAME_MAX : Z := 16384.
Definition MESH_MGMT_HEADER_MAX : Z := 512.
Definition MESH_MGMT_PREFIX_SIZE : Z := 14.
Definition MESH_MGMT_SIGNATURE_SIZE : Z := 64.
Definition MESH_MGMT_MAJOR_V1 : Z := 1.
Definition MESH_MGMT_MINOR_V1 : Z := 1.

(** The message kinds, by their wire values. *)
Definition MESH_MGMT_KIND_HELLO : Z := 0x01.
Definition MESH_MGMT_KIND_HELLO_ACK : Z := 0x02.
Definition MESH_MGMT_KIND_FORWARD : Z := 0x03.
Definition MESH_MGMT_KIND_PROBE : Z := 0x10.
Definition MESH_MGMT_KIND_PROBE_ACK : Z := 0x11.
Definition MESH_MGMT_KIND_INDIRECT_PROBE : Z := 0x12.
Definition MESH_MGMT_KIND_INDIRECT_ACK : Z := 0x13.
Definition MESH_MGMT_KIND_MEMBERSHIP_DELTA : Z := 0x14.
Definition MESH_MGMT_KIND_DIGEST : Z := 0x20.
Definition MESH_MGMT_KIND_DELTA_REQUEST : Z := 0x21.
Definition MESH_MGMT_KIND_DELTA_BATCH : Z := 0x22.
Definition MESH_MGMT_KIND_COMMAND_REQUEST : Z := 0x30.
Definition MESH_MGMT_KIND_COMMAND_ACCEPTED : Z := 0x31.
Definition MESH_MGMT_KIND_COMMAND_RESULT : Z := 0x32.
Definition MESH_MGMT_KIND_COMMAND_STATUS : Z := 0x33.
Definition MESH_MGMT_KIND_AUDIT_ANCHOR : Z := 0x40.
Definition MESH_MGMT_KIND_STREAM_TICKET_REQUEST : Z := 0x50.
Definition MESH_MGMT_KIND_STREAM_TICKET_ISSUED : Z := 0x51.
Definition MESH_MGMT_KIND_CONTROL_FRAME : Z := 0x60.
Definition MESH_MGMT_KIND_ERROR : Z := 0x7f.

Inductive mesh_mgmt_codec_result : Type :=
  | MESH_MGMT_CODEC_OK
  | MESH_MGMT_CODEC_INVALID_ARG
  | MESH_MGMT_CODEC_INVALID_FRAME
  | MESH_MGMT_CODEC_UNSUPPORTED_VERSION
  | MESH_MGMT_CODEC_RESOURCE_EXHAUSTED.

#[export] Instance mesh_mgmt_codec_result_eq_dec : EqDecision mesh_mgmt_codec_result.
Proof. solve_decision. Defined.

Record mesh_mgmt_frame_view : Type := mk_frame {
  fv_major : Z;
  fv_minor : Z;
  fv_kind : Z;
  fv_flags : Z;
  fv_header : option bytes;
  fv_header_len : Z;
  fv_payload : option bytes;
  fv_payload_len : Z;
  fv_signature : option bytes }.
(** The encoder's input has the same members. *)
Definition mesh_mgmt_frame_input : Type := mesh_mgmt_frame_view.
Definition zero_frame : mesh_mgmt_frame_view := mk_frame 0 0 0 0 None 0 None 0 None.

Record mesh_mgmt_tlv_reader : Type := mk_reader {
  rd_bytes : option bytes;
  rd_length : Z;
  rd_offset : Z;
  rd_previous_field_id : Z;
  rd_has_previous : bool }.
Record mesh_mgmt_tlv_view : Type := mk_tlv_view {
  tv_field_id : Z;
  tv_value : option bytes;
  tv_value_len : Z }.
Definition zero_reader : mesh_mgmt_tlv_reader := mk_reader None 0 0 0 false.
Definition zero_tlv_view : mesh_mgmt_tlv_view := mk_tlv_view 0 None 0.

Definition MESH_MGMT_MAGIC : bytes := [84; 77; 71; 77].

Definition known_kinds : list Z :=
  [MESH_MGMT_KIND_HELLO; MESH_MGMT_KIND_HELLO_ACK; MESH_MGMT_KIND_FORWARD; MESH_MGMT_KIND_PROBE;
   MESH_MGMT_KIND_PROBE_ACK; MESH_MGMT_KIND_INDIRECT_PROBE; MESH_MGMT_KIND_INDIRECT_ACK;
   MESH_MGMT_KIND_MEMBERSHIP_DELTA; MESH_MGMT_KIND_DIGEST; MESH_MGMT_KIND_DELTA_REQUEST;
   MESH_MGMT_KIND_DELTA_BATCH; MESH_MGMT_KIND_COMMAND_REQUEST; MESH_MGMT_KIND_COMMAND_ACCEPTED;
   MESH_MGMT_KIND_COMMAND_RESULT; MESH_MGMT_KIND_COMMAND_STATUS; MESH_MGMT_KIND_AUDIT_ANCHOR;
   MESH_MGMT_KIND_STREAM_TICKET_REQUEST; MESH_MGMT_KIND_STREAM_TICKET_ISSUED;
   MESH_MGMT_KIND_CONTROL_FRAME; MESH_MGMT_KIND_ERROR].
Definition mesh_mgmt_kind_is_known (kind : Z) : bool := existsb (Z.eqb kind) known_kinds.
#[global] Arguments mesh_mgmt_kind_is_known : simpl never.

(** ** TLV reader *)

Definition mesh_mgmt_tlv_reader_init (reader : option mesh_mgmt_tlv_reader) (b : option bytes)
    (length : Z) : option mesh_mgmt_tlv_reader := assign reader (mk_reader b length 0 0 false).

(** The return value (1, 0 or -1), the reader and the field. *)
Definition mesh_mgmt_tlv_reader_next (reader : option mesh_mgmt_tlv_reader)
    (out_field : option mesh_mgmt_tlv_view) :
    Z * option mesh_mgmt_tlv_reader * option mesh_mgmt_tlv_view :=
  match reader, out_field with
  | Some rd, Some _ =>
      if (negb (non_null (rd_bytes rd)) && negb (rd_length rd =? 0)) ||
         (rd_length rd <? rd_offset rd)
      then (-1, reader, out_field)
      else
        let out_field := Some zero_tlv_view in
        if rd_offset rd =? rd_length rd then (0, reader, out_field)
        else
          let remaining := rd_length rd - rd_offset rd in
          let b := deref [] (rd_bytes rd) in
          let offset := Z.to_nat (rd_offset rd) in
          if remaining <? 4 then (-1, reader, out_field)
          else
            let field_id := mesh_mgmt_wire_read_u16 (sub b offset 2) in
            let field_length := mesh_mgmt_wire_read_u16 (sub b (offset + 2) 2) in
            if rd_has_previous rd && (field_id <=? rd_previous_field_id rd)
            then (-1, reader, out_field)
            else if remaining - 4 <? field_length then (-1, reader, out_field)
            else (1, Some (mk_reader (rd_bytes rd) (rd_length rd)
                             (rd_offset rd + (4 + field_length)) field_id true),
                  Some (mk_tlv_view field_id
                          (Some (sub b (offset + 4) (Z.to_nat field_length))) field_length))
  | _, _ => (-1, reader, out_field)
  end.

(** The [while] loop over the fields; [None] when [fuel] runs out. *)
Fixpoint canonical_loop (fuel : nat) (reader : mesh_mgmt_tlv_reader) (field : mesh_mgmt_tlv_view) :
    option Z :=
  match fuel with
  | O => None
  | S fuel' =>
      let '(result, reader', field') := mesh_mgmt_tlv_reader_next (Some reader) (Some field) in
      if 0 <? result then canonical_loop fuel' (deref reader reader') (deref field field')
      else Some result
  end.

(** Each field takes at least one byte, so [length + 1] rounds suffice
    ([canonical_loop_total]). *)
Definition mesh_mgmt_tlv_block_is_canonical (b : option bytes) (length : Z) : bool :=
  if negb (non_null b) && negb (length =? 0) then false
  else
    let reader := deref zero_reader (mesh_mgmt_tlv_reader_init (Some zero_reader) b length) in
    bool_decide (canonical_loop (S (Z.to_nat length)) reader zero_tlv_view = Some 0).

(** ** Frames *)

Definition mesh_mgmt_frame_layout (major kind flags : Z) (header : option bytes) (header_len : Z)
    (payload : option bytes) (payload_len : Z) (out_total : option Z) :
    mesh_mgmt_codec_result * option Z :=
  if negb (non_null out_total) || (negb (non_null header) && negb (header_len =? 0)) ||
     (negb (non_null payload) && negb (payload_len =? 0))
  then (MESH_MGMT_CODEC_INVALID_ARG, out_total)
  else if negb (major =? MESH_MGMT_MAJOR_V1) then (MESH_MGMT_CODEC_UNSUPPORTED_VERSION, out_total)
  else if negb (mesh_mgmt_kind_is_known kind) || negb (flags =? 0)
  then (MESH_MGMT_CODEC_INVALID_FRAME, out_total)
  else if (MESH_MGMT_HEADER_MAX <? header_len) || (UINT16_MAX <? header_len) ||
          (UINT32_MAX <? payload_len)
  then (MESH_MGMT_CODEC_RESOURCE_EXHAUSTED, out_total)
  else if MESH_MGMT_FRAME_MAX - MESH_MGMT_PREFIX_SIZE - MESH_MGMT_SIGNATURE_SIZE - header_len <?
          payload_len
  then (MESH_MGMT_CODEC_RESOURCE_EXHAUSTED, out_total)
  else if negb (mesh_mgmt_tlv_block_is_canonical header header_len) ||
          negb (mesh_mgmt_tlv_block_is_canonical payload payload_len)
  then (MESH_MGMT_CODEC_INVALID_FRAME, out_total)
  else (MESH_MGMT_CODEC_OK,
        assign out_total
          (MESH_MGMT_PREFIX_SIZE + header_len + payload_len + MESH_MGMT_SIGNATURE_SIZE)).

Definition mesh_mgmt_frame_decode (frame : option bytes) (out_view : option mesh_mgmt_frame_view) :
    mesh_mgmt_codec_result * option mesh_mgmt_frame_view :=
  match frame, out_view with
  | Some f, Some _ =>
      let out_view := Some zero_frame in
      let frame_len := len f in
      if frame_len <? MESH_MGMT_PREFIX_SIZE + MESH_MGMT_SIGNATURE_SIZE
      then (MESH_MGMT_CODEC_INVALID_FRAME, out_view)
      else if MESH_MGMT_FRAME_MAX <? frame_len
      then (MESH_MGMT_CODEC_RESOURCE_EXHAUSTED, out_view)
      else if negb (memeq 4 f MESH_MGMT_MAGIC) then (MESH_MGMT_CODEC_INVALID_FRAME, out_view)
      else
        let header_len := mesh_mgmt_wire_read_u16 (sub f 8 2) in
        let payload_len := mesh_mgmt_wire_read_u32 (sub f 10 4) in
        if (MESH_MGMT_HEADER_MAX <? header_len) ||
           (MESH_MGMT_FRAME_MAX - MESH_MGMT_PREFIX_SIZE - MESH_MGMT_SIGNATURE_SIZE - header_len <?
            payload_len)
        then (MESH_MGMT_CODEC_RESOURCE_EXHAUSTED, out_view)
        else
          let expected_len :=
            MESH_MGMT_PREFIX_SIZE + header_len + payload_len + MESH_MGMT_SIGNATURE_SIZE in
          if negb (expected_len =? frame_len) then (MESH_MGMT_CODEC_INVALID_FRAME, out_view)
          else
            let h := Z.to_nat header_len in
            let p := Z.to_nat payload_len in
            let header := Some (sub f 14 h) in
            let payload := Some (sub f (14 + h) p) in
            match mesh_mgmt_frame_layout (at_ f 4) (at_ f 6) (at_ f 7) header header_len payload
                    payload_len (Some expected_len) with
            | (MESH_MGMT_CODEC_OK, _) =>
                (MESH_MGMT_CODEC_OK,
                 Some (mk_frame (at_ f 4) (at_ f 5) (at_ f 6) (at_ f 7) header header_len payload
                         payload_len (Some (sub f (14 + h + p) 64))))
            | (result, _) => (result, out_view)
            end
  | _, _ => (MESH_MGMT_CODEC_INVALID_ARG, out_view)
  end.

(** The bytes a pointer and length cover. *)
Definition block (p : option bytes) (n : Z) : bytes := take (Z.to_nat n) (deref [] p).

(** The bytes the encoder writes, in order. *)
Definition encode_frame (input : mesh_mgmt_frame_input) : bytes :=
  MESH_MGMT_MAGIC ++ [fv_major input; fv_minor input; fv_kind input; fv_flags input] ++
  mesh_mgmt_wire_write_u16 (wrap 16 (fv_header_len input)) ++
  mesh_mgmt_wire_write_u32 (wrap 32 (fv_payload_len input)) ++
  block (fv_header input) (fv_header_len input) ++
  block (fv_payload input) (fv_payload_len input) ++ take 64 (deref [] (fv_signature input)).

Definition mesh_mgmt_frame_encode (input : option mesh_mgmt_frame_input) (output : option bytes)
    (out_len : option Z) : mesh_mgmt_codec_result * option bytes * option Z :=
  match input, out_len with
  | Some inp, Some _ =>
      if negb (non_null (fv_signature inp)) then (MESH_MGMT_CODEC_INVALID_ARG, output, out_len)
      else
        let out_len := assign out_len 0 in
        match mesh_mgmt_frame_layout (fv_major inp) (fv_kind inp) (fv_flags inp) (fv_header inp)
                (fv_header_len inp) (fv_payload inp) (fv_payload_len inp) (Some 0) with
        | (MESH_MGMT_CODEC_OK, total) =>
            let out_len := assign out_len (deref 0 total) in
            if negb (non_null output) || (len (deref [] output) <? deref 0 total)
            then (MESH_MGMT_CODEC_RESOURCE_EXHAUSTED, output, out_len)
            else (MESH_MGMT_CODEC_OK, (λ o, blit o 0 (encode_frame inp)) <$> output, out_len)
        | (result, _) => (result, output, out_len)
        end
  | _, _ => (MESH_MGMT_CODEC_INVALID_ARG, output, out_len)
  end.

(** [mesh_mgmt_wire_read_field] *)
Definition mesh_mgmt_wire_read_field (reader : option mesh_mgmt_tlv_reader) (expected_id : Z)
    (expected_length : Z) (field : option mesh_mgmt_tlv_view) :
    bool * option mesh_mgmt_tlv_reader * option mesh_mgmt_tlv_view :=
  let '(r, reader, field) := mesh_mgmt_tlv_reader_next reader field in
  ((r =? 1) && (tv_field_id (deref zero_tlv_view field) =? expected_id) &&
   (tv_value_len (deref zero_tlv_view field) =? expected_length), reader, field).

(** ** Field lists *)

(** The abstract content of a TLV block. *)
Record tlv : Type := mk_tlv { t_id : Z; t_value : bytes }.
Definition tlv_ok (t : tlv) : Prop := u16 (t_id t) ∧ Forall u8 (t_value t) ∧ len (t_value t) < 2 ^ 16.
Definition encode_tlv (t : tlv) : bytes := mesh_mgmt_wire_write_tlv (t_id t) (t_value t).
Definition encode_tlvs (l : list tlv) : bytes := concat (encode_tlv <$> l).
Definition view_of (t : tlv) : mesh_mgmt_tlv_view :=
  mk_tlv_view (t_id t) (Some (t_value t)) (len (t_value t)).

(** Ids strictly increase from [prev] on. *)
Definition above (prev : option Z) (i : Z) : Prop :=
  match prev with Some p => p < i | None => True end.
Fixpoint ascending (prev : option Z) (l : list tlv) : Prop :=
  match l with [] => True | t :: l' => above prev (t_id t) ∧ ascending (Some (t_id t)) l' end.

Section Reader.
Context (b : bytes) (Hb : Forall u8 b).

(** The reader of [b] at [off] after the field [prev]. *)
Definition reader_at (off : nat) (prev : option Z) : mesh_mgmt_tlv_reader :=
  mk_reader (Some b) (len b) (Z.of_nat off) (default 0 prev) (bool_decide (is_Some prev)).

Lemma length_encode_tlv t : length (encode_tlv t) = (4 + length (t_value t))%nat.
Proof. unfold encode_tlv, mesh_mgmt_wire_write_tlv. by rewrite !length_app. Qed.

Lemma above_test prev i : bool_decide (is_Some prev) && (i <=? default 0 prev) = false ↔ above prev i.
Proof.
  destruct prev as [p|]; cbn [default above].
  - rewrite bool_decide_eq_true_2 by done. cbn. rewrite Z.leb_gt. lia.
  - by rewrite bool_decide_eq_false_2 by (by intros [? ?]).
Qed.

Lemma next_end prev field :
  mesh_mgmt_tlv_reader_next (Some (reader_at (length b) prev)) (Some field) =
    (0, Some (reader_at (length b) prev), Some zero_tlv_view).
Proof.
  unfold mesh_mgmt_tlv_reader_next, reader_at, len. cbn [rd_bytes rd_length rd_offset].
  by rewrite Z.ltb_irrefl, Z.eqb_refl.
Qed.

Lemma next_field off prev field t rest : (off <= length b)%nat → tlv_ok t → above prev (t_id t) →
  drop off b = encode_tlv t ++ rest →
  mesh_mgmt_tlv_reader_next (Some (reader_at off prev)) (Some field) =
    (1, Some (reader_at (off + length (encode_tlv t)) (Some (t_id t))), Some (view_of t)).
Proof.
  intros Hoff (Hid & Hv & Hlen) Hab Hd. pose proof (length_drop b off) as Hld.
  rewrite Hd, length_app, length_encode_tlv in Hld.
  assert (Hs : ∀ k n, sub b (off + k) n = sub (encode_tlv t ++ rest) k n).
  { intros k n. unfold sub. by rewrite <- drop_drop, Hd. }
  unfold mesh_mgmt_tlv_reader_next, reader_at.
  cbn [rd_bytes rd_length rd_offset rd_has_previous rd_previous_field_id].
  change (negb (non_null (Some b))) with false. cbn [andb orb deref]. rewrite Nat2Z.id.
  unfold encode_tlv, mesh_mgmt_wire_write_tlv in Hs. rewrite <- !app_assoc in Hs.
  assert (E1 : mesh_mgmt_wire_read_u16 (sub b off 2) = t_id t).
  { rewrite <- (Nat.add_0_r off), Hs. seek. by apply wire_read_write_u16. }
  assert (E2 : mesh_mgmt_wire_read_u16 (sub b (off + 2) 2) = len (t_value t)).
  { rewrite Hs. seek. rewrite wrap_small by (unfold uint, len in *; lia).
    apply wire_read_write_u16. unfold uint, len in *. lia. }
  assert (E3 : sub b (off + 4) (Z.to_nat (len (t_value t))) = t_value t).
  { rewrite Hs. unfold len. rewrite Nat2Z.id. by seek. }
  rewrite E1, E2, E3. apply above_test in Hab. rewrite Hab.
  unfold len in *. pass_guards. rewrite length_encode_tlv. unfold view_of, len. do 3 f_equal.
  unfold reader_at, len. by f_equal; lia.
Qed.

Lemma next_inv off prev field rd' f' : (off <= length b)%nat →
  mesh_mgmt_tlv_reader_next (Some (reader_at off prev)) (Some field) = (1, rd', f') →
  ∃ t rest, drop off b = encode_tlv t ++ rest ∧ tlv_ok t ∧ above prev (t_id t).
Proof.
  intros Hoff H. unfold mesh_mgmt_tlv_reader_next, reader_at in H.
  cbn [rd_bytes rd_length rd_offset rd_has_previous rd_previous_field_id deref] in H.
  rewrite Nat2Z.id in H. repeat (step_in H; [done|]). clear H. unfold len in *.
  apply above_test in E2. bool_prop.
  set (n := mesh_mgmt_wire_read_u16 (sub b (off + 2) 2)) in *.
  pose proof (wire_read_u16_range (sub b (off + 2) 2)) as Hn. fold n in Hn. unfold uint in Hn.
  exists (mk_tlv (mesh_mgmt_wire_read_u16 (sub b off 2)) (sub b (off + 4) (Z.to_nat n))).
  exists (drop (off + 4 + Z.to_nat n) b). assert (Hln : length (sub b (off + 4) (Z.to_nat n)) = Z.to_nat n).
  { apply length_sub. lia. }
  split_and!; [|split_and!; cbn [t_id t_value]|done].
  - unfold encode_tlv, mesh_mgmt_wire_write_tlv. cbn [t_id t_value].
    unfold len. rewrite Hln, Z2Nat.id, wrap_small by (unfold uint; lia).
    assert (Hw : ∀ k, (off + k + 2 <= length b)%nat →
      mesh_mgmt_wire_write_u16 (mesh_mgmt_wire_read_u16 (sub b (off + k) 2)) = sub b (off + k) 2).
    { intros k Hk. apply wire_write_read_u16. split; [apply length_sub; lia|by apply sub_Forall]. }
    pose proof (Hw 0%nat) as H0'. rewrite Nat.add_0_r in H0'. rewrite H0' by lia.
    unfold n at 1. rewrite Hw by lia. unfold sub. rewrite <- !app_assoc.
    rewrite <- (take_drop 2 (drop off b)) at 1. f_equal. rewrite drop_drop.
    rewrite <- (take_drop 2 (drop (off + 2) b)) at 1. f_equal. rewrite drop_drop.
    replace (off + 2 + 2)%nat with (off + 4)%nat by lia.
    rewrite <- (take_drop (Z.to_nat n) (drop (off + 4) b)) at 1. by rewrite drop_drop.
  - apply wire_read_u16_range.
  - by apply sub_Forall.
  - unfold len. rewrite Hln. lia.
Qed.

Lemma next_result off prev field : (off <= length b)%nat →
  let r := (mesh_mgmt_tlv_reader_next (Some (reader_at off prev)) (Some field)).1.1 in
  r = 1 ∨ r = -1 ∨ (r = 0 ∧ off = length b).
Proof.
  intros Hoff. unfold mesh_mgmt_tlv_reader_next, reader_at, len. cbn [rd_bytes rd_length rd_offset].
  repeat case_match; cbn; auto. bool_prop. right; right. split; [done|lia].
Qed.

(** The loop accepts exactly the encodings of ascending field lists. *)
Lemma canonical_loop_sound fuel : ∀ off prev field, (off <= length b)%nat →
  canonical_loop fuel (reader_at off prev) field = Some 0 →
  ∃ l, drop off b = encode_tlvs l ∧ Forall tlv_ok l ∧ ascending prev l.
Proof.
  induction fuel as [|fuel IH]; intros off prev field Hoff H; cbn [canonical_loop] in H; [done|].
  pose proof (next_result off prev field Hoff) as Hr.
  destruct (mesh_mgmt_tlv_reader_next (Some (reader_at off prev)) (Some field)) as [[r rd'] f'] eqn:En.
  cbn in Hr. destruct Hr as [->|[->|[-> ->]]]; cbn in H; [|done|].
  - destruct (next_inv _ _ _ _ _ Hoff En) as (t & rest & Hd & Ht & Hab).
    rewrite (next_field off prev field t rest) in En by done. injection En as <- <-.
    cbn [deref] in H. pose proof (length_drop b off) as Hld.
    rewrite Hd, length_app, length_encode_tlv in Hld. apply IH in H as (l & Hl & Hok & Hasc); [|lia].
    exists (t :: l). split_and!; [|by constructor|done].
    unfold encode_tlvs. cbn [fmap list_fmap concat]. fold (encode_tlvs l). rewrite <- Hl.
    rewrite <- drop_drop, Hd, drop_app_length'; [done|]. by rewrite length_encode_tlv.
  - exists []. rewrite drop_all. by repeat constructor.
Qed.

Lemma canonical_loop_complete l : ∀ fuel off prev field, (off <= length b)%nat →
  drop off b = encode_tlvs l → Forall tlv_ok l → ascending prev l → (length b - off < fuel)%nat →
  canonical_loop fuel (reader_at off prev) field = Some 0.
Proof.
  induction l as [|t l IH]; intros [|fuel] off prev field Hoff Hd Hok Hasc Hf; [lia| |lia|].
  - assert (off = length b) as ->.
    { apply (f_equal length) in Hd. rewrite length_drop in Hd. cbn in Hd. lia. }
    cbn [canonical_loop]. by rewrite next_end.
  - apply Forall_cons in Hok as [Ht Hok]. destruct Hasc as [Hab Hasc]. cbn [canonical_loop].
    unfold encode_tlvs in Hd. cbn [fmap list_fmap concat] in Hd. fold (encode_tlvs l) in Hd.
    rewrite (next_field off prev field t (encode_tlvs l)) by done. cbn [deref].
    change (0 <? 1) with true. cbv iota. pose proof (length_drop b off) as Hld.
    rewrite Hd, length_app in Hld. pose proof (length_encode_tlv t). apply IH; try done; try lia.
    by rewrite <- drop_drop, Hd, drop_app_length.
Qed.

Lemma canonical_loop_total fuel : ∀ off prev field, (off <= length b)%nat →
  (length b - off < fuel)%nat → is_Some (canonical_loop fuel (reader_at off prev) field).
Proof.
  induction fuel as [|fuel IH]; intros off prev field Hoff Hf; [lia|]. cbn [canonical_loop].
  pose proof (next_result off prev field Hoff) as Hr.
  destruct (mesh_mgmt_tlv_reader_next (Some (reader_at off prev)) (Some field)) as [[r rd'] f'] eqn:En.
  cbn in Hr. destruct Hr as [->|[->|[-> ->]]]; [|by eexists..].
  destruct (next_inv _ _ _ _ _ Hoff En) as (t & rest & Hd & Ht & Hab).
  rewrite (next_field off prev field t rest) in En by done. injection En as <- <-.
  pose proof (length_drop b off) as Hld. rewrite Hd, length_app, length_encode_tlv in Hld.
  apply IH; lia.
Qed.

End Reader.

Lemma block_canonical_iff b : Forall u8 b →
  mesh_mgmt_tlv_block_is_canonical (Some b) (len b) = true ↔
  ∃ l, b = encode_tlvs l ∧ Forall tlv_ok l ∧ ascending None l.
Proof.
  intros Hb. unfold mesh_mgmt_tlv_block_is_canonical. cbn [non_null andb negb].
  change (negb (non_null (Some b)) && negb (len b =? 0)) with false. cbv iota.
  change (deref zero_reader _) with (reader_at b 0 None). rewrite bool_decide_eq_true. split.
  - intros H. apply canonical_loop_sound in H as (l & Hl & ?); [|done|lia].
    rewrite drop_0 in Hl. eauto.
  - intros (l & Hl & Hok & Hasc). apply (canonical_loop_complete b l); try done; try lia.
    unfold len. rewrite Nat2Z.id. lia.
Qed.

Lemma encode_tlv_inj t t' rest rest' : tlv_ok t → tlv_ok t' →
  encode_tlv t ++ rest = encode_tlv t' ++ rest' → t = t' ∧ rest = rest'.
Proof.
  intros (Hi & Hv & Hl) (Hi' & Hv' & Hl') H.
  unfold encode_tlv, mesh_mgmt_wire_write_tlv in H. rewrite <- !app_assoc in H.
  apply app_inj_1 in H as [H1 H]; [|lens]. apply app_inj_1 in H as [H2 H]; [|lens].
  apply (f_equal mesh_mgmt_wire_read_u16) in H1, H2. unfold uint, len in *.
  rewrite !wire_read_write_u16 in H1, H2 by (done || apply wrap_range; lia).
  rewrite !wrap_small in H2 by (unfold uint; lia).
  apply app_inj_1 in H as [H3 H]; [|lia]. destruct t, t'. cbn in *. by subst.
Qed.

Lemma encode_tlvs_inj l : ∀ l', Forall tlv_ok l → Forall tlv_ok l' →
  encode_tlvs l = encode_tlvs l' → l = l'.
Proof.
  unfold encode_tlvs. induction l as [|t l IH]; intros [|t' l'] Hl Hl' H;
    cbn [fmap list_fmap concat] in H; [done| | |].
  - apply (f_equal length) in H. rewrite length_app, length_encode_tlv in H. cbn in H. lia.
  - apply (f_equal length) in H. rewrite length_app, length_encode_tlv in H. cbn in H. lia.
  - apply Forall_cons in Hl as [Ht Hl]. apply Forall_cons in Hl' as [Ht' Hl'].
    apply encode_tlv_inj in H as [-> H]; [|done..]. f_equal. by apply IH.
Qed.

Lemma ascending_sorted l : ∀ prev,
  ascending prev l ↔ (∀ p t, prev = Some p → head l = Some t → p < t_id t) ∧ Sorted Z.lt (t_id <$> l).
Proof.
  induction l as [|t l IH]; intros prev; cbn [ascending fmap list_fmap].
  { split; [|done]. intros _. split; [done|constructor]. }
  rewrite IH. split.
  - intros (Hab & Hh & Hs). split.
    + intros p t' -> [= <-]. done.
    + constructor; [done|]. destruct l as [|t' l]; cbn; constructor. by eapply Hh.
  - intros [Hh Hs]. apply Sorted_inv in Hs as [Hs Hhd]. split_and!; [|intros p t' [= <-] Ht'|done].
    + destruct prev as [p|]; cbn; [by apply (Hh p t)|done].
    + destruct l as [|t'' l]; [done|]. injection Ht' as <-. by inversion Hhd.
Qed.

(** ** Frames *)

Record frame_typed (f : mesh_mgmt_frame_view) (h p s : bytes) : Prop := {
  ft_bytes : u8 (fv_major f) ∧ u8 (fv_minor f) ∧ u8 (fv_kind f) ∧ u8 (fv_flags f);
  ft_header : fv_header f = Some h ∧ fv_header_len f = len h ∧ Forall u8 h;
  ft_payload : fv_payload f = Some p ∧ fv_payload_len f = len p ∧ Forall u8 p;
  ft_signature : fv_signature f = Some s ∧ bytes_ok 64 s }.

(** The layout check, as a predicate. *)
Record frame_valid (f : mesh_mgmt_frame_view) (h p : bytes) : Prop := {
  fo_major : fv_major f = 1;
  fo_kind : mesh_mgmt_kind_is_known (fv_kind f) = true;
  fo_flags : fv_flags f = 0;
  fo_size : len h <= 512 ∧ len h + len p <= 16306;
  fo_header : mesh_mgmt_tlv_block_is_canonical (Some h) (len h) = true;
  fo_payload : mesh_mgmt_tlv_block_is_canonical (Some p) (len p) = true }.

Lemma layout_cases major kind flags h p t0 r o :
  mesh_mgmt_frame_layout major kind flags (Some h) (len h) (Some p) (len p) (Some t0) = (r, o) →
  let f := mk_frame major 0 kind flags None 0 None 0 None in
  (r = MESH_MGMT_CODEC_OK ∧ o = Some (78 + len h + len p) ∧ frame_valid f h p) ∨
  (r ≠ MESH_MGMT_CODEC_OK ∧ o = Some t0 ∧ ¬ frame_valid f h p).
Proof.
  intros H f. assert (Hnn : 0 <= len h ∧ 0 <= len p) by (unfold len; lia).
  unfold mesh_mgmt_frame_layout in H.
  change (negb (non_null (Some t0)) || _ || _) with false in H. cbv iota in H.
  unfold MESH_MGMT_MAJOR_V1, MESH_MGMT_HEADER_MAX, MESH_MGMT_FRAME_MAX, MESH_MGMT_PREFIX_SIZE,
    MESH_MGMT_SIGNATURE_SIZE, UINT16_MAX, UINT32_MAX in H.
  repeat match type of H with
  | context [if ?g then _ else _] => let E := fresh "E" in
      destruct g eqn:E; [injection H as <- <-; right; split_and!; [done..|];
        intros [Hm Hk Hf Hs Hh Hp]; cbn in Hm, Hk, Hf; refute E|]
  end.
  injection H as <- <-. left. bool_prop. split_and!; [done|f_equal; lia|].
  split; try done; cbn; try lia.
Qed.

Lemma encode_frame_eq f h p s : frame_typed f h p s →
  encode_frame f =
  MESH_MGMT_MAGIC ++ [fv_major f; fv_minor f; fv_kind f; fv_flags f] ++
  mesh_mgmt_wire_write_u16 (wrap 16 (len h)) ++ mesh_mgmt_wire_write_u32 (wrap 32 (len p)) ++
  h ++ p ++ s.
Proof.
  intros [_ (Hh & Hhl & _) (Hp & Hpl & _) (Hs & Hsl & _)].
  unfold encode_frame, block, len. rewrite Hh, Hp, Hs, Hhl, Hpl. cbn [deref].
  unfold len. by rewrite !Nat2Z.id, !take_ge by lia.
Qed.

Lemma length_encode_frame f h p s : frame_typed f h p s →
  length (encode_frame f) = (78 + length h + length p)%nat.
Proof.
  intros Hf. rewrite (encode_frame_eq _ _ _ _ Hf). destruct Hf as [_ _ _ (_ & Hsl & _)].
  rewrite !length_app, Hsl. change (length MESH_MGMT_MAGIC) with 4%nat. lens.
Qed.

Lemma frame_valid_minor f h p m hd hl pl pln s :
  frame_valid f h p ↔ frame_valid (mk_frame (fv_major f) m (fv_kind f) (fv_flags f) hd hl pl pln s) h p.
Proof. split; intros []; by split. Qed.

(** The offset left over by [seek] is 0. *)
Ltac at_start := match goal with |- sub _ ?k _ = _ => replace k with 0%nat by lia end.

Lemma decode_encode_frame f h p s v0 : frame_typed f h p s → frame_valid f h p →
  mesh_mgmt_frame_decode (Some (encode_frame f)) (Some v0) = (MESH_MGMT_CODEC_OK, Some f).
Proof.
  intros Hf Hv. pose proof (length_encode_frame _ _ _ _ Hf) as Hl.
  pose proof (encode_frame_eq _ _ _ _ Hf) as He. destruct (fo_size _ _ _ Hv) as [Hs1 Hs2].
  destruct Hf as [Hby (Hh & Hhl & Hhb) (Hp & Hpl & Hpb) (Hs & Hsl & Hsb)].
  unfold mesh_mgmt_frame_decode. unfold len in Hs1, Hs2.
  assert (Hm : length MESH_MGMT_MAGIC = 4%nat) by done.
  assert (E1 : memeq 4 (encode_frame f) MESH_MGMT_MAGIC = true).
  { rewrite He. unfold memeq. rewrite take_app_length' by done. by rewrite bool_decide_eq_true_2. }
  assert (E2 : mesh_mgmt_wire_read_u16 (sub (encode_frame f) 8 2) = len h).
  { rewrite He. seek. rewrite wrap_small by (unfold uint, len; lia).
    apply wire_read_write_u16. unfold uint, len. lia. }
  assert (E3 : mesh_mgmt_wire_read_u32 (sub (encode_frame f) 10 4) = len p).
  { rewrite He. seek. rewrite wrap_small by (unfold uint, len; lia).
    apply wire_read_write_u32. unfold uint, len. lia. }
  assert (E4 : sub (encode_frame f) 14 (length h) = h) by (rewrite He; by seek).
  assert (E5 : sub (encode_frame f) (14 + length h) (length p) = p).
  { rewrite He. seek. at_start. by seek. }
  assert (E6 : sub (encode_frame f) (14 + length h + length p) 64 = s).
  { rewrite He. seek. at_start. by apply sub_all. }
  assert (E7 : at_ (encode_frame f) 4 = fv_major f ∧ at_ (encode_frame f) 5 = fv_minor f ∧
    at_ (encode_frame f) 6 = fv_kind f ∧ at_ (encode_frame f) 7 = fv_flags f).
  { rewrite He. by split_and!; pick. }
  destruct E7 as (E7 & E8 & E9 & E10). rewrite E1, E2, E3, E7, E8, E9, E10.
  change (len (encode_frame f)) with (Z.of_nat (length (encode_frame f))). rewrite Hl.
  unfold len. rewrite !Nat2Z.id, E4, E5, E6.
  unfold MESH_MGMT_HEADER_MAX, MESH_MGMT_FRAME_MAX, MESH_MGMT_PREFIX_SIZE, MESH_MGMT_SIGNATURE_SIZE.
  pass_guards.
  destruct (mesh_mgmt_frame_layout _ _ _ _ _ _ _ _) as [r o] eqn:El.
  apply layout_cases in El as [(-> & _ & _)|(_ & _ & Hbad)].
  - f_equal. destruct f. cbn in *. unfold len in *. by subst.
  - destruct Hbad. by apply frame_valid_minor.
Qed.

Lemma encode_cases f h p s out n0 r o n : frame_typed f h p s →
  mesh_mgmt_frame_encode (Some f) (Some out) (Some n0) = (r, o, n) →
  (r = MESH_MGMT_CODEC_OK ∧ frame_valid f h p ∧ len (encode_frame f) <= len out ∧
   o = Some (blit out 0 (encode_frame f)) ∧ n = Some (len (encode_frame f))) ∨
  (r ≠ MESH_MGMT_CODEC_OK ∧ o = Some out ∧
   ¬ (frame_valid f h p ∧ len (encode_frame f) <= len out)).
Proof.
  intros Hf H. pose proof (length_encode_frame _ _ _ _ Hf) as Hl.
  destruct Hf as [_ (Hh & Hhl & _) (Hp & Hpl & _) (Hs & _)].
  unfold mesh_mgmt_frame_encode in H. rewrite Hh, Hhl, Hp, Hpl, Hs in H.
  change (negb (non_null (Some s))) with false in H. cbv iota in H.
  destruct (mesh_mgmt_frame_layout _ _ _ _ _ _ _ _) as [k t] eqn:El.
  apply layout_cases in El as [(-> & -> & Hv)|(Hk & -> & Hv)].
  - cbn [deref assign fmap option_fmap option_map] in H.
    change (negb (non_null (Some out))) with false in H. cbn [orb] in H.
    assert (Hv' : frame_valid f h p) by (by destruct Hv; split).
    assert (He : len (encode_frame f) = 78 + len h + len p) by (unfold len in *; lia).
    step_in H; injection H as <- <- <-; bool_prop; [right|left]; split_and!; try done; try lia.
    by rewrite He.
  - right. assert (r = k ∧ o = Some out) as [-> ->] by (destruct k; by simplify_eq).
    split_and!; [done..|]. intros [Hv' _]. apply Hv. by destruct Hv'; split.
Qed.

Lemma sub_bytes4 (f : bytes) i : (i + 4 <= length f)%nat →
  sub f i 4 = [at_ f i; at_ f (i + 1); at_ f (i + 2); at_ f (i + 3)].
Proof.
  intros Hi. change 4%nat with (1 + (1 + (1 + 1)))%nat at 1. rewrite !sub_split, <- !Nat.add_assoc.
  by rewrite !at_sub by lia.
Qed.

Lemma frame_decode_inv f v0 o : Forall u8 f →
  mesh_mgmt_frame_decode (Some f) (Some v0) = (MESH_MGMT_CODEC_OK, o) →
  ∃ v h p s, o = Some v ∧ frame_typed v h p s ∧ frame_valid v h p ∧ encode_frame v = f.
Proof.
  intros Hf H. unfold mesh_mgmt_frame_decode in H.
  do 5 (step_in H; [done|]). bool_prop.
  set (hl := mesh_mgmt_wire_read_u16 (sub f 8 2)) in *.
  set (pl := mesh_mgmt_wire_read_u32 (sub f 10 4)) in *.
  pose proof (wire_read_u16_range (sub f 8 2)) as Hhl. fold hl in Hhl.
  pose proof (wire_read_u32_range (sub f 10 4)) as Hpl. fold pl in Hpl.
  unfold MESH_MGMT_PREFIX_SIZE, MESH_MGMT_SIGNATURE_SIZE, MESH_MGMT_HEADER_MAX,
    MESH_MGMT_FRAME_MAX, uint, len in *.
  set (hd := sub f 14 (Z.to_nat hl)) in *. set (pd := sub f (14 + Z.to_nat hl) (Z.to_nat pl)) in *.
  assert (Lh : len hd = hl) by (unfold len, hd; rewrite length_sub; lia).
  assert (Lp : len pd = pl) by (unfold len, pd; rewrite length_sub; lia).
  destruct (mesh_mgmt_frame_layout _ _ _ _ _ _ _ _) as [r t] eqn:El.
  rewrite <- Lh in El at 1. rewrite <- Lp in El at 1.
  apply layout_cases in El as [(-> & _ & Hv)|(Hr & _)]; [|by destruct r].
  injection H as <-. do 4 eexists. split; [done|].
  assert (Ht : frame_typed (mk_frame (at_ f 4) (at_ f 5) (at_ f 6) (at_ f 7) (Some hd) hl (Some pd) pl
    (Some (sub f (14 + Z.to_nat hl + Z.to_nat pl) 64))) hd pd
    (sub f (14 + Z.to_nat hl + Z.to_nat pl) 64)).
  { split; cbn; split_and!; try done; try (by apply at_u8); try (by apply sub_Forall).
    split; [apply length_sub; lia|by apply sub_Forall]. }
  split_and!; [exact Ht|by destruct Hv; split|].
  etransitivity; [exact (encode_frame_eq _ _ _ _ Ht)|].
  rewrite Lh, Lp, !wrap_small by (unfold uint; lia).
  cbn [fv_major fv_minor fv_kind fv_flags]. unfold hl at 1, pl at 1.
  rewrite wire_write_read_u16, wire_write_read_u32
    by (split; [apply length_sub; lia|by apply sub_Forall]).
  apply bool_decide_eq_true in E1. change (take 4 MESH_MGMT_MAGIC) with MESH_MGMT_MAGIC in E1.
  rewrite <- E1. pose proof (sub_bytes4 f 4 ltac:(lia)) as Hq. cbn [Nat.add] in Hq. rewrite <- Hq.
  change (take 4 f) with (sub f 0 4). unfold hd, pd.
  assert (Hall : f = sub f 0 (4 + (4 + (2 + (4 + (Z.to_nat hl + (Z.to_nat pl + 64))))))).
  { symmetry. apply sub_all. lia. }
  rewrite Hall at 8. rewrite !sub_split. cbn [Nat.add]. done.
Qed.

(** ** Theorems *)

(** A TLV block is accepted exactly when it is the encoding of fields with
    strictly increasing ids, and the fields are then determined by the bytes; the
    scanning loop always finishes. *)
Theorem tlv_block_fields (b : bytes) :
  Forall u8 b →
  (mesh_mgmt_tlv_block_is_canonical (Some b) (len b) = true ↔
     ∃ l, b = encode_tlvs l ∧ Forall tlv_ok l ∧ Sorted Z.lt (t_id <$> l)) ∧
  (∀ l l', Forall tlv_ok l → Forall tlv_ok l' → b = encode_tlvs l → b = encode_tlvs l' → l = l') ∧
  is_Some (canonical_loop (S (length b)) (reader_at b 0 None) zero_tlv_view).
Proof.
  intros Hb. split_and!.
  - rewrite block_canonical_iff by done. apply exist_proper. intros l.
    rewrite ascending_sorted. naive_solver.
  - intros l l' Hl Hl' -> He. by apply encode_tlvs_inj.
  - apply canonical_loop_total; done || lia.
Qed.

(** Encoding succeeds exactly for valid frames that fit the buffer; the bytes
    written decode to the same frame, the rest of the buffer is untouched, and a
    refused frame writes nothing. *)
Theorem mgmt_frame_roundtrip (f : mesh_mgmt_frame_input) (h p s out : bytes) (n0 : Z)
    (v0 : mesh_mgmt_frame_view) (r : mesh_mgmt_codec_result) (o : option bytes) (n : option Z) :
  frame_typed f h p s →
  mesh_mgmt_frame_encode (Some f) (Some out) (Some n0) = (r, o, n) →
  (r = MESH_MGMT_CODEC_OK ↔ frame_valid f h p ∧ 78 + len h + len p <= len out) ∧
  (r ≠ MESH_MGMT_CODEC_OK → o = Some out) ∧
  (r = MESH_MGMT_CODEC_OK → ∃ frame,
     n = Some (len frame) ∧ o = Some (frame ++ drop (length frame) out) ∧
     mesh_mgmt_frame_decode (Some frame) (Some v0) = (MESH_MGMT_CODEC_OK, Some f)).
Proof.
  intros Hf H. pose proof (length_encode_frame _ _ _ _ Hf) as Hl.
  assert (He : len (encode_frame f) = 78 + len h + len p) by (unfold len in *; lia).
  rewrite <- He.
  destruct (encode_cases _ _ _ _ _ _ _ _ _ Hf H) as [(-> & Hv & Hc & -> & ->)|(Hr & -> & Hn)].
  - split_and!; [done|done|]. intros _. exists (encode_frame f). split_and!; [done|done|].
    by eapply decode_encode_frame.
  - by split_and!.
Qed.

(** The decoder accepts only canonical frames: whatever it accepts is valid,
    and encoding the view again gives back the very same bytes. *)
Theorem mgmt_decode_canonical (frame out : bytes) (n0 : Z) (v0 v : mesh_mgmt_frame_view) :
  Forall u8 frame → length out = length frame →
  mesh_mgmt_frame_decode (Some frame) (Some v0) = (MESH_MGMT_CODEC_OK, Some v) →
  mesh_mgmt_frame_encode (Some v) (Some out) (Some n0) =
    (MESH_MGMT_CODEC_OK, Some frame, Some (len frame)).
Proof.
  intros Hb Hout H.
  destruct (frame_decode_inv _ _ _ Hb H) as (v' & h & p & s & [= <-] & Ht & Hv & He).
  destruct (mesh_mgmt_frame_encode (Some v) (Some out) (Some n0)) as [[r o] n] eqn:Ee.
  destruct (encode_cases _ _ _ _ _ _ _ _ _ Ht Ee) as [(-> & _ & _ & -> & ->)|(_ & _ & Hn)].
  - rewrite He. do 2 f_equal. f_equal. unfold blit. rewrite take_0, drop_ge by lia.
    by rewrite app_nil_r.
  - destruct Hn. split; [done|]. rewrite He. unfold len. lia.
Qed.

(** ** Witnesses *)

Definition w_tlvs : list tlv := [mk_tlv 1 [7; 8]; mk_tlv 5 []; mk_tlv 9 [255]].
Definition w_mgmt_frame : mesh_mgmt_frame_input :=
  mk_frame 1 1 MESH_MGMT_KIND_PROBE 0 (Some (encode_tlvs w_tlvs)) 15 (Some (encode_tlvs [mk_tlv 2 [3]])) 5
    (Some (zeros 64)).
Definition w_frame_bytes : bytes := encode_frame w_mgmt_frame.

Lemma w_mgmt_frame_typed :
  frame_typed w_mgmt_frame (encode_tlvs w_tlvs) (encode_tlvs [mk_tlv 2 [3]]) (zeros 64).
Proof. split; split_and!; try done; evaluate. Qed.

Lemma tlv_block_fields_witness :
  (mesh_mgmt_tlv_block_is_canonical (Some (encode_tlvs w_tlvs)) 15 = true ↔
     ∃ l, encode_tlvs w_tlvs = encode_tlvs l ∧ Forall tlv_ok l ∧ Sorted Z.lt (t_id <$> l)) ∧
  (∀ l l', Forall tlv_ok l → Forall tlv_ok l' → encode_tlvs w_tlvs = encode_tlvs l →
     encode_tlvs w_tlvs = encode_tlvs l' → l = l') ∧
  is_Some (canonical_loop 16 (reader_at (encode_tlvs w_tlvs) 0 None) zero_tlv_view).
Proof. apply (tlv_block_fields (encode_tlvs w_tlvs)). evaluate. Defined.

Lemma mgmt_frame_roundtrip_witness :
  let q := mesh_mgmt_frame_encode (Some w_mgmt_frame) (Some (replicate 100 9)) (Some 0) in
  (q.1.1 = MESH_MGMT_CODEC_OK ↔
     frame_valid w_mgmt_frame (encode_tlvs w_tlvs) (encode_tlvs [mk_tlv 2 [3]]) ∧ 78 + 15 + 5 <= 100) ∧
  (q.1.1 ≠ MESH_MGMT_CODEC_OK → q.1.2 = Some (replicate 100 9)) ∧
  (q.1.1 = MESH_MGMT_CODEC_OK → ∃ frame,
     q.2 = Some (len frame) ∧ q.1.2 = Some (frame ++ drop (length frame) (replicate 100 9)) ∧
     mesh_mgmt_frame_decode (Some frame) (Some zero_frame) = (MESH_MGMT_CODEC_OK, Some w_mgmt_frame)).
Proof.
  intros q. apply (mgmt_frame_roundtrip w_mgmt_frame (encode_tlvs w_tlvs) (encode_tlvs [mk_tlv 2 [3]])
    (zeros 64) (replicate 100 9) 0 zero_frame q.1.1 q.1.2 q.2);
    [apply w_mgmt_frame_typed|vm_compute; reflexivity].
Defined.

Lemma mgmt_decode_canonical_witness :
  mesh_mgmt_frame_encode (Some w_mgmt_frame) (Some (zeros (length w_frame_bytes))) (Some 0) =
    (MESH_MGMT_CODEC_OK, Some w_frame_bytes, Some (len w_frame_bytes)).
Proof.
  apply (mgmt_decode_canonical w_frame_bytes (zeros (length w_frame_bytes)) 0 zero_frame w_mgmt_frame);
    [evaluate|reflexivity|vm_compute; reflexivity].
Defined.
