(* ===== verification/MgmtEnvelope.v ===== *)
(** * Signed envelopes: [mesh/src/mesh_mgmt_envelope.c]

    The 14-field common header, signing and verification.  The header parser
    fills its output field by field; its only caller discards a partly filled
    header, so a failed parse is [None]. *)

From S2P Require Import Prelude Wire MgmtCrypto MgmtCodec.

(** ** Data *)

Definition MESH_MGMT_HEADER_V1_ENCODED_SIZE : Z := 297.

Definition MESH_MGMT_HEADER_FIELD_MESH_ID_HASH : Z := 0x0001.
Definition MESH_MGMT_HEADER_FIELD_ORIGIN_PRINCIPAL_KEY : Z := 0x0002.
Definition MESH_MGMT_HEADER_FIELD_ORIGIN_NODE_ID : Z := 0x0003.
Definition MESH_MGMT_HEADER_FIELD_TARGET_NODE_ID : Z := 0x0004.
Definition MESH_MGMT_HEADER_FIELD_PRINCIPAL_EPOCH : Z := 0x0005.
Definition MESH_MGMT_HEADER_FIELD_INCARNATION : Z := 0x0006.
Definition MESH_MGMT_HEADER_FIELD_SESSION_ID : Z := 0x0007.
Definition MESH_MGMT_HEADER_FIELD_ORIGIN_SEQUENCE : Z := 0x0008.
Definition MESH_MGMT_HEADER_FIELD_MESSAGE_ID : Z := 0x0009.
Definition MESH_MGMT_HEADER_FIELD_ISSUED_AT_MS : Z := 0x000a.
Definition MESH_MGMT_HEADER_FIELD_EXPIRES_AT_MS : Z := 0x000b.
Definition MESH_MGMT_HEADER_FIELD_FORWARD_BUDGET : Z := 0x000c.
Definition MESH_MGMT_HEADER_FIELD_PAYLOAD_HASH : Z := 0x000d.
Definition MESH_MGMT_HEADER_FIELD_CERTIFICATE_SERIAL : Z := 0x000e.

Inductive mesh_mgmt_envelope_result : Type :=
  | MESH_MGMT_ENVELOPE_OK
  | MESH_MGMT_ENVELOPE_INVALID_ARG
  | MESH_MGMT_ENVELOPE_INVALID_FRAME
  | MESH_MGMT_ENVELOPE_UNSUPPORTED_VERSION
  | MESH_MGMT_ENVELOPE_RESOURCE_EXHAUSTED
  | MESH_MGMT_ENVELOPE_INVALID_SCHEMA
  | MESH_MGMT_ENVELOPE_PAYLOAD_HASH_MISMATCH
  | MESH_MGMT_ENVELOPE_AUTH_FAILED
  | MESH_MGMT_ENVELOPE_CRYPTO_FAILURE.

#[export] Instance mesh_mgmt_envelope_result_eq_dec : EqDecision mesh_mgmt_envelope_result.
Proof. solve_decision. Defined.

Record mesh_mgmt_header : Type := mk_header {
  mh_mesh_id_hash : bytes;
  mh_origin_principal_key : bytes;
  mh_origin_node_id : bytes;
  mh_target_node_id : bytes;
  mh_principal_epoch : Z;
  mh_incarnation : Z;
  mh_session_id : bytes;
  mh_origin_sequence : Z;
  mh_message_id : bytes;
  mh_issued_at_ms : Z;
  mh_expires_at_ms : Z;
  mh_forward_budget : Z;
  mh_payload_hash : bytes;
  mh_certificate_serial : Z }.
Definition zero_header : mesh_mgmt_header :=
  mk_header (zeros 32) (zeros 32) (zeros 32) (zeros 32) 0 0 (zeros 16) 0 (zeros 16) 0 0 0
    (zeros 32) 0.

Record mesh_mgmt_unsigned_header : Type := mk_unsigned_header {
  mu_mesh_id_hash : bytes;
  mu_origin_node_id : bytes;
  mu_target_node_id : bytes;
  mu_principal_epoch : Z;
  mu_incarnation : Z;
  mu_session_id : bytes;
  mu_origin_sequence : Z;
  mu_message_id : bytes;
  mu_issued_at_ms : Z;
  mu_expires_at_ms : Z;
  mu_forward_budget : Z;
  mu_certificate_serial : Z }.

Record mesh_mgmt_sign_input : Type := mk_sign_input {
  si_minor : Z;
  si_kind : Z;
  si_flags : Z;
  si_header : mesh_mgmt_unsigned_header;
  si_private_key : option bytes;
  si_payload : option bytes;
  si_payload_len : Z }.

Record mesh_mgmt_verified_envelope : Type := mk_envelope {
  ve_frame : mesh_mgmt_frame_view;
  ve_header : mesh_mgmt_header }.
Definition zero_envelope : mesh_mgmt_verified_envelope := mk_envelope zero_frame zero_header.

(** ["TurboMesh-MMP-v1"] with its terminating zero. *)
Definition MESH_MGMT_SIGNATURE_DOMAIN : bytes :=
  [84; 117; 114; 98; 111; 77; 101; 115; 104; 45; 77; 77; 80; 45; 118; 49; 0].
Definition MESH_MGMT_PAYLOAD_V1_MAX : Z :=
  MESH_MGMT_FRAME_MAX - MESH_MGMT_PREFIX_SIZE - MESH_MGMT_SIGNATURE_SIZE -
  MESH_MGMT_HEADER_V1_ENCODED_SIZE.

(** ** Header *)

Definition mesh_mgmt_write_u64_tlv (field_id value : Z) : bytes :=
  mesh_mgmt_wire_write_tlv field_id (mesh_mgmt_wire_write_u64 value).

Definition mesh_mgmt_header_encode_v1 (header : mesh_mgmt_header) : bytes :=
  mesh_mgmt_wire_write_tlv MESH_MGMT_HEADER_FIELD_MESH_ID_HASH (mh_mesh_id_hash header) ++
  mesh_mgmt_wire_write_tlv MESH_MGMT_HEADER_FIELD_ORIGIN_PRINCIPAL_KEY
    (mh_origin_principal_key header) ++
  mesh_mgmt_wire_write_tlv MESH_MGMT_HEADER_FIELD_ORIGIN_NODE_ID (mh_origin_node_id header) ++
  mesh_mgmt_wire_write_tlv MESH_MGMT_HEADER_FIELD_TARGET_NODE_ID (mh_target_node_id header) ++
  mesh_mgmt_write_u64_tlv MESH_MGMT_HEADER_FIELD_PRINCIPAL_EPOCH (mh_principal_epoch header) ++
  mesh_mgmt_write_u64_tlv MESH_MGMT_HEADER_FIELD_INCARNATION (mh_incarnation header) ++
  mesh_mgmt_wire_write_tlv MESH_MGMT_HEADER_FIELD_SESSION_ID (mh_session_id header) ++
  mesh_mgmt_write_u64_tlv MESH_MGMT_HEADER_FIELD_ORIGIN_SEQUENCE (mh_origin_sequence header) ++
  mesh_mgmt_wire_write_tlv MESH_MGMT_HEADER_FIELD_MESSAGE_ID (mh_message_id header) ++
  mesh_mgmt_write_u64_tlv MESH_MGMT_HEADER_FIELD_ISSUED_AT_MS (mh_issued_at_ms header) ++
  mesh_mgmt_write_u64_tlv MESH_MGMT_HEADER_FIELD_EXPIRES_AT_MS (mh_expires_at_ms header) ++
  mesh_mgmt_wire_write_tlv MESH_MGMT_HEADER_FIELD_FORWARD_BUDGET [mh_forward_budget header] ++
  mesh_mgmt_wire_write_tlv MESH_MGMT_HEADER_FIELD_PAYLOAD_HASH (mh_payload_hash header) ++
  mesh_mgmt_write_u64_tlv MESH_MGMT_HEADER_FIELD_CERTIFICATE_SERIAL (mh_certificate_serial header).

Definition mesh_mgmt_kind_requires_target (kind : Z) : bool :=
  (kind =? MESH_MGMT_KIND_COMMAND_REQUEST) || (kind =? MESH_MGMT_KIND_COMMAND_ACCEPTED) ||
  (kind =? MESH_MGMT_KIND_COMMAND_RESULT) || (kind =? MESH_MGMT_KIND_COMMAND_STATUS) ||
  (kind =? MESH_MGMT_KIND_CONTROL_FRAME).

Definition mesh_mgmt_bytes_are_zero (b : bytes) : bool := or_bytes b =? 0.

Definition mesh_mgmt_header_constraints_are_valid (kind : Z) (header : mesh_mgmt_header) : bool :=
  if (mh_expires_at_ms header <=? mh_issued_at_ms header) || (1 <? mh_forward_budget header)
  then false
  else if mesh_mgmt_kind_requires_target kind &&
          mesh_mgmt_bytes_are_zero (mh_target_node_id header)
  then false
  else true.

(** The [READ_FIELD] macro: the value and the advanced reader. *)
Definition read_field (reader : mesh_mgmt_tlv_reader) (field_id size : Z) :
    option (bytes * mesh_mgmt_tlv_reader) :=
  let '(ok, reader', field) :=
    mesh_mgmt_wire_read_field (Some reader) field_id size (Some zero_tlv_view) in
  if ok then Some (deref [] (tv_value (deref zero_tlv_view field)), deref reader reader') else None.

Definition mesh_mgmt_header_parse_v1 (b : option bytes) (length : Z) : option mesh_mgmt_header :=
  if negb (length =? MESH_MGMT_HEADER_V1_ENCODED_SIZE) then None
  else
    let rd := deref zero_reader (mesh_mgmt_tlv_reader_init (Some zero_reader) b length) in
    '(mesh_id_hash, rd) ← read_field rd MESH_MGMT_HEADER_FIELD_MESH_ID_HASH 32;
    '(origin_principal_key, rd) ← read_field rd MESH_MGMT_HEADER_FIELD_ORIGIN_PRINCIPAL_KEY 32;
    '(origin_node_id, rd) ← read_field rd MESH_MGMT_HEADER_FIELD_ORIGIN_NODE_ID 32;
    '(target_node_id, rd) ← read_field rd MESH_MGMT_HEADER_FIELD_TARGET_NODE_ID 32;
    '(principal_epoch, rd) ← read_field rd MESH_MGMT_HEADER_FIELD_PRINCIPAL_EPOCH 8;
    '(incarnation, rd) ← read_field rd MESH_MGMT_HEADER_FIELD_INCARNATION 8;
    '(session_id, rd) ← read_field rd MESH_MGMT_HEADER_FIELD_SESSION_ID 16;
    '(origin_sequence, rd) ← read_field rd MESH_MGMT_HEADER_FIELD_ORIGIN_SEQUENCE 8;
    '(message_id, rd) ← read_field rd MESH_MGMT_HEADER_FIELD_MESSAGE_ID 16;
    '(issued_at_ms, rd) ← read_field rd MESH_MGMT_HEADER_FIELD_ISSUED_AT_MS 8;
    '(expires_at_ms, rd) ← read_field rd MESH_MGMT_HEADER_FIELD_EXPIRES_AT_MS 8;
    '(forward_budget, rd) ← read_field rd MESH_MGMT_HEADER_FIELD_FORWARD_BUDGET 1;
    '(payload_hash, rd) ← read_field rd MESH_MGMT_HEADER_FIELD_PAYLOAD_HASH 32;
    '(certificate_serial, rd) ← read_field rd MESH_MGMT_HEADER_FIELD_CERTIFICATE_SERIAL 8;
    let '(result, _, _) := mesh_mgmt_tlv_reader_next (Some rd) (Some zero_tlv_view) in
    if result =? 0 then
      Some (mk_header mesh_id_hash origin_principal_key origin_node_id target_node_id
              (mesh_mgmt_wire_read_u64 principal_epoch) (mesh_mgmt_wire_read_u64 incarnation)
              session_id (mesh_mgmt_wire_read_u64 origin_sequence) message_id
              (mesh_mgmt_wire_read_u64 issued_at_ms) (mesh_mgmt_wire_read_u64 expires_at_ms)
              (at_ forward_budget 0) payload_hash (mesh_mgmt_wire_read_u64 certificate_serial))
    else None.

Definition mesh_mgmt_map_codec_result (result : mesh_mgmt_codec_result) :
    mesh_mgmt_envelope_result :=
  match result with
  | MESH_MGMT_CODEC_OK => MESH_MGMT_ENVELOPE_OK
  | MESH_MGMT_CODEC_INVALID_ARG => MESH_MGMT_ENVELOPE_INVALID_ARG
  | MESH_MGMT_CODEC_UNSUPPORTED_VERSION => MESH_MGMT_ENVELOPE_UNSUPPORTED_VERSION
  | MESH_MGMT_CODEC_RESOURCE_EXHAUSTED => MESH_MGMT_ENVELOPE_RESOURCE_EXHAUSTED
  | MESH_MGMT_CODEC_INVALID_FRAME => MESH_MGMT_ENVELOPE_INVALID_FRAME
  end.

Definition mesh_mgmt_build_signing_input (frame : bytes) (unsigned_frame_len : Z) : bytes :=
  MESH_MGMT_SIGNATURE_DOMAIN ++ take (Z.to_nat unsigned_frame_len) frame.

(** ** Signing and verification *)

Section Envelope.
Context {CR : Crypto}.

(** The header the signer fills from its input. *)
Definition signed_header (u : mesh_mgmt_unsigned_header) (key hash : bytes) : mesh_mgmt_header :=
  mk_header (mu_mesh_id_hash u) key (mu_origin_node_id u) (mu_target_node_id u)
    (mu_principal_epoch u) (mu_incarnation u) (mu_session_id u) (mu_origin_sequence u)
    (mu_message_id u) (mu_issued_at_ms u) (mu_expires_at_ms u) (mu_forward_budget u) hash
    (mu_certificate_serial u).

Definition mesh_mgmt_envelope_sign_v1 (input : option mesh_mgmt_sign_input)
    (output : option bytes) (out_len : option Z) :
    mesh_mgmt_envelope_result * option bytes * option Z :=
  if negb (non_null out_len) then (MESH_MGMT_ENVELOPE_INVALID_ARG, output, out_len)
  else
    let out_len := assign out_len 0 in
    match input with
    | None => (MESH_MGMT_ENVELOPE_INVALID_ARG, output, out_len)
    | Some inp =>
        if negb (non_null (si_private_key inp)) ||
           (negb (non_null (si_payload inp)) && negb (si_payload_len inp =? 0))
        then (MESH_MGMT_ENVELOPE_INVALID_ARG, output, out_len)
        else if negb (si_minor inp =? MESH_MGMT_MINOR_V1)
        then (MESH_MGMT_ENVELOPE_UNSUPPORTED_VERSION, output, out_len)
        else if MESH_MGMT_PAYLOAD_V1_MAX <? si_payload_len inp
        then (MESH_MGMT_ENVELOPE_RESOURCE_EXHAUSTED, output, out_len)
        else if negb (mesh_mgmt_header_constraints_are_valid (si_kind inp)
                        (signed_header (si_header inp) (zeros 32) (zeros 32)))
        then (MESH_MGMT_ENVELOPE_INVALID_SCHEMA, output, out_len)
        else
          match mesh_mgmt_ed25519_public_from_private (si_private_key inp) (Some (zeros 32)) with
          | (MESH_MGMT_CRYPTO_OK, key) =>
              match mesh_mgmt_blake2b_256 (si_payload inp) (si_payload_len inp)
                      (Some (zeros 32)) with
              | (MESH_MGMT_CRYPTO_OK, hash) =>
                  let encoded_header :=
                    mesh_mgmt_header_encode_v1
                      (signed_header (si_header inp) (deref [] key) (deref [] hash)) in
                  if negb (len encoded_header =? MESH_MGMT_HEADER_V1_ENCODED_SIZE)
                  then (MESH_MGMT_ENVELOPE_INVALID_SCHEMA, output, out_len)
                  else
                    let frame_input :=
                      mk_frame MESH_MGMT_MAJOR_V1 (si_minor inp) (si_kind inp) (si_flags inp)
                        (Some encoded_header) (len encoded_header) (si_payload inp)
                        (si_payload_len inp) (Some (zeros 64)) in
                    match mesh_mgmt_frame_encode (Some frame_input) output (Some 0) with
                    | (MESH_MGMT_CODEC_OK, output, encoded_len) =>
                        let n := deref 0 encoded_len in
                        let signing_input :=
                          mesh_mgmt_build_signing_input (deref [] output)
                            (n - MESH_MGMT_SIGNATURE_SIZE) in
                        match mesh_mgmt_ed25519_sign (si_private_key inp) (Some signing_input)
                                (len signing_input) (Some (zeros 64)) with
                        | (MESH_MGMT_CRYPTO_OK, signature) =>
                            (MESH_MGMT_ENVELOPE_OK,
                             (λ o, blit o (Z.to_nat (n - MESH_MGMT_SIGNATURE_SIZE))
                                     (deref [] signature)) <$> output,
                             assign out_len n)
                        | _ => (MESH_MGMT_ENVELOPE_CRYPTO_FAILURE,
                                (λ o, blit o 0 (zeros (Z.to_nat n))) <$> output, out_len)
                        end
                    | (codec_result, output, encoded_len) =>
                        (mesh_mgmt_map_codec_result codec_result, output,
                         assign out_len (deref 0 encoded_len))
                    end
              | _ => (MESH_MGMT_ENVELOPE_CRYPTO_FAILURE, output, out_len)
              end
          | _ => (MESH_MGMT_ENVELOPE_CRYPTO_FAILURE, output, out_len)
          end
    end.

Definition mesh_mgmt_envelope_verify_v1 (frame : option bytes)
    (out_envelope : option mesh_mgmt_verified_envelope) :
    mesh_mgmt_envelope_result * option mesh_mgmt_verified_envelope :=
  if negb (bool_decide (is_Some out_envelope)) then (MESH_MGMT_ENVELOPE_INVALID_ARG, out_envelope)
  else
    let out_envelope := Some zero_envelope in
    match frame with
    | None => (MESH_MGMT_ENVELOPE_INVALID_ARG, out_envelope)
    | Some f =>
        match mesh_mgmt_frame_decode frame (Some zero_frame) with
        | (MESH_MGMT_CODEC_OK, view) =>
            let v := deref zero_frame view in
            if negb (fv_minor v =? MESH_MGMT_MINOR_V1)
            then (MESH_MGMT_ENVELOPE_UNSUPPORTED_VERSION, out_envelope)
            else
              match mesh_mgmt_header_parse_v1 (fv_header v) (fv_header_len v) with
              | None => (MESH_MGMT_ENVELOPE_INVALID_SCHEMA, out_envelope)
              | Some header =>
                  if negb (mesh_mgmt_header_constraints_are_valid (fv_kind v) header)
                  then (MESH_MGMT_ENVELOPE_INVALID_SCHEMA, out_envelope)
                  else
                    match mesh_mgmt_blake2b_256 (fv_payload v) (fv_payload_len v)
                            (Some (zeros 32)) with
                    | (MESH_MGMT_CRYPTO_OK, actual_payload_hash) =>
                        if negb (mesh_mgmt_crypto_equal_32 actual_payload_hash
                                   (Some (mh_payload_hash header)))
                        then (MESH_MGMT_ENVELOPE_PAYLOAD_HASH_MISMATCH, out_envelope)
                        else
                          let signing_input :=
                            mesh_mgmt_build_signing_input f
                              (len f - MESH_MGMT_SIGNATURE_SIZE) in
                          match mesh_mgmt_ed25519_verify (Some (mh_origin_principal_key header))
                                  (Some signing_input) (len signing_input) (fv_signature v) with
                          | MESH_MGMT_CRYPTO_OK =>
                              (MESH_MGMT_ENVELOPE_OK, Some (mk_envelope v header))
                          | MESH_MGMT_CRYPTO_AUTH_FAILED =>
                              (MESH_MGMT_ENVELOPE_AUTH_FAILED, out_envelope)
                          | _ => (MESH_MGMT_ENVELOPE_CRYPTO_FAILURE, out_envelope)
                          end
                    | _ => (MESH_MGMT_ENVELOPE_CRYPTO_FAILURE, out_envelope)
                    end
              end
        | (codec_result, _) => (mesh_mgmt_map_codec_result codec_result, out_envelope)
        end
    end.

End Envelope.

(** ** The header as a field list *)

Record header_typed (h : mesh_mgmt_header) : Prop := {
  ht_32 : bytes_ok 32 (mh_mesh_id_hash h) ∧ bytes_ok 32 (mh_origin_principal_key h) ∧
    bytes_ok 32 (mh_origin_node_id h) ∧ bytes_ok 32 (mh_target_node_id h) ∧
    bytes_ok 32 (mh_payload_hash h);
  ht_16 : bytes_ok 16 (mh_session_id h) ∧ bytes_ok 16 (mh_message_id h);
  ht_u64 : u64 (mh_principal_epoch h) ∧ u64 (mh_incarnation h) ∧ u64 (mh_origin_sequence h) ∧
    u64 (mh_issued_at_ms h) ∧ u64 (mh_expires_at_ms h) ∧ u64 (mh_certificate_serial h);
  ht_u8 : u8 (mh_forward_budget h) }.

Definition header_fields (h : mesh_mgmt_header) : list tlv :=
  [mk_tlv 1 (mh_mesh_id_hash h); mk_tlv 2 (mh_origin_principal_key h);
   mk_tlv 3 (mh_origin_node_id h); mk_tlv 4 (mh_target_node_id h);
   mk_tlv 5 (mesh_mgmt_wire_write_u64 (mh_principal_epoch h));
   mk_tlv 6 (mesh_mgmt_wire_write_u64 (mh_incarnation h));
   mk_tlv 7 (mh_session_id h); mk_tlv 8 (mesh_mgmt_wire_write_u64 (mh_origin_sequence h));
   mk_tlv 9 (mh_message_id h); mk_tlv 10 (mesh_mgmt_wire_write_u64 (mh_issued_at_ms h));
   mk_tlv 11 (mesh_mgmt_wire_write_u64 (mh_expires_at_ms h)); mk_tlv 12 [mh_forward_budget h];
   mk_tlv 13 (mh_payload_hash h);
   mk_tlv 14 (mesh_mgmt_wire_write_u64 (mh_certificate_serial h))].

Lemma header_encode_eq h : mesh_mgmt_header_encode_v1 h = encode_tlvs (header_fields h).
Proof.
  unfold mesh_mgmt_header_encode_v1, encode_tlvs, header_fields, mesh_mgmt_write_u64_tlv, encode_tlv.
  cbn [fmap list_fmap concat t_id t_value]. by rewrite app_nil_r.
Qed.

Lemma write_u64_ok v : bytes_ok 8 (mesh_mgmt_wire_write_u64 v).
Proof. rewrite wire_write_u64_eq. split; auto with mesh. Qed.

Lemma header_fields_ok h : header_typed h → Forall tlv_ok (header_fields h) ∧
  length <$> (t_value <$> header_fields h) = [32; 32; 32; 32; 8; 8; 16; 8; 16; 8; 8; 1; 32; 8]%nat.
Proof.
  intros [(H1 & H2 & H3 & H4 & H5) (H6 & H7) (H8 & H9 & H10 & H11 & H12 & H13) H14].
  assert (Hw : ∀ v, bytes_ok 8 (mesh_mgmt_wire_write_u64 v)) by apply write_u64_ok.
  assert (Hok : ∀ i v n, 1 <= i <= 14 → bytes_ok n v → (n <= 32)%nat → tlv_ok (mk_tlv i v)).
  { intros i v n Hi [Hl Hv] Hn. unfold tlv_ok, uint, len. cbn. split_and!; done || lia. }
  split.
  - assert (H15 : bytes_ok 1 [mh_forward_budget h]) by (split; [done|by apply Forall_singleton]).
    unfold header_fields.
    repeat (constructor; [eapply Hok; [lia|eassumption || apply Hw|lia]|]). constructor.
  - unfold header_fields. cbn [fmap list_fmap t_value].
    rewrite !(λ v, bytes_ok_length 8 _ (Hw v)).
    by rewrite (proj1 H1), (proj1 H2), (proj1 H3), (proj1 H4), (proj1 H5), (proj1 H6), (proj1 H7).
Qed.

(** ** Reading fields *)

(** The offset of field [k]. *)
Definition field_offset (l : list tlv) (k : nat) : nat := length (encode_tlvs (take k l)).

Lemma encode_tlvs_app l l' : encode_tlvs (l ++ l') = encode_tlvs l ++ encode_tlvs l'.
Proof. unfold encode_tlvs. by rewrite fmap_app, concat_app. Qed.

Lemma encode_tlvs_drop l k : drop (field_offset l k) (encode_tlvs l) = encode_tlvs (drop k l).
Proof.
  unfold field_offset. rewrite <- (take_drop k l) at 2. by rewrite encode_tlvs_app, drop_app_length.
Qed.

Lemma field_offset_le l k : (field_offset l k <= length (encode_tlvs l))%nat.
Proof.
  unfold field_offset. rewrite <- (take_drop k l) at 2. rewrite encode_tlvs_app, length_app. lia.
Qed.

Lemma length_encode_tlvs l :
  length (encode_tlvs l) = (4 * length l + sum_list (length <$> (t_value <$> l)))%nat.
Proof.
  unfold encode_tlvs. induction l as [|t l IH]; [done|]. cbn [fmap list_fmap concat length sum_list].
  rewrite length_app, length_encode_tlv, IH. cbn. lia.
Qed.

Lemma read_field_at l k id v prev size : Forall tlv_ok l → l !! k = Some (mk_tlv id v) →
  above prev id → len v = size →
  read_field (reader_at (encode_tlvs l) (field_offset l k) prev) id size =
    Some (v, reader_at (encode_tlvs l) (field_offset l (S k)) (Some id)).
Proof.
  intros Hl Hk Hab Hs. unfold read_field, mesh_mgmt_wire_read_field.
  assert (Ht : tlv_ok (mk_tlv id v)) by (by eapply Forall_lookup_1).
  rewrite (next_field _ (field_offset l k) prev zero_tlv_view (mk_tlv id v)
    (encode_tlvs (drop (S k) l)));
    [|apply field_offset_le|done|done|].
  - cbn [deref view_of tv_field_id tv_value_len tv_value t_id t_value]. rewrite Hs, !Z.eqb_refl. cbn [andb].
    do 3 f_equal. unfold field_offset. rewrite (take_S_r _ _ _ Hk), encode_tlvs_app, length_app.
    unfold encode_tlvs at 3. cbn [fmap list_fmap concat]. by rewrite app_nil_r.
  - rewrite encode_tlvs_drop, (drop_S _ _ _ Hk). done.
Qed.

Lemma header_parse_encode h : header_typed h →
  mesh_mgmt_header_parse_v1 (Some (mesh_mgmt_header_encode_v1 h)) 297 = Some h ∧
  len (mesh_mgmt_header_encode_v1 h) = 297.
Proof.
  intros Hh. destruct (header_fields_ok h Hh) as [Hok Hlen]. rewrite header_encode_eq.
  assert (Hl : len (encode_tlvs (header_fields h)) = 297).
  { unfold len. by rewrite length_encode_tlvs, Hlen. }
  split; [|done]. unfold mesh_mgmt_header_parse_v1. rewrite <- Hl at 2.
  change (negb (297 =? MESH_MGMT_HEADER_V1_ENCODED_SIZE)) with false. cbv iota.
  change (deref zero_reader _) with
    (reader_at (encode_tlvs (header_fields h)) (field_offset (header_fields h) 0) None).
  destruct Hh as [(H1 & H2 & H3 & H4 & H5) (H6 & H7) (H8 & H9 & H10 & H11 & H12 & H13) H14].
  assert (Hn : ∀ n v z, bytes_ok n v → z = Z.of_nat n → len v = z) by (by intros n v z [<- _] ->).
  do 14 (erewrite read_field_at;
    [|done|reflexivity|by cbn; try lia|first [reflexivity|eapply Hn;
       [eassumption || apply write_u64_ok|reflexivity]]]; cbn [mbind option_bind]).
  change (field_offset (header_fields h) 14) with (length (encode_tlvs (header_fields h))).
  rewrite next_end. change (0 =? 0) with true. cbv iota.
  rewrite !wire_read_write_u64 by done. by destruct h.
Qed.

Lemma read_field_inv b off prev id size v rd : Forall u8 b → (off <= length b)%nat →
  read_field (reader_at b off prev) id size = Some (v, rd) →
  ∃ off', rd = reader_at b off' (Some id) ∧ (off' <= length b)%nat ∧
    drop off b = encode_tlv (mk_tlv id v) ++ drop off' b ∧ len v = size ∧ Forall u8 v.
Proof.
  intros Hb Hoff H. unfold read_field, mesh_mgmt_wire_read_field in H.
  destruct (mesh_mgmt_tlv_reader_next _ _) as [[r rd1] f1] eqn:En.
  step_in H; [|done]. bool_prop. subst r.
  destruct (next_inv b Hb _ _ _ _ _ Hoff En) as (t & rest & Hd & Ht & Hab).
  rewrite (next_field b off prev zero_tlv_view t rest) in En by done.
  set (n := length (encode_tlv t)) in En. injection En as <- <-.
  cbn [deref view_of tv_value tv_field_id tv_value_len] in *. injection H as <- <-.
  pose proof (length_drop b off) as Hld. rewrite Hd, length_app in Hld. fold n in Hld.
  exists (off + n)%nat. destruct t as [i w]. cbn [t_id t_value] in *. subst i.
  split_and!; [done|lia| |done|apply Ht].
  rewrite <- drop_drop, Hd. unfold n. by rewrite drop_app_length.
Qed.

(** One field of a successful parse [H]: the bytes at the reader's offset are its
    encoding, the rest of the parse continues behind it. *)
Ltac parsed_field H :=
  let v := fresh "v" in let rd := fresh "rd" in let Hr := fresh "Hr" in
  let off := fresh "off" in let Ho := fresh "Ho" in let Hd := fresh "Hd" in
  let Hs := fresh "Hs" in let Hu := fresh "Hu" in
  apply bind_Some in H as ([v rd] & Hr & H);
  apply read_field_inv in Hr as (off & -> & Ho & Hd & Hs & Hu); [|done..].

Lemma header_parse_inv b h : Forall u8 b → len b = 297 →
  mesh_mgmt_header_parse_v1 (Some b) 297 = Some h →
  header_typed h ∧ b = mesh_mgmt_header_encode_v1 h.
Proof.
  intros Hb Hl H. unfold mesh_mgmt_header_parse_v1 in H. rewrite <- Hl in H at 2.
  change (negb (297 =? MESH_MGMT_HEADER_V1_ENCODED_SIZE)) with false in H. cbv iota in H.
  change (deref zero_reader _) with (reader_at b 0 None) in H.
  assert (Hoff : (0 <= length b)%nat) by lia.
  do 14 parsed_field H.
  destruct (mesh_mgmt_tlv_reader_next _ _) as [[r rd'] f'] eqn:En.
  step_in H; [|done]. injection H as <-. bool_prop. subst r.
  match type of En with context [reader_at b ?o ?p] =>
    pose proof (next_result b o p zero_tlv_view ltac:(done)) as Hr end.
  rewrite En in Hr. destruct Hr as [?|[?|[_ Hend]]]; [done..|].
  assert (Hok : ∀ n z v, len v = z → z = Z.of_nat n → Forall u8 v → bytes_ok n v).
  { intros n z v' Hv -> Hu'. split; [unfold len in Hv; lia|done]. }
  assert (Hr8 : ∀ v, bytes_ok 8 v → u64 (mesh_mgmt_wire_read_u64 v)).
  { intros v' Hv. rewrite wire_read_u64_eq by done. pose proof (be_value_range v' (proj2 Hv)) as Hr.
    unfold len in Hr. by rewrite (proj1 Hv) in Hr. }
  split.
  - split; cbn; split_and!; first [by eapply Hok | by eapply Hr8, Hok | by apply at_u8].
  - unfold mesh_mgmt_header_encode_v1, mesh_mgmt_write_u64_tlv. cbn.
    rewrite !wire_write_read_u64 by (by eapply Hok).
    assert (Hb1 : [at_ v10 0] = v10).
    { destruct v10 as [|x [|y v10]]; unfold len in *; cbn in *; try lia. done. }
    rewrite Hb1, <- (drop_0 b) at 1. rewrite Hd, Hd0, Hd1, Hd2, Hd3, Hd4, Hd5, Hd6, Hd7, Hd8, Hd9,
      Hd10, Hd11, Hd12, Hend, drop_all, app_nil_r. done.
Qed.

(** ** Signing input *)

Lemma blake2b_ok `{CR : Crypto} p : 
  mesh_mgmt_blake2b_256 (Some p) (len p) (Some (zeros 32)) = (MESH_MGMT_CRYPTO_OK, Some (crypto_blake2b p)).
Proof. unfold mesh_mgmt_blake2b_256, len. cbn. by rewrite Nat2Z.id, take_ge. Qed.

Section Correct.
Context {CR : Crypto} {CL : CryptoLaws}.

(** A frame the verifier accepts, taken apart. *)
Lemma verify_inv f e0 e : Forall u8 f →
  mesh_mgmt_envelope_verify_v1 (Some f) (Some e0) = (MESH_MGMT_ENVELOPE_OK, Some e) →
  ∃ p s, let h := ve_header e in
    frame_typed (ve_frame e) (mesh_mgmt_header_encode_v1 h) p s ∧
    frame_valid (ve_frame e) (mesh_mgmt_header_encode_v1 h) p ∧ encode_frame (ve_frame e) = f ∧
    header_typed h ∧ fv_minor (ve_frame e) = 1 ∧
    mesh_mgmt_header_constraints_are_valid (fv_kind (ve_frame e)) h = true ∧
    mh_payload_hash h = crypto_blake2b p ∧
    evp_verify (mh_origin_principal_key h)
      (MESH_MGMT_SIGNATURE_DOMAIN ++ take (length f - 64) f) s = Some 1.
Proof.
  intros Hf H. unfold mesh_mgmt_envelope_verify_v1 in H.
  rewrite bool_decide_eq_true_2 in H by done. cbn [negb] in H.
  destruct (mesh_mgmt_frame_decode (Some f) (Some zero_frame)) as [r o] eqn:Ed.
  destruct r; try done.
  destruct (frame_decode_inv _ _ _ Hf Ed) as (v & h & p & s & -> & Ht & Hv & He). cbn [deref] in H.
  pose proof Ht as [_ (Hh & Hhl & Hhb) (Hp & Hpl & Hpb) (Hs & Hsl)].
  step_in H; [done|]. rewrite Hh, Hhl, Hp, Hpl, Hs, blake2b_ok in H. bool_prop.
  destruct (mesh_mgmt_header_parse_v1 (Some h) (len h)) as [hd|] eqn:Ep; [|done].
  assert (Hl : len h = 297).
  { unfold mesh_mgmt_header_parse_v1 in Ep. step_in Ep; [done|]. by bool_prop. }
  rewrite Hl in Ep. destruct (header_parse_inv _ _ Hhb Hl Ep) as [Hht ->].
  step_in H; [done|]. bool_prop.
  rewrite crypto_equal_32_spec in H by (apply crypto_blake2b_size || apply Hht).
  case_bool_decide as Hhash; cbn [negb] in H; [|done].
  unfold mesh_mgmt_ed25519_verify in H.
  change (negb (non_null (Some _)) && _) with false in H. cbv iota in H. cbn [deref] in H.
  unfold len in H at 1. rewrite Nat2Z.id, take_ge in H by done.
  destruct (evp_verify _ _ _) as [vr|] eqn:Ev; [|done].
  destruct (Z.eqb_spec vr 1) as [->|]; [|by destruct (vr =? 0)]. injection H as <-.
  exists p, s. cbn [ve_header ve_frame]. split_and!; try done.
  rewrite <- Ev. f_equal. unfold mesh_mgmt_build_signing_input, len, MESH_MGMT_SIGNATURE_SIZE.
  do 2 f_equal. lia.
Qed.

Lemma verify_intro v h p s e0 : frame_typed v (mesh_mgmt_header_encode_v1 h) p s →
  frame_valid v (mesh_mgmt_header_encode_v1 h) p → fv_minor v = 1 → header_typed h →
  mesh_mgmt_header_constraints_are_valid (fv_kind v) h = true →
  mh_payload_hash h = crypto_blake2b p →
  evp_verify (mh_origin_principal_key h)
    (MESH_MGMT_SIGNATURE_DOMAIN ++ take (length (encode_frame v) - 64) (encode_frame v)) s = Some 1 →
  mesh_mgmt_envelope_verify_v1 (Some (encode_frame v)) (Some e0) =
    (MESH_MGMT_ENVELOPE_OK, Some (mk_envelope v h)).
Proof.
  intros Ht Hv Hm Hh Hc Hhash Hsig. destruct (header_parse_encode h Hh) as [Hparse Hlen].
  unfold mesh_mgmt_envelope_verify_v1. rewrite bool_decide_eq_true_2 by done. cbn [negb].
  rewrite (decode_encode_frame _ _ _ _ _ Ht Hv). cbn [deref].
  destruct Ht as [_ (Hhd & Hhl & _) (Hp & Hpl & _) (Hs & Hsl)].
  rewrite Hm, Hhd, Hhl, Hp, Hpl, Hs, Hlen, Hparse, Hc, blake2b_ok, Hhash. cbn [negb].
  change (negb (1 =? MESH_MGMT_MINOR_V1)) with false. cbv iota.
  rewrite crypto_equal_32_spec by apply crypto_blake2b_size.
  rewrite bool_decide_eq_true_2 by done. cbn [negb]. unfold mesh_mgmt_ed25519_verify. cbn [deref].
  change (negb (non_null (Some _)) && _) with false. cbv iota.
  unfold len at 1. rewrite Nat2Z.id, take_ge by done.
  unfold mesh_mgmt_build_signing_input, len, MESH_MGMT_SIGNATURE_SIZE.
  replace (Z.to_nat (Z.of_nat (length (encode_frame v)) - 64)) with
    (length (encode_frame v) - 64)%nat by lia.
  by rewrite Hsig.
Qed.

(** Everything of a frame but its signature. *)
Definition unsigned_part (f : mesh_mgmt_frame_view) (h p : bytes) : bytes :=
  MESH_MGMT_MAGIC ++ [fv_major f; fv_minor f; fv_kind f; fv_flags f] ++
  mesh_mgmt_wire_write_u16 (wrap 16 (len h)) ++ mesh_mgmt_wire_write_u32 (wrap 32 (len p)) ++ h ++ p.

Lemma unsigned_part_spec f h p s : frame_typed f h p s →
  encode_frame f = unsigned_part f h p ++ s ∧
  length (unsigned_part f h p) = (14 + length h + length p)%nat ∧
  take (length (encode_frame f) - 64) (encode_frame f) = unsigned_part f h p.
Proof.
  intros Hf. pose proof (length_encode_frame _ _ _ _ Hf) as Hl.
  assert (He : encode_frame f = unsigned_part f h p ++ s).
  { rewrite (encode_frame_eq _ _ _ _ Hf). unfold unsigned_part. by rewrite <- !app_assoc. }
  assert (Hu : length (unsigned_part f h p) = (14 + length h + length p)%nat).
  { rewrite He, length_app in Hl. destruct Hf as [_ _ _ (_ & Hs & _)]. lia. }
  split_and!; [done|done|]. rewrite Hl, He, take_app_length'; [done|lia].
Qed.

Lemma blit_end (a s s' rest : bytes) : length s = length s' →
  blit (a ++ s ++ rest) (length a) s' = a ++ s' ++ rest.
Proof.
  intros Hl. unfold blit. rewrite take_app_length. do 2 f_equal.
  rewrite app_assoc, drop_app_length'; [done|]. rewrite length_app. lia.
Qed.

(** An input the signer accepts. *)
Record signable (inp : mesh_mgmt_sign_input) (sk pk p : bytes) (capacity : Z) : Prop := {
  sg_key : si_private_key inp = Some sk ∧ evp_public sk = Some pk;
  sg_payload : si_payload inp = Some p ∧ si_payload_len inp = len p ∧ Forall u8 p;
  sg_minor : si_minor inp = 1;
  sg_kind : mesh_mgmt_kind_is_known (si_kind inp) = true ∧ u8 (si_kind inp);
  sg_flags : si_flags inp = 0;
  sg_header : header_typed (signed_header (si_header inp) (zeros 32) (zeros 32));
  sg_constraints : mesh_mgmt_header_constraints_are_valid (si_kind inp)
    (signed_header (si_header inp) (zeros 32) (zeros 32)) = true;
  sg_fields : mesh_mgmt_tlv_block_is_canonical (Some p) (len p) = true;
  sg_size : len p <= 16009 ∧ 375 + len p <= capacity }.

Lemma signed_header_typed u k1 h1 k2 h2 : bytes_ok 32 k2 → bytes_ok 32 h2 →
  header_typed (signed_header u k1 h1) → header_typed (signed_header u k2 h2).
Proof.
  intros Hk Hh [(? & ? & ? & ? & ?) ? ? ?]. by split.
Qed.

Lemma header_encode_u8 h : header_typed h → Forall u8 (mesh_mgmt_header_encode_v1 h).
Proof.
  intros Hh. destruct (header_fields_ok h Hh) as [Hok _]. rewrite header_encode_eq.
  unfold encode_tlvs. induction Hok as [|t l (Hi & Hv & Hl) _ IH]; [constructor|].
  cbn [fmap list_fmap concat]. apply Forall_app. split; [|done].
  unfold encode_tlv, mesh_mgmt_wire_write_tlv.
  rewrite wire_write_u16_eq, (wire_write_u16_eq (wrap _ _)).
  repeat (apply Forall_app; split); auto with mesh.
Qed.

Lemma header_encode_canonical h : header_typed h →
  mesh_mgmt_tlv_block_is_canonical (Some (mesh_mgmt_header_encode_v1 h)) 297 = true.
Proof.
  intros Hh. rewrite <- (proj2 (header_parse_encode h Hh)).
  apply block_canonical_iff; [by apply header_encode_u8|].
  exists (header_fields h). destruct (header_fields_ok h Hh) as [Hok _].
  split_and!; [apply header_encode_eq|done|]. cbn. lia.
Qed.

Section Sign.
Context (inp : mesh_mgmt_sign_input) (sk pk p out : bytes) (Hsg : signable inp sk pk p (len out)).

(** The header and frame the signer builds, for a signature [s]. *)
Let h : mesh_mgmt_header := signed_header (si_header inp) pk (crypto_blake2b p).
Let frame_of (s : bytes) : mesh_mgmt_frame_view :=
  mk_frame 1 1 (si_kind inp) 0 (Some (mesh_mgmt_header_encode_v1 h)) 297 (Some p) (len p) (Some s).
Let body : bytes := unsigned_part (frame_of (zeros 64)) (mesh_mgmt_header_encode_v1 h) p.

Lemma built_header_typed : header_typed h.
Proof.
  destruct Hsg as [[_ Hpk] _ _ _ _ Hh _ _ _].
  eapply signed_header_typed; [by eapply evp_public_size|apply crypto_blake2b_size|done].
Qed.

Lemma built_frame_ok s : bytes_ok 64 s →
  frame_typed (frame_of s) (mesh_mgmt_header_encode_v1 h) p s ∧
  frame_valid (frame_of s) (mesh_mgmt_header_encode_v1 h) p ∧ encode_frame (frame_of s) = body ++ s ∧
  take (length (encode_frame (frame_of s)) - 64) (encode_frame (frame_of s)) = body ∧
  length (encode_frame (frame_of s)) = (length body + 64)%nat ∧ len body = 311 + len p.
Proof.
  intros Hs. pose proof built_header_typed as Hh.
  destruct (header_parse_encode h Hh) as [_ Hlen]. destruct Hsg as [_ (_ & _ & Hpb) _ [Hk Hk8] _ _ _ Hc [Hsz _]].
  assert (Ht : frame_typed (frame_of s) (mesh_mgmt_header_encode_v1 h) p s).
  { split; cbn; split_and!; try done; by apply header_encode_u8. }
  assert (Hv : frame_valid (frame_of s) (mesh_mgmt_header_encode_v1 h) p).
  { split; try done; [lia|]. rewrite Hlen. by apply header_encode_canonical. }
  destruct (unsigned_part_spec _ _ _ _ Ht) as (He & Hlb & Htk).
  change (unsigned_part (frame_of s) _ p) with body in *.
  split_and!; try done; [rewrite He, length_app, (proj1 Hs); done|unfold len in *; lia].
Qed.

Lemma sign_builds s n0 : evp_sign sk (MESH_MGMT_SIGNATURE_DOMAIN ++ body) = Some s →
  mesh_mgmt_envelope_sign_v1 (Some inp) (Some out) (Some n0) =
    (MESH_MGMT_ENVELOPE_OK,
     Some (encode_frame (frame_of s) ++ drop (length (encode_frame (frame_of s))) out),
     Some (len (encode_frame (frame_of s)))).
Proof.
  intros Es. pose proof (evp_sign_size _ _ _ Es) as Hs.
  destruct (built_frame_ok _ (zeros_ok 64)) as (Ht0 & Hv0 & He0 & _ & Hl0 & Hlb).
  destruct (built_frame_ok _ Hs) as (_ & _ & He & _ & Hl & _).
  destruct (header_parse_encode h built_header_typed) as [_ Hlen].
  destruct Hsg as [[Hsk Hpk] (Hp & Hpl & Hpb) Hmin _ Hfl _ Hcs _ [Hsz Hcap]].
  unfold mesh_mgmt_envelope_sign_v1. change (negb (non_null (Some n0))) with false. cbv iota.
  rewrite Hsk, Hp, Hpl, Hmin, Hcs, Hfl. change (negb (non_null (Some sk))) with false.
  change (negb (non_null (Some p))) with false. cbn [andb orb].
  change (negb (1 =? MESH_MGMT_MINOR_V1)) with false. cbv iota.
  change MESH_MGMT_PAYLOAD_V1_MAX with 16009. rewrite (proj2 (Z.ltb_ge _ _) Hsz). cbn [negb].
  unfold mesh_mgmt_ed25519_public_from_private.
  change (negb (non_null (Some (zeros 32)))) with false. cbv iota. rewrite Hpk.
  cbn [assign fmap option_fmap option_map]. rewrite blake2b_ok. cbn [deref]. fold h. rewrite Hlen.
  change (negb (297 =? MESH_MGMT_HEADER_V1_ENCODED_SIZE)) with false. cbv iota.
  change (mk_frame MESH_MGMT_MAJOR_V1 _ _ _ _ _ _ _ _) with (frame_of (zeros 64)).
  destruct (mesh_mgmt_frame_encode _ _ _) as [[r o] n] eqn:Ee.
  destruct (encode_cases _ _ _ _ _ _ _ _ _ Ht0 Ee) as [(-> & _ & _ & -> & ->)|(_ & _ & Hn)].
  2:{ exfalso. apply Hn. split; [done|]. unfold len in *. lia. }
  cbn [deref]. unfold mesh_mgmt_build_signing_input, MESH_MGMT_SIGNATURE_SIZE.
  set (m := len (encode_frame (frame_of (zeros 64)))).
  assert (Hm : Z.to_nat (m - 64) = length body) by (unfold m, len; lia).
  assert (Hb : blit out 0 (encode_frame (frame_of (zeros 64))) =
    body ++ zeros 64 ++ drop (length (encode_frame (frame_of s))) out).
  { unfold blit. rewrite take_0, Nat.add_0_l, Hl0, Hl, He0. by rewrite <- app_assoc. }
  rewrite Hm, Hb, take_app_length. unfold mesh_mgmt_ed25519_sign. cbn [deref].
  change (negb (non_null (Some (zeros 64)))) with false.
  change (negb (non_null (Some (MESH_MGMT_SIGNATURE_DOMAIN ++ body)))) with false. cbn [andb].
  unfold len at 1. rewrite Nat2Z.id, take_ge, Es by done.
  cbn [assign fmap option_fmap option_map deref].
  rewrite blit_end by (by rewrite (proj1 Hs)). rewrite He at 2. rewrite <- app_assoc.
  do 2 f_equal. unfold m, len. lia.
Qed.

End Sign.

Lemma sign_then_verify (inp : mesh_mgmt_sign_input)
    (sk pk p out : bytes) (n0 : Z) (e0 : mesh_mgmt_verified_envelope) :
  signable inp sk pk p (len out) → (∀ msg, is_Some (evp_sign sk msg)) →
  ∃ frame s,
    let h := signed_header (si_header inp) pk (crypto_blake2b p) in
    let v := mk_frame 1 1 (si_kind inp) 0 (Some (mesh_mgmt_header_encode_v1 h)) 297 (Some p) (len p)
               (Some s) in
    mesh_mgmt_envelope_sign_v1 (Some inp) (Some out) (Some n0) =
      (MESH_MGMT_ENVELOPE_OK, Some (frame ++ drop (length frame) out), Some (len frame)) ∧
    mesh_mgmt_envelope_verify_v1 (Some frame) (Some e0) =
      (MESH_MGMT_ENVELOPE_OK, Some (mk_envelope v h)).
Proof.
  intros Hsg Hsign. edestruct Hsign as [s Es].
  pose proof (evp_sign_size _ _ _ Es) as Hs.
  pose proof (sign_builds inp sk pk p out Hsg s n0 Es) as Hb.
  destruct (built_frame_ok inp sk pk p out Hsg s Hs) as (Ht & Hv & He & Htk & _ & _).
  do 2 eexists. split; [exact Hb|]. eapply verify_intro; try done.
  - by eapply built_header_typed.
  - apply (sg_constraints _ _ _ _ _ Hsg).
  - rewrite Htk. eapply evp_sign_verify; [apply (sg_key _ _ _ _ _ Hsg)|exact Es].
Qed.

End Correct.

(** ** Theorems *)

(** What the verifier certifies of a frame [f] and the envelope [e] it returns. *)
Definition authentic `{Crypto} (f : bytes) (e : mesh_mgmt_verified_envelope) (p s : bytes) : Prop :=
  let h := ve_header e in
  frame_typed (ve_frame e) (mesh_mgmt_header_encode_v1 h) p s ∧
  frame_valid (ve_frame e) (mesh_mgmt_header_encode_v1 h) p ∧ encode_frame (ve_frame e) = f ∧
  header_typed h ∧ fv_minor (ve_frame e) = 1 ∧
  mesh_mgmt_header_constraints_are_valid (fv_kind (ve_frame e)) h = true ∧
  mh_payload_hash h = crypto_blake2b p ∧
  evp_verify (mh_origin_principal_key h)
    (MESH_MGMT_SIGNATURE_DOMAIN ++ take (length f - 64) f) s = Some 1.

(** C25: the verifier accepts a frame exactly when it is the canonical encoding
    of the returned header, payload and signature, the payload hash matches, the
    header constraints hold and the signature verifies, under the header's
    principal key, over every byte of the frame before the signature. *)
Theorem envelope_verify_authentic {CR : Crypto} {CL : CryptoLaws} (f : bytes)
    (e0 e : mesh_mgmt_verified_envelope) :
  Forall u8 f →
  mesh_mgmt_envelope_verify_v1 (Some f) (Some e0) = (MESH_MGMT_ENVELOPE_OK, Some e) ↔
  ∃ p s, authentic f e p s.
Proof.
  intros Hf. split; [by apply verify_inv|].
  intros (p & s & Ht & Hv & <- & Hh & Hm & Hc & Hp & Hs). destruct e as [v h]. by eapply verify_intro.
Qed.

(** Signing a well-formed request always produces a frame, without touching
    the buffer behind it, and the verifier accepts that frame and returns the
    requested header completed with the signer's public key and the payload hash. *)
Theorem envelope_sign_verify {CR : Crypto} {CL : CryptoLaws} (inp : mesh_mgmt_sign_input)
    (sk pk p out : bytes) (n0 : Z) (e0 : mesh_mgmt_verified_envelope) :
  signable inp sk pk p (len out) → (∀ msg, is_Some (evp_sign sk msg)) →
  ∃ frame s,
    let h := signed_header (si_header inp) pk (crypto_blake2b p) in
    let v := mk_frame 1 1 (si_kind inp) 0 (Some (mesh_mgmt_header_encode_v1 h)) 297 (Some p) (len p)
               (Some s) in
    mesh_mgmt_envelope_sign_v1 (Some inp) (Some out) (Some n0) =
      (MESH_MGMT_ENVELOPE_OK, Some (frame ++ drop (length frame) out), Some (len frame)) ∧
    mesh_mgmt_envelope_verify_v1 (Some frame) (Some e0) =
      (MESH_MGMT_ENVELOPE_OK, Some (mk_envelope v h)).
Proof. apply sign_then_verify. Qed.

(** ** Witnesses *)

#[local] Existing Instance w_crypto.
#[local] Existing Instance w_crypto_laws.

Definition w_uheader : mesh_mgmt_unsigned_header :=
  mk_unsigned_header (1 :: zeros 31) (2 :: zeros 31) (3 :: zeros 31) 4 5 (6 :: zeros 15) 7
    (8 :: zeros 15) 1000 2000 1 9.
Definition w_sign_input : mesh_mgmt_sign_input :=
  mk_sign_input 1 MESH_MGMT_KIND_COMMAND_REQUEST 0 w_uheader (Some (zeros 32))
    (Some (encode_tlvs [mk_tlv 2 [3]])) 5.
Definition w_signed : bytes :=
  deref [] (mesh_mgmt_envelope_sign_v1 (Some w_sign_input) (Some (zeros 380)) (Some 0)).1.2.
Definition w_envelope : mesh_mgmt_verified_envelope :=
  deref zero_envelope (mesh_mgmt_envelope_verify_v1 (Some w_signed) (Some zero_envelope)).2.

Lemma w_signable : signable w_sign_input (zeros 32) (w_hash (zeros 32)) (encode_tlvs [mk_tlv 2 [3]])
  (len (zeros 400)).
Proof.
  split.
  - split; reflexivity.
  - split; [reflexivity|]. split; [vm_compute; reflexivity|evaluate].
  - reflexivity.
  - split; [vm_compute; reflexivity|evaluate].
  - reflexivity.
  - split; split_and!; evaluate.
  - vm_compute; reflexivity.
  - vm_compute; reflexivity.
  - split; vm_compute; discriminate.
Qed.

Lemma envelope_verify_authentic_witness :
  mesh_mgmt_envelope_verify_v1 (Some w_signed) (Some zero_envelope) =
    (MESH_MGMT_ENVELOPE_OK, Some w_envelope) ∧ ∃ p s, authentic w_signed w_envelope p s.
Proof.
  split; [vm_compute; reflexivity|].
  apply (envelope_verify_authentic w_signed zero_envelope w_envelope); [evaluate|].
  vm_compute. reflexivity.
Defined.

Definition w_payload : bytes := encode_tlvs [mk_tlv 2 [3]].

Lemma envelope_sign_verify_witness :
  ∃ frame s,
    let h := signed_header (si_header w_sign_input) (w_hash (zeros 32)) (crypto_blake2b w_payload) in
    let v := mk_frame 1 1 (si_kind w_sign_input) 0 (Some (mesh_mgmt_header_encode_v1 h)) 297
               (Some w_payload) (len w_payload) (Some s) in
    mesh_mgmt_envelope_sign_v1 (Some w_sign_input) (Some (zeros 400)) (Some 0) =
      (MESH_MGMT_ENVELOPE_OK, Some (frame ++ drop (length frame) (zeros 400)), Some (len frame)) ∧
    mesh_mgmt_envelope_verify_v1 (Some frame) (Some zero_envelope) =
      (MESH_MGMT_ENVELOPE_OK, Some (mk_envelope v h)).
Proof.
  apply (envelope_sign_verify w_sign_input (zeros 32) (w_hash (zeros 32)) w_payload
    (zeros 400) 0 zero_envelope); [apply w_signable|intros msg; eexists; reflexivity].
Defined.
