(* ===== verification/Replay.v ===== *)
(** * Replay protection: [mesh/src/mesh_mgmt_replay.c]

    One gate per authenticated origin: the last sequence number and a bounded
    cache of message ids.  A message is checked with [prepare] and recorded with
    [commit]; a generation counter ties a preparation to the gate state it was
    made for.  A flag of type [uint8_t] is an integer, as the code compares it
    with 0, 1 or "greater than 1". *)

From S2P Require Import Prelude Wire MgmtCrypto MgmtCodec MgmtEnvelope.

(** ** Data *)

Definition MESH_MGMT_REPLAY_CACHE_MAX : Z := 8192.
Definition MESH_MGMT_REPLAY_TTL_MAX_MS : Z := 600000.
Definition MESH_MGMT_SERIAL_HALF_RANGE : Z := 2 ^ 63.

Inductive mesh_mgmt_replay_result : Type :=
  | MESH_MGMT_REPLAY_OK
  | MESH_MGMT_REPLAY_INVALID_ARG
  | MESH_MGMT_REPLAY_INVALID_SCHEMA
  | MESH_MGMT_REPLAY_BINDING_MISMATCH
  | MESH_MGMT_REPLAY_REPLAYED
  | MESH_MGMT_REPLAY_EXPIRED
  | MESH_MGMT_REPLAY_RESOURCE_EXHAUSTED
  | MESH_MGMT_REPLAY_STALE_PREPARATION.

#[export] Instance mesh_mgmt_replay_result_eq_dec : EqDecision mesh_mgmt_replay_result.
Proof. solve_decision. Defined.

Record mesh_mgmt_replay_config : Type := mk_replay_config { rc_capacity : Z; rc_ttl_ms : Z }.
Record mesh_mgmt_replay_binding : Type := mk_binding {
  rb_principal_key : bytes;
  rb_principal_epoch : Z;
  rb_incarnation : Z;
  rb_session_id : bytes }.
Record mesh_mgmt_replay_entry : Type := mk_replay_entry {
  rx_message_id : bytes;
  rx_expires_at_ms : Z;
  rx_occupied : Z }.
Record mesh_mgmt_replay_preparation : Type := mk_preparation {
  rp_generation : Z;
  rp_sequence : Z;
  rp_cache_expires_at_ms : Z;
  rp_cache_slot : Z;
  rp_message_id : bytes;
  rp_prepared : Z }.
Record mesh_mgmt_replay_snapshot : Type := mk_replay_snapshot {
  rs_binding : mesh_mgmt_replay_binding;
  rs_last_sequence : Z;
  rs_generation : Z;
  rs_entry_count : Z;
  rs_has_sequence : Z;
  rs_bound : Z }.
Record mesh_mgmt_replay_gate : Type := mk_gate {
  rg_config : mesh_mgmt_replay_config;
  rg_binding : mesh_mgmt_replay_binding;
  rg_entries : option (list mesh_mgmt_replay_entry);
  rg_last_sequence : Z;
  rg_generation : Z;
  rg_has_sequence : Z;
  rg_bound : Z }.

Definition zero_binding : mesh_mgmt_replay_binding := mk_binding (zeros 32) 0 0 (zeros 16).
Definition zero_replay_entry : mesh_mgmt_replay_entry := mk_replay_entry (zeros 16) 0 0.
Definition zero_preparation : mesh_mgmt_replay_preparation := mk_preparation 0 0 0 0 (zeros 16) 0.
Definition zero_replay_snapshot : mesh_mgmt_replay_snapshot := mk_replay_snapshot zero_binding 0 0 0 0 0.
Definition zero_gate : mesh_mgmt_replay_gate :=
  mk_gate (mk_replay_config 0 0) zero_binding None 0 0 0 0.

(** ** Operations *)

Definition bytes_are_zero (b : bytes) : bool := or_bytes b =? 0.

Definition sequence_is_newer (candidate current : Z) : bool :=
  let distance := wrap 64 (candidate - current) in
  negb (distance =? 0) && (distance <? MESH_MGMT_SERIAL_HALF_RANGE).

Definition bounded_expiry (now_ms frame_expiry_ms ttl_ms : Z) : Z :=
  let ttl_expiry := if now_ms <=? UINT64_MAX - ttl_ms then now_ms + ttl_ms else UINT64_MAX in
  if frame_expiry_ms <? ttl_expiry then frame_expiry_ms else ttl_expiry.

Definition mesh_mgmt_replay_init_v1 (alloc_ok : bool) (gate : option mesh_mgmt_replay_gate)
    (config : option mesh_mgmt_replay_config) :
    mesh_mgmt_replay_result * option mesh_mgmt_replay_gate :=
  match gate, config with
  | Some _, Some c =>
      if (rc_capacity c =? 0) || (MESH_MGMT_REPLAY_CACHE_MAX <? rc_capacity c) ||
         (rc_ttl_ms c =? 0) || (MESH_MGMT_REPLAY_TTL_MAX_MS <? rc_ttl_ms c)
      then (MESH_MGMT_REPLAY_INVALID_SCHEMA, Some zero_gate)
      else if negb alloc_ok then (MESH_MGMT_REPLAY_RESOURCE_EXHAUSTED, Some zero_gate)
      else (MESH_MGMT_REPLAY_OK,
            Some (mk_gate c zero_binding
                    (Some (replicate (Z.to_nat (rc_capacity c)) zero_replay_entry)) 0 0 0 0))
  | _, _ => (MESH_MGMT_REPLAY_INVALID_ARG, gate)
  end.

Definition mesh_mgmt_replay_destroy_v1 (gate : option mesh_mgmt_replay_gate) :
    option mesh_mgmt_replay_gate := assign gate zero_gate.

Definition mesh_mgmt_replay_bind_v1 (gate : option mesh_mgmt_replay_gate)
    (binding : option mesh_mgmt_replay_binding) :
    mesh_mgmt_replay_result * option mesh_mgmt_replay_gate :=
  match gate, binding with
  | Some g, Some b =>
      match rg_entries g with
      | None => (MESH_MGMT_REPLAY_INVALID_ARG, gate)
      | Some _ =>
          if bytes_are_zero (rb_principal_key b) || bytes_are_zero (rb_session_id b)
          then (MESH_MGMT_REPLAY_INVALID_SCHEMA, gate)
          else (MESH_MGMT_REPLAY_OK,
                Some (mk_gate (rg_config g) b
                        (Some (replicate (Z.to_nat (rc_capacity (rg_config g))) zero_replay_entry))
                        0 (wrap 64 (rg_generation g + 1)) 0 1))
      end
  | _, _ => (MESH_MGMT_REPLAY_INVALID_ARG, gate)
  end.

(** The cache scan from [index] on: [None] for a live entry with the message id,
    otherwise the first reusable slot, [SIZE_MAX] when there is none. *)
Fixpoint scan_entries (message_id : bytes) (now_ms index : Z)
    (entries : list mesh_mgmt_replay_entry) (available_slot : Z) : option Z :=
  match entries with
  | [] => Some available_slot
  | entry :: entries' =>
      if (rx_occupied entry =? 0) || (rx_expires_at_ms entry <=? now_ms)
      then scan_entries message_id now_ms (index + 1) entries'
             (if available_slot =? SIZE_MAX then index else available_slot)
      else if mesh_mgmt_crypto_equal_16 (Some (rx_message_id entry)) (Some message_id) then None
      else scan_entries message_id now_ms (index + 1) entries' available_slot
  end.

Definition mesh_mgmt_replay_prepare_v1 (gate : option mesh_mgmt_replay_gate)
    (header : option mesh_mgmt_header) (now_ms : Z)
    (out_preparation : option mesh_mgmt_replay_preparation) :
    mesh_mgmt_replay_result * option mesh_mgmt_replay_preparation :=
  match gate, header, out_preparation with
  | Some g, Some h, Some _ =>
      match rg_entries g with
      | None => (MESH_MGMT_REPLAY_INVALID_ARG, out_preparation)
      | Some entries =>
          let out_preparation := Some zero_preparation in
          if rg_bound g =? 0 then (MESH_MGMT_REPLAY_BINDING_MISMATCH, out_preparation)
          else if bytes_are_zero (mh_message_id h) || bytes_are_zero (mh_session_id h)
          then (MESH_MGMT_REPLAY_INVALID_SCHEMA, out_preparation)
          else if (now_ms <? mh_issued_at_ms h) || (mh_expires_at_ms h <=? now_ms)
          then (MESH_MGMT_REPLAY_EXPIRED, out_preparation)
          else if negb (mesh_mgmt_crypto_equal_32 (Some (mh_origin_principal_key h))
                          (Some (rb_principal_key (rg_binding g)))) ||
                  negb (mh_principal_epoch h =? rb_principal_epoch (rg_binding g)) ||
                  negb (mh_incarnation h =? rb_incarnation (rg_binding g)) ||
                  negb (mesh_mgmt_crypto_equal_16 (Some (mh_session_id h))
                          (Some (rb_session_id (rg_binding g))))
          then (MESH_MGMT_REPLAY_BINDING_MISMATCH, out_preparation)
          else if negb (rg_has_sequence g =? 0) &&
                  negb (sequence_is_newer (mh_origin_sequence h) (rg_last_sequence g))
          then (MESH_MGMT_REPLAY_REPLAYED, out_preparation)
          else
            match scan_entries (mh_message_id h) now_ms 0
                    (take (Z.to_nat (rc_capacity (rg_config g))) entries) SIZE_MAX with
            | None => (MESH_MGMT_REPLAY_REPLAYED, out_preparation)
            | Some available_slot =>
                if available_slot =? SIZE_MAX
                then (MESH_MGMT_REPLAY_RESOURCE_EXHAUSTED, out_preparation)
                else (MESH_MGMT_REPLAY_OK,
                      Some (mk_preparation (rg_generation g) (mh_origin_sequence h)
                              (bounded_expiry now_ms (mh_expires_at_ms h) (rc_ttl_ms (rg_config g)))
                              available_slot (mh_message_id h) 1))
            end
      end
  | _, _, _ => (MESH_MGMT_REPLAY_INVALID_ARG, out_preparation)
  end.

Definition mesh_mgmt_replay_commit_v1 (gate : option mesh_mgmt_replay_gate)
    (preparation : option mesh_mgmt_replay_preparation) :
    mesh_mgmt_replay_result * option mesh_mgmt_replay_gate :=
  match gate, preparation with
  | Some g, Some p =>
      match rg_entries g with
      | None => (MESH_MGMT_REPLAY_INVALID_ARG, gate)
      | Some entries =>
          if rp_prepared p =? 0 then (MESH_MGMT_REPLAY_INVALID_ARG, gate)
          else if (rg_bound g =? 0) || negb (rp_generation p =? rg_generation g) ||
                  (rc_capacity (rg_config g) <=? rp_cache_slot p)
          then (MESH_MGMT_REPLAY_STALE_PREPARATION, gate)
          else if negb (rg_has_sequence g =? 0) &&
                  negb (sequence_is_newer (rp_sequence p) (rg_last_sequence g))
          then (MESH_MGMT_REPLAY_STALE_PREPARATION, gate)
          else
            let entry := mk_replay_entry (rp_message_id p) (rp_cache_expires_at_ms p) 1 in
            (MESH_MGMT_REPLAY_OK,
             Some (mk_gate (rg_config g) (rg_binding g)
                     (Some (<[Z.to_nat (rp_cache_slot p):=entry]> entries)) (rp_sequence p)
                     (wrap 64 (rg_generation g + 1)) 1 (rg_bound g)))
      end
  | _, _ => (MESH_MGMT_REPLAY_INVALID_ARG, gate)
  end.

Definition occupied (e : mesh_mgmt_replay_entry) : bool := negb (rx_occupied e =? 0).

(** Result, the caller's entry buffer, the snapshot. *)
Definition mesh_mgmt_replay_export_v1 (gate : option mesh_mgmt_replay_gate)
    (entries : option (list mesh_mgmt_replay_entry)) (entry_capacity : Z)
    (out_snapshot : option mesh_mgmt_replay_snapshot) :
    mesh_mgmt_replay_result * option (list mesh_mgmt_replay_entry) *
    option mesh_mgmt_replay_snapshot :=
  match gate, out_snapshot with
  | Some g, Some _ =>
      match rg_entries g with
      | None => (MESH_MGMT_REPLAY_INVALID_ARG, entries, out_snapshot)
      | Some cache =>
          if negb (entry_capacity =? 0) && negb (bool_decide (is_Some entries))
          then (MESH_MGMT_REPLAY_INVALID_ARG, entries, out_snapshot)
          else
            let cache := take (Z.to_nat (rc_capacity (rg_config g))) cache in
            let count := count_slots occupied cache in
            let out_snapshot :=
              Some (mk_replay_snapshot (rg_binding g) (rg_last_sequence g) (rg_generation g) count
                      (rg_has_sequence g) (rg_bound g)) in
            if entry_capacity <? count
            then (MESH_MGMT_REPLAY_RESOURCE_EXHAUSTED, entries, out_snapshot)
            else (MESH_MGMT_REPLAY_OK,
                  (λ buf, filter (λ e, occupied e = true) cache ++ drop (Z.to_nat count) buf)
                    <$> entries, out_snapshot)
      end
  | _, _ => (MESH_MGMT_REPLAY_INVALID_ARG, entries, out_snapshot)
  end.

Definition binding_equal (left_ right_ : mesh_mgmt_replay_binding) : bool :=
  mesh_mgmt_crypto_equal_32 (Some (rb_principal_key left_)) (Some (rb_principal_key right_)) &&
  (rb_principal_epoch left_ =? rb_principal_epoch right_) &&
  (rb_incarnation left_ =? rb_incarnation right_) &&
  mesh_mgmt_crypto_equal_16 (Some (rb_session_id left_)) (Some (rb_session_id right_)).

(** The validation loop over the imported entries. *)
Fixpoint entries_valid (entries : list mesh_mgmt_replay_entry) : bool :=
  match entries with
  | [] => true
  | e :: entries' =>
      if negb (rx_occupied e =? 1) || bytes_are_zero (rx_message_id e) ||
         (rx_expires_at_ms e =? 0)
      then false
      else if existsb (λ e', mesh_mgmt_crypto_equal_16 (Some (rx_message_id e))
                               (Some (rx_message_id e'))) entries'
      then false
      else entries_valid entries'
  end.

Definition live (now_ms : Z) (e : mesh_mgmt_replay_entry) : bool := now_ms <? rx_expires_at_ms e.

Definition mesh_mgmt_replay_import_v1 (gate : option mesh_mgmt_replay_gate)
    (snapshot : option mesh_mgmt_replay_snapshot) (entries : option (list mesh_mgmt_replay_entry))
    (now_ms : Z) : mesh_mgmt_replay_result * option mesh_mgmt_replay_gate :=
  match gate, snapshot with
  | Some g, Some s =>
      match rg_entries g with
      | None => (MESH_MGMT_REPLAY_INVALID_ARG, gate)
      | Some cache =>
          if (rg_bound g =? 0) || negb (rs_bound s =? 1) || (1 <? rs_has_sequence s) ||
             (rs_generation s =? 0) || (rs_generation s =? UINT64_MAX) ||
             ((rs_has_sequence s =? 0) && negb (rs_last_sequence s =? 0)) ||
             (negb (rs_entry_count s =? 0) && (rs_has_sequence s =? 0)) ||
             (rc_capacity (rg_config g) <? rs_entry_count s) ||
             (negb (rs_entry_count s =? 0) && negb (bool_decide (is_Some entries))) ||
             negb (binding_equal (rg_binding g) (rs_binding s)) ||
             negb (rg_has_sequence g =? 0) || negb (rg_last_sequence g =? 0)
          then (MESH_MGMT_REPLAY_INVALID_ARG, gate)
          else if existsb occupied (take (Z.to_nat (rc_capacity (rg_config g))) cache)
          then (MESH_MGMT_REPLAY_INVALID_ARG, gate)
          else
            let given := take (Z.to_nat (rs_entry_count s)) (deref [] entries) in
            if negb (entries_valid given) then (MESH_MGMT_REPLAY_INVALID_SCHEMA, gate)
            else
              let kept := filter (λ e, live now_ms e = true) given in
              if rc_capacity (rg_config g) <? Z.of_nat (length kept)
              then (MESH_MGMT_REPLAY_RESOURCE_EXHAUSTED, gate)
              else
                let cache :=
                  kept ++ replicate (Z.to_nat (rc_capacity (rg_config g)) - length kept)
                            zero_replay_entry in
                (MESH_MGMT_REPLAY_OK,
                 Some (mk_gate (rg_config g) (rg_binding g) (Some cache) (rs_last_sequence s)
                         (wrap 64 (rs_generation s + 1)) (rs_has_sequence s) (rg_bound g)))
      end
  | _, _ => (MESH_MGMT_REPLAY_INVALID_ARG, gate)
  end.

(** ** Checking a message *)

Record gate_ok (g : mesh_mgmt_replay_gate) (l : list mesh_mgmt_replay_entry) : Prop := {
  go_entries : rg_entries g = Some l;
  go_length : Z.of_nat (length l) = rc_capacity (rg_config g);
  go_capacity : 0 < rc_capacity (rg_config g) <= 8192;
  go_ttl : 0 < rc_ttl_ms (rg_config g) <= 600000;
  go_ids : Forall (λ e, bytes_ok 16 (rx_message_id e)) l;
  go_binding : bytes_ok 32 (rb_principal_key (rg_binding g)) ∧
    bytes_ok 16 (rb_session_id (rg_binding g));
  go_generation : u64 (rg_generation g) }.

Definition reusable (now : Z) (e : mesh_mgmt_replay_entry) : bool :=
  (rx_occupied e =? 0) || (rx_expires_at_ms e <=? now).
(** A live cache entry with this message id. *)
Definition blocks (id : bytes) (now : Z) (e : mesh_mgmt_replay_entry) : bool :=
  negb (reusable now e) && bool_decide (rx_message_id e = id).

Lemma scan_spec id now l : ∀ i av, bytes_ok 16 id →
  Forall (λ e, bytes_ok 16 (rx_message_id e)) l → 0 <= i → i + Z.of_nat (length l) < SIZE_MAX →
  scan_entries id now i l av =
  if existsb (blocks id now) l then None
  else Some (if av =? SIZE_MAX
             then match find_slot (reusable now) l with
                  | Some (k, _) => i + Z.of_nat k | None => SIZE_MAX end
             else av).
Proof.
  induction l as [|e l IH]; intros i av Hid Hl Hi Hb; cbn [scan_entries existsb find_slot].
  { destruct (Z.eqb_spec av SIZE_MAX); by subst. }
  apply Forall_cons in Hl as [He Hl]. cbn [length] in Hb. unfold blocks at 1.
  fold (reusable now e). destruct (reusable now e) eqn:Er; cbn [negb andb orb].
  - rewrite IH by (done || lia). destruct (existsb (blocks id now) l); [done|]. f_equal.
    destruct (Z.eqb_spec av SIZE_MAX) as [->|Hav].
    + destruct (Z.eqb_spec i SIZE_MAX); lia.
    + destruct (Z.eqb_spec av SIZE_MAX); done.
  - rewrite crypto_equal_16_spec by done. case_bool_decide; cbn [orb]; [done|].
    rewrite IH by (done || lia). destruct (existsb (blocks id now) l); [done|]. f_equal.
    destruct (find_slot (reusable now) l) as [[k x]|]; cbn [fmap option_fmap option_map prod_map];
      [|done]. destruct (av =? SIZE_MAX); [cbn; lia|done].
Qed.

(** The conditions under which a message is accepted. *)
Record admissible (g : mesh_mgmt_replay_gate) (l : list mesh_mgmt_replay_entry)
    (h : mesh_mgmt_header) (now : Z) : Prop := {
  ad_bound : rg_bound g ≠ 0;
  ad_ids : mh_message_id h ≠ zeros 16 ∧ mh_session_id h ≠ zeros 16;
  ad_time : mh_issued_at_ms h <= now < mh_expires_at_ms h;
  ad_origin : mh_origin_principal_key h = rb_principal_key (rg_binding g) ∧
    mh_principal_epoch h = rb_principal_epoch (rg_binding g) ∧
    mh_incarnation h = rb_incarnation (rg_binding g) ∧
    mh_session_id h = rb_session_id (rg_binding g);
  ad_sequence : rg_has_sequence g ≠ 0 →
    sequence_is_newer (mh_origin_sequence h) (rg_last_sequence g) = true;
  ad_new : Forall (λ e, blocks (mh_message_id h) now e = false) l;
  ad_room : Exists (λ e, reusable now e = true) l }.

Lemma zero_test n b : bytes_ok n b → bytes_are_zero b = bool_decide (b = zeros n).
Proof.
  intros [Hl Hb]. unfold bytes_are_zero. apply eq_bool_prop_intro.
  by rewrite Is_true_true, Z.eqb_eq, bool_decide_spec, or_bytes_zero, Hl by done.
Qed.

Lemma existsb_Forall_false {A} (f : A → bool) l :
  existsb f l = false ↔ Forall (λ x, f x = false) l.
Proof.
  induction l as [|x l IH]; cbn; [by split|]. by rewrite orb_false_iff, IH, Forall_cons.
Qed.

Lemma prepare_cases g l h now p0 r o : gate_ok g l → header_typed h →
  mesh_mgmt_replay_prepare_v1 (Some g) (Some h) now (Some p0) = (r, o) →
  (r = MESH_MGMT_REPLAY_OK ∧ admissible g l h now ∧ ∃ k e, l !! k = Some e ∧ reusable now e = true ∧
     o = Some (mk_preparation (rg_generation g) (mh_origin_sequence h)
       (bounded_expiry now (mh_expires_at_ms h) (rc_ttl_ms (rg_config g))) (Z.of_nat k)
       (mh_message_id h) 1)) ∨
  (r ≠ MESH_MGMT_REPLAY_OK ∧ ¬ admissible g l h now).
Proof.
  intros [He Hl Hc _ Hids [Hbk Hbs] _] [(_ & Hk & _ & _ & _) (Hs & Hm) _ _] H.
  unfold mesh_mgmt_replay_prepare_v1 in H. rewrite He in H.
  rewrite (zero_test 16 _ Hm), (zero_test 16 _ Hs), crypto_equal_32_spec, crypto_equal_16_spec
    in H by done.
  assert (Hcap : (Z.to_nat (rc_capacity (rg_config g))) = length l) by lia.
  rewrite Hcap, take_ge in H by done.
  rewrite scan_spec in H by (done || unfold SIZE_MAX; lia). change (SIZE_MAX =? SIZE_MAX) with true in H.
  repeat match type of H with
  | (if ?b then _ else _) = _ => let E := fresh "E" in destruct b eqn:E;
      [injection H as <- <-; right; split; [done|]; intros [????]; destruct_and?; refute E|]
  end.
  destruct (negb (rg_has_sequence g =? 0) && _) eqn:Es in H.
  { injection H as <- <-. right. split; [done|]. intros []. bool_prop. by rewrite ad_sequence0 in *. }
  destruct (existsb (blocks (mh_message_id h) now) l) eqn:Eb.
  { injection H as <- <-. right. split; [done|]. intros [].
    by rewrite (proj2 (existsb_Forall_false _ _)) in Eb by done. }
  destruct (find_slot (reusable now) l) as [[k e]|] eqn:Ef.
  - apply find_slot_Some in Ef as [Hke Hre].
    assert (Hlt : (k < length l)%nat) by (by eapply lookup_lt_Some).
    destruct (Z.eqb_spec (0 + Z.of_nat k) SIZE_MAX) as [Hbad|_]; [unfold SIZE_MAX in Hbad; lia|].
    injection H as <- <-. left. bool_prop. split; [done|]. split.
    + split; try done; try lia.
      * intros Hne. apply Z.eqb_neq in Hne. rewrite Hne in Es. cbn in Es. by bool_prop.
      * by apply existsb_Forall_false.
      * apply Exists_exists. exists e. split; [by eapply list_elem_of_lookup_2|done].
    + exists k, e. by rewrite Z.add_0_l.
  - change (SIZE_MAX =? SIZE_MAX) with true in H. cbv iota in H. injection H as <- <-.
    right. split; [done|]. intros [].
    rewrite find_slot_None in Ef. apply Exists_exists in ad_room0 as (e & Hin & Hre).
    apply list_elem_of_lookup in Hin as [k Hk']. by rewrite (Ef _ _ Hk') in Hre.
Qed.

(** ** Runs of a gate *)

(** The gate, every preparation handed out so far, the committed ones (latest
    first) and the time of the last check. *)
Record replay_state : Type := mk_rstate {
  st_gate : mesh_mgmt_replay_gate;
  st_preps : list mesh_mgmt_replay_preparation;
  st_accepted : list mesh_mgmt_replay_preparation;
  st_clock : Z }.

(** Messages are checked at non-decreasing times; any preparation, however old,
    may be committed at any moment. *)
Inductive replay_step : replay_state → replay_state → Prop :=
  | rstep_prepare g ps acc t h now p0 p : header_typed h → t <= now →
      mesh_mgmt_replay_prepare_v1 (Some g) (Some h) now (Some p0) = (MESH_MGMT_REPLAY_OK, Some p) →
      replay_step (mk_rstate g ps acc t) (mk_rstate g (p :: ps) acc now)
  | rstep_commit g ps acc t p g' : p ∈ ps →
      mesh_mgmt_replay_commit_v1 (Some g) (Some p) = (MESH_MGMT_REPLAY_OK, Some g') →
      replay_step (mk_rstate g ps acc t) (mk_rstate g' ps (p :: acc) t).

Inductive replay_run : replay_state → replay_state → Prop :=
  | rrun_refl s : replay_run s s
  | rrun_step s s' s'' : replay_run s s' → replay_step s' s'' → replay_run s s''.

(** Every accepted sequence number is newer than the one before it. *)
Fixpoint newer_chain (acc : list mesh_mgmt_replay_preparation) : Prop :=
  match acc with
  | p :: ((q :: _) as acc') => sequence_is_newer (rp_sequence p) (rp_sequence q) = true ∧ newer_chain acc'
  | _ => True
  end.

Record replay_inv (gen0 : Z) (s : replay_state) : Prop := {
  ri_gate : ∃ l, gate_ok (st_gate s) l ∧
    (* a current preparation names a reusable slot *)
    Forall (λ p, bytes_ok 16 (rp_message_id p) ∧ 0 <= rp_cache_slot p ∧
      (rp_generation p = rg_generation (st_gate s) →
       ∃ e, l !! Z.to_nat (rp_cache_slot p) = Some e ∧ reusable (st_clock s) e = true)) (st_preps s) ∧
    (* an accepted message stays cached until it expires *)
    Forall (λ p, st_clock s < rp_cache_expires_at_ms p → ∃ i e, l !! i = Some e ∧
      rx_occupied e = 1 ∧ rx_message_id e = rp_message_id p ∧
      rx_expires_at_ms e = rp_cache_expires_at_ms p) (st_accepted s);
  ri_generation : rg_generation (st_gate s) = gen0 + Z.of_nat (length (st_accepted s));
  ri_preps : Forall (λ p, gen0 <= rp_generation p <= rg_generation (st_gate s)) (st_preps s);
  ri_sequence : match st_accepted s with
    | [] => rg_has_sequence (st_gate s) = 0
    | p :: _ => rg_has_sequence (st_gate s) = 1 ∧ rg_last_sequence (st_gate s) = rp_sequence p end;
  ri_chain : newer_chain (st_accepted s) }.

Lemma reusable_mono t t' e : t <= t' → reusable t e = true → reusable t' e = true.
Proof. unfold reusable. rewrite !orb_true_iff, !Z.eqb_eq, !Z.leb_le. lia. Qed.

Lemma replay_step_prepare gen0 g ps acc t h now p0 p : header_typed h → t <= now →
  mesh_mgmt_replay_prepare_v1 (Some g) (Some h) now (Some p0) = (MESH_MGMT_REPLAY_OK, Some p) →
  replay_inv gen0 (mk_rstate g ps acc t) → replay_inv gen0 (mk_rstate g (p :: ps) acc now).
Proof.
  intros Hh Ht H [(l & Hok & Hps & Hacc) Hgen Hpg Hsq Hch]. cbn in *.
  destruct (prepare_cases _ _ _ _ _ _ _ Hok Hh H) as [(_ & _ & k & e & Hk & He & [= ->])|[? _]];
    [|done].
  split; cbn; try done.
  - exists l. split_and!; [done| |].
    + constructor.
      * cbn. split_and!; [apply Hh|lia|]. intros _. exists e. by rewrite Nat2Z.id.
      * eapply Forall_impl; [exact Hps|]. cbn. intros q (? & ? & Hq). split_and!; [done..|].
        intros Hg. destruct (Hq Hg) as (e' & ? & ?). exists e'. split; [done|].
        by eapply reusable_mono.
    + eapply Forall_impl; [exact Hacc|]. cbn. intros q Hq Hlt. apply Hq. lia.
  - constructor; [cbn; lia|done].
Qed.

Lemma replay_step_commit gen0 g ps acc t p g' : gen0 + Z.of_nat (length acc) + 1 < 2 ^ 64 → p ∈ ps →
  mesh_mgmt_replay_commit_v1 (Some g) (Some p) = (MESH_MGMT_REPLAY_OK, Some g') →
  replay_inv gen0 (mk_rstate g ps acc t) → replay_inv gen0 (mk_rstate g' ps (p :: acc) t).
Proof.
  intros Hb Hin H [(l & Hok & Hps & Hacc) Hgen Hpg Hsq Hch]. cbn in *.
  pose proof (go_generation _ _ Hok) as Hgu. unfold uint in Hgu.
  unfold mesh_mgmt_replay_commit_v1 in H. rewrite (go_entries _ _ Hok) in H.
  step_in H; [done|]. step_in H; [done|]. step_in H; [done|]. injection H as <-. bool_prop.
  rewrite Forall_forall in Hps. destruct (Hps p Hin) as (Hm & Hsl & Hslot).
  destruct (Hslot ltac:(done)) as (e & He & Hre).
  assert (Hw : wrap 64 (rg_generation g + 1) = rg_generation g + 1).
  { apply wrap_small. unfold uint. lia. }
  set (k := Z.to_nat (rp_cache_slot p)) in *.
  set (x := mk_replay_entry (rp_message_id p) (rp_cache_expires_at_ms p) 1).
  assert (Hlt : (k < length l)%nat) by (by eapply lookup_lt_Some).
  split; cbn.
  - exists (<[k:=x]> l). split_and!.
    + destruct Hok. split; cbn; try done; [by rewrite length_insert|by apply Forall_insert|].
      rewrite Hw. unfold uint. lia.
    + rewrite Forall_forall. intros q Hq. destruct (Hps q Hq) as (? & ? & _). split_and!; [done..|].
      rewrite Hw. intros Hg. rewrite Forall_forall in Hpg. specialize (Hpg q Hq). lia.
    + constructor.
      * intros _. exists k, x. by rewrite list_lookup_insert_eq.
      * eapply Forall_impl; [exact Hacc|]. cbn. intros q Hq Hlt'.
        destruct (Hq Hlt') as (i & e' & Hi & Ho & Hid & Hex). exists i, e'. split_and!; try done.
        rewrite list_lookup_insert_ne; [done|]. intros <-. assert (e' = e) as -> by congruence.
        revert Hre. unfold reusable. rewrite Ho, Hex, orb_true_iff, Z.eqb_eq, Z.leb_le. lia.
  - rewrite Hw. lia.
  - eapply Forall_impl; [exact Hpg|]. cbn. intros q. rewrite Hw. lia.
  - done.
  - destruct acc as [|q acc]; [done|]. destruct Hsq as [Hs1 Hs2]. split; [|done].
    rewrite Hs1, Hs2 in *. cbn in *. by bool_prop.
Qed.

Lemma replay_run_inv gen0 s s' : replay_run s s' →
  gen0 + Z.of_nat (length (st_accepted s')) < 2 ^ 64 → replay_inv gen0 s → replay_inv gen0 s'.
Proof.
  induction 1 as [|s s' s'' _ IH Hst]; [done|]. intros Hb Hi.
  assert (Hle : (length (st_accepted s') <= length (st_accepted s''))%nat).
  { destruct Hst; cbn; lia. }
  specialize (IH ltac:(lia) Hi). destruct Hst as [g ps acc t h now p0 p Hh Ht H|g ps acc t p g' Hin H].
  - by eapply replay_step_prepare.
  - cbn in Hb. eapply replay_step_commit; [lia|done..].
Qed.

(** A fresh gate, and a freshly bound one. *)
Lemma init_gate_ok cfg g0 g : 0 <= rc_capacity cfg → 0 <= rc_ttl_ms cfg →
  mesh_mgmt_replay_init_v1 true (Some g0) (Some cfg) = (MESH_MGMT_REPLAY_OK, Some g) →
  (∃ l, gate_ok g l) ∧ rg_generation g = 0.
Proof.
  intros Hc Ht H. unfold mesh_mgmt_replay_init_v1 in H. step_in H; [done|].
  cbn [negb] in H. injection H as <-.
  unfold MESH_MGMT_REPLAY_CACHE_MAX, MESH_MGMT_REPLAY_TTL_MAX_MS in *. bool_prop.
  split; [|done]. eexists. split; cbn; try done; try lia.
  - rewrite length_replicate. lia.
  - apply Forall_replicate, zeros_ok.
  - split; apply zeros_ok.
Qed.

Lemma bind_inv g l b g' t : gate_ok g l → rg_generation g + 1 < 2 ^ 64 →
  bytes_ok 32 (rb_principal_key b) → bytes_ok 16 (rb_session_id b) →
  mesh_mgmt_replay_bind_v1 (Some g) (Some b) = (MESH_MGMT_REPLAY_OK, Some g') →
  replay_inv (rg_generation g + 1) (mk_rstate g' [] [] t).
Proof.
  intros [He Hl Hc Ht Hids Hbd Hg] Hgb Hk Hs H. unfold uint in Hg.
  unfold mesh_mgmt_replay_bind_v1 in H. rewrite He in H. step_in H; [done|]. injection H as <-.
  assert (Hw : wrap 64 (rg_generation g + 1) = rg_generation g + 1).
  { apply wrap_small. unfold uint. lia. }
  split; cbn; rewrite ?Hw; try done; [|lia].
  eexists. split; [|by split; constructor]. split; cbn; try done.
  - rewrite length_replicate. lia.
  - apply Forall_replicate, zeros_ok.
  - unfold uint. lia.
Qed.

(** ** Sequence numbers *)

(** How far the accepted sequence numbers have moved in total. *)
Fixpoint advance (acc : list mesh_mgmt_replay_preparation) : Z :=
  match acc with
  | p :: ((q :: _) as acc') => wrap 64 (rp_sequence p - rp_sequence q) + advance acc'
  | _ => 0
  end.

Lemma newer_positive a b : sequence_is_newer a b = true → 0 < wrap 64 (a - b) < 2 ^ 64.
Proof.
  unfold sequence_is_newer. intros H. pose proof (wrap_range 64 (a - b)) as Hr.
  unfold uint in Hr. bool_prop. lia.
Qed.

Lemma advance_nonneg acc : 0 <= advance acc.
Proof.
  induction acc as [|p [|q acc] IH]; cbn [advance]; try lia.
  pose proof (wrap_range 64 (rp_sequence p - rp_sequence q)). unfold uint in *. cbn in *. lia.
Qed.

Lemma chain_distance acc : ∀ p q, newer_chain (p :: acc) → q ∈ acc →
  ∃ d, 0 < d <= advance (p :: acc) ∧ wrap 64 (rp_sequence p - rp_sequence q) = wrap 64 d.
Proof.
  induction acc as [|p' acc IH]; intros p q Hch Hin; [by apply not_elem_of_nil in Hin|].
  change (newer_chain (p :: p' :: acc)) with
    (sequence_is_newer (rp_sequence p) (rp_sequence p') = true ∧ newer_chain (p' :: acc)) in Hch.
  destruct Hch as [Hn Hch]. pose proof (newer_positive _ _ Hn) as Hd.
  change (advance (p :: p' :: acc)) with
    (wrap 64 (rp_sequence p - rp_sequence p') + advance (p' :: acc)).
  apply elem_of_cons in Hin as [->|Hin].
  - exists (wrap 64 (rp_sequence p - rp_sequence p')). pose proof (advance_nonneg (p' :: acc)).
    split; [lia|]. unfold wrap. by rewrite Zmod_mod.
  - destruct (IH _ _ Hch Hin) as (d & Hdd & He).
    exists (wrap 64 (rp_sequence p - rp_sequence p') + d). split; [lia|].
    unfold wrap in *. rewrite Zplus_mod, Zmod_mod, <- He, <- Zplus_mod. f_equal. lia.
Qed.

Lemma chain_NoDup acc : newer_chain acc → advance acc < 2 ^ 64 → NoDup (rp_sequence <$> acc).
Proof.
  induction acc as [|p acc IH]; intros Hch Hadv; [constructor|]. cbn [fmap list_fmap]. constructor.
  - intros (q & Hq & Hin)%list_elem_of_fmap.
    destruct (chain_distance _ _ _ Hch Hin) as (d & Hd & He).
    rewrite Hq, Z.sub_diag, (wrap_small 64 d) in He by (unfold uint; lia).
    rewrite wrap_small in He by (unfold uint; lia). lia.
  - destruct acc as [|q acc]; [constructor|].
    change (newer_chain (p :: q :: acc)) with
      (sequence_is_newer (rp_sequence p) (rp_sequence q) = true ∧ newer_chain (q :: acc)) in Hch.
    change (advance (p :: q :: acc)) with
      (wrap 64 (rp_sequence p - rp_sequence q) + advance (q :: acc)) in Hadv.
    pose proof (wrap_range 64 (rp_sequence p - rp_sequence q)). unfold uint in *.
    apply IH; [apply Hch|lia].
Qed.

(** ** Checkpoints *)

(** A gate whose checkpoint can be imported again. *)
Record exportable (g : mesh_mgmt_replay_gate) (l : list mesh_mgmt_replay_entry) : Prop := {
  ex_ok : gate_ok g l;
  ex_bound : rg_bound g = 1;
  ex_generation : rg_generation g ≠ 0 ∧ rg_generation g ≠ UINT64_MAX;
  ex_sequence : rg_has_sequence g = 1 ∨
    (rg_has_sequence g = 0 ∧ rg_last_sequence g = 0 ∧ Forall (λ e, occupied e = false) l);
  ex_entries : Forall (λ e, occupied e = true → rx_occupied e = 1 ∧ rx_message_id e ≠ zeros 16 ∧
    rx_expires_at_ms e ≠ 0) l;
  ex_ids : NoDup (rx_message_id <$> filter (λ e, occupied e = true) l) }.

(** A gate that was bound again and is still empty. *)
Record fresh_gate (g : mesh_mgmt_replay_gate) (l : list mesh_mgmt_replay_entry) : Prop := {
  fg_ok : gate_ok g l;
  fg_bound : rg_bound g = 1;
  fg_empty : rg_has_sequence g = 0 ∧ rg_last_sequence g = 0 ∧ Forall (λ e, occupied e = false) l }.

Lemma entries_valid_spec l : Forall (λ e, bytes_ok 16 (rx_message_id e)) l →
  Forall (λ e, rx_occupied e = 1 ∧ rx_message_id e ≠ zeros 16 ∧ rx_expires_at_ms e ≠ 0) l →
  NoDup (rx_message_id <$> l) → entries_valid l = true.
Proof.
  induction l as [|e l IH]; intros Hok Hv Hnd; cbn [entries_valid]; [done|].
  apply Forall_cons in Hok as [He Hok]. apply Forall_cons in Hv as [(H1 & H2 & H3) Hv].
  cbn [fmap list_fmap] in Hnd. apply NoDup_cons in Hnd as [Hni Hnd].
  rewrite H1, (zero_test 16) by done. rewrite bool_decide_eq_false_2 by done.
  apply Z.eqb_neq in H3. rewrite H3. cbn [negb orb Z.eqb Pos.eqb].
  rewrite (proj2 (existsb_Forall_false _ _)); [by apply IH|].
  rewrite Forall_forall in Hok |- *. intros e' Hin. rewrite crypto_equal_16_spec by (done || by apply Hok).
  apply bool_decide_eq_false. intros Heq. apply Hni. rewrite Heq. apply list_elem_of_fmap. eauto.
Qed.

Lemma binding_equal_refl b : bytes_ok 32 (rb_principal_key b) → bytes_ok 16 (rb_session_id b) →
  binding_equal b b = true.
Proof.
  intros. unfold binding_equal. rewrite crypto_equal_32_spec, crypto_equal_16_spec by done.
  by rewrite !bool_decide_eq_true_2, !Z.eqb_refl by done.
Qed.

Lemma count_occupied l : count_slots occupied l = Z.of_nat (length (filter (λ e, occupied e = true) l)).
Proof.
  induction l as [|e l IH]; [done|]. rewrite filter_cons. cbn [count_slots].
  destruct (occupied e); [rewrite decide_True by done|rewrite decide_False by done]; cbn; lia.
Qed.

(** The entries an import keeps. *)
Definition kept (now : Z) (l : list mesh_mgmt_replay_entry) : list mesh_mgmt_replay_entry :=
  filter (λ e, live now e = true) (filter (λ e, occupied e = true) l).
Definition restored (now : Z) (l : list mesh_mgmt_replay_entry) : list mesh_mgmt_replay_entry :=
  kept now l ++ replicate (length l - length (kept now l)) zero_replay_entry.

Lemma kept_not_reusable now e : live now e && occupied e = negb (reusable now e).
Proof. unfold live, occupied, reusable. rewrite negb_orb, Z.leb_antisym, negb_involutive. apply andb_comm. Qed.

Lemma kept_filter now l : kept now l = filter (λ e, reusable now e = false) l.
Proof.
  unfold kept. rewrite list_filter_filter. apply list_filter_iff. intros e.
  pose proof (kept_not_reusable now e) as H. destruct (live now e), (occupied e), (reusable now e); naive_solver.
Qed.

Lemma restored_blocks id now now' l : now <= now' →
  Forall (λ e, blocks id now' e = false) l ↔ Forall (λ e, blocks id now' e = false) (restored now l).
Proof.
  intros Hle. unfold restored. rewrite Forall_app, kept_filter, !Forall_forall. split.
  - intros H. split.
    + intros e [_ Hin]%list_elem_of_filter. by apply H.
    + intros e [-> _]%elem_of_replicate. done.
  - intros [H _] e Hin. destruct (reusable now e) eqn:Er; [|by apply H, list_elem_of_filter].
    unfold blocks. by rewrite (reusable_mono _ _ _ Hle Er).
Qed.

Lemma filter_all_or_less now l :
  filter (λ e, reusable now e = false) l = l ∨
  (Exists (λ e, reusable now e = true) l ∧
   (length (filter (λ e, reusable now e = false) l) < length l)%nat).
Proof.
  induction l as [|e l IH]; [by left|]. rewrite filter_cons.
  pose proof (length_filter (λ e, reusable now e = false) l) as Hle.
  destruct (reusable now e) eqn:Er; [rewrite decide_False by done|rewrite decide_True by done].
  - right. split; [by left|cbn; lia].
  - destruct IH as [->|[Hex Hlt]]; [by left|right]. split; [by right|cbn; lia].
Qed.

Lemma restored_room now now' l : now <= now' →
  Exists (λ e, reusable now' e = true) l ↔ Exists (λ e, reusable now' e = true) (restored now l).
Proof.
  intros Hle. unfold restored. rewrite Exists_app, kept_filter.
  destruct (filter_all_or_less now l) as [->|[Hex Hlt]].
  - rewrite Nat.sub_diag. cbn. rewrite Exists_nil. tauto.
  - split; intros _.
    + right. destruct (length l - _)%nat eqn:E; [lia|]. by left.
    + eapply Exists_impl; [exact Hex|]. intros e. by apply reusable_mono.
Qed.

Lemma export_snapshot g l buf s0 : gate_ok g l → length buf = length l →
  let occ := filter (λ e, occupied e = true) l in
  mesh_mgmt_replay_export_v1 (Some g) (Some buf) (Z.of_nat (length buf)) (Some s0) =
    (MESH_MGMT_REPLAY_OK, Some (occ ++ drop (length occ) buf),
     Some (mk_replay_snapshot (rg_binding g) (rg_last_sequence g) (rg_generation g)
             (Z.of_nat (length occ)) (rg_has_sequence g) (rg_bound g))).
Proof.
  intros Hok Hbuf occ. pose proof (go_length _ _ Hok) as Hl.
  pose proof (length_filter (λ e, occupied e = true) l) as Hlo. fold occ in Hlo.
  unfold mesh_mgmt_replay_export_v1. rewrite (go_entries _ _ Hok).
  rewrite (bool_decide_eq_true_2 (is_Some (Some buf))) by done. cbn [negb]. rewrite andb_false_r.
  rewrite take_ge by lia. rewrite count_occupied. fold occ. rewrite Nat2Z.id.
  rewrite (proj2 (Z.ltb_ge _ _)) by lia. done.
Qed.

Lemma import_restores g l g' l' now rest : exportable g l → fresh_gate g' l' →
  rg_config g' = rg_config g → rg_binding g' = rg_binding g →
  let occ := filter (λ e, occupied e = true) l in
  mesh_mgmt_replay_import_v1 (Some g')
    (Some (mk_replay_snapshot (rg_binding g) (rg_last_sequence g) (rg_generation g)
             (Z.of_nat (length occ)) (rg_has_sequence g) (rg_bound g))) (Some (occ ++ rest)) now =
  (MESH_MGMT_REPLAY_OK,
   Some (mk_gate (rg_config g) (rg_binding g) (Some (restored now l)) (rg_last_sequence g)
           (rg_generation g + 1) (rg_has_sequence g) 1)).
Proof.
  intros [Hok Hb [Hg0 Hg1] Hsq Hen Hnd] [Hok' Hb' (Hs1 & Hs2 & He')] Hcfg Hbd occ.
  pose proof (go_length _ _ Hok) as Hl. pose proof (go_length _ _ Hok') as Hl'.
  pose proof (go_generation _ _ Hok) as Hg. unfold uint, UINT64_MAX in *.
  pose proof (length_filter (λ e, occupied e = true) l) as Hlo. fold occ in Hlo.
  assert (Hlk : (length (kept now l) <= length l)%nat).
  { unfold kept. fold occ. pose proof (length_filter (λ e, live now e = true) occ). lia. }
  unfold mesh_mgmt_replay_import_v1. rewrite (go_entries _ _ Hok').
  cbn [rs_bound rs_has_sequence rs_generation rs_last_sequence rs_entry_count rs_binding].
  rewrite Hcfg in *. rewrite Hb, Hb', Hs1, Hs2, Hbd, binding_equal_refl by apply Hok.
  rewrite (bool_decide_eq_true_2 (is_Some _)) by done.
  assert (Hocc : rg_has_sequence g = 0 → rg_last_sequence g = 0 ∧ occ = []).
  { intros Hz. destruct Hsq as [?|(_ & Hls & Hno)]; [lia|]. split; [done|].
    unfold occ. clear -Hno. induction Hno as [|e l He _ IH]; [done|].
    by rewrite filter_cons, decide_False by congruence. }
  match goal with |- context [if ?b then _ else _] => assert (Hgd : b = false) end.
  { apply Z.eqb_neq in Hg0, Hg1. change (2 ^ 64 - 1) with UINT64_MAX in Hg1. rewrite Hg0, Hg1.
    destruct Hsq as [Hone|(Hz & _)].
    - rewrite Hone. rewrite (proj2 (Z.ltb_ge (rc_capacity _) _)) by lia. by rewrite !andb_false_r.
    - destruct (Hocc Hz) as [Hls Hnil]. rewrite Hz, Hls, Hnil.
      by rewrite (proj2 (Z.ltb_ge (rc_capacity _) _)) by (cbn; lia). }
  rewrite Hgd. rewrite take_ge by lia. rewrite (proj2 (existsb_Forall_false _ _)) by done.
  cbn [deref]. rewrite Nat2Z.id, take_app_length. rewrite entries_valid_spec.
  - cbn [negb]. change (filter (λ e, live now e = true) occ) with (kept now l).
    rewrite (proj2 (Z.ltb_ge _ _)) by lia.
    rewrite wrap_small by (unfold uint; lia). do 3 f_equal. unfold restored. do 4 f_equal. lia.
  - rewrite Forall_forall. intros e [_ Hin]%list_elem_of_filter.
    pose proof (go_ids _ _ Hok) as Hids. rewrite Forall_forall in Hids. by apply Hids.
  - rewrite Forall_forall in Hen |- *. intros e [Ho Hin]%list_elem_of_filter. by apply Hen.
  - done.
Qed.

Lemma restored_ok g l now : gate_ok g l → 0 <= rg_generation g < 2 ^ 64 - 1 →
  gate_ok (mk_gate (rg_config g) (rg_binding g) (Some (restored now l)) (rg_last_sequence g)
             (rg_generation g + 1) (rg_has_sequence g) 1) (restored now l).
Proof.
  intros [He Hl Hc Ht Hids Hbd Hg] Hb. split; cbn; try done.
  - unfold restored. rewrite length_app, length_replicate, kept_filter.
    pose proof (length_filter (λ e, reusable now e = false) l). lia.
  - unfold restored. apply Forall_app. split; [|apply Forall_replicate, zeros_ok].
    rewrite kept_filter, Forall_forall in *. intros e [_ Hin]%list_elem_of_filter. by apply Hids.
  - unfold uint. lia.
Qed.

(** The verdict of a check depends on the live entries only. *)
Lemma prepare_OK_iff g l h now p0 : gate_ok g l → header_typed h →
  (mesh_mgmt_replay_prepare_v1 (Some g) (Some h) now (Some p0)).1 = MESH_MGMT_REPLAY_OK ↔
  admissible g l h now.
Proof.
  intros Hok Hh. destruct (mesh_mgmt_replay_prepare_v1 _ _ _ _) as [r o] eqn:E. cbn.
  by destruct (prepare_cases _ _ _ _ _ _ _ Hok Hh E) as [(-> & Had & _)|[Hr Had]].
Qed.

(** The gate an import builds gives every message the verdict of the exported one. *)
Lemma restored_verdicts g l now h now' p0 : exportable g l → header_typed h → now <= now' →
  (mesh_mgmt_replay_prepare_v1 (Some g) (Some h) now' (Some p0)).1 = MESH_MGMT_REPLAY_OK ↔
  (mesh_mgmt_replay_prepare_v1
     (Some (mk_gate (rg_config g) (rg_binding g) (Some (restored now l)) (rg_last_sequence g)
              (rg_generation g + 1) (rg_has_sequence g) 1)) (Some h) now' (Some p0)).1 =
    MESH_MGMT_REPLAY_OK.
Proof.
  intros Hex Hh Hle. pose proof Hex as [Hok Hb [Hg0 Hg1] _ _ _].
  pose proof (go_generation _ _ Hok) as Hg. unfold uint, UINT64_MAX in *. rewrite (prepare_OK_iff g l) by done.
  rewrite (prepare_OK_iff _ (restored now l)) by (try apply restored_ok; done || lia).
  pose proof (restored_blocks (mh_message_id h) now now' l Hle) as Hbl.
  pose proof (restored_room now now' l Hle) as Hro.
  split; intros []; (split; cbn in *; try done; try lia); tauto.
Qed.

(** ** Theorems *)


(** C28: an accepted message id is refused until its cache entry expires, whatever
    sequence number it is presented with and whatever was committed since. *)
Theorem replay_blocks_message (g g' : mesh_mgmt_replay_gate) (l : list mesh_mgmt_replay_entry)
    (b : mesh_mgmt_replay_binding) (t now : Z) (s : replay_state)
    (p p0 : mesh_mgmt_replay_preparation) (h : mesh_mgmt_header) :
  gate_ok g l → bytes_ok 32 (rb_principal_key b) → bytes_ok 16 (rb_session_id b) →
  mesh_mgmt_replay_bind_v1 (Some g) (Some b) = (MESH_MGMT_REPLAY_OK, Some g') →
  replay_run (mk_rstate g' [] [] t) s →
  rg_generation g + 1 + Z.of_nat (length (st_accepted s)) < 2 ^ 64 →
  p ∈ st_accepted s → header_typed h → mh_message_id h = rp_message_id p →
  st_clock s <= now < rp_cache_expires_at_ms p →
  (mesh_mgmt_replay_prepare_v1 (Some (st_gate s)) (Some h) now (Some p0)).1 ≠ MESH_MGMT_REPLAY_OK.
Proof.
  intros Hok Hk Hs Hb Hr Hg Hin Hh Hid Hnow.
  assert (Hi : replay_inv (rg_generation g + 1) s).
  { eapply replay_run_inv; [exact Hr|done|]. eapply bind_inv; try done. lia. }
  destruct (ri_gate _ _ Hi) as (l' & Hok' & _ & Hacc). rewrite Forall_forall in Hacc.
  destruct (Hacc p Hin ltac:(lia)) as (i & e & He & Ho & Hm & Hx).
  rewrite prepare_OK_iff by done. intros Had. pose proof (ad_new _ _ _ _ Had) as Hnew.
  eapply Forall_lookup_1 in Hnew; [|exact He]. revert Hnew. unfold blocks, reusable.
  rewrite Ho, Hx, Hm, Hid, bool_decide_eq_true_2 by done.
  rewrite (proj2 (Z.leb_gt _ _)) by lia. done.
Qed.

(** A checkpoint loses no protection: exporting a gate whose cached ids are
    distinct and importing the snapshot into a freshly bound gate succeeds, and
    from then on both gates give every message the same verdict. *)
Theorem replay_checkpoint_equivalent (g g' : mesh_mgmt_replay_gate)
    (l l' buf : list mesh_mgmt_replay_entry) (s0 : mesh_mgmt_replay_snapshot) (now : Z) :
  exportable g l → fresh_gate g' l' → rg_config g' = rg_config g → rg_binding g' = rg_binding g →
  length buf = length l →
  ∃ buf' snap g2,
    mesh_mgmt_replay_export_v1 (Some g) (Some buf) (Z.of_nat (length buf)) (Some s0) =
      (MESH_MGMT_REPLAY_OK, Some buf', Some snap) ∧
    mesh_mgmt_replay_import_v1 (Some g') (Some snap) (Some buf') now =
      (MESH_MGMT_REPLAY_OK, Some g2) ∧
    ∀ h now' p0, header_typed h → now <= now' →
      (mesh_mgmt_replay_prepare_v1 (Some g) (Some h) now' (Some p0)).1 = MESH_MGMT_REPLAY_OK ↔
      (mesh_mgmt_replay_prepare_v1 (Some g2) (Some h) now' (Some p0)).1 = MESH_MGMT_REPLAY_OK.
Proof.
  intros Hex Hfr Hcfg Hbd Hbuf. do 3 eexists. split; [by apply export_snapshot, Hbuf; apply Hex|].
  split; [by eapply import_restores|]. intros h now' p0. by apply restored_verdicts.
Qed.

(** ** Concrete gates *)

Definition w_binding : mesh_mgmt_replay_binding := mk_binding (1 :: zeros 31) 4 5 (6 :: zeros 15).
Definition w_cfg : mesh_mgmt_replay_config := mk_replay_config 3 1000.
Definition w_msg (id sequence expires : Z) : mesh_mgmt_header :=
  mk_header (zeros 32) (1 :: zeros 31) (zeros 32) (zeros 32) 4 5 (6 :: zeros 15) sequence
    (id :: zeros 15) 0 expires 0 (zeros 32) 0.
Definition w_gate0 : mesh_mgmt_replay_gate :=
  deref zero_gate (mesh_mgmt_replay_init_v1 true (Some zero_gate) (Some w_cfg)).2.
Definition w_gate : mesh_mgmt_replay_gate :=
  deref zero_gate (mesh_mgmt_replay_bind_v1 (Some w_gate0) (Some w_binding)).2.
Definition w_prepare (g : mesh_mgmt_replay_gate) (h : mesh_mgmt_header) (now : Z) :
    mesh_mgmt_replay_preparation :=
  deref zero_preparation
    (mesh_mgmt_replay_prepare_v1 (Some g) (Some h) now (Some zero_preparation)).2.
Definition w_commit (g : mesh_mgmt_replay_gate) (p : mesh_mgmt_replay_preparation) :
    mesh_mgmt_replay_gate := deref zero_gate (mesh_mgmt_replay_commit_v1 (Some g) (Some p)).2.
Definition w_accept (g : mesh_mgmt_replay_gate) (h : mesh_mgmt_header) (now : Z) :
    mesh_mgmt_replay_gate := w_commit g (w_prepare g h now).

(** Importing a checkpoint does not invalidate the preparations made before it:
    the gate is bound twice (generation 2), a preparation is made, and a snapshot
    of generation 1 is imported, which sets the generation to 2 again.  The old
    preparation then commits and overwrites the live cache entry of message 9,
    which is accepted a second time. *)
Theorem replay_import_keeps_stale_preparation :
  let rebound := deref zero_gate (mesh_mgmt_replay_bind_v1 (Some w_gate) (Some w_binding)).2 in
  let stale := w_prepare rebound (w_msg 7 20 900) 10 in
  let snap := mk_replay_snapshot w_binding 15 1 1 1 1 in
  let imported := deref zero_gate (mesh_mgmt_replay_import_v1 (Some rebound) (Some snap)
                    (Some [mk_replay_entry (9 :: zeros 15) 900 1]) 10).2 in
  (mesh_mgmt_replay_import_v1 (Some rebound) (Some snap)
     (Some [mk_replay_entry (9 :: zeros 15) 900 1]) 10).1 = MESH_MGMT_REPLAY_OK ∧
  (mesh_mgmt_replay_prepare_v1 (Some imported) (Some (w_msg 9 30 900)) 10
     (Some zero_preparation)).1 = MESH_MGMT_REPLAY_REPLAYED ∧
  (mesh_mgmt_replay_commit_v1 (Some imported) (Some stale)).1 = MESH_MGMT_REPLAY_OK ∧
  (mesh_mgmt_replay_prepare_v1 (Some (w_commit imported stale)) (Some (w_msg 9 30 900)) 10
     (Some zero_preparation)).1 = MESH_MGMT_REPLAY_OK.
Proof. vm_compute. by repeat split. Qed.

(** A message id that is used again after its entry expired is cached twice (the
    expired slot keeps it), and the checkpoint of that gate is refused. *)
Theorem replay_checkpoint_refused :
  let g := w_accept (w_accept (w_accept w_gate (w_msg 1 1 100) 10) (w_msg 2 2 100) 10)
             (w_msg 2 3 900) 200 in
  let q := mesh_mgmt_replay_export_v1 (Some g) (Some (replicate 3 zero_replay_entry)) 3
             (Some zero_replay_snapshot) in
  q.1.1 = MESH_MGMT_REPLAY_OK ∧
  (mesh_mgmt_replay_import_v1 (Some w_gate) q.2 q.1.2 200).1 = MESH_MGMT_REPLAY_INVALID_SCHEMA.
Proof. vm_compute. by split. Qed.

(** ** Witnesses *)

Lemma w_gate0_ok : gate_ok w_gate0 (replicate 3 zero_replay_entry).
Proof.
  split; [reflexivity|reflexivity|split; vm_compute; done|split; vm_compute; done|evaluate|
    split; evaluate|evaluate].
Qed.

Lemma w_msg_typed id sequence expires : u8 id → u64 sequence → u64 expires →
  header_typed (w_msg id sequence expires).
Proof.
  intros Hi Hs He. assert (Hz : bytes_ok 16 (id :: zeros 15)).
  { split; [done|]. constructor; [done|apply zeros_ok]. }
  split; cbn; split_and!; try done; evaluate.
Qed.

(** Message 1 is accepted with number 5, then message 2 with number 8. *)
Definition w_p1 : mesh_mgmt_replay_preparation := w_prepare w_gate (w_msg 1 5 900) 10.
Definition w_g1 : mesh_mgmt_replay_gate := w_commit w_gate w_p1.
Definition w_p2 : mesh_mgmt_replay_preparation := w_prepare w_g1 (w_msg 2 8 900) 20.
Definition w_run : replay_state := mk_rstate (w_commit w_g1 w_p2) [w_p2; w_p1] [w_p2; w_p1] 20.

Lemma w_run_reachable : replay_run (mk_rstate w_gate [] [] 0) w_run.
Proof.
  eapply rrun_step; [eapply rrun_step; [eapply rrun_step; [eapply rrun_step; [apply rrun_refl|]|]|]|].
  - apply (rstep_prepare _ _ _ _ (w_msg 1 5 900) 10 zero_preparation w_p1);
      [apply w_msg_typed; evaluate|lia|vm_compute; reflexivity].
  - apply (rstep_commit _ _ _ _ w_p1 w_g1); [by left|vm_compute; reflexivity].
  - apply (rstep_prepare _ _ _ _ (w_msg 2 8 900) 20 zero_preparation w_p2);
      [apply w_msg_typed; evaluate|lia|vm_compute; reflexivity].
  - apply (rstep_commit _ _ _ _ w_p2); [by left|vm_compute; reflexivity].
Qed.


(** Message 1 again, under a fresh sequence number. *)
Lemma replay_blocks_message_witness :
  (mesh_mgmt_replay_prepare_v1 (Some (st_gate w_run)) (Some (w_msg 1 50 2000)) 899
     (Some zero_preparation)).1 ≠ MESH_MGMT_REPLAY_OK.
Proof.
  apply (replay_blocks_message w_gate0 w_gate (replicate 3 zero_replay_entry) w_binding 0 899 w_run
    w_p1 zero_preparation (w_msg 1 50 2000));
    [apply w_gate0_ok|evaluate|evaluate|vm_compute; reflexivity|apply w_run_reachable|vm_compute; done|
     by right; left|apply w_msg_typed; evaluate|reflexivity|split; vm_compute; done].
Defined.

Lemma replay_checkpoint_equivalent_witness :
  ∃ buf' snap g2,
    mesh_mgmt_replay_export_v1 (Some (st_gate w_run)) (Some (replicate 3 zero_replay_entry)) 3
      (Some zero_replay_snapshot) = (MESH_MGMT_REPLAY_OK, Some buf', Some snap) ∧
    mesh_mgmt_replay_import_v1 (Some w_gate) (Some snap) (Some buf') 30 =
      (MESH_MGMT_REPLAY_OK, Some g2) ∧
    ∀ h now' p0, header_typed h → 30 <= now' →
      (mesh_mgmt_replay_prepare_v1 (Some (st_gate w_run)) (Some h) now' (Some p0)).1 =
        MESH_MGMT_REPLAY_OK ↔
      (mesh_mgmt_replay_prepare_v1 (Some g2) (Some h) now' (Some p0)).1 = MESH_MGMT_REPLAY_OK.
Proof.
  apply (replay_checkpoint_equivalent (st_gate w_run) w_gate
    (deref [] (rg_entries (st_gate w_run))) (replicate 3 zero_replay_entry)
    (replicate 3 zero_replay_entry) zero_replay_snapshot 30); [| |reflexivity|reflexivity|reflexivity].
  - split; [|reflexivity|split; vm_compute; done|by left| |].
    + split; [reflexivity|reflexivity|split; vm_compute; done|split; vm_compute; done|evaluate|
        split; evaluate|evaluate].
    + vm_compute. by repeat constructor.
    + evaluate.
  - split; [|reflexivity|].
    + split; [reflexivity|reflexivity|split; vm_compute; done|split; vm_compute; done|evaluate|
        split; evaluate|evaluate].
    + split; [reflexivity|]. split; [reflexivity|evaluate].
Defined.
