(* ===== verification/ControlPrimitives.v ===== *)
(** * Control messages: [mesh/src/mesh_control_primitives.c]

    The transport-neutral envelope of a control message, the specification of a
    function assignment, the permission check and the life cycle of an
    operation.  Enumerations that arrive in 16-bit fields are integers; a
    pointer is an [option]. *)

From S2P Require Import Prelude.

(** ** Data *)

Definition MESH_CONTROL_SCHEMA_V1 : Z := 1.
Definition MESH_CONTROL_ID_SIZE : nat := 16.
Definition MESH_CONTROL_DIGEST_SIZE : nat := 32.
Definition MESH_CONTROL_NODE_ID_SIZE : nat := 32.
Definition MESH_CONTROL_MAX_FRAME_SIZE_V1 : Z := 64 * 1024.
Definition MESH_CONTROL_OUTBOX_MAX_RETAINED_BYTES_V1 : Z := 64 * 1024 * 1024.

Inductive mesh_control_result : Type :=
  | MESH_CONTROL_OK
  | MESH_CONTROL_INVALID_ARG
  | MESH_CONTROL_INVALID_STATE
  | MESH_CONTROL_CONFLICT
  | MESH_CONTROL_RESOURCE_EXHAUSTED
  | MESH_CONTROL_CLOSED
  | MESH_CONTROL_EMPTY
  | MESH_CONTROL_UNAUTHORIZED
  | MESH_CONTROL_STALE_EPOCH
  | MESH_CONTROL_UNSUPPORTED
  | MESH_CONTROL_UNKNOWN_COMMIT
  | MESH_CONTROL_TIMEOUT
  | MESH_CONTROL_PROVIDER_UNAVAILABLE.

#[export] Instance mesh_control_result_eq_dec : EqDecision mesh_control_result.
Proof. solve_decision. Defined.

(** [result == MESH_CONTROL_OK] *)
Definition control_ok (result : mesh_control_result) : bool :=
  match result with MESH_CONTROL_OK => true | _ => false end.

(** [mesh_control_message_kind_v1_t] *)
Definition MESH_CONTROL_MESSAGE_HELLO : Z := 1.
Definition MESH_CONTROL_MESSAGE_INTENT : Z := 2.
Definition MESH_CONTROL_MESSAGE_OPERATION : Z := 4.
Definition MESH_CONTROL_MESSAGE_RECEIPT : Z := 6.

(** [mesh_control_resource_kind_v1_t] *)
Definition MESH_CONTROL_RESOURCE_NONE : Z := 0.
Definition MESH_CONTROL_RESOURCE_NODE : Z := 1.
Definition MESH_CONTROL_RESOURCE_NETWORK : Z := 2.
Definition MESH_CONTROL_RESOURCE_FUNCTION : Z := 3.
Definition MESH_CONTROL_RESOURCE_RELEASE : Z := 6.

(** [mesh_control_operation_state_v1_t] *)
Definition MESH_CONTROL_OPERATION_SUBMITTED : Z := 1.
Definition MESH_CONTROL_OPERATION_ACCEPTED : Z := 2.
Definition MESH_CONTROL_OPERATION_RUNNING : Z := 3.
Definition MESH_CONTROL_OPERATION_SUCCEEDED : Z := 4.
Definition MESH_CONTROL_OPERATION_FAILED : Z := 5.
Definition MESH_CONTROL_OPERATION_REJECTED : Z := 6.
Definition MESH_CONTROL_OPERATION_EXPIRED : Z := 7.
Definition MESH_CONTROL_OPERATION_INTERRUPTED : Z := 8.

(** [mesh_control_desired_action_v1_t] *)
Definition MESH_CONTROL_DESIRED_APPLY : Z := 1.
Definition MESH_CONTROL_DESIRED_DELETE : Z := 2.

(** [mesh_control_function_runtime_v1_t], [.._state_v1_t], [.._flags_v1_t] *)
Definition MESH_CONTROL_FUNCTION_BUILTIN : Z := 1.
Definition MESH_CONTROL_FUNCTION_WASM : Z := 2.
Definition MESH_CONTROL_FUNCTION_NATIVE : Z := 3.
Definition MESH_CONTROL_FUNCTION_STAGED : Z := 1.
Definition MESH_CONTROL_FUNCTION_RUNNING : Z := 2.
Definition MESH_CONTROL_FUNCTION_STOPPED : Z := 3.
Definition MESH_CONTROL_FUNCTION_FLAG_PRESTAGED : Z := Z.shiftl 1 0.
Definition MESH_CONTROL_FUNCTION_FLAG_OUT_OF_PROCESS : Z := Z.shiftl 1 1.

(** [mesh_control_permission_v1_t] *)
Definition MESH_CONTROL_PERMISSION_OBSERVE : Z := Z.shiftl 1 0.
Definition MESH_CONTROL_PERMISSION_MANAGE : Z := Z.shiftl 1 1.
Definition MESH_CONTROL_PERMISSION_RUN_BUILTIN : Z := Z.shiftl 1 2.
Definition MESH_CONTROL_PERMISSION_RUN_NATIVE : Z := Z.shiftl 1 3.
Definition MESH_CONTROL_PERMISSION_RUN_WASM : Z := Z.shiftl 1 4.
Definition MESH_CONTROL_PERMISSION_KNOWN_V1 : Z :=
  Z.lor (Z.lor (Z.lor (Z.lor MESH_CONTROL_PERMISSION_OBSERVE MESH_CONTROL_PERMISSION_MANAGE)
                 MESH_CONTROL_PERMISSION_RUN_BUILTIN)
          MESH_CONTROL_PERMISSION_RUN_NATIVE) MESH_CONTROL_PERMISSION_RUN_WASM.

Record mesh_control_envelope : Type := mk_control_envelope {
  ce_schema_version : Z;
  ce_kind : Z;
  ce_flags : Z;
  ce_message_id : bytes;
  ce_request_id : bytes;
  ce_mesh_id : bytes;
  ce_origin_principal : bytes;
  ce_origin_node_id : bytes;
  ce_session_id : bytes;
  ce_target_node_id : bytes;
  ce_resource_kind : Z;
  ce_reserved : Z;
  ce_resource_id : bytes;
  ce_epoch : Z;
  ce_sequence : Z;
  ce_issued_at_ms : Z;
  ce_expires_at_ms : Z;
  ce_principal_epoch : Z;
  ce_incarnation : Z;
  ce_certificate_serial : Z;
  ce_precondition_epoch : Z;
  ce_payload_digest : bytes;
  ce_payload_size : Z }.

Record mesh_control_function_limits : Type := mk_function_limits {
  fl_memory_bytes : Z;
  fl_cpu_time_ms : Z;
  fl_input_bytes : Z;
  fl_output_bytes : Z;
  fl_concurrency : Z;
  fl_host_calls : Z }.

Record mesh_control_function_spec : Type := mk_function_spec {
  fs_schema_version : Z;
  fs_runtime : Z;
  fs_desired_state : Z;
  fs_reserved : Z;
  fs_flags : Z;
  fs_function_id : bytes;
  fs_provider_id : bytes;
  fs_artifact_digest : bytes;
  fs_config_digest : bytes;
  fs_network_policy_digest : bytes;
  fs_generation : Z;
  fs_required_capabilities : Z;
  fs_limits : mesh_control_function_limits }.

Definition zero_function_spec : mesh_control_function_spec :=
  mk_function_spec 0 0 0 0 0 (zeros 32) (zeros 32) (zeros 32) (zeros 32) (zeros 32) 0 0
    (mk_function_limits 0 0 0 0 0 0).

(** ** Operations *)

(** The static [bytes_are_zero]; its callers pass arrays, never NULL. *)
Definition control_bytes_zero (b : bytes) : bool := or_bytes b =? 0.

Definition message_kind_valid (kind : Z) : bool :=
  (MESH_CONTROL_MESSAGE_HELLO <=? kind) && (kind <=? MESH_CONTROL_MESSAGE_RECEIPT).

Definition resource_kind_valid (kind : Z) : bool :=
  (MESH_CONTROL_RESOURCE_NODE <=? kind) && (kind <=? MESH_CONTROL_RESOURCE_RELEASE).

Definition operation_state_valid (state : Z) : bool :=
  (MESH_CONTROL_OPERATION_SUBMITTED <=? state) && (state <=? MESH_CONTROL_OPERATION_INTERRUPTED).

Definition mesh_control_envelope_validate_v1 (envelope : option mesh_control_envelope) :
    mesh_control_result :=
  match envelope with
  | None => MESH_CONTROL_INVALID_ARG
  | Some e =>
      if negb (ce_schema_version e =? MESH_CONTROL_SCHEMA_V1) ||
         negb (message_kind_valid (ce_kind e)) || negb (ce_reserved e =? 0) ||
         control_bytes_zero (ce_message_id e) || control_bytes_zero (ce_mesh_id e) ||
         control_bytes_zero (ce_origin_principal e) || (ce_sequence e =? 0) ||
         (ce_issued_at_ms e =? 0) || (ce_expires_at_ms e <=? ce_issued_at_ms e) ||
         (MESH_CONTROL_MAX_FRAME_SIZE_V1 <? ce_payload_size e)
      then MESH_CONTROL_INVALID_ARG
      else
        let is_hello := ce_kind e =? MESH_CONTROL_MESSAGE_HELLO in
        let requires_target := (ce_kind e =? MESH_CONTROL_MESSAGE_INTENT) ||
                               (ce_kind e =? MESH_CONTROL_MESSAGE_OPERATION) in
        if requires_target && control_bytes_zero (ce_target_node_id e)
        then MESH_CONTROL_INVALID_ARG
        else if is_hello &&
                (negb (ce_resource_kind e =? MESH_CONTROL_RESOURCE_NONE) ||
                 negb (control_bytes_zero (ce_resource_id e)) ||
                 negb (ce_precondition_epoch e =? 0))
        then MESH_CONTROL_INVALID_ARG
        else if negb is_hello &&
                (negb (resource_kind_valid (ce_resource_kind e)) ||
                 control_bytes_zero (ce_resource_id e) || (ce_epoch e =? 0))
        then MESH_CONTROL_INVALID_ARG
        else if negb (eqb (ce_payload_size e =? 0) (control_bytes_zero (ce_payload_digest e)))
        then MESH_CONTROL_INVALID_ARG
        else MESH_CONTROL_OK
  end.

Definition mesh_control_function_spec_validate_v1 (spec : option mesh_control_function_spec) :
    mesh_control_result :=
  let known_flags := Z.lor MESH_CONTROL_FUNCTION_FLAG_PRESTAGED
                           MESH_CONTROL_FUNCTION_FLAG_OUT_OF_PROCESS in
  match spec with
  | None => MESH_CONTROL_INVALID_ARG
  | Some s =>
      if negb (fs_schema_version s =? MESH_CONTROL_SCHEMA_V1) ||
         (fs_runtime s <? MESH_CONTROL_FUNCTION_BUILTIN) ||
         (MESH_CONTROL_FUNCTION_NATIVE <? fs_runtime s) ||
         (fs_desired_state s <? MESH_CONTROL_FUNCTION_STAGED) ||
         (MESH_CONTROL_FUNCTION_STOPPED <? fs_desired_state s) ||
         negb (fs_reserved s =? 0) ||
         negb (Z.land (fs_flags s) (wrap 32 (Z.lnot known_flags)) =? 0) ||
         control_bytes_zero (fs_function_id s) || control_bytes_zero (fs_provider_id s) ||
         control_bytes_zero (fs_config_digest s) ||
         control_bytes_zero (fs_network_policy_digest s) ||
         (fs_generation s =? 0) || (fl_memory_bytes (fs_limits s) =? 0) ||
         (fl_cpu_time_ms (fs_limits s) =? 0) || (fl_input_bytes (fs_limits s) =? 0) ||
         (fl_output_bytes (fs_limits s) =? 0) || (fl_concurrency (fs_limits s) =? 0) ||
         (fl_host_calls (fs_limits s) =? 0)
      then MESH_CONTROL_INVALID_ARG
      else if ((fs_runtime s =? MESH_CONTROL_FUNCTION_WASM) ||
               (fs_runtime s =? MESH_CONTROL_FUNCTION_NATIVE)) &&
              (control_bytes_zero (fs_artifact_digest s) ||
               (Z.land (fs_flags s) MESH_CONTROL_FUNCTION_FLAG_PRESTAGED =? 0))
      then MESH_CONTROL_INVALID_ARG
      else if (fs_runtime s =? MESH_CONTROL_FUNCTION_NATIVE) &&
              (Z.land (fs_flags s) MESH_CONTROL_FUNCTION_FLAG_OUT_OF_PROCESS =? 0)
      then MESH_CONTROL_INVALID_ARG
      else MESH_CONTROL_OK
  end.

(** Bits of [permissions] outside the known ones: [permissions & ~KNOWN]. *)
Definition unknown_permissions (permissions : Z) : Z :=
  Z.land permissions (wrap 64 (Z.lnot MESH_CONTROL_PERMISSION_KNOWN_V1)).

(** Result and the contents of [out_effective_permissions]. *)
Definition mesh_control_function_authorize_v1 (spec : option mesh_control_function_spec)
    (granted_permissions local_permissions : Z) (out_effective_permissions : option Z) :
    mesh_control_result * option Z :=
  match spec, out_effective_permissions with
  | Some s, Some _ =>
      if negb (control_ok (mesh_control_function_spec_validate_v1 spec)) ||
         negb (unknown_permissions granted_permissions =? 0) ||
         negb (unknown_permissions local_permissions =? 0)
      then (MESH_CONTROL_INVALID_ARG, out_effective_permissions)
      else
        let effective := Z.land granted_permissions local_permissions in
        let required :=
          if fs_desired_state s =? MESH_CONTROL_FUNCTION_RUNNING then
            if fs_runtime s =? MESH_CONTROL_FUNCTION_BUILTIN
            then Some (Z.lor MESH_CONTROL_PERMISSION_MANAGE MESH_CONTROL_PERMISSION_RUN_BUILTIN)
            else if fs_runtime s =? MESH_CONTROL_FUNCTION_NATIVE
            then Some (Z.lor MESH_CONTROL_PERMISSION_MANAGE MESH_CONTROL_PERMISSION_RUN_NATIVE)
            else if fs_runtime s =? MESH_CONTROL_FUNCTION_WASM
            then Some (Z.lor MESH_CONTROL_PERMISSION_MANAGE MESH_CONTROL_PERMISSION_RUN_WASM)
            else None
          else Some MESH_CONTROL_PERMISSION_MANAGE in
        match required with
        | None => (MESH_CONTROL_INVALID_ARG, Some 0)
        | Some required =>
            (if Z.land effective required =? required then MESH_CONTROL_OK
             else MESH_CONTROL_CONFLICT, Some effective)
        end
  | _, _ => (MESH_CONTROL_INVALID_ARG, out_effective_permissions)
  end.

Definition mesh_control_operation_state_is_terminal_v1 (state : Z) : bool :=
  (state =? MESH_CONTROL_OPERATION_SUCCEEDED) || (state =? MESH_CONTROL_OPERATION_FAILED) ||
  (state =? MESH_CONTROL_OPERATION_REJECTED) || (state =? MESH_CONTROL_OPERATION_EXPIRED) ||
  (state =? MESH_CONTROL_OPERATION_INTERRUPTED).

Definition mesh_control_operation_transition_allowed_v1 (from to : Z) : bool :=
  if negb (operation_state_valid from) || negb (operation_state_valid to) then false
  else if from =? to then true
  else if mesh_control_operation_state_is_terminal_v1 from then false
  else if from =? MESH_CONTROL_OPERATION_SUBMITTED then
    (to =? MESH_CONTROL_OPERATION_ACCEPTED) || (to =? MESH_CONTROL_OPERATION_REJECTED) ||
    (to =? MESH_CONTROL_OPERATION_EXPIRED)
  else if from =? MESH_CONTROL_OPERATION_ACCEPTED then
    (to =? MESH_CONTROL_OPERATION_RUNNING) || (to =? MESH_CONTROL_OPERATION_SUCCEEDED) ||
    (to =? MESH_CONTROL_OPERATION_FAILED) || (to =? MESH_CONTROL_OPERATION_REJECTED) ||
    (to =? MESH_CONTROL_OPERATION_EXPIRED) || (to =? MESH_CONTROL_OPERATION_INTERRUPTED)
  else if from =? MESH_CONTROL_OPERATION_RUNNING then
    mesh_control_operation_state_is_terminal_v1 to
  else false.
