(* ===== verification/ControlState.v ===== *)
(** * Desired and observed state: [mesh/src/mesh_control_state.c]

    The single-owner table of managed resources, the operations that change
    them, and a ring of recent events.  The three arrays are allocated with the
    configured capacities and never resized, so a loop up to a capacity is a
    loop over the list.  A document pointer is an optional byte list beside its
    separate size; [alloc_ok] is the outcome of an allocation. *)

From S2P Require Import Prelude ControlPrimitives.

(** ** Data *)

Definition MESH_CONTROL_STATE_MAX_RESOURCES_V1 : Z := 4096.
Definition MESH_CONTROL_STATE_MAX_OPERATIONS_V1 : Z := 4096.
Definition MESH_CONTROL_STATE_MAX_EVENTS_V1 : Z := 8192.
Definition MESH_CONTROL_STATE_MAX_DESIRED_DOCUMENT_SIZE_V1 : Z := MESH_CONTROL_MAX_FRAME_SIZE_V1.
Definition MESH_CONTROL_STATE_MAX_RETAINED_DOCUMENT_BYTES_V1 : Z :=
  MESH_CONTROL_OUTBOX_MAX_RETAINED_BYTES_V1.

(** [mesh_control_presence_v1_t] *)
Definition MESH_CONTROL_PRESENCE_ABSENT : Z := 1.
Definition MESH_CONTROL_PRESENCE_PRESENT : Z := 2.

Record mesh_control_state_config : Type := mk_state_config {
  sc_resource_capacity : Z;
  sc_operation_capacity : Z;
  sc_event_capacity : Z;
  sc_terminal_retention_ms : Z;
  sc_desired_document_max_bytes : Z;
  sc_desired_document_retained_bytes : Z }.

Record mesh_control_state_usage : Type := mk_state_usage {
  su_resource_count : Z;
  su_operation_count : Z;
  su_event_count : Z;
  su_retained_document_bytes : Z;
  su_retained_document_capacity : Z }.

Record mesh_control_resource_status : Type := mk_resource_status {
  rst_resource_kind : Z;
  rst_resource_id : bytes;
  rst_desired_epoch : Z;
  rst_observed_epoch : Z;
  rst_desired_presence : Z;
  rst_observed_presence : Z;
  rst_desired_digest : bytes;
  rst_observed_digest : bytes }.

Record mesh_control_operation : Type := mk_operation {
  co_operation_id : bytes;
  co_request_id : bytes;
  co_message_id : bytes;
  co_resource_kind : Z;
  co_action : Z;
  co_resource_id : bytes;
  co_desired_digest : bytes;
  co_desired_epoch : Z;
  co_created_at_ms : Z;
  co_updated_at_ms : Z;
  co_state : Z }.

Record mesh_control_event : Type := mk_event {
  ev_cursor : Z;
  ev_operation_id : bytes;
  ev_resource_kind : Z;
  ev_operation_state : Z;
  ev_resource_id : bytes;
  ev_desired_epoch : Z;
  ev_recorded_at_ms : Z }.

Record mesh_control_snapshot_page_info : Type := mk_page_info {
  pi_generation : Z;
  pi_event_cursor : Z;
  pi_resource_total : Z;
  pi_operation_total : Z;
  pi_resource_offset : Z;
  pi_resource_count : Z;
  pi_operation_offset : Z;
  pi_operation_count : Z }.

Record mesh_control_state_resource_record : Type := mk_resource_record {
  rr_status : mesh_control_resource_status;
  rr_document : option bytes;
  rr_document_size : Z }.

Record mesh_control_state_operation_record : Type := mk_operation_record {
  or_operation : mesh_control_operation;
  or_terminal_expires_at_ms : Z }.

Record mesh_control_state_checkpoint_info : Type := mk_checkpoint_info {
  ck_snapshot_generation : Z;
  ck_next_event_cursor : Z;
  ck_resource_count : Z;
  ck_operation_count : Z;
  ck_event_count : Z }.

Record mesh_control_resource_slot : Type := mk_resource_slot {
  rsl_occupied : bool;
  rsl_status : mesh_control_resource_status;
  rsl_desired_document : option bytes;
  rsl_desired_document_size : Z }.

Record mesh_control_operation_slot : Type := mk_operation_slot {
  osl_occupied : bool;
  osl_terminal_expires_at_ms : Z;
  osl_operation : mesh_control_operation }.

Record mesh_control_state_impl : Type := mk_impl {
  im_config : mesh_control_state_config;
  im_resources : list mesh_control_resource_slot;
  im_operations : list mesh_control_operation_slot;
  im_events : list mesh_control_event;
  im_event_count : Z;
  im_event_head : Z;
  im_next_cursor : Z;
  im_snapshot_generation : Z;
  im_retained_document_bytes : Z }.

Record mesh_control_state : Type := mk_control_state {
  cst_impl : option mesh_control_state_impl }.

Definition zero_resource_status : mesh_control_resource_status :=
  mk_resource_status 0 (zeros 32) 0 0 0 0 (zeros 32) (zeros 32).
Definition zero_operation : mesh_control_operation :=
  mk_operation (zeros 16) (zeros 16) (zeros 16) 0 0 (zeros 32) (zeros 32) 0 0 0 0.
Definition zero_event : mesh_control_event := mk_event 0 (zeros 16) 0 0 (zeros 32) 0 0.
Definition zero_resource_slot : mesh_control_resource_slot :=
  mk_resource_slot false zero_resource_status None 0.
Definition zero_operation_slot : mesh_control_operation_slot :=
  mk_operation_slot false 0 zero_operation.
Definition zero_page_info : mesh_control_snapshot_page_info := mk_page_info 0 0 0 0 0 0 0 0.
Definition zero_checkpoint_info : mesh_control_state_checkpoint_info :=
  mk_checkpoint_info 0 0 0 0 0.

(** Field assignments. *)
Definition set_im_resources l i := mk_impl (im_config i) l (im_operations i) (im_events i)
  (im_event_count i) (im_event_head i) (im_next_cursor i) (im_snapshot_generation i)
  (im_retained_document_bytes i).
Definition set_im_operations l i := mk_impl (im_config i) (im_resources i) l (im_events i)
  (im_event_count i) (im_event_head i) (im_next_cursor i) (im_snapshot_generation i)
  (im_retained_document_bytes i).
Definition set_im_generation g i := mk_impl (im_config i) (im_resources i) (im_operations i)
  (im_events i) (im_event_count i) (im_event_head i) (im_next_cursor i) g
  (im_retained_document_bytes i).
Definition set_im_retained n i := mk_impl (im_config i) (im_resources i) (im_operations i)
  (im_events i) (im_event_count i) (im_event_head i) (im_next_cursor i)
  (im_snapshot_generation i) n.
Definition set_im_ring events count head cursor i := mk_impl (im_config i) (im_resources i)
  (im_operations i) events count head cursor (im_snapshot_generation i)
  (im_retained_document_bytes i).
(** [++impl->snapshot_generation] *)
Definition next_generation i := set_im_generation (wrap 64 (im_snapshot_generation i + 1)) i.

(** ** Helpers of the source *)

Definition presence_valid (presence : Z) : bool :=
  (presence =? MESH_CONTROL_PRESENCE_ABSENT) || (presence =? MESH_CONTROL_PRESENCE_PRESENT).

Definition saturating_add (left_ right_ : Z) : Z :=
  if UINT64_MAX - left_ <? right_ then UINT64_MAX else left_ + right_.

Definition mutation_with_event_available (impl : mesh_control_state_impl) : bool :=
  negb (im_snapshot_generation impl =? UINT64_MAX) && negb (im_next_cursor impl =? UINT64_MAX).

Definition resource_is (resource_kind : Z) (resource_id : bytes) (slot : mesh_control_resource_slot) :
    bool :=
  rsl_occupied slot && (rst_resource_kind (rsl_status slot) =? resource_kind) &&
  memeq MESH_CONTROL_DIGEST_SIZE (rst_resource_id (rsl_status slot)) resource_id.

Definition find_resource (impl : mesh_control_state_impl) (resource_kind : Z) (resource_id : bytes) :
    option (nat * mesh_control_resource_slot) :=
  find_slot (resource_is resource_kind resource_id) (im_resources impl).

Definition find_operation (impl : mesh_control_state_impl) (operation_id : bytes) :
    option (nat * mesh_control_operation_slot) :=
  find_slot (λ slot, osl_occupied slot &&
               memeq MESH_CONTROL_ID_SIZE (co_operation_id (osl_operation slot)) operation_id)
    (im_operations impl).

Definition find_request (impl : mesh_control_state_impl) (request_id : bytes) :
    option (nat * mesh_control_operation_slot) :=
  find_slot (λ slot, osl_occupied slot &&
               memeq MESH_CONTROL_ID_SIZE (co_request_id (osl_operation slot)) request_id)
    (im_operations impl).

Definition append_event (impl : mesh_control_state_impl) (operation : mesh_control_operation)
    (now_ms : Z) : mesh_control_state_impl :=
  let capacity := sc_event_capacity (im_config impl) in
  let '(index, count, head) :=
    if im_event_count impl <? capacity
    then ((im_event_head impl + im_event_count impl) mod capacity, im_event_count impl + 1,
          im_event_head impl)
    else (im_event_head impl, im_event_count impl, (im_event_head impl + 1) mod capacity) in
  let event := mk_event (im_next_cursor impl) (co_operation_id operation)
                 (co_resource_kind operation) (co_state operation) (co_resource_id operation)
                 (co_desired_epoch operation) now_ms in
  set_im_ring (<[Z.to_nat index := event]> (im_events impl)) count head
    (wrap 64 (im_next_cursor impl + 1)) impl.

Definition operation_binding_equal (operation : mesh_control_operation)
    (envelope : mesh_control_envelope) (action : Z) : bool :=
  (co_resource_kind operation =? ce_resource_kind envelope) && (co_action operation =? action) &&
  (co_desired_epoch operation =? ce_epoch envelope) &&
  memeq MESH_CONTROL_DIGEST_SIZE (co_resource_id operation) (ce_resource_id envelope) &&
  memeq MESH_CONTROL_DIGEST_SIZE (co_desired_digest operation) (ce_payload_digest envelope).

(** ** Life cycle *)

(** [alloc_ok] is false when one of the four allocations fails. *)
Definition mesh_control_state_init_v1 (alloc_ok : bool) (state : option mesh_control_state)
    (config : option mesh_control_state_config) :
    mesh_control_result * option mesh_control_state :=
  match state, config with
  | Some s, Some c =>
      if non_null (cst_impl s) || (sc_resource_capacity c =? 0) ||
         (MESH_CONTROL_STATE_MAX_RESOURCES_V1 <? sc_resource_capacity c) ||
         (sc_operation_capacity c =? 0) ||
         (MESH_CONTROL_STATE_MAX_OPERATIONS_V1 <? sc_operation_capacity c) ||
         (sc_event_capacity c =? 0) ||
         (MESH_CONTROL_STATE_MAX_EVENTS_V1 <? sc_event_capacity c) ||
         (sc_terminal_retention_ms c =? 0) || (sc_desired_document_max_bytes c =? 0) ||
         (MESH_CONTROL_STATE_MAX_DESIRED_DOCUMENT_SIZE_V1 <? sc_desired_document_max_bytes c) ||
         (sc_desired_document_retained_bytes c <? sc_desired_document_max_bytes c) ||
         (MESH_CONTROL_STATE_MAX_RETAINED_DOCUMENT_BYTES_V1 <? sc_desired_document_retained_bytes c)
      then (MESH_CONTROL_INVALID_ARG, state)
      else if negb alloc_ok then (MESH_CONTROL_RESOURCE_EXHAUSTED, state)
      else (MESH_CONTROL_OK,
            Some (mk_control_state (Some (mk_impl c
              (replicate (Z.to_nat (sc_resource_capacity c)) zero_resource_slot)
              (replicate (Z.to_nat (sc_operation_capacity c)) zero_operation_slot)
              (replicate (Z.to_nat (sc_event_capacity c)) zero_event) 0 0 1 1 0))))
  | _, _ => (MESH_CONTROL_INVALID_ARG, state)
  end.

Definition mesh_control_state_destroy_v1 (state : option mesh_control_state) :
    option mesh_control_state := assign state (mk_control_state None).

(** The slots [mesh_control_state_sweep_v1] clears. *)
Definition sweepable (now_ms : Z) (slot : mesh_control_operation_slot) : bool :=
  osl_occupied slot && mesh_control_operation_state_is_terminal_v1 (co_state (osl_operation slot)) &&
  (osl_terminal_expires_at_ms slot <=? now_ms).

Definition sweep_impl (impl : mesh_control_state_impl) (now_ms : Z) : Z * mesh_control_state_impl :=
  if im_snapshot_generation impl =? UINT64_MAX then (0, impl)
  else
    let removed := count_slots (sweepable now_ms) (im_operations impl) in
    let impl := set_im_operations
      ((λ slot, if sweepable now_ms slot then zero_operation_slot else slot)
         <$> im_operations impl) impl in
    (removed, if removed =? 0 then impl else next_generation impl).

Definition mesh_control_state_sweep_v1 (state : option mesh_control_state) (now_ms : Z) :
    Z * option mesh_control_state :=
  match state with
  | Some s =>
      match cst_impl s with
      | Some impl =>
          let '(removed, impl) := sweep_impl impl now_ms in
          (removed, Some (mk_control_state (Some impl)))
      | None => (0, state)
      end
  | None => (0, state)
  end.

(** ** Submission *)

Definition mesh_control_state_validate_document_v1 (state : option mesh_control_state)
    (envelope : option mesh_control_envelope) (action : Z) (document : option bytes)
    (document_size now_ms : Z) : mesh_control_result :=
  match state, envelope with
  | Some s, Some e =>
      match cst_impl s with
      | None => MESH_CONTROL_INVALID_ARG
      | Some impl =>
          if (negb (action =? MESH_CONTROL_DESIRED_APPLY) &&
              negb (action =? MESH_CONTROL_DESIRED_DELETE)) ||
             (negb (document_size =? 0) && negb (non_null document)) ||
             negb (control_ok (mesh_control_envelope_validate_v1 envelope)) ||
             control_bytes_zero (ce_request_id e) || (now_ms <? ce_issued_at_ms e) ||
             (ce_expires_at_ms e <=? now_ms)
          then MESH_CONTROL_INVALID_ARG
          else
            match find_request impl (ce_request_id e) with
            | Some (_, operation) =>
                if operation_binding_equal (osl_operation operation) e action
                then MESH_CONTROL_OK else MESH_CONTROL_CONFLICT
            | None =>
                let resource := find_resource impl (ce_resource_kind e) (ce_resource_id e) in
                if sc_desired_document_max_bytes (im_config impl) <? document_size
                then MESH_CONTROL_RESOURCE_EXHAUSTED
                else
                  let previous_document_size :=
                    match resource with Some (_, r) => rsl_desired_document_size r | None => 0 end in
                  let preserve_document :=
                    (action =? MESH_CONTROL_DESIRED_DELETE) && (document_size =? 0) &&
                    non_null resource in
                  if negb preserve_document &&
                     (wrap 64 (sc_desired_document_retained_bytes (im_config impl) - document_size) <?
                      wrap 64 (im_retained_document_bytes impl - previous_document_size))
                  then MESH_CONTROL_RESOURCE_EXHAUSTED
                  else
                    let free_resource := find_slot (λ r, negb (rsl_occupied r)) (im_resources impl) in
                    let free_operation :=
                      find_slot (λ o, negb (osl_occupied o)) (im_operations impl) in
                    if (negb (non_null resource) && negb (non_null free_resource)) ||
                       negb (non_null free_operation)
                    then MESH_CONTROL_RESOURCE_EXHAUSTED
                    else if negb (mutation_with_event_available impl)
                    then MESH_CONTROL_INVALID_STATE
                    else
                      match resource with
                      | Some (_, r) =>
                          if negb (ce_precondition_epoch e =? rst_desired_epoch (rsl_status r)) ||
                             (ce_epoch e <=? rst_desired_epoch (rsl_status r))
                          then MESH_CONTROL_CONFLICT else MESH_CONTROL_OK
                      | None =>
                          if negb (ce_precondition_epoch e =? 0)
                          then MESH_CONTROL_CONFLICT else MESH_CONTROL_OK
                      end
            end
      end
  | _, _ => MESH_CONTROL_INVALID_ARG
  end.

(** The slot a submission writes for a resource without one. *)
Definition fresh_resource_slot (envelope : mesh_control_envelope) : mesh_control_resource_slot :=
  mk_resource_slot true
    (mk_resource_status (ce_resource_kind envelope) (ce_resource_id envelope) 0 0 0
       MESH_CONTROL_PRESENCE_ABSENT (zeros 32) (zeros 32)) None 0.

(** The desired fields and the document of [resource] after a submission. *)
Definition submit_resource (resource : mesh_control_resource_slot) (envelope : mesh_control_envelope)
    (action : Z) (preserve_document : bool) (document_copy : option bytes) (document_size : Z) :
    mesh_control_resource_slot :=
  let st := rsl_status resource in
  mk_resource_slot (rsl_occupied resource)
    (mk_resource_status (rst_resource_kind st) (rst_resource_id st) (ce_epoch envelope)
       (rst_observed_epoch st)
       (if action =? MESH_CONTROL_DESIRED_APPLY then MESH_CONTROL_PRESENCE_PRESENT
        else MESH_CONTROL_PRESENCE_ABSENT)
       (rst_observed_presence st)
       (if action =? MESH_CONTROL_DESIRED_APPLY then ce_payload_digest envelope else zeros 32)
       (rst_observed_digest st))
    (if preserve_document then rsl_desired_document resource else document_copy)
    (if preserve_document then rsl_desired_document_size resource else document_size).

(** The operation a submission records. *)
Definition submit_operation (envelope : mesh_control_envelope) (action now_ms : Z) :
    mesh_control_operation :=
  mk_operation (ce_message_id envelope) (ce_request_id envelope) (ce_message_id envelope)
    (ce_resource_kind envelope) action (ce_resource_id envelope) (ce_payload_digest envelope)
    (ce_epoch envelope) now_ms now_ms MESH_CONTROL_OPERATION_ACCEPTED.

(** The writes of a submission: [ri] and [oi] are the slots of the resource and of the operation. *)
Definition submit_commit (impl : mesh_control_state_impl) (ri oi : nat)
    (resource : mesh_control_resource_slot) (envelope : mesh_control_envelope) (action : Z)
    (preserve_document : bool) (document_copy : option bytes)
    (previous_document_size document_size now_ms : Z) : mesh_control_state_impl :=
  let operation := submit_operation envelope action now_ms in
  impl
  |> set_im_resources (<[ri := submit_resource resource envelope action preserve_document
                                 document_copy document_size]> (im_resources impl))
  |> set_im_retained
       (if preserve_document then im_retained_document_bytes impl
        else wrap 64 (im_retained_document_bytes impl - previous_document_size + document_size))
  |> set_im_operations (<[oi := mk_operation_slot true 0 operation]> (im_operations impl))
  |> (λ impl, append_event impl operation now_ms)
  |> next_generation.

Definition mesh_control_state_submit_document_v1 (alloc_ok : bool)
    (state : option mesh_control_state) (envelope : option mesh_control_envelope) (action : Z)
    (document : option bytes) (document_size now_ms : Z)
    (out_operation : option mesh_control_operation) :
    mesh_control_result * option mesh_control_state * option mesh_control_operation :=
  match state, envelope, out_operation with
  | Some s, Some e, Some _ =>
      match cst_impl s with
      | None => (MESH_CONTROL_INVALID_ARG, state, out_operation)
      | Some impl =>
          if negb (ce_kind e =? MESH_CONTROL_MESSAGE_INTENT) ||
             (negb (action =? MESH_CONTROL_DESIRED_APPLY) &&
              negb (action =? MESH_CONTROL_DESIRED_DELETE)) ||
             (negb (document_size =? 0) && negb (non_null document)) ||
             negb (control_ok (mesh_control_envelope_validate_v1 envelope)) ||
             control_bytes_zero (ce_request_id e) || (now_ms <? ce_issued_at_ms e) ||
             (ce_expires_at_ms e <=? now_ms)
          then (MESH_CONTROL_INVALID_ARG, state, out_operation)
          else
            let out_operation := Some zero_operation in
            let impl := snd (sweep_impl impl now_ms) in
            let state := Some (mk_control_state (Some impl)) in
            match find_request impl (ce_request_id e) with
            | Some (_, operation) =>
                if negb (operation_binding_equal (osl_operation operation) e action)
                then (MESH_CONTROL_CONFLICT, state, out_operation)
                else (MESH_CONTROL_OK, state, Some (osl_operation operation))
            | None =>
                let resource := find_resource impl (ce_resource_kind e) (ce_resource_id e) in
                if sc_desired_document_max_bytes (im_config impl) <? document_size
                then (MESH_CONTROL_RESOURCE_EXHAUSTED, state, out_operation)
                else
                  let previous_document_size :=
                    match resource with Some (_, r) => rsl_desired_document_size r | None => 0 end in
                  let preserve_document :=
                    (action =? MESH_CONTROL_DESIRED_DELETE) && (document_size =? 0) &&
                    non_null resource in
                  if negb preserve_document &&
                     (wrap 64 (sc_desired_document_retained_bytes (im_config impl) - document_size) <?
                      wrap 64 (im_retained_document_bytes impl - previous_document_size))
                  then (MESH_CONTROL_RESOURCE_EXHAUSTED, state, out_operation)
                  else
                    let free_resource := find_slot (λ r, negb (rsl_occupied r)) (im_resources impl) in
                    let free_operation :=
                      find_slot (λ o, negb (osl_occupied o)) (im_operations impl) in
                    if (negb (non_null resource) && negb (non_null free_resource)) ||
                       negb (non_null free_operation)
                    then (MESH_CONTROL_RESOURCE_EXHAUSTED, state, out_operation)
                    else if negb (mutation_with_event_available impl)
                    then (MESH_CONTROL_INVALID_STATE, state, out_operation)
                    else if match resource with
                            | Some (_, r) =>
                                negb (ce_precondition_epoch e =? rst_desired_epoch (rsl_status r)) ||
                                (ce_epoch e <=? rst_desired_epoch (rsl_status r))
                            | None => negb (ce_precondition_epoch e =? 0)
                            end
                    then (MESH_CONTROL_CONFLICT, state, out_operation)
                    else if negb (document_size =? 0) && negb alloc_ok
                    then (MESH_CONTROL_RESOURCE_EXHAUSTED, state, out_operation)
                    else
                      let document_copy :=
                        if document_size =? 0 then None
                        else Some (take (Z.to_nat document_size) (deref [] document)) in
                      let '(ri, slot) :=
                        match resource with
                        | Some (ri, r) => (ri, r)
                        | None => (fst (deref (0%nat, zero_resource_slot) free_resource),
                                   fresh_resource_slot e)
                        end in
                      let oi := fst (deref (0%nat, zero_operation_slot) free_operation) in
                      (MESH_CONTROL_OK,
                       Some (mk_control_state (Some
                         (submit_commit impl ri oi slot e action preserve_document document_copy
                            previous_document_size document_size now_ms))),
                       Some (submit_operation e action now_ms))
            end
      end
  | _, _, _ => (MESH_CONTROL_INVALID_ARG, state, out_operation)
  end.

Definition mesh_control_state_submit_v1 (state : option mesh_control_state)
    (envelope : option mesh_control_envelope) (action now_ms : Z)
    (out_operation : option mesh_control_operation) :
    mesh_control_result * option mesh_control_state * option mesh_control_operation :=
  mesh_control_state_submit_document_v1 true state envelope action None 0 now_ms out_operation.

(** ** Progress *)

(** An operation moved to [next_state]. *)
Definition advance_operation (slot : mesh_control_operation_slot) (next_state now_ms expires : Z) :
    mesh_control_operation_slot :=
  let o := osl_operation slot in
  mk_operation_slot (osl_occupied slot) expires
    (mk_operation (co_operation_id o) (co_request_id o) (co_message_id o) (co_resource_kind o)
       (co_action o) (co_resource_id o) (co_desired_digest o) (co_desired_epoch o)
       (co_created_at_ms o) now_ms next_state).

Definition mesh_control_state_transition_operation_v1 (state : option mesh_control_state)
    (operation_id : option bytes) (next_state now_ms : Z) :
    mesh_control_result * option mesh_control_state :=
  match state, operation_id with
  | Some s, Some id =>
      match cst_impl s with
      | None => (MESH_CONTROL_INVALID_ARG, state)
      | Some impl =>
          if control_bytes_zero (take MESH_CONTROL_ID_SIZE id)
          then (MESH_CONTROL_INVALID_ARG, state)
          else
            match find_operation impl id with
            | None => (MESH_CONTROL_EMPTY, state)
            | Some (oi, slot) =>
                if negb (mesh_control_operation_transition_allowed_v1
                           (co_state (osl_operation slot)) next_state)
                then (MESH_CONTROL_INVALID_STATE, state)
                else if co_state (osl_operation slot) =? next_state then (MESH_CONTROL_OK, state)
                else if negb (mutation_with_event_available impl)
                then (MESH_CONTROL_INVALID_STATE, state)
                else
                  let expires :=
                    if mesh_control_operation_state_is_terminal_v1 next_state
                    then saturating_add now_ms (sc_terminal_retention_ms (im_config impl))
                    else osl_terminal_expires_at_ms slot in
                  let slot := advance_operation slot next_state now_ms expires in
                  (MESH_CONTROL_OK,
                   Some (mk_control_state (Some
                     (impl
                      |> set_im_operations (<[oi := slot]> (im_operations impl))
                      |> (λ impl, append_event impl (osl_operation slot) now_ms)
                      |> next_generation))))
            end
      end
  | _, _ => (MESH_CONTROL_INVALID_ARG, state)
  end.

(** The live operation an observation completes. *)
Definition completed_by (resource_kind : Z) (resource_id : bytes) (observed_epoch : Z)
    (slot : mesh_control_operation_slot) : bool :=
  let o := osl_operation slot in
  osl_occupied slot && (co_resource_kind o =? resource_kind) &&
  (co_desired_epoch o =? observed_epoch) &&
  negb (mesh_control_operation_state_is_terminal_v1 (co_state o)) &&
  memeq MESH_CONTROL_DIGEST_SIZE (co_resource_id o) resource_id.

(** The observed fields of a resource. *)
Definition observe_resource (slot : mesh_control_resource_slot) (observed_epoch presence : Z)
    (digest : bytes) : mesh_control_resource_slot :=
  let st := rsl_status slot in
  mk_resource_slot (rsl_occupied slot)
    (mk_resource_status (rst_resource_kind st) (rst_resource_id st) (rst_desired_epoch st)
       observed_epoch (rst_desired_presence st) presence (rst_desired_digest st) digest)
    (rsl_desired_document slot) (rsl_desired_document_size slot).

Definition mesh_control_state_observe_v1 (state : option mesh_control_state) (resource_kind : Z)
    (resource_id : option bytes) (observed_epoch presence : Z) (digest : option bytes) (now_ms : Z) :
    mesh_control_result * option mesh_control_state :=
  match state, resource_id, digest with
  | Some s, Some id, Some dg =>
      match cst_impl s with
      | None => (MESH_CONTROL_INVALID_ARG, state)
      | Some impl =>
          let id_ := take MESH_CONTROL_DIGEST_SIZE id in
          let dg_ := take MESH_CONTROL_DIGEST_SIZE dg in
          if control_bytes_zero id_ || (observed_epoch =? 0) ||
             (negb (presence =? MESH_CONTROL_PRESENCE_ABSENT) &&
              negb (presence =? MESH_CONTROL_PRESENCE_PRESENT)) ||
             ((presence =? MESH_CONTROL_PRESENCE_PRESENT) && control_bytes_zero dg_) ||
             ((presence =? MESH_CONTROL_PRESENCE_ABSENT) && negb (control_bytes_zero dg_))
          then (MESH_CONTROL_INVALID_ARG, state)
          else
            match find_resource impl resource_kind id with
            | None => (MESH_CONTROL_EMPTY, state)
            | Some (ri, resource) =>
                let st := rsl_status resource in
                if (observed_epoch <? rst_observed_epoch st) ||
                   (rst_desired_epoch st <? observed_epoch)
                then (MESH_CONTROL_CONFLICT, state)
                else if (observed_epoch =? rst_observed_epoch st) &&
                        (presence =? rst_observed_presence st) &&
                        memeq MESH_CONTROL_DIGEST_SIZE (rst_observed_digest st) dg
                then (MESH_CONTROL_OK, state)
                else
                  let completes_desired :=
                    (observed_epoch =? rst_desired_epoch st) &&
                    (presence =? rst_desired_presence st) &&
                    memeq MESH_CONTROL_DIGEST_SIZE dg (rst_desired_digest st) in
                  let matching_operation :=
                    if completes_desired
                    then find_slot (completed_by resource_kind id observed_epoch)
                           (im_operations impl)
                    else None in
                  if (im_snapshot_generation impl =? UINT64_MAX) ||
                     (non_null matching_operation && (im_next_cursor impl =? UINT64_MAX))
                  then (MESH_CONTROL_INVALID_STATE, state)
                  else
                    let impl := set_im_resources
                      (<[ri := observe_resource resource observed_epoch presence dg_]>
                         (im_resources impl)) impl in
                    let impl :=
                      match matching_operation with
                      | None => impl
                      | Some (oi, slot) =>
                          let slot := advance_operation slot MESH_CONTROL_OPERATION_SUCCEEDED now_ms
                            (saturating_add now_ms (sc_terminal_retention_ms (im_config impl))) in
                          append_event (set_im_operations (<[oi := slot]> (im_operations impl)) impl)
                            (osl_operation slot) now_ms
                      end in
                    (MESH_CONTROL_OK, Some (mk_control_state (Some (next_generation impl))))
            end
      end
  | _, _, _ => (MESH_CONTROL_INVALID_ARG, state)
  end.

(** ** Queries *)

(** The implementation behind a state pointer, when there is one. *)
Definition state_impl (state : option mesh_control_state) : option mesh_control_state_impl :=
  state ≫= cst_impl.

Definition mesh_control_state_get_resource_v1 (state : option mesh_control_state)
    (resource_kind : Z) (resource_id : option bytes)
    (out_status : option mesh_control_resource_status) :
    mesh_control_result * option mesh_control_resource_status :=
  match state_impl state, resource_id, out_status with
  | Some impl, Some id, Some _ =>
      match find_resource impl resource_kind id with
      | None => (MESH_CONTROL_EMPTY, out_status)
      | Some (_, slot) => (MESH_CONTROL_OK, Some (rsl_status slot))
      end
  | _, _, _ => (MESH_CONTROL_INVALID_ARG, out_status)
  end.

Definition mesh_control_state_get_operation_v1 (state : option mesh_control_state)
    (operation_id : option bytes) (out_operation : option mesh_control_operation) :
    mesh_control_result * option mesh_control_operation :=
  match state_impl state, operation_id, out_operation with
  | Some impl, Some id, Some _ =>
      match find_operation impl id with
      | None => (MESH_CONTROL_EMPTY, out_operation)
      | Some (_, slot) => (MESH_CONTROL_OK, Some (osl_operation slot))
      end
  | _, _, _ => (MESH_CONTROL_INVALID_ARG, out_operation)
  end.

(** [out_document] is a pointer to a document pointer: [Some None] is a stored NULL. *)
Definition mesh_control_state_get_desired_document_v1 (state : option mesh_control_state)
    (resource_kind : Z) (resource_id : option bytes) (out_document : option (option bytes))
    (out_document_size : option Z) : mesh_control_result * option (option bytes) * option Z :=
  match state_impl state, resource_id, out_document, out_document_size with
  | Some impl, Some id, Some _, Some _ =>
      match find_resource impl resource_kind id with
      | None => (MESH_CONTROL_EMPTY, Some None, Some 0)
      | Some (_, slot) =>
          (MESH_CONTROL_OK, Some (rsl_desired_document slot), Some (rsl_desired_document_size slot))
      end
  | _, _, _, _ => (MESH_CONTROL_INVALID_ARG, out_document, out_document_size)
  end.

Definition mesh_control_state_get_usage_v1 (state : option mesh_control_state)
    (out_usage : option mesh_control_state_usage) :
    mesh_control_result * option mesh_control_state_usage :=
  match state_impl state, out_usage with
  | Some impl, Some _ =>
      (MESH_CONTROL_OK,
       Some (mk_state_usage (count_slots rsl_occupied (im_resources impl))
               (count_slots osl_occupied (im_operations impl)) (im_event_count impl)
               (im_retained_document_bytes impl)
               (sc_desired_document_retained_bytes (im_config impl))))
  | _, _ => (MESH_CONTROL_INVALID_ARG, out_usage)
  end.

(** The event [index] places after the oldest one. *)
Definition ring_at (impl : mesh_control_state_impl) (index : nat) : mesh_control_event :=
  default zero_event
    (im_events impl !! Z.to_nat ((im_event_head impl + Z.of_nat index) mod
                                 sc_event_capacity (im_config impl))).

(** Writing [out] to the front of a caller's array. *)
Definition fill {A} (buffer : option (list A)) (out : list A) : option (list A) :=
  (λ b, out ++ drop (length out) b) <$> buffer.

(** The two copy loops of [mesh_control_state_snapshot_v1]. *)
Definition mesh_control_state_snapshot_v1 (state : option mesh_control_state)
    (resources : option (list mesh_control_resource_status)) (resource_capacity : Z)
    (out_resource_count : option Z) (operations : option (list mesh_control_operation))
    (operation_capacity : Z) (out_operation_count out_event_cursor : option Z) :
    mesh_control_result * option (list mesh_control_resource_status) * option Z *
    option (list mesh_control_operation) * option Z * option Z :=
  match state_impl state, out_resource_count, out_operation_count, out_event_cursor with
  | Some impl, Some _, Some _, Some _ =>
      if (negb (resource_capacity =? 0) && negb (non_null resources)) ||
         (negb (operation_capacity =? 0) && negb (non_null operations))
      then (MESH_CONTROL_INVALID_ARG, resources, out_resource_count, operations,
            out_operation_count, out_event_cursor)
      else
        let resource_count := count_slots rsl_occupied (im_resources impl) in
        let operation_count := count_slots osl_occupied (im_operations impl) in
        let cursor := wrap 64 (im_next_cursor impl - 1) in
        if (resource_capacity <? resource_count) || (operation_capacity <? operation_count)
        then (MESH_CONTROL_RESOURCE_EXHAUSTED, resources, Some resource_count, operations,
              Some operation_count, Some cursor)
        else (MESH_CONTROL_OK,
              fill resources (rsl_status <$> filter (λ r, rsl_occupied r = true)
                                               (im_resources impl)),
              Some resource_count,
              fill operations (osl_operation <$> filter (λ o, osl_occupied o = true)
                                                    (im_operations impl)),
              Some operation_count, Some cursor)
  | _, _, _, _ => (MESH_CONTROL_INVALID_ARG, resources, out_resource_count, operations,
                   out_operation_count, out_event_cursor)
  end.

(** One copy loop of a page: [seen] occupied slots passed, [out] copied so far. *)
Fixpoint page_loop {A B} (occ : A → bool) (get : A → B) (slots : list A)
    (seen offset capacity : Z) (out : list B) : list B :=
  match slots with
  | [] => out
  | slot :: slots' =>
      if negb (occ slot) then page_loop occ get slots' seen offset capacity out
      else if seen <? offset then page_loop occ get slots' (seen + 1) offset capacity out
      else if Z.of_nat (length out) =? capacity then out
      else page_loop occ get slots' (seen + 1) offset capacity (out ++ [get slot])
  end.

Definition mesh_control_state_snapshot_page_v1 (state : option mesh_control_state)
    (expected_generation resource_offset : Z)
    (resources : option (list mesh_control_resource_status)) (resource_capacity : Z)
    (operation_offset : Z) (operations : option (list mesh_control_operation))
    (operation_capacity : Z) (out_info : option mesh_control_snapshot_page_info) :
    mesh_control_result * option (list mesh_control_resource_status) *
    option (list mesh_control_operation) * option mesh_control_snapshot_page_info :=
  match state_impl state, out_info with
  | Some impl, Some _ =>
      if (negb (resource_capacity =? 0) && negb (non_null resources)) ||
         (negb (operation_capacity =? 0) && negb (non_null operations))
      then (MESH_CONTROL_INVALID_ARG, resources, operations, out_info)
      else
        let generation := im_snapshot_generation impl in
        let cursor := wrap 64 (im_next_cursor impl - 1) in
        if negb (expected_generation =? 0) && negb (expected_generation =? generation)
        then (MESH_CONTROL_CONFLICT, resources, operations,
              Some (mk_page_info generation cursor 0 0 0 0 0 0))
        else
          let resource_total := count_slots rsl_occupied (im_resources impl) in
          let operation_total := count_slots osl_occupied (im_operations impl) in
          if (resource_total <? resource_offset) || (operation_total <? operation_offset)
          then (MESH_CONTROL_INVALID_ARG, resources, operations,
                Some (mk_page_info generation cursor resource_total operation_total 0 0 0 0))
          else
            let rs := page_loop rsl_occupied rsl_status (im_resources impl) 0 resource_offset
                        resource_capacity [] in
            let os := page_loop osl_occupied osl_operation (im_operations impl) 0
                        operation_offset operation_capacity [] in
            (MESH_CONTROL_OK, fill resources rs, fill operations os,
             Some (mk_page_info generation cursor resource_total operation_total resource_offset
                     (Z.of_nat (length rs)) operation_offset (Z.of_nat (length os))))
  | _, _ => (MESH_CONTROL_INVALID_ARG, resources, operations, out_info)
  end.

(** The copy loop over the ring: the events copied and the last cursor. *)
Fixpoint events_loop (ring : list mesh_control_event) (cursor output_capacity : Z)
    (out : list mesh_control_event) (next_cursor : Z) : list mesh_control_event * Z :=
  match ring with
  | [] => (out, next_cursor)
  | event :: ring' =>
      if negb (Z.of_nat (length out) <? output_capacity) then (out, next_cursor)
      else if ev_cursor event <=? cursor
      then events_loop ring' cursor output_capacity out next_cursor
      else events_loop ring' cursor output_capacity (out ++ [event]) (ev_cursor event)
  end.

Definition mesh_control_state_events_after_v1 (state : option mesh_control_state) (cursor : Z)
    (output : option (list mesh_control_event)) (output_capacity : Z)
    (out_count out_next_cursor : option Z) :
    mesh_control_result * option (list mesh_control_event) * option Z * option Z :=
  match state_impl state, out_count, out_next_cursor with
  | Some impl, Some _, Some _ =>
      if negb (output_capacity =? 0) && negb (non_null output)
      then (MESH_CONTROL_INVALID_ARG, output, out_count, out_next_cursor)
      else if im_event_count impl =? 0 then (MESH_CONTROL_OK, output, Some 0, Some cursor)
      else
        let oldest_cursor := ev_cursor (ring_at impl 0) in
        if negb (cursor =? 0) && (cursor <? wrap 64 (oldest_cursor - 1))
        then (MESH_CONTROL_CONFLICT, output, Some 0, Some cursor)
        else
          let '(out, next) :=
            events_loop (ring_at impl <$> seq 0 (Z.to_nat (im_event_count impl))) cursor
              output_capacity [] cursor in
          (MESH_CONTROL_OK, fill output out, Some (Z.of_nat (length out)), Some next)
  | _, _, _ => (MESH_CONTROL_INVALID_ARG, output, out_count, out_next_cursor)
  end.

(** ** Checkpoints *)

Definition resource_record (slot : mesh_control_resource_slot) : mesh_control_state_resource_record :=
  mk_resource_record (rsl_status slot) (rsl_desired_document slot) (rsl_desired_document_size slot).
Definition operation_record (slot : mesh_control_operation_slot) :
    mesh_control_state_operation_record :=
  mk_operation_record (osl_operation slot) (osl_terminal_expires_at_ms slot).

Definition mesh_control_state_export_v1 (state : option mesh_control_state)
    (resources : option (list mesh_control_state_resource_record)) (resource_capacity : Z)
    (operations : option (list mesh_control_state_operation_record)) (operation_capacity : Z)
    (events : option (list mesh_control_event)) (event_capacity : Z)
    (out_info : option mesh_control_state_checkpoint_info) :
    mesh_control_result * option (list mesh_control_state_resource_record) *
    option (list mesh_control_state_operation_record) * option (list mesh_control_event) *
    option mesh_control_state_checkpoint_info :=
  match state_impl state, out_info with
  | Some impl, Some _ =>
      if (negb (resource_capacity =? 0) && negb (non_null resources)) ||
         (negb (operation_capacity =? 0) && negb (non_null operations)) ||
         (negb (event_capacity =? 0) && negb (non_null events))
      then (MESH_CONTROL_INVALID_ARG, resources, operations, events, out_info)
      else
        let resource_count := count_slots rsl_occupied (im_resources impl) in
        let operation_count := count_slots osl_occupied (im_operations impl) in
        let info := mk_checkpoint_info (im_snapshot_generation impl) (im_next_cursor impl)
                      resource_count operation_count (im_event_count impl) in
        if (resource_capacity <? resource_count) || (operation_capacity <? operation_count) ||
           (event_capacity <? im_event_count impl)
        then (MESH_CONTROL_RESOURCE_EXHAUSTED, resources, operations, events, Some info)
        else
          (MESH_CONTROL_OK,
           fill resources (resource_record <$> filter (λ r, rsl_occupied r = true)
                                                 (im_resources impl)),
           fill operations (operation_record <$> filter (λ o, osl_occupied o = true)
                                                   (im_operations impl)),
           fill events (ring_at impl <$> seq 0 (Z.to_nat (im_event_count impl))), Some info)
  | _, _ => (MESH_CONTROL_INVALID_ARG, resources, operations, events, out_info)
  end.

Definition resource_record_valid (record : mesh_control_state_resource_record)
    (config : mesh_control_state_config) : bool :=
  let status := rr_status record in
  negb (negb (resource_kind_valid (rst_resource_kind status)) ||
        control_bytes_zero (rst_resource_id status) || (rst_desired_epoch status =? 0) ||
        (rst_desired_epoch status <? rst_observed_epoch status) ||
        negb (presence_valid (rst_desired_presence status)) ||
        negb (presence_valid (rst_observed_presence status)) ||
        negb (eqb (rst_desired_presence status =? MESH_CONTROL_PRESENCE_PRESENT)
                  (negb (control_bytes_zero (rst_desired_digest status)))) ||
        negb (eqb (rst_observed_presence status =? MESH_CONTROL_PRESENCE_PRESENT)
                  (negb (control_bytes_zero (rst_observed_digest status)))) ||
        ((rst_observed_presence status =? MESH_CONTROL_PRESENCE_PRESENT) &&
         (rst_observed_epoch status =? 0)) ||
        (sc_desired_document_max_bytes config <? rr_document_size record) ||
        (negb (rr_document_size record =? 0) && negb (non_null (rr_document record)))).

Definition operation_record_valid (record : mesh_control_state_operation_record) : bool :=
  let operation := or_operation record in
  if control_bytes_zero (co_operation_id operation) || control_bytes_zero (co_request_id operation) ||
     control_bytes_zero (co_message_id operation) ||
     negb (memeq MESH_CONTROL_ID_SIZE (co_operation_id operation) (co_message_id operation)) ||
     negb (resource_kind_valid (co_resource_kind operation)) ||
     (negb (co_action operation =? MESH_CONTROL_DESIRED_APPLY) &&
      negb (co_action operation =? MESH_CONTROL_DESIRED_DELETE)) ||
     control_bytes_zero (co_resource_id operation) ||
     control_bytes_zero (co_desired_digest operation) || (co_desired_epoch operation =? 0) ||
     (co_updated_at_ms operation <? co_created_at_ms operation) ||
     negb (operation_state_valid (co_state operation))
  then false
  else if mesh_control_operation_state_is_terminal_v1 (co_state operation)
  then negb (or_terminal_expires_at_ms record =? 0)
  else or_terminal_expires_at_ms record =? 0.

Definition event_record_valid (event : mesh_control_event) : bool :=
  negb (ev_cursor event =? 0) && negb (control_bytes_zero (ev_operation_id event)) &&
  resource_kind_valid (ev_resource_kind event) &&
  operation_state_valid (ev_operation_state event) &&
  negb (control_bytes_zero (ev_resource_id event)) && negb (ev_desired_epoch event =? 0).

Definition same_resource (kind : Z) (id : bytes) (record : mesh_control_state_resource_record) : bool :=
  (kind =? rst_resource_kind (rr_status record)) &&
  memeq MESH_CONTROL_DIGEST_SIZE id (rst_resource_id (rr_status record)).

(** The loop over [right] that looks up a resource and checks the epoch bound. *)
Definition resource_bound (resources : list mesh_control_state_resource_record) (kind : Z)
    (id : bytes) (desired_epoch : Z) : bool :=
  match find_slot (same_resource kind id) resources with
  | Some (_, r) => negb (rst_desired_epoch (rr_status r) <? desired_epoch)
  | None => false
  end.

Fixpoint resources_unique (resources : list mesh_control_state_resource_record) : bool :=
  match resources with
  | [] => true
  | r :: rest =>
      negb (existsb (same_resource (rst_resource_kind (rr_status r))
                                   (rst_resource_id (rr_status r))) rest) &&
      resources_unique rest
  end.

Fixpoint operations_unique_and_bound (resources : list mesh_control_state_resource_record)
    (operations : list mesh_control_state_operation_record) : bool :=
  match operations with
  | [] => true
  | o :: rest =>
      let operation := or_operation o in
      negb (existsb (λ r, memeq MESH_CONTROL_ID_SIZE (co_operation_id operation)
                                (co_operation_id (or_operation r)) ||
                          memeq MESH_CONTROL_ID_SIZE (co_request_id operation)
                                (co_request_id (or_operation r))) rest) &&
      resource_bound resources (co_resource_kind operation) (co_resource_id operation)
        (co_desired_epoch operation) &&
      operations_unique_and_bound resources rest
  end.

Definition checkpoint_inputs_unique_and_bound
    (resources : list mesh_control_state_resource_record)
    (operations : list mesh_control_state_operation_record) (events : list mesh_control_event) :
    bool :=
  resources_unique resources && operations_unique_and_bound resources operations &&
  forallb (λ ev, resource_bound resources (ev_resource_kind ev) (ev_resource_id ev)
                   (ev_desired_epoch ev)) events.

(** The first validation loop of the import; [None] when a record is refused. *)
Fixpoint import_documents (config : mesh_control_state_config) (retained_document_bytes : Z)
    (resources : list mesh_control_state_resource_record) : option Z :=
  match resources with
  | [] => Some retained_document_bytes
  | r :: rest =>
      if negb (resource_record_valid r config) ||
         (wrap 64 (sc_desired_document_retained_bytes config - rr_document_size r) <?
          retained_document_bytes)
      then None
      else import_documents config (wrap 64 (retained_document_bytes + rr_document_size r)) rest
  end.

(** The cursor check of the import: consecutive cursors from [expected_cursor] on. *)
Fixpoint events_consecutive (expected_cursor : Z) (events : list mesh_control_event) : bool :=
  match events with
  | [] => true
  | ev :: rest =>
      event_record_valid ev && (ev_cursor ev =? expected_cursor) &&
      events_consecutive (wrap 64 (expected_cursor + 1)) rest
  end.

Definition imported_resource (r : mesh_control_state_resource_record) : mesh_control_resource_slot :=
  mk_resource_slot true (rr_status r)
    (if rr_document_size r =? 0 then None
     else Some (take (Z.to_nat (rr_document_size r)) (deref [] (rr_document r))))
    (rr_document_size r).
Definition imported_operation (o : mesh_control_state_operation_record) :
    mesh_control_operation_slot :=
  mk_operation_slot true (or_terminal_expires_at_ms o) (or_operation o).

(** [alloc_ok] is false when the table of copies or one of the copies cannot be allocated. *)
Definition mesh_control_state_import_v1 (alloc_ok : bool) (state : option mesh_control_state)
    (info : option mesh_control_state_checkpoint_info)
    (resources : option (list mesh_control_state_resource_record))
    (operations : option (list mesh_control_state_operation_record))
    (events : option (list mesh_control_event)) : mesh_control_result * option mesh_control_state :=
  match state_impl state, info with
  | Some impl, Some ck =>
      let config := im_config impl in
      if (ck_snapshot_generation ck =? 0) || (ck_snapshot_generation ck =? UINT64_MAX) ||
         (ck_next_event_cursor ck =? 0) || (ck_next_event_cursor ck =? UINT64_MAX) ||
         (sc_resource_capacity config <? ck_resource_count ck) ||
         (sc_operation_capacity config <? ck_operation_count ck) ||
         (sc_event_capacity config <? ck_event_count ck) ||
         (negb (ck_resource_count ck =? 0) && negb (non_null resources)) ||
         (negb (ck_operation_count ck =? 0) && negb (non_null operations)) ||
         (negb (ck_event_count ck =? 0) && negb (non_null events)) ||
         negb (count_slots rsl_occupied (im_resources impl) =? 0) ||
         negb (count_slots osl_occupied (im_operations impl) =? 0) ||
         negb (im_event_count impl =? 0)
      then (MESH_CONTROL_INVALID_ARG, state)
      else
        let rs := take (Z.to_nat (ck_resource_count ck)) (deref [] resources) in
        let os := take (Z.to_nat (ck_operation_count ck)) (deref [] operations) in
        let es := take (Z.to_nat (ck_event_count ck)) (deref [] events) in
        match import_documents config 0 rs with
        | None => (MESH_CONTROL_INVALID_ARG, state)
        | Some retained_document_bytes =>
            if negb (forallb operation_record_valid os) then (MESH_CONTROL_INVALID_ARG, state)
            else if ck_next_event_cursor ck <=? ck_event_count ck
            then (MESH_CONTROL_INVALID_ARG, state)
            else if negb (events_consecutive (ck_next_event_cursor ck - ck_event_count ck) es)
            then (MESH_CONTROL_INVALID_ARG, state)
            else if negb (checkpoint_inputs_unique_and_bound rs os es)
            then (MESH_CONTROL_INVALID_ARG, state)
            else if negb alloc_ok && negb (ck_resource_count ck =? 0)
            then (MESH_CONTROL_RESOURCE_EXHAUSTED, state)
            else
              (MESH_CONTROL_OK,
               Some (mk_control_state (Some (mk_impl config
                 ((imported_resource <$> rs) ++ drop (length rs) (im_resources impl))
                 ((imported_operation <$> os) ++ drop (length os) (im_operations impl))
                 (es ++ drop (length es) (im_events impl))
                 (ck_event_count ck) 0 (ck_next_event_cursor ck) (ck_snapshot_generation ck)
                 retained_document_bytes))))
        end
  | _, _ => (MESH_CONTROL_INVALID_ARG, state)
  end.

(** ** The ring of events as a list *)

Definition ring_list (impl : mesh_control_state_impl) : list mesh_control_event :=
  ring_at impl <$> seq 0 (Z.to_nat (im_event_count impl)).

Record ring_shape (impl : mesh_control_state_impl) : Prop := {
  rg_cap : 0 < sc_event_capacity (im_config impl);
  rg_len : Z.of_nat (length (im_events impl)) = sc_event_capacity (im_config impl);
  rg_head : 0 <= im_event_head impl < sc_event_capacity (im_config impl);
  rg_count : 0 <= im_event_count impl <= sc_event_capacity (im_config impl) }.

(** The event a change of [operation] records. *)
Definition operation_event (cursor : Z) (operation : mesh_control_operation) (now_ms : Z) :
    mesh_control_event :=
  mk_event cursor (co_operation_id operation) (co_resource_kind operation) (co_state operation)
    (co_resource_id operation) (co_desired_epoch operation) now_ms.

Section Ring.
Context (impl : mesh_control_state_impl) (Hs : ring_shape impl).
Let cap := sc_event_capacity (im_config impl).

Lemma ring_mod_inj a b : 0 <= a - b < cap → a mod cap = b mod cap → a = b.
Proof.
  pose proof (rg_cap _ Hs) as Hc. fold cap in Hc. intros Hab E.
  assert (H0 : (a - b) mod cap = 0) by (rewrite Zminus_mod, E, Z.sub_diag; by apply Z.mod_0_l; lia).
  rewrite Z.mod_small in H0 by lia. lia.
Qed.

Lemma ring_list_length : length (ring_list impl) = Z.to_nat (im_event_count impl).
Proof. unfold ring_list. by rewrite length_fmap, length_seq. Qed.

Lemma ring_list_lookup i : (i < Z.to_nat (im_event_count impl))%nat →
  ring_list impl !! i = Some (ring_at impl i).
Proof. intros Hi. unfold ring_list. rewrite list_lookup_fmap, lookup_seq_lt by done. done. Qed.

(** The slot of the event [i] places after the head. *)
Lemma ring_slot_lt i : (Z.to_nat ((im_event_head impl + i) mod cap) < length (im_events impl))%nat.
Proof.
  pose proof (rg_cap _ Hs) as Hc. pose proof (rg_len _ Hs) as Hl. fold cap in Hc, Hl.
  pose proof (Z.mod_pos_bound (im_event_head impl + i) cap ltac:(lia)). lia.
Qed.

(** A new event follows the kept ones: all of them, or all but the oldest when the ring is full. *)
Lemma ring_append operation now :
  ring_list (append_event impl operation now) =
  (if im_event_count impl <? cap then ring_list impl else drop 1 (ring_list impl)) ++
  [operation_event (im_next_cursor impl) operation now].
Proof.
  pose proof (rg_cap _ Hs) as Hc. pose proof (rg_head _ Hs) as Hh.
  pose proof (rg_count _ Hs) as Hn. fold cap in Hc, Hh, Hn.
  set (ev := operation_event (im_next_cursor impl) operation now).
  apply list_eq. intros i.
  unfold ring_list at 1, append_event. fold cap. fold ev.
  destruct (Z.ltb_spec (im_event_count impl) cap) as [Hlt|Hge];
    cbn [set_im_ring im_event_count im_event_head im_events im_config].
  - rewrite Z2Nat.inj_add, seq_app, fmap_app by lia. cbn [Nat.add seq fmap list_fmap].
    f_equal. f_equal.
    + apply list_fmap_ext. intros _ k [Hk1 Hk2]%list_elem_of_lookup_2%elem_of_seq.
      unfold ring_at. cbn [set_im_ring im_events im_event_head im_config]. fold cap.
      rewrite list_lookup_insert_ne; [done|]. intros E%Z2Nat.inj; [|apply Z.mod_pos_bound; lia..].
      apply ring_mod_inj in E; lia.
    + change (Z.to_nat 1) with 1%nat. cbn [seq fmap list_fmap].
      unfold ring_at. cbn [set_im_ring im_events im_event_head im_config]. fold cap.
      rewrite Z2Nat.id, list_lookup_insert_eq by (lia || apply ring_slot_lt). done.
  - assert (im_event_count impl = cap) as Ecap by lia. rewrite Ecap.
    replace (Z.to_nat cap) with (Z.to_nat (cap - 1) + 1)%nat by lia.
    rewrite seq_app, fmap_app. cbn [Nat.add seq fmap list_fmap].
    assert (Hidx : ∀ k, ((im_event_head impl + 1) mod cap + k) mod cap =
                        (im_event_head impl + 1 + k) mod cap).
    { intros k. by rewrite Zplus_mod_idemp_l. }
    f_equal. f_equal.
    + apply list_eq. intros k. rewrite lookup_drop. unfold ring_list. rewrite Ecap.
      destruct (decide (k < Z.to_nat (cap - 1))%nat).
      * rewrite !list_lookup_fmap, !lookup_seq_lt by lia. cbn [fmap option_fmap option_map Nat.add].
        f_equal. unfold ring_at. cbn [set_im_ring im_events im_event_head im_config]. fold cap.
        rewrite Hidx. replace (im_event_head impl + 1 + Z.of_nat k)
          with (im_event_head impl + Z.of_nat (S k)) by lia.
        rewrite list_lookup_insert_ne; [done|]. intros E%Z2Nat.inj; [|lia|apply Z.mod_pos_bound; lia].
        rewrite <- (Z.mod_small (im_event_head impl) cap) in E at 1 by lia.
        symmetry in E. apply ring_mod_inj in E; lia.
      * rewrite !lookup_ge_None_2; [done|rewrite length_fmap, length_seq; lia..].
    + unfold ring_at. cbn [set_im_ring im_events im_event_head im_config]. fold cap.
      rewrite Hidx. replace (im_event_head impl + 1 + Z.of_nat (Z.to_nat (cap - 1)))
        with (im_event_head impl + 1 * cap) by lia.
      rewrite Z.mod_add, Z.mod_small by lia.
      rewrite list_lookup_insert_eq; [done|]. pose proof (rg_len _ Hs) as Hl. fold cap in Hl. lia.
Qed.

Lemma ring_append_shape operation now : ring_shape (append_event impl operation now).
Proof.
  pose proof (rg_cap _ Hs) as Hc. pose proof (rg_head _ Hs) as Hh.
  pose proof (rg_count _ Hs) as Hn. pose proof (rg_len _ Hs) as Hl. fold cap in Hc, Hh, Hn, Hl.
  unfold append_event. fold cap.
  destruct (Z.ltb_spec (im_event_count impl) cap);
    split; cbn [set_im_ring im_event_count im_event_head im_events im_config]; fold cap;
    rewrite ?length_insert; try lia.
  apply Z.mod_pos_bound. lia.
Qed.

End Ring.
