(* ===== verification/ControlStateInv.v ===== *)
(** * The control state under arbitrary commands

    The well-formedness invariant of [mesh_control_state.c] and what each
    operation of [ControlState] does to the resources, the operations and the
    event log, for every sequence of calls.  Each call is decomposed into the
    writes it performs (resource, operation, event, generation); the invariant
    is preserved write by write. *)

From S2P Require Import Prelude ControlPrimitives ControlState.

(** ** Well-formed states *)

Definition rkey (s : mesh_control_resource_slot) : Z * bytes :=
  (rst_resource_kind (rsl_status s), rst_resource_id (rsl_status s)).
Definition okey (s : mesh_control_operation_slot) : bytes := co_request_id (osl_operation s).

Definition nonzero_bytes (n : nat) (b : bytes) : Prop := bytes_ok n b ∧ b ≠ zeros n.

Record config_ok (c : mesh_control_state_config) : Prop := {
  cc_resources : 0 < sc_resource_capacity c <= 4096;
  cc_operations : 0 < sc_operation_capacity c <= 4096;
  cc_events : 0 < sc_event_capacity c <= 8192;
  cc_retention : 0 < sc_terminal_retention_ms c < 2 ^ 64;
  cc_document : 0 < sc_desired_document_max_bytes c <= 65536;
  cc_retained : sc_desired_document_max_bytes c <= sc_desired_document_retained_bytes c <= 67108864 }.

(** Presence and digest of a status agree: a present resource has a digest. *)
Definition coherent (presence : Z) (digest : bytes) : Prop :=
  presence = MESH_CONTROL_PRESENCE_PRESENT ∧ digest ≠ zeros 32 ∨
  presence = MESH_CONTROL_PRESENCE_ABSENT ∧ digest = zeros 32.

Record resource_ok (c : mesh_control_state_config) (s : mesh_control_resource_slot) : Prop := {
  ro_kind : resource_kind_valid (rst_resource_kind (rsl_status s)) = true;
  ro_id : nonzero_bytes 32 (rst_resource_id (rsl_status s));
  ro_epochs : 0 < rst_desired_epoch (rsl_status s) < 2 ^ 64 ∧
    0 <= rst_observed_epoch (rsl_status s) <= rst_desired_epoch (rsl_status s);
  ro_desired : presence_valid (rst_desired_presence (rsl_status s)) = true;
  ro_absent : rst_desired_presence (rsl_status s) = MESH_CONTROL_PRESENCE_ABSENT →
    rst_desired_digest (rsl_status s) = zeros 32;
  ro_digests : bytes_ok 32 (rst_desired_digest (rsl_status s)) ∧
    bytes_ok 32 (rst_observed_digest (rsl_status s));
  ro_observed : coherent (rst_observed_presence (rsl_status s))
    (rst_observed_digest (rsl_status s));
  ro_seen : rst_observed_presence (rsl_status s) = MESH_CONTROL_PRESENCE_PRESENT →
    0 < rst_observed_epoch (rsl_status s);
  ro_document : rsl_desired_document_size s = 0 ∧ rsl_desired_document s = None ∨
    ∃ d, rsl_desired_document s = Some d ∧ rsl_desired_document_size s = len d ∧ d ≠ [];
  ro_size : 0 <= rsl_desired_document_size s <= sc_desired_document_max_bytes c }.

Record operation_ok (o : mesh_control_operation) (expires : Z) : Prop := {
  oo_id : nonzero_bytes 16 (co_operation_id o);
  oo_request : nonzero_bytes 16 (co_request_id o);
  oo_message : co_message_id o = co_operation_id o;
  oo_kind : resource_kind_valid (co_resource_kind o) = true;
  oo_action : co_action o = MESH_CONTROL_DESIRED_APPLY ∨ co_action o = MESH_CONTROL_DESIRED_DELETE;
  oo_resource : nonzero_bytes 32 (co_resource_id o);
  oo_digest : bytes_ok 32 (co_desired_digest o);
  oo_epoch : 0 < co_desired_epoch o < 2 ^ 64;
  oo_state : operation_state_valid (co_state o) = true;
  oo_terminal : if mesh_control_operation_state_is_terminal_v1 (co_state o)
    then expires ≠ 0 else expires = 0 }.

(** A resource with this key exists and its desired epoch is at least [epoch]. *)
Definition bound_in (l : list mesh_control_resource_slot) (kind : Z) (id : bytes) (epoch : Z) : Prop :=
  ∃ i s, l !! i = Some s ∧ rsl_occupied s = true ∧ rkey s = (kind, id) ∧
    epoch <= rst_desired_epoch (rsl_status s).

Record event_ok (l : list mesh_control_resource_slot) (e : mesh_control_event) : Prop := {
  eo_id : nonzero_bytes 16 (ev_operation_id e);
  eo_kind : resource_kind_valid (ev_resource_kind e) = true;
  eo_state : operation_state_valid (ev_operation_state e) = true;
  eo_resource : nonzero_bytes 32 (ev_resource_id e);
  eo_epoch : 0 < ev_desired_epoch e;
  eo_bound : bound_in l (ev_resource_kind e) (ev_resource_id e) (ev_desired_epoch e) }.

Definition resource_slot_ok (c : mesh_control_state_config) (s : mesh_control_resource_slot) : Prop :=
  if rsl_occupied s then resource_ok c s else s = zero_resource_slot.
Definition operation_slot_ok (l : list mesh_control_resource_slot) (s : mesh_control_operation_slot) :
    Prop :=
  if osl_occupied s
  then operation_ok (osl_operation s) (osl_terminal_expires_at_ms s) ∧
       bound_in l (co_resource_kind (osl_operation s)) (co_resource_id (osl_operation s))
         (co_desired_epoch (osl_operation s))
  else s = zero_operation_slot.

(** Bytes of the retained documents. *)
Definition doc_total (l : list mesh_control_resource_slot) : Z :=
  foldr (λ s n, rsl_desired_document_size s + n) 0 l.

Record impl_ok (i : mesh_control_state_impl) : Prop := {
  io_config : config_ok (im_config i);
  io_rlen : Z.of_nat (length (im_resources i)) = sc_resource_capacity (im_config i);
  io_olen : Z.of_nat (length (im_operations i)) = sc_operation_capacity (im_config i);
  io_resources : Forall (resource_slot_ok (im_config i)) (im_resources i);
  io_operations : Forall (operation_slot_ok (im_resources i)) (im_operations i);
  io_runique : slots_unique rsl_occupied rkey (im_resources i);
  io_ounique : slots_unique osl_occupied okey (im_operations i);
  io_retained : im_retained_document_bytes i = doc_total (im_resources i);
  io_budget : im_retained_document_bytes i <= sc_desired_document_retained_bytes (im_config i);
  io_ring : ring_shape i;
  io_events : Forall (event_ok (im_resources i)) (ring_list i);
  io_cursors : ∀ k e, ring_list i !! k = Some e →
    ev_cursor e = im_next_cursor i - im_event_count i + Z.of_nat k;
  io_cursor : im_event_count i < im_next_cursor i < 2 ^ 64;
  io_generation : 0 < im_snapshot_generation i < 2 ^ 64 }.

(** ** Generic facts *)

Lemma control_bytes_zero_spec n b : bytes_ok n b → control_bytes_zero b = bool_decide (b = zeros n).
Proof.
  intros [Hl Hb]. unfold control_bytes_zero. apply eq_true_iff_eq.
  rewrite Z.eqb_eq, bool_decide_eq_true, (or_bytes_zero b Hb), Hl. done.
Qed.

Lemma nonzero_bytes_spec n b : bytes_ok n b → control_bytes_zero b = false ↔ nonzero_bytes n b.
Proof.
  intros Hb. rewrite (control_bytes_zero_spec n) by done. rewrite bool_decide_eq_false.
  unfold nonzero_bytes. tauto.
Qed.

Lemma doc_total_insert l i x y : l !! i = Some x →
  doc_total (<[i:=y]> l) =
    doc_total l - rsl_desired_document_size x + rsl_desired_document_size y.
Proof.
  revert i. induction l as [|z l IH]; intros [|i]; simpl; try done.
  - intros [= ->]. lia.
  - intros Hx. rewrite (IH _ Hx). lia.
Qed.

Lemma doc_total_ge l i x : Forall (λ s, 0 <= rsl_desired_document_size s) l → l !! i = Some x →
  rsl_desired_document_size x <= doc_total l.
Proof.
  intros Hl. revert i. induction Hl as [|z l Hz Hl IH]; intros [|i]; simpl; try done.
  - intros [= ->]. enough (0 <= doc_total l) by lia. clear -Hl.
    induction Hl as [|w l Hw Hl IH]; simpl; lia.
  - intros Hx. specialize (IH _ Hx). lia.
Qed.

Lemma resource_is_key kind id s : length id = 32%nat →
  (rsl_occupied s = true → length (rst_resource_id (rsl_status s)) = 32%nat) →
  resource_is kind id s = slot_key rsl_occupied rkey (kind, id) s.
Proof.
  intros Hid Hs. unfold resource_is, slot_key. destruct (rsl_occupied s) eqn:E; [|done].
  rewrite memeq_spec by (done || by apply Hs). unfold rkey. cbn [andb].
  apply eq_true_iff_eq. rewrite andb_true_iff, Z.eqb_eq, !bool_decide_eq_true. split.
  - by intros [-> ->].
  - by intros [= -> ->].
Qed.

Lemma bound_in_insert l i x y kind id epoch : l !! i = Some x →
  (rsl_occupied x = true → rsl_occupied y = true ∧ rkey y = rkey x ∧
     rst_desired_epoch (rsl_status x) <= rst_desired_epoch (rsl_status y)) →
  bound_in l kind id epoch → bound_in (<[i:=y]> l) kind id epoch.
Proof.
  intros Hi Hxy (j & s & Hj & Ho & Hk & He). destruct (decide (j = i)) as [->|Hij].
  - simplify_eq. destruct (Hxy Ho) as (Hy & Hky & Hle). exists i, y.
    rewrite list_lookup_insert_eq by (by eapply lookup_lt_Some).
    split_and!; [done|done|congruence|lia].
  - exists j, s. by rewrite list_lookup_insert_ne.
Qed.

(** ** The writes, one by one *)

(** Recording an event touches the ring only. *)
Lemma append_event_frame impl o now : let impl' := append_event impl o now in
  im_config impl' = im_config impl ∧ im_resources impl' = im_resources impl ∧
  im_operations impl' = im_operations impl ∧
  im_snapshot_generation impl' = im_snapshot_generation impl ∧
  im_next_cursor impl' = wrap 64 (im_next_cursor impl + 1).
Proof. unfold append_event. by destruct (_ <? _). Qed.
Lemma append_event_generation impl o now :
  im_snapshot_generation (append_event impl o now) = im_snapshot_generation impl.
Proof. apply append_event_frame. Qed.

Lemma next_generation_ok impl : impl_ok impl → im_snapshot_generation impl ≠ UINT64_MAX → impl_ok (next_generation impl).
Proof.
  intros Hok Hmax. pose proof Hok as []. unfold UINT64_MAX in Hmax.
  split; cbn [next_generation set_im_generation im_config im_resources im_operations
    im_next_cursor im_event_count im_snapshot_generation im_retained_document_bytes]; try done.
  - destruct io_ring0. by split.
  - rewrite wrap_small by (unfold uint; lia). lia.
Qed.

Section Writes.
Context (impl : mesh_control_state_impl) (Hok : impl_ok impl).

Lemma resource_slot_at i s : im_resources impl !! i = Some s →
  resource_slot_ok (im_config impl) s.
Proof. intros Hi. by eapply (Forall_lookup_1 _ _ _ _ (io_resources _ Hok)). Qed.

Lemma operation_slot_at i s : im_operations impl !! i = Some s →
  operation_slot_ok (im_resources impl) s.
Proof. intros Hi. by eapply (Forall_lookup_1 _ _ _ _ (io_operations _ Hok)). Qed.

Lemma resource_size_at i s : im_resources impl !! i = Some s →
  0 <= rsl_desired_document_size s <= im_retained_document_bytes impl.
Proof.
  intros Hi. pose proof (io_resources _ Hok) as Hr.
  assert (Hn : ∀ x, resource_slot_ok (im_config impl) x → 0 <= rsl_desired_document_size x).
  { intros x. unfold resource_slot_ok. destruct (rsl_occupied x); [intros []; lia|]. by intros ->. }
  rewrite (io_retained _ Hok). split; [by eapply Hn, resource_slot_at|].
  eapply doc_total_ge; [|done]. by eapply Forall_impl.
Qed.

Lemma find_resource_key kind id : length id = 32%nat →
  find_resource impl kind id = find_slot (slot_key rsl_occupied rkey (kind, id)) (im_resources impl).
Proof.
  intros Hid. apply find_slot_ext. intros s [i Hi]%list_elem_of_lookup.
  apply resource_is_key; [done|]. intros Ho. pose proof (resource_slot_at _ _ Hi) as Hs.
  unfold resource_slot_ok in Hs. rewrite Ho in Hs. apply Hs.
Qed.

Lemma find_request_key id : length id = 16%nat →
  find_request impl id = find_slot (slot_key osl_occupied okey id) (im_operations impl).
Proof.
  intros Hid. apply find_slot_ext. intros s [i Hi]%list_elem_of_lookup.
  unfold slot_key, okey. destruct (osl_occupied s) eqn:Ho; [|done].
  pose proof (operation_slot_at _ _ Hi) as Hs. unfold operation_slot_ok in Hs. rewrite Ho in Hs.
  rewrite memeq_spec; [done| |done]. apply Hs.
Qed.

Lemma events_bound_insert i x y : im_resources impl !! i = Some x →
  (rsl_occupied x = true → rsl_occupied y = true ∧ rkey y = rkey x ∧
     rst_desired_epoch (rsl_status x) <= rst_desired_epoch (rsl_status y)) →
  Forall (event_ok (<[i:=y]> (im_resources impl))) (ring_list impl) ∧
  Forall (operation_slot_ok (<[i:=y]> (im_resources impl))) (im_operations impl).
Proof.
  intros Hi Hxy. split.
  - eapply Forall_impl; [apply (io_events _ Hok)|]. intros e []. split; try done.
    by eapply bound_in_insert.
  - eapply Forall_impl; [apply (io_operations _ Hok)|]. intros s. unfold operation_slot_ok.
    destruct (osl_occupied s); [|done]. intros [? ?]. split; [done|]. by eapply bound_in_insert.
Qed.

(** Writing a resource: an update keeps the key and does not lower the epoch, a
    new resource has a new key; the budget is kept. *)
Lemma write_resource_ok i x y n : im_resources impl !! i = Some x →
  rsl_occupied y = true → resource_ok (im_config impl) y →
  (rsl_occupied x = true → rkey y = rkey x ∧
     rst_desired_epoch (rsl_status x) <= rst_desired_epoch (rsl_status y)) →
  (rsl_occupied x = false →
     find_slot (slot_key rsl_occupied rkey (rkey y)) (im_resources impl) = None) →
  n = im_retained_document_bytes impl - rsl_desired_document_size x + rsl_desired_document_size y →
  n <= sc_desired_document_retained_bytes (im_config impl) →
  impl_ok (set_im_retained n (set_im_resources (<[i:=y]> (im_resources impl)) impl)).
Proof.
  intros Hi Hy Hry Hupd Hnew -> Hn.
  assert (Hxy : rsl_occupied x = true → rsl_occupied y = true ∧ rkey y = rkey x ∧
     rst_desired_epoch (rsl_status x) <= rst_desired_epoch (rsl_status y)).
  { intros Hx. destruct (Hupd Hx). done. }
  destruct (events_bound_insert i x y Hi Hxy) as [Hev Hop]. pose proof Hok as [].
  split; cbn [set_im_retained set_im_resources im_config im_resources im_operations
    im_next_cursor im_event_count im_snapshot_generation im_retained_document_bytes]; try done.
  - by rewrite length_insert.
  - apply Forall_insert; [done|]. unfold resource_slot_ok. by rewrite Hy.
  - destruct (rsl_occupied x) eqn:Hx;
      [eapply slots_unique_update; [done..|by apply Hupd]
      |eapply slots_unique_fresh; [done..|by apply Hnew]].
  - rewrite (doc_total_insert _ _ x) by done. lia.
  - destruct io_ring0. by split.
Qed.

Lemma write_operation_ok i x y : im_operations impl !! i = Some x →
  operation_slot_ok (im_resources impl) y →
  (osl_occupied x = true → okey y = okey x) →
  (osl_occupied x = false → osl_occupied y = true →
     find_slot (slot_key osl_occupied okey (okey y)) (im_operations impl) = None) →
  impl_ok (set_im_operations (<[i:=y]> (im_operations impl)) impl).
Proof.
  intros Hi Hy Hupd Hnew. pose proof Hok as [].
  split; cbn [set_im_operations im_config im_resources im_operations
    im_next_cursor im_event_count im_snapshot_generation im_retained_document_bytes]; try done.
  - by rewrite length_insert.
  - by apply Forall_insert.
  - destruct (osl_occupied y) eqn:Ey; [|by eapply slots_unique_clear].
    destruct (osl_occupied x) eqn:Hx;
      [eapply slots_unique_update; [done..|by apply Hupd]
      |eapply slots_unique_fresh; [done..|by apply Hnew]].
  - destruct io_ring0. by split.
Qed.

Lemma append_event_ok o now : im_next_cursor impl ≠ UINT64_MAX →
  event_ok (im_resources impl) (operation_event (im_next_cursor impl) o now) →
  impl_ok (append_event impl o now).
Proof.
  intros Hmax He. pose proof (ring_append impl (io_ring _ Hok) o now) as Hring.
  pose proof (ring_append_shape impl (io_ring _ Hok) o now) as Hshape.
  pose proof (ring_list_length impl) as Hlen. pose proof Hok as [].
  assert (Hcur : wrap 64 (im_next_cursor impl + 1) = im_next_cursor impl + 1).
  { destruct io_ring0. apply wrap_small. unfold uint, UINT64_MAX in *. lia. }
  destruct io_ring0. unfold append_event in *. rewrite Hcur in *.
  destruct (Z.ltb_spec (im_event_count impl) (sc_event_capacity (im_config impl))) as [Hlt|Hge];
    split; cbn [set_im_ring im_config im_resources im_operations
      im_next_cursor im_event_count im_snapshot_generation im_retained_document_bytes] in *;
    rewrite ?Hring; unfold UINT64_MAX in *; try done; try lia.
  - by apply Forall_app_2, Forall_singleton.
  - intros k e [Hk|[Hk E]]%lookup_app_Some.
    + rewrite (io_cursors0 _ _ Hk). lia.
    + apply list_lookup_singleton_Some in E as [E <-]. cbn. lia.
  - apply Forall_app_2; [by apply Forall_drop|by apply Forall_singleton].
  - intros k e [Hk|[Hk E]]%lookup_app_Some.
    + rewrite lookup_drop in Hk. rewrite (io_cursors0 _ _ Hk). lia.
    + apply list_lookup_singleton_Some in E as [E <-]. rewrite length_drop in *. cbn. lia.
Qed.

Lemma sweep_ok now : impl_ok (snd (sweep_impl impl now)).
Proof.
  unfold sweep_impl. destruct (Z.eqb_spec (im_snapshot_generation impl) UINT64_MAX); [done|].
  cbn [snd]. set (impl1 := set_im_operations _ impl).
  assert (H1 : impl_ok impl1).
  { pose proof Hok as []. subst impl1.
    split; cbn [set_im_operations im_config im_resources im_operations
      im_next_cursor im_event_count im_snapshot_generation im_retained_document_bytes]; try done.
    - by rewrite length_fmap.
    - apply Forall_fmap. eapply Forall_impl; [done|]. intros s Hs. cbn. by destruct (sweepable now s).
    - intros i j x y Hi Hj Hx Hy Hk. rewrite list_lookup_fmap in Hi, Hj.
      apply fmap_Some in Hi as (x' & Hi & ->). apply fmap_Some in Hj as (y' & Hj & ->).
      destruct (sweepable now x'); [done|]. destruct (sweepable now y'); [done|].
      by eapply io_ounique0.
    - destruct io_ring0. by split. }
  case_match; [done|]. by apply next_generation_ok.
Qed.
End Writes.

(** ** Commands *)

Abbreviation holds impl := (Some (mk_control_state (Some impl))).

Definition envelope_typed (e : mesh_control_envelope) : Prop :=
  bytes_ok 16 (ce_message_id e) ∧ bytes_ok 16 (ce_request_id e) ∧ bytes_ok 32 (ce_resource_id e) ∧
  bytes_ok 32 (ce_payload_digest e) ∧ u64 (ce_epoch e) ∧ u64 (ce_precondition_epoch e).
#[export] Instance envelope_typed_dec e : Decision (envelope_typed e).
Proof. unfold envelope_typed. apply _. Defined.

(** A document pointer that is not NULL points to [document_size] bytes. *)
Definition document_typed (document : option bytes) (document_size : Z) : Prop :=
  u64 document_size ∧ match document with Some b => document_size <= len b | None => True end.
#[export] Instance document_typed_dec d n : Decision (document_typed d n).
Proof. unfold document_typed. destruct d; apply _. Defined.

(** What one successful submission writes, its guards included. *)
Inductive submitted (impl : mesh_control_state_impl) (e : mesh_control_envelope) (action : Z)
    (document : option bytes) (document_size now : Z) : mesh_control_state_impl → Prop :=
  | submitted_intro ri oi x slot o :
      mesh_control_envelope_validate_v1 (Some e) = MESH_CONTROL_OK →
      ce_kind e = MESH_CONTROL_MESSAGE_INTENT →
      action = MESH_CONTROL_DESIRED_APPLY ∨ action = MESH_CONTROL_DESIRED_DELETE →
      control_bytes_zero (ce_request_id e) = false →
      ce_issued_at_ms e <= now < ce_expires_at_ms e →
      find_request impl (ce_request_id e) = None →
      im_resources impl !! ri = Some x →
      find_resource impl (ce_resource_kind e) (ce_resource_id e) = Some (ri, x) ∧ slot = x ∧
        rsl_occupied x = true ∧
        ce_precondition_epoch e = rst_desired_epoch (rsl_status x) ∧
        rst_desired_epoch (rsl_status x) < ce_epoch e ∨
      find_resource impl (ce_resource_kind e) (ce_resource_id e) = None ∧
        rsl_occupied x = false ∧ slot = fresh_resource_slot e ∧ ce_precondition_epoch e = 0 →
      im_operations impl !! oi = Some o → osl_occupied o = false →
      im_snapshot_generation impl ≠ UINT64_MAX → im_next_cursor impl ≠ UINT64_MAX →
      0 <= document_size <= sc_desired_document_max_bytes (im_config impl) →
      document_size = 0 ∨ is_Some document →
      let preserve := (action =? MESH_CONTROL_DESIRED_DELETE) && (document_size =? 0) &&
                      rsl_occupied x in
      preserve = true ∨
        im_retained_document_bytes impl - rsl_desired_document_size x + document_size <=
          sc_desired_document_retained_bytes (im_config impl) →
      submitted impl e action document document_size now
        (submit_commit impl ri oi slot e action preserve
           (if document_size =? 0 then None
            else Some (take (Z.to_nat document_size) (deref [] document)))
           (rsl_desired_document_size x) document_size now).

(** Decide the next boolean guard of the goal. *)
Ltac branch E :=
  match goal with |- context [if ?b then _ else _] => destruct b eqn:E end.

(** Close a branch that leaves the state as it was, or swept. *)
Ltac refused := first [by left | by right].

Lemma submit_exec alloc impl e action document size now out : impl_ok impl →
  envelope_typed e → document_typed document size →
  let impl1 := snd (sweep_impl impl now) in
  let '(r, st', o) := mesh_control_state_submit_document_v1 alloc (holds impl) (Some e) action
                        document size now (Some out) in
  if control_ok r then
    (st' = holds impl1 ∧ ∃ i s, find_request impl1 (ce_request_id e) = Some (i, s) ∧
       operation_binding_equal (osl_operation s) e action = true ∧ o = Some (osl_operation s)) ∨
    (∃ impl', st' = holds impl' ∧ submitted impl1 e action document size now impl' ∧
       o = Some (submit_operation e action now))
  else st' = holds impl ∨ st' = holds impl1.
Proof.
  intros Hok He [Hsz Hdoc] impl1. pose proof (sweep_ok impl Hok now) as Hok1. fold impl1 in Hok1.
  cbn [mesh_control_state_submit_document_v1 cst_impl]. fold impl1. branch E1; [refused|].
  bool_prop. destruct (find_request impl1 (ce_request_id e)) as [[oi0 s0]|] eqn:Efr.
  { branch E2; bool_prop; [refused|]. left. eauto 10. }
  branch E3; [refused|]. branch E4; [refused|]. branch E5; [refused|]. branch E6; [refused|].
  branch E7; [refused|]. branch E8; [refused|].
  apply orb_false_iff in E5 as [E5r E5o]. apply negb_false_iff in E5o.
  unfold non_null in E5o. apply bool_decide_eq_true in E5o as [[oi o] Eo].
  pose proof (find_slot_Some _ _ _ _ Eo) as [Ho Hfree].
  apply negb_false_iff in E6. unfold mutation_with_event_available in E6. bool_prop.
  assert (Hcfg := io_config _ Hok1). destruct Hcfg. unfold uint in Hsz.
  assert (Hact : action = MESH_CONTROL_DESIRED_APPLY ∨ action = MESH_CONTROL_DESIRED_DELETE).
  { destruct (Z.eqb_spec action MESH_CONTROL_DESIRED_APPLY); [by left|].
    destruct (Z.eqb_spec action MESH_CONTROL_DESIRED_DELETE); [by right|done]. }
  assert (Hval : mesh_control_envelope_validate_v1 (Some e) = MESH_CONTROL_OK)
    by (by destruct (mesh_control_envelope_validate_v1 (Some e))).
  assert (Hnn : size = 0 ∨ is_Some document).
  { destruct (Z.eqb_spec size 0); [by left|]. right. destruct document; [done|]. by destruct size. }
  assert (Hbudget : ∀ i x p, im_resources impl1 !! i = Some x →
    negb p && (wrap 64 (sc_desired_document_retained_bytes (im_config impl1) - size) <?
      wrap 64 (im_retained_document_bytes impl1 - rsl_desired_document_size x)) = false →
    p = true ∨ im_retained_document_bytes impl1 - rsl_desired_document_size x + size <=
      sc_desired_document_retained_bytes (im_config impl1)).
  { intros i x [|] Hx; [by left|]. cbn [negb andb]. intros Hw%Z.ltb_ge. right.
    pose proof (resource_size_at _ Hok1 _ _ Hx). pose proof (io_budget _ Hok1).
    rewrite !wrap_small in Hw by (unfold uint; lia). lia. }
  rewrite Eo. cbn [deref fst].
  destruct (find_resource impl1 (ce_resource_kind e) (ce_resource_id e)) as [[ri x]|] eqn:Er.
  - pose proof (find_slot_Some _ _ _ _ Er) as [Hx Hkx].
    assert (Hxo : rsl_occupied x = true) by (unfold resource_is in Hkx; by destruct (rsl_occupied x)).
    cbn [control_ok]. right. eexists. split_and!; [done| |done].
    assert (Hnr : non_null (Some (ri, x)) = rsl_occupied x) by by rewrite Hxo.
    rewrite Hnr in *. bool_prop. eapply submitted_intro; try done; [left|lia|].
    + split_and!; [done..|lia|lia].
    + by eapply Hbudget.
  - cbn [non_null is_Some] in E5r.
    destruct (find_slot (λ r, negb (rsl_occupied r)) (im_resources impl1)) as [[ri x]|] eqn:Ef;
      [|done].
    pose proof (find_slot_Some _ _ _ _ Ef) as [Hx Hkx]. apply negb_true_iff in Hkx.
    assert (Hzx : x = zero_resource_slot).
    { pose proof (resource_slot_at _ Hok1 _ _ Hx) as Hz. unfold resource_slot_ok in Hz.
      by rewrite Hkx in Hz. }
    cbn [deref fst control_ok]. right. eexists. split_and!; [done| |done].
    assert (Hnr : non_null (None (A := nat * mesh_control_resource_slot)) = rsl_occupied x)
      by by rewrite Hkx.
    rewrite Hnr in *. bool_prop.
    replace 0 with (rsl_desired_document_size x) at 3 by (by rewrite Hzx).
    eapply submitted_intro; try done; [right|lia|].
    + done.
    + eapply Hbudget; [done|]. by rewrite Hzx in *.
Qed.

Lemma intent_valid e : envelope_typed e → ce_kind e = MESH_CONTROL_MESSAGE_INTENT →
  mesh_control_envelope_validate_v1 (Some e) = MESH_CONTROL_OK →
  nonzero_bytes 16 (ce_message_id e) ∧ resource_kind_valid (ce_resource_kind e) = true ∧
  nonzero_bytes 32 (ce_resource_id e) ∧ 0 < ce_epoch e < 2 ^ 64.
Proof.
  intros (Hm & _ & Hr & _ & He & _) Hk H. unfold mesh_control_envelope_validate_v1 in H.
  rewrite Hk in H. change (MESH_CONTROL_MESSAGE_INTENT =? MESH_CONTROL_MESSAGE_HELLO) with false in H.
  cbn [negb andb] in H. repeat (step_in H; [done|]). bool_prop.
  split_and!; [by apply nonzero_bytes_spec|done|by apply nonzero_bytes_spec| |]; unfold uint in He;
    bool_prop; lia.
Qed.

(** The slot a submission writes is well formed. *)
Lemma submit_resource_ok c e action document size preserve slot : config_ok c → envelope_typed e →
  document_typed document size → ce_kind e = MESH_CONTROL_MESSAGE_INTENT →
  mesh_control_envelope_validate_v1 (Some e) = MESH_CONTROL_OK →
  action = MESH_CONTROL_DESIRED_APPLY ∨ action = MESH_CONTROL_DESIRED_DELETE →
  0 <= size <= sc_desired_document_max_bytes c → size = 0 ∨ is_Some document →
  resource_ok c slot ∧ rst_desired_epoch (rsl_status slot) < ce_epoch e ∨
    slot = fresh_resource_slot e →
  resource_ok c (submit_resource slot e action preserve
    (if size =? 0 then None else Some (take (Z.to_nat size) (deref [] document))) size).
Proof.
  intros Hc He [Hu Hd] Hk Hv Ha Hsz Hnn Hslot.
  destruct (intent_valid e He Hk Hv) as (Hm & Hrk & Hri & Hep).
  destruct He as (_ & _ & _ & Hdg & _ & _).
  assert (Hdoc : size = 0 ∧ (if size =? 0 then None else Some (take (Z.to_nat size) (deref [] document)))
      = None ∨ ∃ d, (if size =? 0 then None else Some (take (Z.to_nat size) (deref [] document)))
      = Some d ∧ size = len d ∧ d ≠ []).
  { destruct (Z.eqb_spec size 0); [by left|]. right. destruct Hnn as [|[d ->]]; [done|].
    cbn [deref]. exists (take (Z.to_nat size) d). unfold len in *. split_and!; [done| |].
    - rewrite length_take. lia.
    - intros E. apply (f_equal length) in E. rewrite length_take in E. cbn in E. lia. }
  assert (Hpres : presence_valid (if action =? MESH_CONTROL_DESIRED_APPLY
    then MESH_CONTROL_PRESENCE_PRESENT else MESH_CONTROL_PRESENCE_ABSENT) = true)
    by (by destruct (action =? MESH_CONTROL_DESIRED_APPLY)).
  destruct Hslot as [[[] Hlt] | ->].
  - split; cbn [submit_resource rsl_status rsl_desired_document rsl_desired_document_size
      rst_resource_kind rst_resource_id rst_desired_epoch rst_observed_epoch rst_desired_presence
      rst_observed_presence rst_desired_digest rst_observed_digest]; try done; try lia.
    + by destruct (action =? MESH_CONTROL_DESIRED_APPLY).
    + destruct ro_digests0. split; [|done]. destruct (action =? MESH_CONTROL_DESIRED_APPLY);
        auto with mesh.
    + by destruct preserve.
    + by destruct preserve.
  - split; cbn [submit_resource fresh_resource_slot rsl_status rsl_desired_document
      rsl_desired_document_size rst_resource_kind rst_resource_id rst_desired_epoch
      rst_observed_epoch rst_desired_presence rst_observed_presence rst_desired_digest
      rst_observed_digest]; try done; try lia.
    + by destruct (action =? MESH_CONTROL_DESIRED_APPLY).
    + split; [|auto with mesh]. destruct (action =? MESH_CONTROL_DESIRED_APPLY); auto with mesh.
    + by right.
    + destruct preserve; [by left|done].
    + destruct preserve; [|done]. destruct Hc. lia.
Qed.

Lemma submitted_ok impl e action document size now impl' : impl_ok impl → envelope_typed e →
  document_typed document size → submitted impl e action document size now impl' → impl_ok impl'.
Proof.
  intros Hok He Hd [ri oi x slot o Hv Hk Ha Hreq Hnow Hfr Hx Hcase Ho Hof Hg Hc Hsz Hnn preserve Hb].
  pose proof (intent_valid e He Hk Hv) as (Hm & Hrk & Hri & Hep).
  set (copy := if size =? 0 then None else Some _). unfold submit_commit.
  set (y := submit_resource slot e action preserve copy size).
  set (op := submit_operation e action now).
  assert (Hxs := resource_slot_at _ Hok _ _ Hx). unfold resource_slot_ok in Hxs.
  assert (Hy : resource_ok (im_config impl) y).
  { eapply submit_resource_ok; try done; [apply (io_config _ Hok)|].
    destruct Hcase as [(_ & -> & Hxo & _ & Hlt)|(_ & _ & -> & _)]; [left|by right].
    by rewrite Hxo in Hxs. }
  assert (Hyo : rsl_occupied y = true).
  { destruct Hcase as [(_ & -> & Hxo & _ & _)|(_ & _ & -> & _)]; done. }
  assert (Hky : rkey y = (ce_resource_kind e, ce_resource_id e)).
  { destruct Hcase as [(Hf & -> & Hxo & _ & _)|(_ & _ & -> & _)]; [|done].
    rewrite find_resource_key in Hf by (done || apply Hri).
    by apply find_slot_Some in Hf as [_ [_ Hf]%slot_key_true]. }
  pose proof (resource_size_at _ Hok _ _ Hx) as Hxsz. pose proof (io_budget _ Hok) as Hbud.
  destruct (io_config _ Hok).
  set (n := if preserve then _ else _).
  assert (Hpres : preserve = true → rsl_occupied x = true ∧ slot = x).
  { subst preserve. intros Hp. bool_prop. split; [done|]. naive_solver congruence. }
  assert (Hn : n = im_retained_document_bytes impl - rsl_desired_document_size x +
                   rsl_desired_document_size y).
  { subst n y. cbn [submit_resource rsl_desired_document_size]. destruct preserve eqn:Ep.
    - destruct (Hpres eq_refl) as [_ ->]. lia.
    - rewrite wrap_small; [lia|]. destruct Hb; [done|]. unfold uint. lia. }
  assert (H1 : impl_ok (set_im_retained n (set_im_resources (<[ri:=y]> (im_resources impl)) impl))).
  { eapply write_resource_ok; [done..| | |exact Hn|].
    - intros Hxo. destruct Hcase as [(Hf & -> & _ & _ & Hlt)|(_ & Hxf & _ & _)]; [|congruence].
      split; [done|]. cbn [y submit_resource rsl_status rst_desired_epoch]. lia.
    - intros Hxo. destruct Hcase as [(_ & _ & Hxo' & _)|(Hf & _ & _ & _)]; [congruence|].
      rewrite Hky, <- find_resource_key by (done || apply Hri). done.
    - subst n y. destruct preserve eqn:Ep; [lia|]. destruct Hb; [done|].
      rewrite wrap_small; [lia|]. unfold uint; lia. }
  assert (Hop : operation_ok op 0).
  { destruct He as (? & ? & ? & ? & ? & ?). split; try done. by apply nonzero_bytes_spec. }
  set (impl1 := set_im_retained _ _) in *.
  assert (Hbd : bound_in (im_resources impl1) (ce_resource_kind e) (ce_resource_id e) (ce_epoch e)).
  { exists ri, y. subst impl1. cbn [set_im_retained set_im_resources im_resources].
    rewrite list_lookup_insert_eq by (by eapply lookup_lt_Some).
    split_and!; [done..|]. cbn [y submit_resource rsl_status rst_desired_epoch]. lia. }
  assert (H2 : impl_ok (set_im_operations (<[oi:=mk_operation_slot true 0 op]> (im_operations impl)) impl1)).
  { eapply (write_operation_ok impl1 H1 oi o); [done|by split|congruence|].
    intros _ _. rewrite <- (find_request_key impl Hok) in *; [done|].
    destruct He as (_ & Hq & _). apply Hq. }
  apply next_generation_ok; [|by rewrite append_event_generation].
  apply append_event_ok; [done|done|]. destruct Hop. split; try done. apply Hep.
Qed.

(** ** Operations that make progress *)

Lemma saturating_add_pos a b : 0 <= a → 0 < b → saturating_add a b ≠ 0.
Proof. intros. unfold saturating_add, UINT64_MAX. case_match; lia. Qed.

Lemma transition_live from to : mesh_control_operation_transition_allowed_v1 from to = true →
  from ≠ to → operation_state_valid to = true ∧
  mesh_control_operation_state_is_terminal_v1 from = false.
Proof.
  unfold mesh_control_operation_transition_allowed_v1. intros H Hne. step_in H; [done|].
  bool_prop. destruct (Z.eqb_spec from to); [done|]. by step_in H.
Qed.

(** The expiry a change of an operation to [next] sets. *)
Definition next_expiry (c : mesh_control_state_config) (slot : mesh_control_operation_slot)
    (next now : Z) : Z :=
  if mesh_control_operation_state_is_terminal_v1 next
  then saturating_add now (sc_terminal_retention_ms c) else osl_terminal_expires_at_ms slot.

Lemma advance_ok impl oi slot next now : impl_ok impl → im_operations impl !! oi = Some slot →
  osl_occupied slot = true → operation_state_valid next = true → u64 now →
  mesh_control_operation_state_is_terminal_v1 (co_state (osl_operation slot)) = false →
  im_next_cursor impl ≠ UINT64_MAX →
  let slot' := advance_operation slot next now (next_expiry (im_config impl) slot next now) in
  impl_ok (append_event (set_im_operations (<[oi:=slot']> (im_operations impl)) impl)
             (osl_operation slot') now).
Proof.
  intros Hok Hoi Hocc Hval Hnow Hlive Hcur slot'.
  pose proof (operation_slot_at _ Hok _ _ Hoi) as Hs. unfold operation_slot_ok in Hs.
  rewrite Hocc in Hs. destruct Hs as [[] Hbd]. rewrite Hlive in oo_terminal0.
  assert (Hop : operation_ok (osl_operation slot') (osl_terminal_expires_at_ms slot')).
  { split; try done. cbn [slot' advance_operation osl_operation co_state osl_terminal_expires_at_ms].
    unfold next_expiry. destruct (mesh_control_operation_state_is_terminal_v1 next); [|done].
    destruct (io_config _ Hok). unfold uint in Hnow. apply saturating_add_pos; lia. }
  apply append_event_ok; [|done|].
  - eapply write_operation_ok; [done..| | |].
    + unfold operation_slot_ok. cbn [slot' advance_operation osl_occupied]. by rewrite Hocc.
    + done.
    + congruence.
  - split; try done. cbn. lia.
Qed.

(** A change of one live operation to another state. *)
Inductive advanced (impl : mesh_control_state_impl) (id : bytes) (next now : Z) :
    mesh_control_state_impl → Prop :=
  | advanced_intro oi slot :
      im_operations impl !! oi = Some slot → osl_occupied slot = true →
      co_operation_id (osl_operation slot) = id →
      mesh_control_operation_transition_allowed_v1 (co_state (osl_operation slot)) next = true →
      co_state (osl_operation slot) ≠ next →
      im_snapshot_generation impl ≠ UINT64_MAX → im_next_cursor impl ≠ UINT64_MAX →
      let slot' := advance_operation slot next now (next_expiry (im_config impl) slot next now) in
      advanced impl id next now
        (next_generation (append_event
           (set_im_operations (<[oi:=slot']> (im_operations impl)) impl) (osl_operation slot') now)).

Lemma transition_exec impl id next now : impl_ok impl → length id = 16%nat →
  let '(r, st') := mesh_control_state_transition_operation_v1 (holds impl) (Some id) next now in
  st' = holds impl ∨ r = MESH_CONTROL_OK ∧ ∃ impl', st' = holds impl' ∧ advanced impl id next now impl'.
Proof.
  intros Hok Hid. cbn [mesh_control_state_transition_operation_v1 cst_impl].
  branch E1; [by left|]. destruct (find_operation impl id) as [[oi slot]|] eqn:Ef; [|by left].
  branch E2; [by left|]. branch E3; [by left|]. branch E4; [by left|]. right. split; [done|].
  apply find_slot_Some in Ef as [Hoi Hm]. unfold mutation_with_event_available in E4.
  bool_prop. eexists. split; [done|]. apply advanced_intro; try done.
  pose proof (operation_slot_at _ Hok _ _ Hoi) as Hs. unfold operation_slot_ok in Hs.
  rewrite H in Hs. rewrite memeq_spec in H0; [by bool_prop|apply Hs|done].
Qed.

Lemma advanced_ok impl id next now impl' : impl_ok impl → u64 now →
  advanced impl id next now impl' → impl_ok impl'.
Proof.
  intros Hok Hnow [oi slot Hoi Hocc Hid Hall Hne Hg Hc slot'].
  destruct (transition_live _ _ Hall Hne).
  apply next_generation_ok; [by apply advance_ok|].
  by rewrite append_event_generation.
Qed.

(** The operation an observation completes, if it brings the resource to its desired state. *)
Definition completion (impl : mesh_control_state_impl) (x : mesh_control_resource_slot)
    (epoch presence : Z) (digest : bytes) : option (nat * mesh_control_operation_slot) :=
  if (epoch =? rst_desired_epoch (rsl_status x)) && (presence =? rst_desired_presence (rsl_status x)) &&
     bool_decide (digest = rst_desired_digest (rsl_status x))
  then find_slot (completed_by (rst_resource_kind (rsl_status x)) (rst_resource_id (rsl_status x)) epoch)
         (im_operations impl)
  else None.

Definition record_completion (impl : mesh_control_state_impl)
    (m : option (nat * mesh_control_operation_slot)) (now : Z) : mesh_control_state_impl :=
  match m with
  | None => impl
  | Some (oi, slot) =>
      let slot' := advance_operation slot MESH_CONTROL_OPERATION_SUCCEEDED now
        (next_expiry (im_config impl) slot MESH_CONTROL_OPERATION_SUCCEEDED now) in
      append_event (set_im_operations (<[oi:=slot']> (im_operations impl)) impl)
        (osl_operation slot') now
  end.

Inductive observed (impl : mesh_control_state_impl) (kind : Z) (id : bytes) (epoch presence : Z)
    (digest : bytes) (now : Z) : mesh_control_state_impl → Prop :=
  | observed_intro ri x :
      im_resources impl !! ri = Some x → rsl_occupied x = true → rkey x = (kind, id) →
      0 < epoch → rst_observed_epoch (rsl_status x) <= epoch <= rst_desired_epoch (rsl_status x) →
      coherent presence digest → im_snapshot_generation impl ≠ UINT64_MAX →
      (is_Some (completion impl x epoch presence digest) → im_next_cursor impl ≠ UINT64_MAX) →
      let impl1 := set_im_resources
        (<[ri := observe_resource x epoch presence digest]> (im_resources impl)) impl in
      observed impl kind id epoch presence digest now
        (next_generation (record_completion impl1 (completion impl x epoch presence digest) now)).

Lemma observe_exec impl kind id epoch presence digest now : impl_ok impl → bytes_ok 32 id →
  bytes_ok 32 digest → u64 epoch →
  let '(r, st') := mesh_control_state_observe_v1 (holds impl) kind (Some id) epoch presence
                     (Some digest) now in
  st' = holds impl ∨
  r = MESH_CONTROL_OK ∧ ∃ impl', st' = holds impl' ∧ observed impl kind id epoch presence digest now impl'.
Proof.
  intros Hok Hid Hdg Hep. cbn [mesh_control_state_observe_v1 cst_impl].
  rewrite (take_ge id), (take_ge digest) by (rewrite (bytes_ok_length 32) by done; done).
  branch E1; [by left|].
  destruct (find_resource impl kind id) as [[ri x]|] eqn:Ef; [|by left].
  branch E2; [by left|]. branch E3; [by left|].
  rewrite find_resource_key in Ef by (done || apply Hid).
  apply find_slot_Some in Ef as [Hri [Hocc Hk]%slot_key_true].
  pose proof (resource_slot_at _ Hok _ _ Hri) as Hx. unfold resource_slot_ok in Hx.
  rewrite Hocc in Hx.
  assert (Hm : (if (epoch =? rst_desired_epoch (rsl_status x)) &&
      (presence =? rst_desired_presence (rsl_status x)) &&
      memeq MESH_CONTROL_DIGEST_SIZE digest (rst_desired_digest (rsl_status x))
      then find_slot (completed_by kind id epoch) (im_operations impl) else None) =
    completion impl x epoch presence digest).
  { unfold completion, rkey in *. injection Hk as -> ->.
    rewrite memeq_spec by (apply Hdg || apply Hx). done. }
  rewrite Hm. branch E4; [by left|]. right. split; [done|]. bool_prop. unfold uint in Hep.
  eexists. split; [done|].
  apply (observed_intro impl kind id epoch presence digest now ri x); try done; try lia.
  - unfold coherent. rewrite (control_bytes_zero_spec 32) in * by done.
    destruct (Z.eqb_spec presence MESH_CONTROL_PRESENCE_PRESENT) as [->|]; [left|right].
    + split; [done|]. intros ->. by rewrite bool_decide_true in *.
    + destruct (Z.eqb_spec presence MESH_CONTROL_PRESENCE_ABSENT); [|done]. split; [done|].
      cbn in *. bool_prop. done.
  - intros [p Hp]. rewrite Hp in *. cbn in *. bool_prop. done.
Qed.

Lemma completion_live impl x epoch presence digest oi slot :
  completion impl x epoch presence digest = Some (oi, slot) →
  im_operations impl !! oi = Some slot ∧ osl_occupied slot = true ∧
  mesh_control_operation_state_is_terminal_v1 (co_state (osl_operation slot)) = false.
Proof.
  unfold completion. case_match; [|done]. intros [Hoi Hm]%find_slot_Some.
  unfold completed_by in Hm. bool_prop. done.
Qed.

Lemma observed_ok impl kind id epoch presence digest now impl' : impl_ok impl → u64 now →
  bytes_ok 32 digest → observed impl kind id epoch presence digest now impl' → impl_ok impl'.
Proof.
  intros Hok Hnow Hdg [ri x Hri Hocc Hk Hpos Hep Hco Hg Hc impl1].
  pose proof (resource_slot_at _ Hok _ _ Hri) as Hx. unfold resource_slot_ok in Hx.
  rewrite Hocc in Hx.
  assert (Hy : resource_ok (im_config impl) (observe_resource x epoch presence digest)).
  { destruct Hx. split; try done. cbn. lia. by destruct ro_digests0. }
  assert (H1 : impl_ok impl1).
  { eapply (write_resource_ok impl Hok ri x _ (im_retained_document_bytes impl)) in Hy; try done.
    - congruence.
    - cbn. lia.
    - apply (io_budget _ Hok). }
  apply next_generation_ok; unfold record_completion;
    destruct (completion impl x epoch presence digest) as [[oi slot]|] eqn:Ec; try done.
  - destruct (completion_live _ _ _ _ _ _ _ Ec) as (Hoi & Hso & Hl).
    apply (advance_ok impl1); try done. by apply Hc.
  - by rewrite append_event_generation.
Qed.

(** ** Sequences of calls *)

Inductive control_command : Type :=
  | CmdSubmit (alloc_ok : bool) (e : mesh_control_envelope) (action : Z) (document : option bytes)
      (document_size now : Z)
  | CmdTransition (id : bytes) (next now : Z)
  | CmdObserve (kind : Z) (id : bytes) (epoch presence : Z) (digest : bytes) (now : Z)
  | CmdSweep (now : Z).

Definition command_typed (c : control_command) : Prop :=
  match c with
  | CmdSubmit _ e _ document size now => envelope_typed e ∧ document_typed document size ∧ u64 now
  | CmdTransition id _ now => length id = 16%nat ∧ u64 now
  | CmdObserve _ id epoch _ digest now =>
      bytes_ok 32 id ∧ bytes_ok 32 digest ∧ u64 epoch ∧ u64 now
  | CmdSweep now => u64 now
  end.
#[export] Instance control_command_typed_dec c : Decision (command_typed c).
Proof. destruct c; cbn; apply _. Defined.

Definition control_exec (c : control_command) (st : option mesh_control_state) :
    mesh_control_result * option mesh_control_state :=
  match c with
  | CmdSubmit alloc_ok e action document size now =>
      fst (mesh_control_state_submit_document_v1 alloc_ok st (Some e) action document size now
             (Some zero_operation))
  | CmdTransition id next now => mesh_control_state_transition_operation_v1 st (Some id) next now
  | CmdObserve kind id epoch presence digest now =>
      mesh_control_state_observe_v1 st kind (Some id) epoch presence (Some digest) now
  | CmdSweep now => (MESH_CONTROL_OK, snd (mesh_control_state_sweep_v1 st now))
  end.

Definition control_run (cs : list control_command) (st : option mesh_control_state) :
    option mesh_control_state :=
  foldl (λ st c, snd (control_exec c st)) st cs.

(** The effect of one call. *)
Inductive control_step (impl : mesh_control_state_impl) :
    control_command → mesh_control_result → mesh_control_state_impl → Prop :=
  | step_same c r : control_step impl c r impl
  | step_swept_submit r alloc_ok e action document size now :
      control_step impl (CmdSubmit alloc_ok e action document size now) r
        (snd (sweep_impl impl now))
  | step_swept now : control_step impl (CmdSweep now) MESH_CONTROL_OK (snd (sweep_impl impl now))
  | step_submitted alloc_ok e action document size now impl' :
      submitted (snd (sweep_impl impl now)) e action document size now impl' →
      control_step impl (CmdSubmit alloc_ok e action document size now) MESH_CONTROL_OK impl'
  | step_advanced id next now impl' : advanced impl id next now impl' →
      control_step impl (CmdTransition id next now) MESH_CONTROL_OK impl'
  | step_observed kind id epoch presence digest now impl' :
      observed impl kind id epoch presence digest now impl' →
      control_step impl (CmdObserve kind id epoch presence digest now) MESH_CONTROL_OK impl'.

Lemma exec_step c impl : impl_ok impl → command_typed c →
  ∃ r impl', control_exec c (holds impl) = (r, holds impl') ∧ control_step impl c r impl'.
Proof.
  intros Hok Hc. destruct c as [a e act d n now|id next now|k id ep pr dg now|now]; cbn [control_exec].
  - destruct Hc as (He & Hd & Hnow).
    pose proof (submit_exec a impl e act d n now zero_operation Hok He Hd) as H. cbv zeta in H.
    destruct (mesh_control_state_submit_document_v1 _ _ _ _ _ _ _ _) as [[r st'] o].
    cbn [fst]. exists r. destruct (control_ok r) eqn:Er.
    + destruct r; try done. destruct H as [[-> _]|(impl' & -> & H & _)]; eexists; (split; [done|]).
      * apply step_swept_submit.
      * by apply step_submitted.
    + destruct H as [-> | ->]; eexists; (split; [done|]); constructor.
  - destruct Hc as [Hid Hnow]. pose proof (transition_exec impl id next now Hok Hid) as H.
    destruct (mesh_control_state_transition_operation_v1 _ _ _ _) as [r st']. exists r.
    destruct H as [-> | (-> & impl' & -> & H)]; eexists; (split; [done|]); by constructor.
  - destruct Hc as (Hid & Hdg & Hep & Hnow).
    pose proof (observe_exec impl k id ep pr dg now Hok Hid Hdg Hep) as H.
    destruct (mesh_control_state_observe_v1 _ _ _ _ _ _ _) as [r st']. exists r.
    destruct H as [-> | (-> & impl' & -> & H)]; eexists; (split; [done|]); by constructor.
  - unfold mesh_control_state_sweep_v1. cbn [cst_impl].
    destruct (sweep_impl impl now) as [n impl'] eqn:E. cbn [snd].
    exists MESH_CONTROL_OK, impl'. split; [done|].
    replace impl' with (snd (sweep_impl impl now)) by (by rewrite E). constructor.
Qed.

Lemma step_ok c impl r impl' : impl_ok impl → command_typed c → control_step impl c r impl' →
  impl_ok impl'.
Proof.
  intros Hok Hc H. destruct H; cbn in Hc; try done; try by apply sweep_ok.
  - destruct Hc as (He & Hd & Hnow). eapply submitted_ok; [by apply sweep_ok|done..].
  - eapply advanced_ok; [done| |done]. apply Hc.
  - destruct Hc as (? & ? & ? & ?). by eapply observed_ok.
Qed.

Lemma run_ok cs impl : impl_ok impl → Forall command_typed cs →
  ∃ impl', control_run cs (holds impl) = holds impl' ∧ impl_ok impl'.
Proof.
  intros Hok Hcs. revert impl Hok. induction Hcs as [|c cs Hc Hcs IH]; intros impl Hok; [by exists impl|].
  cbn [control_run foldl]. destruct (exec_step c impl Hok Hc) as (r & impl1 & -> & Hs).
  apply IH. by eapply step_ok.
Qed.

(** A configuration of 64-bit fields. *)
Definition config_typed (c : mesh_control_state_config) : Prop :=
  u64 (sc_resource_capacity c) ∧ u64 (sc_operation_capacity c) ∧ u64 (sc_event_capacity c) ∧
  u64 (sc_terminal_retention_ms c) ∧ u64 (sc_desired_document_max_bytes c) ∧
  u64 (sc_desired_document_retained_bytes c).
#[export] Instance config_typed_dec c : Decision (config_typed c).
Proof. unfold config_typed. apply _. Defined.

Lemma doc_total_zero n : doc_total (replicate n zero_resource_slot) = 0.
Proof. induction n; simpl; lia. Qed.

Lemma init_ok alloc_ok c st : config_typed c →
  mesh_control_state_init_v1 alloc_ok (Some (mk_control_state None)) (Some c) =
    (MESH_CONTROL_OK, st) →
  ∃ impl, st = holds impl ∧ impl_ok impl ∧ im_config impl = c ∧ im_next_cursor impl = 1 ∧
    ring_list impl = [] ∧ im_event_count impl = 0.
Proof.
  intros (? & ? & ? & ? & ? & ?) Hi. unfold mesh_control_state_init_v1 in Hi. cbn [cst_impl] in Hi.
  change (non_null None) with false in Hi. unfold uint in *.
  step_in Hi; [done|]. bool_prop. step_in Hi; [done|]. injection Hi as <-.
  unfold MESH_CONTROL_STATE_MAX_RESOURCES_V1, MESH_CONTROL_STATE_MAX_OPERATIONS_V1,
    MESH_CONTROL_STATE_MAX_EVENTS_V1, MESH_CONTROL_STATE_MAX_DESIRED_DOCUMENT_SIZE_V1,
    MESH_CONTROL_MAX_FRAME_SIZE_V1, MESH_CONTROL_STATE_MAX_RETAINED_DOCUMENT_BYTES_V1,
    MESH_CONTROL_OUTBOX_MAX_RETAINED_BYTES_V1 in *.
  eexists. split; [done|]. split; [|done].
  split; cbn [im_config im_resources im_operations im_events im_event_count im_next_cursor
    im_snapshot_generation im_retained_document_bytes]; rewrite ?length_replicate; try done; try lia.
  - split; lia.
  - by apply Forall_replicate.
  - by apply Forall_replicate.
  - by apply slots_unique_replicate.
  - by apply slots_unique_replicate.
  - by rewrite doc_total_zero.
  - split; cbn [im_config im_events im_event_head im_event_count]; rewrite ?length_replicate; lia.
Qed.

(** ** What a call does to resources, operations and the event log *)

Definition resource_map (impl : mesh_control_state_impl) : gmap (Z * bytes) mesh_control_resource_slot :=
  slot_map rsl_occupied rkey (im_resources impl).
Definition operation_map (impl : mesh_control_state_impl) : gmap bytes mesh_control_operation_slot :=
  slot_map osl_occupied okey (im_operations impl).

(** The desired part of a resource. *)
Definition desired (s : mesh_control_resource_slot) : Z * Z * bytes * option bytes * Z :=
  (rst_desired_epoch (rsl_status s), rst_desired_presence (rsl_status s),
   rst_desired_digest (rsl_status s), rsl_desired_document s, rsl_desired_document_size s).
(** The observed part of a resource. *)
Definition observation (s : mesh_control_resource_slot) : Z * Z * bytes :=
  (rst_observed_epoch (rsl_status s), rst_observed_presence (rsl_status s),
   rst_observed_digest (rsl_status s)).
(** The desired epoch of a resource that may not exist yet. *)
Definition epoch_of (s : option mesh_control_resource_slot) : Z :=
  default 0 (rst_desired_epoch ∘ rsl_status <$> s).

Lemma sweep_frame impl now : let impl' := snd (sweep_impl impl now) in
  im_config impl' = im_config impl ∧ im_resources impl' = im_resources impl ∧
  ring_list impl' = ring_list impl ∧ im_next_cursor impl' = im_next_cursor impl ∧
  im_event_count impl' = im_event_count impl.
Proof. unfold sweep_impl. case_match; [done|]. cbn [snd]. by case_match. Qed.

Lemma sweep_keeps impl now i s : im_operations impl !! i = Some s → sweepable now s = false →
  im_operations (snd (sweep_impl impl now)) !! i = Some s.
Proof.
  intros Hi Hs. unfold sweep_impl. destruct (im_snapshot_generation impl =? UINT64_MAX); [done|].
  cbn [snd]. set (l := _ <$> im_operations impl).
  assert (l !! i = Some s) by (subst l; rewrite list_lookup_fmap, Hi; cbn; by rewrite Hs).
  by case_match.
Qed.

Lemma sweep_operations impl now rid s : impl_ok impl →
  operation_map (snd (sweep_impl impl now)) !! rid = Some s → operation_map impl !! rid = Some s.
Proof.
  intros Hok. unfold operation_map.
  rewrite !slot_map_lookup by (apply io_ounique; [by apply sweep_ok||done]).
  intros (i & Hi & Ho & Hk). exists i. split_and!; [|done..].
  unfold sweep_impl in Hi. destruct (_ =? UINT64_MAX); [done|]. cbn [snd] in Hi.
  assert (Hi' : ((λ slot, if sweepable now slot then zero_operation_slot else slot)
    <$> im_operations impl) !! i = Some s) by (by destruct (_ =? 0)).
  rewrite list_lookup_fmap in Hi'. apply fmap_Some in Hi' as (s' & Hs' & ->).
  by destruct (sweepable now s').
Qed.

Lemma submitted_resources impl e action document size now impl' : impl_ok impl → envelope_typed e →
  submitted impl e action document size now impl' →
  let k := (ce_resource_kind e, ce_resource_id e) in
  let old := resource_map impl !! k in
  ce_precondition_epoch e = epoch_of old ∧ epoch_of old < ce_epoch e ∧
  ∃ preserve copy, resource_map impl' = <[k := submit_resource (default (fresh_resource_slot e) old) e
    action preserve copy size]> (resource_map impl).
Proof.
  intros Hok He [ri oi x slot o Hv Hk Ha Hreq Hnow Hfr Hx Hcase Ho Hof Hg Hc Hsz Hnn preserve Hb] k old.
  destruct (intent_valid e He Hk Hv) as (Hm & Hrk & Hri & Hep).
  set (copy := if size =? 0 then None else Some _).
  assert (Hlk : old = snd <$> find_resource impl (ce_resource_kind e) (ce_resource_id e)).
  { unfold old, resource_map, k. rewrite find_resource_key by (done || apply Hri).
    apply slot_map_find, io_runique, Hok. }
  assert (Hres : im_resources (submit_commit impl ri oi slot e action preserve copy
      (rsl_desired_document_size x) size now) =
    <[ri := submit_resource slot e action preserve copy size]> (im_resources impl)).
  { unfold submit_commit. cbn [next_generation set_im_generation im_resources].
    by rewrite (proj1 (proj2 (append_event_frame _ _ _))). }
  unfold resource_map at 1. rewrite Hres.
  destruct Hcase as [(Hf & -> & Hxo & Hpre & Hlt)|(Hf & Hxo & -> & Hpre)];
    rewrite Hlk, Hf; cbn [fmap option_fmap option_map snd epoch_of default].
  - split_and!; [done..|]. exists preserve, copy.
    rewrite find_resource_key in Hf by (done || apply Hri).
    apply find_slot_Some in Hf as [_ [_ Hkx]%slot_key_true].
    replace k with (rkey (submit_resource x e action preserve copy size)) by done.
    eapply slot_map_insert; [apply io_runique, Hok|done|done|done|congruence].
  - split_and!; [done|cbn; lia|]. exists preserve, copy.
    replace k with (rkey (submit_resource (fresh_resource_slot e) e action preserve copy size)) by done.
    eapply slot_map_insert; [apply io_runique, Hok|done|done|congruence|]. intros _.
    rewrite find_resource_key in Hf by (done || apply Hri). done.
Qed.

Lemma observed_resources impl kind id epoch presence digest now impl' : impl_ok impl →
  observed impl kind id epoch presence digest now impl' →
  ∃ x, resource_map impl !! (kind, id) = Some x ∧
    rst_observed_epoch (rsl_status x) <= epoch <= rst_desired_epoch (rsl_status x) ∧
    resource_map impl' = <[(kind, id) := observe_resource x epoch presence digest]> (resource_map impl).
Proof.
  intros Hok [ri x Hri Hocc Hk Hpos Hep Hco Hg Hc impl1]. exists x. unfold resource_map.
  split_and!; [|lia..|].
  - apply slot_map_lookup; [apply io_runique, Hok|]. eauto.
  - assert (Hres : im_resources (record_completion impl1 (completion impl x epoch presence digest) now) =
      <[ri := observe_resource x epoch presence digest]> (im_resources impl)).
    { unfold record_completion. destruct (completion _ _ _ _ _) as [[oi slot]|]; [|done].
      by rewrite (proj1 (proj2 (append_event_frame _ _ _))). }
    cbn [next_generation set_im_generation im_resources]. rewrite Hres, <- Hk.
    replace (rkey x) with (rkey (observe_resource x epoch presence digest)) by done.
    eapply slot_map_insert; [apply io_runique, Hok|done|done|done|congruence].
Qed.

Lemma advanced_resources impl id next now impl' : advanced impl id next now impl' →
  im_resources impl' = im_resources impl.
Proof.
  intros [oi slot Hoi Hocc Hid Hall Hne Hg Hc slot'].
  cbn [next_generation set_im_generation im_resources].
  by rewrite (proj1 (proj2 (append_event_frame _ _ _))).
Qed.

(** The operation one event stands for: created or moved to another state. *)
Record records_change (impl impl' : mesh_control_state_impl) (o : mesh_control_operation)
    (now : Z) : Prop := {
  rc_state : co_state ∘ osl_operation <$> operation_map impl !! co_request_id o ≠ Some (co_state o);
  rc_now : ∃ expires, operation_map impl' !! co_request_id o = Some (mk_operation_slot true expires o);
  rc_others : ∀ rid s, rid ≠ co_request_id o → operation_map impl' !! rid = Some s →
    operation_map impl !! rid = Some s;
  rc_cursor : im_next_cursor impl' = im_next_cursor impl + 1;
  rc_ring : ring_list impl' =
    (if im_event_count impl <? sc_event_capacity (im_config impl) then ring_list impl
     else drop 1 (ring_list impl)) ++ [operation_event (im_next_cursor impl) o now] }.

(** Nothing is recorded: no operation is created or changed. *)
Record records_nothing (impl impl' : mesh_control_state_impl) : Prop := {
  rn_operations : ∀ rid s, operation_map impl' !! rid = Some s → operation_map impl !! rid = Some s;
  rn_cursor : im_next_cursor impl' = im_next_cursor impl;
  rn_ring : ring_list impl' = ring_list impl }.

(** Writing one operation and recording its event. *)
Lemma write_records impl oi x y now : impl_ok impl → im_operations impl !! oi = Some x →
  osl_occupied y = true → im_next_cursor impl ≠ UINT64_MAX →
  (osl_occupied x = true → okey y = okey x ∧
     co_state (osl_operation x) ≠ co_state (osl_operation y)) →
  (osl_occupied x = false → find_slot (slot_key osl_occupied okey (okey y)) (im_operations impl) = None) →
  ∀ impl0, im_operations impl0 = im_operations impl → im_next_cursor impl0 = im_next_cursor impl →
    im_config impl0 = im_config impl → ring_shape impl0 → ring_list impl0 = ring_list impl →
    im_event_count impl0 = im_event_count impl →
  records_change impl
    (next_generation (append_event (set_im_operations (<[oi:=y]> (im_operations impl)) impl0)
       (osl_operation y) now)) (osl_operation y) now.
Proof.
  intros Hok Hoi Hy Hcur Hupd Hnew impl0 Eo Ec Ecf Hsh Er En.
  set (impl2 := set_im_operations _ impl0).
  destruct (append_event_frame impl2 (osl_operation y) now) as (_ & _ & Hop & _ & Hnc).
  assert (Hmap : operation_map (next_generation (append_event impl2 (osl_operation y) now)) =
    <[okey y := y]> (operation_map impl)).
  { unfold operation_map. cbn [next_generation set_im_generation im_operations]. rewrite Hop.
    cbn [impl2 set_im_operations im_operations].
    eapply slot_map_insert; [apply io_ounique, Hok|done|done|by intros ?; symmetry; apply Hupd|done]. }
  assert (Hlk : operation_map impl !! okey y = if osl_occupied x then Some x else None).
  { unfold operation_map. rewrite slot_map_find by apply io_ounique, Hok.
    destruct (osl_occupied x) eqn:Hx; [|by rewrite Hnew].
    destruct (Hupd eq_refl) as [-> _]. by rewrite (find_slot_unique _ _ _ oi x (io_ounique _ Hok)). }
  split; rewrite ?Hmap.
  - fold (okey y). rewrite Hlk. destruct (osl_occupied x) eqn:Hx; [|done]. cbn. intros [= E].
    by destruct (Hupd eq_refl).
  - fold (okey y). rewrite lookup_insert_eq. destruct y as [? ex op]. cbn in Hy. subst. by exists ex.
  - intros rid s Hne. fold (okey y) in Hne. by rewrite lookup_insert_ne.
  - cbn [next_generation set_im_generation im_next_cursor]. rewrite Hnc.
    cbn [impl2 set_im_operations im_next_cursor]. rewrite Ec, wrap_small; [done|].
    pose proof (io_cursor _ Hok). pose proof (rg_count _ (io_ring _ Hok)).
    unfold uint, UINT64_MAX in *. lia.
  - change (ring_list (next_generation (append_event impl2 (osl_operation y) now)))
      with (ring_list (append_event impl2 (osl_operation y) now)).
    assert (Hsh2 : ring_shape impl2) by (by destruct Hsh).
    rewrite (ring_append impl2 Hsh2). change (ring_list impl2) with (ring_list impl0).
    cbn [impl2 set_im_operations im_event_count im_next_cursor im_config]. by rewrite Er, Ec, En, Ecf.
Qed.

(** A request that is unknown after the sweep was not accepted before it. *)
Lemma sweep_unaccepted impl now rid : impl_ok impl →
  find_slot (slot_key osl_occupied okey rid) (im_operations (snd (sweep_impl impl now))) = None →
  co_state ∘ osl_operation <$> operation_map impl !! rid ≠ Some MESH_CONTROL_OPERATION_ACCEPTED.
Proof.
  intros Hok Hrq. destruct (operation_map impl !! rid) as [s|] eqn:Es; [|done].
  apply slot_map_lookup in Es as (i & Hi & Hso & Hks); [|apply io_ounique, Hok].
  cbn. intros [= Est]. rewrite find_slot_None in Hrq.
  assert (Hi1 : im_operations (snd (sweep_impl impl now)) !! i = Some s).
  { apply sweep_keeps; [done|]. unfold sweepable. by rewrite Est, Hso. }
  specialize (Hrq _ _ Hi1). unfold slot_key in Hrq. by rewrite Hso, bool_decide_true in Hrq.
Qed.

Lemma submitted_records impl e action document size now impl' : impl_ok impl → envelope_typed e →
  submitted (snd (sweep_impl impl now)) e action document size now impl' →
  ∃ o now', records_change impl impl' o now'.
Proof.
  intros Hok He H. pose proof (sweep_ok impl Hok now) as Hok1.
  destruct (sweep_frame impl now) as (Hcf & _ & Hr & Hn & Hct).
  destruct H as [ri oi x slot o Hv Hk Ha Hreq Hnw Hfr Hx Hcase Ho Hof Hg Hcur Hsz Hnn preserve Hb].
  set (impl1 := snd (sweep_impl impl now)) in *.
  exists (submit_operation e action now), now.
  assert (Hrq : find_slot (slot_key osl_occupied okey (ce_request_id e)) (im_operations impl1) = None).
  { rewrite <- (find_request_key impl1 Hok1); [done|]. destruct He as (_ & Hq & _). apply Hq. }
  set (copy := if size =? 0 then None else Some _).
  pose proof (write_records impl1 oi o (mk_operation_slot true 0 (submit_operation e action now)) now
    Hok1 Ho eq_refl Hcur ltac:(congruence) (λ _, Hrq)
    (set_im_retained (if preserve then im_retained_document_bytes impl1
      else wrap 64 (im_retained_document_bytes impl1 - rsl_desired_document_size x + size))
      (set_im_resources (<[ri := submit_resource slot e action preserve copy size]>
         (im_resources impl1)) impl1))
    eq_refl eq_refl eq_refl ltac:(by destruct (io_ring _ Hok1)) eq_refl eq_refl) as [].
  split.
  + by apply (sweep_unaccepted impl now).
  + done.
  + intros rid s Hne Hs. apply (sweep_operations impl now); [done|]. by apply rc_others0.
  + by rewrite <- Hn.
  + rewrite <- Hr, <- Hn, <- Hcf, <- Hct. done.
Qed.

Lemma step_records c impl r impl' : impl_ok impl → command_typed c → control_step impl c r impl' →
  records_nothing impl impl' ∨ ∃ o now, records_change impl impl' o now.
Proof.
  intros Hok Hc H. destruct H; cbn in Hc.
  - left. by split.
  - left. destruct (sweep_frame impl now) as (_ & _ & Hr & Hn & _). split; [|done..].
    intros rid s. by apply sweep_operations.
  - left. destruct (sweep_frame impl now) as (_ & _ & Hr & Hn & _). split; [|done..].
    intros rid s. by apply sweep_operations.
  - right. destruct Hc as (He & _). eapply submitted_records; done.
  - right. destruct H as [oi slot Hoi Hocc Hid Hall Hne Hg Hcur slot'].
    exists (osl_operation slot'), now.
    apply (write_records impl oi slot); try done; [congruence|apply (io_ring _ Hok)].
  - destruct H as [ri x Hri Hocc Hk Hpos Hep Hco Hg Hcur impl1]. unfold record_completion.
    destruct (completion impl x epoch presence digest) as [[oi slot]|] eqn:Ec; [right|by left].
    destruct (completion_live _ _ _ _ _ _ _ Ec) as (Hoi & Hso & Hl).
    eexists _, now. apply (write_records impl oi slot); try done; [by apply Hcur| |congruence|].
    + intros _. split; [done|]. intros E. cbn in E. rewrite E in Hl. done.
    + by destruct (io_ring _ Hok).
Qed.

(** ** The event log *)

(** The events a call has recorded: those with a cursor not given out before it. *)
Definition new_events (before after : option mesh_control_state) : list mesh_control_event :=
  match state_impl before, state_impl after with
  | Some b, Some a => filter (λ e, im_next_cursor b <= ev_cursor e) (ring_list a)
  | _, _ => []
  end.

(** All events a sequence of calls records, in order. *)
Fixpoint event_log (cs : list control_command) (st : option mesh_control_state) :
    list mesh_control_event :=
  match cs with
  | [] => []
  | c :: cs' =>
      let st' := snd (control_exec c st) in
      new_events st st' ++ event_log cs' st'
  end.

(** The ring holds the end of the log, and cursors number the log from 1. *)
Record log_ok (impl : mesh_control_state_impl) (log : list mesh_control_event) : Prop := {
  lo_cursor : im_next_cursor impl = Z.of_nat (length log) + 1;
  lo_count : im_event_count impl =
    Z.min (Z.of_nat (length log)) (sc_event_capacity (im_config impl));
  lo_ring : ring_list impl = drop (length log - length (ring_list impl)) log;
  lo_numbered : ∀ i e, log !! i = Some e → ev_cursor e = Z.of_nat i + 1 }.

Lemma step_config c impl r impl' : control_step impl c r impl' → im_config impl' = im_config impl.
Proof.
  assert (Hsw : ∀ now, im_config (snd (sweep_impl impl now)) = im_config impl)
    by (intros now; apply (sweep_frame impl now)).
  intros H. destruct H; try done; try apply Hsw; destruct H.
  - unfold submit_commit. cbn [next_generation set_im_generation im_config].
    rewrite (proj1 (append_event_frame _ _ _)). apply Hsw.
  - cbn [next_generation set_im_generation im_config]. by rewrite (proj1 (append_event_frame _ _ _)).
  - cbn [next_generation set_im_generation im_config]. unfold record_completion.
    destruct (completion _ _ _ _ _) as [[oi slot]|]; [|done].
    by rewrite (proj1 (append_event_frame _ _ _)).
Qed.

Lemma ring_events_old impl : impl_ok impl →
  Forall (λ e, ev_cursor e < im_next_cursor impl) (ring_list impl).
Proof.
  intros Hok. apply Forall_lookup. intros k e He. rewrite (io_cursors _ Hok _ _ He).
  apply lookup_lt_Some in He. rewrite ring_list_length in He. lia.
Qed.

Lemma step_new_events c impl r impl' : impl_ok impl → command_typed c → control_step impl c r impl' →
  let new := new_events (holds impl) (holds impl') in
  new = [] ∧ im_next_cursor impl' = im_next_cursor impl ∧ ring_list impl' = ring_list impl ∨
  ∃ e, new = [e] ∧ ev_cursor e = im_next_cursor impl ∧ im_next_cursor impl' = im_next_cursor impl + 1 ∧
    ring_list impl' = (if im_event_count impl <? sc_event_capacity (im_config impl)
      then ring_list impl else drop 1 (ring_list impl)) ++ [e].
Proof.
  intros Hok Hc Hs. pose proof (ring_events_old impl Hok) as Hold.
  assert (Hnone : ∀ l, Forall (λ e, ev_cursor e < im_next_cursor impl) l →
    filter (λ e, im_next_cursor impl <= ev_cursor e) l = []).
  { intros l Hl. induction Hl as [|e l He Hl IH]; [done|].
    by rewrite filter_cons_False by (cbn in He; lia). }
  cbn [new_events state_impl mbind option_bind cst_impl].
  destruct (step_records c impl r impl' Hok Hc Hs) as [[]|(o & now & [])].
  - left. rewrite rn_ring0. by rewrite Hnone.
  - right. exists (operation_event (im_next_cursor impl) o now). split; [|done].
    rewrite rc_ring0, filter_app, Hnone.
    + cbn [app]. rewrite filter_cons_True by (cbn; lia). done.
    + destruct (_ <? _); [done|]. by apply Forall_drop.
Qed.

Lemma log_ok_step impl impl' log new : impl_ok impl → impl_ok impl' → log_ok impl log →
  im_config impl' = im_config impl →
  new = [] ∧ im_next_cursor impl' = im_next_cursor impl ∧ ring_list impl' = ring_list impl ∨
  (∃ e, new = [e] ∧ ev_cursor e = im_next_cursor impl ∧ im_next_cursor impl' = im_next_cursor impl + 1 ∧
    ring_list impl' = (if im_event_count impl <? sc_event_capacity (im_config impl)
      then ring_list impl else drop 1 (ring_list impl)) ++ [e]) →
  log_ok impl' (log ++ new).
Proof.
  intros Hok Hok' [Hcur Hcnt Hring Hnum] Hcf Hnew.
  pose proof (ring_list_length impl) as Hl. pose proof (ring_list_length impl') as Hl'.
  destruct (io_ring _ Hok) as [Hcap _ _ Hc0]. destruct (io_ring _ Hok') as [_ _ _ Hc0'].
  destruct Hnew as [(-> & Hc & Hr)|(e & -> & He & Hc & Hr)].
  - rewrite app_nil_r. assert (im_event_count impl' = im_event_count impl) by (rewrite Hr in Hl'; lia).
    split; [by rewrite Hc|by rewrite Hcf; lia|by rewrite Hr|done].
  - assert (Hlen : length (ring_list impl') =
      (if im_event_count impl <? sc_event_capacity (im_config impl)
       then S (length (ring_list impl)) else length (ring_list impl))).
    { rewrite Hr, length_app. destruct (Z.ltb_spec (im_event_count impl) (sc_event_capacity (im_config impl)));
        rewrite ?length_drop; cbn [length]; lia. }
    assert (Hle : (length (ring_list impl) <= length log)%nat).
    { apply (f_equal length) in Hring. rewrite length_drop in Hring. lia. }
    split.
    + rewrite Hc, length_app. cbn [length]. lia.
    + rewrite length_app, Hcf. cbn [length].
      destruct (Z.ltb_spec (im_event_count impl) (sc_event_capacity (im_config impl))); lia.
    + rewrite Hlen, Hr, length_app. cbn [length].
      remember (length (ring_list impl)) as n eqn:En. rewrite Hring.
      destruct (Z.ltb_spec (im_event_count impl) (sc_event_capacity (im_config impl))).
      * rewrite drop_app_le by lia. do 2 f_equal. lia.
      * rewrite drop_drop, drop_app_le by lia. do 2 f_equal. lia.
    + intros i e' [Hi|[Hi E]]%lookup_app_Some; [by apply Hnum|].
      apply list_lookup_singleton_Some in E as [E <-]. rewrite He, Hcur. lia.
Qed.

Lemma run_log cs : ∀ impl log, impl_ok impl → log_ok impl log → Forall command_typed cs →
  ∃ impl', control_run cs (holds impl) = holds impl' ∧ impl_ok impl' ∧
    log_ok impl' (log ++ event_log cs (holds impl)).
Proof.
  induction cs as [|c cs IH]; intros impl log Hok Hlog Hcs; cbn [control_run foldl event_log].
  { exists impl. by rewrite app_nil_r. }
  apply Forall_cons in Hcs as [Hc Hcs].
  destruct (exec_step c impl Hok Hc) as (r & impl1 & -> & Hs). cbn [snd].
  pose proof (step_ok _ _ _ _ Hok Hc Hs) as Hok1.
  rewrite app_assoc. apply IH; [done| |done].
  eapply log_ok_step; [exact Hok|done..| |]; [by eapply step_config|by eapply step_new_events].
Qed.

Lemma events_loop_spec ring cursor cap : 0 <= cap → ∀ out next, Z.of_nat (length out) <= cap →
  let kept := take (Z.to_nat cap - length out) (filter (λ e, cursor < ev_cursor e) ring) in
  events_loop ring cursor cap out next = (out ++ kept, default next (ev_cursor <$> last kept)).
Proof.
  intros Hcap. induction ring as [|e ring IH]; intros out next Hout; cbn [events_loop].
  { rewrite filter_nil, take_nil. by rewrite app_nil_r. }
  destruct (Z.ltb_spec (Z.of_nat (length out)) cap) as [Hlt|Hge]; cbn [negb].
  - rewrite filter_cons. destruct (Z.leb_spec (ev_cursor e) cursor).
    + rewrite decide_False by lia. by apply IH.
    + rewrite decide_True by lia. cbv zeta in IH. rewrite IH by (rewrite length_app; cbn; lia).
      rewrite length_app. cbn [length].
      replace (Z.to_nat cap - length out)%nat with (S (Z.to_nat cap - (length out + 1)))%nat by lia.
      cbn [take]. rewrite <- app_assoc. cbn [app]. f_equal.
      destruct (take _ _) as [|e' l] eqn:E; [done|]. rewrite last_cons_cons.
      destruct (last (e' :: l)) eqn:El; [done|]. by apply last_None in El.
  - replace (Z.to_nat cap - length out)%nat with 0%nat by lia. by rewrite take_0, app_nil_r.
Qed.

Lemma filter_numbered (l : list mesh_control_event) base c :
  (∀ k e, l !! k = Some e → ev_cursor e = base + Z.of_nat k + 1) →
  filter (λ e, c < ev_cursor e) l = drop (Z.to_nat (c - base)) l.
Proof.
  revert base. induction l as [|e l IH]; intros base H; [by rewrite drop_nil|].
  assert (He : ev_cursor e = base + 1) by (rewrite (H 0%nat e eq_refl); lia).
  assert (IH' := IH (base + 1)). rewrite filter_cons. case_decide.
  - replace (Z.to_nat (c - base)) with 0%nat by lia. rewrite drop_0. f_equal.
    rewrite IH' by (intros k e' Hk; rewrite (H (S k) e' Hk); lia).
    replace (Z.to_nat (c - (base + 1))) with 0%nat by lia. by rewrite drop_0.
  - rewrite IH' by (intros k e' Hk; rewrite (H (S k) e' Hk); lia).
    replace (Z.to_nat (c - base)) with (S (Z.to_nat (c - (base + 1)))) by lia. done.
Qed.

Lemma events_after_spec impl log cursor buffer capacity : impl_ok impl → log_ok impl log →
  u64 cursor → capacity = Z.of_nat (length buffer) →
  let dropped := (length log - Z.to_nat (sc_event_capacity (im_config impl)))%nat in
  let out := take (length buffer) (drop (max (Z.to_nat cursor) dropped) log) in
  mesh_control_state_events_after_v1 (holds impl) cursor (Some buffer) capacity (Some 0) (Some 0) =
  if negb (cursor =? 0) && (cursor <? Z.of_nat dropped)
  then (MESH_CONTROL_CONFLICT, Some buffer, Some 0, Some cursor)
  else (MESH_CONTROL_OK, Some (out ++ drop (length out) buffer), Some (Z.of_nat (length out)),
        Some (default cursor (ev_cursor <$> last out))).
Proof.
  intros Hok [Hcur Hcnt Hring Hnum] Hu -> dropped out.
  pose proof (ring_list_length impl) as Hl. destruct (io_ring _ Hok) as [Hcap _ _ Hc0].
  pose proof (io_cursor _ Hok) as Hmax. unfold uint in Hu.
  assert (Hd : (length log - length (ring_list impl))%nat = dropped) by lia.
  rewrite Hd in Hring.
  cbn [mesh_control_state_events_after_v1 state_impl mbind option_bind cst_impl].
  change (non_null (Some buffer)) with true. rewrite andb_false_r.
  destruct (Z.eqb_spec (im_event_count impl) 0) as [E0|E0].
  { assert (log = []) as -> by (apply nil_length_inv; lia).
    subst dropped out. rewrite drop_nil, take_nil. cbn.
    destruct (Z.ltb_spec cursor (Z.of_nat (0 - Z.to_nat (sc_event_capacity (im_config impl))))); [lia|].
    by rewrite andb_false_r, drop_0. }
  assert (Hold : ev_cursor (ring_at impl 0) = Z.of_nat dropped + 1).
  { apply Hnum. replace (log !! dropped) with (drop dropped log !! 0%nat)
      by (by rewrite lookup_drop, Nat.add_0_r).
    rewrite <- Hring. apply ring_list_lookup. lia. }
  rewrite Hold, wrap_small by (unfold uint; lia).
  replace (Z.of_nat dropped + 1 - 1) with (Z.of_nat dropped) by lia.
  destruct (negb (cursor =? 0) && (cursor <? Z.of_nat dropped)); [done|].
  fold (ring_list impl). rewrite events_loop_spec by (cbn; lia). cbv zeta.
  rewrite (filter_numbered _ (Z.of_nat dropped)).
  2:{ intros k e Hk. rewrite Hring, lookup_drop in Hk. rewrite (Hnum _ _ Hk). lia. }
  rewrite Hring, drop_drop, Nat.sub_0_r, Nat2Z.id. cbn [app length].
  replace (dropped + Z.to_nat (cursor - Z.of_nat dropped))%nat
    with (max (Z.to_nat cursor) dropped) by lia.
  done.
Qed.

(** ** Theorems *)

(** C12: every sequence of calls on an initialised state keeps it well formed: resource keys and
    request ids are unique, the observed epoch never passes the desired one, presence and digest of
    an observation agree, every operation and every retained event belongs to a known resource at an
    epoch it has reached, terminal operations and only those have an expiry, the retained documents
    are within the budget and counted exactly, and event cursors are consecutive. *)
Theorem control_state_invariant (config : mesh_control_state_config) (alloc_ok : bool)
    (st0 : option mesh_control_state) (cs : list control_command) :
  config_typed config →
  mesh_control_state_init_v1 alloc_ok (Some (mk_control_state None)) (Some config) =
    (MESH_CONTROL_OK, st0) →
  Forall command_typed cs →
  ∃ impl, control_run cs st0 = holds impl ∧ impl_ok impl.
Proof.
  intros Hc Hi Hcs. destruct (init_ok _ _ _ Hc Hi) as (impl0 & -> & Hok & _).
  by apply run_ok.
Qed.

(** C17: desired state changes by compare-and-set only.  Whatever call is made, the desired epoch,
    presence, digest and document of a resource stay as they are, unless the call is a successful
    submission for this resource whose precondition epoch is the current desired epoch (0 for a new
    resource) and whose epoch is greater; the submission leaves the observation alone.  No call
    removes a resource or lowers its observed epoch. *)
Theorem control_desired_cas (impl : mesh_control_state_impl) (c : control_command) :
  impl_ok impl → command_typed c →
  ∃ r impl', control_exec c (holds impl) = (r, holds impl') ∧
  ∀ k, let old := resource_map impl !! k in
    let new := resource_map impl' !! k in
    (∀ s, old = Some s → ∃ s', new = Some s' ∧
       rst_observed_epoch (rsl_status s) <= rst_observed_epoch (rsl_status s')) ∧
    (desired <$> new = desired <$> old ∨
     ∃ alloc_ok e action document size now s,
       c = CmdSubmit alloc_ok e action document size now ∧ r = MESH_CONTROL_OK ∧
       k = (ce_resource_kind e, ce_resource_id e) ∧
       ce_precondition_epoch e = epoch_of old ∧ epoch_of old < ce_epoch e ∧
       new = Some s ∧ rst_desired_epoch (rsl_status s) = ce_epoch e ∧
       observation s = observation (default (fresh_resource_slot e) old)).
Proof.
  intros Hok Hc. destruct (exec_step c impl Hok Hc) as (r & impl' & E & Hs).
  exists r, impl'. split; [done|]. intros k old new.
  assert (Hsame : im_resources impl' = im_resources impl → new = old).
  { intros Hr. unfold new, old, resource_map. by rewrite Hr. }
  assert (Hstay : new = old → (∀ s, old = Some s → ∃ s', new = Some s' ∧
    rst_observed_epoch (rsl_status s) <= rst_observed_epoch (rsl_status s')) ∧
    desired <$> new = desired <$> old) by (intros ->; split; [eauto with lia|done]).
  destruct Hs as [|? ? e action document size now|now|a e action document size now impl' Hs
    |id next now impl' Hs|kind id epoch presence digest now impl' Hs].
  1-3: destruct Hstay; [apply Hsame; try done; apply sweep_frame|auto].
  - destruct Hc as (He & _ & _).
    destruct (submitted_resources _ e action document size now impl' (sweep_ok _ Hok now) He Hs)
      as (Hpre & Hlt & preserve & copy & Hmap).
    assert (Hrm : resource_map (snd (sweep_impl impl now)) = resource_map impl).
    { unfold resource_map. by rewrite (proj1 (proj2 (sweep_frame impl now))). }
    rewrite Hrm in Hpre, Hlt, Hmap.
    destruct (decide (k = (ce_resource_kind e, ce_resource_id e))) as [->|Hne].
    + assert (Hnew : new = Some (submit_resource (default (fresh_resource_slot e) old) e action
        preserve copy size)) by (unfold new; by rewrite Hmap, lookup_insert_eq).
      split.
      * intros s Hos. rewrite Hnew, Hos. eexists. split; [done|]. cbn. lia.
      * right. by eexists a, e, action, document, size, now, _.
    + destruct Hstay; [|auto]. unfold new, old. by rewrite Hmap, lookup_insert_ne.
  - destruct Hstay; [|auto]. apply Hsame. by eapply advanced_resources.
  - destruct (observed_resources _ _ _ _ _ _ _ _ Hok Hs) as (x & Hx & Hep & Hmap).
    destruct (decide (k = (kind, id))) as [->|Hne].
    + assert (Hnew : new = Some (observe_resource x epoch presence digest))
        by (unfold new; by rewrite Hmap, lookup_insert_eq).
      unfold old. rewrite Hnew, Hx. split; [|by left]. intros s [= <-]. eexists. split; [done|].
      cbn. lia.
    + destruct Hstay; [|auto]. unfold new, old. by rewrite Hmap, lookup_insert_ne.
Qed.


(** A call records an event exactly when it creates an operation or moves one to another state:
    at most one operation is created or changed per call, the new event carries its id, resource,
    epoch and new state, and follows the retained ones; without an event every operation still
    present is as it was. *)
Theorem control_event_records_change (impl : mesh_control_state_impl) (c : control_command) :
  impl_ok impl → command_typed c →
  ∃ r impl', control_exec c (holds impl) = (r, holds impl') ∧
    (records_nothing impl impl' ∨ ∃ o now, records_change impl impl' o now).
Proof.
  intros Hok Hc. destruct (exec_step c impl Hok Hc) as (r & impl' & E & Hs).
  exists r, impl'. split; [done|]. by eapply step_records.
Qed.

(** ** Concrete runs *)

Definition w_config : mesh_control_state_config := mk_state_config 2 2 2 1000 64 128.
Definition w_state : option mesh_control_state :=
  snd (mesh_control_state_init_v1 true (Some (mk_control_state None)) (Some w_config)).

(** An intent for the function resource [rid], moving it from epoch [pre] to [epoch]. *)
Definition w_intent (msg req rid : Z) (pre epoch : Z) : mesh_control_envelope :=
  mk_control_envelope 1 MESH_CONTROL_MESSAGE_INTENT 0 (msg :: zeros 15) (req :: zeros 15)
    (9 :: zeros 31) (8 :: zeros 31) (7 :: zeros 31) (6 :: zeros 15) (5 :: zeros 31)
    MESH_CONTROL_RESOURCE_FUNCTION 0 (rid :: zeros 31) epoch 1 10 1000 1 1 1 pre
    (4 :: zeros 31) 8.

Definition w_submit (msg req rid pre epoch now : Z) : control_command :=
  CmdSubmit true (w_intent msg req rid pre epoch) MESH_CONTROL_DESIRED_APPLY (Some [1; 2; 3]) 3 now.

(** Two submissions, an observation that completes the first, and a transition. *)
Definition w_commands : list control_command :=
  [w_submit 1 1 1 0 1 20; w_submit 2 2 2 0 1 21;
   CmdObserve MESH_CONTROL_RESOURCE_FUNCTION (1 :: zeros 31) 1 MESH_CONTROL_PRESENCE_PRESENT
     (4 :: zeros 31) 30;
   CmdTransition (2 :: zeros 15) MESH_CONTROL_OPERATION_RUNNING 31].

Lemma w_commands_typed : Forall command_typed w_commands.
Proof. evaluate. Qed.

Lemma w_config_typed : config_typed w_config.
Proof. evaluate. Qed.

Lemma control_state_invariant_witness :
  ∃ impl, control_run w_commands w_state = holds impl ∧ impl_ok impl.
Proof.
  apply (control_state_invariant w_config true w_state w_commands).
  - exact w_config_typed.
  - reflexivity.
  - exact w_commands_typed.
Defined.

(** The implementation after the first submission. *)
Definition w_impl : mesh_control_state_impl :=
  default (mk_impl w_config [] [] [] 0 0 1 1 0) (state_impl (control_run (take 1 w_commands) w_state)).

Lemma w_impl_ok : impl_ok w_impl.
Proof.
  destruct (init_ok true w_config w_state w_config_typed eq_refl) as (impl0 & E0 & Hok & _).
  destruct (run_ok (take 1 w_commands) impl0 Hok) as (impl & Hrun & Hok').
  { apply Forall_take, w_commands_typed. }
  unfold w_impl. by rewrite E0, Hrun.
Qed.

Lemma control_desired_cas_witness : ∃ r impl',
  control_exec (w_submit 3 3 1 1 2 40) (holds w_impl) = (r, holds impl') ∧
  ∀ k, let old := resource_map w_impl !! k in
    let new := resource_map impl' !! k in
    (∀ s, old = Some s → ∃ s', new = Some s' ∧
       rst_observed_epoch (rsl_status s) <= rst_observed_epoch (rsl_status s')) ∧
    (desired <$> new = desired <$> old ∨
     ∃ alloc_ok e action document size now s,
       w_submit 3 3 1 1 2 40 = CmdSubmit alloc_ok e action document size now ∧ r = MESH_CONTROL_OK ∧
       k = (ce_resource_kind e, ce_resource_id e) ∧
       ce_precondition_epoch e = epoch_of old ∧ epoch_of old < ce_epoch e ∧
       new = Some s ∧ rst_desired_epoch (rsl_status s) = ce_epoch e ∧
       observation s = observation (default (fresh_resource_slot e) old)).
Proof.
  apply (control_desired_cas w_impl (w_submit 3 3 1 1 2 40)).
  - exact w_impl_ok.
  - evaluate.
Defined.


Lemma control_event_records_change_witness : ∃ r impl',
  control_exec (w_submit 3 3 1 1 2 40) (holds w_impl) = (r, holds impl') ∧
  (records_nothing w_impl impl' ∨ ∃ o now, records_change w_impl impl' o now).
Proof.
  apply (control_event_records_change w_impl (w_submit 3 3 1 1 2 40)).
  - exact w_impl_ok.
  - evaluate.
Defined.
