(* ===== verification/ControlSnapshot.v ===== *)
(** * Reading the control state: preflight, snapshots and checkpoints

    The read side of [mesh_control_state.c]: the preflight predicts the
    submission, the pages of a snapshot belong to one state, and a checkpoint
    restores the state it was taken from, exactly when no operation or resource
    has one of the shapes the import refuses. *)

From S2P Require Import Prelude ControlPrimitives ControlState ControlStateInv.

(** ** Preflight *)

(** The same envelope with another message kind. *)
Definition with_kind (kind : Z) (e : mesh_control_envelope) : mesh_control_envelope :=
  mk_control_envelope (ce_schema_version e) kind (ce_flags e) (ce_message_id e) (ce_request_id e)
    (ce_mesh_id e) (ce_origin_principal e) (ce_origin_node_id e) (ce_session_id e)
    (ce_target_node_id e) (ce_resource_kind e) (ce_reserved e) (ce_resource_id e) (ce_epoch e)
    (ce_sequence e) (ce_issued_at_ms e) (ce_expires_at_ms e) (ce_principal_epoch e)
    (ce_incarnation e) (ce_certificate_serial e) (ce_precondition_epoch e) (ce_payload_digest e)
    (ce_payload_size e).

Lemma envelope_validate_kind e : ce_kind e = MESH_CONTROL_MESSAGE_INTENT →
  mesh_control_envelope_validate_v1 (Some (with_kind MESH_CONTROL_MESSAGE_OPERATION e)) =
  mesh_control_envelope_validate_v1 (Some e).
Proof. intros Hk. unfold mesh_control_envelope_validate_v1. cbn [with_kind ce_kind]. by rewrite Hk. Qed.

(** Both sides decide the same guard. *)
Ltac same_guard :=
  match goal with |- context [if ?b then _ else _] => destruct b; [reflexivity|] end.

Lemma submit_preflight impl e action document size now out :
  ce_kind e = MESH_CONTROL_MESSAGE_INTENT →
  fst (fst (mesh_control_state_submit_document_v1 true (holds impl) (Some e) action document size now
              (Some out))) =
  mesh_control_state_validate_document_v1 (holds (snd (sweep_impl impl now))) (Some e) action document
    size now.
Proof.
  intros Hk. cbn [mesh_control_state_submit_document_v1 mesh_control_state_validate_document_v1 cst_impl].
  rewrite Hk. change (negb (MESH_CONTROL_MESSAGE_INTENT =? MESH_CONTROL_MESSAGE_INTENT)) with false.
  cbn [orb]. same_guard.
  destruct (find_request _ _) as [[? ?]|]; [by destruct (operation_binding_equal _ _ _)|].
  same_guard. destruct (find_resource _ _ _) as [[ri x]|]; repeat same_guard;
    cbn [negb]; rewrite andb_false_r; reflexivity.
Qed.

(** ** Snapshots and pages *)

Definition live_resources (impl : mesh_control_state_impl) : list mesh_control_resource_status :=
  rsl_status <$> filter (λ r, rsl_occupied r = true) (im_resources impl).
Definition live_operations (impl : mesh_control_state_impl) : list mesh_control_operation :=
  osl_operation <$> filter (λ o, osl_occupied o = true) (im_operations impl).

Section Pages.
Context {A B : Type} (occ : A → bool) (get : A → B).

Lemma count_filter (l : list A) :
  count_slots occ l = Z.of_nat (length (filter (λ x, occ x = true) l)).
Proof.
  induction l as [|x l IH]; [done|]. cbn [count_slots]. rewrite filter_cons.
  destruct (occ x) eqn:E; [rewrite decide_True by done|rewrite decide_False by done];
    cbn [length]; lia.
Qed.

Lemma page_loop_spec (l : list A) offset capacity : ∀ seen out, 0 <= capacity →
  Z.of_nat (length out) <= capacity →
  page_loop occ get l seen offset capacity out =
  out ++ take (Z.to_nat capacity - length out)
           (drop (Z.to_nat (offset - seen)) (get <$> filter (λ x, occ x = true) l)).
Proof.
  induction l as [|x l IH]; intros seen out Hc Ho; cbn [page_loop].
  { rewrite filter_nil. cbn [fmap list_fmap]. rewrite drop_nil, take_nil, app_nil_r. done. }
  rewrite filter_cons. destruct (occ x) eqn:E; cbn [negb].
  - rewrite decide_True by done. cbn [fmap list_fmap].
    destruct (Z.ltb_spec seen offset).
    + rewrite IH by done.
      replace (Z.to_nat (offset - seen)) with (S (Z.to_nat (offset - (seen + 1)))) by lia. done.
    + replace (Z.to_nat (offset - seen)) with 0%nat by lia. rewrite drop_0.
      destruct (Z.eqb_spec (Z.of_nat (length out)) capacity).
      * replace (Z.to_nat capacity - length out)%nat with 0%nat by lia. by rewrite take_0, app_nil_r.
      * rewrite IH by (rewrite ?length_app; cbn; lia).
        replace (Z.to_nat (offset - (seen + 1))) with 0%nat by lia. rewrite drop_0, length_app.
        cbn [length].
        replace (Z.to_nat capacity - length out)%nat with (S (Z.to_nat capacity - (length out + 1)))
          by lia. by rewrite <- app_assoc.
  - rewrite decide_False by done. by apply IH.
Qed.
End Pages.

(** A call that changes anything moves the generation forward. *)
Lemma step_generation c impl r impl' : impl_ok impl → command_typed c → control_step impl c r impl' →
  impl' = impl ∨ im_snapshot_generation impl < im_snapshot_generation impl'.
Proof.
  intros Hok Hc H. pose proof (io_generation _ Hok) as Hg.
  assert (Hsw : ∀ now, snd (sweep_impl impl now) = impl ∨
    im_snapshot_generation impl < im_snapshot_generation (snd (sweep_impl impl now))).
  { intros now. unfold sweep_impl.
    destruct (Z.eqb_spec (im_snapshot_generation impl) UINT64_MAX) as [|Hm]; [by left|]. cbn [snd].
    destruct (Z.eqb_spec (count_slots (sweepable now) (im_operations impl)) 0) as [E|E].
    - left. destruct impl as [? ? ops]. unfold set_im_operations. cbn in *. f_equal.
      rewrite <- (list_fmap_id ops) at 2. apply list_fmap_ext. intros i s Hi. cbn.
      by rewrite (count_slots_zero _ _ _ _ E Hi).
    - right. cbn. unfold UINT64_MAX in Hm. rewrite wrap_small by (unfold uint; lia). lia. }
  assert (Hgen : ∀ i, im_snapshot_generation impl <= im_snapshot_generation i →
    im_snapshot_generation i ≠ UINT64_MAX → im_snapshot_generation i < 2 ^ 64 →
    im_snapshot_generation impl < im_snapshot_generation (next_generation i)).
  { intros i Hi Hm Hi'. cbn. unfold UINT64_MAX in Hm. rewrite wrap_small by (unfold uint; lia). lia. }
  destruct H; try by left; try apply Hsw.
  - apply Hsw.
  - apply Hsw.
  - right. pose proof (io_generation _ (sweep_ok impl Hok now)).
    assert (im_snapshot_generation impl <= im_snapshot_generation (snd (sweep_impl impl now)))
      by (destruct (Hsw now) as [-> | ?]; lia).
    destruct H. unfold submit_commit. apply Hgen; rewrite append_event_generation; cbn; try done; lia.
  - right. destruct H. apply Hgen; rewrite append_event_generation; cbn; try done; lia.
  - right. destruct H. apply Hgen; unfold record_completion;
      destruct (completion _ _ _ _ _) as [[? ?]|]; rewrite ?append_event_generation; cbn; try done; lia.
Qed.

Lemma run_generation cs : ∀ impl, impl_ok impl → Forall command_typed cs →
  ∃ impl', control_run cs (holds impl) = holds impl' ∧
    (impl' = impl ∨ im_snapshot_generation impl < im_snapshot_generation impl').
Proof.
  induction cs as [|c cs IH]; intros impl Hok Hcs; [by exists impl; auto|].
  apply Forall_cons in Hcs as [Hc Hcs]. cbn [control_run foldl].
  destruct (exec_step c impl Hok Hc) as (r & impl1 & -> & Hs). cbn [snd].
  destruct (IH impl1 (step_ok _ _ _ _ Hok Hc Hs) Hcs) as (impl' & E & Hg). exists impl'.
  split; [done|]. destruct (step_generation _ _ _ _ Hok Hc Hs) as [-> | ?]; [done|].
  right. destruct Hg as [-> | ?]; lia.
Qed.

(** ** Checkpoints *)

(** The shapes the import accepts beyond the invariant: distinct operation ids, operations with a
    payload and a clock that did not go back, present resources with a digest, counters not
    exhausted. *)
Record restorable (impl : mesh_control_state_impl) : Prop := {
  rb_ids : slots_unique osl_occupied (co_operation_id ∘ osl_operation) (im_operations impl);
  rb_operations : Forall (λ s, osl_occupied s = true →
    co_desired_digest (osl_operation s) ≠ zeros 32 ∧
    co_created_at_ms (osl_operation s) <= co_updated_at_ms (osl_operation s)) (im_operations impl);
  rb_resources : Forall (λ s, rsl_occupied s = true →
    rst_desired_presence (rsl_status s) = MESH_CONTROL_PRESENCE_PRESENT →
    rst_desired_digest (rsl_status s) ≠ zeros 32) (im_resources impl);
  rb_counters : im_snapshot_generation impl ≠ UINT64_MAX ∧ im_next_cursor impl ≠ UINT64_MAX }.

(** Occupied slots in order. *)
Definition occupied_resources (impl : mesh_control_state_impl) : list mesh_control_resource_slot :=
  filter (λ r, rsl_occupied r = true) (im_resources impl).
Definition occupied_operations (impl : mesh_control_state_impl) : list mesh_control_operation_slot :=
  filter (λ o, osl_occupied o = true) (im_operations impl).

(** The records of a checkpoint of [impl]. *)
Definition checkpoint_resources impl := resource_record <$> occupied_resources impl.
Definition checkpoint_operations impl := operation_record <$> occupied_operations impl.
Definition checkpoint_info (impl : mesh_control_state_impl) : mesh_control_state_checkpoint_info :=
  mk_checkpoint_info (im_snapshot_generation impl) (im_next_cursor impl)
    (Z.of_nat (length (occupied_resources impl))) (Z.of_nat (length (occupied_operations impl)))
    (im_event_count impl).

Section Filtered.
Context {A K : Type} `{EqDecision K} (occ : A → bool) (key : A → K).

Lemma occupied_unique (l : list A) :
  slots_unique occ key l ↔ NoDup (key <$> filter (λ x, occ x = true) l).
Proof.
  induction l as [|x l IH].
  { split; [by intros; constructor|]. by intros _ i j x y Hi. }
  assert (Htl : slots_unique occ key (x :: l) ↔ slots_unique occ key l ∧
    (occ x = true → Forall (λ y, occ y = true → key y ≠ key x) l)).
  { split.
    - intros Hu. split.
      + intros i j y z Hi Hj ???. enough (S i = S j) by lia. by eapply (Hu (S i) (S j)).
      + intros Hx. apply Forall_lookup. intros i y Hi Hy Hk.
        by specialize (Hu (S i) 0%nat y x Hi eq_refl Hy Hx Hk).
    - intros [Hu Hf] [|i] [|j] y z Hi Hj Hy Hz Hk; cbn in Hi, Hj; simplify_eq; try done.
      + specialize (Hf Hy). rewrite Forall_lookup in Hf. by destruct (Hf _ _ Hj Hz).
      + specialize (Hf Hz). rewrite Forall_lookup in Hf. by destruct (Hf _ _ Hi Hy).
      + f_equal. by eapply Hu. }
  rewrite Htl, IH, filter_cons. destruct (occ x) eqn:Ex.
  - rewrite decide_True by done. rewrite fmap_cons, NoDup_cons.
    rewrite list_elem_of_fmap, Forall_forall. split; intros [H1 H2].
    + split; [|done]. intros (y & Hk & [Hy Hin]%list_elem_of_filter). by apply (H2 eq_refl y Hin Hy).
    + split; [done|]. intros _ y Hin Hy Hk. apply H1. exists y. split; [done|]. by apply list_elem_of_filter.
  - rewrite decide_False by done. naive_solver.
Qed.

Lemma filter_occupied (l : list A) : Forall (λ x, occ x = true) (filter (λ x, occ x = true) l).
Proof. apply Forall_forall. by intros x [? _]%list_elem_of_filter. Qed.

(** Compacting a table: occupied slots first, then empty ones. *)
Lemma filter_compact (l : list A) z n : occ z = false →
  filter (λ x, occ x = true) (filter (λ x, occ x = true) l ++ replicate n z) =
  filter (λ x, occ x = true) l.
Proof.
  intros Hz. rewrite filter_app, list_filter_filter_l by done.
  assert (filter (λ x, occ x = true) (replicate n z) = []) as ->; [|by rewrite app_nil_r].
  induction n; cbn [replicate]; [done|]. by rewrite filter_cons_False by congruence.
Qed.
End Filtered.

Lemma doc_total_filter l : Forall (λ s, rsl_occupied s = false → rsl_desired_document_size s = 0) l →
  doc_total (filter (λ r, rsl_occupied r = true) l) = doc_total l.
Proof.
  induction 1 as [|s l Hs Hl IH]; [done|]. rewrite filter_cons. cbn [doc_total foldr].
  case_decide as E; cbn [doc_total foldr]; fold (doc_total l).
  - fold (doc_total (filter (λ r, rsl_occupied r = true) l)). lia.
  - rewrite Hs by (by destruct (rsl_occupied s)). lia.
Qed.

(** A well-formed slot is restored as it was. *)
Lemma imported_resource_id c s : resource_ok c s → rsl_occupied s = true →
  imported_resource (resource_record s) = s.
Proof.
  intros [_ _ _ _ _ _ _ _ Hd _] Ho. destruct s as [o st d n]. cbn in *. subst o.
  unfold imported_resource. cbn. f_equal. destruct Hd as [[-> ->]|(b & -> & -> & Hb)]; [done|].
  unfold len. destruct (Z.eqb_spec (Z.of_nat (length b)) 0) as [E|E].
  { by destruct b. }
  cbn. by rewrite take_ge by lia.
Qed.

Lemma imported_operation_id s : osl_occupied s = true → imported_operation (operation_record s) = s.
Proof. intros Ho. destruct s. cbn in *. by subst. Qed.

Section Restore.
Context (impl : mesh_control_state_impl) (Hok : impl_ok impl).

Lemma occupied_resource_ok : Forall (λ s, rsl_occupied s = true ∧ resource_ok (im_config impl) s)
  (occupied_resources impl).
Proof.
  apply Forall_forall. intros s [Ho [i Hi]%list_elem_of_lookup]%list_elem_of_filter.
  split; [done|]. pose proof (resource_slot_at _ Hok _ _ Hi) as H. unfold resource_slot_ok in H.
  by rewrite Ho in H.
Qed.

Lemma occupied_operation_ok : Forall (λ s, osl_occupied s = true ∧
    operation_ok (osl_operation s) (osl_terminal_expires_at_ms s) ∧
    bound_in (im_resources impl) (co_resource_kind (osl_operation s)) (co_resource_id (osl_operation s))
      (co_desired_epoch (osl_operation s))) (occupied_operations impl).
Proof.
  apply Forall_forall. intros s [Ho [i Hi]%list_elem_of_lookup]%list_elem_of_filter.
  split; [done|]. pose proof (operation_slot_at _ Hok _ _ Hi) as H. unfold operation_slot_ok in H.
  by rewrite Ho in H.
Qed.

Lemma resource_record_valid_iff s : resource_ok (im_config impl) s →
  resource_record_valid (resource_record s) (im_config impl) =
  bool_decide (rst_desired_presence (rsl_status s) = MESH_CONTROL_PRESENCE_PRESENT →
               rst_desired_digest (rsl_status s) ≠ zeros 32).
Proof.
  intros [Hk [Hi Hi0] He Hdp Hda [Hdd Hdo] Hco Hseen Hdoc Hsz]. unfold resource_record_valid.
  cbn [rr_status resource_record rr_document_size rr_document].
  rewrite Hk, Hdp, !(control_bytes_zero_spec 32) by done. rewrite (bool_decide_false _ Hi0).
  replace (rst_desired_epoch (rsl_status s) =? 0) with false by lia.
  replace (rst_desired_epoch (rsl_status s) <? rst_observed_epoch (rsl_status s)) with false by lia.
  replace (sc_desired_document_max_bytes (im_config impl) <? rsl_desired_document_size s)
    with false by lia.
  assert (Hpv : presence_valid (rst_observed_presence (rsl_status s)) = true).
  { unfold presence_valid. by destruct Hco as [[-> _]|[-> _]]. }
  assert (Hobs : eqb (rst_observed_presence (rsl_status s) =? MESH_CONTROL_PRESENCE_PRESENT)
    (negb (bool_decide (rst_observed_digest (rsl_status s) = zeros 32))) = true).
  { destruct Hco as [[-> Hz]|[-> Hz]]; [by rewrite bool_decide_false|by rewrite bool_decide_true]. }
  assert (Hsn : (rst_observed_presence (rsl_status s) =? MESH_CONTROL_PRESENCE_PRESENT) &&
    (rst_observed_epoch (rsl_status s) =? 0) = false).
  { destruct (Z.eqb_spec (rst_observed_presence (rsl_status s)) MESH_CONTROL_PRESENCE_PRESENT)
      as [E|E]; [|done]. specialize (Hseen E). cbn [andb]. lia. }
  assert (Hdc : negb (rsl_desired_document_size s =? 0) &&
    negb (non_null (rsl_desired_document s)) = false).
  { destruct Hdoc as [[-> _]|(d & -> & _)]; [done|]. apply andb_false_r. }
  rewrite Hpv, Hobs, Hsn, Hdc. cbn [negb orb]. rewrite !orb_false_r, negb_involutive.
  destruct (Z.eqb_spec (rst_desired_presence (rsl_status s)) MESH_CONTROL_PRESENCE_PRESENT) as [E|E].
  - destruct (bool_decide_reflect (rst_desired_digest (rsl_status s) = zeros 32)) as [Z|Z]; cbn.
    + symmetry. apply bool_decide_eq_false. intros H. by apply H.
    + symmetry. by apply bool_decide_eq_true.
  - unfold presence_valid in Hdp. rewrite orb_comm in Hdp.
    destruct (Z.eqb_spec (rst_desired_presence (rsl_status s)) MESH_CONTROL_PRESENCE_PRESENT); [done|].
    cbn [orb] in Hdp. bool_prop. rewrite (bool_decide_true _ (Hda Hdp)). cbn.
    symmetry. by apply bool_decide_eq_true.
Qed.

Lemma operation_record_valid_iff s : operation_ok (osl_operation s) (osl_terminal_expires_at_ms s) →
  operation_record_valid (operation_record s) =
  bool_decide (co_desired_digest (osl_operation s) ≠ zeros 32 ∧
    co_created_at_ms (osl_operation s) <= co_updated_at_ms (osl_operation s)).
Proof.
  intros [[Hi Hi0] [Hr Hr0] Hm Hk Ha [Hs Hs0] Hd He Hst Ht]. unfold operation_record_valid.
  cbn [or_operation operation_record or_terminal_expires_at_ms].
  rewrite Hm, memeq_refl, Hk, Hst, !(control_bytes_zero_spec 16), !(control_bytes_zero_spec 32) by done.
  rewrite (bool_decide_false _ Hi0), (bool_decide_false _ Hr0), (bool_decide_false _ Hs0).
  replace (co_desired_epoch (osl_operation s) =? 0) with false by lia.
  replace (negb (co_action (osl_operation s) =? MESH_CONTROL_DESIRED_APPLY) &&
    negb (co_action (osl_operation s) =? MESH_CONTROL_DESIRED_DELETE)) with false
    by (by destruct Ha as [-> | ->]).
  assert (Hterm : (if mesh_control_operation_state_is_terminal_v1 (co_state (osl_operation s))
    then negb (osl_terminal_expires_at_ms s =? 0) else osl_terminal_expires_at_ms s =? 0) = true).
  { destruct (mesh_control_operation_state_is_terminal_v1 _); lia. }
  cbn [negb orb]. rewrite !orb_false_r.
  destruct (bool_decide_reflect (co_desired_digest (osl_operation s) = zeros 32)) as [Z|Z]; cbn [orb].
  { symmetry. apply bool_decide_eq_false. by intros [? _]. }
  destruct (Z.ltb_spec (co_updated_at_ms (osl_operation s)) (co_created_at_ms (osl_operation s))).
  - symmetry. apply bool_decide_eq_false. intros [_ ?]. lia.
  - rewrite Hterm. symmetry. by apply bool_decide_eq_true.
Qed.

Lemma import_documents_spec l : Forall (resource_ok (im_config impl)) l → ∀ n, 0 <= n →
  n + doc_total l <= sc_desired_document_retained_bytes (im_config impl) →
  import_documents (im_config impl) n (resource_record <$> l) =
  if forallb (λ s, resource_record_valid (resource_record s) (im_config impl)) l
  then Some (n + doc_total l) else None.
Proof.
  destruct (io_config _ Hok). induction 1 as [|s l Hs Hl IH]; intros n Hn Hb.
  { cbn. f_equal. lia. }
  cbn [doc_total foldr] in Hb. fold (doc_total l) in Hb.
  assert (Hnn : 0 <= doc_total l).
  { clear -Hl. induction Hl as [|x l Hx Hl IH]; [done|]. cbn [doc_total foldr].
    fold (doc_total l). pose proof (ro_size _ _ Hx). lia. }
  pose proof (ro_size _ _ Hs). cbn [fmap list_fmap import_documents forallb].
  destruct (resource_record_valid (resource_record s) (im_config impl)); [|done]. cbn [negb orb andb].
  cbn [resource_record rr_document_size]. rewrite !wrap_small by (unfold uint; lia).
  replace (sc_desired_document_retained_bytes (im_config impl) - rsl_desired_document_size s <? n)
    with false by lia.
  rewrite IH by lia. case_match; [|done]. f_equal. cbn [doc_total foldr]. fold (doc_total l). lia.
Qed.

Lemma events_consecutive_spec l base : 0 < base → base + Z.of_nat (length l) <= 2 ^ 64 - 1 →
  Forall (event_ok (im_resources impl)) l →
  (∀ k e, l !! k = Some e → ev_cursor e = base + Z.of_nat k) → events_consecutive base l = true.
Proof.
  intros Hb Hmax Hl. revert base Hb Hmax. induction Hl as [|e l He Hl IH]; intros base Hb Hmax Hc; [done|].
  cbn [events_consecutive length] in *. pose proof (Hc 0%nat e eq_refl) as H0.
  destruct He as [[Hi Hi0] Hk Hs [Hr Hr0] Hep _].
  unfold event_record_valid. rewrite Hk, Hs, (control_bytes_zero_spec 16), (control_bytes_zero_spec 32) by done.
  rewrite (bool_decide_false _ Hi0), (bool_decide_false _ Hr0), wrap_small by (unfold uint; lia).
  rewrite IH; [|lia|lia|intros k e' Hk'; rewrite (Hc (S k) e' Hk'); lia].
  cbn [negb andb]. repeat (apply andb_true_intro; split); lia || done.
Qed.

Lemma same_resource_key kind id s : length id = 32%nat → resource_ok (im_config impl) s →
  same_resource kind id (resource_record s) = bool_decide ((kind, id) = rkey s).
Proof.
  intros Hid Hs. unfold same_resource, rkey. cbn [resource_record rr_status].
  rewrite memeq_spec; [|done|apply Hs]. apply eq_true_iff_eq.
  rewrite andb_true_iff, Z.eqb_eq, !bool_decide_eq_true. naive_solver.
Qed.

Lemma resource_bound_in kind id epoch : length id = 32%nat →
  bound_in (im_resources impl) kind id epoch →
  resource_bound (checkpoint_resources impl) kind id epoch = true.
Proof.
  intros Hid (i & s & Hi & Ho & Hk & He). unfold resource_bound.
  pose proof occupied_resource_ok as Hall. rewrite Forall_forall in Hall.
  assert (Hin : s ∈ occupied_resources impl).
  { apply list_elem_of_filter. split; [done|]. by eapply list_elem_of_lookup_2. }
  assert (Hany : ∀ r, r ∈ checkpoint_resources impl → same_resource kind id r = true →
    r = resource_record s).
  { intros r (s' & -> & Hs')%list_elem_of_fmap Hsame. f_equal.
    rewrite same_resource_key in Hsame by (done || by apply Hall). bool_prop.
    apply list_elem_of_filter in Hs' as [Ho' [j Hj]%list_elem_of_lookup].
    assert (j = i) as -> by (eapply (io_runique _ Hok); try done; congruence). congruence. }
  destruct (find_slot (same_resource kind id) (checkpoint_resources impl)) as [[j r]|] eqn:E.
  - apply find_slot_Some in E as [Hj Hr].
    rewrite (Hany r) by (done || by eapply list_elem_of_lookup_2). cbn. lia.
  - rewrite find_slot_None in E.
    exfalso. assert (Hr : resource_record s ∈ checkpoint_resources impl)
      by (apply list_elem_of_fmap; by exists s).
    apply list_elem_of_lookup in Hr as [j' Hj'].
    specialize (E _ _ Hj'). rewrite same_resource_key in E; [by bool_prop|done|].
    apply Hall, list_elem_of_filter. split; [done|]. by eapply list_elem_of_lookup_2.
Qed.

Lemma resources_unique_true : resources_unique (checkpoint_resources impl) = true.
Proof.
  pose proof (proj1 (occupied_unique rsl_occupied rkey _) (io_runique _ Hok)) as Hnd.
  pose proof occupied_resource_ok as Hall. unfold checkpoint_resources.
  fold (occupied_resources impl) in Hnd. induction Hall as [|s l [Ho Hs] Hl IH]; [done|].
  apply NoDup_cons in Hnd as [Hni Hnd]. cbn [fmap list_fmap resources_unique].
  apply andb_true_intro. split; [|by apply IH]. apply negb_true_iff, not_true_iff_false.
  intros (r & (s' & -> & Hs')%list_elem_of_In%list_elem_of_fmap & Hsame)%existsb_exists.
  rewrite same_resource_key in Hsame.
  - bool_prop. apply Hni. apply list_elem_of_fmap. by exists s'.
  - apply Hs.
  - rewrite Forall_forall in Hl. by apply Hl.
Qed.

Lemma operations_unique_iff :
  operations_unique_and_bound (checkpoint_resources impl) (checkpoint_operations impl) = true ↔
  slots_unique osl_occupied (co_operation_id ∘ osl_operation) (im_operations impl).
Proof.
  pose proof (proj1 (occupied_unique osl_occupied okey _) (io_ounique _ Hok)) as Hnd.
  pose proof occupied_operation_ok as Hall. rewrite occupied_unique.
  unfold checkpoint_operations. fold (occupied_operations impl) in *.
  induction Hall as [|s l (Ho & Hs & Hb) Hl IH]; [split; [by constructor|done]|].
  apply NoDup_cons in Hnd as [Hni Hnd]. specialize (IH Hnd).
  cbn [fmap list_fmap operations_unique_and_bound]. rewrite NoDup_cons, !andb_true_iff, IH.
  cbn [operation_record or_operation].
  rewrite resource_bound_in by (done || apply Hs). rewrite negb_true_iff, <- not_true_iff_false.
  rewrite existsb_exists. rewrite Forall_forall in Hl. split.
  - intros [[Hx _] Hd]. split; [|done]. intros (s' & Hk & Hs')%list_elem_of_fmap. apply Hx.
    exists (operation_record s'). split; [apply list_elem_of_In, list_elem_of_fmap; eauto|].
    cbn in *. by rewrite <- Hk, memeq_refl.
  - intros [Hx Hd]. split_and!; try done.
    intros (r & (s' & -> & Hs')%list_elem_of_In%list_elem_of_fmap & Hsame).
    destruct (Hl s' Hs') as (_ & Hok' & _). cbn [operation_record or_operation] in Hsame.
    apply orb_true_iff in Hsame as [Hsame|Hsame].
    + rewrite memeq_spec in Hsame by (apply Hs || apply Hok'). bool_prop.
      apply Hx, list_elem_of_fmap. by exists s'.
    + rewrite memeq_spec in Hsame by (apply Hs || apply Hok'). bool_prop.
      apply Hni, list_elem_of_fmap. by exists s'.
Qed.
End Restore.

Definition fresh_impl (c : mesh_control_state_config) : mesh_control_state_impl :=
  mk_impl c (replicate (Z.to_nat (sc_resource_capacity c)) zero_resource_slot)
    (replicate (Z.to_nat (sc_operation_capacity c)) zero_operation_slot)
    (replicate (Z.to_nat (sc_event_capacity c)) zero_event) 0 0 1 1 0.

Lemma init_fresh alloc_ok c st :
  mesh_control_state_init_v1 alloc_ok (Some (mk_control_state None)) (Some c) =
    (MESH_CONTROL_OK, st) → st = holds (fresh_impl c).
Proof.
  unfold mesh_control_state_init_v1. intros H. step_in H; [done|]. step_in H; [done|].
  by injection H as <-.
Qed.

(** What the import of a checkpoint of [impl] into a fresh state builds. *)
Definition restored (impl : mesh_control_state_impl) : mesh_control_state_impl :=
  let c := im_config impl in
  mk_impl c
    (occupied_resources impl ++
       replicate (length (im_resources impl) - length (occupied_resources impl)) zero_resource_slot)
    (occupied_operations impl ++
       replicate (length (im_operations impl) - length (occupied_operations impl)) zero_operation_slot)
    (ring_list impl ++ replicate (length (im_events impl) - length (ring_list impl)) zero_event)
    (im_event_count impl) 0 (im_next_cursor impl) (im_snapshot_generation impl)
    (im_retained_document_bytes impl).

Section Restored.
Context (impl : mesh_control_state_impl) (Hok : impl_ok impl).

Lemma occupied_lengths : (length (occupied_resources impl) <= length (im_resources impl))%nat ∧
  (length (occupied_operations impl) <= length (im_operations impl))%nat ∧
  (length (ring_list impl) <= length (im_events impl))%nat.
Proof.
  destruct (io_ring _ Hok). rewrite ring_list_length. unfold occupied_resources, occupied_operations.
  split_and!; [apply length_filter|apply length_filter|lia].
Qed.

Lemma restored_maps : resource_map (restored impl) = resource_map impl ∧
  operation_map (restored impl) = operation_map impl ∧ ring_list (restored impl) = ring_list impl.
Proof.
  split_and!.
  - unfold resource_map, slot_map. cbn [restored im_resources]. unfold occupied_resources.
    by rewrite filter_compact.
  - unfold operation_map, slot_map. cbn [restored im_operations]. unfold occupied_operations.
    by rewrite filter_compact.
  - pose proof (ring_list_length impl) as Hl. destruct (io_ring _ Hok).
    apply list_eq. intros i. destruct (decide (i < Z.to_nat (im_event_count impl))%nat) as [Hi|Hi].
    + rewrite (ring_list_lookup (restored impl)) by done.
      unfold ring_at. cbn [restored im_events im_event_head im_config].
      rewrite Z.add_0_l, Z.mod_small, Nat2Z.id by lia.
      rewrite lookup_app_l by lia. by rewrite ring_list_lookup.
    + rewrite !lookup_ge_None_2; [done|lia|]. rewrite ring_list_length.
      cbn [restored im_event_count]. lia.
Qed.

Lemma bound_restored kind id epoch : bound_in (im_resources impl) kind id epoch →
  bound_in (im_resources (restored impl)) kind id epoch.
Proof.
  intros (i & s & Hi & Ho & Hk & He).
  assert (Hin : s ∈ occupied_resources impl).
  { apply list_elem_of_filter. split; [done|]. by eapply list_elem_of_lookup_2. }
  apply list_elem_of_lookup in Hin as [j Hj]. exists j, s.
  split_and!; [|done..]. cbn [restored im_resources]. by apply lookup_app_l_Some.
Qed.

Lemma restored_impl_ok : impl_ok (restored impl).
Proof.
  destruct occupied_lengths as (Hl1 & Hl2 & Hl3). destruct restored_maps as (_ & _ & Hring).
  pose proof (occupied_resource_ok impl Hok) as Hr. pose proof (occupied_operation_ok impl Hok) as Ho.
  pose proof Hok as []. split; cbn [restored im_config im_resources im_operations im_event_count
    im_next_cursor im_snapshot_generation im_retained_document_bytes]; try done;
    rewrite ?length_app, ?length_replicate; try lia.
  - apply Forall_app_2; [|by apply Forall_replicate]. eapply Forall_impl; [exact Hr|].
    intros s [E Hs]. unfold resource_slot_ok. by rewrite E.
  - apply Forall_app_2; [|by apply Forall_replicate]. eapply Forall_impl; [exact Ho|].
    intros s (E & Hs & Hb). unfold operation_slot_ok. rewrite E. split; [done|]. by apply bound_restored.
  - apply occupied_unique. unfold occupied_resources. rewrite filter_compact by done.
    by apply occupied_unique.
  - apply occupied_unique. unfold occupied_operations. rewrite filter_compact by done.
    by apply occupied_unique.
  - assert (Hz : ∀ l n, doc_total (l ++ replicate n zero_resource_slot) = doc_total l).
    { intros l n. induction l as [|s l IH]; [apply doc_total_zero|]. cbn [app doc_total foldr].
      fold (doc_total l). fold (doc_total (l ++ replicate n zero_resource_slot)). by rewrite IH. }
    rewrite Hz, (ControlStateInv.io_retained _ Hok). symmetry. apply doc_total_filter. eapply Forall_impl; [done|].
    intros s Hs E. unfold resource_slot_ok in Hs. rewrite E in Hs. by rewrite Hs.
  - destruct (ControlStateInv.io_ring _ Hok). split; cbn [restored im_config im_events im_event_head im_event_count]; try lia.
    rewrite length_app, length_replicate. lia.
  - rewrite Hring. eapply Forall_impl; [done|]. intros e []. split; try done. by apply bound_restored.
  - by rewrite Hring.
Qed.

(** The import accepts the checkpoint when these checks pass. *)
Definition import_checks : bool :=
  negb (im_snapshot_generation impl =? UINT64_MAX) && negb (im_next_cursor impl =? UINT64_MAX) &&
  forallb (λ s, resource_record_valid (resource_record s) (im_config impl)) (occupied_resources impl) &&
  forallb operation_record_valid (checkpoint_operations impl) &&
  operations_unique_and_bound (checkpoint_resources impl) (checkpoint_operations impl).

Lemma import_checks_iff : import_checks = true ↔ restorable impl.
Proof.
  unfold import_checks. rewrite !andb_true_iff, !negb_true_iff, !Z.eqb_neq, !forallb_Forall_true.
  rewrite (operations_unique_iff impl Hok).
  assert (HR : Forall (λ s, resource_record_valid (resource_record s) (im_config impl) = true)
      (occupied_resources impl) ↔ Forall (λ s, rsl_occupied s = true →
        rst_desired_presence (rsl_status s) = MESH_CONTROL_PRESENCE_PRESENT →
        rst_desired_digest (rsl_status s) ≠ zeros 32) (im_resources impl)).
  { pose proof (occupied_resource_ok impl Hok) as Hr. rewrite Forall_forall in Hr.
    rewrite !Forall_forall. split.
    - intros H s Hs Ho. assert (Hin : s ∈ occupied_resources impl) by (by apply list_elem_of_filter).
      specialize (H s Hin). rewrite resource_record_valid_iff in H by (done || by apply Hr).
      by bool_prop.
    - intros H s Hs. rewrite resource_record_valid_iff by (done || by apply Hr).
      apply bool_decide_eq_true. apply list_elem_of_filter in Hs as [Ho Hs]. by apply H. }
  assert (HO : Forall (λ o, operation_record_valid o = true) (checkpoint_operations impl) ↔
      Forall (λ s, osl_occupied s = true → co_desired_digest (osl_operation s) ≠ zeros 32 ∧
        co_created_at_ms (osl_operation s) <= co_updated_at_ms (osl_operation s)) (im_operations impl)).
  { pose proof (occupied_operation_ok impl Hok) as Ho. rewrite Forall_forall in Ho.
    unfold checkpoint_operations. rewrite Forall_fmap, !Forall_forall. split.
    - intros H s Hs Hocc. assert (Hin : s ∈ occupied_operations impl) by (by apply list_elem_of_filter).
      specialize (H s Hin). cbn in H.
      rewrite operation_record_valid_iff in H by (by apply Ho). by bool_prop.
    - intros H s Hs. cbn. rewrite operation_record_valid_iff by (by apply Ho).
      apply bool_decide_eq_true. apply list_elem_of_filter in Hs as [Hocc Hs]. by apply H. }
  rewrite HR, HO. split.
  - intros [[[[? ?] ?] ?] ?]. by split.
  - intros [? ? ? [? ?]]. done.
Qed.

Lemma occupied_documents : doc_total (occupied_resources impl) = im_retained_document_bytes impl.
Proof.
  unfold occupied_resources. rewrite doc_total_filter; [by rewrite (io_retained _ Hok)|].
  eapply Forall_impl; [apply (io_resources _ Hok)|].
  intros s Hs E. unfold resource_slot_ok in Hs. rewrite E in Hs. by rewrite Hs.
Qed.

Lemma events_pass : events_consecutive (im_next_cursor impl - im_event_count impl) (ring_list impl) = true ∧
  forallb (λ ev, resource_bound (checkpoint_resources impl) (ev_resource_kind ev)
    (ev_resource_id ev) (ev_desired_epoch ev)) (ring_list impl) = true.
Proof.
  pose proof (ring_list_length impl) as Hl. destruct (io_ring _ Hok). pose proof (io_cursor _ Hok).
  split.
  - apply (events_consecutive_spec impl); [lia|lia|apply (io_events _ Hok)|].
    intros k e Hk. by rewrite (io_cursors _ Hok _ _ Hk).
  - apply forallb_Forall_true. eapply Forall_impl; [apply (io_events _ Hok)|].
    intros e [_ _ _ [[He _] _] _ Hb]. by apply resource_bound_in.
Qed.

(** The arrays the import builds. *)
Lemma imported_arrays :
  (imported_resource <$> checkpoint_resources impl) ++
    drop (length (checkpoint_resources impl))
      (replicate (Z.to_nat (sc_resource_capacity (im_config impl))) zero_resource_slot) =
    im_resources (restored impl) ∧
  (imported_operation <$> checkpoint_operations impl) ++
    drop (length (checkpoint_operations impl))
      (replicate (Z.to_nat (sc_operation_capacity (im_config impl))) zero_operation_slot) =
    im_operations (restored impl) ∧
  ring_list impl ++ drop (length (ring_list impl))
      (replicate (Z.to_nat (sc_event_capacity (im_config impl))) zero_event) =
    im_events (restored impl).
Proof.
  pose proof (occupied_resource_ok impl Hok) as Hr. pose proof (occupied_operation_ok impl Hok) as Ho.
  destruct (io_ring _ Hok). pose proof (io_rlen _ Hok). pose proof (io_olen _ Hok).
  rewrite Forall_lookup in Hr. rewrite Forall_lookup in Ho. unfold checkpoint_resources, checkpoint_operations.
  rewrite <- !list_fmap_compose, !length_fmap, !drop_replicate.
  cbn [restored im_resources im_operations im_events].
  split_and!.
  - f_equal; [|f_equal; lia]. rewrite <- (list_fmap_id (occupied_resources impl)) at 2.
    apply list_fmap_ext. intros i s Hi. destruct (Hr _ _ Hi). by eapply imported_resource_id.
  - f_equal; [|f_equal; lia]. rewrite <- (list_fmap_id (occupied_operations impl)) at 2.
    apply list_fmap_ext. intros i s Hi. destruct (Ho _ _ Hi). by apply imported_operation_id.
  - do 2 f_equal. lia.
Qed.

(** Importing the records of a checkpoint, in arrays of any size, into a fresh state. *)
Lemma import_checkpoint rs os es :
  let st := holds (fresh_impl (im_config impl)) in
  mesh_control_state_import_v1 true st (Some (checkpoint_info impl))
    (Some (checkpoint_resources impl ++ rs)) (Some (checkpoint_operations impl ++ os))
    (Some (ring_list impl ++ es)) =
  if import_checks then (MESH_CONTROL_OK, holds (restored impl)) else (MESH_CONTROL_INVALID_ARG, st).
Proof.
  destruct occupied_lengths as (Hl1 & Hl2 & Hl3). pose proof (ring_list_length impl) as Hl.
  destruct events_pass as [Hec Heb]. destruct imported_arrays as (Ha1 & Ha2 & Ha3).
  pose proof Hok as [Hcf Hrl Hol _ _ _ _ Hret Hbud Hring _ _ Hcur Hgen].
  destruct Hcf, Hring as [Hrc Hrln Hrh Hrcn]. intros st. unfold st, mesh_control_state_import_v1.
  cbn [state_impl mbind option_bind cst_impl checkpoint_info ck_snapshot_generation
    ck_next_event_cursor ck_resource_count ck_operation_count ck_event_count im_config fresh_impl
    im_resources im_operations im_events im_event_count].
  rewrite !count_slots_replicate by done.
  replace (im_snapshot_generation impl =? 0) with false by lia.
  replace (im_next_cursor impl =? 0) with false by lia.
  replace (sc_resource_capacity (im_config impl) <? Z.of_nat (length (occupied_resources impl)))
    with false by lia.
  replace (sc_operation_capacity (im_config impl) <? Z.of_nat (length (occupied_operations impl)))
    with false by lia.
  replace (sc_event_capacity (im_config impl) <? im_event_count impl) with false by lia.
  replace (im_next_cursor impl <=? im_event_count impl) with false by lia.
  unfold non_null. rewrite !(bool_decide_true (is_Some (Some _))) by done.
  cbn [negb deref]. rewrite !andb_false_r. cbn [orb]. change (negb (0 =? 0)) with false.
  rewrite !orb_false_r, !Nat2Z.id.
  rewrite !take_app_length' by (unfold checkpoint_resources, checkpoint_operations;
    rewrite ?length_fmap; lia).
  unfold import_checks. unfold checkpoint_resources at 1.
  rewrite (import_documents_spec impl Hok); [|eapply Forall_impl;
    [apply (occupied_resource_ok impl Hok)|by intros s []]|done|rewrite occupied_documents; lia].
  rewrite occupied_documents, Hec, Ha1, Ha2, Ha3. unfold checkpoint_inputs_unique_and_bound.
  rewrite (resources_unique_true impl Hok), Heb.
  destruct (im_snapshot_generation impl =? UINT64_MAX), (im_next_cursor impl =? UINT64_MAX),
    (forallb (λ s, resource_record_valid _ _) _), (forallb operation_record_valid _),
    (operations_unique_and_bound _ _); try done.
Qed.
End Restored.

Lemma export_spec impl rb ob eb : impl_ok impl →
  (length (occupied_resources impl) <= length rb)%nat →
  (length (occupied_operations impl) <= length ob)%nat →
  (length (ring_list impl) <= length eb)%nat →
  mesh_control_state_export_v1 (holds impl) (Some rb) (Z.of_nat (length rb)) (Some ob)
    (Z.of_nat (length ob)) (Some eb) (Z.of_nat (length eb)) (Some zero_checkpoint_info) =
  (MESH_CONTROL_OK,
   Some (checkpoint_resources impl ++ drop (length (checkpoint_resources impl)) rb),
   Some (checkpoint_operations impl ++ drop (length (checkpoint_operations impl)) ob),
   Some (ring_list impl ++ drop (length (ring_list impl)) eb), Some (checkpoint_info impl)).
Proof.
  intros Hok Hr Ho He. pose proof (ring_list_length impl) as Hl. destruct (io_ring _ Hok).
  unfold mesh_control_state_export_v1. cbn [state_impl mbind option_bind cst_impl].
  unfold non_null. rewrite !(bool_decide_true (is_Some (Some _))) by done. cbn [negb].
  rewrite !andb_false_r. cbn [orb]. rewrite !count_filter.
  fold (occupied_resources impl). fold (occupied_operations impl).
  replace (Z.of_nat (length rb) <? Z.of_nat (length (occupied_resources impl))) with false by lia.
  replace (Z.of_nat (length ob) <? Z.of_nat (length (occupied_operations impl))) with false by lia.
  replace (Z.of_nat (length eb) <? im_event_count impl) with false by lia. done.
Qed.

(** ** Theorems *)

(** The preflight predicts the submission.  On the swept state it returns the code the
    submission of the same intent returns when memory is available, changing nothing.  It does not
    look at the message kind: an OPERATION envelope passes the preflight of the intent it copies,
    while its submission is refused. *)
Theorem control_preflight_predicts (impl : mesh_control_state_impl) (e : mesh_control_envelope)
    (action : Z) (document : option bytes) (size now : Z) (out : mesh_control_operation) :
  ce_kind e = MESH_CONTROL_MESSAGE_INTENT →
  let swept := holds (snd (sweep_impl impl now)) in
  let e' := with_kind MESH_CONTROL_MESSAGE_OPERATION e in
  fst (fst (mesh_control_state_submit_document_v1 true (holds impl) (Some e) action document size now
              (Some out))) =
    mesh_control_state_validate_document_v1 swept (Some e) action document size now ∧
  mesh_control_state_validate_document_v1 swept (Some e') action document size now =
    mesh_control_state_validate_document_v1 swept (Some e) action document size now ∧
  mesh_control_state_submit_document_v1 true (holds impl) (Some e') action document size now
    (Some out) = (MESH_CONTROL_INVALID_ARG, holds impl, Some out).
Proof.
  intros Hk swept e'. split_and!.
  - by apply submit_preflight.
  - unfold mesh_control_state_validate_document_v1, swept, e'. cbn [cst_impl].
    by rewrite envelope_validate_kind.
  - done.
Qed.

(** C34: the pages of a snapshot belong to one state.  A page requested with the generation of an
    earlier state, after any further calls, is answered with CONFLICT if those calls changed
    anything; otherwise it holds exactly the live resources and operations from the requested
    offsets on, in order, as many as fit.  Consecutive pages therefore concatenate to the full
    snapshot. *)
Theorem control_pages_consistent (impl : mesh_control_state_impl) (cs : list control_command)
    (rb : list mesh_control_resource_status) (ob : list mesh_control_operation) (roff ooff : nat)
    (info : mesh_control_snapshot_page_info) :
  impl_ok impl → Forall command_typed cs →
  (roff <= length (live_resources impl))%nat → (ooff <= length (live_operations impl))%nat →
  let rs := take (length rb) (drop roff (live_resources impl)) in
  let os := take (length ob) (drop ooff (live_operations impl)) in
  let '(r, rs', os', _) :=
    mesh_control_state_snapshot_page_v1 (control_run cs (holds impl)) (im_snapshot_generation impl)
      (Z.of_nat roff) (Some rb) (Z.of_nat (length rb)) (Z.of_nat ooff) (Some ob)
      (Z.of_nat (length ob)) (Some info) in
  if decide (im_snapshot_generation <$> state_impl (control_run cs (holds impl)) =
             Some (im_snapshot_generation impl))
  then control_run cs (holds impl) = holds impl ∧ r = MESH_CONTROL_OK ∧
       rs' = Some (rs ++ drop (length rs) rb) ∧ os' = Some (os ++ drop (length os) ob)
  else r = MESH_CONTROL_CONFLICT ∧ rs' = Some rb ∧ os' = Some ob.
Proof.
  intros Hok Hcs Hro Hoo rs os. destruct (run_generation cs impl Hok Hcs) as (impl' & Hrun & Hg).
  pose proof (io_generation _ Hok). rewrite Hrun. unfold mesh_control_state_snapshot_page_v1.
  cbn [state_impl mbind option_bind cst_impl fmap option_fmap option_map]. unfold non_null.
  rewrite !(bool_decide_true (is_Some (Some _))) by done. cbn [negb].
  rewrite !andb_false_r. cbn [orb].
  replace (im_snapshot_generation impl =? 0) with false by lia. cbn [negb andb].
  destruct (Z.eqb_spec (im_snapshot_generation impl) (im_snapshot_generation impl')) as [E|E]; cbn [negb].
  - destruct (decide _) as [_|D]; [|by rewrite E in D]. destruct Hg as [-> | ?]; [|lia].
    rewrite !count_filter. unfold live_resources, live_operations in *. rewrite !length_fmap in *.
    replace (_ <? Z.of_nat roff) with false by lia. replace (_ <? Z.of_nat ooff) with false by lia.
    cbn [orb]. rewrite !page_loop_spec by (cbn; lia). cbn [app length].
    rewrite !Z.sub_0_r, !Nat.sub_0_r, !Nat2Z.id. done.
  - destruct (decide _) as [D|_]; [by injection D as D|done].
Qed.

(** A checkpoint restores the state.  Exporting a well-formed state always succeeds with large
    enough arrays, and importing the result into a fresh state of the same configuration succeeds
    exactly when operation ids are distinct, every operation has a payload digest and was not updated
    before it was created, every present resource has a digest, and the counters are not exhausted.
    The restored state is well formed and has the same resources, operations, retained events,
    cursor, generation and document budget. *)
Theorem control_checkpoint_restores (impl : mesh_control_state_impl) (st0 : option mesh_control_state)
    (rb : list mesh_control_state_resource_record) (ob : list mesh_control_state_operation_record)
    (eb : list mesh_control_event) :
  impl_ok impl →
  mesh_control_state_init_v1 true (Some (mk_control_state None)) (Some (im_config impl)) =
    (MESH_CONTROL_OK, st0) →
  (length (occupied_resources impl) <= length rb)%nat →
  (length (occupied_operations impl) <= length ob)%nat →
  (length (ring_list impl) <= length eb)%nat →
  let '(r, rs, os, es, info) :=
    mesh_control_state_export_v1 (holds impl) (Some rb) (Z.of_nat (length rb)) (Some ob)
      (Z.of_nat (length ob)) (Some eb) (Z.of_nat (length eb)) (Some zero_checkpoint_info) in
  let '(r', st) := mesh_control_state_import_v1 true st0 info rs os es in
  r = MESH_CONTROL_OK ∧ (r' = MESH_CONTROL_OK ↔ restorable impl) ∧
  (restorable impl → ∃ impl', st = holds impl' ∧ impl_ok impl' ∧
     resource_map impl' = resource_map impl ∧ operation_map impl' = operation_map impl ∧
     ring_list impl' = ring_list impl ∧ im_next_cursor impl' = im_next_cursor impl ∧
     im_snapshot_generation impl' = im_snapshot_generation impl ∧
     im_retained_document_bytes impl' = im_retained_document_bytes impl).
Proof.
  intros Hok Hi Hr Ho He. rewrite export_spec by done. rewrite (init_fresh _ _ _ Hi).
  pose proof (import_checks_iff impl Hok) as Hiff.
  rewrite (import_checkpoint impl Hok).
  destruct (import_checks impl) eqn:E.
  - split_and!; [done|tauto|]. intros _. exists (restored impl).
    destruct (restored_maps impl Hok) as (? & ? & ?). split_and!; try done. by apply restored_impl_ok.
  - split_and!; [done| |].
    + split; [done|]. by intros ?%Hiff.
    + by intros ?%Hiff.
Qed.

(** Two requests submitted with the same message id, and the checkpoint of the state after them. *)
Definition w_duplicates : list control_command := [w_submit 1 1 1 0 1 20; w_submit 1 2 2 0 1 21].
Definition w_duplicates_export :=
  mesh_control_state_export_v1 (control_run w_duplicates w_state)
    (Some (replicate 2 (mk_resource_record zero_resource_status None 0))) 2
    (Some (replicate 2 (mk_operation_record zero_operation 0))) 2 (Some (replicate 2 zero_event)) 2
    (Some zero_checkpoint_info).

(** A reachable state whose own checkpoint is refused: two requests submitted with the same
    message id are both accepted, the export succeeds, and the import of the exported checkpoint
    into a fresh state of the same configuration answers INVALID_ARG. *)
Theorem control_checkpoint_duplicate_refused :
  fst (control_exec (w_submit 1 2 2 0 1 21) (control_run (take 1 w_duplicates) w_state)) =
    MESH_CONTROL_OK ∧
  w_duplicates_export.1.1.1.1 = MESH_CONTROL_OK ∧
  fst (mesh_control_state_import_v1 true w_state w_duplicates_export.2 w_duplicates_export.1.1.1.2
         w_duplicates_export.1.1.2 w_duplicates_export.1.2) = MESH_CONTROL_INVALID_ARG.
Proof. vm_compute. done. Qed.

(** ** Concrete inputs *)

Lemma control_preflight_predicts_witness :
  mesh_control_state_validate_document_v1 (holds (snd (sweep_impl w_impl 40)))
    (Some (w_intent 3 3 1 1 2)) MESH_CONTROL_DESIRED_APPLY (Some [1; 2]) 2 40 = MESH_CONTROL_OK ∧
  fst (fst (mesh_control_state_submit_document_v1 true (holds w_impl) (Some (w_intent 3 3 1 1 2))
    MESH_CONTROL_DESIRED_APPLY (Some [1; 2]) 2 40 (Some zero_operation))) = MESH_CONTROL_OK.
Proof.
  destruct (control_preflight_predicts w_impl (w_intent 3 3 1 1 2) MESH_CONTROL_DESIRED_APPLY
    (Some [1; 2]) 2 40 zero_operation eq_refl) as [H _].
  split; [vm_compute; reflexivity|]. rewrite H. vm_compute. reflexivity.
Defined.

Definition w_run_impl (cs : list control_command) : mesh_control_state_impl :=
  default (fresh_impl w_config) (state_impl (control_run cs w_state)).

Lemma w_run_ok cs : Forall command_typed cs → impl_ok (w_run_impl cs).
Proof.
  intros Hcs. destruct (init_ok true w_config w_state w_config_typed eq_refl) as (i0 & E0 & Hok & _).
  destruct (run_ok cs i0 Hok Hcs) as (impl & Hrun & Hok'). unfold w_run_impl. by rewrite E0, Hrun.
Qed.

Lemma control_pages_consistent_witness :
  let impl := w_run_impl w_commands in
  let '(r, rs', os', _) :=
    mesh_control_state_snapshot_page_v1 (control_run [] (holds impl)) (im_snapshot_generation impl)
      1 (Some [zero_resource_status]) 1 0 (Some [zero_operation]) 1 (Some zero_page_info) in
  r = MESH_CONTROL_OK ∧ rs' = Some (take 1 (drop 1 (live_resources impl))).
Proof.
  pose proof (control_pages_consistent (w_run_impl w_commands) [] [zero_resource_status]
    [zero_operation] 1 0 zero_page_info (w_run_ok _ w_commands_typed) (Forall_nil_2 _)
    ltac:(vm_compute; lia) ltac:(vm_compute; lia)) as H.
  cbv zeta in *. destruct (mesh_control_state_snapshot_page_v1 _ _ _ _ _ _ _ _ _) as [[[r rs'] os'] i].
  rewrite decide_True in H by reflexivity. destruct H as (_ & -> & -> & _).
  split; [reflexivity|]. vm_compute. reflexivity.
Defined.

Lemma w_restorable : restorable (w_run_impl w_commands).
Proof. apply import_checks_iff; [apply w_run_ok, w_commands_typed|]. vm_compute. done. Qed.

Lemma control_checkpoint_restores_witness :
  let impl := w_run_impl w_commands in
  let '(r, rs, os, es, info) :=
    mesh_control_state_export_v1 (holds impl)
      (Some (replicate 2 (mk_resource_record zero_resource_status None 0))) 2
      (Some (replicate 2 (mk_operation_record zero_operation 0))) 2
      (Some (replicate 2 zero_event)) 2 (Some zero_checkpoint_info) in
  fst (mesh_control_state_import_v1 true w_state info rs os es) = MESH_CONTROL_OK.
Proof.
  pose proof (control_checkpoint_restores (w_run_impl w_commands) w_state
    (replicate 2 (mk_resource_record zero_resource_status None 0))
    (replicate 2 (mk_operation_record zero_operation 0)) (replicate 2 zero_event)
    (w_run_ok _ w_commands_typed) eq_refl ltac:(vm_compute; lia) ltac:(vm_compute; lia)
    ltac:(vm_compute; lia)) as H.
  cbv zeta. change (Z.of_nat (length (replicate 2 (mk_resource_record zero_resource_status None 0))))
    with 2 in H. change (Z.of_nat (length (replicate 2 (mk_operation_record zero_operation 0)))) with 2 in H.
  change (Z.of_nat (length (replicate 2 zero_event))) with 2 in H.
  destruct (mesh_control_state_export_v1 _ _ _ _ _ _ _ _) as [[[[r rs] os] es] info].
  destruct (mesh_control_state_import_v1 _ _ _ _ _ _) as [r' st]. cbn [fst].
  destruct H as (_ & Hr & _). apply Hr. exact w_restorable.
Defined.
