(* ===== verification/ControlMmp.v ===== *)
(** * Control messages in management frames: [mesh/src/mesh_control_mmp.c]

    The payload of a signed control frame: ten TLV fields holding the part of a
    control envelope that the management header does not carry, and the body.
    The decoder fills its output as it reads, so a refused payload may leave a
    partly filled envelope; that is modelled. *)

From S2P Require Import Prelude Wire MgmtCrypto MgmtCodec MgmtEnvelope ControlPrimitives.

(** ** Data *)

Definition MESH_CONTROL_MMP_MAGIC_V1 : bytes := [84; 67; 84; 76].

Definition MESH_CONTROL_MMP_PAYLOAD_HEADER_SIZE_V1 : Z := 118.
Definition MESH_CONTROL_MMP_BODY_MAX_V1 : Z :=
  MESH_MGMT_FRAME_MAX - MESH_MGMT_PREFIX_SIZE - MESH_MGMT_SIGNATURE_SIZE -
  MESH_MGMT_HEADER_V1_ENCODED_SIZE - MESH_CONTROL_MMP_PAYLOAD_HEADER_SIZE_V1.

Definition MESH_CONTROL_FIELD_DOMAIN_V1 : Z := 1.
Definition MESH_CONTROL_FIELD_SCHEMA_V1 : Z := 2.
Definition MESH_CONTROL_FIELD_KIND_V1 : Z := 3.
Definition MESH_CONTROL_FIELD_RESOURCE_KIND_V1 : Z := 4.
Definition MESH_CONTROL_FIELD_FLAGS_V1 : Z := 5.
Definition MESH_CONTROL_FIELD_EPOCH_V1 : Z := 6.
Definition MESH_CONTROL_FIELD_PRECONDITION_EPOCH_V1 : Z := 7.
Definition MESH_CONTROL_FIELD_REQUEST_ID_V1 : Z := 8.
Definition MESH_CONTROL_FIELD_RESOURCE_ID_V1 : Z := 9.
Definition MESH_CONTROL_FIELD_BODY_V1 : Z := 10.

Inductive mesh_control_mmp_result : Type :=
  | MESH_CONTROL_MMP_OK
  | MESH_CONTROL_MMP_INVALID_ARG
  | MESH_CONTROL_MMP_INVALID_SCHEMA
  | MESH_CONTROL_MMP_RESOURCE_EXHAUSTED
  | MESH_CONTROL_MMP_DIGEST_MISMATCH
  | MESH_CONTROL_MMP_CRYPTO_FAILED.

#[export] Instance mesh_control_mmp_result_eq_dec : EqDecision mesh_control_mmp_result.
Proof. solve_decision. Defined.

(** [result == MESH_CONTROL_MMP_OK] *)
Definition mmp_ok (result : mesh_control_mmp_result) : bool :=
  match result with MESH_CONTROL_MMP_OK => true | _ => false end.

(** The fields the payload carries, every other one as [memset] left it. *)
Definition partial_envelope (schema kind resource_kind flags epoch precondition_epoch : Z)
    (request_id resource_id : bytes) : mesh_control_envelope :=
  mk_control_envelope schema kind flags (zeros 16) request_id (zeros 32) (zeros 32) (zeros 32)
    (zeros 16) (zeros 32) resource_kind 0 resource_id epoch 0 0 0 0 0 0 precondition_epoch
    (zeros 32) 0.
Definition zero_control_envelope : mesh_control_envelope :=
  partial_envelope 0 0 0 0 0 0 (zeros 16) (zeros 32).

(** ** Operations *)

Section Mmp.
Context {CR : Crypto}.

Definition write_u16_field (field_id value : Z) : bytes :=
  mesh_mgmt_wire_write_tlv field_id (mesh_mgmt_wire_write_u16 value).
Definition write_u32_field (field_id value : Z) : bytes :=
  mesh_mgmt_wire_write_tlv field_id (mesh_mgmt_wire_write_u32 value).
Definition write_u64_field (field_id value : Z) : bytes :=
  mesh_mgmt_wire_write_tlv field_id (mesh_mgmt_wire_write_u64 value).

Definition mesh_control_mmp_body_digest_v1 (body : option bytes) (body_size : Z)
    (out_digest : option bytes) : mesh_control_mmp_result * option bytes :=
  if negb (non_null out_digest) || (negb (body_size =? 0) && negb (non_null body)) ||
     (MESH_CONTROL_MMP_BODY_MAX_V1 <? body_size)
  then (MESH_CONTROL_MMP_INVALID_ARG, out_digest)
  else
    let out_digest := assign out_digest (zeros 32) in
    if body_size =? 0 then (MESH_CONTROL_MMP_OK, out_digest)
    else
      match mesh_mgmt_blake2b_256 body body_size out_digest with
      | (MESH_MGMT_CRYPTO_OK, out_digest) => (MESH_CONTROL_MMP_OK, out_digest)
      | (_, out_digest) => (MESH_CONTROL_MMP_CRYPTO_FAILED, assign out_digest (zeros 32))
      end.

(** The bytes the encoder writes, in order. *)
Definition control_payload_bytes (e : mesh_control_envelope) (body : bytes) : bytes :=
  mesh_mgmt_wire_write_tlv MESH_CONTROL_FIELD_DOMAIN_V1 MESH_CONTROL_MMP_MAGIC_V1 ++
  write_u16_field MESH_CONTROL_FIELD_SCHEMA_V1 (ce_schema_version e) ++
  write_u16_field MESH_CONTROL_FIELD_KIND_V1 (ce_kind e) ++
  write_u16_field MESH_CONTROL_FIELD_RESOURCE_KIND_V1 (ce_resource_kind e) ++
  write_u32_field MESH_CONTROL_FIELD_FLAGS_V1 (ce_flags e) ++
  write_u64_field MESH_CONTROL_FIELD_EPOCH_V1 (ce_epoch e) ++
  write_u64_field MESH_CONTROL_FIELD_PRECONDITION_EPOCH_V1 (ce_precondition_epoch e) ++
  mesh_mgmt_wire_write_tlv MESH_CONTROL_FIELD_REQUEST_ID_V1 (ce_request_id e) ++
  mesh_mgmt_wire_write_tlv MESH_CONTROL_FIELD_RESOURCE_ID_V1 (ce_resource_id e) ++
  mesh_mgmt_wire_write_tlv MESH_CONTROL_FIELD_BODY_V1 body.

Definition mesh_control_mmp_payload_encode_v1 (envelope : option mesh_control_envelope)
    (body : option bytes) (body_size : Z) (output : option bytes) (out_size : option Z) :
    mesh_control_mmp_result * option bytes * option Z :=
  if negb (non_null out_size) then (MESH_CONTROL_MMP_INVALID_ARG, output, out_size)
  else
    let out_size := assign out_size 0 in
    match envelope with
    | None => (MESH_CONTROL_MMP_INVALID_ARG, output, out_size)
    | Some e =>
        if negb (body_size =? ce_payload_size e) ||
           (negb (body_size =? 0) && negb (non_null body)) ||
           negb (control_ok (mesh_control_envelope_validate_v1 envelope))
        then (MESH_CONTROL_MMP_INVALID_ARG, output, out_size)
        else if MESH_CONTROL_MMP_BODY_MAX_V1 <? body_size
        then (MESH_CONTROL_MMP_RESOURCE_EXHAUSTED, output, out_size)
        else
          match mesh_control_mmp_body_digest_v1 body body_size (Some (zeros 32)) with
          | (MESH_CONTROL_MMP_OK, digest) =>
              if negb (memeq 32 (deref [] digest) (ce_payload_digest e))
              then (MESH_CONTROL_MMP_DIGEST_MISMATCH, output, out_size)
              else
                let required_size := MESH_CONTROL_MMP_PAYLOAD_HEADER_SIZE_V1 + body_size in
                let out_size := assign out_size required_size in
                if negb (non_null output) || (len (deref [] output) <? required_size)
                then (MESH_CONTROL_MMP_RESOURCE_EXHAUSTED, output, out_size)
                else
                  let written := control_payload_bytes e (block body body_size) in
                  let output := (λ o, blit o 0 written) <$> output in
                  if negb (len written =? required_size)
                  then (MESH_CONTROL_MMP_INVALID_SCHEMA,
                        (λ o, blit o 0 (zeros (Z.to_nat required_size))) <$> output,
                        assign out_size 0)
                  else (MESH_CONTROL_MMP_OK, output, out_size)
          | _ => (MESH_CONTROL_MMP_CRYPTO_FAILED, output, out_size)
          end
    end.

(** The field reads of the decoder: what [out_envelope] holds when they stop, and
    the body if they all succeed. *)
Definition control_payload_fields (payload : option bytes) (payload_size : Z) :
    mesh_control_envelope * option bytes :=
  let rd := deref zero_reader (mesh_mgmt_tlv_reader_init (Some zero_reader) payload payload_size) in
  let no_id := zeros 16 in
  let no_resource := zeros 32 in
  let e := partial_envelope 0 0 0 0 0 0 no_id no_resource in
  match read_field rd MESH_CONTROL_FIELD_DOMAIN_V1 4 with None => (e, None) | Some (v, rd) =>
  if negb (memeq 4 v MESH_CONTROL_MMP_MAGIC_V1) then (e, None)
  else
  match read_field rd MESH_CONTROL_FIELD_SCHEMA_V1 2 with None => (e, None) | Some (v, rd) =>
  let schema := mesh_mgmt_wire_read_u16 v in
  let e := partial_envelope schema 0 0 0 0 0 no_id no_resource in
  match read_field rd MESH_CONTROL_FIELD_KIND_V1 2 with None => (e, None) | Some (v, rd) =>
  let kind := mesh_mgmt_wire_read_u16 v in
  let e := partial_envelope schema kind 0 0 0 0 no_id no_resource in
  match read_field rd MESH_CONTROL_FIELD_RESOURCE_KIND_V1 2 with None => (e, None) | Some (v, rd) =>
  let resource_kind := mesh_mgmt_wire_read_u16 v in
  let e := partial_envelope schema kind resource_kind 0 0 0 no_id no_resource in
  match read_field rd MESH_CONTROL_FIELD_FLAGS_V1 4 with None => (e, None) | Some (v, rd) =>
  let flags := mesh_mgmt_wire_read_u32 v in
  let e := partial_envelope schema kind resource_kind flags 0 0 no_id no_resource in
  match read_field rd MESH_CONTROL_FIELD_EPOCH_V1 8 with None => (e, None) | Some (v, rd) =>
  let epoch := mesh_mgmt_wire_read_u64 v in
  let e := partial_envelope schema kind resource_kind flags epoch 0 no_id no_resource in
  match read_field rd MESH_CONTROL_FIELD_PRECONDITION_EPOCH_V1 8 with None => (e, None) | Some (v, rd) =>
  let pre := mesh_mgmt_wire_read_u64 v in
  let e := partial_envelope schema kind resource_kind flags epoch pre no_id no_resource in
  match read_field rd MESH_CONTROL_FIELD_REQUEST_ID_V1 16 with None => (e, None) | Some (request_id, rd) =>
  let e := partial_envelope schema kind resource_kind flags epoch pre request_id no_resource in
  match read_field rd MESH_CONTROL_FIELD_RESOURCE_ID_V1 32 with None => (e, None) | Some (resource_id, rd) =>
  let e := partial_envelope schema kind resource_kind flags epoch pre request_id resource_id in
  let '(r, rd, field) := mesh_mgmt_tlv_reader_next (Some rd) (Some zero_tlv_view) in
  let field := deref zero_tlv_view field in
  if negb (r =? 1) || negb (tv_field_id field =? MESH_CONTROL_FIELD_BODY_V1) ||
     (MESH_CONTROL_MMP_BODY_MAX_V1 <? tv_value_len field)
  then (e, None)
  else
  let '(r, _, _) := mesh_mgmt_tlv_reader_next rd (Some zero_tlv_view) in
  if negb (r =? 0) then (e, None) else (e, Some (deref [] (tv_value field)))
  end end end end end end end end end.

(** The fields copied from the verified header, and the body's size. *)
Definition header_envelope (e : mesh_control_envelope) (h : mesh_mgmt_header) (body_size : Z)
    (digest : bytes) : mesh_control_envelope :=
  mk_control_envelope (ce_schema_version e) (ce_kind e) (ce_flags e) (mh_message_id h)
    (ce_request_id e) (mh_mesh_id_hash h) (mh_origin_principal_key h) (mh_origin_node_id h)
    (mh_session_id h) (mh_target_node_id h) (ce_resource_kind e) (ce_reserved e)
    (ce_resource_id e) (ce_epoch e) (mh_origin_sequence h) (mh_issued_at_ms h)
    (mh_expires_at_ms h) (mh_principal_epoch h) (mh_incarnation h) (mh_certificate_serial h)
    (ce_precondition_epoch e) digest body_size.

Definition mesh_control_mmp_payload_decode_v1 (verified : option mesh_mgmt_verified_envelope)
    (out_envelope : option mesh_control_envelope) (out_body : option (option bytes))
    (out_body_size : option Z) :
    mesh_control_mmp_result * option mesh_control_envelope * option (option bytes) * option Z :=
  match verified with
  | Some v =>
      if negb (non_null out_envelope) || negb (non_null out_body) || negb (non_null out_body_size)
      then (MESH_CONTROL_MMP_INVALID_ARG, out_envelope, out_body, out_body_size)
      else
        let out_body := assign out_body None in
        let out_body_size := assign out_body_size 0 in
        let stop r e := (r, assign out_envelope e, out_body, out_body_size) in
        if negb (fv_kind (ve_frame v) =? MESH_MGMT_KIND_CONTROL_FRAME)
        then stop MESH_CONTROL_MMP_INVALID_SCHEMA zero_control_envelope
        else
          let payload := fv_payload (ve_frame v) in
          let payload_size := fv_payload_len (ve_frame v) in
          if negb (non_null payload) || (payload_size <? MESH_CONTROL_MMP_PAYLOAD_HEADER_SIZE_V1) ||
             (MESH_CONTROL_MMP_PAYLOAD_HEADER_SIZE_V1 + MESH_CONTROL_MMP_BODY_MAX_V1 <? payload_size)
          then stop MESH_CONTROL_MMP_INVALID_SCHEMA zero_control_envelope
          else
            match control_payload_fields payload payload_size with
            | (e, None) => stop MESH_CONTROL_MMP_INVALID_SCHEMA e
            | (e, Some body) =>
                let body_size := len body in
                let view := if body_size =? 0 then None else Some body in
                match mesh_control_mmp_body_digest_v1 view body_size (Some (zeros 32)) with
                | (MESH_CONTROL_MMP_OK, digest) =>
                    let e := header_envelope e (ve_header v) body_size (deref [] digest) in
                    if negb (control_ok (mesh_control_envelope_validate_v1 (Some e)))
                    then stop MESH_CONTROL_MMP_INVALID_SCHEMA zero_control_envelope
                    else (MESH_CONTROL_MMP_OK, assign out_envelope e, assign out_body view,
                          assign out_body_size body_size)
                | _ => stop MESH_CONTROL_MMP_CRYPTO_FAILED zero_control_envelope
                end
            end
  | None => (MESH_CONTROL_MMP_INVALID_ARG, out_envelope, out_body, out_body_size)
  end.

End Mmp.

(** ** The payload as a field list *)

Definition control_fields (e : mesh_control_envelope) (b : bytes) : list tlv :=
  [mk_tlv 1 MESH_CONTROL_MMP_MAGIC_V1; mk_tlv 2 (mesh_mgmt_wire_write_u16 (ce_schema_version e));
   mk_tlv 3 (mesh_mgmt_wire_write_u16 (ce_kind e));
   mk_tlv 4 (mesh_mgmt_wire_write_u16 (ce_resource_kind e));
   mk_tlv 5 (mesh_mgmt_wire_write_u32 (ce_flags e));
   mk_tlv 6 (mesh_mgmt_wire_write_u64 (ce_epoch e));
   mk_tlv 7 (mesh_mgmt_wire_write_u64 (ce_precondition_epoch e));
   mk_tlv 8 (ce_request_id e); mk_tlv 9 (ce_resource_id e); mk_tlv 10 b].

(** The members the payload carries have their C types, and the body fits. *)
Record carried_typed (e : mesh_control_envelope) (b : bytes) : Prop := {
  ct_ids : bytes_ok 16 (ce_request_id e) ∧ bytes_ok 32 (ce_resource_id e);
  ct_u16 : u16 (ce_schema_version e) ∧ u16 (ce_kind e) ∧ u16 (ce_resource_kind e);
  ct_u32 : u32 (ce_flags e);
  ct_u64 : u64 (ce_epoch e) ∧ u64 (ce_precondition_epoch e);
  ct_body : Forall u8 b ∧ len b <= MESH_CONTROL_MMP_BODY_MAX_V1 }.

(** [e] without the members the header supplies. *)
Definition carried (e : mesh_control_envelope) : mesh_control_envelope :=
  partial_envelope (ce_schema_version e) (ce_kind e) (ce_resource_kind e) (ce_flags e) (ce_epoch e)
    (ce_precondition_epoch e) (ce_request_id e) (ce_resource_id e).

Lemma write_u16_ok v : bytes_ok 2 (mesh_mgmt_wire_write_u16 v).
Proof. rewrite wire_write_u16_eq. split; auto with mesh. Qed.
Lemma write_u32_ok v : bytes_ok 4 (mesh_mgmt_wire_write_u32 v).
Proof. rewrite wire_write_u32_eq. split; auto with mesh. Qed.

Lemma control_payload_bytes_eq e b : control_payload_bytes e b = encode_tlvs (control_fields e b).
Proof.
  unfold control_payload_bytes, encode_tlvs, control_fields, write_u16_field, write_u32_field,
    write_u64_field, encode_tlv.
  cbn [fmap list_fmap concat t_id t_value]. by rewrite app_nil_r.
Qed.

Lemma tlv_ok_small i n v : 0 <= i < 2 ^ 16 → bytes_ok n v → Z.of_nat n < 2 ^ 16 → tlv_ok (mk_tlv i v).
Proof. intros Hi [Hl Hv] Hn. unfold tlv_ok, uint, len. cbn. split_and!; done || lia. Qed.

Lemma control_fields_ok e b : carried_typed e b → Forall tlv_ok (control_fields e b) ∧
  length <$> (t_value <$> control_fields e b) = [4; 2; 2; 2; 4; 8; 8; 16; 32; length b]%nat.
Proof.
  intros [[Hq Hr] _ _ _ [Hb Hlb]]. unfold MESH_CONTROL_MMP_BODY_MAX_V1, len in Hlb.
  change (Z.of_nat (length b) <= 15891) in Hlb. split.
  - assert (Hm : bytes_ok 4 MESH_CONTROL_MMP_MAGIC_V1) by evaluate.
    assert (Hbo : bytes_ok (length b) b) by done. unfold control_fields.
    repeat (constructor; [eapply tlv_ok_small; [lia|first [eassumption|apply write_u16_ok|apply write_u32_ok|apply write_u64_ok]|lia]|]).
    constructor.
  - cbn. by rewrite (proj1 Hq), (proj1 Hr).
Qed.

Lemma length_payload e b : carried_typed e b → len (control_payload_bytes e b) = 118 + len b.
Proof.
  intros H. rewrite control_payload_bytes_eq. unfold len.
  rewrite length_encode_tlvs, (proj2 (control_fields_ok e b H)). cbn. lia.
Qed.

Lemma payload_canonical e b : carried_typed e b →
  Forall u8 (control_payload_bytes e b) ∧
  mesh_mgmt_tlv_block_is_canonical (Some (control_payload_bytes e b))
    (len (control_payload_bytes e b)) = true.
Proof.
  intros H. destruct (control_fields_ok e b H) as [Hok _].
  assert (Hu : Forall u8 (control_payload_bytes e b)).
  { rewrite control_payload_bytes_eq. unfold encode_tlvs.
    induction Hok as [|t l (Hi & Hv & Hl) _ IH]; [constructor|].
    cbn [fmap list_fmap concat]. apply Forall_app. split; [|done].
    unfold encode_tlv, mesh_mgmt_wire_write_tlv.
    rewrite wire_write_u16_eq, (wire_write_u16_eq (wrap _ _)).
    repeat (apply Forall_app; split); auto with mesh. }
  split; [done|]. apply block_canonical_iff; [done|]. exists (control_fields e b).
  split_and!; [apply control_payload_bytes_eq|done|]. cbn. lia.
Qed.

(** ** Parsing *)

Lemma fields_parse e b : carried_typed e b →
  control_payload_fields (Some (control_payload_bytes e b)) (len (control_payload_bytes e b)) =
    (carried e, Some b).
Proof.
  intros H. destruct (control_fields_ok e b H) as [Hok _].
  rewrite control_payload_bytes_eq. unfold control_payload_fields.
  change (deref zero_reader _) with
    (reader_at (encode_tlvs (control_fields e b)) (field_offset (control_fields e b) 0) None).
  destruct H as [[Hq Hr] (H1 & H2 & H3) H4 (H5 & H6) [Hb Hlb]].
  assert (Hn : ∀ n v z, bytes_ok n v → z = Z.of_nat n → len v = z) by (by intros n v z [<- _] ->).
  do 9 (erewrite read_field_at;
    [|done|reflexivity|by cbn; try lia|first [reflexivity|eapply Hn;
       [first [eassumption|apply write_u16_ok|apply write_u32_ok|apply write_u64_ok]|reflexivity]]]).
  change (memeq 4 _ _) with true. cbn [negb]. cbv iota.
  set (l := control_fields e b) in *.
  rewrite (next_field _ (field_offset l 9) (Some MESH_CONTROL_FIELD_RESOURCE_ID_V1) zero_tlv_view
    (mk_tlv 10 b) []);
    [|apply field_offset_le|by eapply (Forall_lookup_1 _ _ 9)|done|
     by rewrite encode_tlvs_drop].
  cbn [deref view_of tv_field_id tv_value_len tv_value t_id t_value].
  change (negb (1 =? 1) || negb (10 =? MESH_CONTROL_FIELD_BODY_V1)) with false. cbn [orb].
  rewrite (proj2 (Z.ltb_ge _ _) Hlb).
  replace (field_offset l 9 + length (encode_tlv (mk_tlv 10 b)))%nat with (length (encode_tlvs l)).
  2:{ unfold field_offset. rewrite <- (take_drop 9 l) at 1. rewrite encode_tlvs_app, length_app.
      f_equal. unfold encode_tlvs. cbn. by rewrite app_nil_r. }
  rewrite next_end. change (negb (0 =? 0)) with false. cbv iota.
  rewrite !wire_read_write_u16, wire_read_write_u32, !wire_read_write_u64 by done. done.
Qed.

(** One field of a successful parse [H]. *)
Ltac read_one H :=
  let v := fresh "v" in let rd := fresh "rd" in let Hr := fresh "Hr" in
  let off := fresh "off" in let Ho := fresh "Ho" in let Hd := fresh "Hd" in
  let Hs := fresh "Hs" in let Hu := fresh "Hu" in
  match type of H with context [read_field ?r ?i ?n] =>
    destruct (read_field r i n) as [[v rd]|] eqn:Hr; [|done] end;
  apply read_field_inv in Hr as (off & -> & Ho & Hd & Hs & Hu); [|done..].

Lemma fields_inv p e b : Forall u8 p →
  control_payload_fields (Some p) (len p) = (e, Some b) →
  carried_typed e b ∧ e = carried e ∧ p = control_payload_bytes e b.
Proof.
  intros Hp H. unfold control_payload_fields in H.
  change (deref zero_reader _) with (reader_at p 0 None) in H.
  assert (Hoff : (0 <= length p)%nat) by lia.
  read_one H. step_in H; [done|]. do 8 read_one H.
  destruct (mesh_mgmt_tlv_reader_next _ _) as [[r rd1] f1] eqn:En. step_in H; [done|]. bool_prop.
  subst r. destruct (next_inv p Hp _ _ _ _ _ Ho7 En) as (t & rest & Hd8 & Ht & Hab).
  rewrite (next_field p _ _ zero_tlv_view t rest) in En by done.
  set (n := length (encode_tlv t)) in En. injection En as <- <-.
  cbn [deref view_of tv_value tv_field_id tv_value_len] in *.
  pose proof (length_drop p off7) as Hld. rewrite Hd8, length_app in Hld. fold n in Hld.
  assert (Hn : (off7 + n <= length p)%nat) by lia.
  destruct (mesh_mgmt_tlv_reader_next _ _) as [[r rd2] f2] eqn:En2. step_in H; [done|]. bool_prop.
  subst r. injection H as <- <-.
  pose proof (next_result p (off7 + n) (Some (t_id t)) zero_tlv_view Hn) as Hr.
  rewrite En2 in Hr. destruct Hr as [?|[?|[_ Hend]]]; [done..|].
  assert (Hrest : rest = []).
  { apply nil_length_inv. lia. }
  destruct t as [i w]. cbn [t_id t_value] in *. subst i rest.
  assert (Hok : ∀ n z v, len v = z → z = Z.of_nat n → Forall u8 v → bytes_ok n v).
  { intros n' z v' Hv -> Hu'. split; [unfold len in Hv; lia|done]. }
  assert (Hr8 : ∀ v, bytes_ok 8 v → u64 (mesh_mgmt_wire_read_u64 v)).
  { intros v' Hv. rewrite wire_read_u64_eq by done. pose proof (be_value_range v' (proj2 Hv)) as Hr.
    unfold len in Hr. by rewrite (proj1 Hv) in Hr. }
  destruct Ht as (_ & Hw & _).
  split; [|split; [unfold carried; cbn; reflexivity|]].
  - split; cbn; split_and!; first [done | by eapply Hok | by eapply Hr8, Hok | solve [auto with mesh] | apply (wire_read_u32_range v3)].
  - rewrite memeq_spec, bool_decide_eq_true in E by (unfold len in *; done || lia). subst v.
    unfold control_payload_bytes, write_u16_field, write_u32_field, write_u64_field. cbn.
    rewrite !wire_write_read_u16, wire_write_read_u32, !wire_write_read_u64 by (by eapply Hok).
    rewrite <- (drop_0 p) at 1. rewrite Hd, Hd0, Hd1, Hd2, Hd3, Hd4, Hd5, Hd6, Hd7, Hd8, app_nil_r.
    done.
Qed.

(** ** Digests *)

Section Digest.
Context {CR : Crypto}.

(** The digest of a body: zero for the empty one. *)
Definition body_digest (b : bytes) : bytes := if len b =? 0 then zeros 32 else crypto_blake2b b.
(** The pointer the decoder hands out for a body. *)
Definition body_view (b : bytes) : option bytes := if len b =? 0 then None else Some b.

Lemma body_digest_eq b d0 : len b <= MESH_CONTROL_MMP_BODY_MAX_V1 →
  mesh_control_mmp_body_digest_v1 (body_view b) (len b) (Some d0) =
    (MESH_CONTROL_MMP_OK, Some (body_digest b)).
Proof.
  intros Hb. unfold mesh_control_mmp_body_digest_v1, body_view, body_digest.
  rewrite (proj2 (Z.ltb_ge _ _) Hb). change (negb (non_null (Some d0))) with false.
  destruct (len b =? 0) eqn:E; [done|]. cbn [negb orb andb].
  change (negb (non_null (Some b))) with false. cbv iota. cbn [assign fmap option_fmap option_map].
  unfold mesh_mgmt_blake2b_256, len. cbn. by rewrite Nat2Z.id, take_ge.
Qed.

Lemma block_view b : block (body_view b) (len b) = b.
Proof.
  unfold block, body_view. destruct (Z.eqb_spec (len b) 0) as [E|_].
  - destruct b; [done|]. unfold len in E. cbn in E. lia.
  - cbn. unfold len. by rewrite Nat2Z.id, take_ge.
Qed.

Lemma body_digest_ok {CL : CryptoLaws} b : bytes_ok 32 (body_digest b).
Proof. unfold body_digest. destruct (len b =? 0); [apply zeros_ok|apply crypto_blake2b_size]. Qed.
End Digest.

Section Correct.
Context {CR : Crypto} {CL : CryptoLaws}.

(** What an accepted payload [p] under the header [h] means: [e] is the carried
    members completed from the header, with the size and digest of the body [b]. *)
Definition control_message (h : mesh_mgmt_header) (p : bytes) (e : mesh_control_envelope)
    (b : bytes) : Prop :=
  carried_typed e b ∧ p = control_payload_bytes e b ∧
  e = header_envelope (carried e) h (len b) (body_digest b) ∧
  mesh_control_envelope_validate_v1 (Some e) = MESH_CONTROL_OK.

Lemma control_ok_true r : control_ok r = true ↔ r = MESH_CONTROL_OK.
Proof. by destruct r. Qed.

Lemma decode_intro v h p e b e0 b0 n0 : fv_kind v = MESH_MGMT_KIND_CONTROL_FRAME →
  fv_payload v = Some p → fv_payload_len v = len p → control_message h p e b →
  mesh_control_mmp_payload_decode_v1 (Some (mk_envelope v h)) (Some e0) (Some b0) (Some n0) =
    (MESH_CONTROL_MMP_OK, Some e, Some (body_view b), Some (len b)).
Proof.
  intros Hk Hp Hl (Ht & -> & He & Hv). unfold mesh_control_mmp_payload_decode_v1.
  change (negb (non_null (Some e0)) || _ || _) with false. cbv iota. cbn [ve_frame ve_header].
  rewrite Hk, Hp, Hl, fields_parse by done. rewrite Z.eqb_refl. cbn [negb].
  change (negb (non_null (Some _))) with false. rewrite length_payload by done.
  pose proof (proj2 (ct_body _ _ Ht)) as Hb. assert (0 <= len b) by (unfold len; lia).
  unfold MESH_CONTROL_MMP_PAYLOAD_HEADER_SIZE_V1. pass_guards.
  change (if len b =? 0 then None else Some b) with (body_view b).
  rewrite body_digest_eq by done. cbn [deref]. rewrite <- He, Hv. done.
Qed.

Lemma payload_decode_inv v h p e0 b0 n0 o w n : Forall u8 p → fv_payload v = Some p →
  fv_payload_len v = len p →
  mesh_control_mmp_payload_decode_v1 (Some (mk_envelope v h)) (Some e0) (Some b0) (Some n0) =
    (MESH_CONTROL_MMP_OK, o, w, n) →
  fv_kind v = MESH_MGMT_KIND_CONTROL_FRAME ∧ ∃ e b, control_message h p e b ∧ o = Some e ∧
    w = Some (body_view b) ∧ n = Some (len b).
Proof.
  intros Hpb Hp Hl H. unfold mesh_control_mmp_payload_decode_v1 in H.
  change (negb (non_null (Some e0)) || _ || _) with false in H. cbv iota in H.
  cbn [ve_frame ve_header] in H. rewrite Hp, Hl in H. do 2 (step_in H; [done|]).
  destruct (control_payload_fields (Some p) (len p)) as [e1 [b|]] eqn:Ef; [|done].
  destruct (fields_inv _ _ _ Hpb Ef) as (Ht & He1 & Hpe).
  change (if len b =? 0 then None else Some b) with (body_view b) in H.
  rewrite body_digest_eq in H by apply Ht. cbn [deref] in H. step_in H; [done|].
  injection H as <- <- <-. split; [by bool_prop|].
  exists (header_envelope e1 h (len b) (body_digest b)), b. split; [|done]. unfold control_message.
  split; [|split; [done|split]].
  - destruct Ht. by split.
  - change (carried (header_envelope e1 h _ _)) with (carried e1). by rewrite <- He1.
  - apply negb_false_iff, control_ok_true in E1. done.
Qed.

Lemma encode_intro e b out n0 : carried_typed e b → ce_payload_size e = len b →
  ce_payload_digest e = body_digest b → mesh_control_envelope_validate_v1 (Some e) = MESH_CONTROL_OK →
  118 + len b <= len out →
  mesh_control_mmp_payload_encode_v1 (Some e) (body_view b) (len b) (Some out) (Some n0) =
    (MESH_CONTROL_MMP_OK,
     Some (control_payload_bytes e b ++ drop (length (control_payload_bytes e b)) out),
     Some (118 + len b)).
Proof.
  intros Ht Hs Hd Hv Ho. unfold mesh_control_mmp_payload_encode_v1.
  change (negb (non_null (Some n0))) with false. cbv iota. rewrite Hs, Hv, Z.eqb_refl. cbn [negb orb].
  assert (Hnn : negb (len b =? 0) && negb (non_null (body_view b)) = false).
  { unfold body_view. by destruct (len b =? 0). }
  pose proof (proj2 (ct_body _ _ Ht)) as Hb. rewrite Hnn. cbn [control_ok negb orb].
  rewrite (proj2 (Z.ltb_ge _ _) Hb), body_digest_eq by done. cbn [deref].
  rewrite Hd, memeq_refl, block_view, length_payload by done. cbn [negb orb].
  change (negb (non_null (Some out))) with false. cbn [orb deref].
  unfold MESH_CONTROL_MMP_PAYLOAD_HEADER_SIZE_V1. rewrite (proj2 (Z.ltb_ge _ _) Ho), Z.eqb_refl.
  cbn [negb assign fmap option_fmap option_map]. unfold blit. by rewrite take_0.
Qed.

End Correct.

(** ** Theorems *)


(** The caller's signing request for [e]: the header members of the envelope. *)
Definition sign_request (e : mesh_control_envelope) (sk p : bytes) (budget : Z) :
    mesh_mgmt_sign_input :=
  mk_sign_input 1 MESH_MGMT_KIND_CONTROL_FRAME 0
    (mk_unsigned_header (ce_mesh_id e) (ce_origin_node_id e) (ce_target_node_id e)
       (ce_principal_epoch e) (ce_incarnation e) (ce_session_id e) (ce_sequence e)
       (ce_message_id e) (ce_issued_at_ms e) (ce_expires_at_ms e) budget (ce_certificate_serial e))
    (Some sk) (Some p) (len p).

(** An envelope and body a sender with the key pair [sk], [pk] may send. *)
Record sendable `{Crypto} (e : mesh_control_envelope) (b sk pk : bytes) : Prop := {
  sd_carried : carried_typed e b;
  sd_32 : bytes_ok 32 (ce_mesh_id e) ∧ bytes_ok 32 (ce_origin_node_id e) ∧
    bytes_ok 32 (ce_target_node_id e);
  sd_16 : bytes_ok 16 (ce_session_id e) ∧ bytes_ok 16 (ce_message_id e);
  sd_u64 : u64 (ce_principal_epoch e) ∧ u64 (ce_incarnation e) ∧ u64 (ce_sequence e) ∧
    u64 (ce_issued_at_ms e) ∧ u64 (ce_expires_at_ms e) ∧ u64 (ce_certificate_serial e);
  sd_valid : mesh_control_envelope_validate_v1 (Some e) = MESH_CONTROL_OK;
  sd_body : ce_payload_size e = len b ∧ ce_payload_digest e = body_digest b;
  sd_key : evp_public sk = Some pk ∧ ce_origin_principal e = pk;
  sd_target : control_bytes_zero (ce_target_node_id e) = false }.

Lemma valid_times e : mesh_control_envelope_validate_v1 (Some e) = MESH_CONTROL_OK →
  ce_issued_at_ms e < ce_expires_at_ms e ∧ ce_reserved e = 0.
Proof.
  unfold mesh_control_envelope_validate_v1. intros H. step_in H; [done|]. clear H. bool_prop. lia.
Qed.

Lemma sendable_signable `{CryptoLaws} e b sk pk budget capacity : sendable e b sk pk →
  0 <= budget <= 1 → 493 + len b <= capacity →
  signable (sign_request e sk (control_payload_bytes e b) budget) sk pk (control_payload_bytes e b)
    capacity.
Proof.
  intros [Ht (H1 & H2 & H3) (H4 & H5) (H6 & H7 & H8 & H9 & H10 & H11) Hv _ [Hk _] Hz] Hb Hc.
  destruct (payload_canonical e b Ht) as [Hu Hcan].
  destruct (valid_times e Hv) as [Htm _]. pose proof (length_payload e b Ht) as Hl.
  pose proof (proj2 (ct_body _ _ Ht)) as Hmax. change (len b <= 15891) in Hmax.
  split; try done.
  - split; cbn; split_and!; try done; try apply zeros_ok; unfold uint; lia.
  - unfold mesh_mgmt_header_constraints_are_valid. cbn.
    unfold mesh_mgmt_bytes_are_zero. unfold control_bytes_zero in Hz. rewrite Hz.
    rewrite (proj2 (Z.leb_gt _ _) Htm), (proj2 (Z.ltb_ge 1 budget)) by lia. done.
  - rewrite Hl. lia.
Qed.

(** C33: a valid control message sent by the holder of its principal's key
    arrives: encoding the payload, signing the frame, verifying it and decoding
    it all succeed, and the receiver gets the sender's envelope and body. *)
Theorem control_message_delivered {CR : Crypto} {CL : CryptoLaws} (e e0 : mesh_control_envelope)
    (b sk pk buffer out : bytes) (b0 : option bytes) (budget m0 l0 n0 : Z) :
  sendable e b sk pk → (∀ msg, is_Some (evp_sign sk msg)) → 0 <= budget <= 1 →
  118 + len b <= len buffer → 493 + len b <= len out →
  ∃ p frame ve,
    mesh_control_mmp_payload_encode_v1 (Some e) (body_view b) (len b) (Some buffer) (Some m0) =
      (MESH_CONTROL_MMP_OK, Some (p ++ drop (length p) buffer), Some (len p)) ∧
    mesh_mgmt_envelope_sign_v1 (Some (sign_request e sk p budget)) (Some out) (Some l0) =
      (MESH_MGMT_ENVELOPE_OK, Some (frame ++ drop (length frame) out), Some (len frame)) ∧
    mesh_mgmt_envelope_verify_v1 (Some frame) (Some zero_envelope) =
      (MESH_MGMT_ENVELOPE_OK, Some ve) ∧
    mesh_control_mmp_payload_decode_v1 (Some ve) (Some e0) (Some b0) (Some n0) =
      (MESH_CONTROL_MMP_OK, Some e, Some (body_view b), Some (len b)).
Proof.
  intros Hsd Hsign Hbud Hbuf Hout.
  pose proof (sendable_signable e b sk pk budget (len out) Hsd Hbud Hout) as Hsg.
  destruct Hsd as [Ht _ _ _ Hv [Hsz Hdg] [_ Hpk] _].
  destruct (sign_then_verify _ _ _ _ _ l0 zero_envelope Hsg Hsign) as (frame & s & Hs & Hver).
  exists (control_payload_bytes e b), frame. eexists. rewrite length_payload by done.
  split_and!; [by apply encode_intro|exact Hs|exact Hver|].
  apply (decode_intro _ _ (control_payload_bytes e b)); [done..|].
  split_and!; try done. destruct (valid_times e Hv) as [_ Hres]. rewrite <- Hsz, <- Hdg, <- Hpk.
  destruct e. cbn in *. subst. done.
Qed.

(** ** Witnesses *)

#[local] Existing Instance w_crypto.
#[local] Existing Instance w_crypto_laws.

Definition w_secret : bytes := replicate 32 1.
Definition w_body : bytes := [1; 2; 3].
Definition w_message : mesh_control_envelope :=
  mk_control_envelope 1 MESH_CONTROL_MESSAGE_INTENT 0 (1 :: zeros 15) (2 :: zeros 15) (3 :: zeros 31)
    (w_hash w_secret) (4 :: zeros 31) (5 :: zeros 15) (6 :: zeros 31)
    MESH_CONTROL_RESOURCE_NETWORK 0 (7 :: zeros 31) 8 9 1000 2000 10 11 12 0 (w_hash w_body) 3.

Lemma w_message_sendable : sendable w_message w_body w_secret (w_hash w_secret).
Proof.
  split; try (split_and!; evaluate); try (vm_compute; reflexivity).
  - split; split_and!; first [evaluate | vm_compute; discriminate].
Qed.

Definition w_control_frame : bytes :=
  deref [] (mesh_mgmt_envelope_sign_v1
    (Some (sign_request w_message w_secret (control_payload_bytes w_message w_body) 1))
    (Some (zeros 496)) (Some 0)).1.2.
Definition w_control_verified : mesh_mgmt_verified_envelope :=
  deref zero_envelope (mesh_mgmt_envelope_verify_v1 (Some w_control_frame) (Some zero_envelope)).2.


Lemma control_message_delivered_witness : ∃ p frame ve,
  mesh_control_mmp_payload_encode_v1 (Some w_message) (Some w_body) 3 (Some (zeros 121)) (Some 0) =
    (MESH_CONTROL_MMP_OK, Some (p ++ drop (length p) (zeros 121)), Some (len p)) ∧
  mesh_mgmt_envelope_sign_v1 (Some (sign_request w_message w_secret p 1)) (Some (zeros 496))
      (Some 0) =
    (MESH_MGMT_ENVELOPE_OK, Some (frame ++ drop (length frame) (zeros 496)), Some (len frame)) ∧
  mesh_mgmt_envelope_verify_v1 (Some frame) (Some zero_envelope) = (MESH_MGMT_ENVELOPE_OK, Some ve) ∧
  mesh_control_mmp_payload_decode_v1 (Some ve) (Some zero_control_envelope) (Some None) (Some 0) =
    (MESH_CONTROL_MMP_OK, Some w_message, Some (Some w_body), Some 3).
Proof.
  apply (control_message_delivered w_message zero_control_envelope w_body w_secret
    (w_hash w_secret) (zeros 121) (zeros 496) None 1 0 0 0);
    [apply w_message_sendable|intros msg; eexists; reflexivity|lia|vm_compute; discriminate..].
Defined.
