(* ===== verification/ControlDocument.v ===== *)
(** * Control documents: [mesh/src/mesh_control_document.c]

    The intent header, the function assignment document, and the network
    snapshot with its peers and routes.  Every writer fills its buffer from the
    start without gaps, so an encoder's output is the concatenation of what it
    stores, in offset order. *)

From S2P Require Import Prelude Wire MgmtCrypto MgmtCodec ControlPrimitives ControlMmp.

(** ** Data *)

Definition MESH_CONTROL_INTENT_MAGIC_V1 : bytes := [84; 67; 73; 49].
Definition MESH_CONTROL_FUNCTION_MAGIC_V1 : bytes := [84; 67; 70; 49].
Definition MESH_CONTROL_NETWORK_MAGIC_V1 : bytes := [84; 67; 78; 49].

Definition MESH_CONTROL_INTENT_HEADER_SIZE_V1 : Z := 8.
Definition MESH_CONTROL_FUNCTION_DOCUMENT_SIZE_V1 : Z := 232.
Definition MESH_CONTROL_NETWORK_TICKET_SIZE_V1 : Z := 300.
Definition MESH_CONTROL_NETWORK_NAME_CAPACITY_V1 : Z := 64.
Definition MESH_CONTROL_NETWORK_MAX_PEERS_V1 : Z := 256.
Definition MESH_CONTROL_NETWORK_MAX_ROUTES_V1 : Z := 256.
Definition MESH_CONTROL_NETWORK_ROUTE_SIZE_V1 : Z := 40.
Definition MESH_CONTROL_NETWORK_DOCUMENT_BASE_SIZE_V1 : Z := 632.
Definition MESH_CONTROL_NETWORK_DOCUMENT_MAX_SIZE_V1 : Z :=
  MESH_CONTROL_NETWORK_DOCUMENT_BASE_SIZE_V1 +
  MESH_CONTROL_NETWORK_MAX_PEERS_V1 * Z.of_nat MESH_CONTROL_NODE_ID_SIZE +
  MESH_CONTROL_NETWORK_MAX_ROUTES_V1 * MESH_CONTROL_NETWORK_ROUTE_SIZE_V1.

Definition MESH_CONTROL_NETWORK_ROUTE_SUBNET_V1 : Z := 1.
Definition MESH_CONTROL_NETWORK_ROUTE_EXIT_V1 : Z := 2.
Definition MESH_CONTROL_NETWORK_ACTIVE_V1 : Z := 1.
Definition MESH_CONTROL_NETWORK_TOMBSTONED_V1 : Z := 3.
Definition MESH_CONTROL_NETWORK_USERSPACE_V1 : Z := 1.
Definition MESH_CONTROL_NETWORK_OS_ISOLATED_V1 : Z := 3.

Record mesh_control_intent_view : Type := mk_intent {
  iv_action : Z;
  iv_document : option bytes;
  iv_document_size : Z }.
Definition zero_intent : mesh_control_intent_view := mk_intent 0 None 0.

Record mesh_control_network_route : Type := mk_route {
  nr_destination_network : Z;
  nr_prefix_length : Z;
  nr_kind : Z;
  nr_metric : Z;
  nr_next_hop_node_id : bytes }.
Definition zero_route : mesh_control_network_route := mk_route 0 0 0 0 (zeros 32).

Record mesh_control_network_document : Type := mk_network_document {
  nd_schema_version : Z;
  nd_lifecycle : Z;
  nd_attach_mode : Z;
  nd_reserved : Z;
  nd_flags : Z;
  nd_network_uid : bytes;
  nd_mesh_id : bytes;
  nd_managed_node_id : bytes;
  nd_generation : Z;
  nd_policy_epoch : Z;
  nd_route_epoch : Z;
  nd_key_epoch : Z;
  nd_ipv4_address : Z;
  nd_ipv4_prefix : Z;
  nd_mtu : Z;
  nd_name : bytes;
  nd_policy_digest : bytes;
  nd_address_pool_digest : bytes;
  nd_route_digest : bytes;
  nd_dns_digest : bytes;
  nd_membership_ticket : bytes;
  nd_authorized_peer_node_ids : option bytes;
  nd_authorized_peer_count : Z;
  nd_route_entries : option bytes;
  nd_route_count : Z }.
Definition zero_network_document : mesh_control_network_document :=
  mk_network_document 0 0 0 0 0 (zeros 16) (zeros 32) (zeros 32) 0 0 0 0 0 0 0 (zeros 64) (zeros 32)
    (zeros 32) (zeros 32) (zeros 32) (zeros 300) None 0 None 0.

(** ** C library *)

(** The sign of [memcmp(a, b, n)]: lexicographic order on unsigned bytes. *)
Fixpoint compare_bytes (a b : bytes) : Z :=
  match a, b with
  | x :: a', y :: b' => if x =? y then compare_bytes a' b' else if x <? y then -1 else 1
  | _, _ => 0
  end.
Definition memcmp (n : nat) (a b : bytes) : Z := compare_bytes (take n a) (take n b).

(** [strnlen(s, n)] *)
Fixpoint strnlen (s : bytes) (n : nat) : nat :=
  match n, s with
  | S n', x :: s' => if x =? 0 then O else S (strnlen s' n')
  | _, _ => O
  end.

(** ** Names and peers *)

Definition mesh_control_bytes_zero (b : option bytes) (size : nat) : bool :=
  match b with None => true | Some b => or_bytes (take size b) =? 0 end.

Definition name_char_valid (ch : Z) : bool :=
  negb ((ch <? 0x20) || (ch =? 0x7f) || (ch =? 47) || (ch =? 92)).

(** [None] when invalid, else the value stored in [out_size]. *)
Definition mesh_control_network_name_valid (name : option bytes) : option Z :=
  match name with
  | None => None
  | Some name =>
      let size := strnlen name 64 in
      if (Z.of_nat size =? 0) || (MESH_CONTROL_NETWORK_NAME_CAPACITY_V1 <=? Z.of_nat size) then None
      else if forallb name_char_valid (take size name) then Some (Z.of_nat size) else None
  end.

(** The loop over the peers from [index] on, [n] of them left. *)
Fixpoint peers_loop (peers : bytes) (n index : nat) : bool :=
  match n with
  | O => true
  | S n' =>
      let current := sub peers (index * 32) 32 in
      if mesh_control_bytes_zero (Some current) 32 then false
      else if negb (Nat.eqb index 0) && (0 <=? memcmp 32 (sub peers ((index - 1) * 32) 32) current)
      then false
      else peers_loop peers n' (S index)
  end.

Definition mesh_control_network_peers_valid (peers : option bytes) (peer_count : Z) : bool :=
  if (MESH_CONTROL_NETWORK_MAX_PEERS_V1 <? peer_count) ||
     (negb (peer_count =? 0) && negb (non_null peers))
  then false
  else peers_loop (deref [] peers) (Z.to_nat peer_count) 0.

(** ** Routes *)

Definition mesh_control_network_route_required_role (kind : Z) : Z :=
  if kind =? MESH_CONTROL_NETWORK_ROUTE_SUBNET_V1 then Z.shiftl 1 1
  else if kind =? MESH_CONTROL_NETWORK_ROUTE_EXIT_V1 then Z.shiftl 1 2 else 0.

Definition mesh_control_network_route_valid (route : option mesh_control_network_route) : bool :=
  match route with
  | None => false
  | Some r =>
      if (32 <? nr_prefix_length r) ||
         (mesh_control_network_route_required_role (nr_kind r) =? 0) ||
         mesh_control_bytes_zero (Some (nr_next_hop_node_id r)) 32
      then false
      else
        let mask := if nr_prefix_length r =? 0 then 0
                    else wrap 32 (Z.shiftl UINT32_MAX (32 - nr_prefix_length r)) in
        (nr_destination_network r =? Z.land (nr_destination_network r) mask) &&
        (negb (nr_kind r =? MESH_CONTROL_NETWORK_ROUTE_EXIT_V1) ||
         ((nr_prefix_length r =? 0) && (nr_destination_network r =? 0))) &&
        (negb (nr_kind r =? MESH_CONTROL_NETWORK_ROUTE_SUBNET_V1) ||
         negb (nr_prefix_length r =? 0))
  end.

(** Its callers use the sign only. *)
Definition mesh_control_network_route_compare (left right : mesh_control_network_route) : Z :=
  if negb (nr_destination_network left =? nr_destination_network right) then
    if nr_destination_network left <? nr_destination_network right then -1 else 1
  else if negb (nr_prefix_length left =? nr_prefix_length right) then
    if nr_prefix_length right <? nr_prefix_length left then -1 else 1
  else if negb (nr_metric left =? nr_metric right) then
    if nr_metric left <? nr_metric right then -1 else 1
  else
    let node_order := memcmp 32 (nr_next_hop_node_id left) (nr_next_hop_node_id right) in
    if negb (node_order =? 0) then node_order else nr_kind left - nr_kind right.

(** The 40 bytes of a route. *)
Definition route_bytes (r : mesh_control_network_route) : bytes :=
  mesh_mgmt_wire_write_u32 (nr_destination_network r) ++ [nr_prefix_length r; nr_kind r] ++
  mesh_mgmt_wire_write_u16 (nr_metric r) ++ take 32 (nr_next_hop_node_id r).

Definition mesh_control_network_route_encode_v1 (route : option mesh_control_network_route)
    (output : option bytes) : mesh_control_result * option bytes :=
  if negb (mesh_control_network_route_valid route) || negb (non_null output)
  then (MESH_CONTROL_INVALID_ARG, output)
  else (MESH_CONTROL_OK, (λ o, blit o 0 (route_bytes (deref zero_route route))) <$> output).

Definition read_route (input : bytes) : mesh_control_network_route :=
  mk_route (mesh_mgmt_wire_read_u32 (sub input 0 4)) (at_ input 4) (at_ input 5)
    (mesh_mgmt_wire_read_u16 (sub input 6 2)) (sub input 8 32).

Definition mesh_control_network_route_decode_v1 (input : option bytes)
    (out_route : option mesh_control_network_route) :
    mesh_control_result * option mesh_control_network_route :=
  match input, out_route with
  | Some input, Some _ =>
      let out_route := Some (read_route input) in
      if negb (mesh_control_network_route_valid out_route)
      then (MESH_CONTROL_INVALID_ARG, Some zero_route)
      else (MESH_CONTROL_OK, out_route)
  | _, _ => (MESH_CONTROL_INVALID_ARG, out_route)
  end.

Section Documents.
Context {CR : Crypto}.

Definition mesh_control_network_routes_digest_v1 (route_entries : option bytes) (route_count : Z)
    (out_digest : option bytes) : mesh_control_result * option bytes :=
  if negb (non_null out_digest) || (MESH_CONTROL_NETWORK_MAX_ROUTES_V1 <? route_count) ||
     (negb (route_count =? 0) && negb (non_null route_entries))
  then (MESH_CONTROL_INVALID_ARG, out_digest)
  else if route_count =? 0 then (MESH_CONTROL_OK, assign out_digest (zeros 32))
  else
    match mesh_mgmt_blake2b_256 route_entries (route_count * MESH_CONTROL_NETWORK_ROUTE_SIZE_V1)
            out_digest with
    | (MESH_MGMT_CRYPTO_OK, out_digest) => (MESH_CONTROL_OK, out_digest)
    | (_, out_digest) => (MESH_CONTROL_INVALID_STATE, out_digest)
    end.

(** The loop over the peers from [index] on, [n] of them left. *)
Fixpoint peer_listed (peers node : bytes) (n index : nat) : bool :=
  match n with
  | O => false
  | S n' => if memeq 32 node (sub peers (index * 32) 32) then true
            else peer_listed peers node n' (S index)
  end.

Definition mesh_control_network_route_next_hop_allowed (document : mesh_control_network_document)
    (route : mesh_control_network_route) : bool :=
  let required_role := mesh_control_network_route_required_role (nr_kind route) in
  if memeq 32 (nr_next_hop_node_id route) (nd_managed_node_id document) then
    let local_roles := mesh_mgmt_wire_read_u32 (sub (nd_membership_ticket document) 176 4) in
    negb (Z.land local_roles required_role =? 0)
  else
    peer_listed (deref [] (nd_authorized_peer_node_ids document)) (nr_next_hop_node_id route)
      (Z.to_nat (nd_authorized_peer_count document)) 0.

(** The loop over the routes from [index] on, [n] of them left. *)
Fixpoint routes_loop (document : mesh_control_network_document) (entries : bytes) (n index : nat)
    (previous : mesh_control_network_route) : bool :=
  match n with
  | O => true
  | S n' =>
      match mesh_control_network_route_decode_v1 (Some (sub entries (index * 40) 40))
              (Some zero_route) with
      | (MESH_CONTROL_OK, Some current) =>
          if negb (mesh_control_network_route_next_hop_allowed document current) ||
             (negb (Nat.eqb index 0) &&
              (0 <=? mesh_control_network_route_compare previous current))
          then false
          else routes_loop document entries n' (S index) current
      | _ => false
      end
  end.

Definition mesh_control_network_routes_valid (document : option mesh_control_network_document) :
    bool :=
  match document with
  | None => false
  | Some d =>
      if (MESH_CONTROL_NETWORK_MAX_ROUTES_V1 <? nd_route_count d) ||
         (negb (nd_route_count d =? 0) && negb (non_null (nd_route_entries d)))
      then false
      else if nd_route_count d =? 0
      then mesh_control_bytes_zero (Some (nd_route_digest d)) 32
      else if mesh_control_bytes_zero (Some (nd_route_digest d)) 32 then false
      else
        match mesh_control_network_routes_digest_v1 (nd_route_entries d) (nd_route_count d)
                (Some (zeros 32)) with
        | (MESH_CONTROL_OK, digest) =>
            if negb (mesh_mgmt_crypto_equal_32 (Some (nd_route_digest d)) digest) then false
            else routes_loop d (deref [] (nd_route_entries d)) (Z.to_nat (nd_route_count d)) 0
                   zero_route
        | _ => false
        end
  end.

(** ["MTK1"] *)
Definition ticket_magic : bytes := [77; 84; 75; 49].

(** [None] when invalid, else the value stored in [name_size]. *)
Definition mesh_control_network_document_valid (document : option mesh_control_network_document) :
    option Z :=
  match document with
  | None => None
  | Some d =>
      if negb (nd_schema_version d =? MESH_CONTROL_SCHEMA_V1) || negb (nd_reserved d =? 0) ||
         negb (nd_flags d =? 0) || (nd_lifecycle d <? MESH_CONTROL_NETWORK_ACTIVE_V1) ||
         (MESH_CONTROL_NETWORK_TOMBSTONED_V1 <? nd_lifecycle d) ||
         (nd_attach_mode d <? MESH_CONTROL_NETWORK_USERSPACE_V1) ||
         (MESH_CONTROL_NETWORK_OS_ISOLATED_V1 <? nd_attach_mode d) ||
         mesh_control_bytes_zero (Some (nd_network_uid d)) 16 ||
         mesh_control_bytes_zero (Some (nd_mesh_id d)) 32 ||
         mesh_control_bytes_zero (Some (nd_managed_node_id d)) 32 ||
         (nd_generation d =? 0) || (nd_policy_epoch d =? 0) || (nd_route_epoch d =? 0) ||
         (nd_key_epoch d =? 0) || (nd_ipv4_address d =? 0) || (32 <? nd_ipv4_prefix d) ||
         (nd_mtu d <? 576) || (9000 <? nd_mtu d)
      then None
      else
        match mesh_control_network_name_valid (Some (nd_name d)) with
        | None => None
        | Some name_size =>
            if mesh_control_bytes_zero (Some (nd_policy_digest d)) 32 ||
               mesh_control_bytes_zero (Some (nd_address_pool_digest d)) 32 ||
               negb (mesh_control_network_peers_valid (nd_authorized_peer_node_ids d)
                       (nd_authorized_peer_count d)) ||
               negb (mesh_control_network_routes_valid document)
            then None
            else
              let ticket := nd_membership_ticket d in
              if memeq 4 ticket ticket_magic &&
                 (mesh_mgmt_wire_read_u16 (sub ticket 4 2) =? 1) &&
                 (mesh_mgmt_wire_read_u16 (sub ticket 6 2) =?
                  MESH_CONTROL_NETWORK_TICKET_SIZE_V1) &&
                 memeq 32 (drop 8 ticket) (nd_mesh_id d) &&
                 memeq 16 (drop 40 ticket) (nd_network_uid d) &&
                 memeq 32 (drop 72 ticket) (nd_managed_node_id d) &&
                 (mesh_mgmt_wire_read_u64 (sub ticket 136 8) =? nd_generation d) &&
                 (mesh_mgmt_wire_read_u64 (sub ticket 152 8) =? nd_key_epoch d) &&
                 (mesh_mgmt_wire_read_u64 (sub ticket 160 8) =? nd_policy_epoch d) &&
                 (mesh_mgmt_wire_read_u32 (sub ticket 168 4) =? nd_ipv4_address d) &&
                 (at_ ticket 172 =? nd_ipv4_prefix d) &&
                 negb (mesh_control_bytes_zero (Some (drop 236 ticket)) 64)
              then Some name_size
              else None
        end
  end.

(** ** Intents *)

Definition intent_bytes (action : Z) (document : bytes) : bytes :=
  MESH_CONTROL_INTENT_MAGIC_V1 ++ mesh_mgmt_wire_write_u16 MESH_CONTROL_SCHEMA_V1 ++
  mesh_mgmt_wire_write_u16 (wrap 16 action) ++ document.

Definition mesh_control_intent_encode_v1 (action : Z) (document : option bytes) (document_size : Z)
    (output : option bytes) (out_size : option Z) : mesh_control_result * option bytes * option Z :=
  if negb (non_null out_size) then (MESH_CONTROL_INVALID_ARG, output, out_size)
  else
    let out_size := assign out_size 0 in
    if (negb (action =? MESH_CONTROL_DESIRED_APPLY) && negb (action =? MESH_CONTROL_DESIRED_DELETE)) ||
       (negb (document_size =? 0) && negb (non_null document)) ||
       (MESH_CONTROL_MMP_BODY_MAX_V1 - MESH_CONTROL_INTENT_HEADER_SIZE_V1 <? document_size)
    then (MESH_CONTROL_INVALID_ARG, output, out_size)
    else
      let required_size := MESH_CONTROL_INTENT_HEADER_SIZE_V1 + document_size in
      let out_size := assign out_size required_size in
      if negb (non_null output) || (len (deref [] output) <? required_size)
      then (MESH_CONTROL_RESOURCE_EXHAUSTED, output, out_size)
      else (MESH_CONTROL_OK,
            (λ o, blit o 0 (intent_bytes action (block document document_size))) <$> output,
            out_size).

Definition mesh_control_intent_decode_v1 (payload : option bytes) (payload_size : Z)
    (out_intent : option mesh_control_intent_view) :
    mesh_control_result * option mesh_control_intent_view :=
  if negb (non_null out_intent) then (MESH_CONTROL_INVALID_ARG, out_intent)
  else
    let out_intent := Some zero_intent in
    match payload with
    | None => (MESH_CONTROL_INVALID_ARG, out_intent)
    | Some p =>
        if (payload_size <? MESH_CONTROL_INTENT_HEADER_SIZE_V1) ||
           (MESH_CONTROL_MMP_BODY_MAX_V1 <? payload_size) ||
           negb (memeq 4 p MESH_CONTROL_INTENT_MAGIC_V1) ||
           negb (mesh_mgmt_wire_read_u16 (sub p 4 2) =? MESH_CONTROL_SCHEMA_V1)
        then (MESH_CONTROL_INVALID_ARG, out_intent)
        else
          let action := mesh_mgmt_wire_read_u16 (sub p 6 2) in
          if negb (action =? MESH_CONTROL_DESIRED_APPLY) &&
             negb (action =? MESH_CONTROL_DESIRED_DELETE)
          then (MESH_CONTROL_INVALID_ARG, out_intent)
          else
            let document_size := payload_size - MESH_CONTROL_INTENT_HEADER_SIZE_V1 in
            (MESH_CONTROL_OK,
             Some (mk_intent action
                     (if document_size =? 0 then None
                      else Some (sub p 8 (Z.to_nat document_size))) document_size))
    end.

(** ** Function documents *)

Definition function_bytes (s : mesh_control_function_spec) : bytes :=
  MESH_CONTROL_FUNCTION_MAGIC_V1 ++ mesh_mgmt_wire_write_u16 (fs_schema_version s) ++
  mesh_mgmt_wire_write_u16 (fs_runtime s) ++ mesh_mgmt_wire_write_u16 (fs_desired_state s) ++
  mesh_mgmt_wire_write_u16 0 ++ mesh_mgmt_wire_write_u32 (fs_flags s) ++
  take 32 (fs_function_id s) ++ take 32 (fs_provider_id s) ++ take 32 (fs_artifact_digest s) ++
  take 32 (fs_config_digest s) ++ take 32 (fs_network_policy_digest s) ++
  mesh_mgmt_wire_write_u64 (fs_generation s) ++
  mesh_mgmt_wire_write_u64 (fs_required_capabilities s) ++
  mesh_mgmt_wire_write_u64 (fl_memory_bytes (fs_limits s)) ++
  mesh_mgmt_wire_write_u64 (fl_cpu_time_ms (fs_limits s)) ++
  mesh_mgmt_wire_write_u64 (fl_input_bytes (fs_limits s)) ++
  mesh_mgmt_wire_write_u64 (fl_output_bytes (fs_limits s)) ++
  mesh_mgmt_wire_write_u32 (fl_concurrency (fs_limits s)) ++
  mesh_mgmt_wire_write_u32 (fl_host_calls (fs_limits s)).

Definition mesh_control_function_document_encode_v1 (spec : option mesh_control_function_spec)
    (output : option bytes) (out_size : option Z) : mesh_control_result * option bytes * option Z :=
  if negb (non_null out_size) then (MESH_CONTROL_INVALID_ARG, output, out_size)
  else
    let out_size := assign out_size 0 in
    if negb (control_ok (mesh_control_function_spec_validate_v1 spec))
    then (MESH_CONTROL_INVALID_ARG, output, out_size)
    else
      let out_size := assign out_size MESH_CONTROL_FUNCTION_DOCUMENT_SIZE_V1 in
      if negb (non_null output) || (len (deref [] output) <? MESH_CONTROL_FUNCTION_DOCUMENT_SIZE_V1)
      then (MESH_CONTROL_RESOURCE_EXHAUSTED, output, out_size)
      else (MESH_CONTROL_OK,
            (λ o, blit o 0 (function_bytes (deref zero_function_spec spec))) <$> output, out_size).

Definition read_function (input : bytes) : mesh_control_function_spec :=
  mk_function_spec (mesh_mgmt_wire_read_u16 (sub input 4 2)) (mesh_mgmt_wire_read_u16 (sub input 6 2))
    (mesh_mgmt_wire_read_u16 (sub input 8 2)) 0 (mesh_mgmt_wire_read_u32 (sub input 12 4))
    (sub input 16 32) (sub input 48 32) (sub input 80 32) (sub input 112 32) (sub input 144 32)
    (mesh_mgmt_wire_read_u64 (sub input 176 8)) (mesh_mgmt_wire_read_u64 (sub input 184 8))
    (mk_function_limits (mesh_mgmt_wire_read_u64 (sub input 192 8))
       (mesh_mgmt_wire_read_u64 (sub input 200 8)) (mesh_mgmt_wire_read_u64 (sub input 208 8))
       (mesh_mgmt_wire_read_u64 (sub input 216 8)) (mesh_mgmt_wire_read_u32 (sub input 224 4))
       (mesh_mgmt_wire_read_u32 (sub input 228 4))).

Definition mesh_control_function_document_decode_v1 (input : option bytes) (input_size : Z)
    (out_spec : option mesh_control_function_spec) :
    mesh_control_result * option mesh_control_function_spec :=
  match input, out_spec with
  | Some input, Some _ =>
      if negb (input_size =? MESH_CONTROL_FUNCTION_DOCUMENT_SIZE_V1)
      then (MESH_CONTROL_INVALID_ARG, out_spec)
      else if negb (memeq 4 input MESH_CONTROL_FUNCTION_MAGIC_V1) ||
              negb (mesh_mgmt_wire_read_u16 (sub input 10 2) =? 0)
      then (MESH_CONTROL_INVALID_ARG, Some zero_function_spec)
      else
        let out_spec := Some (read_function input) in
        if negb (control_ok (mesh_control_function_spec_validate_v1 out_spec))
        then (MESH_CONTROL_INVALID_ARG, Some zero_function_spec)
        else (MESH_CONTROL_OK, out_spec)
  | _, _ => (MESH_CONTROL_INVALID_ARG, out_spec)
  end.

(** ** Network documents *)

Definition network_bytes (d : mesh_control_network_document) (name_size : nat) : bytes :=
  MESH_CONTROL_NETWORK_MAGIC_V1 ++ mesh_mgmt_wire_write_u16 (nd_schema_version d) ++
  mesh_mgmt_wire_write_u16 (nd_lifecycle d) ++ mesh_mgmt_wire_write_u16 (nd_attach_mode d) ++
  mesh_mgmt_wire_write_u16 (wrap 16 (nd_route_count d)) ++ mesh_mgmt_wire_write_u32 (nd_flags d) ++
  take 16 (nd_network_uid d) ++ take 32 (nd_mesh_id d) ++ take 32 (nd_managed_node_id d) ++
  mesh_mgmt_wire_write_u64 (nd_generation d) ++ mesh_mgmt_wire_write_u64 (nd_policy_epoch d) ++
  mesh_mgmt_wire_write_u64 (nd_route_epoch d) ++ mesh_mgmt_wire_write_u64 (nd_key_epoch d) ++
  mesh_mgmt_wire_write_u32 (nd_ipv4_address d) ++ [nd_ipv4_prefix d; 0] ++
  mesh_mgmt_wire_write_u16 (nd_mtu d) ++
  mesh_mgmt_wire_write_u16 (wrap 16 (nd_authorized_peer_count d)) ++
  mesh_mgmt_wire_write_u16 (wrap 16 (Z.of_nat name_size)) ++
  take 32 (nd_policy_digest d) ++ take 32 (nd_address_pool_digest d) ++
  take 32 (nd_route_digest d) ++ take 32 (nd_dns_digest d) ++ take 300 (nd_membership_ticket d) ++
  take name_size (nd_name d) ++ zeros (64 - name_size) ++
  block (nd_authorized_peer_node_ids d) (nd_authorized_peer_count d * 32) ++
  block (nd_route_entries d) (nd_route_count d * 40).

Definition mesh_control_network_document_encode_v1
    (document : option mesh_control_network_document) (output : option bytes)
    (out_size : option Z) : mesh_control_result * option bytes * option Z :=
  if negb (non_null out_size) then (MESH_CONTROL_INVALID_ARG, output, out_size)
  else
    let out_size := assign out_size 0 in
    match mesh_control_network_document_valid document, document with
    | Some name_size, Some d =>
        if ((SIZE_MAX - MESH_CONTROL_NETWORK_DOCUMENT_BASE_SIZE_V1) / 32 <?
            nd_authorized_peer_count d) ||
           ((SIZE_MAX - MESH_CONTROL_NETWORK_DOCUMENT_BASE_SIZE_V1) /
              MESH_CONTROL_NETWORK_ROUTE_SIZE_V1 <? nd_route_count d)
        then (MESH_CONTROL_INVALID_ARG, output, out_size)
        else
          let peer_bytes := nd_authorized_peer_count d * 32 in
          let route_bytes := nd_route_count d * MESH_CONTROL_NETWORK_ROUTE_SIZE_V1 in
          if (SIZE_MAX - MESH_CONTROL_NETWORK_DOCUMENT_BASE_SIZE_V1 <? peer_bytes) ||
             (SIZE_MAX - MESH_CONTROL_NETWORK_DOCUMENT_BASE_SIZE_V1 - peer_bytes <? route_bytes)
          then (MESH_CONTROL_INVALID_ARG, output, out_size)
          else
            let required_size :=
              MESH_CONTROL_NETWORK_DOCUMENT_BASE_SIZE_V1 + peer_bytes + route_bytes in
            let out_size := assign out_size required_size in
            if negb (non_null output) || (len (deref [] output) <? required_size)
            then (MESH_CONTROL_RESOURCE_EXHAUSTED, output, out_size)
            else (MESH_CONTROL_OK,
                  (λ o, blit o 0 (network_bytes d (Z.to_nat name_size))) <$> output, out_size)
    | _, _ => (MESH_CONTROL_INVALID_ARG, output, out_size)
    end.

Definition read_network (input : bytes) (peer_count route_count name_size : Z) :
    mesh_control_network_document :=
  let name_size := Z.to_nat name_size in
  mk_network_document (mesh_mgmt_wire_read_u16 (sub input 4 2))
    (mesh_mgmt_wire_read_u16 (sub input 6 2)) (mesh_mgmt_wire_read_u16 (sub input 8 2)) 0
    (mesh_mgmt_wire_read_u32 (sub input 12 4)) (sub input 16 16) (sub input 32 32) (sub input 64 32)
    (mesh_mgmt_wire_read_u64 (sub input 96 8)) (mesh_mgmt_wire_read_u64 (sub input 104 8))
    (mesh_mgmt_wire_read_u64 (sub input 112 8)) (mesh_mgmt_wire_read_u64 (sub input 120 8))
    (mesh_mgmt_wire_read_u32 (sub input 128 4)) (at_ input 132)
    (mesh_mgmt_wire_read_u16 (sub input 134 2))
    (sub input 568 name_size ++ zeros (64 - name_size))
    (sub input 140 32) (sub input 172 32) (sub input 204 32) (sub input 236 32) (sub input 268 300)
    (if peer_count =? 0 then None else Some (sub input 632 (Z.to_nat (peer_count * 32)))) peer_count
    (if route_count =? 0 then None
     else Some (sub input (632 + Z.to_nat (peer_count * 32)) (Z.to_nat (route_count * 40))))
    route_count.

Definition mesh_control_network_document_decode_v1 (input : option bytes) (input_size : Z)
    (out_document : option mesh_control_network_document) :
    mesh_control_result * option mesh_control_network_document :=
  match input, out_document with
  | Some input, Some _ =>
      if (input_size <? MESH_CONTROL_NETWORK_DOCUMENT_BASE_SIZE_V1) ||
         (MESH_CONTROL_NETWORK_DOCUMENT_MAX_SIZE_V1 <? input_size)
      then (MESH_CONTROL_INVALID_ARG, out_document)
      else
        let out_document := Some zero_network_document in
        if negb (memeq 4 input MESH_CONTROL_NETWORK_MAGIC_V1) || negb (at_ input 133 =? 0)
        then (MESH_CONTROL_INVALID_ARG, out_document)
        else
          let route_count := mesh_mgmt_wire_read_u16 (sub input 10 2) in
          let peer_count := mesh_mgmt_wire_read_u16 (sub input 136 2) in
          let name_size := mesh_mgmt_wire_read_u16 (sub input 138 2) in
          if (MESH_CONTROL_NETWORK_MAX_PEERS_V1 <? peer_count) ||
             (MESH_CONTROL_NETWORK_MAX_ROUTES_V1 <? route_count) || (name_size =? 0) ||
             (MESH_CONTROL_NETWORK_NAME_CAPACITY_V1 <=? name_size) ||
             ((SIZE_MAX - MESH_CONTROL_NETWORK_DOCUMENT_BASE_SIZE_V1) / 32 <? peer_count) ||
             ((SIZE_MAX - MESH_CONTROL_NETWORK_DOCUMENT_BASE_SIZE_V1) /
                MESH_CONTROL_NETWORK_ROUTE_SIZE_V1 <? route_count)
          then (MESH_CONTROL_INVALID_ARG, out_document)
          else
            let peer_bytes := peer_count * 32 in
            let route_bytes := route_count * MESH_CONTROL_NETWORK_ROUTE_SIZE_V1 in
            if SIZE_MAX - MESH_CONTROL_NETWORK_DOCUMENT_BASE_SIZE_V1 - peer_bytes <? route_bytes
            then (MESH_CONTROL_INVALID_ARG, out_document)
            else
              let required_size :=
                MESH_CONTROL_NETWORK_DOCUMENT_BASE_SIZE_V1 + peer_bytes + route_bytes in
              if negb (required_size =? input_size) then (MESH_CONTROL_INVALID_ARG, out_document)
              else if negb (forallb (λ x, x =? 0)
                              (sub input (568 + Z.to_nat name_size) (64 - Z.to_nat name_size)))
              then (MESH_CONTROL_INVALID_ARG, out_document)
              else
                let d := read_network input peer_count route_count name_size in
                match mesh_control_network_document_valid (Some d) with
                | None => (MESH_CONTROL_INVALID_ARG, Some zero_network_document)
                | Some _ => (MESH_CONTROL_OK, Some d)
                end
  | _, _ => (MESH_CONTROL_INVALID_ARG, out_document)
  end.

End Documents.

(** ** Windows *)

Lemma bytes_zero_iff n b : bytes_ok n b → mesh_control_bytes_zero (Some b) n = true ↔ b = zeros n.
Proof.
  intros [Hl Hb]. unfold mesh_control_bytes_zero. rewrite take_ge, Z.eqb_eq, or_bytes_zero by (done || lia).
  by rewrite Hl.
Qed.

(** ** Function documents *)

Record limits_typed (l : mesh_control_function_limits) : Prop := {
  lt_u64 : u64 (fl_memory_bytes l) ∧ u64 (fl_cpu_time_ms l) ∧ u64 (fl_input_bytes l) ∧
    u64 (fl_output_bytes l);
  lt_u32 : u32 (fl_concurrency l) ∧ u32 (fl_host_calls l) }.

Record spec_typed (s : mesh_control_function_spec) : Prop := {
  st_u16 : u16 (fs_schema_version s) ∧ u16 (fs_runtime s) ∧ u16 (fs_desired_state s);
  st_u32 : u32 (fs_flags s);
  st_32 : bytes_ok 32 (fs_function_id s) ∧ bytes_ok 32 (fs_provider_id s) ∧
    bytes_ok 32 (fs_artifact_digest s) ∧ bytes_ok 32 (fs_config_digest s) ∧
    bytes_ok 32 (fs_network_policy_digest s);
  st_u64 : u64 (fs_generation s) ∧ u64 (fs_required_capabilities s);
  st_limits : limits_typed (fs_limits s) }.

Definition function_pieces (s : mesh_control_function_spec) : list bytes :=
  [MESH_CONTROL_FUNCTION_MAGIC_V1; mesh_mgmt_wire_write_u16 (fs_schema_version s);
   mesh_mgmt_wire_write_u16 (fs_runtime s); mesh_mgmt_wire_write_u16 (fs_desired_state s);
   mesh_mgmt_wire_write_u16 0; mesh_mgmt_wire_write_u32 (fs_flags s); fs_function_id s;
   fs_provider_id s; fs_artifact_digest s; fs_config_digest s; fs_network_policy_digest s;
   mesh_mgmt_wire_write_u64 (fs_generation s); mesh_mgmt_wire_write_u64 (fs_required_capabilities s);
   mesh_mgmt_wire_write_u64 (fl_memory_bytes (fs_limits s));
   mesh_mgmt_wire_write_u64 (fl_cpu_time_ms (fs_limits s));
   mesh_mgmt_wire_write_u64 (fl_input_bytes (fs_limits s));
   mesh_mgmt_wire_write_u64 (fl_output_bytes (fs_limits s));
   mesh_mgmt_wire_write_u32 (fl_concurrency (fs_limits s));
   mesh_mgmt_wire_write_u32 (fl_host_calls (fs_limits s))].

Lemma function_pieces_ok s : spec_typed s → function_bytes s = concat (function_pieces s) ∧
  length <$> function_pieces s =
    [4; 2; 2; 2; 2; 4; 32; 32; 32; 32; 32; 8; 8; 8; 8; 8; 8; 4; 4]%nat.
Proof.
  intros [_ _ (H1 & H2 & H3 & H4 & H5) _ _]. split.
  - unfold function_bytes. rewrite !(take_whole 32) by done. cbn [function_pieces concat].
    by rewrite app_nil_r.
  - cbn [function_pieces fmap list_fmap].
    by rewrite (proj1 H1), (proj1 H2), (proj1 H3), (proj1 H4), (proj1 H5).
Qed.

Lemma length_function_bytes s : spec_typed s → length (function_bytes s) = 232%nat.
Proof. intros Ht. destruct (function_pieces_ok s Ht) as [-> Hl]. by rewrite length_concat, Hl. Qed.

Lemma read_function_bytes s : spec_typed s → fs_reserved s = 0 →
  read_function (function_bytes s) = s ∧ sub (function_bytes s) 0 4 = MESH_CONTROL_FUNCTION_MAGIC_V1 ∧
  mesh_mgmt_wire_read_u16 (sub (function_bytes s) 10 2) = 0.
Proof.
  intros Ht Hr. destruct (function_pieces_ok s Ht) as [-> Hl].
  destruct Ht as [(U1 & U2 & U3) U4 _ (U5 & U6) [(U7 & U8 & U9 & U10) (U11 & U12)]].
  unfold read_function. find_pieces Hl.
  rewrite !wire_read_write_u16, !wire_read_write_u32, !wire_read_write_u64 by done.
  split_and!; [|done..]. destruct s as [? ? ? ? ? ? ? ? ? ? ? ? []]. cbn in *. by subst.
Qed.

Lemma read_function_typed b : bytes_ok 232 b → spec_typed (read_function b).
Proof.
  intros Hb. assert (Hs : ∀ off n, (off + n <= 232)%nat → bytes_ok n (sub b off n)).
  { intros off n Hn. eapply sub_bytes_ok; [done|lia]. }
  assert (H8 : ∀ off, (off + 8 <= 232)%nat → u64 (mesh_mgmt_wire_read_u64 (sub b off 8))).
  { intros off Hn. rewrite wire_read_u64_eq by auto. pose proof (Hs off 8%nat Hn) as [Hl Hu].
    pose proof (be_value_range _ Hu) as Hr. unfold len in Hr. by rewrite Hl in Hr. }
  split; cbn -[uint]; [auto 6 with mesh|auto with mesh| | |split; cbn -[uint]].
  - split_and!; apply Hs; lia.
  - split; apply H8; lia.
  - split; [|split; [|split]]; apply H8; lia.
  - auto with mesh.
Qed.

Lemma function_bytes_read b : bytes_ok 232 b → sub b 0 4 = MESH_CONTROL_FUNCTION_MAGIC_V1 →
  mesh_mgmt_wire_read_u16 (sub b 10 2) = 0 → function_bytes (read_function b) = b.
Proof.
  intros Hb Hm Hz. destruct (function_pieces_ok _ (read_function_typed b Hb)) as [-> _].
  assert (Hs : ∀ off n, (off + n <= 232)%nat → bytes_ok n (sub b off n)).
  { intros off n Hn. eapply sub_bytes_ok; [done|lia]. }
  unfold function_pieces, read_function.
  cbn [concat fs_schema_version fs_runtime fs_desired_state fs_flags fs_function_id fs_provider_id
    fs_artifact_digest fs_config_digest fs_network_policy_digest fs_generation
    fs_required_capabilities fs_limits fl_memory_bytes fl_cpu_time_ms fl_input_bytes
    fl_output_bytes fl_concurrency fl_host_calls].
  rewrite <- Hz, <- Hm, app_nil_r. rewrite !wire_write_read_u16, !wire_write_read_u32,
    !wire_write_read_u64 by (apply Hs; lia). join. apply sub_all, Hb.
Qed.

(** ** Order on routes *)

Section Order.

Lemma compare_bytes_refl a : compare_bytes a a = 0.
Proof. induction a as [|x a IH]; [done|]. cbn. by rewrite Z.eqb_refl. Qed.

Lemma compare_bytes_eq a : ∀ b, length a = length b → compare_bytes a b = 0 → a = b.
Proof.
  induction a as [|x a IH]; intros [|y b] Hl H; try done. cbn in *.
  destruct (Z.eqb_spec x y) as [->|]; [f_equal; apply IH; [lia|done]|]. by destruct (x <? y).
Qed.

Lemma compare_bytes_trans a : ∀ b c, length a = length b → length b = length c →
  compare_bytes a b < 0 → compare_bytes b c < 0 → compare_bytes a c < 0.
Proof.
  induction a as [|x a IH]; intros [|y b] [|z c] H1 H2 Hab Hbc; try done. cbn in *.
  repeat match goal with
  | H : context [?p =? ?q] |- _ => destruct (Z.eqb_spec p q)
  | H : context [?p <? ?q] |- _ => destruct (Z.ltb_spec p q)
  | |- context [?p =? ?q] => destruct (Z.eqb_spec p q)
  | |- context [?p <? ?q] => destruct (Z.ltb_spec p q)
  end; try lia. apply (IH b); lia.
Qed.

Definition route_lt (a b : mesh_control_network_route) : Prop :=
  mesh_control_network_route_compare a b < 0.

(** [route_lt] spelled out: by network, longer prefix first, metric, next hop, kind. *)
Lemma route_lt_iff a b : bytes_ok 32 (nr_next_hop_node_id a) → bytes_ok 32 (nr_next_hop_node_id b) →
  route_lt a b ↔
  nr_destination_network a < nr_destination_network b ∨
  (nr_destination_network a = nr_destination_network b ∧
   (nr_prefix_length b < nr_prefix_length a ∨
    (nr_prefix_length a = nr_prefix_length b ∧
     (nr_metric a < nr_metric b ∨
      (nr_metric a = nr_metric b ∧
       (compare_bytes (nr_next_hop_node_id a) (nr_next_hop_node_id b) < 0 ∨
        (nr_next_hop_node_id a = nr_next_hop_node_id b ∧ nr_kind a < nr_kind b))))))).
Proof.
  intros Ha Hb. unfold route_lt, mesh_control_network_route_compare, memcmp.
  rewrite !(take_whole 32) by done.
  assert (Heq : compare_bytes (nr_next_hop_node_id a) (nr_next_hop_node_id b) = 0 ↔
    nr_next_hop_node_id a = nr_next_hop_node_id b).
  { split; [|intros ->; apply compare_bytes_refl]. apply compare_bytes_eq.
    by rewrite (proj1 Ha), (proj1 Hb). }
  destruct (Z.eqb_spec (nr_destination_network a) (nr_destination_network b)); cbn [negb];
    [|destruct (Z.ltb_spec (nr_destination_network a) (nr_destination_network b)); lia].
  destruct (Z.eqb_spec (nr_prefix_length a) (nr_prefix_length b)); cbn [negb];
    [|destruct (Z.ltb_spec (nr_prefix_length b) (nr_prefix_length a)); lia].
  destruct (Z.eqb_spec (nr_metric a) (nr_metric b)); cbn [negb];
    [|destruct (Z.ltb_spec (nr_metric a) (nr_metric b)); lia].
  destruct (Z.eqb_spec (compare_bytes (nr_next_hop_node_id a) (nr_next_hop_node_id b)) 0) as [E|E];
    cbn [negb]; rewrite <- Heq; lia.
Qed.

Lemma route_lt_trans a b c : bytes_ok 32 (nr_next_hop_node_id a) →
  bytes_ok 32 (nr_next_hop_node_id b) → bytes_ok 32 (nr_next_hop_node_id c) →
  route_lt a b → route_lt b c → route_lt a c.
Proof.
  intros Ha Hb Hc. rewrite !route_lt_iff by done.
  pose proof (compare_bytes_trans (nr_next_hop_node_id a) (nr_next_hop_node_id b)
    (nr_next_hop_node_id c)) as Ht.
  rewrite (proj1 Ha), (proj1 Hb), (proj1 Hc) in Ht. specialize (Ht eq_refl eq_refl).
  intros [?|(? & [?|(? & [?|(? & [?|(En & ?)])])])] [?|(? & [?|(? & [?|(? & [?|(En' & ?)])])])];
    try lia; rewrite ?En, ?En' in *; try lia.
  do 3 (right; split; [lia|]). right. split; [done|lia].
Qed.

Lemma route_lt_irrefl a : ¬ route_lt a a.
Proof.
  unfold route_lt, mesh_control_network_route_compare, memcmp.
  rewrite !Z.eqb_refl, compare_bytes_refl. cbn. lia.
Qed.

End Order.

(** A list sorted pairwise by an order that is transitive on [P] is sorted throughout. *)
Lemma sorted_strongly {A} (R : A → A → Prop) (P : A → Prop) (l : list A) :
  (∀ x y z, P x → P y → P z → R x y → R y z → R x z) → Forall P l → Sorted R l →
  StronglySorted R l.
Proof.
  intros Ht HP Hs. induction Hs as [|x l Hs IH Hh]; [constructor|].
  apply Forall_cons in HP as [Hx HP]. specialize (IH HP). constructor; [done|].
  destruct Hh as [|y l Hxy]; [constructor|]. apply Forall_cons in HP as [Hy HP].
  apply StronglySorted_inv in IH as [_ Hyl]. constructor; [done|].
  apply Forall_forall. intros z Hz. rewrite Forall_forall in Hyl, HP. eapply (Ht x y z); auto.
Qed.

Lemma strongly_sorted_NoDup {A} (R : A → A → Prop) (l : list A) : (∀ x, ¬ R x x) →
  StronglySorted R l → NoDup l.
Proof.
  intros Hi Hs. induction Hs as [|x l Hs IH Hf]; constructor; [|done].
  intros Hin. rewrite Forall_forall in Hf. by eapply Hi, Hf.
Qed.

(** ** Peers and routes of a document *)

Definition peer_list (d : mesh_control_network_document) : list bytes :=
  (λ i, sub (deref [] (nd_authorized_peer_node_ids d)) (i * 32) 32) <$>
    seq 0 (Z.to_nat (nd_authorized_peer_count d)).
Definition route_list (d : mesh_control_network_document) : list mesh_control_network_route :=
  (λ i, read_route (sub (deref [] (nd_route_entries d)) (i * 40) 40)) <$>
    seq 0 (Z.to_nat (nd_route_count d)).

Definition peer_lt (a b : bytes) : Prop := compare_bytes a b < 0.

(** What a single route promises. *)
Record route_ok (r : mesh_control_network_route) : Prop := {
  ro_prefix : nr_prefix_length r <= 32;
  ro_next_hop : nr_next_hop_node_id r ≠ zeros 32;
  ro_network : nr_destination_network r mod 2 ^ (32 - nr_prefix_length r) = 0;
  ro_kind : (nr_kind r = MESH_CONTROL_NETWORK_ROUTE_SUBNET_V1 ∧ nr_prefix_length r ≠ 0) ∨
    (nr_kind r = MESH_CONTROL_NETWORK_ROUTE_EXIT_V1 ∧ nr_prefix_length r = 0) }.

Record route_typed (r : mesh_control_network_route) : Prop := {
  rt_32 : u32 (nr_destination_network r);
  rt_8 : u8 (nr_prefix_length r) ∧ u8 (nr_kind r);
  rt_16 : u16 (nr_metric r);
  rt_hop : bytes_ok 32 (nr_next_hop_node_id r) }.

(** Clearing the host bits of a prefix. *)
Lemma mask_network x p : u32 x → 0 < p <= 32 →
  Z.land x (wrap 32 (Z.shiftl UINT32_MAX (32 - p))) = x - x mod 2 ^ (32 - p).
Proof.
  intros Hx Hp. unfold uint in Hx. apply Z.bits_inj'. intros i Hi.
  assert (Hd : x - x mod 2 ^ (32 - p) = Z.shiftl (Z.shiftr x (32 - p)) (32 - p)).
  { rewrite Z.shiftl_mul_pow2, Z.shiftr_div_pow2 by lia.
    pose proof (Z.div_mod x (2 ^ (32 - p))). lia. }
  rewrite Hd, Z.land_spec. unfold wrap. change UINT32_MAX with (Z.ones 32).
  destruct (Z.lt_ge_cases i 32) as [Hi32|Hi32].
  - rewrite Z.mod_pow2_bits_low, Z.shiftl_spec by lia.
    destruct (Z.lt_ge_cases i (32 - p)) as [Hlo|Hhi].
    + by rewrite (Z.testbit_neg_r (Z.ones 32)), andb_false_r, Z.shiftl_spec_low by lia.
    + rewrite Z.ones_spec_low, andb_true_r, Z.shiftl_spec, Z.shiftr_spec by lia. f_equal. lia.
  - rewrite Z.mod_pow2_bits_high, andb_false_r, Z.shiftl_spec, Z.shiftr_spec by lia.
    replace (i - (32 - p) + (32 - p)) with i by lia. symmetry.
    destruct (Z.eq_dec x 0) as [->|]; [apply Z.bits_0|].
    apply Z.bits_above_log2; [lia|]. apply Z.lt_le_trans with 32; [|done].
    apply Z.log2_lt_pow2; lia.
Qed.

Lemma route_valid_iff r : route_typed r →
  mesh_control_network_route_valid (Some r) = true ↔ route_ok r.
Proof.
  intros [Hd [Hp Hk] _ Hh]. unfold mesh_control_network_route_valid.
  destruct (mesh_control_bytes_zero (Some (nr_next_hop_node_id r)) 32) eqn:Ez.
  { rewrite orb_true_r. split; [done|]. intros [_ Hn _ _]. apply bytes_zero_iff in Ez; done. }
  assert (Hne : nr_next_hop_node_id r ≠ zeros 32).
  { intros E. apply (bytes_zero_iff 32) in E; [congruence|done]. }
  unfold uint in *. rewrite orb_false_r.
  destruct (Z.ltb_spec 32 (nr_prefix_length r)).
  { split; [done|]. intros [? _ _ _]. lia. }
  cbn [orb]. unfold mesh_control_network_route_required_role,
    MESH_CONTROL_NETWORK_ROUTE_SUBNET_V1, MESH_CONTROL_NETWORK_ROUTE_EXIT_V1 in *.
  assert (Hm : nr_prefix_length r ≠ 0 →
    (nr_destination_network r =? Z.land (nr_destination_network r)
       (wrap 32 (Z.shiftl UINT32_MAX (32 - nr_prefix_length r)))) = true ↔
    nr_destination_network r mod 2 ^ (32 - nr_prefix_length r) = 0).
  { intros Hp0. rewrite mask_network by (unfold uint; lia). rewrite Z.eqb_eq. lia. }
  destruct (Z.eqb_spec (nr_kind r) 1) as [E1|E1]; [rewrite E1; change (Z.shiftl 1 1 =? 0) with false|].
  - destruct (Z.eqb_spec (nr_prefix_length r) 0) as [E0|E0].
    + cbn [negb orb]. rewrite andb_false_r. split; [done|].
      intros [_ _ _ [[_ ?]|[? _]]]; unfold MESH_CONTROL_NETWORK_ROUTE_EXIT_V1 in *; lia.
    + change (negb (1 =? 2)) with true. cbn [negb orb]. rewrite !andb_true_r, Hm by done.
      split; [|by intros []]. intros. split; try done. by left.
  - destruct (Z.eqb_spec (nr_kind r) 2) as [E2|E2].
    2:{ split; [done|]. intros [_ _ _ [[? _]|[? _]]]; done. }
    change (Z.shiftl 1 2 =? 0) with false. cbv iota.
    destruct (Z.eqb_spec (nr_prefix_length r) 0) as [E0|E0].
    + rewrite Z.land_0_r. cbn [andb negb orb]. rewrite !andb_true_r, andb_diag, Z.eqb_eq. split.
      * intros E. split; try done; [by rewrite E, E0|by right].
      * intros [_ _ Hn _]. rewrite E0, Z.mod_small in Hn; lia.
    + cbn [andb]. rewrite andb_false_r. split; [done|]. intros [_ _ _ [[? _]|[_ ?]]]; done.
Qed.

(** The scan of an array whose neighbours must be in order. *)
Lemma sorted_cons_iff {A} (R : A → A → Prop) x l : Sorted R (x :: l) ↔ HdRel R x l ∧ Sorted R l.
Proof. split; [intros H; apply Sorted_inv in H; tauto|intros []; by constructor]. Qed.

Lemma peers_loop_iff peers n : ∀ idx, bytes_ok ((idx + n) * 32) peers →
  let l := (λ i, sub peers (i * 32) 32) <$> seq idx n in
  peers_loop peers n idx = true ↔
  Forall (.≠ zeros 32) l ∧ Sorted peer_lt l ∧
  (idx ≠ O → HdRel peer_lt (sub peers ((idx - 1) * 32) 32) l).
Proof.
  induction n as [|n IH]; intros idx Hp l.
  { split; [|done]. intros _. split_and!; constructor. }
  specialize (IH (S idx)). replace (S idx + n)%nat with (idx + S n)%nat in IH by lia.
  specialize (IH Hp). cbn [peers_loop]. subst l. cbn [seq fmap list_fmap].
  replace (S idx - 1)%nat with idx in IH by lia.
  assert (Hw : ∀ i, (i < idx + S n)%nat → bytes_ok 32 (sub peers (i * 32) 32)).
  { intros i Hi. eapply sub_bytes_ok; [done|nia]. }
  rewrite Forall_cons, sorted_cons_iff.
  destruct (mesh_control_bytes_zero (Some (sub peers (idx * 32) 32)) 32) eqn:Ez.
  { split; [done|]. intros [[Hn _] _]. apply bytes_zero_iff in Ez; [done|apply Hw; lia]. }
  assert (Hnz : sub peers (idx * 32) 32 ≠ zeros 32).
  { intros E. apply (bytes_zero_iff 32) in E; [congruence|apply Hw; lia]. }
  destruct (Nat.eqb_spec idx 0) as [E0|E0]; cbn [negb andb].
  - rewrite IH. split; [|naive_solver].
    intros (Hf & Hs & Hh). split_and!; try done. by apply Hh.
  - unfold memcmp. rewrite !(take_whole 32) by (apply Hw; lia).
    destruct (Z.leb_spec 0 (compare_bytes (sub peers ((idx - 1) * 32) 32) (sub peers (idx * 32) 32))).
    + split; [done|]. intros (_ & _ & Hh). specialize (Hh E0). inversion Hh. unfold peer_lt in *. lia.
    + rewrite IH. split.
      * intros (Hf & Hs & Hh). split_and!; try done; [by apply Hh|]. intros _. by constructor.
      * intros ([_ Hf] & [Hh Hs] & _). done.
Qed.

Lemma peer_listed_iff peers node n : ∀ idx, bytes_ok 32 node → bytes_ok ((idx + n) * 32) peers →
  peer_listed peers node n idx = true ↔ node ∈ (λ i, sub peers (i * 32) 32) <$> seq idx n.
Proof.
  induction n as [|n IH]; intros idx Hn Hp; cbn [peer_listed seq fmap list_fmap].
  { split; [done|]. by intros ?%elem_of_nil. }
  specialize (IH (S idx) Hn). replace (S idx + n)%nat with (idx + S n)%nat in IH by lia.
  rewrite elem_of_cons, <- IH by done.
  rewrite memeq_spec by (apply Hn || apply length_sub; rewrite (proj1 Hp); lia).
  case_bool_decide; naive_solver.
Qed.

Lemma read_route_typed b : bytes_ok 40 b → route_typed (read_route b).
Proof.
  intros Hb. split; cbn; [auto with mesh| |auto with mesh|].
  - split; apply at_u8, Hb.
  - eapply sub_bytes_ok; [done|lia].
Qed.

Section Routes.
Context {CR : Crypto} {CL : CryptoLaws}.

Lemma routes_loop_iff d entries n : ∀ idx prev, bytes_ok ((idx + n) * 40) entries →
  let l := (λ i, read_route (sub entries (i * 40) 40)) <$> seq idx n in
  routes_loop d entries n idx prev = true ↔
  Forall (λ r, route_ok r ∧ mesh_control_network_route_next_hop_allowed d r = true) l ∧
  Sorted route_lt l ∧ (idx ≠ O → HdRel route_lt prev l).
Proof.
  induction n as [|n IH]; intros idx prev Hp l.
  { split; [|done]. intros _. split_and!; constructor. }
  set (r := read_route (sub entries (idx * 40) 40)).
  specialize (IH (S idx) r). replace (S idx + n)%nat with (idx + S n)%nat in IH by lia.
  specialize (IH Hp). cbn [routes_loop]. subst l. cbn [seq fmap list_fmap]. fold r.
  assert (Hr : route_typed r).
  { apply read_route_typed. eapply sub_bytes_ok; [done|nia]. }
  rewrite Forall_cons, sorted_cons_iff. unfold mesh_control_network_route_decode_v1. fold r.
  pose proof (route_valid_iff r Hr) as Hv.
  destruct (mesh_control_network_route_valid (Some r)); cbn [negb].
  2:{ split; [done|]. intros [[[Hok _] _] _]. apply Hv in Hok. done. }
  destruct (mesh_control_network_route_next_hop_allowed d r); cbn [negb orb].
  2:{ split; [done|]. intros [[[_ ?] _] _]. done. }
  destruct (Nat.eqb_spec idx 0) as [E0|E0]; cbn [negb andb].
  - rewrite IH. split; [|naive_solver].
    intros (Hf & Hs & Hh). split_and!; try done; [by apply Hv|by apply Hh].
  - destruct (Z.leb_spec 0 (mesh_control_network_route_compare prev r)).
    + split; [done|]. intros (_ & _ & Hh). specialize (Hh E0). inversion Hh. unfold route_lt in *. lia.
    + rewrite IH. split.
      * intros (Hf & Hs & Hh). split_and!; try done; [by apply Hv|by apply Hh|]. intros _. by constructor.
      * intros ([_ Hf] & [Hh Hs] & _). done.
Qed.
End Routes.

(** ** Network documents *)

(** A borrowed array of [count] elements of [size] bytes. *)
Definition array_ok (p : option bytes) (count size : Z) : Prop :=
  0 <= count ∧ match p with Some b => bytes_ok (Z.to_nat (count * size)) b | None => True end.

Record network_typed (d : mesh_control_network_document) : Prop := {
  nt_u16 : u16 (nd_schema_version d) ∧ u16 (nd_lifecycle d) ∧ u16 (nd_attach_mode d) ∧ u16 (nd_mtu d);
  nt_u32 : u32 (nd_flags d) ∧ u32 (nd_ipv4_address d);
  nt_u8 : u8 (nd_ipv4_prefix d);
  nt_u64 : u64 (nd_generation d) ∧ u64 (nd_policy_epoch d) ∧ u64 (nd_route_epoch d) ∧
    u64 (nd_key_epoch d);
  nt_uid : bytes_ok 16 (nd_network_uid d);
  nt_32 : bytes_ok 32 (nd_mesh_id d) ∧ bytes_ok 32 (nd_managed_node_id d) ∧
    bytes_ok 32 (nd_policy_digest d) ∧ bytes_ok 32 (nd_address_pool_digest d) ∧
    bytes_ok 32 (nd_route_digest d) ∧ bytes_ok 32 (nd_dns_digest d);
  nt_ticket : bytes_ok 300 (nd_membership_ticket d);
  nt_name : bytes_ok 64 (nd_name d);
  nt_peers : array_ok (nd_authorized_peer_node_ids d) (nd_authorized_peer_count d) 32;
  nt_routes : array_ok (nd_route_entries d) (nd_route_count d) 40 }.

Section Network.
Context {CR : Crypto} {CL : CryptoLaws}.

(** The next hop of [r] is the managed node with the role its ticket grants, or an
    authorized peer. *)
Definition next_hop_ok (d : mesh_control_network_document) (r : mesh_control_network_route) : Prop :=
  (nr_next_hop_node_id r = nd_managed_node_id d ∧
   Z.land (mesh_mgmt_wire_read_u32 (sub (nd_membership_ticket d) 176 4))
     (if nr_kind r =? MESH_CONTROL_NETWORK_ROUTE_SUBNET_V1 then 2 else 4) ≠ 0) ∨
  (nr_next_hop_node_id r ≠ nd_managed_node_id d ∧ nr_next_hop_node_id r ∈ peer_list d).

(** The digest the routes of [d] must have. *)
Definition routes_digest (d : mesh_control_network_document) : bytes :=
  if nd_route_count d =? 0 then zeros 32 else crypto_blake2b (deref [] (nd_route_entries d)).

(** The semantic content of an accepted snapshot. *)
Record network_sound (d : mesh_control_network_document) : Prop := {
  ns_peers_bound : 0 <= nd_authorized_peer_count d <= 256;
  ns_peers : Forall (.≠ zeros 32) (peer_list d) ∧ StronglySorted peer_lt (peer_list d) ∧
    NoDup (peer_list d);
  ns_routes_bound : 0 <= nd_route_count d <= 256;
  ns_routes : Forall (λ r, route_ok r ∧ next_hop_ok d r) (route_list d) ∧
    StronglySorted route_lt (route_list d) ∧ NoDup (route_list d);
  ns_digest : nd_route_digest d = routes_digest d;
  ns_ticket : sub (nd_membership_ticket d) 8 32 = nd_mesh_id d ∧
    sub (nd_membership_ticket d) 40 16 = nd_network_uid d ∧
    sub (nd_membership_ticket d) 72 32 = nd_managed_node_id d ∧
    mesh_mgmt_wire_read_u64 (sub (nd_membership_ticket d) 136 8) = nd_generation d ∧
    mesh_mgmt_wire_read_u64 (sub (nd_membership_ticket d) 152 8) = nd_key_epoch d ∧
    mesh_mgmt_wire_read_u64 (sub (nd_membership_ticket d) 160 8) = nd_policy_epoch d ∧
    mesh_mgmt_wire_read_u32 (sub (nd_membership_ticket d) 168 4) = nd_ipv4_address d ∧
    at_ (nd_membership_ticket d) 172 = nd_ipv4_prefix d }.

Lemma pointer_guard {A} (p : option A) (count : Z) :
  negb (count =? 0) && negb (non_null p) = false ↔ count = 0 ∨ is_Some p.
Proof.
  unfold non_null. destruct (Z.eqb_spec count 0); cbn [negb andb]; [tauto|].
  rewrite negb_false_iff, bool_decide_eq_true. tauto.
Qed.

Lemma array_length p count size : array_ok p count size → 0 <= size →
  (count = 0 ∨ is_Some p) → bytes_ok (Z.to_nat count * Z.to_nat size) (deref [] p) ∨
  (count = 0 ∧ p = None).
Proof.
  intros [Hc Hp] Hs. destruct p as [b|]; [|naive_solver].
  intros _. left. cbn. by rewrite <- Z2Nat.inj_mul.
Qed.

Lemma peers_valid_iff d : network_typed d →
  mesh_control_network_peers_valid (nd_authorized_peer_node_ids d) (nd_authorized_peer_count d) = true ↔
  nd_authorized_peer_count d <= 256 ∧
  (nd_authorized_peer_count d = 0 ∨ is_Some (nd_authorized_peer_node_ids d)) ∧
  Forall (.≠ zeros 32) (peer_list d) ∧ Sorted peer_lt (peer_list d).
Proof.
  intros Ht. pose proof (nt_peers d Ht) as Ha. unfold mesh_control_network_peers_valid.
  unfold MESH_CONTROL_NETWORK_MAX_PEERS_V1. destruct (_ || _) eqn:E.
  { split; [done|]. intros (H1 & H2%pointer_guard & _). rewrite H2, orb_false_r in E. refute E. }
  apply orb_false_iff in E as [E Hnn%pointer_guard]. bool_prop. unfold peer_list.
  destruct (array_length _ _ _ Ha ltac:(lia) Hnn) as [Hl|[H0 Hn]].
  - rewrite (peers_loop_iff (deref [] (nd_authorized_peer_node_ids d))
      (Z.to_nat (nd_authorized_peer_count d)) 0) by done. naive_solver.
  - rewrite H0. cbn. split; [|done]. intros _. split_and!; try lia; [by left|constructor..].
Qed.

Lemma next_hop_allowed_iff d r : network_typed d → route_typed r → route_ok r →
  (nd_authorized_peer_count d = 0 ∨ is_Some (nd_authorized_peer_node_ids d)) →
  mesh_control_network_route_next_hop_allowed d r = true ↔ next_hop_ok d r.
Proof.
  intros Ht Hr [_ _ _ Hk] Hnn. unfold mesh_control_network_route_next_hop_allowed, next_hop_ok.
  rewrite memeq_spec by (apply Hr || apply Ht).
  assert (Hrole : mesh_control_network_route_required_role (nr_kind r) =
    if nr_kind r =? MESH_CONTROL_NETWORK_ROUTE_SUBNET_V1 then 2 else 4).
  { unfold mesh_control_network_route_required_role. destruct Hk as [[-> _]|[-> _]]; done. }
  rewrite Hrole. case_bool_decide as E.
  - rewrite negb_true_iff, Z.eqb_neq. tauto.
  - unfold peer_list.
    destruct (array_length _ _ _ (nt_peers d Ht) ltac:(lia) Hnn) as [Hl|[-> ->]].
    + rewrite peer_listed_iff by (done || apply Hr). tauto.
    + cbn. split; [done|]. intros [[? _]|[_ ?%elem_of_nil]]; done.
Qed.

Lemma route_list_typed d : network_typed d → Forall route_typed (route_list d) ∨ route_list d = [] ∨
  (nd_route_count d ≠ 0 ∧ nd_route_entries d = None).
Proof.
  intros Ht. destruct (Z.eq_dec (nd_route_count d) 0) as [E|E].
  { right; left. unfold route_list. by rewrite E. }
  pose proof (nt_routes d Ht) as [Hc Hp].
  destruct (nd_route_entries d) as [b|] eqn:Eb; [left|by right; right].
  unfold route_list. rewrite Eb. cbn [deref]. apply Forall_fmap, Forall_seq. intros i Hi. cbn.
  apply read_route_typed. eapply sub_bytes_ok; [done|]. nia.
Qed.

Lemma routes_valid_sound d : network_typed d →
  (nd_authorized_peer_count d = 0 ∨ is_Some (nd_authorized_peer_node_ids d)) →
  mesh_control_network_routes_valid (Some d) = true →
  0 <= nd_route_count d <= 256 ∧
  Forall (λ r, route_ok r ∧ next_hop_ok d r) (route_list d) ∧ Sorted route_lt (route_list d) ∧
  Forall route_typed (route_list d) ∧ nd_route_digest d = routes_digest d ∧
  (nd_route_count d = 0 ∨ is_Some (nd_route_entries d)).
Proof.
  intros Ht Hpn H. pose proof (nt_routes d Ht) as Ha. pose proof (proj1 Ha) as Hc.
  unfold mesh_control_network_routes_valid, MESH_CONTROL_NETWORK_MAX_ROUTES_V1 in H.
  step_in H; [done|]. apply orb_false_iff in E as [E Hnn%pointer_guard]. bool_prop.
  pose proof (nt_32 d Ht) as (_ & _ & _ & _ & Hdg & _).
  destruct (Z.eqb_spec (nd_route_count d) 0) as [E0|E0].
  { apply bytes_zero_iff in H; [|done]. unfold route_list, routes_digest. rewrite E0. cbn.
    split_and!; try lia; try constructor; try done. }
  destruct Hnn as [?|[b Hb]]; [done|]. rewrite Hb in H. cbn [deref] in H.
  rewrite Hb in Ha. destruct Ha as [_ Ha]. step_in H; [done|].
  unfold mesh_control_network_routes_digest_v1, MESH_CONTROL_NETWORK_MAX_ROUTES_V1,
    MESH_CONTROL_NETWORK_ROUTE_SIZE_V1, mesh_mgmt_blake2b_256 in H.
  change (negb (non_null (Some (zeros 32)))) with false in H.
  change (negb (non_null (Some b))) with false in H.
  rewrite (proj2 (Z.ltb_ge _ _) E), (proj2 (Z.eqb_neq _ _) E0), andb_false_r in H.
  cbn [orb negb andb deref assign fmap option_fmap option_map] in H.
  rewrite take_whole in H by done.
  rewrite crypto_equal_32_spec in H by (done || apply crypto_blake2b_size).
  case_bool_decide as Ed; cbn [negb] in H; [|done].
  assert (Hba : bytes_ok ((0 + Z.to_nat (nd_route_count d)) * 40) b).
  { by replace ((0 + Z.to_nat (nd_route_count d)) * 40)%nat with
      (Z.to_nat (nd_route_count d * 40)) by nia. }
  pose proof (proj1 (routes_loop_iff d b (Z.to_nat (nd_route_count d)) 0 zero_route Hba) H) as (Hf & Hs & _).
  destruct (route_list_typed d Ht) as [Htl|[Hnil|[_ ?]]]; [| |congruence].
  2:{ exfalso. unfold route_list in Hnil. apply fmap_nil_inv in Hnil.
      apply (f_equal length) in Hnil. rewrite length_seq in Hnil. cbn in Hnil. lia. }
  unfold route_list, routes_digest in *. rewrite Hb in *. cbn [deref] in *.
  rewrite (proj2 (Z.eqb_neq _ _) E0).
  split_and!; try done; [|by right; eexists].
  rewrite Forall_forall in Hf, Htl. apply Forall_forall. intros r Hr.
  destruct (Hf r Hr) as [Hok Hal]. split; [done|]. apply next_hop_allowed_iff; auto.
Qed.

Lemma peer_list_typed d : network_typed d →
  (nd_authorized_peer_count d = 0 ∨ is_Some (nd_authorized_peer_node_ids d)) →
  Forall (bytes_ok 32) (peer_list d).
Proof.
  intros Ht Hnn. unfold peer_list. apply Forall_fmap, Forall_seq. intros i Hi. cbn.
  destruct (array_length _ _ _ (nt_peers d Ht) ltac:(lia) Hnn) as [Hl|[E _]]; [|rewrite E in Hi; cbn in Hi; lia].
  eapply sub_bytes_ok; [done|]. lia.
Qed.

Lemma document_valid_sound d n : network_typed d →
  mesh_control_network_document_valid (Some d) = Some n → network_sound d.
Proof.
  intros Ht H. unfold mesh_control_network_document_valid in H. step_in H; [done|]. clear E.
  destruct (mesh_control_network_name_valid _) as [name_size|]; [|done].
  step_in H; [done|]. bool_prop.
  match goal with Hp : mesh_control_network_peers_valid _ _ = true |- _ =>
    apply (peers_valid_iff d Ht) in Hp as (Hp1 & Hp2 & Hp3 & Hp4) end.
  match goal with Hr : mesh_control_network_routes_valid _ = true |- _ =>
    destruct (routes_valid_sound d Ht Hp2 Hr) as (Hr1 & Hr2 & Hr3 & Hr4 & Hr5 & _) end.
  step_in H; [|done]. bool_prop. injection H as <-.
  pose proof (nt_ticket d Ht) as Htk.
  assert (Hm : ∀ m k x, bytes_ok m x → (k + m <= 300)%nat →
    memeq m (drop k (nd_membership_ticket d)) x = true → sub (nd_membership_ticket d) k m = x).
  { intros m k x Hx Hk. unfold memeq, sub. rewrite bool_decide_eq_true, (take_whole m x) by done. done. }
  pose proof (nt_32 d Ht) as (Hi1 & Hi2 & _). pose proof (nt_uid d Ht) as Hi3.
  pose proof (peer_list_typed d Ht Hp2) as Hpt.
  assert (Hps : StronglySorted peer_lt (peer_list d)).
  { eapply sorted_strongly; [|exact Hpt|done]. intros x y z [Hx _] [Hy _] [Hz _].
    apply compare_bytes_trans; congruence. }
  assert (Hrs : StronglySorted route_lt (route_list d)).
  { eapply sorted_strongly; [|exact Hr4|done]. intros x y z [_ _ _ Hx] [_ _ _ Hy] [_ _ _ Hz].
    by apply route_lt_trans. }
  split; try done.
  - split; [apply (nt_peers d Ht)|done].
  - split_and!; try done. eapply strongly_sorted_NoDup; [|done].
    intros x. unfold peer_lt. rewrite compare_bytes_refl. lia.
  - split_and!; try done. eapply strongly_sorted_NoDup; [|done]. apply route_lt_irrefl.
  - split_and!; try done; apply Hm; done || lia.
Qed.
End Network.

(** ** Names *)

Lemma strnlen_le n : ∀ s, (strnlen s n <= n)%nat ∧ (strnlen s n <= length s)%nat.
Proof.
  induction n as [|n IH]; intros [|x s]; cbn; try lia. destruct (x =? 0); [lia|].
  destruct (IH s). lia.
Qed.

Lemma strnlen_take n : ∀ s, Forall (.≠ 0) (take (strnlen s n) s).
Proof.
  induction n as [|n IH]; intros [|x s]; cbn; try constructor.
  destruct (Z.eqb_spec x 0); cbn; [constructor|]. constructor; [done|apply IH].
Qed.

Lemma strnlen_app n : ∀ a b, Forall (.≠ 0) a → (length a <= n)%nat →
  strnlen (a ++ b) n = (length a + strnlen b (n - length a))%nat.
Proof.
  induction n as [|n IH]; intros [|x a] b Ha Hl; cbn in *; try lia; try done.
  apply Forall_cons in Ha as [Hx Ha]. destruct (Z.eqb_spec x 0); [done|]. rewrite IH by (done || lia).
  done.
Qed.

Lemma strnlen_zeros n m : strnlen (zeros m) n = 0%nat.
Proof. by destruct n, m. Qed.

(** The declared name has no zero byte exactly when its C length is the declared one. *)
Lemma strnlen_whole a m n : (length a <= n)%nat →
  strnlen (a ++ zeros m) n = length a ↔ Forall (.≠ 0) a.
Proof.
  intros Hl. split.
  - intros E. pose proof (strnlen_take n (a ++ zeros m)) as H. rewrite E, take_app_length in H. done.
  - intros Ha. rewrite strnlen_app, strnlen_zeros by done. lia.
Qed.

Lemma name_valid_padded name k : bytes_ok 64 name →
  k = strnlen name 64 → (k < 64)%nat →
  mesh_control_network_name_valid (Some (take k name ++ zeros (64 - k))) =
  mesh_control_network_name_valid (Some name).
Proof.
  intros [Hl _] -> Hk. unfold mesh_control_network_name_valid. pose proof (strnlen_take 64 name) as Hf.
  set (k := strnlen name 64) in *. assert (Hlk : length (take k name) = k) by (rewrite length_take; lia).
  rewrite strnlen_app, strnlen_zeros, Hlk, Nat.add_0_r by (done || lia).
  by rewrite take_app_length' by done.
Qed.

Lemma name_valid_Some name n : mesh_control_network_name_valid (Some name) = Some n →
  n = Z.of_nat (strnlen name 64) ∧ 0 < n < 64.
Proof.
  unfold mesh_control_network_name_valid, MESH_CONTROL_NETWORK_NAME_CAPACITY_V1. intros H.
  step_in H; [done|]. step_in H; [|done]. injection H as <-. bool_prop. lia.
Qed.

(** ** Encoding a network document *)

Definition network_pieces (d : mesh_control_network_document) (k : nat) : list bytes :=
  [MESH_CONTROL_NETWORK_MAGIC_V1; mesh_mgmt_wire_write_u16 (nd_schema_version d);
   mesh_mgmt_wire_write_u16 (nd_lifecycle d); mesh_mgmt_wire_write_u16 (nd_attach_mode d);
   mesh_mgmt_wire_write_u16 (nd_route_count d); mesh_mgmt_wire_write_u32 (nd_flags d);
   nd_network_uid d; nd_mesh_id d; nd_managed_node_id d; mesh_mgmt_wire_write_u64 (nd_generation d);
   mesh_mgmt_wire_write_u64 (nd_policy_epoch d); mesh_mgmt_wire_write_u64 (nd_route_epoch d);
   mesh_mgmt_wire_write_u64 (nd_key_epoch d); mesh_mgmt_wire_write_u32 (nd_ipv4_address d);
   [nd_ipv4_prefix d]; [0]; mesh_mgmt_wire_write_u16 (nd_mtu d);
   mesh_mgmt_wire_write_u16 (nd_authorized_peer_count d); mesh_mgmt_wire_write_u16 (Z.of_nat k);
   nd_policy_digest d; nd_address_pool_digest d; nd_route_digest d; nd_dns_digest d;
   nd_membership_ticket d; take k (nd_name d); zeros (64 - k);
   block (nd_authorized_peer_node_ids d) (nd_authorized_peer_count d * 32);
   block (nd_route_entries d) (nd_route_count d * 40)].

(** The pointers of a document the validator accepts. *)
Record network_shape (d : mesh_control_network_document) (k : nat) : Prop := {
  nsh_typed : network_typed d;
  nsh_peers : 0 <= nd_authorized_peer_count d <= 256 ∧
    (nd_authorized_peer_count d = 0 ∨ is_Some (nd_authorized_peer_node_ids d));
  nsh_routes : 0 <= nd_route_count d <= 256 ∧
    (nd_route_count d = 0 ∨ is_Some (nd_route_entries d));
  nsh_name : (0 < k < 64)%nat }.

Lemma array_block p count size : array_ok p count size → count = 0 ∨ is_Some p →
  bytes_ok (Z.to_nat (count * size)) (block p (count * size)).
Proof.
  intros [Hc Hp] Hnn. unfold block. destruct p as [b|]; cbn [deref].
  - by rewrite take_whole.
  - destruct Hnn as [->|[? ?]]; [|done]. done.
Qed.

Lemma network_pieces_ok d k : network_shape d k →
  network_bytes d k = concat (network_pieces d k) ∧
  length <$> network_pieces d k =
    [4; 2; 2; 2; 2; 4; 16; 32; 32; 8; 8; 8; 8; 4; 1; 1; 2; 2; 2; 32; 32; 32; 32; 300; k; 64 - k;
     Z.to_nat (nd_authorized_peer_count d * 32); Z.to_nat (nd_route_count d * 40)]%nat.
Proof.
  intros [Ht [Hp Hpn] [Hr Hrn] Hk].
  destruct Ht as [_ _ _ _ Hu (H1 & H2 & H3 & H4 & H5 & H6) Htk Hnm Hpa Hra]. split.
  - unfold network_bytes. rewrite !(take_whole 32), (take_whole 16), (take_whole 300) by done.
    rewrite !(wrap_small 16) by (unfold uint; lia). cbn [network_pieces concat].
    by rewrite app_nil_r.
  - cbn [network_pieces fmap list_fmap]. rewrite (bytes_ok_length _ _ (array_block _ _ _ Hpa Hpn)),
      (bytes_ok_length _ _ (array_block _ _ _ Hra Hrn)).
    rewrite (proj1 Hu), (proj1 H1), (proj1 H2), (proj1 H3), (proj1 H4), (proj1 H5), (proj1 H6), (proj1 Htk),
      length_take, (proj1 Hnm). unfold zeros. rewrite length_replicate.
    by replace (k `min` 64)%nat with k by lia.
Qed.

Lemma length_network_bytes d k : network_shape d k →
  len (network_bytes d k) = 632 + nd_authorized_peer_count d * 32 + nd_route_count d * 40.
Proof.
  intros Hs. destruct (network_pieces_ok d k Hs) as [-> Hl]. unfold len.
  rewrite length_concat, Hl. destruct Hs as [_ [Hp _] [Hr _] Hk]. cbn. lia.
Qed.

(** What the decoder makes of a document: the name padded with zeros, an empty
    array without a pointer. *)
Definition decoded_form (d : mesh_control_network_document) (k : nat) :
    mesh_control_network_document :=
  mk_network_document (nd_schema_version d) (nd_lifecycle d) (nd_attach_mode d) (nd_reserved d)
    (nd_flags d) (nd_network_uid d) (nd_mesh_id d) (nd_managed_node_id d) (nd_generation d)
    (nd_policy_epoch d) (nd_route_epoch d) (nd_key_epoch d) (nd_ipv4_address d) (nd_ipv4_prefix d)
    (nd_mtu d) (take k (nd_name d) ++ zeros (64 - k)) (nd_policy_digest d)
    (nd_address_pool_digest d) (nd_route_digest d) (nd_dns_digest d) (nd_membership_ticket d)
    (if nd_authorized_peer_count d =? 0 then None else nd_authorized_peer_node_ids d)
    (nd_authorized_peer_count d) (if nd_route_count d =? 0 then None else nd_route_entries d)
    (nd_route_count d).

Lemma piece_byte (ps : list bytes) ls k x off : length <$> ps = ls → ps !! k = Some [x] →
  off = sum_list (take k ls) → at_ (concat ps) off = x.
Proof.
  intros Hl Hk Ho. assert (Hn : ls !! k = Some 1%nat) by (by rewrite <- Hl, list_lookup_fmap, Hk).
  pose proof (piece_at ps ls k [x] off 1 Hl Hk Ho Hn) as Hs.
  unfold sub in Hs. unfold at_. rewrite <- (Nat.add_0_r off), <- lookup_drop.
  destruct (drop off (concat ps)) as [|y r]; cbn in *; by simplify_eq.
Qed.

Lemma array_view p count size : array_ok p count size → count = 0 ∨ is_Some p →
  0 < size → (if count =? 0 then None else Some (block p (count * size))) =
  (if count =? 0 then None else p).
Proof.
  intros [Hc Hp] Hnn Hs. destruct (Z.eqb_spec count 0); [done|].
  destruct Hnn as [?|[b ->]]; [done|]. unfold block. cbn. by rewrite take_whole.
Qed.

Lemma network_bytes_read d k : network_shape d k → nd_reserved d = 0 →
  let b := network_bytes d k in
  read_network b (nd_authorized_peer_count d) (nd_route_count d) (Z.of_nat k) = decoded_form d k ∧
  sub b 0 4 = MESH_CONTROL_NETWORK_MAGIC_V1 ∧ at_ b 133 = 0 ∧
  mesh_mgmt_wire_read_u16 (sub b 10 2) = nd_route_count d ∧
  mesh_mgmt_wire_read_u16 (sub b 136 2) = nd_authorized_peer_count d ∧
  mesh_mgmt_wire_read_u16 (sub b 138 2) = Z.of_nat k ∧
  sub b (568 + k) (64 - k) = zeros (64 - k).
Proof.
  intros Hs Hres b. destruct (network_pieces_ok d k Hs) as [Hb Hl]. subst b. rewrite Hb.
  destruct Hs as [Ht [Hp Hpn] [Hr Hrn] Hk].
  destruct Ht as [(U1 & U2 & U3 & U4) (U5 & U6) _ (U7 & U8 & U9 & U10) _ _ _ _ Hpa Hra].
  assert (Hname : sub (concat (network_pieces d k)) 568 k = take k (nd_name d)).
  { by apply (piece_at _ _ 24 _ _ _ Hl). }
  assert (Hpad : sub (concat (network_pieces d k)) (568 + k) (64 - k) = zeros (64 - k)).
  { apply (piece_at _ _ 25 _ _ _ Hl); [done|cbn; lia|done]. }
  assert (Hpeers : sub (concat (network_pieces d k)) 632 (Z.to_nat (nd_authorized_peer_count d * 32)) =
    block (nd_authorized_peer_node_ids d) (nd_authorized_peer_count d * 32)).
  { apply (piece_at _ _ 26 _ _ _ Hl); [done|cbn; lia|done]. }
  assert (Hroutes : sub (concat (network_pieces d k))
    (632 + Z.to_nat (nd_authorized_peer_count d * 32)) (Z.to_nat (nd_route_count d * 40)) =
    block (nd_route_entries d) (nd_route_count d * 40)).
  { apply (piece_at _ _ 27 _ _ _ Hl); [done|cbn; lia|done]. }
  unfold read_network. rewrite Nat2Z.id, Hname, Hpad, Hpeers, Hroutes.
  rewrite (array_view _ _ 32), (array_view _ _ 40) by done.
  rewrite (piece_byte _ _ 14 (nd_ipv4_prefix d) 132 Hl), (piece_byte _ _ 15 0 133 Hl) by done.
  find_pieces Hl.
  assert (Hk16 : u16 (Z.of_nat k)) by (unfold uint; lia).
  assert (Hp16 : u16 (nd_authorized_peer_count d)) by (unfold uint; lia).
  assert (Hr16 : u16 (nd_route_count d)) by (unfold uint; lia).
  rewrite !wire_read_write_u16, !wire_read_write_u32, !wire_read_write_u64 by done.
  split_and!; try done. unfold decoded_form. by rewrite Hres.
Qed.

Lemma forallb_zeros n : forallb (λ x, x =? 0) (zeros n) = true.
Proof. induction n as [|n IH]; [done|]. apply IH. Qed.

Section Codec.
Context {CR : Crypto} {CL : CryptoLaws}.

Lemma routes_loop_ext d d' entries n : ∀ idx prev,
  (∀ r, mesh_control_network_route_next_hop_allowed d r =
        mesh_control_network_route_next_hop_allowed d' r) →
  routes_loop d entries n idx prev = routes_loop d' entries n idx prev.
Proof.
  induction n as [|n IH]; intros idx prev He; [done|]. cbn [routes_loop].
  destruct (mesh_control_network_route_decode_v1 _ _) as [[] [r|]]; try done.
  rewrite (He r). destruct (_ || _); [done|]. by apply IH.
Qed.

Lemma document_valid_decoded d k : network_shape d k → k = strnlen (nd_name d) 64 →
  mesh_control_network_document_valid (Some (decoded_form d k)) =
  mesh_control_network_document_valid (Some d).
Proof.
  intros [Ht [_ Hpn] [_ Hrn] [_ Hk]] Hkn.
  assert (Hp : mesh_control_network_peers_valid
      (if nd_authorized_peer_count d =? 0 then None else nd_authorized_peer_node_ids d)
      (nd_authorized_peer_count d) =
    mesh_control_network_peers_valid (nd_authorized_peer_node_ids d) (nd_authorized_peer_count d)).
  { by destruct (Z.eqb_spec (nd_authorized_peer_count d) 0) as [->|]. }
  assert (Ha : ∀ r, mesh_control_network_route_next_hop_allowed (decoded_form d k) r =
    mesh_control_network_route_next_hop_allowed d r).
  { intros r. unfold mesh_control_network_route_next_hop_allowed. cbn.
    by destruct (Z.eqb_spec (nd_authorized_peer_count d) 0) as [->|]. }
  assert (Hr : mesh_control_network_routes_valid (Some (decoded_form d k)) =
    mesh_control_network_routes_valid (Some d)).
  { unfold mesh_control_network_routes_valid. cbn [nd_route_count nd_route_entries nd_route_digest decoded_form].
    destruct (Z.eqb_spec (nd_route_count d) 0) as [E|]; [by rewrite E|].
    by rewrite (routes_loop_ext _ _ _ _ _ _ Ha). }
  unfold mesh_control_network_document_valid. rewrite Hr.
  cbn [decoded_form nd_schema_version nd_reserved nd_flags nd_lifecycle nd_attach_mode nd_network_uid
    nd_mesh_id nd_managed_node_id nd_generation nd_policy_epoch nd_route_epoch nd_key_epoch
    nd_ipv4_address nd_ipv4_prefix nd_mtu nd_name nd_policy_digest nd_address_pool_digest
    nd_authorized_peer_node_ids nd_authorized_peer_count nd_membership_ticket].
  by rewrite Hp, (name_valid_padded (nd_name d) k) by (done || apply Ht).
Qed.

(** The shape of a valid document, and the members the encoder does not write. *)
Lemma document_valid_shape d n : network_typed d →
  mesh_control_network_document_valid (Some d) = Some n →
  network_shape d (Z.to_nat n) ∧ Z.to_nat n = strnlen (nd_name d) 64 ∧ nd_reserved d = 0.
Proof.
  intros Ht H. pose proof (document_valid_sound d n Ht H) as Hs.
  unfold mesh_control_network_document_valid in H. step_in H; [done|]. bool_prop.
  destruct (mesh_control_network_name_valid _) as [m|] eqn:En; [|done].
  step_in H; [done|]. bool_prop. step_in H; [|done]. injection H as <-.
  apply name_valid_Some in En as [-> Hk]. rewrite Nat2Z.id.
  match goal with Hp : mesh_control_network_peers_valid _ _ = true |- _ =>
    apply (peers_valid_iff d Ht) in Hp as (_ & Hp2 & _) end.
  match goal with Hr : mesh_control_network_routes_valid _ = true |- _ =>
    destruct (routes_valid_sound d Ht Hp2 Hr) as (_ & _ & _ & _ & _ & Hr6) end.
  split_and!; [|done|done]. destruct Hs. split; [done|done|done|lia].
Qed.

Lemma network_encode_valid d n out n0 : network_typed d →
  mesh_control_network_document_valid (Some d) = Some n →
  let b := network_bytes d (Z.to_nat n) in
  mesh_control_network_document_encode_v1 (Some d) (Some out) (Some n0) =
  if len out <? len b then (MESH_CONTROL_RESOURCE_EXHAUSTED, Some out, Some (len b))
  else (MESH_CONTROL_OK, Some (b ++ drop (length b) out), Some (len b)).
Proof.
  intros Ht Hv b. destruct (document_valid_shape d n Ht Hv) as (Hs & _ & _).
  pose proof (length_network_bytes d _ Hs) as Hl. fold b in Hl.
  unfold mesh_control_network_document_encode_v1. rewrite Hv.
  destruct Hs as [_ [Hp _] [Hr _] _].
  unfold MESH_CONTROL_NETWORK_DOCUMENT_BASE_SIZE_V1, MESH_CONTROL_NETWORK_ROUTE_SIZE_V1 in *.
  change ((SIZE_MAX - 632) / 32) with 576460752303423468.
  change ((SIZE_MAX - 632) / 40) with 461168601842738774. change SIZE_MAX with (2 ^ 64 - 1).
  change (negb (non_null (Some n0))) with false. cbv iota.
  destruct (_ || _) eqn:E1; [exfalso; refute E1|]. clear E1.
  destruct (_ || _) eqn:E1; [exfalso; refute E1|]. clear E1.
  change (negb (non_null (Some out))) with false. cbn [orb deref]. rewrite <- Hl.
  destruct (len out <? len b); [done|]. cbn [fmap option_fmap option_map assign].
  unfold blit. by rewrite take_0.
Qed.

Lemma network_decode_bytes d n d0 : network_typed d →
  mesh_control_network_document_valid (Some d) = Some n →
  let b := network_bytes d (Z.to_nat n) in
  mesh_control_network_document_decode_v1 (Some b) (len b) (Some d0) =
    (MESH_CONTROL_OK, Some (decoded_form d (Z.to_nat n))).
Proof.
  intros Ht Hv b. destruct (document_valid_shape d n Ht Hv) as (Hs & Hk & Hres).
  pose proof (length_network_bytes d _ Hs) as Hl. fold b in Hl.
  destruct (network_bytes_read d _ Hs Hres) as (Hread & Hmag & Hz & Hrc & Hpc & Hns & Hpad).
  fold b in Hread, Hmag, Hz, Hrc, Hpc, Hns, Hpad.
  pose proof (document_valid_decoded d _ Hs Hk) as Hdv. rewrite Hv in Hdv.
  destruct Hs as [_ [Hp _] [Hr _] Hkb].
  unfold mesh_control_network_document_decode_v1. rewrite Hl.
  change MESH_CONTROL_NETWORK_DOCUMENT_MAX_SIZE_V1 with 19064.
  unfold MESH_CONTROL_NETWORK_DOCUMENT_BASE_SIZE_V1, MESH_CONTROL_NETWORK_ROUTE_SIZE_V1,
    MESH_CONTROL_NETWORK_MAX_PEERS_V1, MESH_CONTROL_NETWORK_MAX_ROUTES_V1,
    MESH_CONTROL_NETWORK_NAME_CAPACITY_V1.
  rewrite Hrc, Hpc, Hns, Hz, Nat2Z.id, Hread, Hpad, Hdv.
  change ((SIZE_MAX - 632) / 32) with 576460752303423468.
  change ((SIZE_MAX - 632) / 40) with 461168601842738774. change SIZE_MAX with (2 ^ 64 - 1).
  assert (Hm : memeq 4 b MESH_CONTROL_NETWORK_MAGIC_V1 = true).
  { apply (memeq_prefix b MESH_CONTROL_NETWORK_MAGIC_V1); [unfold len in *; cbn; lia|done]. }
  rewrite Hm.
  change (negb (0 =? 0)) with false. cbn [negb orb].
  rewrite Z.eqb_refl. cbn [negb].
  rewrite forallb_zeros. cbn [negb]. pass_guards. done.
Qed.

Lemma forallb_zero_eq (b : bytes) : forallb (λ x, x =? 0) b = true → b = zeros (length b).
Proof.
  intros H. induction b as [|x b IH]; [done|]. cbn in H. apply andb_true_iff in H as [Hx Hb].
  apply Z.eqb_eq in Hx as ->. unfold zeros. cbn. f_equal. by apply IH.
Qed.

Section ReadBack.
Context (b : bytes) (Hb : Forall u8 b) (pc rc ns : Z) (Hpc : 0 <= pc <= 256) (Hrc : 0 <= rc <= 256)
  (Hns : 0 < ns < 64) (Hl : len b = 632 + pc * 32 + rc * 40).

Lemma window_ok off n : (off + n <= 632)%nat → bytes_ok n (sub b off n).
Proof.
  intros Hn. split; [apply length_sub; unfold len in Hl; lia|by apply sub_Forall].
Qed.

Lemma read_network_typed : network_typed (read_network b pc rc ns).
Proof.
  assert (H8 : ∀ off, (off + 8 <= 632)%nat → u64 (mesh_mgmt_wire_read_u64 (sub b off 8))).
  { intros off Hn. rewrite wire_read_u64_eq by (by apply window_ok). pose proof (window_ok off 8 Hn) as [Hl8 Hu].
    pose proof (be_value_range _ Hu) as Hr. unfold len in Hr. by rewrite Hl8 in Hr. }
  split; cbn -[uint].
  - auto 6 with mesh.
  - auto with mesh.
  - by apply at_u8.
  - split; [|split; [|split]]; apply H8; lia.
  - apply window_ok. lia.
  - split_and!; apply window_ok; lia.
  - apply window_ok. lia.
  - destruct (window_ok 568 (Z.to_nat ns)) as [Hn Hu]; [lia|]. split.
    + rewrite length_app, Hn. unfold zeros. rewrite length_replicate. lia.
    + apply Forall_app. split; [done|]. apply (zeros_ok (64 - Z.to_nat ns)).
  - split; [cbn; lia|]. destruct (pc =? 0); [done|]. split; [|by apply sub_Forall].
    apply length_sub. unfold len in Hl. lia.
  - split; [cbn; lia|]. destruct (rc =? 0); [done|]. split; [|by apply sub_Forall].
    apply length_sub. unfold len in Hl. lia.
Qed.

Lemma block_window off n (count size : Z) : count * size = Z.of_nat n →
  block (if count =? 0 then None else Some (sub b off n)) (count * size) = sub b off n.
Proof.
  intros He. unfold block. rewrite He, Nat2Z.id. destruct (Z.eqb_spec count 0) as [E|E]; cbn [deref].
  - assert (n = 0%nat) as -> by lia. done.
  - apply take_ge. unfold sub. rewrite length_take. lia.
Qed.

Lemma network_bytes_back : sub b 0 4 = MESH_CONTROL_NETWORK_MAGIC_V1 → at_ b 133 = 0 →
  mesh_mgmt_wire_read_u16 (sub b 10 2) = rc → mesh_mgmt_wire_read_u16 (sub b 136 2) = pc →
  mesh_mgmt_wire_read_u16 (sub b 138 2) = ns →
  sub b (568 + Z.to_nat ns) (64 - Z.to_nat ns) = zeros (64 - Z.to_nat ns) →
  network_shape (read_network b pc rc ns) (Z.to_nat ns) ∧
  network_bytes (read_network b pc rc ns) (Z.to_nat ns) = b.
Proof.
  intros Hm Hz Hr Hp Hn Hpad.
  assert (Hs : network_shape (read_network b pc rc ns) (Z.to_nat ns)).
  { split; [apply read_network_typed| | |lia]; (split; [done|]); cbn.
    - destruct (Z.eqb_spec pc 0); [by left|by right; eexists].
    - destruct (Z.eqb_spec rc 0); [by left|by right; eexists]. }
  split; [done|]. destruct (network_pieces_ok _ _ Hs) as [-> _].
  unfold network_pieces, read_network.
  cbn [concat nd_schema_version nd_flags nd_lifecycle nd_attach_mode nd_network_uid
    nd_mesh_id nd_managed_node_id nd_generation nd_policy_epoch nd_route_epoch nd_key_epoch
    nd_ipv4_address nd_ipv4_prefix nd_mtu nd_name nd_policy_digest nd_address_pool_digest
    nd_route_digest nd_dns_digest
    nd_authorized_peer_node_ids nd_authorized_peer_count nd_route_entries nd_route_count
    nd_membership_ticket].
  rewrite take_app_length' by (symmetry; apply length_sub; unfold len in Hl; lia).
  rewrite !block_window by lia. rewrite Z2Nat.id by lia. rewrite <- Hpad, <- Hm, app_nil_r.
  rewrite <- Hr at 1. rewrite <- Hp at 1. rewrite <- Hn at 1.
  rewrite !wire_write_read_u16, !wire_write_read_u32, !wire_write_read_u64 by (apply window_ok; lia).
  assert (Hlb : (632 <= length b)%nat) by (unfold len in Hl; lia).
  assert (H133 : [0] = sub b 133 1) by (rewrite at_sub, Hz by lia; done).
  rewrite H133, <- (at_sub b 132) by lia.
  rewrite (sub_cat b 632 (Z.to_nat (pc * 32))) by done.
  rewrite (sub_cat b (568 + Z.to_nat ns) (64 - Z.to_nat ns) 632) by lia.
  rewrite (sub_cat b 568 (Z.to_nat ns)) by done.
  join. apply sub_all. unfold len in Hl. lia.
Qed.
End ReadBack.

Lemma network_decode_inv b d0 d : Forall u8 b →
  mesh_control_network_document_decode_v1 (Some b) (len b) (Some d0) = (MESH_CONTROL_OK, Some d) →
  ∃ n, let ns := mesh_mgmt_wire_read_u16 (sub b 138 2) in
  network_typed d ∧ mesh_control_network_document_valid (Some d) = Some n ∧
  network_bytes d (Z.to_nat ns) = b ∧ network_shape d (Z.to_nat ns) ∧
  nd_name d = sub b 568 (Z.to_nat ns) ++ zeros (64 - Z.to_nat ns).
Proof.
  intros Hb H. unfold mesh_control_network_document_decode_v1, MESH_CONTROL_NETWORK_DOCUMENT_BASE_SIZE_V1,
    MESH_CONTROL_NETWORK_ROUTE_SIZE_V1, MESH_CONTROL_NETWORK_MAX_PEERS_V1,
    MESH_CONTROL_NETWORK_MAX_ROUTES_V1, MESH_CONTROL_NETWORK_NAME_CAPACITY_V1 in H.
  pose proof (wire_read_u16_range (sub b 10 2)) as [Hr0 _].
  pose proof (wire_read_u16_range (sub b 136 2)) as [Hp0 _].
  pose proof (wire_read_u16_range (sub b 138 2)) as [Hn0 _].
  set (rc := mesh_mgmt_wire_read_u16 (sub b 10 2)) in *.
  set (pc := mesh_mgmt_wire_read_u16 (sub b 136 2)) in *.
  set (ns := mesh_mgmt_wire_read_u16 (sub b 138 2)) in *.
  do 6 (step_in H; [done|]). bool_prop.
  destruct (mesh_control_network_document_valid _) as [n|] eqn:Ev; [|done]. injection H as <-.
  assert (Hr : 0 <= rc <= 256) by lia.
  assert (Hp : 0 <= pc <= 256) by lia.
  assert (Hn : 0 < ns < 64) by lia.
  assert (Hl : len b = 632 + pc * 32 + rc * 40) by lia.
  match goal with Hf : forallb _ _ = true |- _ => apply forallb_zero_eq in Hf;
    rewrite length_sub in Hf by (unfold len in Hl; lia); rename Hf into Hpad end.
  match goal with Hm : memeq _ _ _ = true |- _ =>
    apply (memeq_prefix b MESH_CONTROL_NETWORK_MAGIC_V1) in Hm;
    [rename Hm into Hmag|unfold len in Hl; cbn; lia] end.
  destruct (network_bytes_back b Hb pc rc ns Hp Hr Hn Hl) as [Hs Hbk]; try done.
  exists n. split_and!; try done. by apply read_network_typed.
Qed.
End Codec.

(** ** Intents *)

Lemma intent_decode_bytes action document i0 :
  action = MESH_CONTROL_DESIRED_APPLY ∨ action = MESH_CONTROL_DESIRED_DELETE →
  len document <= MESH_CONTROL_MMP_BODY_MAX_V1 - 8 →
  let b := intent_bytes action document in
  mesh_control_intent_decode_v1 (Some b) (len b) (Some i0) =
    (MESH_CONTROL_OK, Some (mk_intent action (body_view document) (len document))) ∧
  len b = 8 + len document.
Proof.
  intros Ha Hd b.
  assert (Ha16 : u16 action) by (destruct Ha as [-> | ->]; evaluate).
  set (ps := [MESH_CONTROL_INTENT_MAGIC_V1; mesh_mgmt_wire_write_u16 MESH_CONTROL_SCHEMA_V1;
              mesh_mgmt_wire_write_u16 action; document]).
  assert (Hb : b = concat ps).
  { unfold b, intent_bytes, ps. cbn [concat]. by rewrite app_nil_r, (wrap_small 16). }
  assert (Hl : length <$> ps = [4; 2; 2; length document]%nat) by done.
  assert (Hlen : len b = 8 + len document).
  { unfold len. rewrite Hb, length_concat, Hl. cbn. lia. }
  split; [|done]. unfold mesh_control_intent_decode_v1. rewrite Hlen.
  change (negb (non_null (Some i0))) with false. cbv iota.
  assert (Hm : memeq 4 b MESH_CONTROL_INTENT_MAGIC_V1 = true) by done. rewrite Hm.
  rewrite Hb. find_pieces Hl. rewrite !wire_read_write_u16 by (done || evaluate).
  unfold MESH_CONTROL_INTENT_HEADER_SIZE_V1.
  assert (Hnn : 0 <= len document) by (unfold len; lia).
  destruct (_ || _) eqn:E; [exfalso; refute E|]. clear E.
  replace (negb (action =? MESH_CONTROL_DESIRED_APPLY) && negb (action =? MESH_CONTROL_DESIRED_DELETE))
    with false by (destruct Ha as [-> | ->]; done).
  replace (8 + len document - 8) with (len document) by lia. do 3 f_equal.
  unfold body_view. destruct (len document =? 0); [done|]. f_equal.
  apply (piece_at ps _ 3 _ _ _ Hl); [done|done|]. cbn. unfold len. by rewrite Nat2Z.id.
Qed.

Lemma intent_decode_inv p i0 i : Forall u8 p →
  mesh_control_intent_decode_v1 (Some p) (len p) (Some i0) = (MESH_CONTROL_OK, Some i) →
  ∃ action document,
    (action = MESH_CONTROL_DESIRED_APPLY ∨ action = MESH_CONTROL_DESIRED_DELETE) ∧
    len document <= MESH_CONTROL_MMP_BODY_MAX_V1 - 8 ∧ p = intent_bytes action document ∧
    i = mk_intent action (body_view document) (len document).
Proof.
  intros Hp H. unfold mesh_control_intent_decode_v1, MESH_CONTROL_INTENT_HEADER_SIZE_V1 in H.
  change (negb (non_null (Some i0))) with false in H. cbv iota in H. step_in H; [done|].
  destruct (_ && _) eqn:Ea in H; [done|]. bool_prop. injection H as <-.
  assert (Hl : (8 <= length p)%nat) by (unfold len in *; lia).
  assert (Hls : length (sub p 8 (length p - 8)) = (length p - 8)%nat) by (apply length_sub; lia).
  exists (mesh_mgmt_wire_read_u16 (sub p 6 2)), (sub p 8 (length p - 8)).
  assert (Hd : len (sub p 8 (length p - 8)) = len p - 8) by (unfold len; lia).
  split_and!.
  - apply andb_false_iff in Ea as [Ea|Ea]; bool_prop; auto.
  - rewrite Hd. lia.
  - unfold intent_bytes. rewrite (wrap_small 16) by auto with mesh.
    assert (Hw : ∀ k, (k + 2 <= length p)%nat → bytes_ok 2 (sub p k 2)).
    { intros k Hk. split; [by apply length_sub|by apply sub_Forall]. }
    match goal with Hm : memeq _ _ _ = true |- _ =>
      apply (memeq_prefix p MESH_CONTROL_INTENT_MAGIC_V1) in Hm; [rewrite <- Hm|cbn; lia] end.
    match goal with Hs : mesh_mgmt_wire_read_u16 (sub p 4 2) = _ |- _ => rewrite <- Hs end.
    rewrite !wire_write_read_u16 by (apply Hw; lia).
    change (length MESH_CONTROL_INTENT_MAGIC_V1) with 4%nat. join. symmetry. apply sub_all. lia.
  - rewrite Hd. unfold body_view. rewrite Hd. destruct (len p - 8 =? 0); [done|].
    do 2 f_equal. unfold len. f_equal. lia.
Qed.

Lemma spec_valid_reserved s : mesh_control_function_spec_validate_v1 (Some s) = MESH_CONTROL_OK →
  fs_reserved s = 0.
Proof.
  unfold mesh_control_function_spec_validate_v1. intros H. step_in H; [done|]. by bool_prop.
Qed.

(** The decoder accepts exactly the encodings of valid specifications. *)
Lemma function_decode_iff b s0 s : Forall u8 b →
  mesh_control_function_document_decode_v1 (Some b) (len b) (Some s0) = (MESH_CONTROL_OK, Some s) ↔
  b = function_bytes s ∧ spec_typed s ∧ mesh_control_function_spec_validate_v1 (Some s) = MESH_CONTROL_OK.
Proof.
  intros Hb. unfold mesh_control_function_document_decode_v1. split.
  - intros H. do 3 (step_in H; [done|]). bool_prop. injection H as <-. apply control_ok_true in E1.
    assert (Hl : length b = 232%nat).
    { unfold len, MESH_CONTROL_FUNCTION_DOCUMENT_SIZE_V1 in *. lia. }
    split_and!; [|by apply read_function_typed|done]. symmetry. apply function_bytes_read; [done| |done].
    apply (memeq_prefix b MESH_CONTROL_FUNCTION_MAGIC_V1); [cbn; lia|done].
  - intros (-> & Ht & Hv). pose proof (length_function_bytes s Ht) as Hl.
    destruct (read_function_bytes s Ht (spec_valid_reserved s Hv)) as (Hread & Hmag & Hz).
    unfold len. rewrite Hl, Hread, Hz, Hv. change (negb (Z.of_nat 232 =? _)) with false. cbv iota.
    assert (Hm : memeq 4 (function_bytes s) MESH_CONTROL_FUNCTION_MAGIC_V1 = true).
    { apply (memeq_prefix _ MESH_CONTROL_FUNCTION_MAGIC_V1); [rewrite Hl; cbn; lia|done]. }
    by rewrite Hm.
Qed.

(** ** Theorems *)

(** The function document codec is exact: for every specification and byte
    string, decoding the bytes yields the specification if and only if encoding
    the specification writes those bytes. *)
Theorem function_document_codec (s s0 : mesh_control_function_spec) (b out : bytes) (n0 : Z) :
  spec_typed s → Forall u8 b → 232 <= len out →
  mesh_control_function_document_decode_v1 (Some b) (len b) (Some s0) = (MESH_CONTROL_OK, Some s) ↔
  mesh_control_function_document_encode_v1 (Some s) (Some out) (Some n0) =
    (MESH_CONTROL_OK, Some (b ++ drop 232 out), Some 232).
Proof.
  intros Ht Hb Ho. rewrite function_decode_iff by done.
  unfold mesh_control_function_document_encode_v1, MESH_CONTROL_FUNCTION_DOCUMENT_SIZE_V1.
  change (negb (non_null (Some n0))) with false. change (negb (non_null (Some out))) with false.
  cbn [orb deref]. rewrite (proj2 (Z.ltb_ge _ _) Ho). cbv iota.
  pose proof (length_function_bytes s Ht) as Hl. split.
  - intros (-> & _ & Hv). rewrite Hv.
    cbn [control_ok negb fmap option_fmap option_map assign deref]. unfold blit.
    by rewrite take_0, Nat.add_0_l, Hl.
  - intros H. step_in H; [done|]. apply negb_false_iff, control_ok_true in E. injection H as H.
    unfold blit in H. cbn [deref] in H. rewrite take_0, Nat.add_0_l, Hl in H.
    cbn [app] in H. by apply app_inv_tail in H as <-.
Qed.

(** An encoded network snapshot decodes to the same document, its name padded
    with zeros and an empty array without a pointer; encoding fails only for a
    buffer that is too small, and then leaves it alone and reports the size. *)
Theorem network_document_roundtrip {CR : Crypto} {CL : CryptoLaws}
    (d d0 : mesh_control_network_document) (n n0 : Z) (out : bytes) r o m :
  network_typed d → mesh_control_network_document_valid (Some d) = Some n →
  mesh_control_network_document_encode_v1 (Some d) (Some out) (Some n0) = (r, o, m) →
  ∃ b, m = Some (len b) ∧ len b = 632 + nd_authorized_peer_count d * 32 + nd_route_count d * 40 ∧
    len b <= MESH_CONTROL_NETWORK_DOCUMENT_MAX_SIZE_V1 ∧
    mesh_control_network_document_decode_v1 (Some b) (len b) (Some d0) =
      (MESH_CONTROL_OK, Some (decoded_form d (Z.to_nat n))) ∧
    if len out <? len b then r = MESH_CONTROL_RESOURCE_EXHAUSTED ∧ o = Some out
    else r = MESH_CONTROL_OK ∧ o = Some (b ++ drop (length b) out).
Proof.
  intros Ht Hv He. rewrite (network_encode_valid d n out n0 Ht Hv) in He.
  destruct (document_valid_shape d n Ht Hv) as (Hs & _ & _).
  pose proof (length_network_bytes d _ Hs) as Hl.
  exists (network_bytes d (Z.to_nat n)). split_and!.
  - by destruct (_ <? _); injection He.
  - done.
  - rewrite Hl. change MESH_CONTROL_NETWORK_DOCUMENT_MAX_SIZE_V1 with 19064.
    destruct Hs as [_ [? _] [? _] _]. lia.
  - by apply network_decode_bytes.
  - by destruct (_ <? _); injection He.
Qed.

(** An accepted network snapshot encodes again to the bytes it came from if
    and only if its declared name holds no zero byte: a name with an embedded
    zero is accepted, but the re-encoding stops at that byte. *)
Theorem network_document_reencode {CR : Crypto} {CL : CryptoLaws} (b out : bytes)
    (d d0 : mesh_control_network_document) (n0 : Z) :
  Forall u8 b → length out = length b →
  mesh_control_network_document_decode_v1 (Some b) (len b) (Some d0) = (MESH_CONTROL_OK, Some d) →
  ∃ b', mesh_control_network_document_encode_v1 (Some d) (Some out) (Some n0) =
          (MESH_CONTROL_OK, Some b', Some (len b)) ∧
    (b' = b ↔ Forall (.≠ 0) (sub b 568 (Z.to_nat (mesh_mgmt_wire_read_u16 (sub b 138 2))))).
Proof.
  intros Hb Ho H. destruct (network_decode_inv b d0 d Hb H) as (n & Ht & Hv & Hbk & Hs & Hname).
  set (k := Z.to_nat (mesh_mgmt_wire_read_u16 (sub b 138 2))) in *.
  destruct (document_valid_shape d n Ht Hv) as (Hs' & Hn & Hres).
  pose proof (length_network_bytes d _ Hs) as Hl. pose proof (length_network_bytes d _ Hs') as Hl'.
  rewrite Hbk in Hl. exists (network_bytes d (Z.to_nat n)).
  rewrite (network_encode_valid d n out n0 Ht Hv).
  assert (Hlo : len out = len b) by (unfold len; lia).
  rewrite Hlo, Hl', <- Hl, Z.ltb_irrefl. split.
  { rewrite drop_ge, app_nil_r; [done|]. unfold len in *. lia. }
  assert (Hk : length (sub b 568 k) = k).
  { apply length_sub. destruct Hs as [_ _ _ ?], Hs' as [_ [? _] [? _] _]. unfold len in *. lia. }
  assert (Hiff : Z.to_nat n = k ↔ Forall (.≠ 0) (sub b 568 k)).
  { rewrite Hn, Hname. rewrite <- (strnlen_whole (sub b 568 k) (64 - k) 64).
    - by rewrite Hk.
    - rewrite Hk. destruct Hs as [_ _ _ ?]. lia. }
  rewrite <- Hiff. split; [|intros ->; done].
  intros E. destruct (network_bytes_read d _ Hs' Hres) as (_ & _ & _ & _ & _ & Hns & _).
  destruct (network_bytes_read d _ Hs Hres) as (_ & _ & _ & _ & _ & Hns' & _).
  rewrite E in Hns. rewrite Hbk in Hns'. lia.
Qed.

(** C35: every accepted network snapshot is sound: at most 256 peers and routes;
    peers strictly ascending, non-zero, without duplicates; routes strictly
    ordered, without duplicates, their host bits clear, an exit route being the
    default route, each next hop an authorized peer or the managed node with the
    role its ticket grants; the route digest is that of the routes; and the
    membership ticket names this mesh, network, node, generation, epochs and
    address. *)
Theorem network_document_sound {CR : Crypto} {CL : CryptoLaws} (b : bytes)
    (d d0 : mesh_control_network_document) :
  Forall u8 b →
  mesh_control_network_document_decode_v1 (Some b) (len b) (Some d0) = (MESH_CONTROL_OK, Some d) →
  network_sound d.
Proof.
  intros Hb H. destruct (network_decode_inv b d0 d Hb H) as (n & Ht & Hv & _).
  by eapply document_valid_sound.
Qed.

(** ** Witnesses *)

#[local] Existing Instance w_crypto.
#[local] Existing Instance w_crypto_laws.

Definition w_spec : mesh_control_function_spec :=
  mk_function_spec 1 MESH_CONTROL_FUNCTION_NATIVE MESH_CONTROL_FUNCTION_RUNNING 0 3 (1 :: zeros 31)
    (2 :: zeros 31) (3 :: zeros 31) (4 :: zeros 31) (5 :: zeros 31) 6 7
    (mk_function_limits 8 9 10 11 12 13).

Lemma w_spec_typed : spec_typed w_spec.
Proof. split; [split_and!; evaluate|evaluate|split_and!; evaluate|split_and!; evaluate|].
  split; split_and!; evaluate. Qed.

Lemma function_document_codec_witness :
  mesh_control_function_document_encode_v1 (Some w_spec) (Some (zeros 232)) (Some 0) =
    (MESH_CONTROL_OK, Some (function_bytes w_spec ++ drop 232 (zeros 232)), Some 232).
Proof.
  apply (function_document_codec w_spec zero_function_spec (function_bytes w_spec) (zeros 232) 0);
    [apply w_spec_typed|evaluate|vm_compute; discriminate|vm_compute; reflexivity].
Defined.

Definition w_node : bytes := 9 :: zeros 31.
Definition w_peers : bytes := (1 :: zeros 31) ++ (2 :: zeros 31).
(** 10.1.0.0/16 through the first peer and a default route through the second. *)
Definition w_routes : list mesh_control_network_route :=
  [mk_route 0 0 MESH_CONTROL_NETWORK_ROUTE_EXIT_V1 5 (2 :: zeros 31);
   mk_route (10 * 2 ^ 24 + 2 ^ 16) 16 MESH_CONTROL_NETWORK_ROUTE_SUBNET_V1 1 (1 :: zeros 31)].
Definition w_route_entries : bytes := concat (route_bytes <$> w_routes).
Definition w_ticket : bytes :=
  ticket_magic ++ mesh_mgmt_wire_write_u16 1 ++ mesh_mgmt_wire_write_u16 300 ++ (3 :: zeros 31) ++
  (4 :: zeros 15) ++ zeros 16 ++ w_node ++ zeros 32 ++ mesh_mgmt_wire_write_u64 7 ++ zeros 8 ++
  mesh_mgmt_wire_write_u64 8 ++ mesh_mgmt_wire_write_u64 6 ++
  mesh_mgmt_wire_write_u32 (10 * 2 ^ 24 + 2) ++ [24] ++ zeros 63 ++ (1 :: zeros 63).
(** The name ["net"], or with a zero byte in it. *)
Definition w_network (name : bytes) : mesh_control_network_document :=
  mk_network_document 1 1 1 0 0 (4 :: zeros 15) (3 :: zeros 31) w_node 7 6 5 8 (10 * 2 ^ 24 + 2) 24 1400
    name (1 :: zeros 31) (2 :: zeros 31) (w_hash w_route_entries) (zeros 32) w_ticket (Some w_peers) 2
    (Some w_route_entries) 2.
Definition w_name : bytes := [110; 101; 116] ++ zeros 61.
Definition w_nul_bytes : bytes :=
  network_bytes (w_network ([110; 0; 116] ++ zeros 61)) 3.

Lemma w_network_typed : network_typed (w_network w_name).
Proof. split; [split_and!; evaluate..|evaluate|split_and!; evaluate|evaluate|split_and!; evaluate|
  evaluate|evaluate|split; evaluate|split; evaluate]. Qed.

Lemma network_document_roundtrip_witness :
  ∃ b, len b = 632 + 2 * 32 + 2 * 40 ∧
    mesh_control_network_document_decode_v1 (Some b) (len b) (Some zero_network_document) =
      (MESH_CONTROL_OK, Some (w_network w_name)).
Proof.
  destruct (network_document_roundtrip (w_network w_name) zero_network_document 3 0 (zeros 800)
    (mesh_control_network_document_encode_v1 (Some (w_network w_name)) (Some (zeros 800)) (Some 0)).1.1
    (mesh_control_network_document_encode_v1 (Some (w_network w_name)) (Some (zeros 800)) (Some 0)).1.2
    (mesh_control_network_document_encode_v1 (Some (w_network w_name)) (Some (zeros 800)) (Some 0)).2)
    as (b & _ & Hl & _ & Hd & _);
    [apply w_network_typed|vm_compute; reflexivity|vm_compute; reflexivity|].
  exists b. split; [exact Hl|exact Hd].
Defined.

(** A name with a zero byte inside: accepted, but not re-encoded to itself. *)
Lemma network_document_reencode_witness :
  mesh_control_network_document_decode_v1 (Some w_nul_bytes) (len w_nul_bytes)
      (Some zero_network_document) =
    (MESH_CONTROL_OK, Some (w_network ([110; 0; 116] ++ zeros 61))) ∧
  ∃ b', mesh_control_network_document_encode_v1 (Some (w_network ([110; 0; 116] ++ zeros 61)))
          (Some (zeros (length w_nul_bytes))) (Some 0) = (MESH_CONTROL_OK, Some b', Some (len w_nul_bytes)) ∧
    b' ≠ w_nul_bytes.
Proof.
  assert (Hd : mesh_control_network_document_decode_v1 (Some w_nul_bytes) (len w_nul_bytes)
      (Some zero_network_document) =
    (MESH_CONTROL_OK, Some (w_network ([110; 0; 116] ++ zeros 61)))) by (vm_compute; reflexivity).
  split; [exact Hd|].
  destruct (network_document_reencode w_nul_bytes (zeros (length w_nul_bytes))
    (w_network ([110; 0; 116] ++ zeros 61)) zero_network_document 0) as (b' & He & Hiff);
    [evaluate|vm_compute; reflexivity|exact Hd|].
  exists b'. split; [exact He|]. intros E. apply Hiff in E.
  apply (bool_decide_pack _) in E. vm_compute in E. exact E.
Defined.

Lemma network_document_sound_witness : network_sound (w_network w_name).
Proof.
  apply (network_document_sound (network_bytes (w_network w_name) 3) (w_network w_name)
    zero_network_document); [evaluate|vm_compute; reflexivity].
Defined.
