(* ===== verification/ControlPolicy.v ===== *)
(** * Node policy: [mesh/src/mesh_control_policy.c]

    What a node lets a controller run: the permissions it grants locally, the
    runtimes it has, and the authorization of a function intent. *)

From S2P Require Import Prelude Wire MgmtCrypto MgmtCodec ControlPrimitives ControlMmp ControlDocument.

(** ** Data *)

Definition MESH_CONTROL_RUNTIME_AVAILABLE_BUILTIN : Z := Z.shiftl 1 0.
Definition MESH_CONTROL_RUNTIME_AVAILABLE_NATIVE : Z := Z.shiftl 1 1.
Definition MESH_CONTROL_RUNTIME_AVAILABLE_WASM : Z := Z.shiftl 1 2.
Definition MESH_CONTROL_RUNTIME_AVAILABLE_KNOWN_V1 : Z :=
  Z.lor (Z.lor MESH_CONTROL_RUNTIME_AVAILABLE_BUILTIN MESH_CONTROL_RUNTIME_AVAILABLE_NATIVE)
    MESH_CONTROL_RUNTIME_AVAILABLE_WASM.

Record mesh_control_node_policy : Type := mk_node_policy {
  np_local_permissions : Z;
  np_available_runtimes : Z }.

(** ** Operations *)

Definition mesh_control_node_policy_default_v1 (out_policy : option mesh_control_node_policy) :
    option mesh_control_node_policy :=
  assign out_policy
    (mk_node_policy
       (Z.lor (Z.lor MESH_CONTROL_PERMISSION_OBSERVE MESH_CONTROL_PERMISSION_MANAGE)
          MESH_CONTROL_PERMISSION_RUN_BUILTIN)
       MESH_CONTROL_RUNTIME_AVAILABLE_BUILTIN).

(** [(permissions & bit) != 0 && (runtimes & available) == 0] *)
Definition runs_without (permissions bit runtimes available : Z) : bool :=
  negb (Z.land permissions bit =? 0) && (Z.land runtimes available =? 0).

Definition mesh_control_node_policy_validate_v1 (policy : option mesh_control_node_policy) :
    mesh_control_result :=
  match policy with
  | None => MESH_CONTROL_INVALID_ARG
  | Some p =>
      let permissions := np_local_permissions p in
      let runtimes := np_available_runtimes p in
      if negb (unknown_permissions permissions =? 0) ||
         negb (Z.land runtimes (wrap 32 (Z.lnot MESH_CONTROL_RUNTIME_AVAILABLE_KNOWN_V1)) =? 0) ||
         (Z.land permissions MESH_CONTROL_PERMISSION_OBSERVE =? 0) ||
         (Z.land permissions MESH_CONTROL_PERMISSION_MANAGE =? 0) ||
         runs_without permissions MESH_CONTROL_PERMISSION_RUN_BUILTIN runtimes
           MESH_CONTROL_RUNTIME_AVAILABLE_BUILTIN ||
         runs_without permissions MESH_CONTROL_PERMISSION_RUN_NATIVE runtimes
           MESH_CONTROL_RUNTIME_AVAILABLE_NATIVE ||
         runs_without permissions MESH_CONTROL_PERMISSION_RUN_WASM runtimes
           MESH_CONTROL_RUNTIME_AVAILABLE_WASM
      then MESH_CONTROL_INVALID_ARG
      else MESH_CONTROL_OK
  end.

(** Result and the contents of [out_effective_permissions]. *)
Definition mesh_control_node_policy_authorize_function_v1 (policy : option mesh_control_node_policy)
    (spec : option mesh_control_function_spec) (granted_permissions : Z)
    (out_effective_permissions : option Z) : mesh_control_result * option Z :=
  match policy, spec with
  | Some p, Some s =>
      if negb (control_ok (mesh_control_node_policy_validate_v1 policy)) ||
         negb (non_null out_effective_permissions)
      then (MESH_CONTROL_INVALID_ARG, out_effective_permissions)
      else
        let '(result, out_effective_permissions) :=
          mesh_control_function_authorize_v1 spec granted_permissions (np_local_permissions p)
            out_effective_permissions in
        if negb (control_ok result) || (fs_desired_state s =? MESH_CONTROL_FUNCTION_STOPPED)
        then (result, out_effective_permissions)
        else
          let required_runtime :=
            if fs_runtime s =? MESH_CONTROL_FUNCTION_BUILTIN
            then Some MESH_CONTROL_RUNTIME_AVAILABLE_BUILTIN
            else if fs_runtime s =? MESH_CONTROL_FUNCTION_NATIVE
            then Some MESH_CONTROL_RUNTIME_AVAILABLE_NATIVE
            else if fs_runtime s =? MESH_CONTROL_FUNCTION_WASM
            then Some MESH_CONTROL_RUNTIME_AVAILABLE_WASM
            else None in
          match required_runtime with
          | None => (MESH_CONTROL_INVALID_ARG, out_effective_permissions)
          | Some required =>
              (if negb (Z.land (np_available_runtimes p) required =? 0) then MESH_CONTROL_OK
               else MESH_CONTROL_INVALID_STATE, out_effective_permissions)
          end
  | _, _ => (MESH_CONTROL_INVALID_ARG, out_effective_permissions)
  end.

(** Result and the contents of [out_effective_permissions] and [out_spec]. *)
Definition mesh_control_node_policy_authorize_function_intent_v1
    (policy : option mesh_control_node_policy) (envelope : option mesh_control_envelope)
    (payload : option bytes) (payload_size granted_permissions : Z)
    (out_effective_permissions : option Z) (out_spec : option mesh_control_function_spec) :
    mesh_control_result * option Z * option mesh_control_function_spec :=
  if negb (non_null out_effective_permissions) || negb (non_null out_spec)
  then (MESH_CONTROL_INVALID_ARG, out_effective_permissions, out_spec)
  else
    let out_effective_permissions := assign out_effective_permissions 0 in
    let out_spec := assign out_spec zero_function_spec in
    match policy, envelope with
    | Some p, Some e =>
        if negb (control_ok (mesh_control_node_policy_validate_v1 policy)) ||
           negb (ce_kind e =? MESH_CONTROL_MESSAGE_INTENT) ||
           negb (ce_resource_kind e =? MESH_CONTROL_RESOURCE_FUNCTION) ||
           negb (unknown_permissions granted_permissions =? 0)
        then (MESH_CONTROL_INVALID_ARG, out_effective_permissions, out_spec)
        else
          match mesh_control_intent_decode_v1 payload payload_size (Some zero_intent) with
          | (MESH_CONTROL_OK, Some intent) =>
              if iv_action intent =? MESH_CONTROL_DESIRED_DELETE then
                let effective := Z.land granted_permissions (np_local_permissions p) in
                if negb (iv_document_size intent =? 0)
                then (MESH_CONTROL_INVALID_ARG, out_effective_permissions, out_spec)
                else
                  (if negb (Z.land effective MESH_CONTROL_PERMISSION_MANAGE =? 0)
                   then MESH_CONTROL_OK else MESH_CONTROL_CONFLICT,
                   assign out_effective_permissions effective, out_spec)
              else
                match mesh_control_function_document_decode_v1 (iv_document intent)
                        (iv_document_size intent) out_spec with
                | (MESH_CONTROL_OK, out_spec) =>
                    let s := deref zero_function_spec out_spec in
                    if negb (memeq 32 (fs_function_id s) (ce_resource_id e)) ||
                       negb (fs_generation s =? ce_epoch e)
                    then (MESH_CONTROL_CONFLICT, out_effective_permissions,
                          assign out_spec zero_function_spec)
                    else
                      let '(result, out_effective_permissions) :=
                        mesh_control_node_policy_authorize_function_v1 policy out_spec
                          granted_permissions out_effective_permissions in
                      (result, out_effective_permissions, out_spec)
                | (_, out_spec) => (MESH_CONTROL_INVALID_ARG, out_effective_permissions, out_spec)
                end
          | _ => (MESH_CONTROL_INVALID_ARG, out_effective_permissions, out_spec)
          end
    | _, _ => (MESH_CONTROL_INVALID_ARG, out_effective_permissions, out_spec)
    end.

(** ** Bits *)

Lemma land_bit x k : 0 <= k → (Z.land x (Z.shiftl 1 k) =? 0) = negb (Z.testbit x k).
Proof.
  intros Hk. assert (E : Z.land x (Z.shiftl 1 k) = if Z.testbit x k then Z.shiftl 1 k else 0).
  { apply Z.bits_inj'. intros i Hi. rewrite Z.land_spec, Z.shiftl_1_l, Z.pow2_bits_eqb by lia.
    destruct (Z.eqb_spec k i) as [->|Hn].
    - rewrite andb_true_r. destruct (Z.testbit x i); [by rewrite Z.pow2_bits_true|by rewrite Z.bits_0].
    - rewrite andb_false_r. destruct (Z.testbit x k); [by rewrite Z.pow2_bits_false|by rewrite Z.bits_0]. }
  rewrite E. destruct (Z.testbit x k); [|done]. rewrite Z.shiftl_1_l. cbn.
  apply Z.eqb_neq. pose proof (Z.pow_pos_nonneg 2 k). lia.
Qed.

Lemma land_two_bits x j k : 0 <= j → 0 <= k →
  (Z.land x (Z.lor (Z.shiftl 1 j) (Z.shiftl 1 k)) =? Z.lor (Z.shiftl 1 j) (Z.shiftl 1 k)) =
  Z.testbit x j && Z.testbit x k.
Proof.
  intros Hj Hk. apply eq_bool_prop_intro. rewrite !Is_true_true, Z.eqb_eq, andb_true_iff.
  rewrite !Z.shiftl_1_l. split.
  - intros E. split.
    + apply (f_equal (λ z, Z.testbit z j)) in E.
      rewrite Z.land_spec, !Z.lor_spec, Z.pow2_bits_true, andb_true_r in E by done. done.
    + apply (f_equal (λ z, Z.testbit z k)) in E.
      rewrite Z.land_spec, !Z.lor_spec, (Z.pow2_bits_true k), orb_true_r, andb_true_r in E by done. done.
  - intros [Ej Ek]. apply Z.bits_inj'. intros i Hi.
    rewrite Z.land_spec, Z.lor_spec, !Z.pow2_bits_eqb by lia.
    destruct (Z.eqb_spec j i) as [->|], (Z.eqb_spec k i) as [->|]; cbn; rewrite ?Ej, ?Ek, ?andb_false_r; done.
Qed.

(** ** What a policy allows *)

(** Both the controller's grant and the node's own policy have bit [k]. *)
Definition allowed (p : mesh_control_node_policy) (granted k : Z) : Prop :=
  Z.testbit granted k = true ∧ Z.testbit (np_local_permissions p) k = true.

(** The permission and the availability bit of a runtime. *)
Definition run_bit (runtime : Z) : Z :=
  if runtime =? MESH_CONTROL_FUNCTION_BUILTIN then 2
  else if runtime =? MESH_CONTROL_FUNCTION_NATIVE then 3 else 4.
Definition runtime_bit (runtime : Z) : Z := run_bit runtime - 2.

Record may_apply (p : mesh_control_node_policy) (granted : Z) (s : mesh_control_function_spec) :
    Prop := {
  ma_manage : allowed p granted 1;
  ma_run : fs_desired_state s = MESH_CONTROL_FUNCTION_RUNNING → allowed p granted (run_bit (fs_runtime s));
  ma_runtime : fs_desired_state s ≠ MESH_CONTROL_FUNCTION_STOPPED →
    Z.testbit (np_available_runtimes p) (runtime_bit (fs_runtime s)) = true }.

Lemma spec_valid_runtime s : mesh_control_function_spec_validate_v1 (Some s) = MESH_CONTROL_OK →
  fs_runtime s = 1 ∨ fs_runtime s = 2 ∨ fs_runtime s = 3.
Proof.
  unfold mesh_control_function_spec_validate_v1, MESH_CONTROL_FUNCTION_BUILTIN,
    MESH_CONTROL_FUNCTION_NATIVE. intros H. step_in H; [done|]. bool_prop. lia.
Qed.

Lemma testbit_land_true x y k : Z.testbit (Z.land x y) k = true ↔ Z.testbit x k = true ∧ Z.testbit y k = true.
Proof. rewrite Z.land_spec. apply andb_true_iff. Qed.

Lemma policy_valid_permissions p : mesh_control_node_policy_validate_v1 (Some p) = MESH_CONTROL_OK →
  unknown_permissions (np_local_permissions p) = 0.
Proof.
  unfold mesh_control_node_policy_validate_v1. intros H. step_in H; [done|]. by bool_prop.
Qed.

Lemma granted_iff (c : bool) (eff : Z) (o : option Z) :
  (if c then MESH_CONTROL_OK else MESH_CONTROL_CONFLICT, Some eff) = (MESH_CONTROL_OK, o) ↔
  o = Some eff ∧ c = true.
Proof. destruct c; split; [by intros [= <-]|by intros [-> _]|done|by intros [_ ?]]. Qed.

Lemma function_authorize_iff s granted local x0 o :
  mesh_control_function_spec_validate_v1 (Some s) = MESH_CONTROL_OK →
  unknown_permissions granted = 0 → unknown_permissions local = 0 →
  mesh_control_function_authorize_v1 (Some s) granted local (Some x0) = (MESH_CONTROL_OK, o) ↔
  o = Some (Z.land granted local) ∧ Z.testbit (Z.land granted local) 1 = true ∧
  (fs_desired_state s = MESH_CONTROL_FUNCTION_RUNNING →
   Z.testbit (Z.land granted local) (run_bit (fs_runtime s)) = true).
Proof.
  intros Hv Hg Hl. unfold mesh_control_function_authorize_v1. rewrite Hv, Hg, Hl.
  cbn [control_ok negb orb]. change (negb (0 =? 0)) with false. cbn [orb]. cbv iota.
  set (eff := Z.land granted local).
  unfold MESH_CONTROL_PERMISSION_MANAGE, MESH_CONTROL_PERMISSION_RUN_BUILTIN,
    MESH_CONTROL_PERMISSION_RUN_NATIVE, MESH_CONTROL_PERMISSION_RUN_WASM.
  destruct (Z.eqb_spec (fs_desired_state s) MESH_CONTROL_FUNCTION_RUNNING) as [Er|Er].
  - unfold run_bit, MESH_CONTROL_FUNCTION_BUILTIN, MESH_CONTROL_FUNCTION_NATIVE,
      MESH_CONTROL_FUNCTION_WASM.
    destruct (spec_valid_runtime s Hv) as [-> |[-> | ->]]; cbn [Z.eqb Pos.eqb];
      rewrite land_two_bits, granted_iff, andb_true_iff by lia; tauto.
  - assert (Hm : (Z.land eff (Z.shiftl 1 1) =? Z.shiftl 1 1) = Z.testbit eff 1).
    { rewrite <- (Z.lor_diag (Z.shiftl 1 1)), land_two_bits by lia. apply andb_diag. }
    rewrite Hm, granted_iff. tauto.
Qed.

Lemma policy_authorize_iff p s granted x0 o :
  mesh_control_node_policy_validate_v1 (Some p) = MESH_CONTROL_OK →
  mesh_control_function_spec_validate_v1 (Some s) = MESH_CONTROL_OK →
  unknown_permissions granted = 0 →
  mesh_control_node_policy_authorize_function_v1 (Some p) (Some s) granted (Some x0) =
    (MESH_CONTROL_OK, o) ↔
  o = Some (Z.land granted (np_local_permissions p)) ∧ may_apply p granted s.
Proof.
  intros Hp Hs Hg. pose proof (policy_valid_permissions p Hp) as Hl.
  assert (Hma : may_apply p granted s ↔
    Z.testbit (Z.land granted (np_local_permissions p)) 1 = true ∧
    (fs_desired_state s = MESH_CONTROL_FUNCTION_RUNNING →
     Z.testbit (Z.land granted (np_local_permissions p)) (run_bit (fs_runtime s)) = true) ∧
    (fs_desired_state s ≠ MESH_CONTROL_FUNCTION_STOPPED →
     Z.testbit (np_available_runtimes p) (runtime_bit (fs_runtime s)) = true)).
  { rewrite !testbit_land_true. split; [intros []; done|intros (? & ? & ?); by split]. }
  pose proof (λ o', function_authorize_iff s granted (np_local_permissions p) x0 o' Hs Hg Hl) as Ha.
  unfold mesh_control_node_policy_authorize_function_v1. rewrite Hp. cbn [control_ok negb orb].
  change (negb (non_null (Some x0))) with false. cbv iota. rewrite Hma. clear Hma.
  destruct (mesh_control_function_authorize_v1 _ _ _ _) as [r o'] eqn:E. specialize (Ha o').
  destruct (control_ok r) eqn:Er; cbn [negb orb].
  2:{ split; [intros [= -> _]; done|]. intros (_ & H1 & H2 & _).
      pose proof (proj2 (function_authorize_iff s granted (np_local_permissions p) x0 _ Hs Hg Hl)
        (conj eq_refl (conj H1 H2))) as E'. rewrite E in E'. injection E' as -> _. done. }
  apply control_ok_true in Er as ->. destruct Ha as [Ha _]. specialize (Ha eq_refl) as (-> & H1 & H2).
  destruct (Z.eqb_spec (fs_desired_state s) MESH_CONTROL_FUNCTION_STOPPED) as [Es|Es].
  { split; [intros [= <-]; by split_and!|by intros [-> _]]. }
  assert (Hrt : Z.testbit (np_available_runtimes p) (runtime_bit (fs_runtime s)) = true ↔
    (fs_desired_state s ≠ MESH_CONTROL_FUNCTION_STOPPED →
     Z.testbit (np_available_runtimes p) (runtime_bit (fs_runtime s)) = true)) by tauto.
  rewrite <- Hrt. clear Hrt. revert H2. unfold runtime_bit, run_bit, MESH_CONTROL_FUNCTION_BUILTIN,
    MESH_CONTROL_FUNCTION_NATIVE, MESH_CONTROL_FUNCTION_WASM, MESH_CONTROL_RUNTIME_AVAILABLE_BUILTIN,
    MESH_CONTROL_RUNTIME_AVAILABLE_NATIVE, MESH_CONTROL_RUNTIME_AVAILABLE_WASM.
  destruct (spec_valid_runtime s Hs) as [-> |[-> | ->]]; cbn [Z.eqb Pos.eqb]; intros H2;
    rewrite land_bit, negb_involutive by lia;
    (destruct (Z.testbit (np_available_runtimes p) _); split;
     [by intros [= <-]|by intros [-> _]|done|by intros (_ & _ & _ & ?)]).
Qed.

Lemma intent_bytes_inj a b d d' :
  (a = MESH_CONTROL_DESIRED_APPLY ∨ a = MESH_CONTROL_DESIRED_DELETE) →
  (b = MESH_CONTROL_DESIRED_APPLY ∨ b = MESH_CONTROL_DESIRED_DELETE) →
  intent_bytes a d = intent_bytes b d' → a = b ∧ d = d'.
Proof.
  intros Ha Hb H. unfold intent_bytes in H. do 2 apply app_inv_head in H.
  apply app_inj_1 in H as [H ->]; [|done]. split; [|done].
  destruct Ha as [-> | ->], Hb as [-> | ->]; done.
Qed.

Lemma body_view_Some b : b ≠ [] → body_view b = Some b.
Proof.
  intros Hb. unfold body_view. destruct (Z.eqb_spec (len b) 0) as [E|]; [|done].
  destruct b; [done|]. unfold len in E. cbn in E. lia.
Qed.

(** The part of the authorization that follows the decoded action. *)
Lemma apply_intent_iff p e doc granted o so :
  mesh_control_node_policy_validate_v1 (Some p) = MESH_CONTROL_OK → unknown_permissions granted = 0 →
  bytes_ok 32 (ce_resource_id e) → Forall u8 doc →
  match mesh_control_function_document_decode_v1 (body_view doc) (len doc) (Some zero_function_spec) with
  | (MESH_CONTROL_OK, out_spec) =>
      let s := deref zero_function_spec out_spec in
      if negb (memeq 32 (fs_function_id s) (ce_resource_id e)) || negb (fs_generation s =? ce_epoch e)
      then (MESH_CONTROL_CONFLICT, Some 0, (λ _, zero_function_spec) <$> out_spec)
      else
        let '(result, out_effective_permissions) :=
          mesh_control_node_policy_authorize_function_v1 (Some p) out_spec granted (Some 0) in
        (result, out_effective_permissions, out_spec)
  | (_, out_spec) => (MESH_CONTROL_INVALID_ARG, Some 0, out_spec)
  end = (MESH_CONTROL_OK, o, so) ↔
  o = Some (Z.land granted (np_local_permissions p)) ∧
  ∃ s, doc = function_bytes s ∧ spec_typed s ∧
    mesh_control_function_spec_validate_v1 (Some s) = MESH_CONTROL_OK ∧
    fs_function_id s = ce_resource_id e ∧ fs_generation s = ce_epoch e ∧
    may_apply p granted s ∧ so = Some s.
Proof.
  intros Hv Hg Hid Hdoc.
  destruct (mesh_control_function_document_decode_v1 _ _ _) as [r os] eqn:Ef.
  destruct (decide (r = MESH_CONTROL_OK)) as [->|Hr].
  2:{ split; [by destruct r|]. intros (_ & s & -> & Ht & Hs & _). exfalso. apply Hr.
      pose proof (length_function_bytes s Ht) as Hl.
      rewrite body_view_Some in Ef by (intros E; by rewrite E in Hl).
      assert (Hd := proj2 (function_decode_iff (function_bytes s) zero_function_spec s Hdoc)
        (conj eq_refl (conj Ht Hs))).
      rewrite Ef in Hd. by injection Hd. }
  assert (Hne : doc ≠ []) by (by intros ->). rewrite body_view_Some in Ef by done.
  assert (∃ s, os = Some s) as [s ->].
  { unfold mesh_control_function_document_decode_v1 in Ef. do 3 (step_in Ef; [done|]).
    injection Ef as <-. eauto. }
  apply function_decode_iff in Ef as (-> & Ht & Hs); [|done]. cbn [deref].
  assert (Hinj : ∀ s', function_bytes s = function_bytes s' → spec_typed s' →
    mesh_control_function_spec_validate_v1 (Some s') = MESH_CONTROL_OK → s' = s).
  { intros s' Hb Ht' Hs'. rewrite <- (proj1 (read_function_bytes s Ht (spec_valid_reserved s Hs))).
    by rewrite Hb, (proj1 (read_function_bytes s' Ht' (spec_valid_reserved s' Hs'))). }
  rewrite memeq_spec by (apply Ht || apply Hid). case_bool_decide as Ei; cbn [negb orb].
  2:{ split; [done|]. intros (_ & s' & Hb & Ht' & Hs' & He & _). by rewrite (Hinj s') in He. }
  destruct (Z.eqb_spec (fs_generation s) (ce_epoch e)) as [Ege|Ege]; cbn [negb].
  2:{ split; [done|]. intros (_ & s' & Hb & Ht' & Hs' & _ & He & _). by rewrite (Hinj s') in He. }
  pose proof (λ o', policy_authorize_iff p s granted 0 o' Hv Hs Hg) as Ha.
  destruct (mesh_control_node_policy_authorize_function_v1 _ _ _ _) as [r o'].
  split.
  - intros [= -> -> <-]. destruct (proj1 (Ha o) eq_refl) as [-> Hm]. split; [done|]. by exists s.
  - intros (-> & s' & Hb & Ht' & Hs' & _ & _ & Hm & ->). rewrite (Hinj s') in * by done.
    pose proof (proj2 (Ha _) (conj eq_refl Hm)) as E. by injection E as -> ->.
Qed.

(** ** Theorems *)

(** A function intent is authorized exactly when the message is an intent for
    a function, the policy is valid, and the payload is the canonical encoding of
    either a deletion without a document, with the manage permission granted by
    both sides, or of a valid specification bound to the envelope's resource and
    epoch whose state and runtime both sides permit and the node has.  The
    effective permissions are then the intersection of the two grants. *)
Theorem policy_intent_authorized (p : mesh_control_node_policy) (e : mesh_control_envelope)
    (payload : bytes) (granted x0 : Z) (s0 : mesh_control_function_spec) o so :
  Forall u8 payload → bytes_ok 32 (ce_resource_id e) →
  mesh_control_node_policy_authorize_function_intent_v1 (Some p) (Some e) (Some payload)
    (len payload) granted (Some x0) (Some s0) = (MESH_CONTROL_OK, o, so) ↔
  mesh_control_node_policy_validate_v1 (Some p) = MESH_CONTROL_OK ∧
  ce_kind e = MESH_CONTROL_MESSAGE_INTENT ∧ ce_resource_kind e = MESH_CONTROL_RESOURCE_FUNCTION ∧
  unknown_permissions granted = 0 ∧ o = Some (Z.land granted (np_local_permissions p)) ∧
  ((payload = intent_bytes MESH_CONTROL_DESIRED_DELETE [] ∧ allowed p granted 1 ∧
    so = Some zero_function_spec) ∨
   ∃ s, payload = intent_bytes MESH_CONTROL_DESIRED_APPLY (function_bytes s) ∧ spec_typed s ∧
     mesh_control_function_spec_validate_v1 (Some s) = MESH_CONTROL_OK ∧
     fs_function_id s = ce_resource_id e ∧ fs_generation s = ce_epoch e ∧
     may_apply p granted s ∧ so = Some s).
Proof.
  intros Hpb Hid. unfold mesh_control_node_policy_authorize_function_intent_v1.
  change (negb (non_null (Some x0)) || _) with false. cbv iota.
  cbn [assign fmap option_fmap option_map]. destruct (_ || _) eqn:Eg.
  { split; [done|]. intros (Hv & Hk & Hr & Hg & _). rewrite Hv, Hk, Hr, Hg in Eg. done. }
  apply orb_false_iff in Eg as [Eg Hg]. apply orb_false_iff in Eg as [Eg Hr].
  apply orb_false_iff in Eg as [Hv Hk]. bool_prop. apply control_ok_true in Hv.
  destruct (mesh_control_intent_decode_v1 _ _ _) as [r oi] eqn:Ei.
  destruct (decide (r = MESH_CONTROL_OK ∧ is_Some oi)) as [[-> [i ->]]|Hn].
  2:{ split; [by intros H; exfalso; apply Hn; destruct r, oi; try done; split; eauto|].
      intros (_ & _ & _ & _ & _ & [(-> & _)|(s & -> & Ht & _)]); exfalso; apply Hn;
        match type of Ei with mesh_control_intent_decode_v1 (Some (intent_bytes ?a ?d)) _ _ = _ =>
          destruct (intent_decode_bytes a d zero_intent) as [Hd _];
          [by auto|first [by vm_compute|unfold len; rewrite length_function_bytes by done; by vm_compute]|] end;
        rewrite Ei in Hd; injection Hd as -> ->; split; eauto. }
  destruct (intent_decode_inv _ _ _ Hpb Ei) as (a & doc & Ha & Hd & -> & ->).
  cbn [iv_action iv_document iv_document_size].
  destruct Ha as [-> | ->].
  - rewrite (apply_intent_iff p e doc granted o so) by
      (done || by apply Forall_app in Hpb as [_ [_ [_ ?]%Forall_app]%Forall_app]).
    split.
    + intros (-> & s & -> & ?). split_and!; try done. right. by exists s.
    + intros (_ & _ & _ & _ & -> & [(Hb & _)|(s & Hb & ?)]).
      * by apply intent_bytes_inj in Hb as [? _]; [|auto..].
      * apply intent_bytes_inj in Hb as [_ ->]; [|auto..]. split; [done|]. by exists s.
  - change (MESH_CONTROL_DESIRED_DELETE =? MESH_CONTROL_DESIRED_DELETE) with true. cbv iota.
    destruct (Z.eqb_spec (len doc) 0) as [E0|E0]; cbn [negb].
    + assert (doc = []) as -> by (destruct doc; unfold len in *; cbn in *; done || lia).
      unfold MESH_CONTROL_PERMISSION_MANAGE. rewrite land_bit, negb_involutive by lia.
      unfold allowed. rewrite <- testbit_land_true. split.
      * destruct (Z.testbit _ 1) eqn:Eb; [|done]. intros [= <- <-]. split_and!; try done. by left.
      * intros (_ & _ & _ & _ & -> & [(_ & -> & ->)|(s & Hb & _)]); [done|].
        by apply intent_bytes_inj in Hb as [? _]; [|auto..].
    + split; [done|]. intros (_ & _ & _ & _ & _ & [(Hb & _)|(s & Hb & _)]).
      * by apply intent_bytes_inj in Hb as [_ ->]; [|auto..].
      * by apply intent_bytes_inj in Hb as [? _]; [|auto..].
Qed.

(** A node may opt in to WASM: the validator accepts its permission and runtime bits. *)
Example policy_accepts_wasm :
  mesh_control_node_policy_validate_v1
    (Some (mk_node_policy MESH_CONTROL_PERMISSION_KNOWN_V1 MESH_CONTROL_RUNTIME_AVAILABLE_KNOWN_V1)) =
  MESH_CONTROL_OK.
Proof. vm_compute. reflexivity. Qed.

(** ** Witnesses *)

Definition w_policy : mesh_control_node_policy := mk_node_policy 15 3.
Definition w_intent_envelope : mesh_control_envelope :=
  mk_control_envelope 1 MESH_CONTROL_MESSAGE_INTENT 0 (1 :: zeros 15) (2 :: zeros 15) (3 :: zeros 31)
    (4 :: zeros 31) (5 :: zeros 31) (6 :: zeros 15) (7 :: zeros 31) MESH_CONTROL_RESOURCE_FUNCTION 0
    (1 :: zeros 31) 6 9 1000 2000 10 11 12 0 (8 :: zeros 31) 240.

Lemma policy_intent_authorized_witness :
  mesh_control_node_policy_authorize_function_intent_v1 (Some w_policy) (Some w_intent_envelope)
    (Some (intent_bytes MESH_CONTROL_DESIRED_APPLY (function_bytes w_spec))) 240 11 (Some 0)
    (Some zero_function_spec) = (MESH_CONTROL_OK, Some 11, Some w_spec) ∧
  may_apply w_policy 11 w_spec.
Proof.
  assert (H : mesh_control_node_policy_authorize_function_intent_v1 (Some w_policy)
    (Some w_intent_envelope) (Some (intent_bytes MESH_CONTROL_DESIRED_APPLY (function_bytes w_spec)))
    (len (intent_bytes MESH_CONTROL_DESIRED_APPLY (function_bytes w_spec))) 11 (Some 0)
    (Some zero_function_spec) = (MESH_CONTROL_OK, Some 11, Some w_spec)) by (vm_compute; reflexivity).
  split; [exact H|].
  apply (policy_intent_authorized w_policy w_intent_envelope _ 11 0 zero_function_spec) in H;
    [|evaluate|evaluate].
  destruct H as (_ & _ & _ & _ & _ & [(_ & _ & H)|(s & _ & _ & _ & _ & _ & Hm & Hs)]).
  - discriminate H.
  - injection Hs as <-. exact Hm.
Defined.
