(* ===== verification/ControlChannel.v ===== *)
(** * The control channel: [mesh/src/mesh_control_channel.c]

    A bounded single-producer single-consumer queue of owned messages.  The ring
    buffer under it belongs to another repository and is a parameter ([Ring])
    with its documented first-in first-out behaviour ([RingLaws]).  The calls are
    given twice: as functions, for callers that run alone, and as the sequence of
    atomic steps the two threads interleave. *)

From S2P Require Import Prelude ControlPrimitives.

(** ** Data *)

Definition MESH_CONTROL_OUTBOX_MAX_ENTRIES_V1 : Z := 4096.
Definition MESH_CONTROL_CHANNEL_STORAGE_FACTOR_V1 : Z := 2.
(** The size of a message pointer and [sizeof(mesh_control_owned_message_v1_t)],
    with 64-bit pointers. *)
Definition MESH_CONTROL_CHANNEL_SLOT_SIZE_V1 : Z := 8.
Definition OWNED_MESSAGE_SIZE : Z := 344.

(** The flexible array holds the payload, then the signed frame. *)
Record mesh_control_owned_message : Type := mk_owned {
  om_envelope : mesh_control_envelope;
  om_allocation_size : Z;
  om_signed_frame_size : Z;
  om_payload : bytes }.

Record mesh_control_message_view : Type := mk_message_view {
  mv_envelope : mesh_control_envelope;
  mv_payload : option bytes;
  mv_payload_size : Z;
  mv_signed_frame : option bytes;
  mv_signed_frame_size : Z }.

Record mesh_control_channel_stats : Type := mk_channel_stats {
  chs_capacity : Z;
  chs_pending : Z;
  chs_retained_bytes : Z;
  chs_max_retained_bytes : Z;
  chs_max_payload_size : Z;
  chs_accepting : bool;
  chs_published : Z;
  chs_consumed : Z;
  chs_rejected_full : Z;
  chs_rejected_bytes : Z;
  chs_rejected_closed : Z }.

(** ** The ring buffer *)

(** One slot holds one message pointer.  [read_acquire] is [None] when no whole
    slot is readable, and [Some None] for a slot with a NULL pointer. *)
Class Ring : Type := {
  ring : Type;
  ring_spsc_init : Z → option ring;
  ring_spsc_write_acquire : ring → bool;
  ring_spsc_write_release : ring → mesh_control_owned_message → ring;
  ring_spsc_read_acquire : ring → option (option mesh_control_owned_message);
  ring_spsc_read_release : ring → ring }.

(** What is published and not yet released, oldest first. *)
Class RingLaws `{Ring} : Type := {
  contents : ring → list mesh_control_owned_message;
  init_contents size r : ring_spsc_init size = Some r → contents r = [];
  write_contents r m : ring_spsc_write_acquire r = true →
    contents (ring_spsc_write_release r m) = contents r ++ [m];
  read_contents r : ring_spsc_read_acquire r =
    match contents r with [] => None | m :: _ => Some (Some m) end;
  release_contents r : contents (ring_spsc_read_release r) = tail (contents r);
  (* releasing a slot never takes writable space away *)
  release_room r : ring_spsc_write_acquire r = true →
    ring_spsc_write_acquire (ring_spsc_read_release r) = true }.

Section Channel.
Context {R : Ring}.

(** [ch_storage] tells whether the storage pointer is non-NULL. *)
Record mesh_control_channel : Type := mk_channel {
  ch_ring : option ring;
  ch_storage : bool;
  ch_capacity : Z;
  ch_max_retained_bytes : Z;
  ch_max_payload_size : Z;
  ch_accepting : bool;
  ch_pending : Z;
  ch_retained_bytes : Z;
  ch_published : Z;
  ch_consumed : Z;
  ch_rejected_full : Z;
  ch_rejected_bytes : Z;
  ch_rejected_closed : Z;
  ch_initialized : Z }.
Definition zero_channel : mesh_control_channel :=
  mk_channel None false 0 0 0 false 0 0 0 0 0 0 0 0.

(** Assignments to single members. *)
Definition set_ch_ring r c := mk_channel r (ch_storage c) (ch_capacity c) (ch_max_retained_bytes c)
  (ch_max_payload_size c) (ch_accepting c) (ch_pending c) (ch_retained_bytes c) (ch_published c)
  (ch_consumed c) (ch_rejected_full c) (ch_rejected_bytes c) (ch_rejected_closed c) (ch_initialized c).
Definition set_ch_accepting a c := mk_channel (ch_ring c) (ch_storage c) (ch_capacity c)
  (ch_max_retained_bytes c) (ch_max_payload_size c) a (ch_pending c) (ch_retained_bytes c)
  (ch_published c) (ch_consumed c) (ch_rejected_full c) (ch_rejected_bytes c) (ch_rejected_closed c)
  (ch_initialized c).
Definition set_ch_pending n c := mk_channel (ch_ring c) (ch_storage c) (ch_capacity c)
  (ch_max_retained_bytes c) (ch_max_payload_size c) (ch_accepting c) n (ch_retained_bytes c)
  (ch_published c) (ch_consumed c) (ch_rejected_full c) (ch_rejected_bytes c) (ch_rejected_closed c)
  (ch_initialized c).
Definition set_ch_retained n c := mk_channel (ch_ring c) (ch_storage c) (ch_capacity c)
  (ch_max_retained_bytes c) (ch_max_payload_size c) (ch_accepting c) (ch_pending c) n
  (ch_published c) (ch_consumed c) (ch_rejected_full c) (ch_rejected_bytes c) (ch_rejected_closed c)
  (ch_initialized c).
Definition count_published c := mk_channel (ch_ring c) (ch_storage c) (ch_capacity c)
  (ch_max_retained_bytes c) (ch_max_payload_size c) (ch_accepting c) (ch_pending c)
  (ch_retained_bytes c) (wrap 64 (ch_published c + 1)) (ch_consumed c) (ch_rejected_full c)
  (ch_rejected_bytes c) (ch_rejected_closed c) (ch_initialized c).
Definition count_consumed c := mk_channel (ch_ring c) (ch_storage c) (ch_capacity c)
  (ch_max_retained_bytes c) (ch_max_payload_size c) (ch_accepting c) (ch_pending c)
  (ch_retained_bytes c) (ch_published c) (wrap 64 (ch_consumed c + 1)) (ch_rejected_full c)
  (ch_rejected_bytes c) (ch_rejected_closed c) (ch_initialized c).
Definition count_full c := mk_channel (ch_ring c) (ch_storage c) (ch_capacity c)
  (ch_max_retained_bytes c) (ch_max_payload_size c) (ch_accepting c) (ch_pending c)
  (ch_retained_bytes c) (ch_published c) (ch_consumed c) (wrap 64 (ch_rejected_full c + 1))
  (ch_rejected_bytes c) (ch_rejected_closed c) (ch_initialized c).
Definition count_bytes c := mk_channel (ch_ring c) (ch_storage c) (ch_capacity c)
  (ch_max_retained_bytes c) (ch_max_payload_size c) (ch_accepting c) (ch_pending c)
  (ch_retained_bytes c) (ch_published c) (ch_consumed c) (ch_rejected_full c)
  (wrap 64 (ch_rejected_bytes c + 1)) (ch_rejected_closed c) (ch_initialized c).
Definition count_closed c := mk_channel (ch_ring c) (ch_storage c) (ch_capacity c)
  (ch_max_retained_bytes c) (ch_max_payload_size c) (ch_accepting c) (ch_pending c)
  (ch_retained_bytes c) (ch_published c) (ch_consumed c) (ch_rejected_full c)
  (ch_rejected_bytes c) (wrap 64 (ch_rejected_closed c + 1)) (ch_initialized c).

(** ** Calls *)

Definition mesh_control_channel_capacity_valid (capacity : Z) : bool :=
  negb (capacity =? 0) && (capacity <=? MESH_CONTROL_OUTBOX_MAX_ENTRIES_V1) &&
  (Z.land capacity (wrap 64 (capacity - 1)) =? 0) &&
  (capacity <=? SIZE_MAX / MESH_CONTROL_CHANNEL_SLOT_SIZE_V1 / MESH_CONTROL_CHANNEL_STORAGE_FACTOR_V1).

(** The result and the message pointer read. *)
Definition mesh_control_channel_head_v1 (channel : option mesh_control_channel) :
    mesh_control_result * option mesh_control_owned_message :=
  match channel with
  | None => (MESH_CONTROL_INVALID_ARG, None)
  | Some c =>
      if (ch_initialized c =? 0) || negb (ch_storage c) then (MESH_CONTROL_INVALID_ARG, None)
      else
        match ch_ring c with
        | None => (MESH_CONTROL_EMPTY, None)
        | Some r =>
            match ring_spsc_read_acquire r with
            | None => (MESH_CONTROL_EMPTY, None)
            | Some None => (MESH_CONTROL_INVALID_STATE, None)
            | Some (Some message) => (MESH_CONTROL_OK, Some message)
            end
        end
  end.

Definition mesh_control_channel_init_v1 (alloc_ok : bool) (channel : option mesh_control_channel)
    (capacity max_retained_bytes max_payload_size : Z) :
    mesh_control_result * option mesh_control_channel :=
  match channel with
  | None => (MESH_CONTROL_INVALID_ARG, channel)
  | Some _ =>
      if negb (mesh_control_channel_capacity_valid capacity) || (max_retained_bytes =? 0) ||
         (MESH_CONTROL_OUTBOX_MAX_RETAINED_BYTES_V1 <? max_retained_bytes) ||
         (max_payload_size =? 0) || (MESH_CONTROL_MAX_FRAME_SIZE_V1 <? max_payload_size)
      then (MESH_CONTROL_INVALID_ARG, channel)
      else
        let storage_size :=
          capacity * MESH_CONTROL_CHANNEL_SLOT_SIZE_V1 * MESH_CONTROL_CHANNEL_STORAGE_FACTOR_V1 in
        if negb alloc_ok then (MESH_CONTROL_RESOURCE_EXHAUSTED, Some zero_channel)
        else
          match ring_spsc_init storage_size with
          | None => (MESH_CONTROL_INVALID_ARG, Some zero_channel)
          | Some r =>
              (MESH_CONTROL_OK,
               Some (mk_channel (Some r) true capacity max_retained_bytes max_payload_size true
                       0 0 0 0 0 0 0 1))
          end
  end.

(** The message a push allocates. *)
Definition owned_message (envelope : mesh_control_envelope) (payload : option bytes)
    (payload_size : Z) (signed_frame : option bytes) (signed_frame_size : Z) :
    mesh_control_owned_message :=
  mk_owned envelope (OWNED_MESSAGE_SIZE + payload_size + signed_frame_size) signed_frame_size
    (take (Z.to_nat payload_size) (deref [] payload) ++
     take (Z.to_nat signed_frame_size) (deref [] signed_frame)).

(** The argument checks of a push. *)
Definition push_arguments_valid (c : mesh_control_channel) (envelope : option mesh_control_envelope)
    (payload : option bytes) (payload_size : Z) (signed_frame : option bytes)
    (signed_frame_size : Z) : bool :=
  match envelope with
  | None => false
  | Some e =>
      negb ((ch_initialized c =? 0) || negb (ch_storage c) ||
            negb (payload_size =? ce_payload_size e) ||
            (ch_max_payload_size c <? payload_size) ||
            (negb (payload_size =? 0) && negb (non_null payload)) ||
            (MESH_CONTROL_MAX_FRAME_SIZE_V1 <? signed_frame_size) ||
            (negb (signed_frame_size =? 0) && negb (non_null signed_frame)) ||
            negb (control_ok (mesh_control_envelope_validate_v1 envelope)))
  end.

Definition mesh_control_channel_try_push_signed_v1 (alloc_ok : bool)
    (channel : option mesh_control_channel) (envelope : option mesh_control_envelope)
    (payload : option bytes) (payload_size : Z) (signed_frame : option bytes)
    (signed_frame_size : Z) : mesh_control_result * option mesh_control_channel :=
  match channel, envelope with
  | Some c, Some e =>
      if negb (push_arguments_valid c envelope payload payload_size signed_frame signed_frame_size)
      then (MESH_CONTROL_INVALID_ARG, channel)
      else if negb (ch_accepting c) then (MESH_CONTROL_CLOSED, Some (count_closed c))
      else if ch_capacity c <=? ch_pending c
      then (MESH_CONTROL_RESOURCE_EXHAUSTED, Some (count_full c))
      else if (SIZE_MAX - OWNED_MESSAGE_SIZE <? payload_size) ||
              (SIZE_MAX - OWNED_MESSAGE_SIZE - payload_size <? signed_frame_size)
      then (MESH_CONTROL_INVALID_ARG, channel)
      else
        let message := owned_message e payload payload_size signed_frame signed_frame_size in
        let allocation_size := om_allocation_size message in
        if (ch_max_retained_bytes c <? allocation_size) ||
           (ch_max_retained_bytes c - allocation_size <? ch_retained_bytes c)
        then (MESH_CONTROL_RESOURCE_EXHAUSTED, Some (count_bytes c))
        else if negb alloc_ok then (MESH_CONTROL_RESOURCE_EXHAUSTED, Some (count_bytes c))
        else
          match ch_ring c with
          | Some r =>
              if negb (ring_spsc_write_acquire r)
              then (MESH_CONTROL_RESOURCE_EXHAUSTED, Some (count_full c))
              else
                (MESH_CONTROL_OK,
                 Some (c |> set_ch_pending (wrap 64 (ch_pending c + 1))
                         |> set_ch_retained (wrap 64 (ch_retained_bytes c + allocation_size))
                         |> set_ch_ring (Some (ring_spsc_write_release r message))
                         |> count_published))
          | None => (MESH_CONTROL_RESOURCE_EXHAUSTED, Some (count_full c))
          end
  | _, _ => (MESH_CONTROL_INVALID_ARG, channel)
  end.

Definition mesh_control_channel_try_push_v1 (alloc_ok : bool) (channel : option mesh_control_channel)
    (envelope : option mesh_control_envelope) (payload : option bytes) (payload_size : Z) :
    mesh_control_result * option mesh_control_channel :=
  mesh_control_channel_try_push_signed_v1 alloc_ok channel envelope payload payload_size None 0.

(** The view of a message: a borrowed span is the bytes it covers. *)
Definition message_view (m : mesh_control_owned_message) : mesh_control_message_view :=
  let size := Z.to_nat (ce_payload_size (om_envelope m)) in
  mk_message_view (om_envelope m) (Some (take size (om_payload m))) (ce_payload_size (om_envelope m))
    (if negb (om_signed_frame_size m =? 0)
     then Some (take (Z.to_nat (om_signed_frame_size m)) (drop size (om_payload m))) else None)
    (om_signed_frame_size m).

Definition mesh_control_channel_peek_v1 (channel : option mesh_control_channel)
    (out_message : option mesh_control_message_view) :
    mesh_control_result * option mesh_control_message_view :=
  if negb (non_null out_message) then (MESH_CONTROL_INVALID_ARG, out_message)
  else
    match mesh_control_channel_head_v1 channel with
    | (MESH_CONTROL_OK, Some m) => (MESH_CONTROL_OK, Some (message_view m))
    | (result, _) => (result, out_message)
    end.

Definition mesh_control_channel_consume_v1 (channel : option mesh_control_channel) :
    mesh_control_result * option mesh_control_channel :=
  match mesh_control_channel_head_v1 channel, channel with
  | (MESH_CONTROL_OK, Some m), Some c =>
      (MESH_CONTROL_OK,
       Some (c |> set_ch_ring (ring_spsc_read_release <$> ch_ring c)
               |> set_ch_pending (wrap 64 (ch_pending c - 1))
               |> set_ch_retained (wrap 64 (ch_retained_bytes c - om_allocation_size m))
               |> count_consumed))
  | (result, _), _ => (result, channel)
  end.

Definition mesh_control_channel_close_v1 (channel : option mesh_control_channel) :
    mesh_control_result * option mesh_control_channel :=
  match channel with
  | None => (MESH_CONTROL_INVALID_ARG, channel)
  | Some c =>
      if (ch_initialized c =? 0) || negb (ch_storage c) then (MESH_CONTROL_INVALID_ARG, channel)
      else (MESH_CONTROL_OK, Some (set_ch_accepting false c))
  end.

Definition mesh_control_channel_get_stats_v1 (channel : option mesh_control_channel)
    (out_stats : option mesh_control_channel_stats) :
    mesh_control_result * option mesh_control_channel_stats :=
  match channel, out_stats with
  | Some c, Some _ =>
      if (ch_initialized c =? 0) || negb (ch_storage c) then (MESH_CONTROL_INVALID_ARG, out_stats)
      else
        (MESH_CONTROL_OK,
         Some (mk_channel_stats (ch_capacity c) (ch_pending c) (ch_retained_bytes c)
                 (ch_max_retained_bytes c) (ch_max_payload_size c) (ch_accepting c) (ch_published c)
                 (ch_consumed c) (ch_rejected_full c) (ch_rejected_bytes c) (ch_rejected_closed c)))
  | _, _ => (MESH_CONTROL_INVALID_ARG, out_stats)
  end.

(** The [while] loop that releases what is left; [None] when [fuel] runs out. *)
Fixpoint drain_loop (fuel : nat) (channel : option mesh_control_channel) :
    option (option mesh_control_channel) :=
  match fuel with
  | O => None
  | S fuel' =>
      match mesh_control_channel_consume_v1 channel with
      | (MESH_CONTROL_OK, channel) => drain_loop fuel' channel
      | (_, channel) => Some channel
      end
  end.

Definition mesh_control_channel_destroy_v1 (fuel : nat) (channel : option mesh_control_channel) :
    option (option mesh_control_channel) :=
  match channel with
  | None => Some channel
  | Some c =>
      if negb (ch_initialized c =? 0) && ch_storage c then
        match drain_loop fuel (mesh_control_channel_close_v1 channel).2 with
        | None => None
        | Some _ => Some (Some zero_channel)
        end
      else Some (Some zero_channel)
  end.

(** ** Interleaved calls *)

(** Where the producer is in [try_push_signed], with the message it carries: past
    the [accepting] load, the [pending] load, the byte budget, the slot
    acquisition, the two counter updates, the release. *)
Inductive producer_pc : Type :=
  | P_idle
  | P_open (m : mesh_control_owned_message)
  | P_room (m : mesh_control_owned_message)
  | P_fits (m : mesh_control_owned_message)
  | P_slot (m : mesh_control_owned_message)
  | P_counted (m : mesh_control_owned_message)
  | P_charged (m : mesh_control_owned_message)
  | P_released.

(** Where the consumer is in [consume]: past the head, the slot release, the two
    counter updates. *)
Inductive consumer_pc : Type :=
  | C_idle
  | C_head (m : mesh_control_owned_message)
  | C_released (m : mesh_control_owned_message)
  | C_uncounted (m : mesh_control_owned_message)
  | C_uncharged.

(** The shared channel, both threads, and what was published and taken so far. *)
Record chan_state : Type := mk_chan_state {
  cs_channel : mesh_control_channel;
  cs_producer : producer_pc;
  cs_consumer : consumer_pc;
  cs_sent : list mesh_control_owned_message;
  cs_taken : list mesh_control_owned_message }.

(** The message of a push whose arguments pass the checks. *)
Inductive pushable (c : mesh_control_channel) : mesh_control_owned_message → Prop :=
  | pushable_intro e payload payload_size signed_frame signed_frame_size :
      u64 payload_size → u64 signed_frame_size →
      push_arguments_valid c (Some e) payload payload_size signed_frame signed_frame_size = true →
      pushable c (owned_message e payload payload_size signed_frame signed_frame_size).

(** The byte budget has room for [m]. *)
Definition fits (c : mesh_control_channel) (m : mesh_control_owned_message) : bool :=
  negb ((ch_max_retained_bytes c <? om_allocation_size m) ||
        (ch_max_retained_bytes c - om_allocation_size m <? ch_retained_bytes c)).

Inductive producer_step : mesh_control_channel → producer_pc → list mesh_control_owned_message →
    mesh_control_channel → producer_pc → list mesh_control_owned_message → Prop :=
  | p_open c m sent : pushable c m → ch_accepting c = true →
      producer_step c P_idle sent c (P_open m) sent
  | p_closed c m sent : pushable c m → ch_accepting c = false →
      producer_step c P_idle sent (count_closed c) P_idle sent
  | p_room c m sent : ch_pending c < ch_capacity c →
      producer_step c (P_open m) sent c (P_room m) sent
  | p_full c m sent : ch_capacity c <= ch_pending c →
      producer_step c (P_open m) sent (count_full c) P_idle sent
  | p_fits c m sent : fits c m = true → producer_step c (P_room m) sent c (P_fits m) sent
  | p_no_bytes c m sent : fits c m = false →
      producer_step c (P_room m) sent (count_bytes c) P_idle sent
  | p_no_memory c m sent : producer_step c (P_fits m) sent (count_bytes c) P_idle sent
  | p_slot c r m sent : ch_ring c = Some r → ring_spsc_write_acquire r = true →
      producer_step c (P_fits m) sent c (P_slot m) sent
  | p_no_slot c r m sent : ch_ring c = Some r → ring_spsc_write_acquire r = false →
      producer_step c (P_fits m) sent (count_full c) P_idle sent
  | p_count c m sent :
      producer_step c (P_slot m) sent (set_ch_pending (wrap 64 (ch_pending c + 1)) c) (P_counted m) sent
  | p_charge c m sent :
      producer_step c (P_counted m) sent
        (set_ch_retained (wrap 64 (ch_retained_bytes c + om_allocation_size m)) c) (P_charged m) sent
  | p_release c r m sent : ch_ring c = Some r →
      producer_step c (P_charged m) sent (set_ch_ring (Some (ring_spsc_write_release r m)) c) P_released
        (sent ++ [m])
  | p_published c sent : producer_step c P_released sent (count_published c) P_idle sent.

Inductive consumer_step : mesh_control_channel → consumer_pc → list mesh_control_owned_message →
    mesh_control_channel → consumer_pc → list mesh_control_owned_message → Prop :=
  | c_head c m taken : mesh_control_channel_head_v1 (Some c) = (MESH_CONTROL_OK, Some m) →
      consumer_step c C_idle taken c (C_head m) taken
  | c_release c m taken :
      consumer_step c (C_head m) taken (set_ch_ring (ring_spsc_read_release <$> ch_ring c) c)
        (C_released m) (taken ++ [m])
  | c_uncount c m taken :
      consumer_step c (C_released m) taken (set_ch_pending (wrap 64 (ch_pending c - 1)) c)
        (C_uncounted m) taken
  | c_uncharge c m taken :
      consumer_step c (C_uncounted m) taken
        (set_ch_retained (wrap 64 (ch_retained_bytes c - om_allocation_size m)) c) C_uncharged taken
  | c_consumed c taken : consumer_step c C_uncharged taken (count_consumed c) C_idle taken.

Inductive chan_step : chan_state → chan_state → Prop :=
  | chan_producer c pp cp sent taken c' pp' sent' : producer_step c pp sent c' pp' sent' →
      chan_step (mk_chan_state c pp cp sent taken) (mk_chan_state c' pp' cp sent' taken)
  | chan_consumer c pp cp sent taken c' cp' taken' : consumer_step c cp taken c' cp' taken' →
      chan_step (mk_chan_state c pp cp sent taken) (mk_chan_state c' pp cp' sent taken')
  | chan_close c pp cp sent taken :
      chan_step (mk_chan_state c pp cp sent taken)
        (mk_chan_state (set_ch_accepting false c) pp cp sent taken).

Inductive chan_run : chan_state → chan_state → Prop :=
  | chan_refl s : chan_run s s
  | chan_more s s' s'' : chan_run s s' → chan_step s' s'' → chan_run s s''.

(** ** Invariant *)

Context {RL : RingLaws}.

Definition queued (c : mesh_control_channel) : list mesh_control_owned_message :=
  match ch_ring c with Some r => contents r | None => [] end.
Definition bytes_of (l : list mesh_control_owned_message) : Z :=
  foldr (λ m n, om_allocation_size m + n) 0 l.

(** Slots and bytes the producer has counted but not published, or may still count. *)
Definition producer_slots (p : producer_pc) : Z :=
  match p with P_counted _ | P_charged _ => 1 | _ => 0 end.
Definition producer_bytes (p : producer_pc) : Z :=
  match p with P_charged m => om_allocation_size m | _ => 0 end.
Definition producer_wants (p : producer_pc) : Z :=
  match p with P_room _ | P_fits _ | P_slot _ => 1 | _ => 0 end.
Definition producer_wants_bytes (p : producer_pc) : Z :=
  match p with P_fits m | P_slot m | P_counted m => om_allocation_size m | _ => 0 end.
Definition producer_message (p : producer_pc) : option mesh_control_owned_message :=
  match p with
  | P_open m | P_room m | P_fits m | P_slot m | P_counted m | P_charged m => Some m
  | _ => None
  end.
(** Slots and bytes the consumer has released but not yet uncounted. *)
Definition consumer_slots (p : consumer_pc) : Z := match p with C_released _ => 1 | _ => 0 end.
Definition consumer_bytes (p : consumer_pc) : Z :=
  match p with C_released m | C_uncounted m => om_allocation_size m | _ => 0 end.

Record chan_inv (s : chan_state) : Prop := {
  ci_ready : ch_initialized (cs_channel s) = 1 ∧ ch_storage (cs_channel s) = true ∧
    is_Some (ch_ring (cs_channel s));
  ci_limits : 0 < ch_capacity (cs_channel s) <= 4096 ∧
    0 < ch_max_retained_bytes (cs_channel s) <= 64 * 1024 * 1024;
  ci_sizes : Forall (λ m, 0 <= om_allocation_size m) (queued (cs_channel s)) ∧
    match producer_message (cs_producer s) with Some m => 0 <= om_allocation_size m | None => True end ∧
    0 <= consumer_bytes (cs_consumer s);
  ci_pending : ch_pending (cs_channel s) = Z.of_nat (length (queued (cs_channel s))) +
    producer_slots (cs_producer s) + consumer_slots (cs_consumer s);
  ci_retained : ch_retained_bytes (cs_channel s) = bytes_of (queued (cs_channel s)) +
    producer_bytes (cs_producer s) + consumer_bytes (cs_consumer s);
  ci_room : ch_pending (cs_channel s) + producer_wants (cs_producer s) <= ch_capacity (cs_channel s);
  ci_budget : ch_retained_bytes (cs_channel s) + producer_wants_bytes (cs_producer s) <=
    ch_max_retained_bytes (cs_channel s);
  ci_slot : match cs_producer s with
    | P_slot _ | P_counted _ | P_charged _ => ∃ r, ch_ring (cs_channel s) = Some r ∧
        ring_spsc_write_acquire r = true
    | _ => True end;
  ci_head : match cs_consumer s with
    | C_head m => head (queued (cs_channel s)) = Some m | _ => True end;
  ci_order : cs_sent s = cs_taken s ++ queued (cs_channel s) }.

Lemma bytes_of_app l l' : bytes_of (l ++ l') = bytes_of l + bytes_of l'.
Proof. unfold bytes_of. induction l as [|m l IH]; [done|]. cbn. lia. Qed.
Lemma bytes_of_nonneg l : Forall (λ m, 0 <= om_allocation_size m) l → 0 <= bytes_of l.
Proof. unfold bytes_of. induction 1 as [|m l Hm _ IH]; [done|]. cbn. lia. Qed.
#[local] Arguments bytes_of : simpl never.
Lemma bytes_of_cons m l : bytes_of (m :: l) = om_allocation_size m + bytes_of l.
Proof. done. Qed.

Lemma pushable_size c m : pushable c m → 0 <= om_allocation_size m.
Proof. intros []. cbn. unfold uint, OWNED_MESSAGE_SIZE in *. lia. Qed.

Lemma head_queued c m : ch_initialized c = 1 → ch_storage c = true → is_Some (ch_ring c) →
  mesh_control_channel_head_v1 (Some c) = (MESH_CONTROL_OK, Some m) ↔ head (queued c) = Some m.
Proof.
  intros Hi Hs [r Hr]. unfold mesh_control_channel_head_v1, queued. rewrite Hi, Hs, Hr. cbn [negb orb].
  change (1 =? 0) with false. cbv iota. cbn [orb]. rewrite read_contents.
  destruct (contents r) as [|x l]; cbn; [done|]. naive_solver.
Qed.

(** The counters are not part of the queue. *)
Ltac recount c :=
  split; cbn;
  repeat match goal with |- context [queued (?f ?n c)] => change (queued (f n c)) with (queued c) end;
  try done; try lia.

Lemma producer_step_inv c pp cp sent taken c' pp' sent' :
  producer_step c pp sent c' pp' sent' → chan_inv (mk_chan_state c pp cp sent taken) →
  chan_inv (mk_chan_state c' pp' cp sent' taken).
Proof.
  intros Hst [Hrd Hlim [Hq [Hpm Hcb]] Hp Hr Hroom Hbud Hslot Hhead Hord]. cbn in *.
  assert (Hcs : 0 <= consumer_slots cp) by (destruct cp; cbn; lia).
  pose proof (bytes_of_nonneg _ Hq) as Hbn.
  destruct Hst; cbn in *; try (split; cbn; done || (split_and!; done || lia) || lia).
  - split; cbn; try done; try lia. split_and!; try done. by eapply pushable_size.
  - unfold fits in *. bool_prop. split; cbn; try done; try lia.
  - split; cbn; try done; try lia. by exists r.
  - rewrite wrap_small by (unfold uint; lia). recount c.
  - rewrite wrap_small by (unfold uint; lia). recount c.
  - destruct Hslot as (r' & Er & Ha). rewrite H in Er. injection Er as <-.
    unfold queued in *. cbn in *. rewrite H in *.
    split; cbn; unfold queued; cbn; rewrite ?write_contents by done; try done; try lia.
    + destruct Hrd as (? & ? & _). split_and!; try done.
    + split_and!; try done. apply Forall_app. split; [done|]. by constructor.
    + rewrite length_app. cbn. lia.
    + rewrite bytes_of_app. unfold bytes_of at 2. cbn. lia.
    + destruct cp; try done. by destruct (contents r).
    + by rewrite Hord, app_assoc.
Qed.

Lemma consumer_step_inv c pp cp sent taken c' cp' taken' :
  consumer_step c cp taken c' cp' taken' → chan_inv (mk_chan_state c pp cp sent taken) →
  chan_inv (mk_chan_state c' pp cp' sent taken').
Proof.
  intros Hst [Hrd Hlim [Hq [Hpm Hcb]] Hp Hr Hroom Hbud Hslot Hhead Hord]. cbn in *.
  assert (Hps : 0 <= producer_slots pp ∧ 0 <= producer_wants pp) by (destruct pp; cbn; lia).
  assert (Hpb : 0 <= producer_bytes pp ∧ 0 <= producer_wants_bytes pp) by (destruct pp; cbn in *; lia).
  pose proof (bytes_of_nonneg _ Hq) as Hbn.
  destruct Hst; cbn in *; try (split; cbn; done || (split_and!; done || lia) || lia).
  - split; cbn; try done; try lia. destruct Hrd as (Hi & Hs & Hring). by apply head_queued.
  - destruct Hrd as (Hi & Hs & [r Er]). unfold queued in *. rewrite Er in *. cbn in *.
    destruct (contents r) as [|x l] eqn:Ec; [done|]. cbn in Hhead. injection Hhead as ->.
    apply Forall_cons in Hq as [Hm Hq]. rewrite bytes_of_cons in *. cbn in *.
    assert (Hrel : contents (ring_spsc_read_release r) = l) by (by rewrite release_contents, Ec).
    split; cbn; unfold queued; cbn; rewrite ?Er; cbn; rewrite ?Hrel; try done; try lia.
    + destruct pp; try done; destruct Hslot as (r' & [= <-] & Ha); eexists; split; try done;
        by apply release_room.
    + by rewrite Hord, <- app_assoc.
  - rewrite wrap_small by (unfold uint; lia). recount c.
  - rewrite wrap_small by (unfold uint; lia). recount c.
Qed.

Lemma chan_run_inv s s' : chan_run s s' → chan_inv s → chan_inv s'.
Proof.
  induction 1 as [|s s' s'' _ IH Hst]; [done|]. intros Hi. specialize (IH Hi). destruct Hst.
  - by eapply producer_step_inv.
  - by eapply consumer_step_inv.
  - by destruct IH.
Qed.

Lemma init_inv c0 capacity max_retained max_payload c : 0 <= max_retained → 0 <= capacity →
  mesh_control_channel_init_v1 true (Some c0) capacity max_retained max_payload =
    (MESH_CONTROL_OK, Some c) →
  chan_inv (mk_chan_state c P_idle C_idle [] []) ∧ queued c = [].
Proof.
  intros Hmr Hc H. unfold mesh_control_channel_init_v1, mesh_control_channel_capacity_valid in H.
  step_in H; [done|]. cbn [negb] in H. destruct (ring_spsc_init _) as [r|] eqn:Er; [|done].
  injection H as <-. apply init_contents in Er.
  unfold MESH_CONTROL_OUTBOX_MAX_ENTRIES_V1, MESH_CONTROL_OUTBOX_MAX_RETAINED_BYTES_V1 in *. bool_prop.
  split; [|done]. split; cbn; unfold queued; cbn; rewrite ?Er; try done; try lia.
Qed.

(** ** Calls by a thread that runs alone *)

Definition channel_ready (c : mesh_control_channel) : Prop :=
  ch_initialized c = 1 ∧ ch_storage c = true ∧ is_Some (ch_ring c).

Lemma head_spec c : channel_ready c → mesh_control_channel_head_v1 (Some c) =
  match queued c with [] => (MESH_CONTROL_EMPTY, None) | m :: _ => (MESH_CONTROL_OK, Some m) end.
Proof.
  intros (Hi & Hs & [r Hr]). unfold mesh_control_channel_head_v1, queued. rewrite Hi, Hs, Hr.
  change (1 =? 0) with false. cbn [negb orb]. rewrite read_contents. by destruct (contents r).
Qed.

Lemma peek_spec c v : channel_ready c → mesh_control_channel_peek_v1 (Some c) (Some v) =
  match queued c with
  | [] => (MESH_CONTROL_EMPTY, Some v)
  | m :: _ => (MESH_CONTROL_OK, Some (message_view m))
  end.
Proof.
  intros Hc. unfold mesh_control_channel_peek_v1. rewrite head_spec by done.
  change (negb (non_null (Some v))) with false. cbv iota. by destruct (queued c).
Qed.

Lemma consume_empty c : channel_ready c → queued c = [] →
  mesh_control_channel_consume_v1 (Some c) = (MESH_CONTROL_EMPTY, Some c).
Proof. intros Hc Hq. unfold mesh_control_channel_consume_v1. by rewrite head_spec, Hq. Qed.

Lemma consume_spec c m l : channel_ready c → queued c = m :: l →
  ∃ c', mesh_control_channel_consume_v1 (Some c) = (MESH_CONTROL_OK, Some c') ∧
    channel_ready c' ∧ queued c' = l.
Proof.
  intros Hc Hq. unfold mesh_control_channel_consume_v1. rewrite head_spec, Hq by done.
  eexists. split; [done|]. destruct Hc as (Hi & Hs & [r Hr]). split.
  - split_and!; try done. cbn. rewrite Hr. by eexists.
  - unfold queued in *. cbn. rewrite Hr in *. cbn. by rewrite release_contents, Hq.
Qed.

Lemma drain_loop_total l : ∀ c fuel, channel_ready c → queued c = l → (length l < fuel)%nat →
  is_Some (drain_loop fuel (Some c)).
Proof.
  induction l as [|m l IH]; intros c [|fuel] Hc Hq Hf; cbn in Hf; try lia; cbn [drain_loop].
  - rewrite consume_empty by done. by eexists.
  - destruct (consume_spec c m l Hc Hq) as (c' & -> & Hc' & Hq'). apply IH; try done. lia.
Qed.

Lemma chan_then s s' s'' : chan_step s s' → chan_run s' s'' → chan_run s s''.
Proof. intros Hst. induction 1; [by eapply chan_more, Hst; constructor|]. by eapply chan_more; [apply IHchan_run|]. Qed.

(** A successful call of one thread is a sequence of its steps. *)
Lemma push_steps alloc c c' cp sent taken e payload payload_size frame frame_size :
  u64 payload_size → u64 frame_size →
  mesh_control_channel_try_push_signed_v1 alloc (Some c) (Some e) payload payload_size frame frame_size =
    (MESH_CONTROL_OK, Some c') →
  chan_run (mk_chan_state c P_idle cp sent taken)
    (mk_chan_state c' P_idle cp
       (sent ++ [owned_message e payload payload_size frame frame_size]) taken).
Proof.
  intros Hp Hf H. unfold mesh_control_channel_try_push_signed_v1 in H.
  repeat (step_in H; [done|]). step_in H; [|done]. step_in H; [done|]. injection H as <-.
  set (m := owned_message e payload payload_size frame frame_size) in *. bool_prop.
  assert (Hm : pushable c m) by (by constructor).
  eapply chan_then; [apply chan_producer, p_open; done|].
  eapply chan_then; [apply chan_producer, p_room; lia|].
  eapply chan_then; [apply chan_producer, p_fits|].
  { unfold fits. rewrite negb_true_iff, orb_false_iff, !Z.ltb_ge. lia. }
  eapply chan_then; [apply chan_producer; by eapply p_slot|].
  eapply chan_then; [apply chan_producer, p_count|].
  eapply chan_then; [apply chan_producer, p_charge|].
  eapply chan_then; [apply chan_producer; by eapply p_release|].
  eapply chan_then; [apply chan_producer, p_published|]. apply chan_refl.
Qed.

Lemma consume_steps c c' pp sent taken m l : channel_ready c → queued c = m :: l →
  mesh_control_channel_consume_v1 (Some c) = (MESH_CONTROL_OK, Some c') →
  chan_run (mk_chan_state c pp C_idle sent taken) (mk_chan_state c' pp C_idle sent (taken ++ [m])).
Proof.
  intros Hc Hq H. unfold mesh_control_channel_consume_v1 in H.
  pose proof (head_spec c Hc) as Hh. rewrite Hq in Hh. rewrite Hh in H. injection H as <-.
  eapply chan_then; [apply chan_consumer, (c_head _ m); done|].
  eapply chan_then; [apply chan_consumer, c_release|].
  eapply chan_then; [apply chan_consumer, c_uncount|].
  eapply chan_then; [apply chan_consumer, c_uncharge|].
  eapply chan_then; [apply chan_consumer, c_consumed|]. apply chan_refl.
Qed.

End Channel.

(** ** Theorems *)

(** C19: however the producer, the consumer and a close interleave their atomic
    steps, the channel never counts more than its capacity or retains more than
    its byte budget, no counter underflows, and the messages taken are a prefix
    of the messages published, in order. *)
Theorem channel_interleaving_bounds {R : Ring} {RL : RingLaws}
    (c0 c : mesh_control_channel) (capacity max_retained max_payload : Z) (s : chan_state) :
  0 <= capacity → 0 <= max_retained →
  mesh_control_channel_init_v1 true (Some c0) capacity max_retained max_payload =
    (MESH_CONTROL_OK, Some c) →
  chan_run (mk_chan_state c P_idle C_idle [] []) s →
  0 <= ch_pending (cs_channel s) <= ch_capacity (cs_channel s) ∧
  0 <= ch_retained_bytes (cs_channel s) <= ch_max_retained_bytes (cs_channel s) ∧
  cs_sent s = cs_taken s ++ queued (cs_channel s) ∧
  (cs_producer s = P_idle → cs_consumer s = C_idle →
   ch_pending (cs_channel s) = Z.of_nat (length (queued (cs_channel s))) ∧
   ch_retained_bytes (cs_channel s) = bytes_of (queued (cs_channel s))).
Proof.
  intros Hc Hm Hi Hr. destruct (init_inv _ _ _ _ _ Hm Hc Hi) as [Hinv _].
  apply (chan_run_inv _ _ Hr) in Hinv as [_ _ [Hq [Hpm Hcb]] Hp Hrt Hroom Hbud _ _ Hord].
  pose proof (bytes_of_nonneg _ Hq).
  assert (0 <= producer_slots (cs_producer s) ∧ 0 <= producer_wants (cs_producer s) ∧
    0 <= producer_bytes (cs_producer s) ∧ 0 <= producer_wants_bytes (cs_producer s)).
  { destruct (cs_producer s); cbn in *; lia. }
  assert (0 <= consumer_slots (cs_consumer s)) by (destruct (cs_consumer s); cbn; lia).
  split_and!; try done; try lia; intros Ep Ec; rewrite ?Ep, ?Ec in *; cbn in *; lia.
Qed.

(** ** Witnesses *)

(** A ring that is a list with eight slots. *)
Definition list_ring : Ring := {|
  ring := list mesh_control_owned_message;
  ring_spsc_init size := Some [];
  ring_spsc_write_acquire r := (length r <? 8)%nat;
  ring_spsc_write_release r m := r ++ [m];
  ring_spsc_read_acquire r := Some <$> head r;
  ring_spsc_read_release r := tail r |}.
Definition list_ring_laws : @RingLaws list_ring.
Proof.
  refine {| contents := (λ r, r) : @ring list_ring → list mesh_control_owned_message |};
    cbn -[Nat.ltb].
  - by intros size r [= <-].
  - done.
  - by intros [].
  - done.
  - intros [|m r] H; [done|]. rewrite Nat.ltb_lt in *. cbn in H |- *. lia.
Defined.

#[local] Existing Instance list_ring.
#[local] Existing Instance list_ring_laws.

Definition w_ch_envelope : mesh_control_envelope :=
  mk_control_envelope 1 MESH_CONTROL_MESSAGE_INTENT 0 (1 :: zeros 15) (2 :: zeros 15) (3 :: zeros 31)
    (4 :: zeros 31) (4 :: zeros 31) (5 :: zeros 15) (6 :: zeros 31)
    MESH_CONTROL_RESOURCE_NETWORK 0 (7 :: zeros 31) 8 9 1000 2000 10 11 12 0 (8 :: zeros 31) 3.
Definition w_ch_empty : mesh_control_channel :=
  deref zero_channel (mesh_control_channel_init_v1 true (Some zero_channel) 4 4096 64).2.
Definition w_ch_pushed : mesh_control_channel :=
  deref zero_channel (mesh_control_channel_try_push_v1 true (Some w_ch_empty) (Some w_ch_envelope)
    (Some [1; 2; 3]) 3).2.

Lemma channel_interleaving_bounds_witness :
  ch_pending w_ch_pushed = Z.of_nat (length (queued w_ch_pushed)) ∧
  ch_retained_bytes w_ch_pushed = bytes_of (queued w_ch_pushed) ∧
  [owned_message w_ch_envelope (Some [1; 2; 3]) 3 None 0] = queued w_ch_pushed.
Proof.
  destruct (channel_interleaving_bounds zero_channel w_ch_empty 4 4096 64
    (mk_chan_state w_ch_pushed P_idle C_idle ([] ++ [owned_message w_ch_envelope (Some [1; 2; 3]) 3 None 0]) []))
    as (_ & _ & Hq & Hc); [lia|lia|vm_compute; reflexivity| |].
  - apply (push_steps true); [evaluate|evaluate|vm_compute; reflexivity].
  - destruct (Hc eq_refl eq_refl) as [Hp Hr]. auto.
Defined.
