(* ===== verification/ControlOwner.v ===== *)
(** * The owner of the control state: [mesh/src/mesh_control_owner.c]

    The owner takes messages from its inbound channel one at a time: it prepares
    the head (binding, replay, schema and state checks), and commits it once its
    log index is durable.  [owner->inbound] is a borrowed pointer, so each call
    takes the channel it points to and returns it with the owner.  The borrowed
    spans of a preparation are the bytes they cover: the message they point into
    stays at the head of the queue until the commit. *)

From S2P Require Import Prelude Wire MgmtCrypto MgmtCodec MgmtEnvelope Replay.
From S2P Require Import ControlPrimitives ControlState ControlStateInv ControlSnapshot.
From S2P Require Import ControlMmp ControlDocument ControlChannel.

(** ** Data *)

Record mesh_control_owner_config : Type := mk_owner_config {
  oc_state : mesh_control_state_config;
  oc_replay : mesh_mgmt_replay_config;
  oc_replay_binding : mesh_mgmt_replay_binding;
  oc_mesh_id : bytes;
  oc_node_id : bytes }.

Record mesh_control_owner_stats : Type := mk_owner_stats {
  ows_processed : Z;
  ows_rejected_binding : Z;
  ows_rejected_replay : Z;
  ows_rejected_schema : Z;
  ows_rejected_state : Z }.

Record mesh_control_owner_prepared : Type := mk_prepared {
  opr_envelope : mesh_control_envelope;
  opr_action : Z;
  opr_document : option bytes;
  opr_document_size : Z;
  opr_signed_frame : option bytes;
  opr_signed_frame_size : Z;
  opr_accepted_at_ms : Z;
  opr_expected_log_index : Z }.

Record mesh_control_owner : Type := mk_owner {
  ow_state : mesh_control_state;
  ow_replay : mesh_mgmt_replay_gate;
  ow_config : mesh_control_owner_config;
  ow_stats : mesh_control_owner_stats;
  ow_pending_replay : mesh_mgmt_replay_preparation;
  ow_pending : mesh_control_owner_prepared;
  ow_committed_log_index : Z;
  ow_preparation_active : Z;
  ow_initialized : Z }.

Definition zero_owner_config : mesh_control_owner_config :=
  mk_owner_config (mk_state_config 0 0 0 0 0 0) (mk_replay_config 0 0) zero_binding (zeros 32) (zeros 32).
Definition zero_owner_stats : mesh_control_owner_stats := mk_owner_stats 0 0 0 0 0.
Definition zero_prepared : mesh_control_owner_prepared :=
  mk_prepared zero_control_envelope 0 None 0 None 0 0 0.
Definition zero_owner : mesh_control_owner :=
  mk_owner (mk_control_state None) zero_gate zero_owner_config zero_owner_stats zero_preparation
    zero_prepared 0 0 0.

(** Assignments to single members. *)
Definition set_ow_state st o := mk_owner st (ow_replay o) (ow_config o) (ow_stats o)
  (ow_pending_replay o) (ow_pending o) (ow_committed_log_index o) (ow_preparation_active o)
  (ow_initialized o).
Definition set_ow_replay g o := mk_owner (ow_state o) g (ow_config o) (ow_stats o)
  (ow_pending_replay o) (ow_pending o) (ow_committed_log_index o) (ow_preparation_active o)
  (ow_initialized o).
Definition set_ow_stats s o := mk_owner (ow_state o) (ow_replay o) (ow_config o) s
  (ow_pending_replay o) (ow_pending o) (ow_committed_log_index o) (ow_preparation_active o)
  (ow_initialized o).
Definition set_ow_pending rp p active o := mk_owner (ow_state o) (ow_replay o) (ow_config o)
  (ow_stats o) rp p (ow_committed_log_index o) active (ow_initialized o).
Definition set_ow_log_index n o := mk_owner (ow_state o) (ow_replay o) (ow_config o) (ow_stats o)
  (ow_pending_replay o) (ow_pending o) n (ow_preparation_active o) (ow_initialized o).

Definition count_processed o := set_ow_stats (mk_owner_stats
  (wrap 64 (ows_processed (ow_stats o) + 1)) (ows_rejected_binding (ow_stats o))
  (ows_rejected_replay (ow_stats o)) (ows_rejected_schema (ow_stats o))
  (ows_rejected_state (ow_stats o))) o.
Definition count_rejected_binding o := set_ow_stats (mk_owner_stats (ows_processed (ow_stats o))
  (wrap 64 (ows_rejected_binding (ow_stats o) + 1)) (ows_rejected_replay (ow_stats o))
  (ows_rejected_schema (ow_stats o)) (ows_rejected_state (ow_stats o))) o.
Definition count_rejected_replay o := set_ow_stats (mk_owner_stats (ows_processed (ow_stats o))
  (ows_rejected_binding (ow_stats o)) (wrap 64 (ows_rejected_replay (ow_stats o) + 1))
  (ows_rejected_schema (ow_stats o)) (ows_rejected_state (ow_stats o))) o.
Definition count_rejected_schema o := set_ow_stats (mk_owner_stats (ows_processed (ow_stats o))
  (ows_rejected_binding (ow_stats o)) (ows_rejected_replay (ow_stats o))
  (wrap 64 (ows_rejected_schema (ow_stats o) + 1)) (ows_rejected_state (ow_stats o))) o.
Definition count_rejected_state o := set_ow_stats (mk_owner_stats (ows_processed (ow_stats o))
  (ows_rejected_binding (ow_stats o)) (ows_rejected_replay (ow_stats o))
  (ows_rejected_schema (ow_stats o)) (wrap 64 (ows_rejected_state (ow_stats o) + 1))) o.

(** ** Operations *)

Definition message_binding_valid (config : mesh_control_owner_config)
    (envelope : mesh_control_envelope) (now_ms : Z) : bool :=
  memeq 32 (oc_mesh_id config) (ce_mesh_id envelope) &&
  memeq 32 (oc_node_id config) (ce_target_node_id envelope) &&
  memeq 32 (rb_principal_key (oc_replay_binding config)) (ce_origin_principal envelope) &&
  (rb_principal_epoch (oc_replay_binding config) =? ce_principal_epoch envelope) &&
  (rb_incarnation (oc_replay_binding config) =? ce_incarnation envelope) &&
  memeq 16 (rb_session_id (oc_replay_binding config)) (ce_session_id envelope) &&
  (ce_issued_at_ms envelope <=? now_ms) && (now_ms <? ce_expires_at_ms envelope).

Definition make_replay_header (envelope : mesh_control_envelope) : mesh_mgmt_header :=
  mk_header (zeros 32) (ce_origin_principal envelope) (zeros 32) (zeros 32)
    (ce_principal_epoch envelope) (ce_incarnation envelope) (ce_session_id envelope)
    (ce_sequence envelope) (ce_message_id envelope) (ce_issued_at_ms envelope)
    (ce_expires_at_ms envelope) 0 (zeros 32) 0.

Section Owner.
Context {R : Ring}.

(** [state_alloc] and [replay_alloc] are false when an allocation of the state
    or of the replay cache fails. *)
Definition mesh_control_owner_init_v1 (state_alloc replay_alloc : bool)
    (owner : option mesh_control_owner) (inbound : option mesh_control_channel)
    (config : option mesh_control_owner_config) :
    mesh_control_result * option mesh_control_owner :=
  match owner, inbound, config with
  | Some o, Some _, Some c =>
      if negb (ow_initialized o =? 0) || control_bytes_zero (oc_mesh_id c) ||
         control_bytes_zero (oc_node_id c) ||
         negb (control_ok
           (mesh_control_channel_get_stats_v1 inbound
              (Some (mk_channel_stats 0 0 0 0 0 false 0 0 0 0 0))).1)
      then (MESH_CONTROL_INVALID_ARG, owner)
      else
        match mesh_control_state_init_v1 state_alloc (Some (ow_state zero_owner)) (Some (oc_state c)) with
        | (MESH_CONTROL_OK, Some st) =>
            match mesh_mgmt_replay_init_v1 replay_alloc (Some (ow_replay zero_owner))
                    (Some (oc_replay c)) with
            | (MESH_MGMT_REPLAY_OK, gate) =>
                match mesh_mgmt_replay_bind_v1 gate (Some (oc_replay_binding c)) with
                | (MESH_MGMT_REPLAY_OK, Some g) =>
                    (MESH_CONTROL_OK,
                     Some (mk_owner st g c zero_owner_stats zero_preparation zero_prepared 0 0 1))
                | _ => (MESH_CONTROL_INVALID_ARG, Some zero_owner)
                end
            | _ => (MESH_CONTROL_INVALID_ARG, Some zero_owner)
            end
        | _ => (MESH_CONTROL_INVALID_ARG, Some zero_owner)
        end
  | _, _, _ => (MESH_CONTROL_INVALID_ARG, owner)
  end.

Definition consume_rejected (inbound : option mesh_control_channel) (result : mesh_control_result) :
    mesh_control_result * option mesh_control_channel :=
  match mesh_control_channel_consume_v1 inbound with
  | (MESH_CONTROL_OK, inbound) => (result, inbound)
  | (_, inbound) => (MESH_CONTROL_INVALID_STATE, inbound)
  end.

(** Reject the head: the owner with its counter moved, and the consumed channel. *)
Definition reject (o : mesh_control_owner) (inbound : option mesh_control_channel)
    (out_prepared : option mesh_control_owner_prepared) (result : mesh_control_result) :
    mesh_control_result * option mesh_control_owner * option mesh_control_channel *
    option mesh_control_owner_prepared :=
  let '(result, inbound) := consume_rejected inbound result in
  (result, Some o, inbound, out_prepared).

Definition mesh_control_owner_prepare_next_v1 (owner : option mesh_control_owner)
    (inbound : option mesh_control_channel) (now_ms : Z)
    (out_prepared : option mesh_control_owner_prepared) :
    mesh_control_result * option mesh_control_owner * option mesh_control_channel *
    option mesh_control_owner_prepared :=
  match owner, out_prepared with
  | Some o, Some _ =>
      if ow_initialized o =? 0 then (MESH_CONTROL_INVALID_ARG, owner, inbound, out_prepared)
      else
        let out_prepared := Some zero_prepared in
        if negb (ow_preparation_active o =? 0)
        then (MESH_CONTROL_INVALID_STATE, owner, inbound, out_prepared)
        else
          match mesh_control_channel_peek_v1 inbound
                  (Some (mk_message_view zero_control_envelope None 0 None 0)) with
          | (MESH_CONTROL_OK, Some message) =>
              let envelope := mv_envelope message in
              if negb (message_binding_valid (ow_config o) envelope now_ms)
              then reject (count_rejected_binding o) inbound out_prepared MESH_CONTROL_CONFLICT
              else
                match mesh_mgmt_replay_prepare_v1 (Some (ow_replay o))
                        (Some (make_replay_header envelope)) now_ms (Some zero_preparation) with
                | (MESH_MGMT_REPLAY_OK, Some preparation) =>
                    if negb (ce_kind envelope =? MESH_CONTROL_MESSAGE_INTENT)
                    then reject (count_rejected_schema o) inbound out_prepared MESH_CONTROL_INVALID_ARG
                    else
                      match mesh_control_intent_decode_v1 (mv_payload message)
                              (mv_payload_size message) (Some zero_intent) with
                      | (MESH_CONTROL_OK, Some intent) =>
                          let o := set_ow_state (deref (ow_state o)
                            (mesh_control_state_sweep_v1 (Some (ow_state o)) now_ms).2) o in
                          let result := mesh_control_state_validate_document_v1 (Some (ow_state o))
                            (Some envelope) (iv_action intent) (iv_document intent)
                            (iv_document_size intent) now_ms in
                          if negb (control_ok result)
                          then reject (count_rejected_state o) inbound out_prepared result
                          else if ow_committed_log_index o =? UINT64_MAX
                          then reject o inbound out_prepared MESH_CONTROL_INVALID_STATE
                          else
                            let pending :=
                              mk_prepared envelope (iv_action intent) (iv_document intent)
                                (iv_document_size intent) (mv_signed_frame message)
                                (mv_signed_frame_size message) now_ms
                                (wrap 64 (ow_committed_log_index o + 1)) in
                            (MESH_CONTROL_OK, Some (set_ow_pending preparation pending 1 o), inbound,
                             Some pending)
                      | _ =>
                          reject (count_rejected_schema o) inbound out_prepared MESH_CONTROL_INVALID_ARG
                      end
                | _ => reject (count_rejected_replay o) inbound out_prepared MESH_CONTROL_CONFLICT
                end
          | (result, _) => (result, owner, inbound, out_prepared)
          end
  | _, _ => (MESH_CONTROL_INVALID_ARG, owner, inbound, out_prepared)
  end.

(** [alloc_ok] is false when the copy of the document cannot be allocated. *)
Definition mesh_control_owner_commit_prepared_v1 (alloc_ok : bool)
    (owner : option mesh_control_owner) (inbound : option mesh_control_channel)
    (durable_log_index : Z) (out_operation : option mesh_control_operation) :
    mesh_control_result * option mesh_control_owner * option mesh_control_channel *
    option mesh_control_operation :=
  match owner with
  | Some o =>
      if ow_initialized o =? 0 then (MESH_CONTROL_INVALID_ARG, owner, inbound, out_operation)
      else
        let out_operation := assign out_operation zero_operation in
        let pending := ow_pending o in
        if (ow_preparation_active o =? 0) ||
           negb (durable_log_index =? opr_expected_log_index pending)
        then (MESH_CONTROL_CONFLICT, owner, inbound, out_operation)
        else
          let '(result, st, operation) :=
            mesh_control_state_submit_document_v1 alloc_ok (Some (ow_state o))
              (Some (opr_envelope pending)) (opr_action pending) (opr_document pending)
              (opr_document_size pending) (opr_accepted_at_ms pending) (Some zero_operation) in
          let o := set_ow_state (deref (ow_state o) st) o in
          if negb (control_ok result) then (result, Some o, inbound, out_operation)
          else
            match mesh_mgmt_replay_commit_v1 (Some (ow_replay o)) (Some (ow_pending_replay o)) with
            | (MESH_MGMT_REPLAY_OK, Some g) =>
                let o := set_ow_replay g o in
                match mesh_control_channel_consume_v1 inbound with
                | (MESH_CONTROL_OK, inbound) =>
                    (MESH_CONTROL_OK,
                     Some (o |> set_ow_log_index durable_log_index
                             |> set_ow_pending zero_preparation zero_prepared 0
                             |> count_processed),
                     inbound, assign out_operation (deref zero_operation operation))
                | (_, inbound) => (MESH_CONTROL_INVALID_STATE, Some o, inbound, out_operation)
                end
            | _ =>
                (MESH_CONTROL_INVALID_STATE, Some (count_rejected_state o), inbound, out_operation)
            end
  | None => (MESH_CONTROL_INVALID_ARG, owner, inbound, out_operation)
  end.

Definition mesh_control_owner_process_next_v1 (alloc_ok : bool) (owner : option mesh_control_owner)
    (inbound : option mesh_control_channel) (now_ms : Z)
    (out_operation : option mesh_control_operation) :
    mesh_control_result * option mesh_control_owner * option mesh_control_channel *
    option mesh_control_operation :=
  match mesh_control_owner_prepare_next_v1 owner inbound now_ms (Some zero_prepared) with
  | (MESH_CONTROL_OK, owner, inbound, prepared) =>
      mesh_control_owner_commit_prepared_v1 alloc_ok owner inbound
        (opr_expected_log_index (deref zero_prepared prepared)) out_operation
  | (result, owner, inbound, _) => (result, owner, inbound, out_operation)
  end.

Definition mesh_control_owner_advance_log_index_v1 (owner : option mesh_control_owner)
    (durable_log_index : Z) : mesh_control_result * option mesh_control_owner :=
  match owner with
  | Some o =>
      if (ow_initialized o =? 0) || negb (ow_preparation_active o =? 0)
      then (MESH_CONTROL_INVALID_ARG, owner)
      else if (ow_committed_log_index o =? UINT64_MAX) ||
              negb (durable_log_index =? wrap 64 (ow_committed_log_index o + 1))
      then (MESH_CONTROL_CONFLICT, owner)
      else (MESH_CONTROL_OK, Some (set_ow_log_index durable_log_index o))
  | None => (MESH_CONTROL_INVALID_ARG, owner)
  end.

Definition mesh_control_owner_state_v1 (owner : option mesh_control_owner) :
    option mesh_control_state :=
  match owner with
  | Some o => if negb (ow_initialized o =? 0) then Some (ow_state o) else None
  | None => None
  end.

Definition mesh_control_owner_get_stats_v1 (owner : option mesh_control_owner)
    (out_stats : option mesh_control_owner_stats) :
    mesh_control_result * option mesh_control_owner_stats :=
  match owner, out_stats with
  | Some o, Some _ =>
      if ow_initialized o =? 0 then (MESH_CONTROL_INVALID_ARG, out_stats)
      else (MESH_CONTROL_OK, Some (ow_stats o))
  | _, _ => (MESH_CONTROL_INVALID_ARG, out_stats)
  end.

(** The members are released before the whole record is cleared. *)
Definition mesh_control_owner_destroy_v1 (owner : option mesh_control_owner) :
    option mesh_control_owner := assign owner zero_owner.

(** ** A run of the owner *)

(** The channel's queue holds well-typed messages: the arrays have their declared
    lengths and the payload covers its stated size. *)
Record message_typed (m : mesh_control_owned_message) : Prop := {
  mt_envelope : envelope_typed (om_envelope m);
  mt_ids : bytes_ok 32 (ce_mesh_id (om_envelope m)) ∧ bytes_ok 32 (ce_target_node_id (om_envelope m)) ∧
    bytes_ok 32 (ce_origin_principal (om_envelope m)) ∧ bytes_ok 16 (ce_session_id (om_envelope m));
  mt_numbers : u64 (ce_principal_epoch (om_envelope m)) ∧ u64 (ce_incarnation (om_envelope m)) ∧
    u64 (ce_sequence (om_envelope m)) ∧ u64 (ce_issued_at_ms (om_envelope m)) ∧
    u64 (ce_expires_at_ms (om_envelope m));
  mt_payload : Forall u8 (om_payload m) ∧
    0 <= ce_payload_size (om_envelope m) <= len (om_payload m) }.

Lemma replay_header_typed m : message_typed m → header_typed (make_replay_header (om_envelope m)).
Proof.
  intros [(Hm & _) (_ & _ & Hp & Hs) (? & ? & ? & ? & ?) _].
  split; cbn; split_and!; try done; try apply zeros_ok; evaluate.
Qed.

(** ** Sweeping and submitting *)

Lemma sweep_idem impl now :
  snd (sweep_impl (snd (sweep_impl impl now)) now) = snd (sweep_impl impl now).
Proof.
  set (f := λ slot, if sweepable now slot then zero_operation_slot else slot).
  assert (Hf : ∀ slot, sweepable now (f slot) = false).
  { intros slot. unfold f. by destruct (sweepable now slot) eqn:E. }
  assert (Hff : ∀ l : list mesh_control_operation_slot, f <$> (f <$> l) = f <$> l).
  { intros l. rewrite <- list_fmap_compose. apply list_fmap_ext. intros _ x _. unfold compose.
    unfold f at 1. by rewrite Hf. }
  assert (Hc : ∀ l : list mesh_control_operation_slot, count_slots (sweepable now) (f <$> l) = 0).
  { induction l as [|x l IH]; [done|]. cbn [fmap list_fmap count_slots]. by rewrite Hf, IH. }
  unfold sweep_impl. fold f. destruct (Z.eqb_spec (im_snapshot_generation impl) UINT64_MAX) as [E|E].
  { cbn [snd]. by rewrite E. }
  cbn [snd]. destruct (count_slots (sweepable now) (im_operations impl) =? 0).
  - cbn [set_im_operations im_snapshot_generation im_operations]. apply Z.eqb_neq in E.
    rewrite E. cbn [snd]. rewrite Hc, Hff. done.
  - cbn [next_generation set_im_generation set_im_operations im_snapshot_generation im_operations].
    destruct (_ =? UINT64_MAX); [done|]. cbn [snd]. rewrite Hc, Hff. done.
Qed.

(** Without memory a submission ends like one with memory, or asks for a retry. *)
Lemma submit_alloc alloc impl e action document size now out : snd (sweep_impl impl now) = impl →
  ce_kind e = MESH_CONTROL_MESSAGE_INTENT →
  mesh_control_state_validate_document_v1 (holds impl) (Some e) action document size now =
    MESH_CONTROL_OK →
  mesh_control_state_submit_document_v1 alloc (holds impl) (Some e) action document size now (Some out) =
    mesh_control_state_submit_document_v1 true (holds impl) (Some e) action document size now (Some out) ∨
  (alloc = false ∧
   mesh_control_state_submit_document_v1 alloc (holds impl) (Some e) action document size now (Some out) =
    (MESH_CONTROL_RESOURCE_EXHAUSTED, holds impl, Some zero_operation)).
Proof.
  intros Hsw Hk Hv. destruct alloc; [by left|]. rewrite <- Hsw in Hv.
  rewrite <- (submit_preflight impl e action document size now out Hk) in Hv.
  cbn [mesh_control_state_submit_document_v1 cst_impl] in *. rewrite Hsw in *.
  rewrite Hk in *. branch E1; [done|]. clear E1.
  destruct (find_request impl (ce_request_id e)) as [[? ?]|]; [by left|].
  branch E2; [done|]. branch E3; [done|]. branch E4; [done|]. branch E5; [done|]. branch E6; [done|].
  cbn [negb]. rewrite andb_true_r, andb_false_r. destruct (negb (size =? 0)); [by right|by left].
Qed.

(** ** The replay gate of an owner *)

(** A preparation that the gate as it is will accept. *)
Record commits (g : mesh_mgmt_replay_gate) (p : mesh_mgmt_replay_preparation) : Prop := {
  cm_prepared : rp_prepared p = 1;
  cm_generation : rp_generation p = rg_generation g;
  cm_slot : 0 <= rp_cache_slot p < rc_capacity (rg_config g);
  cm_id : bytes_ok 16 (rp_message_id p);
  cm_sequence : rg_has_sequence g ≠ 0 →
    sequence_is_newer (rp_sequence p) (rg_last_sequence g) = true }.

Lemma prepare_commits g l h now p0 p : gate_ok g l → header_typed h →
  mesh_mgmt_replay_prepare_v1 (Some g) (Some h) now (Some p0) = (MESH_MGMT_REPLAY_OK, Some p) →
  commits g p ∧ rp_sequence p = mh_origin_sequence h ∧ rp_message_id p = mh_message_id h ∧
  rg_bound g ≠ 0.
Proof.
  intros Hg Hh H.
  destruct (prepare_cases _ _ _ _ _ _ _ Hg Hh H) as [(_ & Had & k & e & Hk & _ & [= ->])|[? _]]; [|done].
  pose proof (lookup_lt_Some _ _ _ Hk). pose proof (go_length _ _ Hg).
  split_and!; [|done..|apply (ad_bound _ _ _ _ Had)].
  split; cbn; try done; [lia|apply Hh|apply (ad_sequence _ _ _ _ Had)].
Qed.

Lemma commit_gate g l p : gate_ok g l → rg_bound g ≠ 0 → commits g p →
  ∃ g' l', mesh_mgmt_replay_commit_v1 (Some g) (Some p) = (MESH_MGMT_REPLAY_OK, Some g') ∧
    gate_ok g' l' ∧ rg_bound g' ≠ 0 ∧ rg_has_sequence g' = 1 ∧ rg_last_sequence g' = rp_sequence p.
Proof.
  intros Hg Hb [Hp Hgen Hs Hid Hsq]. unfold mesh_mgmt_replay_commit_v1.
  rewrite (go_entries _ _ Hg), Hp, Hgen, Z.eqb_refl. change (1 =? 0) with false.
  apply Z.eqb_neq in Hb as Hb'. rewrite Hb'. cbn [orb negb].
  rewrite (proj2 (Z.leb_gt _ _)) by lia.
  assert (Hn : negb (rg_has_sequence g =? 0) &&
               negb (sequence_is_newer (rp_sequence p) (rg_last_sequence g)) = false).
  { destruct (Z.eqb_spec (rg_has_sequence g) 0); [done|]. by rewrite Hsq. }
  rewrite Hn. eexists _, _. split; [done|]. split; [|done].
  destruct Hg. split; cbn; try done.
  - by rewrite length_insert.
  - by apply Forall_insert.
  - apply wrap_range. lia.
Qed.

(** ** One owner call *)

Record owner_ok (o : mesh_control_owner) (impl : mesh_control_state_impl)
    (l : list mesh_mgmt_replay_entry) : Prop := {
  oo_init : ow_initialized o = 1;
  oo_state : ow_state o = mk_control_state (Some impl);
  oo_impl : impl_ok impl;
  oo_gate : gate_ok (ow_replay o) l;
  oo_bound : rg_bound (ow_replay o) ≠ 0;
  oo_index : u64 (ow_committed_log_index o) }.

(** The preparation an owner holds for the message [m]. *)
Record pending_ok (o : mesh_control_owner) (impl : mesh_control_state_impl)
    (m : mesh_control_owned_message) : Prop := {
  pe_envelope : opr_envelope (ow_pending o) = om_envelope m;
  pe_kind : ce_kind (om_envelope m) = MESH_CONTROL_MESSAGE_INTENT;
  pe_bound : message_binding_valid (ow_config o) (om_envelope m)
    (opr_accepted_at_ms (ow_pending o)) = true;
  pe_swept : snd (sweep_impl impl (opr_accepted_at_ms (ow_pending o))) = impl;
  pe_valid : mesh_control_state_validate_document_v1 (holds impl) (Some (om_envelope m))
    (opr_action (ow_pending o)) (opr_document (ow_pending o)) (opr_document_size (ow_pending o))
    (opr_accepted_at_ms (ow_pending o)) = MESH_CONTROL_OK;
  pe_document : document_typed (opr_document (ow_pending o)) (opr_document_size (ow_pending o));
  pe_index : opr_expected_log_index (ow_pending o) = ow_committed_log_index o + 1 ∧
    ow_committed_log_index o < UINT64_MAX;
  pe_replay : commits (ow_replay o) (ow_pending_replay o);
  pe_sequence : rp_sequence (ow_pending_replay o) = ce_sequence (om_envelope m) ∧
    rp_message_id (ow_pending_replay o) = ce_message_id (om_envelope m) }.

Context {RL : RingLaws}.

(** What a preparation leaves alone: everything but the counters, the pending
    message and the operations a sweep removes. *)
Record keeps (o o' : mesh_control_owner) (now : Z) : Prop := {
  ke_replay : ow_replay o' = ow_replay o;
  ke_config : ow_config o' = ow_config o;
  ke_index : ow_committed_log_index o' = ow_committed_log_index o;
  ke_init : ow_initialized o' = ow_initialized o;
  ke_state : ow_state o' = ow_state o ∨
    ow_state o' = deref (ow_state o) (mesh_control_state_sweep_v1 (Some (ow_state o)) now).2 }.

Lemma keeps_ok o o' impl l now : owner_ok o impl l → keeps o o' now →
  ∃ impl', owner_ok o' impl' l ∧ (impl' = impl ∨ impl' = snd (sweep_impl impl now)).
Proof.
  intros [Hi Hs Him Hg Hb Hx] [Hk1 Hk2 Hk3 Hk4 [Hk5|Hk5]].
  - exists impl. split; [|by left]. split; congruence.
  - exists (snd (sweep_impl impl now)). split; [|by right].
    rewrite Hs in Hk5. cbn in Hk5. destruct (sweep_impl impl now) as [n impl'] eqn:E.
    cbn in *. split; try congruence. replace impl' with (snd (sweep_impl impl now)) by (by rewrite E).
    by apply sweep_ok.
Qed.

Lemma view_document m i0 i : message_typed m →
  mesh_control_intent_decode_v1 (mv_payload (message_view m)) (mv_payload_size (message_view m)) (Some i0) =
    (MESH_CONTROL_OK, Some i) →
  document_typed (iv_document i) (iv_document_size i).
Proof.
  intros [_ _ _ [Hu Hsz]] H. unfold message_view in H.
  cbn [mv_payload mv_payload_size] in H. set (p := take _ _) in H.
  assert (Hl : ce_payload_size (om_envelope m) = len p).
  { unfold p, len in *. rewrite length_take. lia. }
  rewrite Hl in H. apply intent_decode_inv in H as (a & d & _ & Hd & _ & ->); [|by apply Forall_take].
  cbn. unfold document_typed, body_view, uint.
  assert (MESH_CONTROL_MMP_BODY_MAX_V1 < 2 ^ 64) by done. assert (0 <= len d) by (unfold len; lia). split; [lia|]. by destruct (len d =? 0).
Qed.

(** The outcomes of a preparation. *)
Inductive prepared_outcome (o : mesh_control_owner) (impl : mesh_control_state_impl)
    (l : list mesh_mgmt_replay_entry) (c : mesh_control_channel) (now : Z) :
    mesh_control_result → mesh_control_owner → mesh_control_channel →
    mesh_control_owner_prepared → Prop :=
  | prepared_busy : ow_preparation_active o ≠ 0 →
      prepared_outcome o impl l c now MESH_CONTROL_INVALID_STATE o c zero_prepared
  | prepared_empty : ow_preparation_active o = 0 → queued c = [] →
      prepared_outcome o impl l c now MESH_CONTROL_EMPTY o c zero_prepared
  | prepared_rejected m rest r o' c' : ow_preparation_active o = 0 → queued c = m :: rest →
      r ≠ MESH_CONTROL_OK →
      mesh_control_channel_consume_v1 (Some c) = (MESH_CONTROL_OK, Some c') →
      channel_ready c' → queued c' = rest → keeps o o' now → ow_preparation_active o' = 0 →
      prepared_outcome o impl l c now r o' c' zero_prepared
  | prepared_accepted m rest o' : ow_preparation_active o = 0 → queued c = m :: rest →
      keeps o o' now → ow_preparation_active o' = 1 →
      owner_ok o' (snd (sweep_impl impl now)) l → pending_ok o' (snd (sweep_impl impl now)) m →
      prepared_outcome o impl l c now MESH_CONTROL_OK o' c (ow_pending o').

Lemma reject_outcome o impl l c now m rest o' r : ow_preparation_active o = 0 → channel_ready c →
  queued c = m :: rest → r ≠ MESH_CONTROL_OK → keeps o o' now → ow_preparation_active o' = 0 →
  ∃ c', reject o' (Some c) (Some zero_prepared) r = (r, Some o', Some c', Some zero_prepared) ∧
    prepared_outcome o impl l c now r o' c' zero_prepared.
Proof.
  intros Ha Hc Hq Hr Hk Ha'. destruct (consume_spec c m rest Hc Hq) as (c' & Hcc & Hc' & Hq').
  exists c'. unfold reject, consume_rejected. rewrite Hcc. split; [done|].
  by eapply prepared_rejected.
Qed.

Lemma prepare_exec o impl l c now out : owner_ok o impl l → channel_ready c →
  Forall message_typed (queued c) → u64 now →
  ∃ r o' c' p, mesh_control_owner_prepare_next_v1 (Some o) (Some c) now (Some out) =
    (r, Some o', Some c', Some p) ∧ prepared_outcome o impl l c now r o' c' p.
Proof.
  intros Ho Hc Hty Hnow. pose proof Ho as [Hi Hs Him Hg Hb Hx].
  unfold mesh_control_owner_prepare_next_v1. rewrite Hi. change (1 =? 0) with false. cbv iota zeta.
  destruct (Z.eqb_spec (ow_preparation_active o) 0) as [Ha|Ha]; cbn [negb].
  2: { eexists _, _, _, _. split; [done|]. by apply prepared_busy. }
  rewrite peek_spec by done. destruct (queued c) as [|m rest] eqn:Hq.
  { eexists _, _, _, _. split; [done|]. by apply prepared_empty. }
  apply Forall_cons in Hty as [Hm _].
  assert (Hkeep : ∀ s, keeps o (set_ow_stats s o) now) by (intros; split; auto).
  assert (Hrej : ∀ o' r, r ≠ MESH_CONTROL_OK → keeps o o' now → ow_preparation_active o' = 0 →
    ∃ r0 o'0 c' p, reject o' (Some c) (Some zero_prepared) r = (r0, Some o'0, Some c', Some p) ∧
      prepared_outcome o impl l c now r0 o'0 c' p).
  { intros o' r Hr Hk Ha'.
    destruct (reject_outcome o impl l c now m rest o' r Ha Hc Hq Hr Hk Ha') as (c' & -> & H).
    eexists _, _, _, _. split; [done|exact H]. }
  change (mv_envelope (message_view m)) with (om_envelope m).
  destruct (message_binding_valid _ _ _) eqn:Eb; cbn [negb]; [|apply Hrej; [done|apply Hkeep|done]].
  destruct (mesh_mgmt_replay_prepare_v1 _ _ _ _) as [rr [prep|]] eqn:Ep; [|destruct rr; (apply Hrej; [done|apply Hkeep|done])].
  destruct rr; try (apply Hrej; [done|apply Hkeep|done]).
  destruct (Z.eqb_spec (ce_kind (om_envelope m)) MESH_CONTROL_MESSAGE_INTENT) as [Ek|Ek]; cbn [negb];
    [|apply Hrej; [done|apply Hkeep|done]].
  destruct (mesh_control_intent_decode_v1 _ _ _) as [ri [intent|]] eqn:Ei;
    [|destruct ri; (apply Hrej; [done|apply Hkeep|done])].
  destruct ri; try (apply Hrej; [done|apply Hkeep|done]).
  assert (Hst : deref (ow_state o) (mesh_control_state_sweep_v1 (Some (ow_state o)) now).2 =
    mk_control_state (Some (snd (sweep_impl impl now)))).
  { rewrite Hs. cbn. by destruct (sweep_impl impl now). }
  assert (Hk2 : keeps o (set_ow_state (mk_control_state (Some (snd (sweep_impl impl now)))) o) now).
  { split; auto. }
  rewrite Hst. cbn [ow_state set_ow_state ow_committed_log_index].
  destruct (mesh_control_state_validate_document_v1 _ _ _ _ _ _) eqn:Ev; cbn [control_ok negb];
    try (apply Hrej; [done| |done]; destruct Hk2; by split).
  destruct (Z.eqb_spec (ow_committed_log_index o) UINT64_MAX) as [E|E]; [by apply Hrej|].
  destruct (prepare_commits _ _ _ _ _ _ Hg (replay_header_typed _ Hm) Ep) as (Hcm & Hsq & Hid & _).
  unfold uint, UINT64_MAX in *. rewrite wrap_small by (unfold uint; lia).
  eexists _, _, _, _. split; [done|].
  eapply (prepared_accepted o impl l c now m rest); try done.
  - destruct Hk2. by split.
  - split; try done. by apply sweep_ok.
  - split; cbn; try done; [apply sweep_idem|by eapply view_document|unfold UINT64_MAX; lia].
Qed.

(** What a commit does to the control state: nothing for a request it already
    holds, one submission otherwise. *)
Definition recorded (impl : mesh_control_state_impl) (p : mesh_control_owner_prepared)
    (impl' : mesh_control_state_impl) (operation : mesh_control_operation) : Prop :=
  (impl' = impl ∧ ∃ i s, find_request impl (ce_request_id (opr_envelope p)) = Some (i, s) ∧
     operation_binding_equal (osl_operation s) (opr_envelope p) (opr_action p) = true ∧
     operation = osl_operation s) ∨
  (submitted impl (opr_envelope p) (opr_action p) (opr_document p) (opr_document_size p)
     (opr_accepted_at_ms p) impl' ∧
   operation = submit_operation (opr_envelope p) (opr_action p) (opr_accepted_at_ms p)).

(** A commit that succeeds for the head [m] of the queue. *)
Record committed (o : mesh_control_owner) (impl : mesh_control_state_impl)
    (rest : list mesh_control_owned_message) (m : mesh_control_owned_message)
    (c : mesh_control_channel) (o' : mesh_control_owner) (c' : mesh_control_channel)
    (operation : mesh_control_operation) : Prop := {
  cd_owner : ∃ impl' l', owner_ok o' impl' l' ∧ recorded impl (ow_pending o) impl' operation;
  cd_idle : ow_preparation_active o' = 0;
  cd_index : ow_committed_log_index o' = ow_committed_log_index o + 1;
  cd_config : ow_config o' = ow_config o;
  cd_sequence : rg_has_sequence (ow_replay o') = 1 ∧
    rg_last_sequence (ow_replay o') = ce_sequence (om_envelope m);
  cd_channel : mesh_control_channel_consume_v1 (Some c) = (MESH_CONTROL_OK, Some c') ∧
    channel_ready c' ∧ queued c' = rest }.

Lemma commit_submission alloc impl p m : impl_ok impl → message_typed m →
  opr_envelope p = om_envelope m → ce_kind (om_envelope m) = MESH_CONTROL_MESSAGE_INTENT →
  snd (sweep_impl impl (opr_accepted_at_ms p)) = impl → document_typed (opr_document p) (opr_document_size p) →
  mesh_control_state_validate_document_v1 (holds impl) (Some (om_envelope m)) (opr_action p)
    (opr_document p) (opr_document_size p) (opr_accepted_at_ms p) = MESH_CONTROL_OK →
  let call := mesh_control_state_submit_document_v1 alloc (holds impl) (Some (opr_envelope p))
    (opr_action p) (opr_document p) (opr_document_size p) (opr_accepted_at_ms p) (Some zero_operation) in
  (∃ impl' op, call = (MESH_CONTROL_OK, holds impl', Some op) ∧ impl_ok impl' ∧ recorded impl p impl' op) ∨
  (alloc = false ∧ call = (MESH_CONTROL_RESOURCE_EXHAUSTED, holds impl, Some zero_operation)).
Proof.
  intros Hok Hm He Hk Hsw Hd Hv call. unfold call. clear call. rewrite He.
  destruct (submit_alloc alloc impl (om_envelope m) (opr_action p) (opr_document p) (opr_document_size p)
    (opr_accepted_at_ms p) zero_operation Hsw Hk Hv) as [Heq|]; [left; rewrite Heq; clear Heq|by right].
  pose proof (submit_exec true impl (om_envelope m) (opr_action p) (opr_document p) (opr_document_size p)
    (opr_accepted_at_ms p) zero_operation Hok (mt_envelope _ Hm) Hd) as Hx. cbv zeta in Hx.
  pose proof (submit_preflight impl (om_envelope m) (opr_action p) (opr_document p) (opr_document_size p)
    (opr_accepted_at_ms p) zero_operation Hk) as Hp.
  destruct (mesh_control_state_submit_document_v1 _ _ _ _ _ _ _ _) as [[r st] op].
  rewrite Hsw in Hp, Hx. cbn [fst] in Hp. rewrite Hv in Hp. subst r. cbn [control_ok] in Hx.
  destruct Hx as [(-> & i & s & Hf & Hb & ->)|(impl' & -> & Hsub & ->)].
  - exists impl, (osl_operation s). split_and!; [done..|]. left. unfold recorded. rewrite He. split; [done|]. by exists i, s.
  - eexists impl', _. split_and!; [done| |].
    + eapply submitted_ok; [exact Hok|apply (mt_envelope _ Hm)|exact Hd|exact Hsub].
    + right. by rewrite He.
Qed.

Lemma commit_exec alloc o impl l c m rest out : owner_ok o impl l → pending_ok o impl m →
  message_typed m → ow_preparation_active o = 1 → channel_ready c → queued c = m :: rest →
  let call := mesh_control_owner_commit_prepared_v1 alloc (Some o) (Some c)
    (opr_expected_log_index (ow_pending o)) out in
  (∃ o' c' op, call = (MESH_CONTROL_OK, Some o', Some c', assign out op) ∧
     committed o impl rest m c o' c' op) ∨
  (alloc = false ∧
   call = (MESH_CONTROL_RESOURCE_EXHAUSTED, Some o, Some c, assign out zero_operation)).
Proof.
  intros [Hi Hs Him Hg Hb Hx] [Pe Pk Pb Psw Pv Pd [Pi Pm] Pr [Psq _]] Hm Ha Hc Hq call.
  unfold call, mesh_control_owner_commit_prepared_v1. rewrite Hi, Ha, Z.eqb_refl.
  change (1 =? 0) with false. cbn [orb negb]. cbv iota zeta. rewrite Hs.
  destruct (commit_submission alloc impl (ow_pending o) m Him Hm Pe Pk Psw Pd Pv)
    as [(impl' & op & -> & Hok' & Hrec)|[-> ->]].
  2: { right. split; [done|]. cbn. by destruct o; cbn in *; subst. }
  left. cbn [deref control_ok negb]. cbn [set_ow_state ow_replay ow_pending_replay].
  destruct (commit_gate _ _ _ Hg Hb Pr) as (g' & l' & -> & Hg' & Hb' & Hh & Hl).
  destruct (consume_spec c m rest Hc Hq) as (c' & Hcc & Hc' & Hq'). rewrite Hcc.
  eexists _, c', op. split; [by destruct out|].
  split; cbn; try done; [|by rewrite Hl].
  exists impl', l'. split; [|done]. split; cbn; try done. rewrite Pi. unfold uint, UINT64_MAX in *. lia.
Qed.

(** ** The owner, its channel and the producer *)

(** With what was published and taken so far, and the messages committed with
    their log index, oldest first. *)
Record owner_system : Type := mk_system {
  sy_owner : mesh_control_owner;
  sy_channel : mesh_control_channel;
  sy_producer : producer_pc;
  sy_sent : list mesh_control_owned_message;
  sy_taken : list mesh_control_owned_message;
  sy_processed : list (mesh_control_owned_message * Z) }.

(** The messages a call took from the queue. *)
Definition consumed (c c' : mesh_control_channel) : list mesh_control_owned_message :=
  take (length (queued c) - length (queued c')) (queued c).

(** An owner call runs between two atomic steps of the producer, wherever the
    producer is in its push.  While a preparation is active the owner makes no
    other change to its state. *)
Inductive system_step : owner_system → owner_system → Prop :=
  | sys_producer o c pp sent taken done c' pp' sent' : producer_step c pp sent c' pp' sent' →
      (∀ m, producer_message pp' = Some m → producer_message pp = Some m ∨ message_typed m) →
      system_step (mk_system o c pp sent taken done) (mk_system o c' pp' sent' taken done)
  | sys_close o c pp sent taken done :
      system_step (mk_system o c pp sent taken done)
        (mk_system o (set_ch_accepting false c) pp sent taken done)
  | sys_prepare o c pp sent taken done now out r o' c' out' : u64 now →
      mesh_control_owner_prepare_next_v1 (Some o) (Some c) now (Some out) =
        (r, Some o', Some c', out') →
      system_step (mk_system o c pp sent taken done)
        (mk_system o' c' pp sent (taken ++ consumed c c') done)
  | sys_commit o c pp sent taken done alloc index out r o' c' out' :
      mesh_control_owner_commit_prepared_v1 alloc (Some o) (Some c) index out =
        (r, Some o', Some c', out') →
      system_step (mk_system o c pp sent taken done)
        (mk_system o' c' pp sent (taken ++ consumed c c')
           (done ++ ((λ m, (m, index)) <$> consumed c c')))
  | sys_advance o c pp sent taken done index r o' :
      mesh_control_owner_advance_log_index_v1 (Some o) index = (r, Some o') →
      system_step (mk_system o c pp sent taken done) (mk_system o' c pp sent taken done)
  | sys_state o c pp sent taken done cmd st : ow_preparation_active o = 0 → command_typed cmd →
      snd (control_exec cmd (Some (ow_state o))) = Some st →
      system_step (mk_system o c pp sent taken done)
        (mk_system (set_ow_state st o) c pp sent taken done).

Inductive system_run : owner_system → owner_system → Prop :=
  | system_refl s : system_run s s
  | system_more s s' s'' : system_run s s' → system_step s' s'' → system_run s s''.

(** An intent of the configured principal and session for this mesh and node. *)
Record bound_intent (config : mesh_control_owner_config) (m : mesh_control_owned_message) : Prop := {
  bi_kind : ce_kind (om_envelope m) = MESH_CONTROL_MESSAGE_INTENT;
  bi_place : ce_mesh_id (om_envelope m) = oc_mesh_id config ∧
    ce_target_node_id (om_envelope m) = oc_node_id config;
  bi_origin : ce_origin_principal (om_envelope m) = rb_principal_key (oc_replay_binding config) ∧
    ce_session_id (om_envelope m) = rb_session_id (oc_replay_binding config) ∧
    ce_principal_epoch (om_envelope m) = rb_principal_epoch (oc_replay_binding config) ∧
    ce_incarnation (om_envelope m) = rb_incarnation (oc_replay_binding config);
  bi_time : ∃ now, ce_issued_at_ms (om_envelope m) <= now < ce_expires_at_ms (om_envelope m) }.

Record owner_config_typed (c : mesh_control_owner_config) : Prop := {
  oct_state : config_typed (oc_state c);
  oct_replay : 0 <= rc_capacity (oc_replay c) ∧ 0 <= rc_ttl_ms (oc_replay c);
  oct_binding : bytes_ok 32 (rb_principal_key (oc_replay_binding c)) ∧
    bytes_ok 16 (rb_session_id (oc_replay_binding c));
  oct_ids : bytes_ok 32 (oc_mesh_id c) ∧ bytes_ok 32 (oc_node_id c) }.

(** The binding check decides what it should. *)
Lemma binding_bound config m now : owner_config_typed config → message_typed m →
  ce_kind (om_envelope m) = MESH_CONTROL_MESSAGE_INTENT →
  message_binding_valid config (om_envelope m) now = true → bound_intent config m.
Proof.
  intros [_ _ [[Hk _] [Hs _]] [[Hm _] [Hn _]]] [_ ([Hm' _] & [Hn' _] & [Hk' _] & [Hs' _]) _ _] Hi H.
  unfold message_binding_valid in H. rewrite !memeq_spec in H by done. bool_prop.
  split; [done|split_and!; congruence..|]. exists now. lia.
Qed.

(** Later messages have newer sequence numbers and greater log indices. *)
Definition ordered (processed : list (mesh_control_owned_message * Z)) : Prop :=
  ∀ i m n j k, processed !! i = Some (m, j) → processed !! S i = Some (n, k) →
    sequence_is_newer (ce_sequence (om_envelope n)) (ce_sequence (om_envelope m)) = true ∧ j < k.

Record system_inv (config : mesh_control_owner_config) (s : owner_system) : Prop := {
  si_owner : ∃ impl l, owner_ok (sy_owner s) impl l ∧
    (ow_preparation_active (sy_owner s) = 0 ∨
     ow_preparation_active (sy_owner s) = 1 ∧ ∃ m rest,
       queued (sy_channel s) = m :: rest ∧ pending_ok (sy_owner s) impl m);
  si_config : ow_config (sy_owner s) = config ∧ owner_config_typed config;
  si_channel : chan_inv (mk_chan_state (sy_channel s) (sy_producer s) C_idle (sy_sent s) (sy_taken s));
  si_typed : Forall message_typed (sy_sent s) ∧
    ∀ m, producer_message (sy_producer s) = Some m → message_typed m;
  si_bound : Forall (λ x, bound_intent config x.1) (sy_processed s);
  si_sublist : (fst <$> sy_processed s) `sublist_of` sy_taken s;
  si_ordered : ordered (sy_processed s);
  si_last : match last (sy_processed s) with
    | None => rg_has_sequence (ow_replay (sy_owner s)) = 0
    | Some (m, i) => rg_has_sequence (ow_replay (sy_owner s)) = 1 ∧
        rg_last_sequence (ow_replay (sy_owner s)) = ce_sequence (om_envelope m) ∧
        i <= ow_committed_log_index (sy_owner s)
    end }.

Lemma consumed_head c c' m rest : queued c = m :: rest → queued c' = rest → consumed c c' = [m].
Proof.
  intros Hq Hq'. unfold consumed. rewrite Hq, Hq'. cbn [length].
  replace (S (length rest) - length rest)%nat with 1%nat by lia. done.
Qed.
Lemma consumed_none c : consumed c c = [].
Proof. unfold consumed. by rewrite Nat.sub_diag. Qed.

Lemma ordered_snoc l m i : ordered l →
  match last l with
  | None => True
  | Some (n, j) => sequence_is_newer (ce_sequence (om_envelope m)) (ce_sequence (om_envelope n)) = true ∧
      j < i
  end → ordered (l ++ [(m, i)]).
Proof.
  intros Ho Hl k a b j j' Ha Hb. apply lookup_app_Some in Hb as [Hb|[Hk Hb]].
  - apply lookup_lt_Some in Hb as Hlt. rewrite lookup_app_l in Ha by lia. by eapply Ho.
  - apply list_lookup_singleton_Some in Hb as [Hz [= <- <-]].
    rewrite lookup_app_l in Ha by lia. rewrite last_lookup in Hl.
    replace (pred (length l)) with k in Hl by lia. by rewrite Ha in Hl.
Qed.

(** The queue is part of what was sent. *)
Lemma queued_typed config s : system_inv config s → Forall message_typed (queued (sy_channel s)).
Proof.
  intros Hi. destruct (si_typed _ _ Hi) as [Ht _]. pose proof (ci_order _ (si_channel _ _ Hi)) as Ho.
  cbn in Ho. rewrite Ho in Ht. by apply Forall_app in Ht as [_ Ht].
Qed.

Lemma ready_inv config s : system_inv config s → channel_ready (sy_channel s).
Proof. intros Hi. apply (ci_ready _ (si_channel _ _ Hi)). Qed.

(** Taking the head keeps the channel's invariant. *)
Lemma consume_inv c c' pp sent taken m rest : queued c = m :: rest → channel_ready c →
  mesh_control_channel_consume_v1 (Some c) = (MESH_CONTROL_OK, Some c') →
  chan_inv (mk_chan_state c pp C_idle sent taken) →
  chan_inv (mk_chan_state c' pp C_idle sent (taken ++ [m])).
Proof.
  intros Hq Hr Hc. apply chan_run_inv. by eapply consume_steps.
Qed.

Lemma producer_sent c pp sent c' pp' sent' : producer_step c pp sent c' pp' sent' →
  ∃ new, sent' = sent ++ new ∧ ∀ m, m ∈ new → producer_message pp = Some m.
Proof.
  destruct 1; try (exists []; split; [by rewrite app_nil_r|]; by intros ? ?%not_elem_of_nil).
  exists [m]. split; [done|]. by intros ? ->%list_elem_of_singleton.
Qed.

Ltac fields := cbn [sy_owner sy_channel sy_producer sy_sent sy_taken sy_processed] in *.

Lemma producer_system_inv config o c pp sent taken done c' pp' sent' :
  producer_step c pp sent c' pp' sent' →
  (∀ m, producer_message pp' = Some m → producer_message pp = Some m ∨ message_typed m) →
  system_inv config (mk_system o c pp sent taken done) →
  system_inv config (mk_system o c' pp' sent' taken done).
Proof.
  intros Hst Hm [(impl & l & Hok & Hp) [Hcfg Hct] Hch [Ht Htp] Hb Hsub Hord Hlast]. fields.
  destruct (producer_sent _ _ _ _ _ _ Hst) as (new & Hnew & Hin).
  pose proof (producer_step_inv _ _ _ _ _ _ _ _ Hst Hch) as Hch'.
  split; fields; try done.
  - exists impl, l. split; [done|]. destruct Hp as [|(Ha & m & rest & Hq & Hpe)]; [by left|right].
    split; [done|]. pose proof (ci_order _ Hch) as E. pose proof (ci_order _ Hch') as E'. cbn in E, E'.
    rewrite Hnew, E, <- app_assoc in E'. apply app_inv_head in E'. rewrite Hq in E'. cbn in E'.
    exists m, (rest ++ new). by rewrite <- E'.
  - split.
    + rewrite Hnew. apply Forall_app. split; [done|]. apply Forall_forall. intros m ?%Hin. auto.
    + intros m Hmm. destruct (Hm m Hmm); auto.
Qed.

Lemma prepare_system_inv config o c pp sent taken done now out r o' c' out' : u64 now →
  mesh_control_owner_prepare_next_v1 (Some o) (Some c) now (Some out) = (r, Some o', Some c', out') →
  system_inv config (mk_system o c pp sent taken done) →
  system_inv config (mk_system o' c' pp sent (taken ++ consumed c c') done).
Proof.
  intros Hnow Hcall Hi. pose proof (queued_typed _ _ Hi) as Hqt. pose proof (ready_inv _ _ Hi) as Hrd.
  pose proof Hi as [(impl & l & Hok & Hp) [Hcfg Hct] Hch Ht Hb Hsub Hord Hlast]. fields.
  destruct (prepare_exec o impl l c now out Hok Hrd Hqt Hnow) as (r1 & o1 & c1 & p1 & Hc1 & Hout).
  rewrite Hcall in Hc1. injection Hc1 as -> -> -> ->.
  destruct Hout as [Ha|Ha Hq|m rest r o' c' Ha Hq Hr Hcc Hrd' Hq' Hk Ha'|m rest o' Ha Hq Hk Ha' Hok' Hpe].
  1,2: by rewrite consumed_none, app_nil_r.
  - rewrite (consumed_head c c' m rest Hq Hq').
    destruct (keeps_ok _ _ _ _ _ Hok Hk) as (impl' & Hok' & _). destruct Hk as [K1 K2 K3 K4 _].
    split; fields; rewrite ?K1, ?K2, ?K3; try done.
    + exists impl', l. auto.
    + by eapply consume_inv.
    + by apply sublist_inserts_r.
  - rewrite consumed_none, app_nil_r. destruct Hk as [K1 K2 K3 K4 _].
    split; fields; rewrite ?K1, ?K2, ?K3; try done.
    exists (snd (sweep_impl impl now)), l. split; [done|right]. split; [done|]. by exists m, rest.
Qed.

Lemma commit_system_inv config o c pp sent taken done alloc index out r o' c' out' :
  mesh_control_owner_commit_prepared_v1 alloc (Some o) (Some c) index out = (r, Some o', Some c', out') →
  system_inv config (mk_system o c pp sent taken done) →
  system_inv config (mk_system o' c' pp sent (taken ++ consumed c c')
    (done ++ ((λ m, (m, index)) <$> consumed c c'))).
Proof.
  intros Hcall Hi. pose proof (queued_typed _ _ Hi) as Hqt. pose proof (ready_inv _ _ Hi) as Hrd.
  pose proof Hi as [(impl & l & Hok & Hp) [Hcfg Hct] Hch Ht Hb Hsub Hord Hlast]. fields.
  assert (Hsame : o' = o → c' = c → system_inv config (mk_system o' c' pp sent (taken ++ consumed c c')
    (done ++ ((λ m, (m, index)) <$> consumed c c')))).
  { intros -> ->. by rewrite consumed_none, !app_nil_r. }
  destruct Hp as [Ha|(Ha & m & rest & Hq & Hpe)].
  { unfold mesh_control_owner_commit_prepared_v1 in Hcall. rewrite (oo_init _ _ _ Hok), Ha in Hcall.
    injection Hcall as _ <- <- _. by apply Hsame. }
  destruct (Z.eq_dec index (opr_expected_log_index (ow_pending o))) as [->|Hne].
  2: { unfold mesh_control_owner_commit_prepared_v1 in Hcall. apply Z.eqb_neq in Hne.
       rewrite (oo_init _ _ _ Hok), Ha, Hne in Hcall. injection Hcall as _ <- <- _. by apply Hsame. }
  rewrite Hq in Hqt. apply Forall_cons in Hqt as [Hm _].
  destruct (commit_exec alloc o impl l c m rest out Hok Hpe Hm Ha Hrd Hq)
    as [(o1 & c1 & op & Hc1 & Hcd)|[-> Hc1]]; rewrite Hcall in Hc1; injection Hc1 as -> -> -> ->;
    [|by apply Hsame].
  clear Hsame. destruct Hcd as [(impl' & l' & Hok' & _) Hidle Hidx Hcf [Hs1 Hs2] (Hcc & Hrd' & Hq')].
  rewrite (consumed_head c c1 m rest Hq Hq'). cbn [fmap list_fmap].
  destruct (pe_index _ _ _ Hpe) as [Hexp _].
  split; fields; try done.
  - exists impl', l'. auto.
  - split; [congruence|done].
  - by eapply consume_inv.
  - apply Forall_app. split; [done|]. constructor; [|done]. cbn. pose proof (pe_bound _ _ _ Hpe) as Hbv. rewrite Hcfg in Hbv.
    by eapply binding_bound; [| |apply Hpe|exact Hbv].
  - rewrite fmap_app. cbn. by apply sublist_app.
  - apply ordered_snoc; [done|]. destruct (last done) as [[n j]|]; [|done].
    destruct Hlast as (Hl1 & Hl2 & Hl3). split; [|lia].
    rewrite <- (proj1 (pe_sequence _ _ _ Hpe)), <- Hl2. apply (cm_sequence _ _ (pe_replay _ _ _ Hpe)). lia.
  - rewrite last_snoc. split_and!; [done..|]. lia.
Qed.

Lemma advance_system_inv config o c pp sent taken done index r o' :
  mesh_control_owner_advance_log_index_v1 (Some o) index = (r, Some o') →
  system_inv config (mk_system o c pp sent taken done) →
  system_inv config (mk_system o' c pp sent taken done).
Proof.
  intros Hcall Hi. unfold mesh_control_owner_advance_log_index_v1 in Hcall.
  destruct ((ow_initialized o =? 0) || _) eqn:E1; [by injection Hcall as _ <-|].
  destruct ((ow_committed_log_index o =? UINT64_MAX) || _) eqn:E2; injection Hcall as _ <-; [done|].
  destruct Hi as [(impl & l & [] & Hp) [Hcfg Hct] Hch Ht Hb Hsub Hord Hlast]. fields. bool_prop.
  unfold uint, UINT64_MAX in *. rewrite wrap_small in * by (unfold uint; lia). subst index.
  split; fields; try done.
  - exists impl, l. split; [|left; done]. split; cbn; try done. unfold uint. lia.
  - destruct (last done) as [[m i]|]; [|done]. destruct Hlast as (? & ? & ?).
    split_and!; cbn; try done. lia.
Qed.

Lemma state_system_inv config o c pp sent taken done cmd st : ow_preparation_active o = 0 →
  command_typed cmd → snd (control_exec cmd (Some (ow_state o))) = Some st →
  system_inv config (mk_system o c pp sent taken done) →
  system_inv config (mk_system (set_ow_state st o) c pp sent taken done).
Proof.
  intros Ha Hc He [(impl & l & Hok & Hp) [Hcfg Hct] Hch Ht Hb Hsub Hord Hlast]. fields.
  pose proof Hok as [Hi Hs Him Hg Hbd Hx]. rewrite Hs in He.
  destruct (exec_step cmd impl Him Hc) as (r & impl' & Hex & Hst). rewrite Hex in He.
  injection He as <-. pose proof (step_ok _ _ _ _ Him Hc Hst) as Him'.
  split; fields; try done. exists impl', l. split; [|by left]. by split.
Qed.

Lemma system_run_inv config s s' : system_run s s' → system_inv config s → system_inv config s'.
Proof.
  induction 1 as [|s s' s'' _ IH Hst]; [done|]. intros Hi. specialize (IH Hi). destruct Hst.
  - by eapply producer_system_inv.
  - destruct IH as [? ? Hch]. split; fields; try done. by destruct Hch.
  - by eapply prepare_system_inv.
  - by eapply commit_system_inv.
  - by eapply advance_system_inv.
  - by eapply state_system_inv.
Qed.

(** ** Starting *)

(** A new channel and a new owner on it. *)
Inductive started (config : mesh_control_owner_config) : owner_system → Prop :=
  | started_intro c0 c capacity max_retained max_payload o0 o sa ra : owner_config_typed config →
      0 <= capacity → 0 <= max_retained →
      mesh_control_channel_init_v1 true (Some c0) capacity max_retained max_payload =
        (MESH_CONTROL_OK, Some c) →
      mesh_control_owner_init_v1 sa ra (Some o0) (Some c) (Some config) = (MESH_CONTROL_OK, Some o) →
      started config (mk_system o c P_idle [] [] []).

Definition reachable (config : mesh_control_owner_config) (s : owner_system) : Prop :=
  ∃ s0, started config s0 ∧ system_run s0 s.

Lemma started_inv config s : started config s → system_inv config s.
Proof.
  intros [c0 c cap mr mp o0 o sa ra Htyped Hcap Hmr Hch Ho].
  pose proof Htyped as [Hcs [Hcr Hct] [Hk Hs] _].
  destruct (init_inv c0 cap mr mp c Hmr Hcap Hch) as [Hci Hq].
  unfold mesh_control_owner_init_v1 in Ho. destruct (_ || _) in Ho; [done|].
  destruct (mesh_control_state_init_v1 _ _ _) as [rs [st|]] eqn:Est; [|by destruct rs].
  destruct rs; try done. apply init_ok in Est as (impl & [= ->] & Him & _); [|done].
  destruct (mesh_mgmt_replay_init_v1 _ _ _) as [rr g] eqn:Er. destruct rr; try done.
  destruct g as [g|]; [|unfold mesh_mgmt_replay_bind_v1 in Ho; done].
  assert (ra = true) as ->.
  { destruct ra; [done|]. unfold mesh_mgmt_replay_init_v1 in Er. by destruct (_ || _) in Er. }
  destruct (init_gate_ok _ _ _ Hcr Hct Er) as [[l Hg] Hgen].
  destruct (mesh_mgmt_replay_bind_v1 _ _) as [rb [g'|]] eqn:Eb; [|by destruct rb].
  destruct rb; try done. injection Ho as <-.
  destruct (bind_inv g l _ g' 0 Hg ltac:(lia) Hk Hs Eb) as [(l' & Hg' & _) _ _ Hsq _].
  cbn [st_gate st_accepted] in *.
  assert (Hbd : rg_bound g' = 1).
  { unfold mesh_mgmt_replay_bind_v1 in Eb. rewrite (go_entries _ _ Hg) in Eb.
    destruct (_ || _) in Eb; [done|]. by injection Eb as <-. }
  split; fields; try done.
  exists impl, l'. split; [|by left]. split; try done; cbn; lia.
Qed.

Lemma reachable_inv config s : reachable config s → system_inv config s.
Proof. intros (s0 & Hs & Hr). eapply system_run_inv, started_inv; done. Qed.

End Owner.

(** ** Theorems *)

Section Theorems.
Context {R : Ring} {RL : RingLaws} (config : mesh_control_owner_config) (s : owner_system).

(** C10: whatever the producer, the owner loop and the other callers of the state do, the committed
    messages are some of the messages taken from the channel, which are the first ones sent, all in
    the order they were sent; each was an intent of the configured principal and session for this
    mesh and node, within its time window; each has a newer sequence number and a greater log index
    than the one before it. *)
Theorem owner_processes_in_order :
  reachable config s →
  (fst <$> sy_processed s) `sublist_of` sy_taken s ∧
  sy_sent s = sy_taken s ++ queued (sy_channel s) ∧
  Forall (λ x, bound_intent config x.1) (sy_processed s) ∧
  (∀ i m n j k, sy_processed s !! i = Some (m, j) → sy_processed s !! S i = Some (n, k) →
    sequence_is_newer (ce_sequence (om_envelope n)) (ce_sequence (om_envelope m)) = true ∧ j < k).
Proof.
  intros H%reachable_inv. split_and!; apply H.
Qed.

(** C14: a preparation can always be committed.  In every reachable state with an active preparation
    its message is still the head of the queue, whatever the producer published meanwhile, and the
    commit of the expected index succeeds when memory is available: it takes the message, records
    its request once and advances the log.  Without memory it either succeeds too or changes nothing
    and can be retried; any other index is refused and changes nothing. *)
Theorem owner_commit_succeeds (out : option mesh_control_operation) :
  reachable config s → ow_preparation_active (sy_owner s) ≠ 0 →
  let o := sy_owner s in let c := sy_channel s in
  let index := opr_expected_log_index (ow_pending o) in
  ∃ impl m rest o' c' op, cst_impl (ow_state o) = Some impl ∧ queued c = m :: rest ∧
    opr_envelope (ow_pending o) = om_envelope m ∧
    mesh_control_owner_commit_prepared_v1 true (Some o) (Some c) index out =
      (MESH_CONTROL_OK, Some o', Some c', assign out op) ∧ committed o impl rest m c o' c' op ∧
    ((∃ o1 c1 op1, mesh_control_owner_commit_prepared_v1 false (Some o) (Some c) index out =
        (MESH_CONTROL_OK, Some o1, Some c1, assign out op1) ∧ committed o impl rest m c o1 c1 op1) ∨
     mesh_control_owner_commit_prepared_v1 false (Some o) (Some c) index out =
        (MESH_CONTROL_RESOURCE_EXHAUSTED, Some o, Some c, assign out zero_operation)) ∧
    (∀ alloc i, i ≠ index → mesh_control_owner_commit_prepared_v1 alloc (Some o) (Some c) i out =
        (MESH_CONTROL_CONFLICT, Some o, Some c, assign out zero_operation)).
Proof.
  intros H%reachable_inv Ha o c index. pose proof (ready_inv _ _ H) as Hrd.
  pose proof (queued_typed _ _ H) as Hqt.
  destruct (si_owner _ _ H) as (impl & l & Hok & [|(Ha1 & m & rest & Hq & Hpe)]); [done|].
  rewrite Hq in Hqt. apply Forall_cons in Hqt as [Hm _].
  destruct (commit_exec true o impl l c m rest out Hok Hpe Hm Ha1 Hrd Hq)
    as [(o' & c' & op & Hc & Hcd)|[? _]]; [|done].
  exists impl, m, rest, o', c', op. split_and!; try done.
  - unfold o. by rewrite (oo_state _ _ _ Hok).
  - apply (pe_envelope _ _ _ Hpe).
  - destruct (commit_exec false o impl l c m rest out Hok Hpe Hm Ha1 Hrd Hq) as [|[_ Hf]]; auto.
  - intros alloc i Hi%Z.eqb_neq. unfold mesh_control_owner_commit_prepared_v1.
    fold index. unfold o. rewrite (oo_init _ _ _ Hok), Ha1. fold o. by rewrite Hi.
Qed.

(** [process_next] is not retryable.  When memory runs out while it commits the head, it reports
    RESOURCE_EXHAUSTED and leaves the preparation active; from then on every call of [process_next],
    with memory or without, returns INVALID_STATE and changes nothing.  Only a direct commit of the
    pending index, which [process_next] does not expose, would take the message. *)
Theorem owner_process_next_blocks (now : Z) (out out' : option mesh_control_operation)
    (r : mesh_control_result) (o' : mesh_control_owner) (c' : mesh_control_channel) :
  reachable config s → u64 now → ow_preparation_active (sy_owner s) = 0 →
  mesh_control_owner_process_next_v1 false (Some (sy_owner s)) (Some (sy_channel s)) now out =
    (r, Some o', Some c', out') →
  ow_preparation_active o' ≠ 0 →
  r = MESH_CONTROL_RESOURCE_EXHAUSTED ∧ c' = sy_channel s ∧
  (∀ alloc now' out2, mesh_control_owner_process_next_v1 alloc (Some o') (Some c') now' out2 =
    (MESH_CONTROL_INVALID_STATE, Some o', Some c', out2)) ∧
  (∃ o2 c2 op2, mesh_control_owner_commit_prepared_v1 true (Some o') (Some c')
      (opr_expected_log_index (ow_pending o')) None = (MESH_CONTROL_OK, Some o2, Some c2, op2)).
Proof.
  intros H%reachable_inv Hnow Ha Hcall Ha'. pose proof (ready_inv _ _ H) as Hrd.
  pose proof (queued_typed _ _ H) as Hqt. destruct (si_owner _ _ H) as (impl & l & Hok & _).
  destruct (prepare_exec _ impl l _ now zero_prepared Hok Hrd Hqt Hnow)
    as (r1 & o1 & c1 & p1 & Hp & Hout).
  unfold mesh_control_owner_process_next_v1 in Hcall. rewrite Hp in Hcall.
  destruct Hout as [|Ha0 Hq|m rest r1 o1 c1 Ha0 Hq Hr Hcc Hrd' Hq' Hk Ha1|m rest o1 Ha0 Hq Hk Ha1 Hok1 Hpe];
    [done|by injection Hcall as <- <- <- <-|destruct r1; try done; by injection Hcall as <- <- <- <-|].
  rewrite Hq in Hqt. apply Forall_cons in Hqt as [Hm _]. cbn [deref] in Hcall.
  destruct (commit_exec false o1 _ l _ m rest out Hok1 Hpe Hm Ha1 Hrd Hq)
    as [(o2 & c2 & op & Hc & Hcd)|[_ Hc]]; rewrite Hc in Hcall; injection Hcall as <- <- <- <-.
  { by destruct Hcd. }
  split_and!; [done..| |].
  - intros alloc now' out2. unfold mesh_control_owner_process_next_v1, mesh_control_owner_prepare_next_v1.
    by rewrite (oo_init _ _ _ Hok1), Ha1.
  - destruct (commit_exec true o1 _ l _ m rest None Hok1 Hpe Hm Ha1 Hrd Hq)
      as [(o2 & c2 & op & Hc' & _)|[? _]]; [|done]. eauto.
Qed.

(** The verdict of a preparation.  It never touches the replay gate, the configuration or the
    log index, and changes the control state only by removing expired operations.  It reports EMPTY
    for an empty queue and INVALID_STATE while another preparation is active, changing nothing; a
    message that passes every check stays queued and becomes pending; a message that fails one is
    taken from the queue. *)
Theorem owner_prepare_verdict (now : Z) (out : mesh_control_owner_prepared) :
  reachable config s → u64 now →
  ∃ r o' c' p, mesh_control_owner_prepare_next_v1 (Some (sy_owner s)) (Some (sy_channel s)) now
      (Some out) = (r, Some o', Some c', Some p) ∧
    keeps (sy_owner s) o' now ∧
    ((r = MESH_CONTROL_INVALID_STATE ∧ ow_preparation_active (sy_owner s) ≠ 0 ∧ o' = sy_owner s ∧
      c' = sy_channel s) ∨
     (r = MESH_CONTROL_EMPTY ∧ queued (sy_channel s) = [] ∧ o' = sy_owner s ∧ c' = sy_channel s) ∨
     (r = MESH_CONTROL_OK ∧ c' = sy_channel s ∧ ow_preparation_active o' = 1 ∧ p = ow_pending o') ∨
     (r ≠ MESH_CONTROL_OK ∧ ow_preparation_active o' = 0 ∧
      ∃ m, queued (sy_channel s) = m :: queued c')).
Proof.
  intros H%reachable_inv Hnow. pose proof (ready_inv _ _ H) as Hrd.
  pose proof (queued_typed _ _ H) as Hqt. destruct (si_owner _ _ H) as (impl & l & Hok & _).
  destruct (prepare_exec _ impl l _ now out Hok Hrd Hqt Hnow) as (r & o' & c' & p & Hp & Hout).
  exists r, o', c', p. split; [done|].
  destruct Hout as [Ha|Ha Hq|m rest r o' c' Ha Hq Hr Hcc Hrd' Hq' Hk Ha'|m rest o' Ha Hq Hk Ha' _ _].
  - split; [by split; auto|]. by left.
  - split; [by split; auto|]. right. by left.
  - split; [done|]. do 3 right. split_and!; [done..|]. exists m. by rewrite Hq, Hq'.
  - split; [done|]. do 2 right. by left.
Qed.

End Theorems.

(** ** Witnesses *)

Section Pushing.
Context {R : Ring} {RL : RingLaws}.

Lemma system_then s s' s'' : system_step s s' → system_run s' s'' → system_run s s''.
Proof. intros Hst. induction 1; [by eapply system_more, Hst; constructor|]. by eapply system_more; [apply IHsystem_run|]. Qed.

Ltac produce rule := eapply system_then; [apply sys_producer; [rule|by intros ? [= <-]; auto]|].

(** A successful push, the producer running alone. *)
Lemma system_push alloc o c c' taken done sent e payload payload_size frame frame_size :
  u64 payload_size → u64 frame_size →
  message_typed (owned_message e payload payload_size frame frame_size) →
  mesh_control_channel_try_push_signed_v1 alloc (Some c) (Some e) payload payload_size frame frame_size =
    (MESH_CONTROL_OK, Some c') →
  system_run (mk_system o c P_idle sent taken done)
    (mk_system o c' P_idle (sent ++ [owned_message e payload payload_size frame frame_size]) taken done).
Proof.
  intros Hp Hf Hm H.
  unfold mesh_control_channel_try_push_signed_v1 in H.
  repeat (step_in H; [discriminate H|]). step_in H; [|discriminate H]. step_in H; [discriminate H|].
  injection H as <-. set (m := owned_message e payload payload_size frame frame_size) in *. bool_prop.
  assert (Hpm : pushable c m) by (by constructor).
  produce ltac:(by apply p_open).
  produce ltac:(apply p_room; lia).
  eapply system_then; [apply sys_producer; [apply p_fits|by intros ? [= <-]; auto]|].
  { unfold fits. rewrite negb_true_iff, orb_false_iff, !Z.ltb_ge. lia. }
  produce ltac:(by eapply p_slot).
  produce ltac:(apply p_count).
  produce ltac:(apply p_charge).
  produce ltac:(by eapply p_release).
  produce ltac:(apply p_published).
  apply system_refl.
Qed.
End Pushing.

#[local] Existing Instance list_ring.
#[local] Existing Instance list_ring_laws.

(** An intent to apply the three-byte document of a network. *)
Definition w_own_payload : bytes := intent_bytes MESH_CONTROL_DESIRED_APPLY [1; 2; 3].
Definition w_own_envelope : mesh_control_envelope :=
  mk_control_envelope 1 MESH_CONTROL_MESSAGE_INTENT 0 (1 :: zeros 15) (2 :: zeros 15) (3 :: zeros 31)
    (4 :: zeros 31) (4 :: zeros 31) (5 :: zeros 15) (6 :: zeros 31)
    MESH_CONTROL_RESOURCE_NETWORK 0 (7 :: zeros 31) 8 9 1000 2000 10 11 12 0 (8 :: zeros 31) 11.
Definition w_own_message : mesh_control_owned_message :=
  owned_message w_own_envelope (Some w_own_payload) 11 None 0.
Definition w_own_config : mesh_control_owner_config :=
  mk_owner_config w_config (mk_replay_config 4 1000) (mk_binding (4 :: zeros 31) 10 11 (5 :: zeros 15))
    (3 :: zeros 31) (6 :: zeros 31).

Definition w_own_empty : mesh_control_channel :=
  deref zero_channel (mesh_control_channel_init_v1 true (Some zero_channel) 4 4096 64).2.
Definition w_own_pushed : mesh_control_channel :=
  deref zero_channel (mesh_control_channel_try_push_signed_v1 true (Some w_own_empty)
    (Some w_own_envelope) (Some w_own_payload) 11 None 0).2.
Definition w_owner : mesh_control_owner :=
  deref zero_owner (mesh_control_owner_init_v1 true true (Some zero_owner) (Some w_own_empty)
    (Some w_own_config)).2.
Definition w_owner_prepared : mesh_control_owner :=
  deref zero_owner (mesh_control_owner_prepare_next_v1 (Some w_owner) (Some w_own_pushed) 1500
    (Some zero_prepared)).1.1.2.
Definition w_committed :=
  mesh_control_owner_commit_prepared_v1 true (Some w_owner_prepared) (Some w_own_pushed) 1 None.

(** The message is queued; it is pending; it is committed. *)
Definition w_sys_pushed : owner_system := mk_system w_owner w_own_pushed P_idle [w_own_message] [] [].
Definition w_sys_prepared : owner_system :=
  mk_system w_owner_prepared w_own_pushed P_idle [w_own_message] ([] ++ consumed w_own_pushed w_own_pushed) [].
Definition w_sys_committed : owner_system :=
  let o := deref zero_owner w_committed.1.1.2 in
  let c := deref zero_channel w_committed.1.2 in
  mk_system o c P_idle [w_own_message]
    (([] ++ consumed w_own_pushed w_own_pushed) ++ consumed w_own_pushed c)
    ([] ++ ((λ m, (m, 1)) <$> consumed w_own_pushed c)).

Lemma w_own_typed : message_typed w_own_message.
Proof. split; [evaluate|split_and!; evaluate|split_and!; evaluate|split; [evaluate|vm_compute; split; discriminate]]. Qed.

Lemma w_reach_pushed : reachable w_own_config w_sys_pushed.
Proof.
  exists (mk_system w_owner w_own_empty P_idle [] [] []). split.
  - apply (started_intro _ zero_channel w_own_empty 4 4096 64 zero_owner w_owner true true);
      [|lia|lia|vm_compute; reflexivity|vm_compute; reflexivity].
    split; [evaluate|cbn; lia|split; evaluate|split; evaluate].
  - apply (system_push true w_owner w_own_empty w_own_pushed [] [] [] w_own_envelope (Some w_own_payload)
      11 None 0); [evaluate|evaluate|exact w_own_typed|vm_compute; reflexivity].
Qed.

Lemma reachable_step config s s' : reachable config s → system_step s s' → reachable config s'.
Proof. intros (s0 & Hs & Hr) Hst. exists s0. split; [done|]. by eapply system_more. Qed.

Lemma w_reach_prepared : reachable w_own_config w_sys_prepared.
Proof.
  eapply reachable_step; [exact w_reach_pushed|].
  eapply (sys_prepare _ _ _ _ _ _ 1500 zero_prepared MESH_CONTROL_OK _ _ (Some (ow_pending w_owner_prepared)));
    [evaluate|vm_compute; reflexivity].
Qed.

Lemma w_reach_committed : reachable w_own_config w_sys_committed.
Proof.
  eapply reachable_step; [exact w_reach_prepared|].
  eapply (sys_commit _ _ _ _ _ _ true 1 None MESH_CONTROL_OK _ _ None); vm_compute; reflexivity.
Qed.

Lemma owner_processes_in_order_witness :
  sy_processed w_sys_committed = [(w_own_message, 1)] ∧
  Forall (λ x, bound_intent w_own_config x.1) (sy_processed w_sys_committed) ∧
  (fst <$> sy_processed w_sys_committed) `sublist_of` sy_taken w_sys_committed.
Proof.
  destruct (owner_processes_in_order w_own_config w_sys_committed w_reach_committed)
    as (Hs & _ & Hb & _).
  split; [vm_compute; reflexivity|]. split; assumption.
Defined.

Lemma owner_commit_succeeds_witness :
  ∃ impl m rest o' c' op, cst_impl (ow_state w_owner_prepared) = Some impl ∧
    queued w_own_pushed = m :: rest ∧
    mesh_control_owner_commit_prepared_v1 true (Some w_owner_prepared) (Some w_own_pushed)
      (opr_expected_log_index (ow_pending w_owner_prepared)) None =
      (MESH_CONTROL_OK, Some o', Some c', assign None op) ∧
    committed w_owner_prepared impl rest m w_own_pushed o' c' op.
Proof.
  destruct (owner_commit_succeeds w_own_config w_sys_prepared None w_reach_prepared)
    as (impl & m & rest & o' & c' & op & H1 & H2 & _ & H4 & H5 & _); [vm_compute; discriminate|].
  exists impl, m, rest, o', c', op. exact (conj H1 (conj H2 (conj H4 H5))).
Defined.

Definition w_blocked :=
  mesh_control_owner_process_next_v1 false (Some w_owner) (Some w_own_pushed) 1500 None.

Lemma owner_process_next_blocks_witness :
  w_blocked.1.1.1 = MESH_CONTROL_RESOURCE_EXHAUSTED ∧
  ∀ alloc now', (mesh_control_owner_process_next_v1 alloc (Some (deref zero_owner w_blocked.1.1.2))
    (Some (deref zero_channel w_blocked.1.2)) now' None).1.1.1 = MESH_CONTROL_INVALID_STATE.
Proof.
  destruct (owner_process_next_blocks w_own_config w_sys_pushed 1500 None None w_blocked.1.1.1
    (deref zero_owner w_blocked.1.1.2) (deref zero_channel w_blocked.1.2) w_reach_pushed)
    as (Hr & _ & Hb & _);
    [evaluate|vm_compute; reflexivity|vm_compute; reflexivity|vm_compute; discriminate|].
  split; [exact Hr|]. intros alloc now'. rewrite Hb. reflexivity.
Defined.

Lemma owner_prepare_verdict_witness : ∃ r o' c' p,
  mesh_control_owner_prepare_next_v1 (Some w_owner) (Some w_own_pushed) 2500 (Some zero_prepared) =
    (r, Some o', Some c', Some p) ∧ r = MESH_CONTROL_CONFLICT ∧ keeps w_owner o' 2500.
Proof.
  destruct (owner_prepare_verdict w_own_config w_sys_pushed 2500 zero_prepared w_reach_pushed)
    as (r & o' & c' & p & Hc & Hk & _); [evaluate|].
  exists r, o', c', p. split; [exact Hc|]. split; [|exact Hk].
  assert (Hr : (mesh_control_owner_prepare_next_v1 (Some w_owner) (Some w_own_pushed) 2500
    (Some zero_prepared)).1.1.1 = MESH_CONTROL_CONFLICT) by (vm_compute; reflexivity).
  change (sy_owner w_sys_pushed) with w_owner in Hc.
  change (sy_channel w_sys_pushed) with w_own_pushed in Hc. rewrite Hc in Hr. exact Hr.
Defined.
