(* ===== verification/ControlReconciler.v ===== *)
(** * The function reconciler: [mesh/src/mesh_control_reconciler.c]

    A bounded table of function operations on their way to a provider.  Each
    entry is queued, in flight, or has its completion applied to the control
    state and waits for the provider's acknowledgement.  A provider is a record
    of function pointers over its own context, so its behaviour is a parameter:
    the callbacks are arbitrary functions on a context of any type. *)

From S2P Require Import Prelude Wire MgmtCrypto MgmtCodec MgmtEnvelope.
From S2P Require Import ControlPrimitives ControlState ControlStateInv ControlDocument.

(** ** Data *)

Definition MESH_CONTROL_RECONCILER_MAX_PROVIDERS_V1 : Z := 32.
Definition MESH_CONTROL_RECONCILER_MAX_INFLIGHT_V1 : Z := MESH_CONTROL_STATE_MAX_OPERATIONS_V1.
Definition MESH_CONTROL_PROVIDER_COMPLETED : Z := 1.
Definition MESH_CONTROL_PROVIDER_FAILED : Z := 2.
Definition RECONCILE_ENTRY_QUEUED : Z := 1.
Definition RECONCILE_ENTRY_INFLIGHT : Z := 2.
Definition RECONCILE_ENTRY_COMPLETION_APPLIED : Z := 3.

Record mesh_control_provider_request : Type := mk_provider_request {
  prq_operation : mesh_control_operation;
  prq_spec : mesh_control_function_spec }.

Record mesh_control_provider_completion : Type := mk_completion {
  pc_operation_id : bytes;
  pc_state : Z;
  pc_reserved : Z }.

Record mesh_control_reconciler_prepared_completion : Type := mk_prepared_completion {
  rpc_operation : mesh_control_operation;
  rpc_completion : mesh_control_provider_completion }.

Record mesh_control_reconciler_stats : Type := mk_reconciler_stats {
  rcs_queued : Z;
  rcs_inflight : Z;
  rcs_capacity : Z;
  rcs_started : Z;
  rcs_succeeded : Z;
  rcs_failed : Z;
  rcs_interrupted : Z;
  rcs_provider_backpressure : Z;
  rcs_rejected_completions : Z }.

Record reconcile_entry : Type := mk_entry {
  re_occupied : bool;
  re_state : Z;
  re_provider_index : Z;
  re_completion_state : Z;
  re_enqueue_sequence : Z;
  re_request : mesh_control_provider_request }.

Definition zero_request : mesh_control_provider_request :=
  mk_provider_request zero_operation zero_function_spec.
Definition zero_completion : mesh_control_provider_completion := mk_completion (zeros 16) 0 0.
Definition zero_prepared_completion : mesh_control_reconciler_prepared_completion :=
  mk_prepared_completion zero_operation zero_completion.
Definition zero_entry : reconcile_entry := mk_entry false 0 0 0 0 zero_request.
Definition zero_reconciler_stats : mesh_control_reconciler_stats :=
  mk_reconciler_stats 0 0 0 0 0 0 0 0 0.

#[export] Instance mesh_control_operation_eq_dec : EqDecision mesh_control_operation.
Proof. solve_decision. Defined.

Definition entry_operation (e : reconcile_entry) : mesh_control_operation := prq_operation (re_request e).
Definition entry_id (e : reconcile_entry) : bytes := co_operation_id (entry_operation e).

(** Assignments to single members. *)
Definition set_re_state s e := mk_entry (re_occupied e) s (re_provider_index e)
  (re_completion_state e) (re_enqueue_sequence e) (re_request e).
Definition set_re_completion c e := mk_entry (re_occupied e) (re_state e) (re_provider_index e)
  c (re_enqueue_sequence e) (re_request e).
Definition set_re_sequence n e := mk_entry (re_occupied e) (re_state e) (re_provider_index e)
  (re_completion_state e) n (re_request e).

Definition rcs_add_queued n s := mk_reconciler_stats (wrap 64 (rcs_queued s + n)) (rcs_inflight s)
  (rcs_capacity s) (rcs_started s) (rcs_succeeded s) (rcs_failed s) (rcs_interrupted s)
  (rcs_provider_backpressure s) (rcs_rejected_completions s).
Definition rcs_add_inflight n s := mk_reconciler_stats (rcs_queued s) (wrap 64 (rcs_inflight s + n))
  (rcs_capacity s) (rcs_started s) (rcs_succeeded s) (rcs_failed s) (rcs_interrupted s)
  (rcs_provider_backpressure s) (rcs_rejected_completions s).
Definition rcs_count_started s := mk_reconciler_stats (rcs_queued s) (rcs_inflight s)
  (rcs_capacity s) (wrap 64 (rcs_started s + 1)) (rcs_succeeded s) (rcs_failed s) (rcs_interrupted s)
  (rcs_provider_backpressure s) (rcs_rejected_completions s).
Definition rcs_count_succeeded s := mk_reconciler_stats (rcs_queued s) (rcs_inflight s)
  (rcs_capacity s) (rcs_started s) (wrap 64 (rcs_succeeded s + 1)) (rcs_failed s) (rcs_interrupted s)
  (rcs_provider_backpressure s) (rcs_rejected_completions s).
Definition rcs_count_failed s := mk_reconciler_stats (rcs_queued s) (rcs_inflight s)
  (rcs_capacity s) (rcs_started s) (rcs_succeeded s) (wrap 64 (rcs_failed s + 1)) (rcs_interrupted s)
  (rcs_provider_backpressure s) (rcs_rejected_completions s).
Definition rcs_count_interrupted s := mk_reconciler_stats (rcs_queued s) (rcs_inflight s)
  (rcs_capacity s) (rcs_started s) (rcs_succeeded s) (rcs_failed s) (wrap 64 (rcs_interrupted s + 1))
  (rcs_provider_backpressure s) (rcs_rejected_completions s).
Definition rcs_count_backpressure s := mk_reconciler_stats (rcs_queued s) (rcs_inflight s)
  (rcs_capacity s) (rcs_started s) (rcs_succeeded s) (rcs_failed s) (rcs_interrupted s)
  (wrap 64 (rcs_provider_backpressure s + 1)) (rcs_rejected_completions s).
Definition rcs_count_rejected s := mk_reconciler_stats (rcs_queued s) (rcs_inflight s)
  (rcs_capacity s) (rcs_started s) (rcs_succeeded s) (rcs_failed s) (rcs_interrupted s)
  (rcs_provider_backpressure s) (wrap 64 (rcs_rejected_completions s + 1)).

Section Reconciler.
(** The type of the providers' contexts. *)
Context {C : Type}.

(** The callbacks; a NULL pointer is [None]. *)
Record mesh_control_provider_ops : Type := mk_provider_ops {
  po_try_start : option (C → mesh_control_provider_request → mesh_control_result * C);
  po_try_peek_completion :
    option (C → mesh_control_provider_completion →
            mesh_control_result * mesh_control_provider_completion * C);
  po_ack_completion : option (C → bytes → mesh_control_result * C);
  po_close : option (C → C);
  po_is_drained : option (C → bool) }.

Record mesh_control_provider : Type := mk_provider {
  pv_provider_id : bytes;
  pv_runtime : Z;
  pv_reserved : Z;
  pv_ops : mesh_control_provider_ops;
  pv_context : C }.

Record mesh_control_reconciler_config : Type := mk_reconciler_config {
  rcc_providers : option (list mesh_control_provider);
  rcc_provider_count : Z;
  rcc_inflight_capacity : Z }.

Record mesh_control_reconciler_impl : Type := mk_reconciler_impl {
  ri_providers : list mesh_control_provider;
  ri_provider_count : Z;
  ri_entries : list reconcile_entry;
  ri_capacity : Z;
  ri_completion_provider_cursor : Z;
  ri_prepared_provider_index : Z;
  ri_prepared_completion : mesh_control_provider_completion;
  ri_next_enqueue_sequence : Z;
  ri_stats : mesh_control_reconciler_stats;
  ri_completion_prepared : bool;
  ri_closed : bool }.

Record mesh_control_reconciler : Type := mk_reconciler {
  rc_impl : option mesh_control_reconciler_impl }.

(** Assignments to single members. *)
Definition set_ri_providers l i := mk_reconciler_impl l (ri_provider_count i) (ri_entries i)
  (ri_capacity i) (ri_completion_provider_cursor i) (ri_prepared_provider_index i)
  (ri_prepared_completion i) (ri_next_enqueue_sequence i) (ri_stats i) (ri_completion_prepared i)
  (ri_closed i).
Definition set_ri_entries l i := mk_reconciler_impl (ri_providers i) (ri_provider_count i) l
  (ri_capacity i) (ri_completion_provider_cursor i) (ri_prepared_provider_index i)
  (ri_prepared_completion i) (ri_next_enqueue_sequence i) (ri_stats i) (ri_completion_prepared i)
  (ri_closed i).
Definition set_ri_cursor n i := mk_reconciler_impl (ri_providers i) (ri_provider_count i)
  (ri_entries i) (ri_capacity i) n (ri_prepared_provider_index i) (ri_prepared_completion i)
  (ri_next_enqueue_sequence i) (ri_stats i) (ri_completion_prepared i) (ri_closed i).
Definition set_ri_prepared p c b i := mk_reconciler_impl (ri_providers i) (ri_provider_count i)
  (ri_entries i) (ri_capacity i) (ri_completion_provider_cursor i) p c
  (ri_next_enqueue_sequence i) (ri_stats i) b (ri_closed i).
Definition set_ri_sequence n i := mk_reconciler_impl (ri_providers i) (ri_provider_count i)
  (ri_entries i) (ri_capacity i) (ri_completion_provider_cursor i) (ri_prepared_provider_index i)
  (ri_prepared_completion i) n (ri_stats i) (ri_completion_prepared i) (ri_closed i).
Definition set_ri_stats s i := mk_reconciler_impl (ri_providers i) (ri_provider_count i)
  (ri_entries i) (ri_capacity i) (ri_completion_provider_cursor i) (ri_prepared_provider_index i)
  (ri_prepared_completion i) (ri_next_enqueue_sequence i) s (ri_completion_prepared i) (ri_closed i).
Definition set_ri_closed b i := mk_reconciler_impl (ri_providers i) (ri_provider_count i)
  (ri_entries i) (ri_capacity i) (ri_completion_provider_cursor i) (ri_prepared_provider_index i)
  (ri_prepared_completion i) (ri_next_enqueue_sequence i) (ri_stats i) (ri_completion_prepared i) b.
Definition put_reconcile_entry k e i := set_ri_entries (<[k := e]> (ri_entries i)) i.
Definition count_stats f i := set_ri_stats (f (ri_stats i)) i.

(** ** Helpers *)

Definition provider_valid (provider : mesh_control_provider) : bool :=
  negb (control_bytes_zero (pv_provider_id provider)) &&
  ((pv_runtime provider =? MESH_CONTROL_FUNCTION_BUILTIN) ||
   (pv_runtime provider =? MESH_CONTROL_FUNCTION_NATIVE) ||
   (pv_runtime provider =? MESH_CONTROL_FUNCTION_WASM)) &&
  (pv_reserved provider =? 0) && non_null (po_try_start (pv_ops provider)) &&
  non_null (po_try_peek_completion (pv_ops provider)) &&
  non_null (po_ack_completion (pv_ops provider)) && non_null (po_close (pv_ops provider)) &&
  non_null (po_is_drained (pv_ops provider)).

(** [None] stands for [SIZE_MAX]. *)
Definition find_provider (impl : mesh_control_reconciler_impl) (provider_id : bytes) (runtime : Z) :
    option (nat * mesh_control_provider) :=
  find_slot (λ p, (pv_runtime p =? runtime) && memeq 32 (pv_provider_id p) provider_id)
    (take (Z.to_nat (ri_provider_count impl)) (ri_providers impl)).

Definition find_reconcile_entry (impl : mesh_control_reconciler_impl) (operation_id : bytes) :
    option (nat * reconcile_entry) :=
  find_slot (λ e, re_occupied e && memeq 16 (entry_id e) operation_id) (ri_entries impl).

Definition same_entry_resource (left_ right_ : reconcile_entry) : bool :=
  (co_resource_kind (entry_operation left_) =? co_resource_kind (entry_operation right_)) &&
  memeq 32 (co_resource_id (entry_operation left_)) (co_resource_id (entry_operation right_)).

(** The loop over the entries from [index] on; [k] is the candidate's position. *)
Fixpoint inflight_loop (entries : list reconcile_entry) (index k : nat) (candidate : reconcile_entry) :
    bool :=
  match entries with
  | [] => false
  | entry :: entries' =>
      if negb (Nat.eqb index k) && re_occupied entry && (re_state entry =? RECONCILE_ENTRY_INFLIGHT) &&
         same_entry_resource entry candidate
      then true
      else inflight_loop entries' (S index) k candidate
  end.

Definition resource_has_inflight (impl : mesh_control_reconciler_impl) (k : nat)
    (candidate : reconcile_entry) : bool := inflight_loop (ri_entries impl) 0 k candidate.

(** The loop over the entries from [index] on. *)
Fixpoint queued_loop (impl : mesh_control_reconciler_impl) (entries : list reconcile_entry)
    (index : nat) (selected : option (nat * reconcile_entry)) : option (nat * reconcile_entry) :=
  match entries with
  | [] => selected
  | entry :: entries' =>
      if negb (re_occupied entry) || negb (re_state entry =? RECONCILE_ENTRY_QUEUED) ||
         resource_has_inflight impl index entry
      then queued_loop impl entries' (S index) selected
      else
        let selected :=
          match selected with
          | None => Some (index, entry)
          | Some (_, s) => if re_enqueue_sequence entry <? re_enqueue_sequence s
                           then Some (index, entry) else selected
          end in
        queued_loop impl entries' (S index) selected
  end.

Definition next_queued (impl : mesh_control_reconciler_impl) : option (nat * reconcile_entry) :=
  queued_loop impl (ri_entries impl) 0 None.

(** ** Calls to a provider *)

(** [call_provider impl index f] runs the callback [f] on the context of one
    provider; [None] when there is no provider or the pointer is NULL. *)
Definition call_provider {A} (impl : mesh_control_reconciler_impl) (index : Z)
    (f : mesh_control_provider_ops → option (C → A * C)) : option (A * mesh_control_reconciler_impl) :=
  match ri_providers impl !! Z.to_nat index with
  | None => None
  | Some p =>
      match f (pv_ops p) with
      | None => None
      | Some g =>
          let '(a, context) := g (pv_context p) in
          let p := mk_provider (pv_provider_id p) (pv_runtime p) (pv_reserved p) (pv_ops p) context in
          Some (a, set_ri_providers (<[Z.to_nat index := p]> (ri_providers impl)) impl)
      end
  end.

Definition try_start_op (request : mesh_control_provider_request) (ops : mesh_control_provider_ops) :
    option (C → mesh_control_result * C) := (λ f c, f c request) <$> po_try_start ops.
Definition try_peek_op (out : mesh_control_provider_completion) (ops : mesh_control_provider_ops) :
    option (C → (mesh_control_result * mesh_control_provider_completion) * C) :=
  (λ f c, f c out) <$> po_try_peek_completion ops.
Definition ack_op (operation_id : bytes) (ops : mesh_control_provider_ops) :
    option (C → mesh_control_result * C) := (λ f c, f c operation_id) <$> po_ack_completion ops.
Definition close_op (ops : mesh_control_provider_ops) : option (C → unit * C) :=
  (λ f c, (tt, f c)) <$> po_close ops.

(** ** Life cycle *)

(** The validation loops of the initialisation. *)
Fixpoint providers_check (providers : list mesh_control_provider) : mesh_control_result :=
  match providers with
  | [] => MESH_CONTROL_OK
  | p :: providers' =>
      if negb (provider_valid p) then MESH_CONTROL_INVALID_ARG
      else if existsb (λ q, memeq 32 (pv_provider_id p) (pv_provider_id q)) providers'
      then MESH_CONTROL_CONFLICT
      else providers_check providers'
  end.

Definition mesh_control_reconciler_init_v1 (alloc_ok : bool)
    (reconciler : option mesh_control_reconciler) (config : option mesh_control_reconciler_config) :
    mesh_control_result * option mesh_control_reconciler :=
  match reconciler, config with
  | Some r, Some c =>
      if non_null (rc_impl r) || negb (non_null (rcc_providers c)) || (rcc_provider_count c =? 0) ||
         (MESH_CONTROL_RECONCILER_MAX_PROVIDERS_V1 <? rcc_provider_count c) ||
         (rcc_inflight_capacity c =? 0) ||
         (MESH_CONTROL_RECONCILER_MAX_INFLIGHT_V1 <? rcc_inflight_capacity c)
      then (MESH_CONTROL_INVALID_ARG, reconciler)
      else
        let providers := take (Z.to_nat (rcc_provider_count c)) (deref [] (rcc_providers c)) in
        match providers_check providers with
        | MESH_CONTROL_OK =>
            if negb alloc_ok then (MESH_CONTROL_RESOURCE_EXHAUSTED, reconciler)
            else
              (MESH_CONTROL_OK,
               Some (mk_reconciler (Some (mk_reconciler_impl providers (rcc_provider_count c)
                 (replicate (Z.to_nat (rcc_inflight_capacity c)) zero_entry)
                 (rcc_inflight_capacity c) 0 0 zero_completion 1
                 (mk_reconciler_stats 0 0 (rcc_inflight_capacity c) 0 0 0 0 0 0) false false))))
        | result => (result, reconciler)
        end
  | _, _ => (MESH_CONTROL_INVALID_ARG, reconciler)
  end.

Definition mesh_control_reconciler_has_provider_v1 (reconciler : option mesh_control_reconciler)
    (provider_id : option bytes) (runtime : Z) : mesh_control_result :=
  match reconciler, provider_id with
  | Some r, Some id =>
      match rc_impl r with
      | None => MESH_CONTROL_INVALID_ARG
      | Some impl =>
          if control_bytes_zero id then MESH_CONTROL_INVALID_ARG
          else if non_null (find_provider impl id runtime) then MESH_CONTROL_OK
          else MESH_CONTROL_CONFLICT
      end
  | _, _ => MESH_CONTROL_INVALID_ARG
  end.

Definition with_impl (impl : mesh_control_reconciler_impl) : option mesh_control_reconciler :=
  Some (mk_reconciler (Some impl)).

(** The byte comparison of two operations is equality of their members. *)
Definition mesh_control_reconciler_enqueue_v1 (reconciler : option mesh_control_reconciler)
    (operation : option mesh_control_operation) (document : option bytes) (document_size : Z) :
    mesh_control_result * option mesh_control_reconciler :=
  match reconciler, operation with
  | Some r, Some o =>
      match rc_impl r with
      | None => (MESH_CONTROL_INVALID_ARG, reconciler)
      | Some impl =>
          if negb (non_null document) || (document_size =? 0) ||
             negb (co_resource_kind o =? MESH_CONTROL_RESOURCE_FUNCTION) ||
             (negb (co_state o =? MESH_CONTROL_OPERATION_ACCEPTED) &&
              negb (co_state o =? MESH_CONTROL_OPERATION_RUNNING)) ||
             (negb (co_action o =? MESH_CONTROL_DESIRED_APPLY) &&
              negb (co_action o =? MESH_CONTROL_DESIRED_DELETE)) ||
             control_bytes_zero (co_operation_id o)
          then (MESH_CONTROL_INVALID_ARG, reconciler)
          else
            match mesh_control_function_document_decode_v1 document document_size
                    (Some zero_function_spec) with
            | (MESH_CONTROL_OK, Some spec) =>
                if negb (memeq 32 (co_resource_id o) (fs_function_id spec))
                then (MESH_CONTROL_INVALID_ARG, reconciler)
                else if ri_closed impl then (MESH_CONTROL_CLOSED, reconciler)
                else if (co_action o =? MESH_CONTROL_DESIRED_APPLY) &&
                        negb (co_desired_epoch o =? fs_generation spec)
                then (MESH_CONTROL_CONFLICT, reconciler)
                else
                  match find_provider impl (fs_provider_id spec) (fs_runtime spec) with
                  | None => (MESH_CONTROL_CONFLICT, reconciler)
                  | Some (provider_index, _) =>
                      match find_reconcile_entry impl (co_operation_id o) with
                      | Some (_, entry) =>
                          if bool_decide (entry_operation entry = o)
                          then (MESH_CONTROL_OK, reconciler) else (MESH_CONTROL_CONFLICT, reconciler)
                      | None =>
                          if ri_next_enqueue_sequence impl =? UINT64_MAX
                          then (MESH_CONTROL_INVALID_STATE, reconciler)
                          else
                            match find_slot (λ e, negb (re_occupied e)) (ri_entries impl) with
                            | None => (MESH_CONTROL_RESOURCE_EXHAUSTED, reconciler)
                            | Some (k, _) =>
                                let entry :=
                                  mk_entry true RECONCILE_ENTRY_QUEUED (Z.of_nat provider_index) 0
                                    (ri_next_enqueue_sequence impl) (mk_provider_request o spec) in
                                (MESH_CONTROL_OK,
                                 with_impl (impl |> put_reconcile_entry k entry
                                   |> set_ri_sequence (wrap 64 (ri_next_enqueue_sequence impl + 1))
                                   |> count_stats (rcs_add_queued 1)))
                            end
                      end
                  end
            | _ => (MESH_CONTROL_INVALID_ARG, reconciler)
            end
      end
  | _, _ => (MESH_CONTROL_INVALID_ARG, reconciler)
  end.

(** ** Completions *)

(** The result, the entry and the control state. *)
Definition apply_completion (entry : reconcile_entry) (completion : mesh_control_provider_completion)
    (state : option mesh_control_state) (now_ms : Z) :
    mesh_control_result * reconcile_entry * option mesh_control_state :=
  let o := entry_operation entry in
  let apply := co_action o =? MESH_CONTROL_DESIRED_APPLY in
  let applied := set_re_state RECONCILE_ENTRY_COMPLETION_APPLIED
                   (set_re_completion (pc_state completion) entry) in
  if negb (pc_reserved completion =? 0) ||
     (negb (pc_state completion =? MESH_CONTROL_PROVIDER_COMPLETED) &&
      negb (pc_state completion =? MESH_CONTROL_PROVIDER_FAILED))
  then (MESH_CONTROL_INVALID_STATE, entry, state)
  else if pc_state completion =? MESH_CONTROL_PROVIDER_COMPLETED then
    let digest := if apply then co_desired_digest o else zeros 32 in
    match mesh_control_state_observe_v1 state (co_resource_kind o) (Some (co_resource_id o))
            (co_desired_epoch o)
            (if apply then MESH_CONTROL_PRESENCE_PRESENT else MESH_CONTROL_PRESENCE_ABSENT)
            (Some digest) now_ms with
    | (MESH_CONTROL_OK, state) =>
        match mesh_control_state_transition_operation_v1 state (Some (co_operation_id o))
                MESH_CONTROL_OPERATION_SUCCEEDED now_ms with
        | (MESH_CONTROL_OK, state) => (MESH_CONTROL_OK, applied, state)
        | (result, state) => (result, entry, state)
        end
    | (result, state) => (result, entry, state)
    end
  else
    match mesh_control_state_transition_operation_v1 state (Some (co_operation_id o))
            MESH_CONTROL_OPERATION_FAILED now_ms with
    | (MESH_CONTROL_OK, state) => (MESH_CONTROL_OK, applied, state)
    | (result, state) => (result, entry, state)
    end.

(** The loop over the providers, [n] of them left before all were empty. *)
Fixpoint prepare_loop (n : nat) (impl : mesh_control_reconciler_impl) :
    mesh_control_result * mesh_control_reconciler_impl * mesh_control_reconciler_prepared_completion :=
  match n with
  | O => (MESH_CONTROL_EMPTY, impl, zero_prepared_completion)
  | S n' =>
      let provider_index := ri_completion_provider_cursor impl in
      let impl := set_ri_cursor ((provider_index + 1) mod ri_provider_count impl) impl in
      match call_provider impl provider_index (try_peek_op zero_completion) with
      | Some ((MESH_CONTROL_EMPTY, _), impl) => prepare_loop n' impl
      | Some ((MESH_CONTROL_OK, completion), impl) =>
          match find_reconcile_entry impl (pc_operation_id completion) with
          | Some (_, entry) =>
              if (negb (re_state entry =? RECONCILE_ENTRY_INFLIGHT) &&
                  negb (re_state entry =? RECONCILE_ENTRY_COMPLETION_APPLIED)) ||
                 negb (re_provider_index entry =? provider_index)
              then (MESH_CONTROL_INVALID_STATE, count_stats rcs_count_rejected impl,
                    zero_prepared_completion)
              else (MESH_CONTROL_OK, set_ri_prepared provider_index completion true impl,
                    mk_prepared_completion (entry_operation entry) completion)
          | None => (MESH_CONTROL_INVALID_STATE, count_stats rcs_count_rejected impl,
                     zero_prepared_completion)
          end
      | Some ((_, _), impl) =>
          (MESH_CONTROL_INVALID_STATE, count_stats rcs_count_rejected impl, zero_prepared_completion)
      | None => (MESH_CONTROL_INVALID_STATE, impl, zero_prepared_completion)
      end
  end.

Definition prepare_impl (impl : mesh_control_reconciler_impl) :
    mesh_control_result * mesh_control_reconciler_impl * mesh_control_reconciler_prepared_completion :=
  if ri_completion_prepared impl then
    match find_reconcile_entry impl (pc_operation_id (ri_prepared_completion impl)) with
    | None => (MESH_CONTROL_INVALID_STATE, impl, zero_prepared_completion)
    | Some (_, entry) =>
        (MESH_CONTROL_OK, impl,
         mk_prepared_completion (entry_operation entry) (ri_prepared_completion impl))
    end
  else prepare_loop (Z.to_nat (ri_provider_count impl)) impl.

Definition mesh_control_reconciler_prepare_completion_v1 (reconciler : option mesh_control_reconciler)
    (out_prepared : option mesh_control_reconciler_prepared_completion) :
    mesh_control_result * option mesh_control_reconciler *
    option mesh_control_reconciler_prepared_completion :=
  match reconciler, out_prepared with
  | Some r, Some _ =>
      match rc_impl r with
      | None => (MESH_CONTROL_INVALID_ARG, reconciler, out_prepared)
      | Some impl =>
          let '(result, impl, prepared) := prepare_impl impl in (result, with_impl impl, Some prepared)
      end
  | _, _ => (MESH_CONTROL_INVALID_ARG, reconciler, out_prepared)
  end.

Definition apply_impl (impl : mesh_control_reconciler_impl) (state : option mesh_control_state)
    (now_ms : Z) :
    mesh_control_result * mesh_control_reconciler_impl * option mesh_control_state :=
  if negb (ri_completion_prepared impl) || (ri_provider_count impl <=? ri_prepared_provider_index impl)
  then (MESH_CONTROL_INVALID_STATE, impl, state)
  else
    match find_reconcile_entry impl (pc_operation_id (ri_prepared_completion impl)) with
    | None => (MESH_CONTROL_INVALID_STATE, impl, state)
    | Some (k, entry) =>
        if negb (re_provider_index entry =? ri_prepared_provider_index impl)
        then (MESH_CONTROL_INVALID_STATE, impl, state)
        else if re_state entry =? RECONCILE_ENTRY_INFLIGHT then
          let '(result, entry, state) :=
            apply_completion entry (ri_prepared_completion impl) state now_ms in
          (result, put_reconcile_entry k entry impl, state)
        else if negb (re_state entry =? RECONCILE_ENTRY_COMPLETION_APPLIED) ||
                negb (re_completion_state entry =? pc_state (ri_prepared_completion impl))
        then (MESH_CONTROL_INVALID_STATE, impl, state)
        else (MESH_CONTROL_OK, impl, state)
    end.

Definition mesh_control_reconciler_apply_completion_v1 (reconciler : option mesh_control_reconciler)
    (state : option mesh_control_state) (now_ms : Z) :
    mesh_control_result * option mesh_control_reconciler * option mesh_control_state :=
  match reconciler with
  | Some r =>
      match rc_impl r with
      | None => (MESH_CONTROL_INVALID_ARG, reconciler, state)
      | Some impl =>
          if negb (non_null state) then (MESH_CONTROL_INVALID_ARG, reconciler, state)
          else let '(result, impl, state) := apply_impl impl state now_ms in
               (result, with_impl impl, state)
      end
  | None => (MESH_CONTROL_INVALID_ARG, reconciler, state)
  end.

Definition ack_impl (impl : mesh_control_reconciler_impl) :
    mesh_control_result * mesh_control_reconciler_impl :=
  if negb (ri_completion_prepared impl) || (ri_provider_count impl <=? ri_prepared_provider_index impl)
  then (MESH_CONTROL_INVALID_STATE, impl)
  else
    match find_reconcile_entry impl (pc_operation_id (ri_prepared_completion impl)) with
    | None => (MESH_CONTROL_INVALID_STATE, impl)
    | Some (k, entry) =>
        if negb (re_provider_index entry =? ri_prepared_provider_index impl) ||
           negb (re_state entry =? RECONCILE_ENTRY_COMPLETION_APPLIED) ||
           negb (re_completion_state entry =? pc_state (ri_prepared_completion impl))
        then (MESH_CONTROL_INVALID_STATE, impl)
        else
          match call_provider impl (ri_prepared_provider_index impl)
                  (ack_op (pc_operation_id (ri_prepared_completion impl))) with
          | Some (MESH_CONTROL_OK, impl) =>
              (MESH_CONTROL_OK,
               impl
               |> count_stats (if re_completion_state entry =? MESH_CONTROL_PROVIDER_COMPLETED
                               then rcs_count_succeeded else rcs_count_failed)
               |> count_stats (rcs_add_inflight (-1))
               |> put_reconcile_entry k zero_entry
               |> set_ri_prepared (ri_prepared_provider_index impl) zero_completion false)
          | Some (_, impl) => (MESH_CONTROL_INVALID_STATE, count_stats rcs_count_rejected impl)
          | None => (MESH_CONTROL_INVALID_STATE, impl)
          end
    end.

Definition mesh_control_reconciler_ack_completion_v1 (reconciler : option mesh_control_reconciler) :
    mesh_control_result * option mesh_control_reconciler :=
  match reconciler with
  | Some r =>
      match rc_impl r with
      | None => (MESH_CONTROL_INVALID_ARG, reconciler)
      | Some impl => let '(result, impl) := ack_impl impl in (result, with_impl impl)
      end
  | None => (MESH_CONTROL_INVALID_ARG, reconciler)
  end.

Definition mesh_control_reconciler_commit_completion_v1 (reconciler : option mesh_control_reconciler)
    (state : option mesh_control_state) (now_ms : Z) :
    mesh_control_result * option mesh_control_reconciler * option mesh_control_state :=
  match mesh_control_reconciler_apply_completion_v1 reconciler state now_ms with
  | (MESH_CONTROL_OK, reconciler, state) =>
      let '(result, reconciler) := mesh_control_reconciler_ack_completion_v1 reconciler in
      (result, reconciler, state)
  | (result, reconciler, state) => (result, reconciler, state)
  end.

(** ** Polling *)

(** The loop with [n] completions left in the budget; the progress comes last. *)
Fixpoint poll_completions (n : nat) (reconciler : option mesh_control_reconciler)
    (state : option mesh_control_state) (now_ms progress : Z) :
    mesh_control_result * option mesh_control_reconciler * option mesh_control_state * Z :=
  match n with
  | O => (MESH_CONTROL_OK, reconciler, state, progress)
  | S n' =>
      match mesh_control_reconciler_prepare_completion_v1 reconciler (Some zero_prepared_completion) with
      | (MESH_CONTROL_EMPTY, reconciler, _) => (MESH_CONTROL_OK, reconciler, state, progress)
      | (MESH_CONTROL_OK, reconciler, _) =>
          match mesh_control_reconciler_commit_completion_v1 reconciler state now_ms with
          | (MESH_CONTROL_OK, reconciler, state) =>
              poll_completions n' reconciler state now_ms (progress + 1)
          | (result, reconciler, state) => (result, reconciler, state, progress)
          end
      | (result, reconciler, _) => (result, reconciler, state, progress)
      end
  end.

(** The loop with [n] attempts left in the budget. *)
Fixpoint poll_starts (n : nat) (budget : Z) (impl : mesh_control_reconciler_impl)
    (state : option mesh_control_state) (now_ms progress : Z) :
    mesh_control_result * mesh_control_reconciler_impl * option mesh_control_state * Z :=
  match n with
  | O => (MESH_CONTROL_OK, impl, state, progress)
  | S n' =>
      if budget <=? progress then (MESH_CONTROL_OK, impl, state, progress)
      else
        match next_queued impl with
        | None => (MESH_CONTROL_OK, impl, state, progress)
        | Some (k, entry) =>
            match call_provider impl (re_provider_index entry) (try_start_op (re_request entry)) with
            | Some (MESH_CONTROL_RESOURCE_EXHAUSTED, impl) =>
                let impl := count_stats rcs_count_backpressure impl in
                if ri_next_enqueue_sequence impl =? UINT64_MAX
                then (MESH_CONTROL_INVALID_STATE, impl, state, progress)
                else
                  poll_starts n' budget
                    (impl |> put_reconcile_entry k (set_re_sequence (ri_next_enqueue_sequence impl) entry)
                          |> set_ri_sequence (wrap 64 (ri_next_enqueue_sequence impl + 1)))
                    state now_ms progress
            | Some (MESH_CONTROL_OK, impl) =>
                match mesh_control_state_transition_operation_v1 state (Some (entry_id entry))
                        MESH_CONTROL_OPERATION_RUNNING now_ms with
                | (MESH_CONTROL_OK, state) =>
                    poll_starts n' budget
                      (impl |> put_reconcile_entry k (set_re_state RECONCILE_ENTRY_INFLIGHT entry)
                            |> count_stats (rcs_add_queued (-1))
                            |> count_stats (rcs_add_inflight 1)
                            |> count_stats rcs_count_started)
                      state now_ms (progress + 1)
                | (result, state) => (result, impl, state, progress)
                end
            | Some (_, impl) =>
                match mesh_control_state_transition_operation_v1 state (Some (entry_id entry))
                        MESH_CONTROL_OPERATION_FAILED now_ms with
                | (MESH_CONTROL_OK, state) =>
                    poll_starts n' budget
                      (impl |> count_stats (rcs_add_queued (-1))
                            |> count_stats rcs_count_failed
                            |> put_reconcile_entry k zero_entry)
                      state now_ms (progress + 1)
                | (result, state) => (result, impl, state, progress)
                end
            | None => (MESH_CONTROL_INVALID_STATE, impl, state, progress)
            end
        end
  end.

Definition providers_are_drained (impl : mesh_control_reconciler_impl) : bool :=
  forallb (λ p, match po_is_drained (pv_ops p) with Some f => f (pv_context p) | None => false end)
    (take (Z.to_nat (ri_provider_count impl)) (ri_providers impl)).

(** The loop over the entries from [index] on, [n] of them left. *)
Fixpoint interrupt_loop (n index : nat) (impl : mesh_control_reconciler_impl)
    (state : option mesh_control_state) (now_ms budget progress : Z) :
    mesh_control_result * mesh_control_reconciler_impl * option mesh_control_state * Z :=
  match n with
  | O => (MESH_CONTROL_OK, impl, state, progress)
  | S n' =>
      if budget <=? progress then (MESH_CONTROL_OK, impl, state, progress)
      else
        match ri_entries impl !! index with
        | None => (MESH_CONTROL_OK, impl, state, progress)
        | Some entry =>
            if negb (re_occupied entry) then interrupt_loop n' (S index) impl state now_ms budget progress
            else
              match mesh_control_state_transition_operation_v1 state (Some (entry_id entry))
                      MESH_CONTROL_OPERATION_INTERRUPTED now_ms with
              | (MESH_CONTROL_OK, state) =>
                  interrupt_loop n' (S index)
                    (impl |> count_stats (if re_state entry =? RECONCILE_ENTRY_QUEUED
                                          then rcs_add_queued (-1) else rcs_add_inflight (-1))
                          |> count_stats rcs_count_interrupted
                          |> put_reconcile_entry index zero_entry)
                    state now_ms budget (progress + 1)
              | (result, state) => (result, impl, state, progress)
              end
        end
  end.

Definition interrupt_after_provider_drain (impl : mesh_control_reconciler_impl)
    (state : option mesh_control_state) (now_ms budget progress : Z) :
    mesh_control_result * mesh_control_reconciler_impl * option mesh_control_state * Z :=
  if negb (ri_closed impl) || negb (providers_are_drained impl)
  then (MESH_CONTROL_OK, impl, state, progress)
  else interrupt_loop (Z.to_nat (ri_capacity impl)) 0 impl state now_ms budget progress.

Definition mesh_control_reconciler_poll_v1 (reconciler : option mesh_control_reconciler)
    (state : option mesh_control_state) (completion_budget start_budget now_ms : Z)
    (out_progress : option Z) :
    mesh_control_result * option mesh_control_reconciler * option mesh_control_state * option Z :=
  match reconciler, state, out_progress with
  | Some r, Some _, Some _ =>
      if negb (non_null (rc_impl r)) || (completion_budget =? 0) || (start_budget =? 0)
      then (MESH_CONTROL_INVALID_ARG, reconciler, state, out_progress)
      else
        let out_progress := Some 0 in
        match poll_completions (Z.to_nat completion_budget) reconciler state now_ms 0 with
        | (MESH_CONTROL_OK, Some r, state, completion_progress) =>
            match rc_impl r with
            | None => (MESH_CONTROL_INVALID_ARG, Some r, state, out_progress)
            | Some impl =>
                let '(result, impl, state, completed, started) :=
                  if negb (ri_closed impl) then
                    let '(result, impl, state, progress) :=
                      poll_starts (Z.to_nat start_budget) start_budget impl state now_ms 0 in
                    (result, impl, state, completion_progress, progress)
                  else
                    let '(result, impl, state, progress) :=
                      interrupt_after_provider_drain impl state now_ms completion_budget
                        completion_progress in
                    (result, impl, state, progress, 0) in
                if negb (control_ok result) then (result, with_impl impl, state, out_progress)
                else (MESH_CONTROL_OK, with_impl impl, state, Some (wrap 64 (completed + started)))
            end
        | (result, reconciler, state, _) => (result, reconciler, state, out_progress)
        end
  | _, _, _ => (MESH_CONTROL_INVALID_ARG, reconciler, state, out_progress)
  end.

Definition mesh_control_reconciler_poll_starts_v1 (reconciler : option mesh_control_reconciler)
    (state : option mesh_control_state) (start_budget now_ms : Z) (out_progress : option Z) :
    mesh_control_result * option mesh_control_reconciler * option mesh_control_state * option Z :=
  match reconciler, state, out_progress with
  | Some r, Some _, Some _ =>
      match rc_impl r with
      | None => (MESH_CONTROL_INVALID_ARG, reconciler, state, out_progress)
      | Some impl =>
          if start_budget =? 0 then (MESH_CONTROL_INVALID_ARG, reconciler, state, out_progress)
          else if ri_closed impl then (MESH_CONTROL_CLOSED, reconciler, state, Some 0)
          else
            let '(result, impl, state, progress) :=
              poll_starts (Z.to_nat start_budget) start_budget impl state now_ms 0 in
            (result, with_impl impl, state, Some progress)
      end
  | _, _, _ => (MESH_CONTROL_INVALID_ARG, reconciler, state, out_progress)
  end.

Definition mesh_control_reconciler_poll_shutdown_v1 (reconciler : option mesh_control_reconciler)
    (state : option mesh_control_state) (budget now_ms : Z) (out_progress : option Z) :
    mesh_control_result * option mesh_control_reconciler * option mesh_control_state * option Z :=
  match reconciler, state, out_progress with
  | Some r, Some _, Some _ =>
      match rc_impl r with
      | None => (MESH_CONTROL_INVALID_ARG, reconciler, state, out_progress)
      | Some impl =>
          if budget =? 0 then (MESH_CONTROL_INVALID_ARG, reconciler, state, out_progress)
          else if negb (ri_closed impl) then (MESH_CONTROL_INVALID_STATE, reconciler, state, Some 0)
          else
            let '(result, impl, state, progress) :=
              interrupt_after_provider_drain impl state now_ms budget 0 in
            (result, with_impl impl, state, Some progress)
      end
  | _, _, _ => (MESH_CONTROL_INVALID_ARG, reconciler, state, out_progress)
  end.

(** ** Shutdown *)

(** Close every provider from [index] on, [n] of them left. *)
Fixpoint close_loop (n index : nat) (impl : mesh_control_reconciler_impl) :
    mesh_control_reconciler_impl :=
  match n with
  | O => impl
  | S n' =>
      match call_provider impl (Z.of_nat index) close_op with
      | Some (_, impl) => close_loop n' (S index) impl
      | None => close_loop n' (S index) impl
      end
  end.

Definition mesh_control_reconciler_close_v1 (reconciler : option mesh_control_reconciler) :
    mesh_control_result * option mesh_control_reconciler :=
  match reconciler with
  | Some r =>
      match rc_impl r with
      | None => (MESH_CONTROL_INVALID_ARG, reconciler)
      | Some impl =>
          if ri_closed impl then (MESH_CONTROL_OK, reconciler)
          else (MESH_CONTROL_OK,
                with_impl (close_loop (Z.to_nat (ri_provider_count impl)) 0 (set_ri_closed true impl)))
      end
  | None => (MESH_CONTROL_INVALID_ARG, reconciler)
  end.

Definition mesh_control_reconciler_is_drained_v1 (reconciler : option mesh_control_reconciler) : bool :=
  match reconciler with
  | Some r =>
      match rc_impl r with
      | None => false
      | Some impl =>
          ri_closed impl && providers_are_drained impl &&
          negb (existsb re_occupied (ri_entries impl))
      end
  | None => false
  end.

Definition mesh_control_reconciler_get_stats_v1 (reconciler : option mesh_control_reconciler)
    (out_stats : option mesh_control_reconciler_stats) :
    mesh_control_result * option mesh_control_reconciler_stats :=
  match reconciler, out_stats with
  | Some r, Some _ =>
      match rc_impl r with
      | None => (MESH_CONTROL_INVALID_ARG, out_stats)
      | Some impl => (MESH_CONTROL_OK, Some (ri_stats impl))
      end
  | _, _ => (MESH_CONTROL_INVALID_ARG, out_stats)
  end.

(** The counters of the last loop are freed with the record; the contexts, which
    the caller owns, come second. *)
Definition mesh_control_reconciler_destroy_v1 (reconciler : option mesh_control_reconciler) :
    option mesh_control_reconciler * list mesh_control_provider :=
  match reconciler with
  | Some r =>
      match rc_impl r with
      | None => (reconciler, [])
      | Some impl =>
          match (mesh_control_reconciler_close_v1 reconciler).2 with
          | Some r => (Some (mk_reconciler None), deref [] (ri_providers <$> rc_impl r))
          | None => (Some (mk_reconciler None), [])
          end
      end
  | None => (reconciler, [])
  end.

(** ** Invariant *)

Definition queued_entry (e : reconcile_entry) : bool :=
  re_occupied e && (re_state e =? RECONCILE_ENTRY_QUEUED).
Definition inflight_entry (e : reconcile_entry) : bool :=
  re_occupied e && (re_state e =? RECONCILE_ENTRY_INFLIGHT).
(** In flight, or completed and not yet acknowledged: what [stats.inflight] counts. *)
Definition handed_entry (e : reconcile_entry) : bool :=
  re_occupied e && negb (re_state e =? RECONCILE_ENTRY_QUEUED).
Definition entry_resource (e : reconcile_entry) : Z * bytes :=
  (co_resource_kind (entry_operation e), co_resource_id (entry_operation e)).

Definition operation_typed (o : mesh_control_operation) : Prop :=
  bytes_ok 16 (co_operation_id o) ∧ bytes_ok 32 (co_resource_id o) ∧
  bytes_ok 32 (co_desired_digest o) ∧ u64 (co_desired_epoch o).
#[export] Instance operation_typed_dec o : Decision (operation_typed o).
Proof. unfold operation_typed. apply _. Defined.

(** An occupied entry, with [providers] providers and [next] the next sequence number. *)
Record entry_ok (providers next : Z) (e : reconcile_entry) : Prop := {
  eo_state : re_state e = RECONCILE_ENTRY_QUEUED ∨ re_state e = RECONCILE_ENTRY_INFLIGHT ∨
    re_state e = RECONCILE_ENTRY_COMPLETION_APPLIED;
  eo_provider : 0 <= re_provider_index e < providers;
  eo_sequence : 0 < re_enqueue_sequence e < next;
  eo_operation : operation_typed (entry_operation e) }.

Definition reconcile_slot_ok (providers next : Z) (e : reconcile_entry) : Prop :=
  if re_occupied e then entry_ok providers next e else e = zero_entry.

(** The table: unique operations, unique sequence numbers, and at most one
    operation in flight for each resource. *)
Record table_ok (providers next : Z) (l : list reconcile_entry) : Prop := {
  tk_entries : Forall (reconcile_slot_ok providers next) l;
  tk_ids : slots_unique re_occupied entry_id l;
  tk_sequences : slots_unique re_occupied re_enqueue_sequence l;
  tk_inflight : slots_unique inflight_entry entry_resource l }.

Record reconciler_ok (i : mesh_control_reconciler_impl) : Prop := {
  rk_providers : Z.of_nat (length (ri_providers i)) = ri_provider_count i;
  rk_count : 0 < ri_provider_count i <= 32;
  rk_capacity : Z.of_nat (length (ri_entries i)) = ri_capacity i ∧ ri_capacity i <= 4096;
  rk_cursor : 0 <= ri_completion_provider_cursor i < ri_provider_count i;
  rk_next : 0 < ri_next_enqueue_sequence i < 2 ^ 64;
  rk_table : table_ok (ri_provider_count i) (ri_next_enqueue_sequence i) (ri_entries i);
  rk_queued : rcs_queued (ri_stats i) = count_slots queued_entry (ri_entries i);
  rk_inflight : rcs_inflight (ri_stats i) = count_slots handed_entry (ri_entries i) }.

Lemma slot_ok_at providers next l k e : table_ok providers next l → l !! k = Some e →
  re_occupied e = true → entry_ok providers next e.
Proof.
  intros Ht Hk He. pose proof (Forall_lookup_1 _ _ _ _ (tk_entries _ _ _ Ht) Hk) as H.
  unfold reconcile_slot_ok in H. by rewrite He in H.
Qed.

Lemma table_put providers next next' l k x y : table_ok providers next l → l !! k = Some x →
  next <= next' → reconcile_slot_ok providers next' y →
  (re_occupied y = true → re_occupied x = true ∧ entry_id y = entry_id x ∨
     find_slot (slot_key re_occupied entry_id (entry_id y)) l = None) →
  (re_occupied y = true → re_occupied x = true ∧ re_enqueue_sequence y = re_enqueue_sequence x ∨
     next <= re_enqueue_sequence y) →
  (inflight_entry y = true → ∀ j e, l !! j = Some e → j ≠ k → inflight_entry e = true →
     entry_resource e ≠ entry_resource y) →
  table_ok providers next' (<[k:=y]> l).
Proof.
  intros [He Hi Hs Hf] Hk Hn Hy Hid Hsq Hfl. split.
  - apply Forall_insert; [|done]. eapply Forall_impl; [exact He|]. intros e.
    unfold reconcile_slot_ok. destruct (re_occupied e); [|done]. intros []. split; try done. lia.
  - destruct (re_occupied y) eqn:Ey; [|by eapply slots_unique_clear].
    destruct (Hid eq_refl) as [[Hx Hxy]|Hfree]; [by eapply slots_unique_update|].
    by eapply slots_unique_fresh.
  - destruct (re_occupied y) eqn:Ey; [|by eapply slots_unique_clear].
    destruct (Hsq eq_refl) as [[Hx Hxy]|Hfree]; [by eapply slots_unique_update|].
    eapply slots_unique_fresh; [done..|]. apply find_slot_None. intros j e Hj.
    apply not_true_iff_false. intros [Heo Hes]%slot_key_true.
    pose proof (Forall_lookup_1 _ _ _ _ He Hj) as Hej. unfold reconcile_slot_ok in Hej.
    rewrite Heo in Hej. destruct Hej. lia.
  - destruct (inflight_entry y) eqn:Ey; [|by eapply slots_unique_clear].
    eapply slots_unique_insert; [done..|]. intros _ j e Hj Hej Hr.
    destruct (decide (j = k)); [done|]. exfalso. by eapply Hfl.
Qed.

(** ** Lookups *)

Lemma find_reconcile_key i id : reconciler_ok i → length id = 16%nat →
  find_reconcile_entry i id = find_slot (slot_key re_occupied entry_id id) (ri_entries i).
Proof.
  intros Hi Hl. apply find_slot_ext. intros e He. unfold slot_key.
  destruct (re_occupied e) eqn:Eo; [|done]. cbn [andb].
  apply list_elem_of_lookup in He as [k Hk].
  destruct (slot_ok_at _ _ _ _ _ (rk_table _ Hi) Hk Eo) as [_ _ _ [[Hid _] _]].
  by apply memeq_spec.
Qed.

Lemma find_entry_at i id k e : find_reconcile_entry i id = Some (k, e) →
  ri_entries i !! k = Some e ∧ re_occupied e = true.
Proof. intros H. apply find_slot_Some in H as [Hk H]. by apply andb_true_iff in H as [H _]. Qed.

Lemma same_resource_spec providers next l j k x y : table_ok providers next l →
  l !! j = Some x → l !! k = Some y → re_occupied x = true → re_occupied y = true →
  same_entry_resource x y = bool_decide (entry_resource x = entry_resource y).
Proof.
  intros Ht Hj Hk Hx Hy. unfold same_entry_resource, entry_resource.
  destruct (slot_ok_at _ _ _ _ _ Ht Hj Hx) as [_ _ _ (_ & [Hlx _] & _)].
  destruct (slot_ok_at _ _ _ _ _ Ht Hk Hy) as [_ _ _ (_ & [Hly _] & _)].
  rewrite memeq_spec by done. apply eq_bool_prop_intro.
  rewrite !Is_true_true, andb_true_iff, Z.eqb_eq, !bool_decide_eq_true. split; [intros [-> ->]|intros [= -> ->]]; done.
Qed.

Lemma inflight_loop_false l : ∀ index k c, inflight_loop l index k c = false →
  ∀ j e, l !! j = Some e → (index + j)%nat ≠ k → inflight_entry e = true → same_entry_resource e c = false.
Proof.
  induction l as [|x l IH]; intros index k c H j e Hj Hne He; [done|]. cbn [inflight_loop] in H.
  destruct (_ && _) eqn:E in H; [done|]. destruct j as [|j].
  - injection Hj as ->. rewrite Nat.add_0_r in Hne. apply Nat.eqb_neq in Hne. rewrite Hne in E.
    unfold inflight_entry in He. cbn [negb andb] in E. by rewrite He in E.
  - eapply IH; [exact H|exact Hj| |done]. lia.
Qed.

(** What [next_queued] selects: an entry that may start, the oldest of them. *)
Definition startable (i : mesh_control_reconciler_impl) (k : nat) (e : reconcile_entry) : Prop :=
  queued_entry e = true ∧ resource_has_inflight i k e = false.

Lemma queued_loop_spec i l : ∀ index sel,
  (∀ j e, l !! j = Some e → ri_entries i !! (index + j)%nat = Some e) →
  match queued_loop i l index sel with
  | None => sel = None ∧ ∀ j e, l !! j = Some e → ¬ startable i (index + j) e
  | Some (k, e) =>
      (sel = Some (k, e) ∨ ri_entries i !! k = Some e ∧ startable i k e) ∧
      (∀ j e', l !! j = Some e' → startable i (index + j) e' →
         re_enqueue_sequence e <= re_enqueue_sequence e') ∧
      match sel with Some (_, s) => re_enqueue_sequence e <= re_enqueue_sequence s | None => True end
  end.
Proof.
  induction l as [|x l IH]; intros index sel Hl; cbn [queued_loop].
  { destruct sel as [[k e]|]; [|by split]. split_and!; [by left|done|lia]. }
  assert (Hl' : ∀ j e, l !! j = Some e → ri_entries i !! (S index + j)%nat = Some e).
  { intros j e Hj. rewrite <- (Hl (S j) e Hj). f_equal. lia. }
  destruct (negb (re_occupied x) || _ || _) eqn:E.
  - assert (Hx : ¬ startable i index x).
    { intros [Hq Hr]. unfold queued_entry in Hq. apply andb_true_iff in Hq as [Ho Hq].
      by rewrite Ho, Hq, Hr in E. }
    specialize (IH (S index) sel Hl'). destruct (queued_loop i l (S index) sel) as [[k e]|].
    + destruct IH as (IH1 & IH2 & IH3). split_and!; try done. intros [|j] e' Hj Hst.
      * injection Hj as <-. by rewrite Nat.add_0_r in Hst.
      * apply (IH2 j e' Hj). by replace (S index + j)%nat with (index + S j)%nat by lia.
    + destruct IH as [IH1 IH2]. split; [done|]. intros [|j] e' Hj.
      * injection Hj as <-. by rewrite Nat.add_0_r.
      * replace (index + S j)%nat with (S index + j)%nat by lia. by apply IH2.
  - assert (Hx : startable i index x).
    { unfold startable, queued_entry. bool_prop. split_and!; try done. by rewrite andb_true_iff, Z.eqb_eq. }
    assert (Hxi : ri_entries i !! index = Some x).
    { rewrite <- (Hl 0%nat x eq_refl). f_equal. lia. }
    set (sel' := match sel with None => _ | Some _ => _ end).
    specialize (IH (S index) sel' Hl').
    assert (Hsel : ∃ k0 s0, sel' = Some (k0, s0) ∧ re_enqueue_sequence s0 <= re_enqueue_sequence x ∧
      (sel = Some (k0, s0) ∨ k0 = index ∧ s0 = x) ∧
      match sel with Some (_, s) => re_enqueue_sequence s0 <= re_enqueue_sequence s | None => True end).
    { subst sel'. destruct sel as [[k0 s0]|]; [|exists index, x; split_and!; auto; lia].
      destruct (Z.ltb_spec (re_enqueue_sequence x) (re_enqueue_sequence s0));
        [exists index, x|exists k0, s0]; split_and!; auto; lia. }
    destruct Hsel as (k0 & s0 & -> & Hle & Hfrom & Hselle).
    destruct (queued_loop i l (S index) (Some (k0, s0))) as [[k e]|]; [|by destruct IH].
    destruct IH as (IH1 & IH2 & IH3). split_and!.
    + destruct IH1 as [[= <- <-]|]; [|by right]. destruct Hfrom as [|[-> ->]]; [by left|by right].
    + intros [|j] e' Hj Hst; [injection Hj as <-; lia|]. apply (IH2 j e' Hj).
      by replace (S index + j)%nat with (index + S j)%nat by lia.
    + destruct sel as [[? ?]|]; [lia|done].
Qed.

Lemma next_queued_spec i k e : next_queued i = Some (k, e) →
  ri_entries i !! k = Some e ∧ startable i k e ∧
  ∀ j e', ri_entries i !! j = Some e' → startable i j e' →
    re_enqueue_sequence e <= re_enqueue_sequence e'.
Proof.
  intros H. pose proof (queued_loop_spec i (ri_entries i) 0 None ltac:(done)) as Hs.
  unfold next_queued in H. rewrite H in Hs. destruct Hs as ([|[Hk Hst]] & Hmin & _); [done|].
  split; [done|]. split; [done|]. exact Hmin.
Qed.

(** ** Steps *)

(** Calls that leave the table alone. *)
Record same_table (i i' : mesh_control_reconciler_impl) : Prop := {
  sa_providers : length (ri_providers i') = length (ri_providers i);
  sa_count : ri_provider_count i' = ri_provider_count i;
  sa_entries : ri_entries i' = ri_entries i;
  sa_capacity : ri_capacity i' = ri_capacity i;
  sa_cursor : 0 <= ri_completion_provider_cursor i' < ri_provider_count i;
  sa_next : ri_next_enqueue_sequence i' = ri_next_enqueue_sequence i;
  sa_stats : rcs_queued (ri_stats i') = rcs_queued (ri_stats i) ∧
    rcs_inflight (ri_stats i') = rcs_inflight (ri_stats i) }.

Lemma same_table_ok i i' : reconciler_ok i → same_table i i' → reconciler_ok i'.
Proof.
  intros [] [H1 H2 H3 H4 H5 H6 [H7 H8]].
  split; rewrite ?H1, ?H2, ?H3, ?H4, ?H6, ?H7, ?H8; done.
Qed.

Lemma same_table_refl i : reconciler_ok i → same_table i i.
Proof. intros []. by split. Qed.

Lemma call_frame {A} i index (f : mesh_control_provider_ops → option (C → A * C)) a i' :
  call_provider i index f = Some (a, i') →
  ∃ l, i' = set_ri_providers l i ∧ length l = length (ri_providers i).
Proof.
  unfold call_provider. destruct (ri_providers i !! _) as [p|]; [|done].
  destruct (f (pv_ops p)) as [g|]; [|done]. destruct (g (pv_context p)) as [a' c']. intros [= <- <-].
  eexists. split; [done|]. by rewrite length_insert.
Qed.

(** Writing the slot [k]: [i'] has the new entry, sequence number and counters. *)
Lemma put_ok i i' k x y : reconciler_ok i → ri_entries i !! k = Some x →
  ri_entries i' = <[k:=y]> (ri_entries i) →
  length (ri_providers i') = length (ri_providers i) → ri_provider_count i' = ri_provider_count i →
  ri_capacity i' = ri_capacity i →
  ri_completion_provider_cursor i' = ri_completion_provider_cursor i →
  ri_next_enqueue_sequence i <= ri_next_enqueue_sequence i' < 2 ^ 64 →
  reconcile_slot_ok (ri_provider_count i) (ri_next_enqueue_sequence i') y →
  (re_occupied y = true → re_occupied x = true ∧ entry_id y = entry_id x ∨
     find_slot (slot_key re_occupied entry_id (entry_id y)) (ri_entries i) = None) →
  (re_occupied y = true → re_occupied x = true ∧ re_enqueue_sequence y = re_enqueue_sequence x ∨
     ri_next_enqueue_sequence i <= re_enqueue_sequence y) →
  (inflight_entry y = true → ∀ j e, ri_entries i !! j = Some e → j ≠ k → inflight_entry e = true →
     entry_resource e ≠ entry_resource y) →
  rcs_queued (ri_stats i') = rcs_queued (ri_stats i) - (if queued_entry x then 1 else 0) +
    (if queued_entry y then 1 else 0) →
  rcs_inflight (ri_stats i') = rcs_inflight (ri_stats i) - (if handed_entry x then 1 else 0) +
    (if handed_entry y then 1 else 0) →
  reconciler_ok i'.
Proof.
  intros [] Hk He Hp Hc Hcap Hcur Hn Hy Hid Hsq Hfl Hq Hf.
  split; rewrite ?Hp, ?Hc, ?He, ?Hcap, ?Hcur, ?length_insert; try done; [lia|eapply table_put; [done|done|lia|done..]| |].
  - rewrite (count_slots_insert queued_entry _ _ x) by done. lia.
  - rewrite (count_slots_insert handed_entry _ _ x) by done. lia.
Qed.

(** The counters are exact, so that no step overflows them. *)
Lemma stats_bounds i : reconciler_ok i →
  0 <= rcs_queued (ri_stats i) <= 4096 ∧ 0 <= rcs_inflight (ri_stats i) <= 4096.
Proof.
  intros []. pose proof (count_slots_bounds queued_entry (ri_entries i)).
  pose proof (count_slots_bounds handed_entry (ri_entries i)). lia.
Qed.
Lemma stats_positive i k x : reconciler_ok i → ri_entries i !! k = Some x →
  (queued_entry x = true → 0 < rcs_queued (ri_stats i)) ∧
  (handed_entry x = true → 0 < rcs_inflight (ri_stats i)).
Proof.
  intros Hi Hk. destruct (stats_bounds i Hi) as [Hq Hf]. destruct Hi. split; intros Hx.
  - destruct (Z.eq_dec (rcs_queued (ri_stats i)) 0) as [E|]; [|lia].
    rewrite rk_queued0 in E. by rewrite (count_slots_zero _ _ _ _ E Hk) in Hx.
  - destruct (Z.eq_dec (rcs_inflight (ri_stats i)) 0) as [E|]; [|lia].
    rewrite rk_inflight0 in E. by rewrite (count_slots_zero _ _ _ _ E Hk) in Hx.
Qed.

(** The control state is well formed. *)
Definition state_ok (st : option mesh_control_state) : Prop := ∃ s, st = holds s ∧ impl_ok s.

Lemma transition_state st id next now : state_ok st → length id = 16%nat → u64 now →
  ∃ r st', mesh_control_state_transition_operation_v1 st (Some id) next now = (r, st') ∧ state_ok st'.
Proof.
  intros (s & -> & Hs) Hid Hnow.
  destruct (exec_step (CmdTransition id next now) s Hs) as (r & s' & He & Hst); [done|].
  exists r, (holds s'). split; [exact He|]. exists s'. split; [done|].
  by eapply step_ok; [exact Hs| |exact Hst].
Qed.

Lemma observe_state st kind id epoch presence digest now : state_ok st → bytes_ok 32 id →
  bytes_ok 32 digest → u64 epoch → u64 now →
  ∃ r st', mesh_control_state_observe_v1 st kind (Some id) epoch presence (Some digest) now = (r, st') ∧
    state_ok st'.
Proof.
  intros (s & -> & Hs) Hid Hd He Hnow.
  destruct (exec_step (CmdObserve kind id epoch presence digest now) s Hs) as (r & s' & Hx & Hst);
    [done|].
  exists r, (holds s'). split; [exact Hx|]. exists s'. split; [done|].
  by eapply step_ok; [exact Hs| |exact Hst].
Qed.

Lemma enqueue_ok i o document size : reconciler_ok i → operation_typed o →
  ∃ r i', mesh_control_reconciler_enqueue_v1 (with_impl i) (Some o) document size = (r, with_impl i') ∧
    reconciler_ok i'.
Proof.
  intros Hi Ho. assert (Hsame : ∀ r : mesh_control_result, ∃ r' i',
    (r, with_impl i) = (r', with_impl i') ∧ reconciler_ok i') by eauto.
  unfold mesh_control_reconciler_enqueue_v1. cbn [with_impl rc_impl]. fold (with_impl i).
  destruct (_ || _) eqn:E1; [apply Hsame|]. clear E1.
  destruct (mesh_control_function_document_decode_v1 _ _ _) as [rd [spec|]]; [|destruct rd; apply Hsame].
  destruct rd; try apply Hsame. repeat (destruct (_ : bool); [apply Hsame|]).
  destruct (find_provider _ _ _) as [[pi p]|] eqn:Ep; [|apply Hsame].
  destruct (find_reconcile_entry i (co_operation_id o)) as [[k e]|] eqn:Ee.
  { destruct (bool_decide _); apply Hsame. }
  destruct (Z.eqb_spec (ri_next_enqueue_sequence i) UINT64_MAX) as [|Hn]; [apply Hsame|].
  destruct (find_slot _ (ri_entries i)) as [[k x]|] eqn:Ek; [|apply Hsame].
  apply find_slot_Some in Ek as [Hk Hx]. apply negb_true_iff in Hx.
  rewrite find_reconcile_key in Ee by (done || apply Ho).
  pose proof (stats_bounds i Hi) as [Hq _]. pose proof (rk_next _ Hi). unfold UINT64_MAX in *.
  apply find_slot_Some in Ep as [Hp _]. apply lookup_lt_Some in Hp. rewrite length_take in Hp.
  eexists _, _. split; [done|].
  set (y := mk_entry true RECONCILE_ENTRY_QUEUED (Z.of_nat pi) 0 (ri_next_enqueue_sequence i)
    (mk_provider_request o spec)).
  eapply (put_ok i _ k x y Hi Hk); cbn; rewrite ?wrap_small by (unfold uint; lia); try done; try lia.
  - split; cbn; try done; [by left|lia|lia].
  - intros _. by right.
  - unfold queued_entry. rewrite Hx. cbn. lia.
  - unfold handed_entry. rewrite Hx. cbn. lia.
Qed.

Lemma prepare_loop_ok n : ∀ i, reconciler_ok i →
  ∃ r i' p, prepare_loop n i = (r, i', p) ∧ same_table i i'.
Proof.
  induction n as [|n IH]; intros i Hi; cbn [prepare_loop].
  { eexists _, _, _. split; [done|]. by apply same_table_refl. }
  set (i0 := set_ri_cursor _ i). pose proof (rk_count _ Hi) as Hc.
  pose proof (Z.mod_pos_bound (ri_completion_provider_cursor i + 1) (ri_provider_count i)) as Hmod.
  assert (H0 : ∀ l, length l = length (ri_providers i) → same_table i (set_ri_providers l i0)).
  { intros l Hl. split; cbn; try done. lia. }
  destruct (call_provider i0 _ _) as [[[r c] i1]|] eqn:Ec.
  2: { eexists _, _, _. split; [done|]. by apply (H0 (ri_providers i)). }
  apply call_frame in Ec as (l & -> & Hl). specialize (H0 l Hl).
  assert (Hrej : ∀ (r' : mesh_control_result) (p : mesh_control_reconciler_prepared_completion),
    ∃ r0 i' p0, (r', count_stats rcs_count_rejected (set_ri_providers l i0), p) = (r0, i', p0) ∧
    same_table i i').
  { intros r' p. eexists _, _, _. split; [done|]. by destruct H0. }
  destruct r; try apply Hrej.
  - destruct (find_reconcile_entry _ _) as [[k e]|]; [|apply Hrej].
    destruct (_ || _); [apply Hrej|]. eexists _, _, _. split; [done|]. by destruct H0.
  - destruct (IH (set_ri_providers l i0)) as (r & i' & p & -> & Hs).
    { by eapply same_table_ok. }
    eexists _, _, _. split; [done|]. destruct H0, Hs. destruct sa_stats0, sa_stats1.
    split; try congruence; lia.
Qed.

Lemma prepare_ok i : reconciler_ok i → ∃ r i' p, prepare_impl i = (r, i', p) ∧ same_table i i'.
Proof.
  intros Hi. unfold prepare_impl. destruct (ri_completion_prepared i); [|by apply prepare_loop_ok].
  destruct (find_reconcile_entry _ _) as [[k e]|]; eexists _, _, _; (split; [done|]);
    by apply same_table_refl.
Qed.

(** A completion is applied, or the entry stays as it is. *)
Lemma apply_completion_ok e c st now providers next : state_ok st → u64 now →
  entry_ok providers next e →
  ∃ r e' st', apply_completion e c st now = (r, e', st') ∧ state_ok st' ∧
    (e' = e ∨ e' = set_re_state RECONCILE_ENTRY_COMPLETION_APPLIED (set_re_completion (pc_state c) e)).
Proof.
  intros Hst Hnow [_ _ _ (Hid & Hrid & Hdg & Hep)]. unfold apply_completion.
  destruct (_ || _); [by eauto 10|]. destruct (pc_state c =? _).
  - destruct (observe_state st (co_resource_kind (entry_operation e)) (co_resource_id (entry_operation e))
      (co_desired_epoch (entry_operation e))
      (if co_action (entry_operation e) =? MESH_CONTROL_DESIRED_APPLY
       then MESH_CONTROL_PRESENCE_PRESENT else MESH_CONTROL_PRESENCE_ABSENT)
      (if co_action (entry_operation e) =? MESH_CONTROL_DESIRED_APPLY
       then co_desired_digest (entry_operation e) else zeros 32) now Hst Hrid) as (r & st1 & -> & Hst1);
      [destruct (_ =? _); auto with mesh|done|done|].
    destruct r; try by eauto 10.
    destruct (transition_state st1 (co_operation_id (entry_operation e)) MESH_CONTROL_OPERATION_SUCCEEDED
      now Hst1) as (r & st2 & -> & Hst2); [apply Hid|done|]. destruct r; by eauto 10.
  - destruct (transition_state st (co_operation_id (entry_operation e)) MESH_CONTROL_OPERATION_FAILED
      now Hst) as (r & st2 & -> & Hst2); [apply Hid|done|]. destruct r; by eauto 10.
Qed.

Lemma apply_ok i st now : reconciler_ok i → state_ok st → u64 now →
  ∃ r i' st', apply_impl i st now = (r, i', st') ∧ reconciler_ok i' ∧ state_ok st'.
Proof.
  intros Hi Hst Hnow. unfold apply_impl. destruct (_ || _); [by eauto 10|].
  destruct (find_reconcile_entry _ _) as [[k e]|] eqn:Ee; [|by eauto 10].
  apply find_entry_at in Ee as [Hk Ho]. destruct (negb _); [by eauto 10|].
  destruct (Z.eqb_spec (re_state e) RECONCILE_ENTRY_INFLIGHT) as [Es|];
    [|destruct (_ || _); by eauto 10].
  pose proof (slot_ok_at _ _ _ _ _ (rk_table _ Hi) Hk Ho) as He.
  destruct (apply_completion_ok e (ri_prepared_completion i) st now _ _ Hst Hnow He)
    as (r & e' & st' & -> & Hst' & He').
  eexists _, _, _. split; [done|]. split; [|done].
  assert (Hq : queued_entry e = false ∧ handed_entry e = true ∧ inflight_entry e = true).
  { unfold queued_entry, handed_entry, inflight_entry. by rewrite Ho, Es. }
  destruct Hq as (Hq1 & Hq2 & Hq3). pose proof (rk_next _ Hi).
  eapply (put_ok i _ k e e' Hi Hk); cbn; try done; try lia; destruct He' as [-> | ->]; auto.
  - unfold reconcile_slot_ok. by rewrite Ho.
  - unfold reconcile_slot_ok. cbn. rewrite Ho. destruct He. split; cbn; auto.
  - intros _ j x Hj Hne Hx Hr. apply Hne. by eapply (tk_inflight _ _ _ (rk_table _ Hi)).
  - cbn. unfold inflight_entry. cbn. by rewrite andb_false_r.
  - lia.
  - unfold queued_entry at 2. cbn. rewrite andb_false_r, Hq1. lia.
  - lia.
  - unfold handed_entry at 2. cbn. rewrite Ho, Hq2. cbn. lia.
Qed.

(** Emptying a slot, with its counter. *)
Lemma clear_ok i i' k x : reconciler_ok i → ri_entries i !! k = Some x → re_occupied x = true →
  ri_entries i' = <[k:=zero_entry]> (ri_entries i) →
  length (ri_providers i') = length (ri_providers i) → ri_provider_count i' = ri_provider_count i →
  ri_capacity i' = ri_capacity i →
  ri_completion_provider_cursor i' = ri_completion_provider_cursor i →
  ri_next_enqueue_sequence i' = ri_next_enqueue_sequence i →
  (if queued_entry x
   then rcs_queued (ri_stats i') = wrap 64 (rcs_queued (ri_stats i) + -1) ∧
     rcs_inflight (ri_stats i') = rcs_inflight (ri_stats i)
   else rcs_queued (ri_stats i') = rcs_queued (ri_stats i) ∧
     rcs_inflight (ri_stats i') = wrap 64 (rcs_inflight (ri_stats i) + -1)) →
  reconciler_ok i'.
Proof.
  intros Hi Hk Ho He Hp Hc Hcap Hcur Hn Hs. pose proof (rk_next _ Hi).
  destruct (stats_bounds i Hi) as [Hq Hf]. destruct (stats_positive i k x Hi Hk) as [Hqp Hfp].
  assert (Hh : handed_entry x = negb (queued_entry x)).
  { unfold handed_entry, queued_entry. by rewrite Ho. }
  eapply (put_ok i i' k x zero_entry); try done; try lia;
    rewrite ?Hh in *; destruct (queued_entry x); cbn in *; destruct Hs as [Hs1 Hs2];
    rewrite ?Hs1, ?Hs2, ?wrap_small
      by (unfold uint; specialize (Hqp eq_refl) || specialize (Hfp eq_refl); lia); lia.
Qed.

Lemma ack_ok i : reconciler_ok i → ∃ r i', ack_impl i = (r, i') ∧ reconciler_ok i'.
Proof.
  intros Hi. unfold ack_impl. destruct (_ || _); [by eauto|].
  destruct (find_reconcile_entry _ _) as [[k e]|] eqn:Ee; [|by eauto].
  apply find_entry_at in Ee as [Hk Ho]. destruct (_ || _) eqn:E; [by eauto|]. bool_prop.
  destruct (call_provider i _ _) as [[r i1]|] eqn:Ec; [|by eauto].
  apply call_frame in Ec as (l & -> & Hl).
  assert (Hrej : ∀ r0 : mesh_control_result, ∃ r1 i', (r0, count_stats rcs_count_rejected (set_ri_providers l i)) =
    (r1, i') ∧ reconciler_ok i').
  { intros r0. eexists _, _. split; [done|]. eapply same_table_ok; [exact Hi|].
    split; cbn; try done. apply (rk_cursor _ Hi). }
  destruct r; try apply Hrej. eexists _, _. split; [done|].
  eapply (clear_ok i _ k e Hi Hk Ho); cbn; try done; try (by destruct (_ =? _)).
  assert (Hq : queued_entry e = false).
  { unfold queued_entry. rewrite Ho. by replace (re_state e) with RECONCILE_ENTRY_COMPLETION_APPLIED. }
  rewrite Hq. by destruct (re_completion_state e =? _).
Qed.

Lemma prepare_call_ok i out : reconciler_ok i → ∃ r i' p,
  mesh_control_reconciler_prepare_completion_v1 (with_impl i) (Some out) = (r, with_impl i', Some p) ∧
  reconciler_ok i'.
Proof.
  intros Hi. destruct (prepare_ok i Hi) as (r & i' & p & E & Hs).
  exists r, i', p. cbn. rewrite E. split; [done|]. by eapply same_table_ok.
Qed.

Lemma apply_call_ok i st now : reconciler_ok i → state_ok st → u64 now → ∃ r i' st',
  mesh_control_reconciler_apply_completion_v1 (with_impl i) st now = (r, with_impl i', st') ∧
  reconciler_ok i' ∧ state_ok st'.
Proof.
  intros Hi Hst Hnow. destruct (apply_ok i st now Hi Hst Hnow) as (r & i' & st' & E & Hi' & Hst').
  exists r, i', st'. cbn. destruct Hst as (s & -> & _). change (non_null (holds s)) with true.
  cbn [negb]. by rewrite E.
Qed.

Lemma commit_call_ok i st now : reconciler_ok i → state_ok st → u64 now → ∃ r i' st',
  mesh_control_reconciler_commit_completion_v1 (with_impl i) st now = (r, with_impl i', st') ∧
  reconciler_ok i' ∧ state_ok st'.
Proof.
  intros Hi Hst Hnow. unfold mesh_control_reconciler_commit_completion_v1.
  destruct (apply_call_ok i st now Hi Hst Hnow) as (r & i' & st' & -> & Hi' & Hst').
  destruct (ack_ok i' Hi') as (r2 & i2 & E & Hi2).
  destruct r; try (by eauto 10). cbn. rewrite E. by eauto 10.
Qed.

Lemma poll_completions_ok n : ∀ i st now progress, reconciler_ok i → state_ok st → u64 now →
  ∃ r i' st' q, poll_completions n (with_impl i) st now progress = (r, with_impl i', st', q) ∧
  reconciler_ok i' ∧ state_ok st'.
Proof.
  induction n as [|n IH]; intros i st now progress Hi Hst Hnow; cbn [poll_completions]; [by eauto 10|].
  destruct (prepare_call_ok i zero_prepared_completion Hi) as (r & i1 & p & -> & Hi1).
  destruct r; try (by eauto 10).
  destruct (commit_call_ok i1 st now Hi1 Hst Hnow) as (r & i2 & st2 & -> & Hi2 & Hst2).
  destruct r; by eauto 10.
Qed.

(** Requeueing and starting the selected entry. *)
Lemma requeue_ok i k e : reconciler_ok i → ri_entries i !! k = Some e → re_occupied e = true →
  ri_next_enqueue_sequence i ≠ UINT64_MAX →
  reconciler_ok (i |> put_reconcile_entry k (set_re_sequence (ri_next_enqueue_sequence i) e)
                   |> set_ri_sequence (wrap 64 (ri_next_enqueue_sequence i + 1))).
Proof.
  intros Hi Hk Ho Hn. pose proof (rk_next _ Hi) as Hnx. unfold UINT64_MAX in Hn.
  rewrite wrap_small by (unfold uint; lia).
  pose proof (slot_ok_at _ _ _ _ _ (rk_table _ Hi) Hk Ho) as [].
  eapply (put_ok i _ k e _ Hi Hk); cbn; try done; try lia.
  - unfold reconcile_slot_ok. cbn. rewrite Ho. split; cbn; try done. lia.
  - auto.
  - intros _. by right.
  - intros Hf j x Hj Hne Hx Hr. apply Hne. by eapply (tk_inflight _ _ _ (rk_table _ Hi)).
  - unfold queued_entry. cbn. lia.
  - unfold handed_entry. cbn. lia.
Qed.

Lemma start_ok i k e i' : reconciler_ok i → ri_entries i !! k = Some e → startable i k e →
  ri_entries i' = <[k:=set_re_state RECONCILE_ENTRY_INFLIGHT e]> (ri_entries i) →
  length (ri_providers i') = length (ri_providers i) → ri_provider_count i' = ri_provider_count i →
  ri_capacity i' = ri_capacity i →
  ri_completion_provider_cursor i' = ri_completion_provider_cursor i →
  ri_next_enqueue_sequence i' = ri_next_enqueue_sequence i →
  rcs_queued (ri_stats i') = wrap 64 (rcs_queued (ri_stats i) + -1) →
  rcs_inflight (ri_stats i') = wrap 64 (rcs_inflight (ri_stats i) + 1) →
  reconciler_ok i'.
Proof.
  intros Hi Hk [Hq Hr] He Hp Hc Hcap Hcur Hn Hs1 Hs2. pose proof (rk_next _ Hi).
  destruct (stats_bounds i Hi) as [Hqb Hfb]. destruct (stats_positive i k e Hi Hk) as [Hqp _].
  specialize (Hqp Hq). pose proof Hq as Hq0. unfold queued_entry in Hq.
  apply andb_true_iff in Hq as [Ho Hst].
  pose proof (slot_ok_at _ _ _ _ _ (rk_table _ Hi) Hk Ho) as [].
  eapply (put_ok i i' k e _ Hi Hk He); try done; try lia.
  - unfold reconcile_slot_ok. cbn. rewrite Ho, Hn. split; cbn; auto.
  - auto.
  - auto.
  - intros _ j x Hj Hne Hx.
    pose proof (inflight_loop_false _ _ _ _ Hr j x Hj Hne Hx) as Hsame.
    assert (Hxo : re_occupied x = true) by (unfold inflight_entry in Hx; by destruct (re_occupied x)).
    rewrite (same_resource_spec _ _ _ _ _ _ _ (rk_table _ Hi) Hj Hk Hxo Ho) in Hsame.
    by apply bool_decide_eq_false in Hsame.
  - rewrite Hs1, Hq0. unfold queued_entry. cbn. rewrite andb_false_r.
    rewrite wrap_small by (unfold uint; lia). lia.
  - rewrite Hs2. unfold handed_entry. cbn. rewrite Ho, Hst. cbn.
    rewrite wrap_small by (unfold uint; lia). lia.
Qed.

Lemma entry_id_length i k e : reconciler_ok i → ri_entries i !! k = Some e → re_occupied e = true →
  length (entry_id e) = 16%nat.
Proof. intros Hi Hk Ho. by destruct (slot_ok_at _ _ _ _ _ (rk_table _ Hi) Hk Ho) as [_ _ _ [[? _] _]]. Qed.

Lemma poll_starts_ok n : ∀ budget i st now progress, reconciler_ok i → state_ok st → u64 now →
  ∃ r i' st' q, poll_starts n budget i st now progress = (r, i', st', q) ∧ reconciler_ok i' ∧ state_ok st'.
Proof.
  induction n as [|n IH]; intros budget i st now progress Hi Hst Hnow; cbn [poll_starts]; [by eauto 10|].
  destruct (budget <=? progress); [by eauto 10|].
  destruct (next_queued i) as [[k e]|] eqn:En; [|by eauto 10].
  apply next_queued_spec in En as (Hk & Hs & _).
  assert (Ho : re_occupied e = true).
  { destruct Hs as [Hq _]. unfold queued_entry in Hq. by destruct (re_occupied e). }
  pose proof (entry_id_length i k e Hi Hk Ho) as Hid.
  destruct (call_provider i _ _) as [[r i1]|] eqn:Ec; [|by eauto 10].
  apply call_frame in Ec as (l & -> & Hl).
  assert (Hi1 : reconciler_ok (set_ri_providers l i)).
  { eapply same_table_ok; [exact Hi|]. split; cbn; try done. apply (rk_cursor _ Hi). }
  assert (Hfail : ∀ st' : option mesh_control_state, state_ok st' → ∃ r' i' st2 q,
    poll_starts n budget
      (set_ri_providers l i |> count_stats (rcs_add_queued (-1)) |> count_stats rcs_count_failed
         |> put_reconcile_entry k zero_entry) st' now (progress + 1) = (r', i', st2, q) ∧
    reconciler_ok i' ∧ state_ok st2).
  { intros st' Hst'. apply IH; try done. eapply (clear_ok _ _ k e Hi1 Hk Ho); cbn; try done.
    destruct Hs as [-> _]. done. }
  destruct (transition_state st (entry_id e) MESH_CONTROL_OPERATION_FAILED now Hst Hid Hnow)
    as (rf & stf & Ef & Hstf).
  destruct (transition_state st (entry_id e) MESH_CONTROL_OPERATION_RUNNING now Hst Hid Hnow)
    as (rr & str & Er & Hstr).
  destruct r; rewrite ?Ef, ?Er; try (destruct rf; by eauto 10).
  - destruct rr; try (by eauto 10). apply IH; try done. by eapply (start_ok i k e).
  - cbn [count_stats set_ri_stats ri_next_enqueue_sequence set_ri_providers].
    destruct (Z.eqb_spec (ri_next_enqueue_sequence i) UINT64_MAX) as [|Hn].
    + eexists _, _, _, _. split; [done|]. split; [|done]. eapply same_table_ok; [exact Hi1|].
      split; cbn; try done. apply (rk_cursor _ Hi).
    + apply IH; try done.
      apply (requeue_ok (count_stats rcs_count_backpressure (set_ri_providers l i)) k e); try done.
      eapply same_table_ok; [exact Hi1|]. split; cbn; try done. apply (rk_cursor _ Hi).
Qed.

Lemma interrupt_loop_ok n : ∀ index i st now budget progress, reconciler_ok i → state_ok st → u64 now →
  ∃ r i' st' q, interrupt_loop n index i st now budget progress = (r, i', st', q) ∧
    reconciler_ok i' ∧ state_ok st'.
Proof.
  induction n as [|n IH]; intros index i st now budget progress Hi Hst Hnow; cbn [interrupt_loop];
    [by eauto 10|].
  destruct (budget <=? progress); [by eauto 10|].
  destruct (ri_entries i !! index) as [e|] eqn:Hk; [|by eauto 10].
  destruct (re_occupied e) eqn:Ho; cbn [negb]; [|by apply IH].
  pose proof (entry_id_length i index e Hi Hk Ho) as Hid.
  destruct (transition_state st (entry_id e) MESH_CONTROL_OPERATION_INTERRUPTED now Hst Hid Hnow)
    as (r & st' & -> & Hst'). destruct r; try (by eauto 10).
  apply IH; try done. eapply (clear_ok i _ index e Hi Hk Ho); cbn; try done;
    try (by destruct (re_state e =? _)).
  unfold queued_entry. rewrite Ho. by destruct (re_state e =? _).
Qed.

Lemma interrupt_ok i st now budget progress : reconciler_ok i → state_ok st → u64 now →
  ∃ r i' st' q, interrupt_after_provider_drain i st now budget progress = (r, i', st', q) ∧
    reconciler_ok i' ∧ state_ok st'.
Proof.
  intros. unfold interrupt_after_provider_drain. destruct (_ || _); [by eauto 10|].
  by apply interrupt_loop_ok.
Qed.

Lemma close_loop_ok n : ∀ index i, reconciler_ok i → reconciler_ok (close_loop n index i).
Proof.
  induction n as [|n IH]; intros index i Hi; cbn [close_loop]; [done|].
  destruct (call_provider i _ _) as [[[] i1]|] eqn:Ec; [|by apply IH].
  apply call_frame in Ec as (l & -> & Hl). apply IH. eapply same_table_ok; [exact Hi|].
  split; cbn; try done. apply (rk_cursor _ Hi).
Qed.

(** ** Sequences of calls *)

Inductive reconcile_call : Type :=
  | RcEnqueue (o : mesh_control_operation) (document : option bytes) (size : Z)
  | RcPoll (completions starts now : Z)
  | RcStarts (budget now : Z)
  | RcShutdown (budget now : Z)
  | RcPrepare
  | RcApply (now : Z)
  | RcAck
  | RcCommit (now : Z)
  | RcClose
  | RcState (c : control_command).

Definition reconcile_call_typed (c : reconcile_call) : Prop :=
  match c with
  | RcEnqueue o _ _ => operation_typed o
  | RcPoll _ _ now | RcStarts _ now | RcShutdown _ now | RcApply now | RcCommit now => u64 now
  | RcState c => command_typed c
  | RcPrepare | RcAck | RcClose => True
  end.
#[export] Instance reconcile_call_typed_dec c : Decision (reconcile_call_typed c).
Proof. destruct c; cbn; apply _. Defined.

(** A call on the reconciler, or by another user of the control state. *)
Definition reconcile_exec (c : reconcile_call) (r : option mesh_control_reconciler)
    (st : option mesh_control_state) :
    mesh_control_result * option mesh_control_reconciler * option mesh_control_state :=
  match c with
  | RcEnqueue o document size =>
      let '(res, r) := mesh_control_reconciler_enqueue_v1 r (Some o) document size in (res, r, st)
  | RcPoll completions starts now =>
      (mesh_control_reconciler_poll_v1 r st completions starts now (Some 0)).1
  | RcStarts budget now => (mesh_control_reconciler_poll_starts_v1 r st budget now (Some 0)).1
  | RcShutdown budget now => (mesh_control_reconciler_poll_shutdown_v1 r st budget now (Some 0)).1
  | RcPrepare =>
      let '(res, r, _) :=
        mesh_control_reconciler_prepare_completion_v1 r (Some zero_prepared_completion) in (res, r, st)
  | RcApply now => mesh_control_reconciler_apply_completion_v1 r st now
  | RcAck => let '(res, r) := mesh_control_reconciler_ack_completion_v1 r in (res, r, st)
  | RcCommit now => mesh_control_reconciler_commit_completion_v1 r st now
  | RcClose => let '(res, r) := mesh_control_reconciler_close_v1 r in (res, r, st)
  | RcState c => let '(res, st) := control_exec c st in (res, r, st)
  end.

Definition reconcile_run (cs : list reconcile_call) (r : option mesh_control_reconciler)
    (st : option mesh_control_state) : option mesh_control_reconciler * option mesh_control_state :=
  foldl (λ '(r, st) c, ((reconcile_exec c r st).1.2, (reconcile_exec c r st).2)) (r, st) cs.

Lemma exec_ok c i st : reconciler_ok i → state_ok st → reconcile_call_typed c →
  ∃ res i' st', reconcile_exec c (with_impl i) st = (res, with_impl i', st') ∧
    reconciler_ok i' ∧ state_ok st'.
Proof.
  intros Hi Hst Hc. pose proof Hst as (s & Es & Hs).
  destruct c as [o d n|cb sb now|b now|b now| |now| |now| |c]; cbn [reconcile_exec reconcile_call_typed] in *.
  - destruct (enqueue_ok i o d n Hi Hc) as (r & i' & -> & Hi'). by eauto 10.
  - unfold mesh_control_reconciler_poll_v1. rewrite Es. rewrite <- Es. cbn [with_impl rc_impl].
    fold (with_impl i). destruct (_ || _); [by eauto 10|].
    destruct (poll_completions_ok (Z.to_nat cb) i st now 0 Hi Hst Hc) as (r & i1 & st1 & q & -> & Hi1 & Hst1).
    destruct r; cbn [fst snd]; try (by eauto 10). cbn [with_impl rc_impl].
    destruct (poll_starts_ok (Z.to_nat sb) sb i1 st1 now 0 Hi1 Hst1 Hc) as (r2 & i2 & st2 & q2 & E2 & Hi2 & Hst2).
    destruct (interrupt_ok i1 st1 now cb q Hi1 Hst1 Hc) as (r3 & i3 & st3 & q3 & E3 & Hi3 & Hst3).
    destruct (negb (ri_closed i1)); rewrite ?E2, ?E3; [destruct r2|destruct r3]; cbn; by eauto 10.
  - unfold mesh_control_reconciler_poll_starts_v1. rewrite Es. rewrite <- Es. cbn [with_impl rc_impl].
    fold (with_impl i). destruct (_ =? _); [by eauto 10|]. destruct (ri_closed i); [by eauto 10|].
    destruct (poll_starts_ok (Z.to_nat b) b i st now 0 Hi Hst Hc) as (r2 & i2 & st2 & q2 & -> & Hi2 & Hst2).
    by eauto 10.
  - unfold mesh_control_reconciler_poll_shutdown_v1. rewrite Es. rewrite <- Es. cbn [with_impl rc_impl].
    fold (with_impl i). destruct (_ =? _); [by eauto 10|]. destruct (negb _); [by eauto 10|].
    destruct (interrupt_ok i st now b 0 Hi Hst Hc) as (r3 & i3 & st3 & q3 & -> & Hi3 & Hst3). by eauto 10.
  - destruct (prepare_call_ok i zero_prepared_completion Hi) as (r & i' & p & -> & Hi'). by eauto 10.
  - destruct (apply_call_ok i st now Hi Hst Hc) as (r & i' & st' & -> & Hi' & Hst'). by eauto 10.
  - destruct (ack_ok i Hi) as (r & i' & E & Hi'). cbn. rewrite E. by eauto 10.
  - destruct (commit_call_ok i st now Hi Hst Hc) as (r & i' & st' & -> & Hi' & Hst'). by eauto 10.
  - cbn. fold (with_impl i). destruct (ri_closed i); [by eauto 10|]. eexists _, _, _. split; [done|].
    split; [|done]. apply close_loop_ok. eapply same_table_ok; [exact Hi|]. split; cbn; try done.
    apply (rk_cursor _ Hi).
  - rewrite Es. destruct (exec_step c s Hs Hc) as (r & s' & -> & Hst').
    eexists _, _, _. split; [done|]. split; [done|]. exists s'. split; [done|].
    by eapply step_ok; [exact Hs| |exact Hst'].
Qed.

Lemma reconcile_run_ok cs : ∀ i st, reconciler_ok i → state_ok st → Forall reconcile_call_typed cs →
  ∃ i' st', reconcile_run cs (with_impl i) st = (with_impl i', st') ∧ reconciler_ok i' ∧ state_ok st'.
Proof.
  induction cs as [|c cs IH]; intros i st Hi Hst Hcs; [by eauto|]. apply Forall_cons in Hcs as [Hc Hcs].
  unfold reconcile_run. cbn [foldl].
  destruct (exec_ok c i st Hi Hst Hc) as (r & i1 & st1 & -> & Hi1 & Hst1). by apply IH.
Qed.

Lemma init_reconciler_ok alloc c r : 0 <= rcc_provider_count c → 0 <= rcc_inflight_capacity c →
  rcc_provider_count c <= Z.of_nat (length (deref [] (rcc_providers c))) →
  mesh_control_reconciler_init_v1 alloc (Some (mk_reconciler None)) (Some c) = (MESH_CONTROL_OK, r) →
  ∃ i, r = with_impl i ∧ reconciler_ok i.
Proof.
  intros Hp Hc Hl H. unfold mesh_control_reconciler_init_v1 in H. cbn [rc_impl] in H.
  destruct (_ || _) eqn:E in H; [done|].
  destruct (providers_check _) in H; try done. destruct alloc; [|done]. injection H as <-.
  unfold MESH_CONTROL_RECONCILER_MAX_PROVIDERS_V1, MESH_CONTROL_RECONCILER_MAX_INFLIGHT_V1,
    MESH_CONTROL_STATE_MAX_OPERATIONS_V1 in E. bool_prop.
  eexists. split; [done|]. split; cbn; rewrite ?length_take, ?length_replicate; try lia.
  - split; [by apply Forall_replicate|by apply slots_unique_replicate..].
  - by rewrite count_slots_replicate.
  - by rewrite count_slots_replicate.
Qed.

(** ** Applying a completion *)

(** The entry of the prepared completion, when [apply_completion] may run. *)
Record applicable (i : mesh_control_reconciler_impl) (k : nat) (e : reconcile_entry) : Prop := {
  ap_prepared : ri_completion_prepared i = true;
  ap_index : ri_prepared_provider_index i < ri_provider_count i;
  ap_entry : find_reconcile_entry i (pc_operation_id (ri_prepared_completion i)) = Some (k, e);
  ap_provider : re_provider_index e = ri_prepared_provider_index i }.

Lemma apply_impl_eq i k e st now : applicable i k e → apply_impl i st now =
  if re_state e =? RECONCILE_ENTRY_INFLIGHT then
    let '(r, e', st') := apply_completion e (ri_prepared_completion i) st now in
    (r, put_reconcile_entry k e' i, st')
  else if negb (re_state e =? RECONCILE_ENTRY_COMPLETION_APPLIED) ||
          negb (re_completion_state e =? pc_state (ri_prepared_completion i))
  then (MESH_CONTROL_INVALID_STATE, i, st) else (MESH_CONTROL_OK, i, st).
Proof.
  intros [Hp Hi He Hx]. unfold apply_impl. rewrite Hp, He, Hx, Z.eqb_refl.
  rewrite (proj2 (Z.leb_gt _ _)) by done. done.
Qed.

Lemma apply_impl_inv i st now i' st' : apply_impl i st now = (MESH_CONTROL_OK, i', st') →
  ∃ k e, applicable i k e.
Proof.
  unfold apply_impl. destruct (_ || _) eqn:E; [done|].
  destruct (find_reconcile_entry _ _) as [[k e]|] eqn:Ee; [|done].
  destruct (Z.eqb_spec (re_provider_index e) (ri_prepared_provider_index i)); [|done].
  intros _. exists k, e. bool_prop. by split.
Qed.

Lemma put_same i k e : ri_entries i !! k = Some e → put_reconcile_entry k e i = i.
Proof. intros Hk. unfold put_reconcile_entry. rewrite list_insert_id by done. by destruct i. Qed.

Lemma find_after_put i k e y id : find_reconcile_entry i id = Some (k, e) →
  re_occupied y = re_occupied e → entry_id y = entry_id e →
  find_reconcile_entry (put_reconcile_entry k y i) id = Some (k, y).
Proof.
  unfold find_reconcile_entry. cbn [put_reconcile_entry set_ri_entries ri_entries].
  generalize (ri_entries i). intros l. revert k.
  induction l as [|x l IH]; intros k H Ho Hid; [done|]. cbn [find_slot] in H.
  destruct (re_occupied x && memeq 16 (entry_id x) id) eqn:Ex.
  - injection H as <- ->. cbn. by rewrite Ho, Hid, Ex.
  - destruct (find_slot _ l) as [[k' e']|] eqn:El; [|done]. injection H as <- ->.
    change (<[S k':=y]> (x :: l)) with (x :: <[k':=y]> l). cbn [find_slot].
    by rewrite Ex, (IH k' eq_refl Ho Hid).
Qed.

(** A completion that the control state has moved past is refused for ever. *)
Lemma stale_completion i k e s ri x cb sb now q : applicable i k e → re_state e = RECONCILE_ENTRY_INFLIGHT →
  pc_reserved (ri_prepared_completion i) = 0 →
  pc_state (ri_prepared_completion i) = MESH_CONTROL_PROVIDER_COMPLETED →
  find_resource s (co_resource_kind (entry_operation e)) (co_resource_id (entry_operation e)) = Some (ri, x) →
  co_desired_epoch (entry_operation e) < rst_observed_epoch (rsl_status x) →
  ∃ r, r ≠ MESH_CONTROL_OK ∧
    mesh_control_reconciler_poll_v1 (with_impl i) (holds s) (Zpos cb) (Zpos sb) now (Some q) =
      (r, with_impl i, holds s, Some 0).
Proof.
  intros Ha Hs Hres Hpc Hf Hlt. pose proof (ap_entry _ _ _ Ha) as He.
  destruct (find_entry_at _ _ _ _ He) as [Hk Ho].
  assert (Hobs : ∃ r, r ≠ MESH_CONTROL_OK ∧ apply_impl i (holds s) now = (r, i, holds s)).
  { rewrite (apply_impl_eq i k e _ _ Ha), Hs. unfold apply_completion. rewrite Hres, Hpc.
    cbn [Z.eqb Pos.eqb negb andb orb MESH_CONTROL_PROVIDER_COMPLETED RECONCILE_ENTRY_INFLIGHT].
    unfold mesh_control_state_observe_v1. cbn [cst_impl].
    destruct (control_bytes_zero _ || _ || _ || _ || _).
    { eexists. split; [|by rewrite (put_same i k e Hk)]. done. }
    rewrite Hf. apply Z.ltb_lt in Hlt. rewrite Hlt. cbn [orb].
    eexists. split; [|by rewrite (put_same i k e Hk)]. done. }
  destruct Hobs as (r & Hr & Happ). exists r. split; [done|].
  unfold mesh_control_reconciler_poll_v1. cbn [with_impl rc_impl Z.eqb].
  change (negb (non_null (Some i))) with false. cbn [orb]. fold (with_impl i).
  destruct (Pos2Nat.is_succ cb) as [n Hn]. rewrite Z2Nat.inj_pos, Hn. cbn [poll_completions].
  unfold mesh_control_reconciler_prepare_completion_v1. cbn [with_impl rc_impl].
  unfold prepare_impl. rewrite (ap_prepared _ _ _ Ha), He.
  unfold mesh_control_reconciler_commit_completion_v1, mesh_control_reconciler_apply_completion_v1.
  cbn [with_impl rc_impl]. change (negb (non_null (holds s))) with false. cbv iota.
  rewrite Happ. by destruct r.
Qed.

End Reconciler.

(** ** A provider under pressure *)

(** It refuses the first [wp_pressure] requests, then accepts and completes each
    at once; [wp_started] are the operations it accepted, oldest first. *)
Record w_provider_context : Type := mk_wp {
  wp_pressure : nat;
  wp_started : list bytes;
  wp_ready : list bytes }.

Definition w_provider_ops : @mesh_control_provider_ops w_provider_context := mk_provider_ops
  (Some (λ c r, match wp_pressure c with
                | S n => (MESH_CONTROL_RESOURCE_EXHAUSTED, mk_wp n (wp_started c) (wp_ready c))
                | O => let id := co_operation_id (prq_operation r) in
                       (MESH_CONTROL_OK, mk_wp 0 (wp_started c ++ [id]) (wp_ready c ++ [id]))
                end))
  (Some (λ c out, match wp_ready c with
                  | [] => (MESH_CONTROL_EMPTY, out, c)
                  | id :: _ => (MESH_CONTROL_OK, mk_completion id MESH_CONTROL_PROVIDER_COMPLETED 0, c)
                  end))
  (Some (λ c id, (MESH_CONTROL_OK, mk_wp (wp_pressure c) (wp_started c) (tail (wp_ready c)))))
  (Some (λ c, c))
  (Some (λ c, bool_decide (wp_ready c = []))).

Definition w_provider : mesh_control_provider :=
  mk_provider (2 :: zeros 31) MESH_CONTROL_FUNCTION_NATIVE 0 w_provider_ops (mk_wp 1 [] []).
Definition w_reconciler_config : mesh_control_reconciler_config :=
  mk_reconciler_config (Some [w_provider]) 1 4.
Definition w_reconciler : option mesh_control_reconciler :=
  (mesh_control_reconciler_init_v1 true (Some (mk_reconciler None)) (Some w_reconciler_config)).2.

(** Two generations of one function, accepted in order. *)
Definition w_generation (n : Z) : mesh_control_function_spec :=
  mk_function_spec 1 MESH_CONTROL_FUNCTION_NATIVE MESH_CONTROL_FUNCTION_RUNNING 0 3 (1 :: zeros 31)
    (2 :: zeros 31) (3 :: zeros 31) (4 :: zeros 31) (5 :: zeros 31) n 7
    (mk_function_limits 8 9 10 11 12 13).
Definition w_operation (msg pre epoch now : Z) : mesh_control_operation :=
  submit_operation (w_intent msg msg 1 pre epoch) MESH_CONTROL_DESIRED_APPLY now.
Definition w_enqueue (msg pre epoch now : Z) : reconcile_call :=
  RcEnqueue (w_operation msg pre epoch now) (Some (function_bytes (w_generation epoch))) 232.
Definition w_accepted : list reconcile_call :=
  [RcState (w_submit 1 1 1 0 1 20); RcState (w_submit 2 2 1 1 2 21); w_enqueue 1 0 1 20; w_enqueue 2 1 2 21].
(** Three polls: pressure on the first generation, the second one starts and
    completes, then the first one starts. *)
Definition w_pressed : option mesh_control_reconciler * option mesh_control_state :=
  reconcile_run (w_accepted ++ [RcPoll 4 4 30; RcPoll 4 4 31; RcPoll 4 4 32]) w_reconciler w_state.

(** The operations the first provider accepted. *)
Definition w_started (r : option (@mesh_control_reconciler w_provider_context)) : list bytes :=
  match r with
  | Some (mk_reconciler (Some i)) =>
      match ri_providers i with p :: _ => wp_started (pv_context p) | [] => [] end
  | _ => []
  end.

(** ** Theorems *)


(** A completion is applied to the control state once.  After a successful application the same
    prepared completion can be applied again, at any time, with the same answer and no further
    change, so that an acknowledgement that failed can be retried. *)
Theorem reconciler_apply_once {C} (i i' : @mesh_control_reconciler_impl C)
    (st st' : option mesh_control_state) (now now' : Z) :
  mesh_control_reconciler_apply_completion_v1 (with_impl i) st now = (MESH_CONTROL_OK, with_impl i', st') →
  non_null st' = true →
  mesh_control_reconciler_apply_completion_v1 (with_impl i') st' now' = (MESH_CONTROL_OK, with_impl i', st').
Proof.
  intros H Hn. unfold mesh_control_reconciler_apply_completion_v1 in *. cbn [with_impl rc_impl] in *.
  rewrite Hn. cbn [negb]. destruct (negb (non_null st)); [done|].
  destruct (apply_impl i st now) as [[r i1] st1] eqn:E. injection H as -> -> ->.
  destruct (apply_impl_inv _ _ _ _ _ E) as (k & e & Ha). pose proof Ha as [Hp Hx He Hpv].
  rewrite (apply_impl_eq i k e st now Ha) in E.
  destruct (Z.eqb_spec (re_state e) RECONCILE_ENTRY_INFLIGHT) as [Es|Es].
  - destruct (apply_completion e (ri_prepared_completion i) st now) as [[r e'] st2] eqn:Ea.
    injection E as -> <- ->.
    assert (He' : e' = set_re_state RECONCILE_ENTRY_COMPLETION_APPLIED
                        (set_re_completion (pc_state (ri_prepared_completion i)) e)).
    { unfold apply_completion in Ea. destruct (_ || _) in Ea; [done|].
      destruct (_ =? MESH_CONTROL_PROVIDER_COMPLETED) in Ea.
      - destruct (mesh_control_state_observe_v1 _ _ _ _ _ _ _) as [ro so] in Ea. destruct ro; try done.
        destruct (mesh_control_state_transition_operation_v1 _ _ _ _) as [rt s2] in Ea.
        destruct rt; try done. by injection Ea.
      - destruct (mesh_control_state_transition_operation_v1 _ _ _ _) as [rt s2] in Ea.
        destruct rt; try done. by injection Ea. }
    subst e'. erewrite apply_impl_eq; [|split; [exact Hp|exact Hx|by eapply find_after_put|exact Hpv]].
    cbn. by rewrite Z.eqb_refl.
  - destruct (_ || _) eqn:Eg in E; [done|]. injection E as <- <-.
    rewrite (apply_impl_eq i k e st now' Ha), Eg. by apply Z.eqb_neq in Es as ->.
Qed.

(** Back-pressure reorders the generations of a function and blocks the reconciler.  Two
    operations on one function are accepted and enqueued in order; the provider is busy for the first
    request and accepts every other one.  The second generation is started and completed before the
    first; the completion of the first is then refused by the control state, and from there every
    poll fails and changes nothing. *)
Theorem reconciler_backpressure_reorders : ∃ i s,
  w_pressed = (with_impl i, holds s) ∧
  w_started w_pressed.1 = [2 :: zeros 15; 1 :: zeros 15] ∧
  ∀ cb sb now, ∃ r, r ≠ MESH_CONTROL_OK ∧
    mesh_control_reconciler_poll_v1 (with_impl i) (holds s) (Zpos cb) (Zpos sb) now (Some 0) =
      (r, with_impl i, holds s, Some 0).
Proof.
  assert (H : ∃ i s k e ri x, w_pressed = (with_impl i, holds s) ∧ applicable i k e ∧
    re_state e = RECONCILE_ENTRY_INFLIGHT ∧ pc_reserved (ri_prepared_completion i) = 0 ∧
    pc_state (ri_prepared_completion i) = MESH_CONTROL_PROVIDER_COMPLETED ∧
    find_resource s (co_resource_kind (entry_operation e)) (co_resource_id (entry_operation e)) = Some (ri, x) ∧
    co_desired_epoch (entry_operation e) < rst_observed_epoch (rsl_status x)).
  { do 6 eexists. split; [vm_compute; reflexivity|]. split; [split; vm_compute; reflexivity|].
    split_and!; vm_compute; reflexivity. }
  destruct H as (i & s & k & e & ri & x & Hrun & Ha & Hst & Hr & Hc & Hf & Hlt). exists i, s.
  split; [done|]. split; [vm_compute; reflexivity|]. intros cb sb now. by eapply stale_completion.
Qed.

(** ** Witnesses *)

Lemma w_accepted_typed : Forall reconcile_call_typed w_accepted.
Proof. evaluate. Qed.

Definition w_state_impl : mesh_control_state_impl :=
  default (mk_impl w_config [] [] [] 0 0 1 1 0) (state_impl w_state).
Lemma w_state_impl_ok : impl_ok w_state_impl.
Proof.
  destruct (init_ok true w_config w_state w_config_typed eq_refl) as (s & E & Hok & _).
  unfold w_state_impl. by rewrite E.
Qed.


(** The second poll's completion, prepared. *)
Definition w_ready_run : option mesh_control_reconciler * option mesh_control_state :=
  reconcile_run (w_accepted ++ [RcPoll 4 4 30; RcPrepare]) w_reconciler w_state.
Definition w_ready_impl : @mesh_control_reconciler_impl w_provider_context :=
  default (mk_reconciler_impl [] 0 [] 0 0 0 zero_completion 0 zero_reconciler_stats false false)
    (w_ready_run.1 ≫= rc_impl).
Definition w_applied :=
  mesh_control_reconciler_apply_completion_v1 (with_impl w_ready_impl) w_ready_run.2 31.
Definition w_applied_impl : @mesh_control_reconciler_impl w_provider_context :=
  default w_ready_impl (w_applied.1.2 ≫= rc_impl).

Lemma reconciler_apply_once_witness :
  mesh_control_reconciler_apply_completion_v1 (with_impl w_applied_impl) w_applied.2 99 =
    (MESH_CONTROL_OK, with_impl w_applied_impl, w_applied.2).
Proof.
  apply (reconciler_apply_once w_ready_impl w_applied_impl w_ready_run.2 w_applied.2 31 99);
    vm_compute; reflexivity.
Defined.
