(* ===== verification/FileSystem.v ===== *)
(** * The file system interface: [turbo_fs]

    [turbo_fs.h] belongs to another repository.  What the durable components
    call of it is the class [FileSystem], over an abstract volume; what they may
    rely on is [FileSystemLaws], in terms of the current content of a file and of
    the contents that a crash may leave.  A call may fail at any point, and a
    write may be short, so a process that stops in the middle of an operation is
    one whose remaining calls fail. *)

From S2P Require Import Prelude.

Inductive open_flag : Type :=
  | TURBO_FS_O_RDONLY
  | TURBO_FS_O_WRONLY
  | TURBO_FS_O_RDWR
  | TURBO_FS_O_CREAT
  | TURBO_FS_O_TRUNC
  | TURBO_FS_O_APPEND.

Record turbo_fs_stat : Type := mk_stat {
  st_is_file : bool;
  st_is_symlink : bool;
  st_size : Z }.

(** A path is the characters before its terminating zero.  [turbo_fs_read] gives
    the returned number with the bytes it stored; [turbo_fs_lstat] gives the
    structure it filled, or nothing when it does not return 0. *)
Class FileSystem : Type := {
  volume : Type;
  turbo_file : Type;
  turbo_file_eq_dec :: EqDecision turbo_file;
  TURBO_INVALID_FILE : turbo_file;
  zero_file : turbo_file;
  TURBO_FS_MAX_PATH : Z;
  turbo_fs_path_is_absolute : bytes → bool;
  turbo_fs_open : bytes → list open_flag → volume → turbo_file * volume;
  turbo_fs_close : turbo_file → volume → Z * volume;
  turbo_fs_read : turbo_file → Z → volume → Z * bytes * volume;
  turbo_fs_write : turbo_file → bytes → volume → Z * volume;
  turbo_fs_fsync : turbo_file → volume → Z * volume;
  turbo_fs_lock : turbo_file → volume → Z * volume;
  turbo_fs_unlock : turbo_file → volume → Z * volume;
  turbo_fs_lstat : bytes → volume → option turbo_fs_stat;
  turbo_fs_rename : bytes → bytes → volume → Z * volume;
  turbo_fs_exists : bytes → volume → bool;
  turbo_fs_unlink : bytes → volume → Z * volume }.

(** [file_at v p] is the current content of the file [p]; [survives v p c] holds
    when a crash may leave [c] there; [handle_at v h] is the file a handle stands
    for and its read position. *)
Class FileState `{FileSystem} : Type := {
  file_at : volume → bytes → option bytes;
  survives : volume → bytes → option bytes → Prop;
  handle_at : volume → turbo_file → option (bytes * nat);
  crash : volume → volume → Prop }.

(** [v'] differs from [v] in nothing a reader of [p] can see, before or after a
    crash. *)
Definition same_file `{FileState} (v v' : volume) (p : bytes) : Prop :=
  file_at v' p = file_at v p ∧ ∀ c, survives v' p c → survives v p c.

(** Documented behaviour.  Nothing is promised for a call that reports an error,
    except that it does not disturb other files; bytes that were written and not
    synchronised may be lost or replaced by others; a successful [fsync] leaves
    one possible content; a rename that is cut short leaves the old file or the
    new one. *)
Class FileSystemLaws `{FileState} : Prop := {
  crash_survives v v' p : crash v v' → survives v p (file_at v' p);
  crash_settled v v' p c : crash v v' → survives v' p c → c = file_at v' p;
  file_bytes v p c : file_at v p = Some c → Forall u8 c;
  lstat_file v p s : turbo_fs_lstat p v = Some s → st_is_file s = true → is_Some (file_at v p);

  open_read v p h v' q : turbo_fs_open p [TURBO_FS_O_RDONLY] v = (h, v') →
    same_file v v' q ∧
    (h ≠ TURBO_INVALID_FILE → handle_at v' h = Some (p, O) ∧ is_Some (file_at v p));
  open_append v p h v' q :
    turbo_fs_open p [TURBO_FS_O_WRONLY; TURBO_FS_O_APPEND] v = (h, v') →
    same_file v v' q ∧
    (h ≠ TURBO_INVALID_FILE → (∃ n, handle_at v' h = Some (p, n)) ∧ is_Some (file_at v p));
  open_lock v p h v' q : turbo_fs_open p [TURBO_FS_O_RDWR; TURBO_FS_O_CREAT] v = (h, v') →
    q ≠ p → same_file v v' q;
  open_create_frame v p h v' q :
    turbo_fs_open p [TURBO_FS_O_WRONLY; TURBO_FS_O_CREAT; TURBO_FS_O_TRUNC] v = (h, v') →
    q ≠ p → same_file v v' q;
  open_create v p h v' :
    turbo_fs_open p [TURBO_FS_O_WRONLY; TURBO_FS_O_CREAT; TURBO_FS_O_TRUNC] v = (h, v') →
    h ≠ TURBO_INVALID_FILE →
    (∃ n, handle_at v' h = Some (p, n)) ∧ file_at v' p = Some [] ∧
    ∀ c, survives v' p c → survives v p c ∨ c = Some [];

  read_frame v h size r b v' q : turbo_fs_read h size v = (r, b, v') → same_file v v' q;
  read_data v h size r b v' p n c : turbo_fs_read h size v = (r, b, v') → 0 < r →
    handle_at v h = Some (p, n) → file_at v p = Some c →
    len b = r ∧ r <= size ∧ (n + length b <= length c)%nat ∧ b = sub c n (length b) ∧
    handle_at v' h = Some (p, (n + length b)%nat);

  write_frame v h b r v' p n q : turbo_fs_write h b v = (r, v') → handle_at v h = Some (p, n) →
    q ≠ p → same_file v v' q;
  write_data v h b r v' p n c : turbo_fs_write h b v = (r, v') →
    handle_at v h = Some (p, n) → file_at v p = Some c →
    (∃ k, (k <= length b)%nat ∧ file_at v' p = Some (c ++ take k b) ∧ (0 < r → Z.of_nat k = r)) ∧
    (0 < r → ∃ n', handle_at v' h = Some (p, n')) ∧
    (∀ d, survives v' p d → survives v p d ∨ ∃ s t, survives v p (Some s) ∧ d = Some (s ++ t));

  fsync_frame v h r v' q : turbo_fs_fsync h v = (r, v') → same_file v v' q;
  fsync_data v h v' p n c : turbo_fs_fsync h v = (0, v') → handle_at v h = Some (p, n) →
    survives v' p c → c = file_at v' p;

  close_frame v h r v' q : turbo_fs_close h v = (r, v') → same_file v v' q;
  lock_frame v h r v' q : turbo_fs_lock h v = (r, v') → same_file v v' q;
  unlock_frame v h r v' q : turbo_fs_unlock h v = (r, v') → same_file v v' q;

  rename_frame v p p' r v' q : turbo_fs_rename p p' v = (r, v') → q ≠ p → q ≠ p' →
    same_file v v' q;
  rename_data v p p' v' : turbo_fs_rename p p' v = (0, v') → is_Some (file_at v p) → p ≠ p' →
    file_at v' p' = file_at v p ∧
    ∀ c, survives v' p' c → survives v p' c ∨ survives v p c;
  rename_failed v p p' r v' : turbo_fs_rename p p' v = (r, v') → r ≠ 0 → same_file v v' p';
  unlink_frame v p r v' q : turbo_fs_unlink p v = (r, v') → q ≠ p → same_file v v' q }.

(** A volume on which opening, reading and closing existing files works, as does
    taking the lock of a file that nobody holds. *)
Class FileSystemLive `{FileState} : Type := {
  reliable : volume → Prop;
  lockable : volume → bytes → Prop;
  live_lstat v p c : reliable v → file_at v p = Some c →
    turbo_fs_lstat p v = Some (mk_stat true false (len c));
  live_open v p c : reliable v → file_at v p = Some c →
    let '(h, v') := turbo_fs_open p [TURBO_FS_O_RDONLY] v in h ≠ TURBO_INVALID_FILE ∧ reliable v';
  live_open_lock v p : reliable v → lockable v p →
    let '(h, v') := turbo_fs_open p [TURBO_FS_O_RDWR; TURBO_FS_O_CREAT] v in
    h ≠ TURBO_INVALID_FILE ∧ reliable v' ∧
    (let '(r, v'') := turbo_fs_lock h v' in r = 0 ∧ reliable v'');
  live_lock_plain v p s : reliable v → lockable v p → turbo_fs_lstat p v = Some s →
    st_is_symlink s = false;
  live_read v h size p n c : reliable v → handle_at v h = Some (p, n) → file_at v p = Some c →
    (n < length c)%nat → 0 < size →
    let '(r, b, v') := turbo_fs_read h size v in 0 < r ∧ reliable v';
  live_close v h : reliable v → let '(r, v') := turbo_fs_close h v in r = 0 ∧ reliable v' }.

(** ** Consequences *)

Section Files.
Context `{FileSystemLaws}.
Implicit Types (v : volume) (p : bytes).

#[export] Instance same_file_preorder p : PreOrder (λ v v', same_file v v' p).
Proof.
  split; [by split|]. intros v1 v2 v3 [E1 S1] [E2 S2]. split; [congruence|eauto].
Qed.

Lemma same_file_trans v1 v2 v3 p : same_file v1 v2 p → same_file v2 v3 p → same_file v1 v3 p.
Proof. apply (transitivity (R := λ v v', same_file v v' p)). Qed.

Lemma same_file_content v v' p : same_file v v' p → file_at v' p = file_at v p.
Proof. by intros []. Qed.

End Files.
#[export] Hint Resolve same_file_content : mesh.

(** ** An in-memory file system

    It shows that the laws can hold.  Written bytes are visible at once and
    survive a crash when synchronised; [fs_room] bounds the bytes that can still
    be written, [fs_syncs] lists the outcomes of the next synchronisations (they
    succeed afterwards) and [fs_blind] makes [lstat] fail. *)

Record mem_volume : Type := mk_mem {
  fs_files : gmap bytes bytes;
  fs_synced : gmap bytes bytes;
  fs_handles : gmap Z (bytes * nat);
  fs_next : Z;
  fs_locks : gset bytes;
  fs_room : Z;
  fs_syncs : list bool;
  fs_blind : bool }.

Definition mem_empty : mem_volume := mk_mem ∅ ∅ ∅ 3 ∅ (2 ^ 40) [] false.

Definition set_files (f : gmap bytes bytes) (v : mem_volume) : mem_volume :=
  mk_mem f (fs_synced v) (fs_handles v) (fs_next v) (fs_locks v) (fs_room v) (fs_syncs v) (fs_blind v).
Definition set_handle (h : Z) (x : bytes * nat) (v : mem_volume) : mem_volume :=
  mk_mem (fs_files v) (fs_synced v) (<[h:=x]> (fs_handles v)) (fs_next v) (fs_locks v) (fs_room v)
    (fs_syncs v) (fs_blind v).
Definition new_handle (p : bytes) (v : mem_volume) : Z * mem_volume :=
  (fs_next v,
   mk_mem (fs_files v) (fs_synced v) (<[fs_next v:=(p, O)]> (fs_handles v)) (fs_next v + 1)
     (fs_locks v) (fs_room v) (fs_syncs v) (fs_blind v)).

(** A stored number stands for the byte it is congruent to. *)
Definition normal (b : bytes) : bytes := (λ x, x mod 256) <$> b.
Definition mem_file (v : mem_volume) (p : bytes) : option bytes := normal <$> fs_files v !! p.

(** The flag combinations in use: for the lock, for a new file, for an existing one. *)
Definition mem_open (p : bytes) (flags : list open_flag) (v : mem_volume) : Z * mem_volume :=
  match flags with
  | [TURBO_FS_O_RDWR; TURBO_FS_O_CREAT] =>
      new_handle p (set_files (<[p:=default [] (fs_files v !! p)]> (fs_files v)) v)
  | [TURBO_FS_O_WRONLY; TURBO_FS_O_CREAT; TURBO_FS_O_TRUNC] =>
      new_handle p (set_files (<[p:=[]]> (fs_files v)) v)
  | _ => match fs_files v !! p with Some _ => new_handle p v | None => (-1, v) end
  end.

Definition mem_read (h size : Z) (v : mem_volume) : Z * bytes * mem_volume :=
  match fs_handles v !! h with
  | None => (-1, [], v)
  | Some (p, n) =>
      let b := take (Z.to_nat size) (drop n (default [] (mem_file v p))) in
      (len b, b, set_handle h (p, (n + length b)%nat) v)
  end.

Definition mem_write (h : Z) (b : bytes) (v : mem_volume) : Z * mem_volume :=
  match fs_handles v !! h with
  | None => (-1, v)
  | Some (p, n) =>
      let b := if forallb (λ x, (0 <=? x) && (x <? 256)) b then take (Z.to_nat (Z.min (fs_room v) (len b))) b else [] in
      (len b,
       mk_mem (<[p:=default [] (fs_files v !! p) ++ b]> (fs_files v)) (fs_synced v) (fs_handles v)
         (fs_next v) (fs_locks v) (fs_room v - len b) (fs_syncs v) (fs_blind v))
  end.

Definition mem_fsync (h : Z) (v : mem_volume) : Z * mem_volume :=
  let sync p syncs :=
    mk_mem (fs_files v) (partial_alter (λ _, fs_files v !! p) p (fs_synced v)) (fs_handles v)
      (fs_next v) (fs_locks v) (fs_room v) syncs (fs_blind v) in
  match fs_handles v !! h, fs_syncs v with
  | Some (p, _), [] => (0, sync p [])
  | Some (p, _), true :: rest => (0, sync p rest)
  | Some (p, _), false :: rest =>
      (-1, mk_mem (fs_files v) (fs_synced v) (fs_handles v) (fs_next v) (fs_locks v) (fs_room v)
             rest (fs_blind v))
  | None, _ => (-1, v)
  end.

Definition set_locks (l : gset bytes) (v : mem_volume) : mem_volume :=
  mk_mem (fs_files v) (fs_synced v) (fs_handles v) (fs_next v) l (fs_room v) (fs_syncs v) (fs_blind v).

Definition mem_lock (h : Z) (v : mem_volume) : Z * mem_volume :=
  match fs_handles v !! h with
  | Some (p, _) => if bool_decide (p ∈ fs_locks v) then (-1, v) else (0, set_locks ({[p]} ∪ fs_locks v) v)
  | None => (-1, v)
  end.
Definition mem_unlock (h : Z) (v : mem_volume) : Z * mem_volume :=
  match fs_handles v !! h with
  | Some (p, _) => (0, set_locks (fs_locks v ∖ {[p]}) v)
  | None => (-1, v)
  end.

Definition mem_lstat (p : bytes) (v : mem_volume) : option turbo_fs_stat :=
  if fs_blind v then None
  else match fs_files v !! p with Some b => Some (mk_stat true false (len b)) | None => None end.

Definition mem_rename (p p' : bytes) (v : mem_volume) : Z * mem_volume :=
  match fs_files v !! p with
  | None => (-1, v)
  | Some b =>
      (0, mk_mem (<[p':=b]> (delete p (fs_files v)))
            (partial_alter (λ _, fs_synced v !! p) p' (delete p (fs_synced v))) (fs_handles v)
            (fs_next v) (fs_locks v) (fs_room v) (fs_syncs v) (fs_blind v))
  end.

(** The disk fills up, synchronisation fails, or [lstat] fails. *)
Definition with_faults (room : Z) (syncs : list bool) (blind : bool) (v : mem_volume) : mem_volume :=
  mk_mem (fs_files v) (fs_synced v) (fs_handles v) (fs_next v) (fs_locks v) room syncs blind.

(** Synchronised contents remain; handles and locks are gone. *)
Definition mem_crash (v : mem_volume) : mem_volume :=
  mk_mem (fs_synced v) (fs_synced v) ∅ (fs_next v) ∅ (fs_room v) (fs_syncs v) (fs_blind v).

#[local] Instance mem_fs : FileSystem := {|
  volume := mem_volume;
  turbo_file := Z;
  TURBO_INVALID_FILE := -1;
  zero_file := 0;
  TURBO_FS_MAX_PATH := 4096;
  turbo_fs_path_is_absolute p := match p with x :: _ => x =? 47 | [] => false end;
  turbo_fs_open := mem_open;
  turbo_fs_close := λ _ v, (0, v);
  turbo_fs_read := mem_read;
  turbo_fs_write := mem_write;
  turbo_fs_fsync := mem_fsync;
  turbo_fs_lock := mem_lock;
  turbo_fs_unlock := mem_unlock;
  turbo_fs_lstat := mem_lstat;
  turbo_fs_rename := mem_rename;
  turbo_fs_exists := λ p v, bool_decide (is_Some (fs_files v !! p));
  turbo_fs_unlink := λ p v, (0, set_files (delete p (fs_files v)) v) |}.

#[local] Instance mem_state : FileState := {|
  file_at := mem_file;
  survives := λ v p d, d = normal <$> fs_synced v !! p ∨ d = mem_file v p;
  handle_at := λ v h, fs_handles v !! h;
  crash := λ v v', v' = mem_crash v |}.

Section MemLaws.
Implicit Types (v : mem_volume) (p q : bytes).

Lemma normal_u8 b : Forall u8 (normal b).
Proof.
  apply Forall_fmap, Forall_true. intros x. unfold compose, uint. pose proof (Z.mod_pos_bound x 256). lia.
Qed.

Lemma normal_id b : forallb (λ x, (0 <=? x) && (x <? 256)) b = true → normal b = b.
Proof.
  induction b as [|x b IH]; [done|]. cbn [forallb]. intros H. apply andb_true_iff in H as [Hx Hb].
  unfold normal in *. rewrite fmap_cons, IH by done. bool_prop. by rewrite Z.mod_small by lia.
Qed.

Lemma same_files v v' q : fs_files v' !! q = fs_files v !! q → fs_synced v' !! q = fs_synced v !! q →
  same_file v v' q.
Proof. intros H1 H2. split; cbn; [|intros d]; unfold mem_file; by rewrite H1, ?H2. Qed.

Lemma mem_open_same v p h v' flags q : mem_open p flags v = (h, v') →
  flags = [TURBO_FS_O_RDONLY] ∨ flags = [TURBO_FS_O_WRONLY; TURBO_FS_O_APPEND] →
  same_file v v' q ∧ (h ≠ -1 → fs_handles v' !! h = Some (p, O) ∧ is_Some (mem_file v p)).
Proof.
  intros H [-> | ->]; cbn in H; unfold mem_file, new_handle in *; destruct (fs_files v !! p) as [b|] eqn:E;
    simplify_eq; (split; [by apply same_files|]); intros; try done; cbn;
    by rewrite lookup_insert_eq.
Qed.

Lemma mem_read_data v h size r b v' p n c : mem_read h size v = (r, b, v') → 0 < r →
  fs_handles v !! h = Some (p, n) → mem_file v p = Some c →
  len b = r ∧ r <= size ∧ (n + length b <= length c)%nat ∧ b = sub c n (length b) ∧
  fs_handles v' !! h = Some (p, (n + length b)%nat).
Proof.
  unfold mem_read. intros H Hr Hh Hf. rewrite Hh, Hf in H. cbn in H. injection H as <- <- <-.
  unfold len in *. rewrite length_take, length_drop in *.
  split_and!; [done|lia|lia| |cbn; by rewrite lookup_insert_eq].
  unfold sub. destruct (Nat.min_spec (Z.to_nat size) (length c - n)) as [[? ->]|[? ->]]; [done|].
  rewrite !take_ge by (rewrite length_drop; lia). done.
Qed.

Lemma mem_write_data v h b r v' p n c : mem_write h b v = (r, v') →
  fs_handles v !! h = Some (p, n) → mem_file v p = Some c →
  (∃ k, (k <= length b)%nat ∧ mem_file v' p = Some (c ++ take k b) ∧ (0 < r → Z.of_nat k = r)) ∧
  (0 < r → ∃ n', fs_handles v' !! h = Some (p, n')) ∧ fs_synced v' = fs_synced v.
Proof.
  unfold mem_write, mem_file. intros H Hh Hf. rewrite Hh in H.
  destruct (fs_files v !! p) as [raw|] eqn:E; [|done]. cbn in Hf. injection Hf as <-.
  destruct (forallb _ b) eqn:Hb; cbn [default from_option] in H; injection H as <- <-;
    (split; [|by split; [intros _; cbn; eauto|]]); cbn; rewrite lookup_insert_eq; cbn.
  - exists (Z.to_nat (Z.min (fs_room v) (len b))). unfold len. split; [lia|].
    split; [|rewrite length_take; lia]. f_equal. unfold normal. rewrite fmap_app. f_equal.
    apply normal_id. rewrite <- (take_drop (Z.to_nat (Z.min (fs_room v) (len b))) b), forallb_app in Hb.
    by apply andb_true_iff in Hb as [].
  - exists O. rewrite take_0, !app_nil_r. split_and!; [lia|done|unfold len; cbn; lia].
Qed.
Lemma mem_write_frame v h b r v' p n q : mem_write h b v = (r, v') →
  fs_handles v !! h = Some (p, n) → q ≠ p → same_file v v' q.
Proof.
  unfold mem_write. intros H Hh Hq. rewrite Hh in H. injection H as <- <-.
  apply same_files; [|done]. cbn. by rewrite lookup_insert_ne.
Qed.

Lemma mem_fsync_same v h r v' q : mem_fsync h v = (r, v') →
  fs_files v' = fs_files v ∧
  (∀ p n, fs_handles v !! h = Some (p, n) → r = 0 → fs_synced v' !! p = fs_files v !! p) ∧
  (fs_synced v' !! q = fs_synced v !! q ∨ fs_synced v' !! q = fs_files v !! q).
Proof.
  unfold mem_fsync. intros H. destruct (fs_handles v !! h) as [[p n]|] eqn:Hh.
  2:{ simplify_eq. split_and!; [done| |by left]. intros p n E. congruence. }
  assert (Hs : partial_alter (λ _, fs_files v !! p) p (fs_synced v) !! q = fs_synced v !! q ∨
    partial_alter (λ _, fs_files v !! p) p (fs_synced v) !! q = fs_files v !! q).
  { destruct (decide (p = q)) as [<-|Hn];
      [right; by rewrite lookup_partial_alter_eq|left; by rewrite lookup_partial_alter_ne]. }
  destruct (fs_syncs v) as [|[] rest]; injection H as <- <-; cbn; (split; [done|]);
    (split; [intros p' n' [= <- <-] Hr|]); try done; try (by rewrite lookup_partial_alter_eq); auto.
Qed.
End MemLaws.

#[local] Instance mem_laws : FileSystemLaws.
Proof.
  split; cbn -[mem_file same_file].
  - intros v v' p ->. by left.
  - by intros v v' p c -> [-> | ->].
  - intros v p c H. unfold mem_file in H. destruct (fs_files v !! p); [|done]. injection H as <-.
    apply normal_u8.
  - intros v p s H _. unfold mem_lstat in H. unfold mem_file. destruct (fs_blind v); [done|].
    by destruct (fs_files v !! p); [eexists|].
  - intros v p h v' q H. eapply (mem_open_same v p h v' [TURBO_FS_O_RDONLY]); [exact H|by left].
  - intros v p h v' q H. destruct (mem_open_same v p h v' [TURBO_FS_O_WRONLY; TURBO_FS_O_APPEND] q H)
      as [H1 H2]; [by right|]. split; [done|]. intros Hh. destruct (H2 Hh). eauto.
  - intros v p h v' q [= <- <-] Hq. apply same_files; [|done]. cbn. by rewrite lookup_insert_ne.
  - intros v p h v' q [= <- <-] Hq. apply same_files; [|done]. cbn. by rewrite lookup_insert_ne.
  - intros v p h v' [= <- <-] _. unfold mem_file. cbn. rewrite !lookup_insert_eq. split_and!; eauto.
    intros d [-> | ->]; auto.
  - intros v h size r b v' q H. unfold mem_read in H. apply same_files.
    all: destruct (fs_handles v !! h) as [[p n]|]; by simplify_eq.
  - intros *. apply mem_read_data.
  - intros *. apply mem_write_frame.
  - intros v h b r v' p n c H1 H2 H3. destruct (mem_write_data _ _ _ _ _ _ _ _ H1 H2 H3) as ((k & Hk) & B & E).
    split_and!; [by exists k|done|]. rewrite E. intros d [-> | ->]; [auto|]. right.
    exists c, (take k b). rewrite <- H3. split; [by right|]. apply Hk.
  - intros v h r v' q H. destruct (mem_fsync_same _ _ _ _ q H) as (E1 & E2 & E3).
    split; cbn; unfold mem_file; rewrite E1; [done|]. intros d [-> | ->]; [|auto].
    destruct E3 as [-> | ->]; auto.
  - intros v h v' p n c H Hh Hs. destruct (mem_fsync_same _ _ _ _ p H) as (E1 & E2 & _).
    unfold mem_file in *. rewrite (E2 p n Hh eq_refl), E1 in Hs. rewrite E1. by destruct Hs.
  - intros v h r v' q [= <- <-]. done.
  - intros v h r v' q H. unfold mem_lock in H. apply same_files;
      destruct (fs_handles v !! h) as [[]|]; repeat case_match; by simplify_eq.
  - intros v h r v' q H. unfold mem_unlock in H. apply same_files;
      destruct (fs_handles v !! h) as [[]|]; by simplify_eq.
  - intros v p p' r v' q H Hq Hq'. unfold mem_rename in H. destruct (fs_files v !! p); [|by simplify_eq].
    simplify_eq. apply same_files; cbn;
      rewrite ?lookup_insert_ne, ?lookup_partial_alter_ne, !lookup_delete_ne by done; done.
  - intros v p p' v' H Hs Hn. unfold mem_rename, mem_file in *.
    destruct (fs_files v !! p) eqn:E; [|by destruct Hs].
    simplify_eq. cbn. rewrite lookup_insert_eq, lookup_partial_alter_eq. split; [done|].
    intros d [-> | ->]; rewrite ?E; auto.
  - intros v p p' r v' H Hr. unfold mem_rename in H. destruct (fs_files v !! p); by simplify_eq.
  - intros v p r v' q [= <- <-] Hq. apply same_files; [|done]. cbn. by rewrite lookup_delete_ne.
Qed.

#[local] Instance mem_live : FileSystemLive.
Proof.
  refine {| reliable := λ v, 0 <= fs_next v ∧ fs_blind v = false;
            lockable := λ v p, p ∉ fs_locks v |}; cbn -[mem_file].
  - intros v p c [_ Hb] H. unfold mem_lstat, mem_file in *. rewrite Hb.
    destruct (fs_files v !! p) as [raw|]; [|done]. injection H as <-. unfold len, normal.
    by rewrite length_fmap.
  - intros v p c [Hn Hb] H. unfold mem_file in H. destruct (fs_files v !! p); [|done]. cbn. split_and!; [lia..|done].
  - intros v p [Hn Hb] Hl. cbn. unfold mem_lock. cbn. rewrite lookup_insert_eq.
    rewrite bool_decide_eq_false_2 by done. cbn. split_and!; try done; lia.
  - intros v p s _ _ H. unfold mem_lstat in H. repeat case_match; by simplify_eq.
  - intros v h size p n c Hr Hh Hf Hn Hs. unfold mem_read. rewrite Hh, Hf. cbn.
    split; [|done]. unfold len. rewrite length_take, length_drop. lia.
  - done.
Defined.
