(* ===== verification/ControlWal.v ===== *)
(** * The intent journal: [mesh/src/mesh_control_wal.c]

    An append-only file of records, each authenticated with a local key and
    chained to its predecessor by the predecessor's authenticator.  The file
    system ([FileSystem]) and HMAC-SHA-256 ([Hmac]) are outside the repository.
    A function that calls the file system takes the volume and returns it; the
    [goto cleanup] of the code is the [match] around an inner function. *)

From S2P Require Import Prelude Wire MgmtCrypto MgmtCodec MgmtEnvelope ControlPrimitives ControlMmp FileSystem.

Definition MESH_CONTROL_WAL_VERSION_V1 : Z := 1.
Definition MESH_CONTROL_WAL_MAX_RECORDS_V1 : Z := 4096.
Definition MESH_CONTROL_WAL_MAX_FILE_SIZE_V1 : Z := 67535104.
Definition WAL_HEADER_SIZE : Z := 256.
Definition WAL_HEADER_AUTH_OFFSET : nat := 224.
Definition WAL_RECORD_HEADER_SIZE : Z := 72.
Definition WAL_RECORD_AUTH_SIZE : Z := 32.
Definition WAL_RECORD_FIXED_SIZE : Z := WAL_RECORD_HEADER_SIZE + WAL_RECORD_AUTH_SIZE.
Definition WAL_RECORD_TYPE_SIGNED_INTENT : Z := 1.
Definition WAL_RECORD_TYPE_OPERATION_RESULT : Z := 2.
Definition WAL_OPERATION_RESULT_SIZE : Z := 80.
Definition MESH_CONTROL_WAL_OPERATION_SUCCEEDED : Z := 1.
Definition MESH_CONTROL_WAL_OPERATION_FAILED : Z := 2.
Definition INT_MAX : Z := 2 ^ 31 - 1.

(** ["TMCWAL01"], ["TCWR"], ["TCRES001"], [".lock"], [".compact"] *)
Definition WAL_MAGIC : bytes := [84; 77; 67; 87; 65; 76; 48; 49].
Definition WAL_RECORD_MAGIC : bytes := [84; 67; 87; 82].
Definition WAL_RESULT_MAGIC : bytes := [84; 67; 82; 69; 83; 48; 48; 49].
Definition LOCK_SUFFIX : bytes := [46; 108; 111; 99; 107].
Definition COMPACT_SUFFIX : bytes := [46; 99; 111; 109; 112; 97; 99; 116].

Inductive mesh_control_wal_result : Type :=
  | MESH_CONTROL_WAL_OK
  | MESH_CONTROL_WAL_INVALID_ARG
  | MESH_CONTROL_WAL_INVALID_STATE
  | MESH_CONTROL_WAL_IO
  | MESH_CONTROL_WAL_COMMIT_UNKNOWN
  | MESH_CONTROL_WAL_LOCKED
  | MESH_CONTROL_WAL_CORRUPT
  | MESH_CONTROL_WAL_AUTH_FAILED
  | MESH_CONTROL_WAL_BINDING_MISMATCH
  | MESH_CONTROL_WAL_CONFLICT
  | MESH_CONTROL_WAL_RESOURCE_EXHAUSTED
  | MESH_CONTROL_WAL_CALLBACK_FAILED.

#[export] Instance mesh_control_wal_result_eq_dec : EqDecision mesh_control_wal_result.
Proof. solve_decision. Defined.

(** [result == MESH_CONTROL_WAL_OK] *)
Definition wal_ok (result : mesh_control_wal_result) : bool :=
  match result with MESH_CONTROL_WAL_OK => true | _ => false end.

Record mesh_control_wal_config : Type := mk_wal_config {
  wc_path : option bytes;
  wc_record_capacity : Z;
  wc_byte_capacity : Z;
  wc_mesh_id : bytes;
  wc_node_id : bytes;
  wc_controller_principal : bytes;
  wc_controller_node_id : bytes;
  wc_principal_epoch : Z;
  wc_incarnation : Z;
  wc_certificate_serial : Z;
  wc_session_id : bytes;
  wc_authentication_key : bytes }.

Record mesh_control_wal_operation_result : Type := mk_wal_operation_result {
  wo_operation_id : bytes;
  wo_resource_kind : Z;
  wo_action : Z;
  wo_outcome : Z;
  wo_reserved : Z;
  wo_resource_id : bytes;
  wo_desired_epoch : Z }.

Definition zero_operation_result : mesh_control_wal_operation_result :=
  mk_wal_operation_result (zeros 16) 0 0 0 0 (zeros 32) 0.

Record mesh_control_wal_record_view : Type := mk_wal_view {
  wv_log_index : Z;
  wv_accepted_at_ms : Z;
  wv_record_type : Z;
  wv_reserved : Z;
  wv_signed_frame : option bytes;
  wv_signed_frame_size : Z;
  wv_operation_result : mesh_control_wal_operation_result }.

Record mesh_control_wal_stats : Type := mk_wal_stats {
  ws_base_index : Z;
  ws_tail_index : Z;
  ws_record_count : Z;
  ws_record_capacity : Z;
  ws_file_size : Z;
  ws_byte_capacity : Z;
  ws_open : bool;
  ws_faulted : bool }.

(** ** HMAC-SHA-256 of OpenSSL *)

(** What [HMAC(EVP_sha256(), key, ...)] writes; nothing when it returns NULL. *)
Class Hmac : Type := { HMAC : bytes → bytes → option bytes }.
(** Documented behaviour: the output has 32 bytes. *)
Class HmacLaws `{Hmac} : Prop := { hmac_size key m d : HMAC key m = Some d → bytes_ok 32 d }.

Section Wal.
Context {CR : Crypto} {HM : Hmac} {FS : FileSystem}.

Record mesh_control_wal : Type := mk_wal {
  wl_config : mesh_control_wal_config;
  wl_path : bytes;
  wl_lock_path : bytes;
  wl_lock_file : turbo_file;
  wl_base_index : Z;
  wl_tail_index : Z;
  wl_base_authenticator : bytes;
  wl_tail_previous_authenticator : bytes;
  wl_tail_authenticator : bytes;
  wl_record_count : Z;
  wl_file_size : Z;
  wl_open : bool;
  wl_faulted : bool }.

Definition zero_wal_config : mesh_control_wal_config :=
  mk_wal_config None 0 0 (zeros 32) (zeros 32) (zeros 32) (zeros 32) 0 0 0 (zeros 16) (zeros 32).

(** The structure after [memset], with [lock_file] set. *)
Definition wiped_wal (lock_file : turbo_file) : mesh_control_wal :=
  mk_wal zero_wal_config [] [] lock_file 0 0 (zeros 32) (zeros 32) (zeros 32) 0 0 false false.

Definition set_lock (h : turbo_file) (w : mesh_control_wal) : mesh_control_wal :=
  mk_wal (wl_config w) (wl_path w) (wl_lock_path w) h (wl_base_index w) (wl_tail_index w)
    (wl_base_authenticator w) (wl_tail_previous_authenticator w) (wl_tail_authenticator w)
    (wl_record_count w) (wl_file_size w) (wl_open w) (wl_faulted w).
Definition set_open (w : mesh_control_wal) : mesh_control_wal :=
  mk_wal (wl_config w) (wl_path w) (wl_lock_path w) (wl_lock_file w) (wl_base_index w)
    (wl_tail_index w) (wl_base_authenticator w) (wl_tail_previous_authenticator w)
    (wl_tail_authenticator w) (wl_record_count w) (wl_file_size w) true (wl_faulted w).
Definition set_faulted (w : mesh_control_wal) : mesh_control_wal :=
  mk_wal (wl_config w) (wl_path w) (wl_lock_path w) (wl_lock_file w) (wl_base_index w)
    (wl_tail_index w) (wl_base_authenticator w) (wl_tail_previous_authenticator w)
    (wl_tail_authenticator w) (wl_record_count w) (wl_file_size w) (wl_open w) true.
Definition set_base (index : Z) (auth : bytes) (w : mesh_control_wal) : mesh_control_wal :=
  mk_wal (wl_config w) (wl_path w) (wl_lock_path w) (wl_lock_file w) index
    (wl_tail_index w) auth (wl_tail_previous_authenticator w)
    (wl_tail_authenticator w) (wl_record_count w) (wl_file_size w) (wl_open w) (wl_faulted w).
Definition set_tail (index : Z) (previous auth : bytes) (w : mesh_control_wal) : mesh_control_wal :=
  mk_wal (wl_config w) (wl_path w) (wl_lock_path w) (wl_lock_file w) (wl_base_index w)
    index (wl_base_authenticator w) previous auth
    (wl_record_count w) (wl_file_size w) (wl_open w) (wl_faulted w).
Definition set_count (n : Z) (w : mesh_control_wal) : mesh_control_wal :=
  mk_wal (wl_config w) (wl_path w) (wl_lock_path w) (wl_lock_file w) (wl_base_index w)
    (wl_tail_index w) (wl_base_authenticator w) (wl_tail_previous_authenticator w)
    (wl_tail_authenticator w) n (wl_file_size w) (wl_open w) (wl_faulted w).
Definition set_size (n : Z) (w : mesh_control_wal) : mesh_control_wal :=
  mk_wal (wl_config w) (wl_path w) (wl_lock_path w) (wl_lock_file w) (wl_base_index w)
    (wl_tail_index w) (wl_base_authenticator w) (wl_tail_previous_authenticator w)
    (wl_tail_authenticator w) (wl_record_count w) n (wl_open w) (wl_faulted w).

Definition bytes_zero (b : bytes) : bool := or_bytes b =? 0.

Definition operation_result_valid (r : mesh_control_wal_operation_result) : bool :=
  negb (bytes_zero (wo_operation_id r)) &&
  (MESH_CONTROL_RESOURCE_NODE <=? wo_resource_kind r) &&
  (wo_resource_kind r <=? MESH_CONTROL_RESOURCE_RELEASE) &&
  ((wo_action r =? MESH_CONTROL_DESIRED_APPLY) || (wo_action r =? MESH_CONTROL_DESIRED_DELETE)) &&
  ((wo_outcome r =? MESH_CONTROL_WAL_OPERATION_SUCCEEDED) ||
   (wo_outcome r =? MESH_CONTROL_WAL_OPERATION_FAILED)) &&
  (wo_reserved r =? 0) && negb (bytes_zero (wo_resource_id r)) && negb (wo_desired_epoch r =? 0).

Definition encode_operation_result (r : mesh_control_wal_operation_result) : option bytes :=
  if negb (operation_result_valid r) then None
  else Some (WAL_RESULT_MAGIC ++
    mesh_mgmt_wire_write_u32 MESH_CONTROL_WAL_VERSION_V1 ++
    mesh_mgmt_wire_write_u32 WAL_OPERATION_RESULT_SIZE ++
    wo_operation_id r ++
    mesh_mgmt_wire_write_u16 (wo_resource_kind r) ++
    mesh_mgmt_wire_write_u16 (wo_action r) ++
    mesh_mgmt_wire_write_u16 (wo_outcome r) ++ zeros 2 ++
    wo_resource_id r ++
    mesh_mgmt_wire_write_u64 (wo_desired_epoch r)).

(** The verdict and the contents of [out_result], which a refused payload may
    have filled. *)
Definition decode_operation_result (b : bytes) (size : Z)
    (out_result : mesh_control_wal_operation_result) : bool * mesh_control_wal_operation_result :=
  if negb (size =? WAL_OPERATION_RESULT_SIZE) || negb (memeq 8 b WAL_RESULT_MAGIC) ||
     negb (mesh_mgmt_wire_read_u32 (sub b 8 4) =? MESH_CONTROL_WAL_VERSION_V1) ||
     negb (mesh_mgmt_wire_read_u32 (sub b 12 4) =? WAL_OPERATION_RESULT_SIZE) ||
     negb (mesh_mgmt_wire_read_u16 (sub b 38 2) =? 0)
  then (false, out_result)
  else
    let out_result :=
      mk_wal_operation_result (sub b 16 16) (mesh_mgmt_wire_read_u16 (sub b 32 2))
        (mesh_mgmt_wire_read_u16 (sub b 34 2)) (mesh_mgmt_wire_read_u16 (sub b 36 2)) 0
        (sub b 40 32) (mesh_mgmt_wire_read_u64 (sub b 72 8)) in
    (operation_result_valid out_result, out_result).

Definition calculate_hmac (key b : bytes) : option bytes :=
  if INT_MAX <? len b then None
  else match HMAC key b with
       | Some output => if len output =? 32 then Some output else None
       | None => None
       end.

Definition wal_config_valid (config : option mesh_control_wal_config) : bool :=
  match config with
  | None => false
  | Some c =>
      match wc_path c with
      | None => false
      | Some path =>
          negb (bool_decide (path = [])) && turbo_fs_path_is_absolute path &&
          (len path <? TURBO_FS_MAX_PATH - 6) &&
          negb (wc_record_capacity c =? 0) &&
          (wc_record_capacity c <=? MESH_CONTROL_WAL_MAX_RECORDS_V1) &&
          (WAL_HEADER_SIZE + WAL_RECORD_FIXED_SIZE + 1 <=? wc_byte_capacity c) &&
          (wc_byte_capacity c <=? MESH_CONTROL_WAL_MAX_FILE_SIZE_V1) &&
          negb (bytes_zero (wc_mesh_id c)) && negb (bytes_zero (wc_node_id c)) &&
          negb (bytes_zero (wc_controller_principal c)) &&
          negb (bytes_zero (wc_controller_node_id c)) &&
          negb (wc_principal_epoch c =? 0) && negb (wc_incarnation c =? 0) &&
          negb (wc_certificate_serial c =? 0) && negb (bytes_zero (wc_session_id c)) &&
          negb (bytes_zero (wc_authentication_key c))
      end
  end.

(** [while (offset < size)]: a round advances by at least one byte, so the
    remaining length is enough rounds. *)
Fixpoint write_loop (rounds : nat) (file : turbo_file) (b : bytes) (offset : Z) (v : volume) :
    mesh_control_wal_result * volume :=
  match rounds with
  | O => (MESH_CONTROL_WAL_OK, v)
  | S rounds' =>
      if len b <=? offset then (MESH_CONTROL_WAL_OK, v)
      else
        let '(written, v) := turbo_fs_write file (drop (Z.to_nat offset) b) v in
        if written <=? 0 then (MESH_CONTROL_WAL_IO, v)
        else write_loop rounds' file b (offset + written) v
  end.
Definition write_all (file : turbo_file) (b : bytes) (v : volume) :
    mesh_control_wal_result * volume := write_loop (length b) file b 0 v.

Fixpoint read_loop (rounds : nat) (file : turbo_file) (size : Z) (buffer : bytes) (offset : Z)
    (v : volume) : mesh_control_wal_result * bytes * volume :=
  match rounds with
  | O => (MESH_CONTROL_WAL_OK, buffer, v)
  | S rounds' =>
      if size <=? offset then (MESH_CONTROL_WAL_OK, buffer, v)
      else
        let '(read_size, data, v) := turbo_fs_read file (size - offset) v in
        if read_size <=? 0 then (MESH_CONTROL_WAL_CORRUPT, buffer, v)
        else read_loop rounds' file size (buffer ++ data) (offset + read_size) v
  end.
(** The verdict and the bytes stored in the buffer. *)
Definition read_exact (file : turbo_file) (size : Z) (v : volume) :
    mesh_control_wal_result * bytes * volume := read_loop (Z.to_nat size) file size [] 0 v.

(** The header without its authenticator. *)
Definition header_fields_bytes (w : mesh_control_wal) : bytes :=
  WAL_MAGIC ++ mesh_mgmt_wire_write_u32 MESH_CONTROL_WAL_VERSION_V1 ++
  mesh_mgmt_wire_write_u32 WAL_HEADER_SIZE ++
  mesh_mgmt_wire_write_u64 (wl_base_index w) ++
  wc_mesh_id (wl_config w) ++ wc_node_id (wl_config w) ++
  wc_controller_principal (wl_config w) ++ wc_controller_node_id (wl_config w) ++
  mesh_mgmt_wire_write_u64 (wc_principal_epoch (wl_config w)) ++
  mesh_mgmt_wire_write_u64 (wc_incarnation (wl_config w)) ++
  mesh_mgmt_wire_write_u64 (wc_certificate_serial (wl_config w)) ++
  wc_session_id (wl_config w) ++ wl_base_authenticator w.

Definition wal_encode_header (w : mesh_control_wal) : option bytes :=
  let output := header_fields_bytes w in
  match calculate_hmac (wc_authentication_key (wl_config w)) output with
  | None => None
  | Some authenticator => Some (output ++ authenticator)
  end.

Definition validate_header (w : mesh_control_wal) (b : bytes) :
    mesh_control_wal_result * mesh_control_wal :=
  let c := wl_config w in
  if negb (memeq 8 b WAL_MAGIC) ||
     negb (mesh_mgmt_wire_read_u32 (sub b 8 4) =? MESH_CONTROL_WAL_VERSION_V1) ||
     negb (mesh_mgmt_wire_read_u32 (sub b 12 4) =? WAL_HEADER_SIZE)
  then (MESH_CONTROL_WAL_CORRUPT, w)
  else
    match calculate_hmac (wc_authentication_key c) (take WAL_HEADER_AUTH_OFFSET b) with
    | None => (MESH_CONTROL_WAL_AUTH_FAILED, w)
    | Some authenticator =>
        if negb (mesh_mgmt_crypto_equal_32 (Some authenticator)
                   (Some (sub b WAL_HEADER_AUTH_OFFSET 32)))
        then (MESH_CONTROL_WAL_AUTH_FAILED, w)
        else if negb (memeq 32 (drop 24 b) (wc_mesh_id c)) ||
                negb (memeq 32 (drop 56 b) (wc_node_id c)) ||
                negb (memeq 32 (drop 88 b) (wc_controller_principal c)) ||
                negb (memeq 32 (drop 120 b) (wc_controller_node_id c)) ||
                negb (mesh_mgmt_wire_read_u64 (sub b 152 8) =? wc_principal_epoch c) ||
                negb (mesh_mgmt_wire_read_u64 (sub b 160 8) =? wc_incarnation c) ||
                negb (mesh_mgmt_wire_read_u64 (sub b 168 8) =? wc_certificate_serial c) ||
                negb (memeq 16 (drop 176 b) (wc_session_id c))
        then (MESH_CONTROL_WAL_BINDING_MISMATCH, w)
        else
          let base_index := mesh_mgmt_wire_read_u64 (sub b 16 8) in
          let base := sub b 192 32 in
          (MESH_CONTROL_WAL_OK, w |> set_base base_index base |> set_tail base_index base base)
    end.

Definition validate_signed_frame (w : mesh_control_wal) (accepted_at_ms : Z) (frame : bytes)
    (frame_size : Z) : mesh_control_wal_result :=
  let c := wl_config w in
  if (frame_size =? 0) || (MESH_MGMT_FRAME_MAX <? frame_size) then MESH_CONTROL_WAL_CORRUPT
  else
    match mesh_mgmt_envelope_verify_v1 (Some (take (Z.to_nat frame_size) frame))
            (Some zero_envelope) with
    | (MESH_MGMT_ENVELOPE_AUTH_FAILED, _) | (MESH_MGMT_ENVELOPE_CRYPTO_FAILURE, _) =>
        MESH_CONTROL_WAL_AUTH_FAILED
    | (MESH_MGMT_ENVELOPE_OK, verified) =>
        if negb (fv_kind (ve_frame (deref zero_envelope verified)) =? MESH_MGMT_KIND_CONTROL_FRAME)
        then MESH_CONTROL_WAL_CORRUPT
        else
          match mesh_control_mmp_payload_decode_v1 verified (Some zero_control_envelope)
                  (Some None) (Some 0) with
          | (MESH_CONTROL_MMP_OK, envelope, _, _) =>
              let e := deref zero_control_envelope envelope in
              if (accepted_at_ms <? ce_issued_at_ms e) || (ce_expires_at_ms e <=? accepted_at_ms) ||
                 negb (memeq 32 (ce_mesh_id e) (wc_mesh_id c)) ||
                 negb (memeq 32 (ce_target_node_id e) (wc_node_id c)) ||
                 negb (memeq 32 (ce_origin_principal e) (wc_controller_principal c)) ||
                 negb (memeq 32 (ce_origin_node_id e) (wc_controller_node_id c)) ||
                 negb (ce_principal_epoch e =? wc_principal_epoch c) ||
                 negb (ce_incarnation e =? wc_incarnation c) ||
                 negb (ce_certificate_serial e =? wc_certificate_serial c) ||
                 negb (memeq 16 (ce_session_id e) (wc_session_id c))
              then MESH_CONTROL_WAL_BINDING_MISMATCH
              else MESH_CONTROL_WAL_OK
          | _ => MESH_CONTROL_WAL_CORRUPT
          end
    | _ => MESH_CONTROL_WAL_CORRUPT
    end.

Definition calculate_record_authenticator (w : mesh_control_wal) (header frame : bytes)
    (frame_size : Z) : option bytes :=
  if MESH_MGMT_FRAME_MAX <? frame_size then None
  else calculate_hmac (wc_authentication_key (wl_config w))
         (header ++ take (Z.to_nat frame_size) frame).

Definition validate_record (w : mesh_control_wal) (header payload authenticator : bytes)
    (expected_index : Z) (expected_previous : bytes) (out_record_type : option Z)
    (out_operation_result : option mesh_control_wal_operation_result) :
    mesh_control_wal_result * option Z * option mesh_control_wal_operation_result :=
  let record_type := mesh_mgmt_wire_read_u16 (sub header 6 2) in
  let payload_size := mesh_mgmt_wire_read_u32 (sub header 12 4) in
  let record_size := mesh_mgmt_wire_read_u64 (sub header 16 8) in
  let log_index := mesh_mgmt_wire_read_u64 (sub header 24 8) in
  let accepted_at_ms := mesh_mgmt_wire_read_u64 (sub header 32 8) in
  if negb (memeq 4 header WAL_RECORD_MAGIC) ||
     negb (mesh_mgmt_wire_read_u16 (sub header 4 2) =? MESH_CONTROL_WAL_VERSION_V1) ||
     (negb (record_type =? WAL_RECORD_TYPE_SIGNED_INTENT) &&
      negb (record_type =? WAL_RECORD_TYPE_OPERATION_RESULT)) ||
     negb (mesh_mgmt_wire_read_u32 (sub header 8 4) =? WAL_RECORD_HEADER_SIZE) ||
     (payload_size =? 0) || (MESH_MGMT_FRAME_MAX <? payload_size) ||
     negb (record_size =? WAL_RECORD_FIXED_SIZE + payload_size) ||
     negb (log_index =? expected_index) || negb (memeq 32 (drop 40 header) expected_previous)
  then (MESH_CONTROL_WAL_CORRUPT, out_record_type, out_operation_result)
  else if negb (mesh_mgmt_crypto_equal_32
                  (calculate_record_authenticator w header payload payload_size)
                  (Some authenticator))
  then (MESH_CONTROL_WAL_AUTH_FAILED, out_record_type, out_operation_result)
  else
    let out_record_type := assign out_record_type record_type in
    if record_type =? WAL_RECORD_TYPE_SIGNED_INTENT
    then (validate_signed_frame w accepted_at_ms payload payload_size, out_record_type,
          out_operation_result)
    else if (accepted_at_ms =? 0) || negb (payload_size =? WAL_OPERATION_RESULT_SIZE)
    then (MESH_CONTROL_WAL_CORRUPT, out_record_type, out_operation_result)
    else
      let '(valid, decoded) :=
        decode_operation_result payload payload_size
          (deref zero_operation_result out_operation_result) in
      (if valid then MESH_CONTROL_WAL_OK else MESH_CONTROL_WAL_CORRUPT, out_record_type,
       assign out_operation_result decoded).

(** [close] of a handle whose earlier result was [result]. *)
Definition close_after (file : turbo_file) (result : mesh_control_wal_result)
    (failure : mesh_control_wal_result) (v : volume) : mesh_control_wal_result * volume :=
  let '(closed, v) := turbo_fs_close file v in
  (if negb (closed =? 0) && wal_ok result then failure else result, v).

Definition create_empty_file (w : mesh_control_wal) (v : volume) :
    mesh_control_wal_result * mesh_control_wal * volume :=
  match wal_encode_header w with
  | None => (MESH_CONTROL_WAL_AUTH_FAILED, w, v)
  | Some header =>
      let '(file, v) :=
        turbo_fs_open (wl_path w) [TURBO_FS_O_WRONLY; TURBO_FS_O_CREAT; TURBO_FS_O_TRUNC] v in
      if bool_decide (file = TURBO_INVALID_FILE) then (MESH_CONTROL_WAL_IO, w, v)
      else
        let '(result, v) := write_all file header v in
        let '(result, v) :=
          if wal_ok result then
            let '(synced, v) := turbo_fs_fsync file v in
            (if negb (synced =? 0) then MESH_CONTROL_WAL_COMMIT_UNKNOWN else result, v)
          else (result, v) in
        let '(result, v) := close_after file result MESH_CONTROL_WAL_COMMIT_UNKNOWN v in
        (result, if wal_ok result then set_size WAL_HEADER_SIZE w else w, v)
  end.

(** [while (offset < size)]: every record advances [offset]. *)
Fixpoint scan_loop (rounds : nat) (file : turbo_file) (size offset next_index : Z)
    (previous : bytes) (w : mesh_control_wal) (v : volume) :
    mesh_control_wal_result * mesh_control_wal * volume :=
  let finish :=
    if negb (offset =? size) then (MESH_CONTROL_WAL_CORRUPT, w, v)
    else (MESH_CONTROL_WAL_OK, set_size size w, v) in
  match rounds with
  | O => finish
  | S rounds' =>
      if size <=? offset then finish
      else if (wc_record_capacity (wl_config w) <=? wl_record_count w) ||
              (size - offset <? WAL_RECORD_FIXED_SIZE) || (next_index =? UINT64_MAX)
      then (MESH_CONTROL_WAL_CORRUPT, w, v)
      else
        match read_exact file WAL_RECORD_HEADER_SIZE v with
        | (MESH_CONTROL_WAL_OK, record_header, v) =>
            let frame_size := mesh_mgmt_wire_read_u32 (sub record_header 12 4) in
            let record_size := mesh_mgmt_wire_read_u64 (sub record_header 16 8) in
            if (frame_size =? 0) || (MESH_MGMT_FRAME_MAX <? frame_size) ||
               negb (record_size =? WAL_RECORD_FIXED_SIZE + frame_size) ||
               (size - offset <? record_size)
            then (MESH_CONTROL_WAL_CORRUPT, w, v)
            else
              match read_exact file frame_size v with
              | (MESH_CONTROL_WAL_OK, frame, v) =>
                  match read_exact file WAL_RECORD_AUTH_SIZE v with
                  | (MESH_CONTROL_WAL_OK, authenticator, v) =>
                      match validate_record w record_header frame authenticator (next_index + 1)
                              previous None None with
                      | (MESH_CONTROL_WAL_OK, _, _) =>
                          let next_index := next_index + 1 in
                          let w := w |> set_tail next_index previous authenticator
                                     |> set_count (wl_record_count w + 1) in
                          scan_loop rounds' file size (offset + record_size) next_index
                            authenticator w v
                      | (result, _, _) => (result, w, v)
                      end
                  | (result, _, v) => (result, w, v)
                  end
              | (result, _, v) => (result, w, v)
              end
        | (result, _, v) => (result, w, v)
        end
  end.

Definition scan_file (file : turbo_file) (w : mesh_control_wal) (size : Z) (v : volume) :
    mesh_control_wal_result * mesh_control_wal * volume :=
  match read_exact file WAL_HEADER_SIZE v with
  | (MESH_CONTROL_WAL_OK, header, v) =>
      match validate_header w header with
      | (MESH_CONTROL_WAL_OK, w) =>
          scan_loop (Z.to_nat (size - WAL_HEADER_SIZE)) file size WAL_HEADER_SIZE
            (wl_base_index w) (wl_base_authenticator w) w v
      | (result, w) => (result, w, v)
      end
  | (result, _, v) => (result, w, v)
  end.

Definition scan_existing (w : mesh_control_wal) (size : Z) (v : volume) :
    mesh_control_wal_result * mesh_control_wal * volume :=
  if (size <? WAL_HEADER_SIZE) || (wc_byte_capacity (wl_config w) <? size)
  then (MESH_CONTROL_WAL_CORRUPT, w, v)
  else
    let '(file, v) := turbo_fs_open (wl_path w) [TURBO_FS_O_RDONLY] v in
    if bool_decide (file = TURBO_INVALID_FILE) then (MESH_CONTROL_WAL_IO, w, v)
    else
      let '(result, w, v) := scan_file file w size v in
      let '(result, v) := close_after file result MESH_CONTROL_WAL_IO v in
      (result, w, v).

Definition mesh_control_wal_close_v1 (wal : option mesh_control_wal) (v : volume) :
    option mesh_control_wal * volume :=
  match wal with
  | None => (None, v)
  | Some w =>
      let v :=
        if bool_decide (wl_lock_file w = TURBO_INVALID_FILE) then v
        else
          let v := if wl_open w then (turbo_fs_unlock (wl_lock_file w) v).2 else v in
          (turbo_fs_close (wl_lock_file w) v).2 in
      (Some (wiped_wal TURBO_INVALID_FILE), v)
  end.

(** The structure filled before the lock is taken. *)
Definition opening (config : mesh_control_wal_config) : mesh_control_wal :=
  let path := deref [] (wc_path config) in
  mk_wal (mk_wal_config (Some path) (wc_record_capacity config) (wc_byte_capacity config)
            (wc_mesh_id config) (wc_node_id config) (wc_controller_principal config)
            (wc_controller_node_id config) (wc_principal_epoch config) (wc_incarnation config)
            (wc_certificate_serial config) (wc_session_id config) (wc_authentication_key config))
    path (path ++ LOCK_SUFFIX) TURBO_INVALID_FILE 0 0 (zeros 32) (zeros 32) (zeros 32) 0 0
    false false.

Definition open_file (w : mesh_control_wal) (v : volume) :
    mesh_control_wal_result * mesh_control_wal * volume :=
  match turbo_fs_lstat (wl_path w) v with
  | Some stat =>
      if negb (st_is_file stat) || st_is_symlink stat || (SIZE_MAX <? st_size stat)
      then (MESH_CONTROL_WAL_CORRUPT, w, v)
      else scan_existing w (st_size stat) v
  | None => create_empty_file w v
  end.

Definition open_locked (w : mesh_control_wal) (v : volume) :
    mesh_control_wal_result * mesh_control_wal * volume :=
  if TURBO_FS_MAX_PATH <=? len (wl_lock_path w) then (MESH_CONTROL_WAL_INVALID_ARG, w, v)
  else if match turbo_fs_lstat (wl_lock_path w) v with
          | Some stat => st_is_symlink stat
          | None => false
          end
  then (MESH_CONTROL_WAL_CORRUPT, w, v)
  else
    let '(lock_file, v) :=
      turbo_fs_open (wl_lock_path w) [TURBO_FS_O_RDWR; TURBO_FS_O_CREAT] v in
    let w := set_lock lock_file w in
    if bool_decide (lock_file = TURBO_INVALID_FILE) then (MESH_CONTROL_WAL_IO, w, v)
    else
      let '(locked, v) := turbo_fs_lock lock_file v in
      if negb (locked =? 0) then (MESH_CONTROL_WAL_LOCKED, w, v)
      else open_file (set_open w) v.

Definition mesh_control_wal_open_v1 (wal : option mesh_control_wal)
    (config : option mesh_control_wal_config) (v : volume) :
    mesh_control_wal_result * option mesh_control_wal * volume :=
  match wal, config with
  | Some w, Some c =>
      if wl_open w || negb (wal_config_valid config) then (MESH_CONTROL_WAL_INVALID_ARG, wal, v)
      else
        let '(result, w, v) := open_locked (opening c) v in
        if wal_ok result then (MESH_CONTROL_WAL_OK, Some w, v)
        else
          let '(wal, v) := mesh_control_wal_close_v1 (Some w) v in
          (result, wal, v)
  | _, _ => (MESH_CONTROL_WAL_INVALID_ARG, wal, v)
  end.

(** The header of a record chained to [previous]. *)
Definition record_header_bytes (record_type log_index recorded_at_ms payload_size : Z)
    (previous : bytes) : bytes :=
  WAL_RECORD_MAGIC ++ mesh_mgmt_wire_write_u16 MESH_CONTROL_WAL_VERSION_V1 ++
  mesh_mgmt_wire_write_u16 record_type ++ mesh_mgmt_wire_write_u32 WAL_RECORD_HEADER_SIZE ++
  mesh_mgmt_wire_write_u32 (wrap 32 payload_size) ++
  mesh_mgmt_wire_write_u64 (WAL_RECORD_FIXED_SIZE + payload_size) ++
  mesh_mgmt_wire_write_u64 log_index ++ mesh_mgmt_wire_write_u64 recorded_at_ms ++ previous.

Definition encode_record_header (w : mesh_control_wal)
    (record_type log_index recorded_at_ms payload_size : Z) : bytes :=
  record_header_bytes record_type log_index recorded_at_ms payload_size (wl_tail_authenticator w).

Definition validate_record_payload (w : mesh_control_wal) (record_type recorded_at_ms : Z)
    (payload : bytes) (payload_size : Z) : mesh_control_wal_result :=
  if record_type =? WAL_RECORD_TYPE_SIGNED_INTENT
  then validate_signed_frame w recorded_at_ms payload payload_size
  else if (record_type =? WAL_RECORD_TYPE_OPERATION_RESULT) && negb (recorded_at_ms =? 0) &&
          (decode_operation_result payload payload_size zero_operation_result).1
  then MESH_CONTROL_WAL_OK
  else MESH_CONTROL_WAL_CORRUPT.

Definition record_matches_tail (w : mesh_control_wal) (record_type log_index recorded_at_ms : Z)
    (payload : bytes) (payload_size : Z) : bool :=
  if negb (log_index =? wl_tail_index w) || (wl_record_count w =? 0) then false
  else
    let header := encode_record_header w record_type log_index recorded_at_ms payload_size in
    let header := blit header 40 (wl_tail_previous_authenticator w) in
    wal_ok (validate_record_payload w record_type recorded_at_ms payload payload_size) &&
    mesh_mgmt_crypto_equal_32 (calculate_record_authenticator w header payload payload_size)
      (Some (wl_tail_authenticator w)).

(** From the opening of the file to its closing. *)
Definition append_bytes (w : mesh_control_wal) (header payload authenticator : bytes) (v : volume) :
    mesh_control_wal_result * mesh_control_wal * volume :=
  let '(file, v) := turbo_fs_open (wl_path w) [TURBO_FS_O_WRONLY; TURBO_FS_O_APPEND] v in
  if bool_decide (file = TURBO_INVALID_FILE) then (MESH_CONTROL_WAL_IO, w, v)
  else
    let '(result, v) := write_all file header v in
    let '(result, v) := if wal_ok result then write_all file payload v else (result, v) in
    let '(result, v) := if wal_ok result then write_all file authenticator v else (result, v) in
    let '(unsynced, v) :=
      if wal_ok result then let '(synced, v) := turbo_fs_fsync file v in (negb (synced =? 0), v)
      else (true, v) in
    let '(result, w) :=
      if unsynced then (MESH_CONTROL_WAL_COMMIT_UNKNOWN, set_faulted w) else (result, w) in
    let '(closed, v) := turbo_fs_close file v in
    if negb (closed =? 0) && wal_ok result
    then (MESH_CONTROL_WAL_COMMIT_UNKNOWN, set_faulted w, v)
    else (result, w, v).

Definition append_record (wal : option mesh_control_wal)
    (record_type expected_index recorded_at_ms : Z) (payload : option bytes) (payload_size : Z)
    (out_log_index : option Z) (v : volume) :
    mesh_control_wal_result * option mesh_control_wal * option Z * volume :=
  let out_log_index := assign out_log_index 0 in
  let stop r := (r, wal, out_log_index, v) in
  match wal, payload with
  | Some w, Some bytes =>
      if negb (non_null out_log_index) || (expected_index =? 0) || (payload_size =? 0) ||
         (MESH_MGMT_FRAME_MAX <? payload_size) ||
         (negb (record_type =? WAL_RECORD_TYPE_SIGNED_INTENT) &&
          negb (record_type =? WAL_RECORD_TYPE_OPERATION_RESULT))
      then stop MESH_CONTROL_WAL_INVALID_ARG
      else if negb (wl_open w) || wl_faulted w then stop MESH_CONTROL_WAL_INVALID_STATE
      else if (expected_index =? wl_tail_index w) &&
              record_matches_tail w record_type expected_index recorded_at_ms bytes payload_size
      then (MESH_CONTROL_WAL_OK, wal, assign out_log_index expected_index, v)
      else if (wl_tail_index w =? UINT64_MAX) || negb (expected_index =? wl_tail_index w + 1)
      then stop MESH_CONTROL_WAL_CONFLICT
      else
        match validate_record_payload w record_type recorded_at_ms bytes payload_size with
        | MESH_CONTROL_WAL_OK =>
            let record_size := WAL_RECORD_FIXED_SIZE + payload_size in
            if (wc_record_capacity (wl_config w) <=? wl_record_count w) ||
               (wrap 64 (wc_byte_capacity (wl_config w) - wl_file_size w) <? record_size)
            then stop MESH_CONTROL_WAL_RESOURCE_EXHAUSTED
            else
              let record_header :=
                encode_record_header w record_type expected_index recorded_at_ms payload_size in
              match calculate_record_authenticator w record_header bytes payload_size with
              | None => stop MESH_CONTROL_WAL_AUTH_FAILED
              | Some authenticator =>
                  match append_bytes w record_header (take (Z.to_nat payload_size) bytes)
                          authenticator v with
                  | (MESH_CONTROL_WAL_OK, w, v) =>
                      let w := w |> set_tail expected_index (sub record_header 40 32) authenticator
                                 |> set_count (wl_record_count w + 1)
                                 |> set_size (wl_file_size w + record_size) in
                      (MESH_CONTROL_WAL_OK, Some w, assign out_log_index expected_index, v)
                  | (result, w, v) => (result, Some w, out_log_index, v)
                  end
              end
        | result => stop result
        end
  | _, _ => stop MESH_CONTROL_WAL_INVALID_ARG
  end.

Definition mesh_control_wal_append_v1 (wal : option mesh_control_wal)
    (expected_index accepted_at_ms : Z) (signed_frame : option bytes) (signed_frame_size : Z)
    (out_log_index : option Z) (v : volume) :
    mesh_control_wal_result * option mesh_control_wal * option Z * volume :=
  append_record wal WAL_RECORD_TYPE_SIGNED_INTENT expected_index accepted_at_ms signed_frame
    signed_frame_size out_log_index v.

Definition mesh_control_wal_append_operation_result_v1 (wal : option mesh_control_wal)
    (expected_index recorded_at_ms : Z) (operation_result : option mesh_control_wal_operation_result)
    (out_log_index : option Z) (v : volume) :
    mesh_control_wal_result * option mesh_control_wal * option Z * volume :=
  let out_log_index := assign out_log_index 0 in
  match operation_result ≫= encode_operation_result with
  | None => (MESH_CONTROL_WAL_INVALID_ARG, wal, out_log_index, v)
  | Some payload =>
      append_record wal WAL_RECORD_TYPE_OPERATION_RESULT expected_index recorded_at_ms
        (Some payload) WAL_OPERATION_RESULT_SIZE out_log_index v
  end.

Section Replay.
(** The callback, over a context of any type. *)
Context {C : Type} (callback : C → mesh_control_wal_record_view → Z * C).

Fixpoint replay_loop (count : nat) (w : mesh_control_wal) (file : turbo_file) (after_index : Z)
    (next_index : Z) (previous : bytes) (replayed : Z) (ctx : C) (v : volume) :
    mesh_control_wal_result * Z * C * volume :=
  match count with
  | O => (MESH_CONTROL_WAL_OK, replayed, ctx, v)
  | S count' =>
      match read_exact file WAL_RECORD_HEADER_SIZE v with
      | (MESH_CONTROL_WAL_OK, record_header, v) =>
          let frame_size := mesh_mgmt_wire_read_u32 (sub record_header 12 4) in
          if (frame_size =? 0) || (MESH_MGMT_FRAME_MAX <? frame_size)
          then (MESH_CONTROL_WAL_CORRUPT, replayed, ctx, v)
          else
            match read_exact file frame_size v with
            | (MESH_CONTROL_WAL_OK, frame, v) =>
                match read_exact file WAL_RECORD_AUTH_SIZE v with
                | (MESH_CONTROL_WAL_OK, authenticator, v) =>
                    match validate_record w record_header frame authenticator
                            (wrap 64 (next_index + 1)) previous (Some 0)
                            (Some zero_operation_result) with
                    | (MESH_CONTROL_WAL_OK, record_type, operation_result) =>
                        let record_type := deref 0 record_type in
                        let next_index := wrap 64 (next_index + 1) in
                        let previous := authenticator in
                        if next_index <=? after_index
                        then replay_loop count' w file after_index next_index previous replayed ctx v
                        else
                          let accepted_at_ms := mesh_mgmt_wire_read_u64 (sub record_header 32 8) in
                          let view :=
                            if record_type =? WAL_RECORD_TYPE_SIGNED_INTENT
                            then mk_wal_view next_index accepted_at_ms record_type 0 (Some frame)
                                   frame_size zero_operation_result
                            else mk_wal_view next_index accepted_at_ms record_type 0 None 0
                                   (deref zero_operation_result operation_result) in
                          let '(status, ctx) := callback ctx view in
                          if negb (status =? 0)
                          then (MESH_CONTROL_WAL_CALLBACK_FAILED, replayed, ctx, v)
                          else replay_loop count' w file after_index next_index previous
                                 (replayed + 1) ctx v
                    | (result, _, _) => (result, replayed, ctx, v)
                    end
                | (result, _, v) => (result, replayed, ctx, v)
                end
            | (result, _, v) => (result, replayed, ctx, v)
            end
      | (result, _, v) => (result, replayed, ctx, v)
      end
  end.

Definition replay_file (w : mesh_control_wal) (file : turbo_file) (after_index : Z) (ctx : C)
    (v : volume) : mesh_control_wal_result * Z * C * volume :=
  match read_exact file WAL_HEADER_SIZE v with
  | (MESH_CONTROL_WAL_OK, _, v) =>
      replay_loop (Z.to_nat (wl_record_count w)) w file after_index (wl_base_index w)
        (wl_base_authenticator w) 0 ctx v
  | (result, _, v) => (result, 0, ctx, v)
  end.

End Replay.

Definition mesh_control_wal_replay_v1 {C} (wal : option mesh_control_wal) (after_index : Z)
    (callback : option (C → mesh_control_wal_record_view → Z * C)) (ctx : C)
    (out_replayed : option Z) (v : volume) : mesh_control_wal_result * C * option Z * volume :=
  let out_replayed := assign out_replayed 0 in
  match wal, callback with
  | Some w, Some callback =>
      if negb (non_null out_replayed) then (MESH_CONTROL_WAL_INVALID_ARG, ctx, out_replayed, v)
      else if negb (wl_open w) || wl_faulted w
      then (MESH_CONTROL_WAL_INVALID_STATE, ctx, out_replayed, v)
      else if (after_index <? wl_base_index w) || (wl_tail_index w <? after_index)
      then (MESH_CONTROL_WAL_CONFLICT, ctx, out_replayed, v)
      else
        let '(file, v) := turbo_fs_open (wl_path w) [TURBO_FS_O_RDONLY] v in
        if bool_decide (file = TURBO_INVALID_FILE)
        then (MESH_CONTROL_WAL_IO, ctx, out_replayed, v)
        else
          let '(result, replayed, ctx, v) := replay_file callback w file after_index ctx v in
          let '(result, v) := close_after file result MESH_CONTROL_WAL_IO v in
          (result, ctx, if wal_ok result then assign out_replayed replayed else out_replayed, v)
  | _, _ => (MESH_CONTROL_WAL_INVALID_ARG, ctx, out_replayed, v)
  end.

(** Writing the new segment beside the journal and moving it into place. *)
Definition replace_segment (path temp_path header : bytes) (v : volume) :
    mesh_control_wal_result * volume :=
  let '(file, v) :=
    turbo_fs_open temp_path [TURBO_FS_O_WRONLY; TURBO_FS_O_CREAT; TURBO_FS_O_TRUNC] v in
  if bool_decide (file = TURBO_INVALID_FILE) then (MESH_CONTROL_WAL_IO, v)
  else
    let '(result, v) := write_all file header v in
    let '(result, v) :=
      if wal_ok result then
        let '(synced, v) := turbo_fs_fsync file v in
        (if negb (synced =? 0) then MESH_CONTROL_WAL_IO else result, v)
      else (result, v) in
    let '(result, v) := close_after file result MESH_CONTROL_WAL_IO v in
    let '(result, v) :=
      if wal_ok result then
        let '(renamed, v) := turbo_fs_rename temp_path path v in
        (if negb (renamed =? 0) then MESH_CONTROL_WAL_IO else result, v)
      else (result, v) in
    if wal_ok result then (result, v)
    else (result, if turbo_fs_exists temp_path v then (turbo_fs_unlink temp_path v).2 else v).

Definition mesh_control_wal_compact_v1 (wal : option mesh_control_wal) (checkpoint_index : Z)
    (v : volume) : mesh_control_wal_result * option mesh_control_wal * volume :=
  match wal with
  | None => (MESH_CONTROL_WAL_INVALID_ARG, wal, v)
  | Some w =>
      if negb (wl_open w) || wl_faulted w then (MESH_CONTROL_WAL_INVALID_STATE, wal, v)
      else if negb (checkpoint_index =? wl_tail_index w) then (MESH_CONTROL_WAL_CONFLICT, wal, v)
      else
        let next := set_base checkpoint_index (wl_tail_authenticator w) w in
        match wal_encode_header next with
        | None => (MESH_CONTROL_WAL_AUTH_FAILED, wal, v)
        | Some header =>
            let temp_path := wl_path w ++ COMPACT_SUFFIX in
            if TURBO_FS_MAX_PATH + 9 <=? len temp_path then (MESH_CONTROL_WAL_INVALID_ARG, wal, v)
            else
              match replace_segment (wl_path w) temp_path header v with
              | (MESH_CONTROL_WAL_OK, v) =>
                  let base := wl_base_authenticator next in
                  let w := w |> set_base checkpoint_index base
                             |> set_tail (wl_tail_index w) base base
                             |> set_count 0 |> set_size WAL_HEADER_SIZE in
                  (MESH_CONTROL_WAL_OK, Some w, v)
              | (result, v) => (result, wal, v)
              end
        end
  end.

Definition mesh_control_wal_get_stats_v1 (wal : option mesh_control_wal)
    (out_stats : option mesh_control_wal_stats) :
    mesh_control_wal_result * option mesh_control_wal_stats :=
  match wal with
  | Some w =>
      if negb (non_null out_stats) then (MESH_CONTROL_WAL_INVALID_ARG, out_stats)
      else (MESH_CONTROL_WAL_OK,
            assign out_stats
              (mk_wal_stats (wl_base_index w) (wl_tail_index w) (wl_record_count w)
                 (wc_record_capacity (wl_config w)) (wl_file_size w)
                 (wc_byte_capacity (wl_config w)) (wl_open w) (wl_faulted w)))
  | None => (MESH_CONTROL_WAL_INVALID_ARG, out_stats)
  end.

End Wal.
