(* ===== verification/ControlWalInv.v ===== *)
(** * The journal as a hash chain

    What a journal file contains: a header that anchors the chain at an index and
    an authenticator, and consecutive records, each carrying the authenticator of
    the one before.  [scan_loop] accepts exactly such files, [append_bytes] adds
    one link, and [replay_loop] delivers the entries of the chain in order. *)

From S2P Require Import Prelude Wire MgmtCrypto MgmtCodec MgmtEnvelope ControlPrimitives ControlMmp FileSystem ControlWal.

(** What a record says, apart from its position. *)
Record entry : Type := mk_entry {
  en_type : Z;
  en_at : Z;
  en_payload : bytes }.

Section Records.
Context {CR : Crypto} {HM : Hmac} {HL : HmacLaws} {FS : FileSystem}.
Implicit Types (w : mesh_control_wal) (e : entry).

(** An entry [append_record] accepts. *)
Record entry_ok w e : Prop := {
  eo_type : en_type e = WAL_RECORD_TYPE_SIGNED_INTENT ∨ en_type e = WAL_RECORD_TYPE_OPERATION_RESULT;
  eo_at : u64 (en_at e);
  eo_bytes : Forall u8 (en_payload e);
  eo_size : 0 < len (en_payload e) <= MESH_MGMT_FRAME_MAX;
  eo_valid : validate_record_payload w (en_type e) (en_at e) (en_payload e) (len (en_payload e)) =
    MESH_CONTROL_WAL_OK }.

Definition entry_header (index : Z) (previous : bytes) e : bytes :=
  record_header_bytes (en_type e) index (en_at e) (len (en_payload e)) previous.
Definition entry_auth w (index : Z) (previous : bytes) e : option bytes :=
  calculate_record_authenticator w (entry_header index previous e) (en_payload e)
    (len (en_payload e)).
Definition entry_bytes (index : Z) (previous : bytes) e (auth : bytes) : bytes :=
  entry_header index previous e ++ en_payload e ++ auth.

Definition header_pieces (index : Z) (previous : bytes) e : list bytes :=
  [WAL_RECORD_MAGIC; mesh_mgmt_wire_write_u16 MESH_CONTROL_WAL_VERSION_V1;
   mesh_mgmt_wire_write_u16 (en_type e); mesh_mgmt_wire_write_u32 WAL_RECORD_HEADER_SIZE;
   mesh_mgmt_wire_write_u32 (wrap 32 (len (en_payload e)));
   mesh_mgmt_wire_write_u64 (WAL_RECORD_FIXED_SIZE + len (en_payload e));
   mesh_mgmt_wire_write_u64 index; mesh_mgmt_wire_write_u64 (en_at e); previous].

Lemma entry_header_pieces index previous e : bytes_ok 32 previous →
  entry_header index previous e = concat (header_pieces index previous e) ∧
  length <$> header_pieces index previous e = [4; 2; 2; 4; 4; 8; 8; 8; 32]%nat.
Proof.
  intros [Hp _]. split.
  - unfold entry_header, record_header_bytes, header_pieces. cbn [concat]. by rewrite app_nil_r.
  - cbn [header_pieces fmap list_fmap]. by rewrite Hp.
Qed.

Lemma entry_header_ok index previous e : bytes_ok 32 previous →
  bytes_ok 72 (entry_header index previous e).
Proof.
  intros Hp. split.
  - destruct (entry_header_pieces index previous e Hp) as [-> Hl]. by rewrite length_concat, Hl.
  - unfold entry_header, record_header_bytes.
    rewrite !Forall_app. split_and!; try apply Hp; try apply write_u16_ok; try apply write_u32_ok;
      try apply write_u64_ok. evaluate.
Qed.

Lemma hmac_ok key m d : calculate_hmac key m = Some d → bytes_ok 32 d.
Proof.
  unfold calculate_hmac. repeat case_match; try done. intros [= <-]. eapply hmac_size; eauto.
Qed.

Lemma entry_auth_ok w index previous e a : entry_auth w index previous e = Some a → bytes_ok 32 a.
Proof. unfold entry_auth, calculate_record_authenticator. case_match; [done|]. apply hmac_ok. Qed.

Lemma length_entry_bytes index previous e a : bytes_ok 32 previous → bytes_ok 32 a →
  len (entry_bytes index previous e a) = WAL_RECORD_FIXED_SIZE + len (en_payload e).
Proof.
  intros Hp Ha. unfold entry_bytes, len. rewrite !length_app, (proj1 Ha).
  rewrite (proj1 (entry_header_ok index previous e Hp)).
  unfold WAL_RECORD_FIXED_SIZE, WAL_RECORD_HEADER_SIZE, WAL_RECORD_AUTH_SIZE. lia.
Qed.

(** The verdict on an operation result does not depend on the output buffer. *)
Lemma decode_result_any b n o o' :
  (decode_operation_result b n o).1 = (decode_operation_result b n o').1 ∧
  ((decode_operation_result b n o).1 = true →
   decode_operation_result b n o = decode_operation_result b n o').
Proof. unfold decode_operation_result. by case_match. Qed.

Record entry_typed e : Prop := {
  et_type : u16 (en_type e);
  et_at : u64 (en_at e);
  et_size : len (en_payload e) <= MESH_MGMT_FRAME_MAX }.

Lemma entry_ok_typed w e : entry_ok w e → entry_typed e.
Proof.
  intros [Ht Ha _ Hs _]. split; [|done|lia]. unfold WAL_RECORD_TYPE_SIGNED_INTENT,
    WAL_RECORD_TYPE_OPERATION_RESULT, uint in *. lia.
Qed.

(** The fields of a record header, as the readers see them. *)
Record header_reads (h : bytes) (index : Z) (previous : bytes) e : Prop := {
  hr_magic : sub h 0 4 = WAL_RECORD_MAGIC;
  hr_version : mesh_mgmt_wire_read_u16 (sub h 4 2) = MESH_CONTROL_WAL_VERSION_V1;
  hr_type : mesh_mgmt_wire_read_u16 (sub h 6 2) = en_type e;
  hr_header_size : mesh_mgmt_wire_read_u32 (sub h 8 4) = WAL_RECORD_HEADER_SIZE;
  hr_payload_size : mesh_mgmt_wire_read_u32 (sub h 12 4) = len (en_payload e);
  hr_record_size : mesh_mgmt_wire_read_u64 (sub h 16 8) =
    WAL_RECORD_FIXED_SIZE + len (en_payload e);
  hr_index : mesh_mgmt_wire_read_u64 (sub h 24 8) = index;
  hr_at : mesh_mgmt_wire_read_u64 (sub h 32 8) = en_at e;
  hr_previous : sub h 40 32 = previous }.

Lemma payload_size_range e : entry_typed e →
  u32 (len (en_payload e)) ∧ u64 (WAL_RECORD_FIXED_SIZE + len (en_payload e)).
Proof.
  intros [_ _ Hs]. unfold uint, WAL_RECORD_FIXED_SIZE, WAL_RECORD_HEADER_SIZE,
    WAL_RECORD_AUTH_SIZE, MESH_MGMT_FRAME_MAX, len in *. lia.
Qed.

Lemma entry_header_reads index previous e : entry_typed e → u64 index → bytes_ok 32 previous →
  header_reads (entry_header index previous e) index previous e.
Proof.
  intros Ht Hi Hp. destruct (entry_header_pieces index previous e Hp) as [-> Hl].
  destruct (payload_size_range e Ht) as [Hs Hr]. destruct Ht as [Ht Ha _].
  split; find_pieces Hl; rewrite ?(wrap_small 32) by done;
    rewrite ?wire_read_write_u16, ?wire_read_write_u32, ?wire_read_write_u64; done.
Qed.

Lemma header_reads_unique h index previous e : bytes_ok 72 h → header_reads h index previous e →
  entry_typed e → h = entry_header index previous e.
Proof.
  intros Hh [Hm Hv Ht Hs Hp Hr Hi Ha Hb] Hty. destruct (payload_size_range e Hty) as [Hu _].
  assert (Hw : ∀ off n, (off + n <= 72)%nat → bytes_ok n (sub h off n)).
  { intros off n Hn. eapply sub_bytes_ok; [done|lia]. }
  unfold entry_header, record_header_bytes. rewrite (wrap_small 32) by done.
  rewrite <- Hm, <- Hv, <- Ht, <- Hs, <- Hr, <- Hp, <- Hi, <- Ha, <- Hb.
  rewrite !wire_write_read_u16, !wire_write_read_u32, !wire_write_read_u64 by (apply Hw; lia).
  join. by rewrite sub_all by apply Hh.
Qed.

(** ** Validation of a record *)

(** What a validated record is reported as. *)
Definition reported e (out : option mesh_control_wal_operation_result) :
    option mesh_control_wal_operation_result :=
  if en_type e =? WAL_RECORD_TYPE_SIGNED_INTENT then out
  else assign out (decode_operation_result (en_payload e) (len (en_payload e))
                     zero_operation_result).2.

Lemma memeq_sub n a b off : (off + n <= length a)%nat → length b = n →
  memeq n (drop off a) b = bool_decide (sub a off n = b).
Proof. intros Ha Hb. unfold memeq, sub. by rewrite (take_ge b) by lia. Qed.

(** The result payload check of [validate_record] is the one of
    [validate_record_payload]. *)
Lemma result_payload_valid w e out : entry_typed e → 
  en_type e = WAL_RECORD_TYPE_OPERATION_RESULT →
  (validate_record_payload w (en_type e) (en_at e) (en_payload e) (len (en_payload e)) =
     MESH_CONTROL_WAL_OK ↔
   en_at e ≠ 0 ∧ len (en_payload e) = WAL_OPERATION_RESULT_SIZE ∧
   (decode_operation_result (en_payload e) (len (en_payload e)) out).1 = true).
Proof.
  intros _ ->. unfold validate_record_payload. cbn [Z.eqb].
  change (WAL_RECORD_TYPE_OPERATION_RESULT =? WAL_RECORD_TYPE_SIGNED_INTENT) with false.
  change (WAL_RECORD_TYPE_OPERATION_RESULT =? WAL_RECORD_TYPE_OPERATION_RESULT) with true.
  cbn [andb]. rewrite (proj1 (decode_result_any _ _ zero_operation_result out)).
  destruct (Z.eqb_spec (en_at e) 0); cbn [negb andb].
  { split; [done|]. by intros []. }
  destruct (decode_operation_result _ _ out).1 eqn:E; cbn.
  - split; [|done]. intros _. split_and!; [done| |done]. unfold decode_operation_result in E.
    case_match eqn:G; [done|]. bool_prop. done.
  - split; [done|]. by intros (_ & _ & ?).
Qed.

Lemma equal_32_some x a : bytes_ok 32 a → (∀ y, x = Some y → bytes_ok 32 y) →
  mesh_mgmt_crypto_equal_32 x (Some a) = bool_decide (x = Some a).
Proof.
  intros Ha Hx. destruct x as [y|]; [|done]. rewrite crypto_equal_32_spec by eauto.
  apply bool_decide_ext. split; congruence.
Qed.

(** [validate_record] accepts exactly the entries that fit the chain. *)
Lemma validate_record_entry w index previous e a ot oo : entry_ok w e → u64 index →
  bytes_ok 32 previous → entry_auth w index previous e = Some a →
  validate_record w (entry_header index previous e) (en_payload e) a index previous ot oo =
    (MESH_CONTROL_WAL_OK, assign ot (en_type e), reported e oo).
Proof.
  intros Ho Hi Hp Ha. pose proof (entry_ok_typed _ _ Ho) as Ht.
  pose proof (entry_header_ok index previous e Hp) as Hh.
  pose proof (entry_header_reads index previous e Ht Hi Hp) as [Rm Rv Rt Rs Rp Rr Ri Ra Rb].
  unfold validate_record. rewrite Rv, Rt, Rs, Rp, Rr, Ri, Ra.
  rewrite (memeq_sub 32 _ previous 40) by (rewrite (proj1 Hh) || apply Hp; lia).
  assert (Hm : memeq 4 (entry_header index previous e) WAL_RECORD_MAGIC = true).
  { apply (memeq_prefix _ WAL_RECORD_MAGIC); [rewrite (proj1 Hh); cbn; lia|done]. }
  rewrite Hm, Rb, !Z.eqb_refl, bool_decide_eq_true_2 by done. destruct Ho as [Hty Hat _ Hs Hv].
  rewrite (equal_32_some _ a) by (intros; eapply entry_auth_ok; eauto; done).
  unfold entry_auth in Ha. rewrite Ha, bool_decide_eq_true_2 by done.
  cbn [negb orb andb]. unfold reported.
  destruct (Z.eqb_spec (len (en_payload e)) 0); [lia|].
  destruct (Z.ltb_spec MESH_MGMT_FRAME_MAX (len (en_payload e))); [lia|].
  destruct Hty as [Hty|Hty].
  - unfold validate_record_payload in Hv. rewrite Hty in *. rewrite Z.eqb_refl in *. by rewrite Hv.
  - apply (result_payload_valid w e (deref zero_operation_result oo)) in Hv as (Hn & Hsz & Hd);
      [|done..].
    rewrite Hty. change (WAL_RECORD_TYPE_OPERATION_RESULT =? WAL_RECORD_TYPE_SIGNED_INTENT) with false.
    change (WAL_RECORD_TYPE_OPERATION_RESULT =? WAL_RECORD_TYPE_OPERATION_RESULT) with true.
    cbn [negb orb andb]. rewrite Hsz, Z.eqb_refl in *. destruct (Z.eqb_spec (en_at e) 0); [done|].
    cbn [negb orb]. pose proof (proj2 (decode_result_any _ _ _ zero_operation_result) Hd) as Ed.
    rewrite Ed. rewrite Ed in Hd. destruct (decode_operation_result _ _ _) as [valid d].
    cbn in Hd. by subst valid.
Qed.

Lemma header_entry h pl : ∃ e, en_type e = mesh_mgmt_wire_read_u16 (sub h 6 2) ∧
  en_at e = mesh_mgmt_wire_read_u64 (sub h 32 8) ∧ en_payload e = pl.
Proof. by eexists (mk_entry _ _ _). Qed.

Lemma validate_record_inv w h pl a index previous ot oo t o : bytes_ok 72 h → Forall u8 pl →
  bytes_ok 32 a → bytes_ok 32 previous → len pl = mesh_mgmt_wire_read_u32 (sub h 12 4) →
  validate_record w h pl a index previous ot oo = (MESH_CONTROL_WAL_OK, t, o) →
  ∃ e, en_payload e = pl ∧ entry_ok w e ∧ u64 index ∧ h = entry_header index previous e ∧
    entry_auth w index previous e = Some a.
Proof.
  intros Hh Hpl Ha Hp Hn H.
  assert (Hw : ∀ off n, (off + n <= 72)%nat → bytes_ok n (sub h off n)).
  { intros off n ?. eapply sub_bytes_ok; [done|lia]. }
  assert (H64 : ∀ off, (off + 8 <= 72)%nat → u64 (mesh_mgmt_wire_read_u64 (sub h off 8))).
  { intros off ?. rewrite wire_read_u64_eq by auto. destruct (Hw off 8%nat) as [El Eu]; [lia|].
    pose proof (be_value_range _ Eu) as Hr. unfold len in Hr. by rewrite El in Hr. }
  destruct (header_entry h pl) as (e & Et & Ea & Ep).
  unfold validate_record in H. rewrite <- Hn, <- Et, <- Ea, <- Ep in H.
  rewrite (memeq_sub 32 _ previous 40) in H by (rewrite (proj1 Hh) || apply Hp; lia).
  match type of H with (if ?g then _ else _) = _ => destruct g eqn:G; [done|] end.
  rewrite !orb_false_iff, andb_false_iff in G.
  destruct G as [[[[[[[[Gm Gv] Gt] Gs] Gz] Gx] Gr] Gi] Gb]. bool_prop.
  assert (Hty : entry_typed e).
  { split; [rewrite Et; apply wire_read_u16_range|rewrite Ea; apply H64; lia|lia]. }
  assert (Hr : header_reads h index previous e).
  { split; try congruence.
    by apply (memeq_prefix h WAL_RECORD_MAGIC); [rewrite (proj1 Hh); cbn; lia|]. }
  pose proof (header_reads_unique _ _ _ _ Hh Hr Hty) as Eh.
  match type of H with (if ?g then _ else _) = _ => destruct g eqn:G2; [done|] end.
  apply negb_false_iff in G2.
  assert (Eau : entry_auth w index previous e = Some a).
  { unfold entry_auth. rewrite <- Eh. rewrite equal_32_some in G2; [by bool_prop|done|].
    intros y Ey. rewrite Eh in Ey. by apply (entry_auth_ok w index previous e). }
  exists e. split_and!; [done| |rewrite <- Gi; apply H64; lia|done|done].
  split; [destruct Gt; bool_prop; auto|apply Hty|by rewrite Ep| |].
  { unfold len in *. lia. }
  destruct (Z.eqb_spec (en_type e) WAL_RECORD_TYPE_SIGNED_INTENT) as [E1|E1] in H.
  - unfold validate_record_payload. rewrite E1, Z.eqb_refl. congruence.
  - match type of H with (if ?g then _ else _) = _ => destruct g eqn:G3; [done|] end. bool_prop.
    destruct (decode_operation_result _ _ _) as [valid d] eqn:D. destruct valid; [|done].
    apply (result_payload_valid w e (deref zero_operation_result oo));
      [done|destruct Gt; bool_prop; done|]. by rewrite D.
Qed.

(** ** Chains of records *)

(** [chain w i a log b a']: after index [i] and authenticator [a], the bytes [b]
    are the records of [log], and [a'] is the authenticator of the last one. *)
Inductive chain w : Z → bytes → list entry → bytes → bytes → Prop :=
  | chain_nil i a : chain w i a [] [] a
  | chain_cons i a e a1 log b a2 : 0 <= i < UINT64_MAX → entry_ok w e →
      entry_auth w (i + 1) a e = Some a1 → chain w (i + 1) a1 log b a2 →
      chain w i a (e :: log) (entry_bytes (i + 1) a e a1 ++ b) a2.

Lemma chain_inv w i a log b a2 : chain w i a log b a2 →
  (log = [] ∧ b = [] ∧ a2 = a) ∨
  ∃ e x log' b', log = e :: log' ∧ b = entry_bytes (i + 1) a e x ++ b' ∧ 0 <= i < UINT64_MAX ∧
    entry_ok w e ∧ entry_auth w (i + 1) a e = Some x ∧ chain w (i + 1) x log' b' a2.
Proof. destruct 1; [by left|right]. eexists _, _, _, _. eauto 10. Qed.

Lemma chain_end_ok w i a log b a' : chain w i a log b a' → bytes_ok 32 a → bytes_ok 32 a'.
Proof. induction 1; eauto using entry_auth_ok. Qed.

Lemma next_index_range i : 0 <= i < UINT64_MAX → u64 (i + 1).
Proof. unfold UINT64_MAX, uint. lia. Qed.

(** A record delimits itself. *)
Lemma entry_bytes_inj w i a e e' x x' r r' : bytes_ok 32 a → u64 i → entry_ok w e → entry_ok w e' →
  entry_auth w i a e = Some x → entry_auth w i a e' = Some x' →
  entry_bytes i a e x ++ r = entry_bytes i a e' x' ++ r' → e = e' ∧ x = x' ∧ r = r'.
Proof.
  intros Ha Hi Ho Ho' Hx Hx' E.
  assert (Eh : entry_header i a e = entry_header i a e').
  { apply (f_equal (take 72)) in E. unfold entry_bytes in E. rewrite <- !app_assoc in E.
    rewrite !take_app_length' in E by (symmetry; apply entry_header_ok, Ha). done. }
  pose proof (entry_header_reads i a e (entry_ok_typed _ _ Ho) Hi Ha) as R.
  pose proof (entry_header_reads i a e' (entry_ok_typed _ _ Ho') Hi Ha) as R'.
  rewrite Eh in R.
  assert (Et : en_type e = en_type e') by (rewrite <- (hr_type _ _ _ _ R); apply R').
  assert (Ea : en_at e = en_at e') by (rewrite <- (hr_at _ _ _ _ R); apply R').
  assert (El : len (en_payload e) = len (en_payload e'))
    by (rewrite <- (hr_payload_size _ _ _ _ R); apply R').
  unfold entry_bytes in E. rewrite Eh, <- !app_assoc in E. apply app_inv_head in E.
  apply app_inj_1 in E as [Ep E]; [|unfold len in El; lia].
  assert (e = e') as -> by (destruct e, e'; cbn in *; congruence).
  rewrite Hx in Hx'. injection Hx' as ->. apply app_inv_head in E. done.
Qed.

Lemma entry_bytes_nonempty i a e x r : bytes_ok 32 a → entry_bytes i a e x ++ r ≠ [].
Proof.
  intros Ha E. apply (f_equal length) in E. unfold entry_bytes in E. rewrite !length_app in E.
  rewrite (proj1 (entry_header_ok i a e Ha)) in E. cbn in E. lia.
Qed.

Lemma chain_prefix w i a log b a1 : chain w i a log b a1 → bytes_ok 32 a → ∀ log' t a2,
  chain w i a log' (b ++ t) a2 →
  ∃ ext, log' = log ++ ext ∧ chain w (i + Z.of_nat (length log)) a1 ext t a2.
Proof.
  induction 1 as [i a|i a e x log b a1 Hi Ho Hx Hc IH]; intros Ha log' t a2 H2.
  { exists log'. split; [done|]. by rewrite Z.add_0_r. }
  rewrite <- app_assoc in H2.
  apply chain_inv in H2 as [(_ & E & _)|(e' & x' & log2 & b2 & -> & E & _ & Ho' & Hx' & Hc')].
  { by apply entry_bytes_nonempty in E. }
  apply (entry_bytes_inj w) in E as (<- & <- & <-); [|by auto using next_index_range..].
  destruct (IH (entry_auth_ok _ _ _ _ _ Hx) log2 t a2 Hc') as (ext & -> & He).
  exists ext. split; [done|]. cbn [length]. by replace (i + Z.of_nat (S (length log))) with
    (i + 1 + Z.of_nat (length log)) by lia.
Qed.

Lemma chain_app w i a l1 l2 b1 b2 a1 a2 : chain w i a l1 b1 a1 →
  chain w (i + Z.of_nat (length l1)) a1 l2 b2 a2 → chain w i a (l1 ++ l2) (b1 ++ b2) a2.
Proof.
  induction 1 as [i a|i a e x l1 b1 a1 Hi Ho Hx Hc IH]; cbn [length app].
  { by rewrite Z.add_0_r. }
  intros H2. rewrite <- app_assoc. econstructor; eauto. apply IH.
  by replace (i + 1 + Z.of_nat (length l1)) with (i + Z.of_nat (S (length l1))) by lia.
Qed.

Lemma chain_split w l1 : ∀ i a l2 b a2, chain w i a (l1 ++ l2) b a2 →
  ∃ b1 b2 a1, b = b1 ++ b2 ∧ chain w i a l1 b1 a1 ∧
    chain w (i + Z.of_nat (length l1)) a1 l2 b2 a2.
Proof.
  induction l1 as [|e l1 IH]; intros i a l2 b a2 H; cbn [length app] in *.
  { exists [], b, a. rewrite Z.add_0_r. by split_and!; [|constructor|]. }
  apply chain_inv in H as [(? & _)|(e' & x & l & b2 & [= <- <-] & -> & Hi & Ho & Hx & Hc)]; [done|].
  destruct (IH _ _ _ _ _ Hc) as (c1 & c2 & a1 & -> & H1 & H2).
  exists (entry_bytes (i + 1) a e x ++ c1), c2, a1. split_and!; [by rewrite app_assoc|by econstructor|].
  by replace (i + Z.of_nat (S (length l1))) with (i + 1 + Z.of_nat (length l1)) by lia.
Qed.

Lemma chain_one w i a e x : 0 <= i < UINT64_MAX → entry_ok w e → entry_auth w (i + 1) a e = Some x →
  chain w i a [e] (entry_bytes (i + 1) a e x) x.
Proof.
  intros Hi Ho Hx. rewrite <- (app_nil_r (entry_bytes _ _ _ _)). econstructor; eauto. constructor.
Qed.

Lemma chain_det w i a log b a1 b' a1' : bytes_ok 32 a →
  chain w i a log b a1 → chain w i a log b' a1' → b = b' ∧ a1 = a1'.
Proof.
  intros Ha H. revert b' a1' Ha. induction H as [|i a e x log b a1 Hi Ho Hx Hc IH];
    intros b' a1' Ha H2; apply chain_inv in H2 as
      [(? & ? & ?)|(e' & y & l & b2 & ? & ? & _ & _ & Hy & Hc')]; simplify_eq; [done|].
  edestruct IH as [-> ->]; eauto using entry_auth_ok.
Qed.

(** Part of a record is no chain. *)
Lemma chain_torn w i a e x t u log a2 : bytes_ok 32 a → u64 (i + 1) → entry_ok w e →
  entry_auth w (i + 1) a e = Some x → entry_bytes (i + 1) a e x = t ++ u → t ≠ [] → u ≠ [] →
  ¬ chain w i a log t a2.
Proof.
  intros Ha Hi Ho Hx E Ht Hu H.
  apply chain_inv in H as [(_ & ? & _)|(e' & x' & l & b & -> & -> & Hi' & Ho' & Hx' & Hc)]; [done|].
  rewrite <- app_assoc, <- (app_nil_r (entry_bytes _ _ e x)) in E.
  eapply (entry_bytes_inj w) in E as (_ & _ & E); eauto. destruct b; [|done]. by destruct u.
Qed.

Lemma chain_records w i a log b a2 : bytes_ok 32 a → chain w i a log b a2 →
  Z.of_nat (length log) * WAL_RECORD_FIXED_SIZE <= len b.
Proof.
  intros Ha H. induction H as [|i a e x log b a2 Hi Ho Hx Hc IH]; [done|].
  specialize (IH (entry_auth_ok _ _ _ _ _ Hx)). pose proof (entry_auth_ok _ _ _ _ _ Hx) as Hxo.
  pose proof (length_entry_bytes (i + 1) a e x Ha Hxo) as Hl. pose proof (eo_size _ _ Ho) as Hs.
  unfold len in *. rewrite length_app. cbn [length]. unfold WAL_RECORD_FIXED_SIZE,
    WAL_RECORD_HEADER_SIZE, WAL_RECORD_AUTH_SIZE in *. lia.
Qed.

End Records.

(** ** Only the configuration of the journal matters *)

Section Config.
Context {CR : Crypto} {HM : Hmac} {HL : HmacLaws} {FS : FileSystem}.
Context (w w' : mesh_control_wal) (Hc : wl_config w = wl_config w').

Lemma entry_ok_config e : entry_ok w e → entry_ok w' e.
Proof.
  intros [Ht Ha Hb Hs Hv]. split; try done. unfold validate_record_payload, validate_signed_frame in *.
  by rewrite <- Hc.
Qed.

Lemma entry_auth_config i a e : entry_auth w i a e = entry_auth w' i a e.
Proof. unfold entry_auth, calculate_record_authenticator. by rewrite Hc. Qed.

Lemma chain_config i a log b a' : chain w i a log b a' → chain w' i a log b a'.
Proof.
  induction 1; [constructor|]. econstructor; eauto using entry_ok_config.
  by rewrite <- entry_auth_config.
Qed.

End Config.

(** ** Reading and writing whole blocks *)

(** What a crash may leave at [p] in [v'] extends what it may leave in [v]. *)
Definition grown `{FileState} (v v' : volume) (p : bytes) : Prop :=
  ∀ d, survives v' p d → survives v p d ∨ ∃ s t, survives v p (Some s) ∧ d = Some (s ++ t).

Section Blocks.
Context {CR : Crypto} {HM : Hmac} {FS : FileSystem} {FT : FileState} {FL : FileSystemLaws}.
Implicit Types (v : volume) (p c b : bytes).

Lemma grown_trans v1 v2 v3 p : grown v1 v2 p → grown v2 v3 p → grown v1 v3 p.
Proof.
  intros H1 H2 d Hd. apply H2 in Hd as [Hd|(s & t & Hs & ->)]; [by apply H1|].
  apply H1 in Hs as [Hs|(s' & t' & Hs & [= ->])]; right; eauto.
  exists s', (t' ++ t). by rewrite app_assoc.
Qed.

Lemma same_grown v v' p : same_file v v' p → grown v v' p.
Proof. intros [_ H] d Hd. left. auto. Qed.

Lemma read_loop_spec h p c size : ∀ rounds buf off v r b v' n,
  handle_at v h = Some (p, n) → file_at v p = Some c → 0 <= off → size - off <= Z.of_nat rounds →
  read_loop rounds h size buf off v = (r, b, v') →
  (∀ q, same_file v v' q) ∧ (r = MESH_CONTROL_WAL_OK ∨ r = MESH_CONTROL_WAL_CORRUPT) ∧
  (r = MESH_CONTROL_WAL_OK → let m := Z.to_nat (size - off) in
     (m = O ∨ n + m <= length c)%nat ∧ b = buf ++ sub c n m ∧
     handle_at v' h = Some (p, (n + m)%nat)).
Proof.
  assert (Hstop : ∀ buf n v, handle_at v h = Some (p, n) →
    (∀ q, same_file v v q) ∧ (MESH_CONTROL_WAL_OK = MESH_CONTROL_WAL_OK ∨
      MESH_CONTROL_WAL_OK = MESH_CONTROL_WAL_CORRUPT) ∧
    (MESH_CONTROL_WAL_OK = MESH_CONTROL_WAL_OK →
      (0 = 0 ∨ n + 0 <= length c)%nat ∧ buf = buf ++ sub c n 0 ∧
      handle_at v h = Some (p, (n + 0)%nat))).
  { intros buf n v Hh. split_and!; [done|by left|]. intros _. rewrite Nat.add_0_r.
    unfold sub. rewrite take_0, app_nil_r. auto. }
  induction rounds as [|rounds IH]; intros buf off v r b v' n Hh Hf Ho Hr; cbn [read_loop].
  { intros [= <- <- <-]. replace (Z.to_nat (size - off)) with O by lia. auto. }
  destruct (Z.leb_spec size off).
  { intros [= <- <- <-]. replace (Z.to_nat (size - off)) with O by lia. auto. }
  destruct (turbo_fs_read h (size - off) v) as [[rd data] v1] eqn:E.
  pose proof (λ q, read_frame _ _ _ _ _ _ q E) as Hs.
  destruct (Z.leb_spec rd 0) as [|Hrd].
  { intros [= <- <- <-]. split_and!; [done|by right|done]. }
  destruct (read_data _ _ _ _ _ _ _ _ _ E Hrd Hh Hf) as (Hl & Hle & Hn & Hd & Hh1). intros H1.
  eapply IH in H1 as (S1 & R1 & O1); [|done|by rewrite (same_file_content _ _ _ (Hs p))|lia|lia].
  split_and!; [intros q; by eapply same_file_trans|done|]. intros Hok.
  destruct (O1 Hok) as (O2 & -> & O3). unfold len in Hl.
  replace (Z.to_nat (size - off)) with (length data + Z.to_nat (size - (off + rd)))%nat by lia.
  rewrite sub_split, <- Hd. split_and!.
  - right. lia.
  - by rewrite <- app_assoc.
  - by rewrite Nat.add_assoc.
Qed.

Lemma read_exact_spec h p c size v r b v' n :
  handle_at v h = Some (p, n) → file_at v p = Some c → 0 < size →
  read_exact h size v = (r, b, v') →
  (∀ q, same_file v v' q) ∧ (r = MESH_CONTROL_WAL_OK ∨ r = MESH_CONTROL_WAL_CORRUPT) ∧
  (r = MESH_CONTROL_WAL_OK → (n + Z.to_nat size <= length c)%nat ∧ b = sub c n (Z.to_nat size) ∧
     handle_at v' h = Some (p, (n + Z.to_nat size)%nat)).
Proof.
  intros Hh Hf Hs H. unfold read_exact in H.
  eapply read_loop_spec in H as (S1 & R1 & O1); [|done..|lia].
  split_and!; [done..|]. intros Hok. destruct (O1 Hok) as (O2 & -> & O3).
  rewrite Z.sub_0_r in *. split_and!; [lia|done|done].
Qed.

Lemma read_loop_live {LV : FileSystemLive} h p c size : ∀ rounds buf off v n,
  handle_at v h = Some (p, n) → file_at v p = Some c → reliable v → 0 <= off →
  size - off <= Z.of_nat rounds → Z.of_nat n + (size - off) <= len c →
  ∃ b v', read_loop rounds h size buf off v = (MESH_CONTROL_WAL_OK, b, v') ∧ reliable v'.
Proof.
  induction rounds as [|rounds IH]; intros buf off v n Hh Hf Hr Ho Hn Hc; cbn [read_loop]; [eauto|].
  destruct (Z.leb_spec size off); [eauto|].
  destruct (turbo_fs_read h (size - off) v) as [[rd data] v1] eqn:E. unfold len in Hc.
  pose proof (live_read v h (size - off) p n c Hr Hh Hf) as Hlv.
  rewrite E in Hlv. destruct Hlv as [Hrd Hr1]; [lia..|].
  destruct (Z.leb_spec rd 0) as [|_]; [lia|].
  destruct (read_data _ _ _ _ _ _ _ _ _ E Hrd Hh Hf) as (Hl & Hle & Hn1 & Hd & Hh1).
  unfold len in Hl. eapply IH; [done| |done|lia|lia|unfold len; lia].
  by rewrite (same_file_content _ _ _ (read_frame _ _ _ _ _ _ p E)).
Qed.

Lemma read_exact_live {LV : FileSystemLive} h p c size v n :
  handle_at v h = Some (p, n) → file_at v p = Some c → reliable v → 0 < size →
  Z.of_nat n + size <= len c →
  ∃ v', read_exact h size v = (MESH_CONTROL_WAL_OK, sub c n (Z.to_nat size), v') ∧ reliable v' ∧
    handle_at v' h = Some (p, (n + Z.to_nat size)%nat) ∧ ∀ q, same_file v v' q.
Proof.
  intros Hh Hf Hr Hs Hn. unfold read_exact.
  destruct (read_loop_live h p c size (Z.to_nat size) [] 0 v n) as (b & v' & E & Hr'); [done..|lia|lia|lia|].
  destruct (read_exact_spec _ _ _ _ _ _ _ _ _ Hh Hf Hs E) as (S1 & _ & O1).
  destruct (O1 eq_refl) as (_ & -> & O3). exists v'. auto.
Qed.

Lemma write_loop_spec h p b : ∀ rounds off v r v' n c,
  handle_at v h = Some (p, n) → file_at v p = Some c → 0 <= off → len b - off <= Z.of_nat rounds →
  write_loop rounds h b off v = (r, v') →
  (∀ q, q ≠ p → same_file v v' q) ∧ (r = MESH_CONTROL_WAL_OK ∨ r = MESH_CONTROL_WAL_IO) ∧
  grown v v' p ∧
  (∃ k, file_at v' p = Some (c ++ take k (drop (Z.to_nat off) b))) ∧
  (r = MESH_CONTROL_WAL_OK → file_at v' p = Some (c ++ drop (Z.to_nat off) b) ∧
     ∃ n', handle_at v' h = Some (p, n')).
Proof.
  assert (Hstop : ∀ off v n c, handle_at v h = Some (p, n) → file_at v p = Some c →
    (length b <= off)%nat → (∀ q, q ≠ p → same_file v v q) ∧
    (MESH_CONTROL_WAL_OK = MESH_CONTROL_WAL_OK ∨ MESH_CONTROL_WAL_OK = MESH_CONTROL_WAL_IO) ∧
    grown v v p ∧ (∃ k, file_at v p = Some (c ++ take k (drop off b))) ∧
    (MESH_CONTROL_WAL_OK = MESH_CONTROL_WAL_OK → file_at v p = Some (c ++ drop off b) ∧
       ∃ n', handle_at v h = Some (p, n'))).
  { intros off v n c Hh Hf Hl. split_and!; [done|by left|by apply same_grown| |].
    - exists O. by rewrite take_0, app_nil_r.
    - intros _. rewrite drop_ge by lia. rewrite app_nil_r. eauto. }
  induction rounds as [|rounds IH]; intros off v r v' n c Hh Hf Ho Hr; cbn [write_loop].
  { intros [= <- <-]. eapply Hstop; eauto. unfold len in Hr. lia. }
  destruct (Z.leb_spec (len b) off) as [Hb|Hb].
  { intros [= <- <-]. eapply Hstop; eauto. unfold len in Hb. lia. }
  destruct (turbo_fs_write h _ v) as [written v1] eqn:E.
  pose proof (λ q, write_frame _ _ _ _ _ _ _ q E Hh) as Hs.
  destruct (write_data _ _ _ _ _ _ _ _ E Hh Hf) as ((k & Hk & Hf1 & Hkw) & Hh1 & Hg).
  destruct (Z.leb_spec written 0) as [|Hw].
  { intros [= <- <-]. split_and!; [done|by right|done|by exists k|done]. }
  intros H1. destruct (Hh1 Hw) as [n1 Hh1']. specialize (Hkw Hw).
  eapply IH in H1 as (S1 & R1 & G1 & (k2 & F1) & O1); [|done..|lia|lia].
  replace (Z.to_nat (off + written)) with (Z.to_nat off + k)%nat in * by lia.
  rewrite <- drop_drop in *. split_and!.
  - intros q Hq. eapply same_file_trans; eauto.
  - done.
  - by eapply grown_trans.
  - exists (k + k2)%nat. rewrite F1, <- app_assoc, take_take_drop. done.
  - intros Hok. destruct (O1 Hok) as [-> ?]. split; [|done]. by rewrite <- app_assoc, take_drop.
Qed.

Lemma write_all_spec h p b v r v' n c : handle_at v h = Some (p, n) → file_at v p = Some c →
  write_all h b v = (r, v') →
  (∀ q, q ≠ p → same_file v v' q) ∧ (r = MESH_CONTROL_WAL_OK ∨ r = MESH_CONTROL_WAL_IO) ∧
  grown v v' p ∧ (∃ k, file_at v' p = Some (c ++ take k b)) ∧
  (r = MESH_CONTROL_WAL_OK → file_at v' p = Some (c ++ b) ∧ ∃ n', handle_at v' h = Some (p, n')).
Proof.
  intros Hh Hf H. by eapply write_loop_spec in H; [|done..|unfold len; lia].
Qed.

End Blocks.

(** ** Scanning a file *)

(** [w'] is [w] after reading the records [log], encoded as [b]. *)
Record extends `{Hmac, Crypto, FileSystem} (w : mesh_control_wal) (log : list entry) (b : bytes)
    (w' : mesh_control_wal) : Prop := {
  ex_config : wl_config w' = wl_config w;
  ex_paths : wl_path w' = wl_path w ∧ wl_lock_path w' = wl_lock_path w ∧
    wl_lock_file w' = wl_lock_file w;
  ex_base : wl_base_index w' = wl_base_index w ∧
    wl_base_authenticator w' = wl_base_authenticator w;
  ex_flags : wl_open w' = wl_open w ∧ wl_faulted w' = wl_faulted w;
  ex_chain : chain w (wl_tail_index w) (wl_tail_authenticator w) log b (wl_tail_authenticator w');
  ex_tail : wl_tail_index w' = wl_tail_index w + Z.of_nat (length log);
  ex_count : wl_record_count w' = wl_record_count w + Z.of_nat (length log);
  ex_same : log = [] → wl_tail_previous_authenticator w' = wl_tail_previous_authenticator w;
  ex_previous : ∀ l e, log = l ++ [e] → ∃ b1,
    chain w (wl_tail_index w) (wl_tail_authenticator w) l b1 (wl_tail_previous_authenticator w') }.

(** [w] after one more record with authenticator [x]. *)
Definition advance `{FileSystem} (x : bytes) (w : mesh_control_wal) : mesh_control_wal :=
  w |> set_tail (wl_tail_index w + 1) (wl_tail_authenticator w) x
    |> set_count (wl_record_count w + 1).

Section Scan.
Context {CR : Crypto} {HM : Hmac} {HL : HmacLaws}.
Context {FS : FileSystem} {FT : FileState} {FL : FileSystemLaws}.
Implicit Types (v : volume) (p c b : bytes) (w : mesh_control_wal).

Lemma extends_refl w : extends w [] [] w.
Proof. split; try done; [constructor|cbn; lia|cbn; lia|]. by intros []. Qed.

Lemma extends_cons w e x log b w' : 0 <= wl_tail_index w < UINT64_MAX → entry_ok w e →
  entry_auth w (wl_tail_index w + 1) (wl_tail_authenticator w) e = Some x →
  extends (advance x w) log b w' →
  extends w (e :: log) (entry_bytes (wl_tail_index w + 1) (wl_tail_authenticator w) e x ++ b) w'.
Proof.
  intros Hi Ho Hx [Ec Ep Eb Ef Ech Et Er Es Ev]. cbn in *.
  assert (Hch : ∀ i a l c a', chain (advance x w) i a l c a' → chain w i a l c a')
    by (intros ?????; by apply chain_config).
  split; try done; [by econstructor; eauto|cbn [length]; lia|cbn [length]; lia|].
  intros [|e' l] e2 E; simplify_eq/=.
  - exists []. rewrite Es by done. constructor.
  - destruct (Ev _ _ eq_refl) as (b1 & Hb1). eexists. by econstructor; eauto.
Qed.

(** The position of the reader: handle [h] has read [off] bytes of a file [p] with
    content [c]. *)
Definition reading v h p c (off : Z) : Prop :=
  handle_at v h = Some (p, Z.to_nat off) ∧ file_at v p = Some c ∧ 0 <= off.

Lemma reading_step v v' h p c off size : reading v h p c off → 0 <= size →
  handle_at v' h = Some (p, (Z.to_nat off + Z.to_nat size)%nat) → (∀ q, same_file v v' q) →
  reading v' h p c (off + size).
Proof.
  intros (Hh & Hf & Ho) Hs Hh' Hsame. split_and!; [|by rewrite (same_file_content _ _ _ (Hsame p))|lia].
  rewrite Hh'. f_equal. f_equal. lia.
Qed.

Lemma read_exact_reading v h p c off size r b v' : reading v h p c off → 0 < size →
  read_exact h size v = (r, b, v') →
  (∀ q, same_file v v' q) ∧ (r = MESH_CONTROL_WAL_OK ∨ r = MESH_CONTROL_WAL_CORRUPT) ∧
  (r = MESH_CONTROL_WAL_OK → off + size <= len c ∧ b = sub c (Z.to_nat off) (Z.to_nat size) ∧
     reading v' h p c (off + size)).
Proof.
  intros Hr Hs H. destruct Hr as (Hh & Hf & Ho) eqn:HrE.
  destruct (read_exact_spec _ _ _ _ _ _ _ _ _ Hh Hf Hs H) as (S1 & R1 & O1).
  split_and!; [done..|]. intros Hok. destruct (O1 Hok) as (O2 & O3 & O4).
  split_and!; [unfold len; lia|done|]. eapply reading_step; eauto. lia.
Qed.

Lemma read_exact_reading_live {LV : FileSystemLive} v h p c off size : reading v h p c off →
  reliable v → 0 < size → off + size <= len c →
  ∃ v', read_exact h size v =
      (MESH_CONTROL_WAL_OK, sub c (Z.to_nat off) (Z.to_nat size), v') ∧
    reliable v' ∧ reading v' h p c (off + size) ∧ ∀ q, same_file v v' q.
Proof.
  intros Hr Hl Hs Hn. destruct Hr as (Hh & Hf & Ho) eqn:HrE.
  destruct (read_exact_live h p c size v _ Hh Hf Hl Hs) as (v' & E & Hl' & Hh' & Hsame); [lia|].
  exists v'. split_and!; [done..| |done]. eapply reading_step; eauto. lia.
Qed.

Lemma sub_drop_app (c : bytes) n m : sub c n m ++ drop (n + m) c = drop n c.
Proof. unfold sub. by rewrite <- drop_drop, take_drop. Qed.

(** Three adjacent blocks of a file. *)
Lemma three_blocks c off n1 n2 n3 : 0 <= off → 0 <= n1 → 0 <= n2 → 0 <= n3 →
  drop (Z.to_nat off) c =
    (sub c (Z.to_nat off) (Z.to_nat n1) ++
     sub c (Z.to_nat (off + n1)) (Z.to_nat n2) ++
     sub c (Z.to_nat (off + n1 + n2)) (Z.to_nat n3)) ++ drop (Z.to_nat (off + n1 + n2 + n3)) c.
Proof.
  intros. rewrite !Z2Nat.inj_add by lia. rewrite <- !app_assoc, !sub_drop_app. done.
Qed.

(** A record that [scan_loop] or [replay_loop] has read and validated. *)
Lemma record_sound w v h p c off v1 v2 v3 hd fr au next prev ot oo t o :
  reading v h p c off → 0 <= next → bytes_ok 32 prev →
  read_exact h WAL_RECORD_HEADER_SIZE v = (MESH_CONTROL_WAL_OK, hd, v1) →
  mesh_mgmt_wire_read_u32 (sub hd 12 4) ≠ 0 →
  read_exact h (mesh_mgmt_wire_read_u32 (sub hd 12 4)) v1 = (MESH_CONTROL_WAL_OK, fr, v2) →
  read_exact h WAL_RECORD_AUTH_SIZE v2 = (MESH_CONTROL_WAL_OK, au, v3) →
  validate_record w hd fr au (next + 1) prev ot oo = (MESH_CONTROL_WAL_OK, t, o) →
  (∀ q, same_file v v3 q) ∧
  ∃ e, entry_ok w e ∧ 0 <= next < UINT64_MAX ∧ hd = entry_header (next + 1) prev e ∧
    fr = en_payload e ∧ entry_auth w (next + 1) prev e = Some au ∧
    len (en_payload e) = mesh_mgmt_wire_read_u32 (sub hd 12 4) ∧
    drop (Z.to_nat off) c = entry_bytes (next + 1) prev e au ++
      drop (Z.to_nat (off + (WAL_RECORD_FIXED_SIZE + len (en_payload e)))) c ∧
    reading v3 h p c (off + (WAL_RECORD_FIXED_SIZE + len (en_payload e))).
Proof.
  intros Hr Hnx Hp R1 Hnz R2 R3 Hv.
  pose proof (wire_read_u32_range (sub hd 12 4)) as Hfs. unfold uint in Hfs.
  assert (Hc : Forall u8 c) by (eapply file_bytes, Hr).
  eapply read_exact_reading in R1 as (S1 & _ & O1); [|done|done].
  destruct (O1 eq_refl) as (N1 & E1 & Hr1).
  eapply read_exact_reading in R2 as (S2 & _ & O2); [|done|lia].
  destruct (O2 eq_refl) as (N2 & E2 & Hr2).
  eapply read_exact_reading in R3 as (S3 & _ & O3); [|done|done].
  destruct (O3 eq_refl) as (N3 & E3 & Hr3). pose proof (proj2 (proj2 Hr)) as Ho.
  assert (Hok : ∀ o n, 0 <= o → 0 <= n → o + n <= len c →
    bytes_ok (Z.to_nat n) (sub c (Z.to_nat o) (Z.to_nat n))).
  { intros o' n ???. split; [|by apply sub_Forall]. apply length_sub. unfold len in *. lia. }
  pose proof (Hok off WAL_RECORD_HEADER_SIZE Ho ltac:(done) N1) as Hh. rewrite <- E1 in Hh.
  apply Hok in N3 as Ha; [|unfold WAL_RECORD_HEADER_SIZE; lia|done]. rewrite <- E3 in Ha.
  assert (Hf := N2). apply Hok in Hf; [|unfold WAL_RECORD_HEADER_SIZE; lia|lia]. rewrite <- E2 in Hf.
  assert (Hl : len fr = mesh_mgmt_wire_read_u32 (sub hd 12 4)).
  { unfold len. rewrite (proj1 Hf). lia. }
  apply validate_record_inv in Hv as (e & Ep & He & Hi & Eh & Ea); [|done|apply Hf|done..].
  split; [intros q; eauto using same_file_trans|]. exists e. rewrite Ep, Hl.
  assert (Eoff : off + (WAL_RECORD_FIXED_SIZE + mesh_mgmt_wire_read_u32 (sub hd 12 4)) =
    off + WAL_RECORD_HEADER_SIZE + mesh_mgmt_wire_read_u32 (sub hd 12 4) + WAL_RECORD_AUTH_SIZE).
  { unfold WAL_RECORD_FIXED_SIZE. lia. }
  split_and!; try done.
  - unfold uint, UINT64_MAX in *. lia.
  - rewrite Eoff. unfold entry_bytes. rewrite Ep, <- Eh, E2, E3. rewrite E1 at 1.
    apply three_blocks; [done..|lia|done].
  - by rewrite Eoff.
Qed.

(** Reading a record that is there. *)
Lemma drop_pieces (c a b d : bytes) n : drop n c = a ++ b ++ d →
  sub c n (length a) = a ∧ drop (n + length a) c = b ++ d.
Proof.
  intros E. unfold sub. rewrite E, take_app_length. split; [done|].
  by rewrite <- drop_drop, E, drop_app_length.
Qed.

Lemma drop_len (c a : bytes) (n : nat) : drop n c = a → (0 < length a)%nat →
  (n + length a = length c)%nat.
Proof. intros <-. rewrite length_drop. lia. Qed.

Lemma record_live {LV : FileSystemLive} w v h p c off next prev e x rest :
  reading v h p c off → reliable v → 0 <= next < UINT64_MAX → bytes_ok 32 prev → entry_ok w e →
  entry_auth w (next + 1) prev e = Some x →
  drop (Z.to_nat off) c = entry_bytes (next + 1) prev e x ++ rest →
  ∃ v1 v2 v3,
    read_exact h WAL_RECORD_HEADER_SIZE v =
      (MESH_CONTROL_WAL_OK, entry_header (next + 1) prev e, v1) ∧
    read_exact h (len (en_payload e)) v1 = (MESH_CONTROL_WAL_OK, en_payload e, v2) ∧
    read_exact h WAL_RECORD_AUTH_SIZE v2 = (MESH_CONTROL_WAL_OK, x, v3) ∧
    reliable v3 ∧ reading v3 h p c (off + (WAL_RECORD_FIXED_SIZE + len (en_payload e))) ∧
    (∀ q, same_file v v3 q).
Proof.
  intros Hr Hl Hi Hp He Hx E. pose proof (proj2 (proj2 Hr)) as Ho.
  pose proof (entry_header_ok (next + 1) prev e Hp) as Hh. pose proof (entry_auth_ok _ _ _ _ _ Hx) as Ha.
  pose proof (eo_size _ _ He) as Hs.
  pose proof (drop_len _ _ _ E) as Hlen. unfold entry_bytes in E, Hlen. rewrite <- !app_assoc in E.
  rewrite !length_app, (proj1 Hh), (proj1 Ha) in Hlen. specialize (Hlen ltac:(lia)).
  destruct (drop_pieces _ _ _ _ _ E) as [P1 D1]. rewrite (proj1 Hh) in P1, D1.
  destruct (drop_pieces _ _ _ _ _ D1) as [P2 D2]. destruct (drop_pieces _ _ _ [] _
    (eq_trans D2 (f_equal (app x) (eq_sym (app_nil_r rest))))) as [P3 _].
  rewrite (proj1 Ha) in P3. unfold len in Hs.
  destruct (read_exact_reading_live v h p c off WAL_RECORD_HEADER_SIZE) as (v1 & R1 & L1 & G1 & S1);
    [done..|unfold len, WAL_RECORD_HEADER_SIZE; lia|].
  destruct (read_exact_reading_live v1 h p c _ (len (en_payload e)) G1 L1) as (v2 & R2 & L2 & G2 & S2);
    [unfold len; lia|unfold len, WAL_RECORD_HEADER_SIZE; lia|].
  destruct (read_exact_reading_live v2 h p c _ WAL_RECORD_AUTH_SIZE G2 L2) as (v3 & R3 & L3 & G3 & S3);
    [done|unfold len, WAL_RECORD_HEADER_SIZE, WAL_RECORD_AUTH_SIZE; lia|].
  exists v1, v2, v3. rewrite R1, R2, R3. unfold len in *. rewrite Nat2Z.id in *.
  replace (Z.to_nat (off + WAL_RECORD_HEADER_SIZE)) with (Z.to_nat off + 72)%nat
    by (unfold WAL_RECORD_HEADER_SIZE; lia).
  replace (Z.to_nat (off + WAL_RECORD_HEADER_SIZE + Z.of_nat (length (en_payload e)))) with
    (Z.to_nat off + 72 + length (en_payload e))%nat by (unfold WAL_RECORD_HEADER_SIZE; lia).
  change (Z.to_nat WAL_RECORD_HEADER_SIZE) with 72%nat.
  change (Z.to_nat WAL_RECORD_AUTH_SIZE) with 32%nat. rewrite P1, P2, P3. split_and!; try done.
  - unfold WAL_RECORD_FIXED_SIZE. by rewrite (Z.add_comm WAL_RECORD_HEADER_SIZE), <- !Z.add_assoc,
      (Z.add_comm WAL_RECORD_AUTH_SIZE), !Z.add_assoc in *.
  - intros q. eauto using same_file_trans.
Qed.

Lemma scan_loop_sound h p c : ∀ rounds off w v w' v',
  reading v h p c off → len c - off <= Z.of_nat rounds → off <= len c →
  0 <= wl_tail_index w → bytes_ok 32 (wl_tail_authenticator w) →
  wl_record_count w <= wc_record_capacity (wl_config w) →
  scan_loop rounds h (len c) off (wl_tail_index w) (wl_tail_authenticator w) w v =
    (MESH_CONTROL_WAL_OK, w', v') →
  (∀ q, same_file v v' q) ∧
  ∃ log w1, w' = set_size (len c) w1 ∧ extends w log (drop (Z.to_nat off) c) w1 ∧
    wl_record_count w' <= wc_record_capacity (wl_config w).
Proof.
  assert (Hend : ∀ off w v w' v', reading v h p c off → off <= len c → len c <= off →
    wl_record_count w <= wc_record_capacity (wl_config w) →
    (if negb (off =? len c) then (MESH_CONTROL_WAL_CORRUPT, w, v)
     else (MESH_CONTROL_WAL_OK, set_size (len c) w, v)) = (MESH_CONTROL_WAL_OK, w', v') →
    (∀ q, same_file v v' q) ∧ ∃ log w1, w' = set_size (len c) w1 ∧
      extends w log (drop (Z.to_nat off) c) w1 ∧
      wl_record_count w' <= wc_record_capacity (wl_config w)).
  { intros off w v w' v' Hr H1 H2 Hn H. replace off with (len c) in * by lia.
    rewrite Z.eqb_refl in H. cbn in H. injection H as <- <-. split; [done|]. exists [], w.
    rewrite drop_ge by (unfold len; lia). split_and!; [done|apply extends_refl|done]. }
  induction rounds as [|rounds IH]; intros off w v w' v' Hr Hn Ho Hi Ha Hcap H; cbn [scan_loop] in H.
  { eapply Hend; eauto. lia. }
  destruct (Z.leb_spec (len c) off); [by eapply Hend|].
  match type of H with (if ?g then _ else _) = _ => destruct g eqn:G; [done|] end. bool_prop.
  destruct (read_exact h WAL_RECORD_HEADER_SIZE v) as [[[] hd] v1] eqn:R1; try done.
  match type of H with (if ?g then _ else _) = _ => destruct g eqn:G2; [done|] end. bool_prop.
  destruct (read_exact h _ v1) as [[[] fr] v2] eqn:R2; try done.
  destruct (read_exact h WAL_RECORD_AUTH_SIZE v2) as [[[] au] v3] eqn:R3; try done.
  destruct (validate_record _ _ _ _ _ _ _ _) as [[[] t] o] eqn:V; try done.
  destruct (record_sound _ _ _ _ _ _ _ _ _ _ _ _ _ _ _ _ _ _ Hr Hi Ha R1 ltac:(done) R2 R3 V)
    as (S1 & e & He & Hi' & Eh & Ef & Eau & El & Ed & Hr3).
  replace (mesh_mgmt_wire_read_u64 (sub hd 16 8)) with
    (WAL_RECORD_FIXED_SIZE + len (en_payload e)) in * by congruence.
  pose proof (eo_size _ _ He) as Hsz.
  pose proof (entry_auth_ok _ _ _ _ _ Eau) as Hau.
  apply (IH _ (advance au w)) in H as (S2 & log & w1 & -> & Hex & Hc'); try done; cbn;
    [|unfold WAL_RECORD_FIXED_SIZE, WAL_RECORD_HEADER_SIZE, WAL_RECORD_AUTH_SIZE in *; lia..].
  split; [intros q; eauto using same_file_trans|]. exists (e :: log), w1.
  split_and!; [done| |done]. rewrite Ed. by apply extends_cons.
Qed.

(** On a reliable volume the scan passes over the records of a chain. *)
Lemma scan_loop_steps {LV : FileSystemLive} h p c log : ∀ rounds off w v b rest a',
  chain w (wl_tail_index w) (wl_tail_authenticator w) log b a' → reading v h p c off → reliable v →
  drop (Z.to_nat off) c = b ++ rest → len c - off <= Z.of_nat rounds → len c <= SIZE_MAX →
  bytes_ok 32 (wl_tail_authenticator w) →
  wl_record_count w + Z.of_nat (length log) <= wc_record_capacity (wl_config w) →
  ∃ rounds' w1 v1,
    scan_loop rounds h (len c) off (wl_tail_index w) (wl_tail_authenticator w) w v =
      scan_loop rounds' h (len c) (off + len b) (wl_tail_index w1) (wl_tail_authenticator w1) w1 v1 ∧
    extends w log b w1 ∧ reliable v1 ∧ reading v1 h p c (off + len b) ∧
    len c - (off + len b) <= Z.of_nat rounds' ∧ (∀ q, same_file v v1 q).
Proof.
  induction log as [|e log IH]; intros rounds off w v b rest a' Hch Hr Hl Hd Hn Hmax Ha Hcap.
  { apply chain_inv in Hch as [(_ & -> & _)|(? & ? & ? & ? & ? & _)]; [|done].
    exists rounds, w, v. assert (off + len [] = off) as -> by (unfold len; cbn; lia).
    split_and!; try done. apply extends_refl. }
  apply chain_inv in Hch as [(? & _)|(e' & x & log' & b' & [= <- <-] & -> & Hi & He & Hx & Hch)]; [done|].
  rewrite <- app_assoc in Hd. pose proof (entry_auth_ok _ _ _ _ _ Hx) as Hxo.
  destruct (record_live _ _ _ _ _ _ _ _ _ _ _ Hr Hl Hi Ha He Hx Hd) as
    (v1 & v2 & v3 & R1 & R2 & R3 & L3 & G3 & S3).
  pose proof (length_entry_bytes (wl_tail_index w + 1) _ e x Ha Hxo) as Hlen.
  pose proof (drop_len _ _ _ Hd) as Htot. rewrite length_app in Htot.
  pose proof (eo_size _ _ He) as Hsz. pose proof (proj2 (proj2 Hr)) as Ho.
  assert (Hfix : WAL_RECORD_FIXED_SIZE = 104) by done. cbn [length] in Hcap.
  unfold len in Hlen, Hn, Hsz, Hmax. specialize (Htot ltac:(lia)).
  destruct rounds as [|rounds]; [lia|].
  assert (Hd' : drop (Z.to_nat (off + (WAL_RECORD_FIXED_SIZE + len (en_payload e)))) c = b' ++ rest).
  { replace (Z.to_nat (off + _)) with (Z.to_nat off + length (entry_bytes (wl_tail_index w + 1)
      (wl_tail_authenticator w) e x))%nat by (unfold len; lia).
    by rewrite <- drop_drop, Hd, drop_app_length. }
  destruct (IH rounds (off + (WAL_RECORD_FIXED_SIZE + len (en_payload e))) (advance x w) v3 b' rest a')
    as (rounds' & w1 & v' & Es & Hex & Hl' & Hr' & Hn' & Hs');
    [by apply (chain_config w (advance x w) eq_refl)|done|done|done|unfold len; lia|unfold len; lia|done|cbn; lia|].
  exists rounds', w1, v'.
  pose proof (entry_header_reads _ _ _ (entry_ok_typed _ _ He) (next_index_range _ Hi) Ha) as Hrd.
  split_and!; [|by apply extends_cons|done| | |intros q; eauto using same_file_trans].
  - cbn [scan_loop]. destruct (Z.leb_spec (len c) off); [unfold len in *; lia|].
    match goal with |- (if ?g then _ else _) = _ => replace g with false end.
    2:{ symmetry. rewrite !orb_false_iff, Z.leb_gt, Z.ltb_ge, Z.eqb_neq. unfold len. lia. }
    rewrite R1. rewrite (hr_payload_size _ _ _ _ Hrd), (hr_record_size _ _ _ _ Hrd).
    match goal with |- (if ?g then _ else _) = _ => replace g with false end.
    2:{ symmetry. rewrite !orb_false_iff, !Z.ltb_ge, Z.eqb_neq, negb_false_iff, Z.eqb_eq.
        unfold len. lia. }
    rewrite R2, R3. rewrite validate_record_entry by auto using next_index_range.
    etransitivity; [exact Es|]. f_equal. unfold len in *. rewrite length_app. lia.
  - replace (off + len (_ ++ b')) with (off + (WAL_RECORD_FIXED_SIZE + len (en_payload e)) + len b');
      [done|]. unfold len in *. rewrite length_app. lia.
  - unfold len in *. rewrite length_app. lia.
Qed.

(** A file that ends inside a record is refused. *)
Lemma scan_loop_torn {LV : FileSystemLive} h p c rounds off w v e x t u :
  reading v h p c off → reliable v → drop (Z.to_nat off) c = t → len c - off <= Z.of_nat rounds →
  0 <= wl_tail_index w < UINT64_MAX → bytes_ok 32 (wl_tail_authenticator w) → entry_ok w e →
  entry_auth w (wl_tail_index w + 1) (wl_tail_authenticator w) e = Some x →
  entry_bytes (wl_tail_index w + 1) (wl_tail_authenticator w) e x = t ++ u → t ≠ [] → u ≠ [] →
  ∃ w' v', scan_loop rounds h (len c) off (wl_tail_index w) (wl_tail_authenticator w) w v =
    (MESH_CONTROL_WAL_CORRUPT, w', v').
Proof.
  intros Hr Hl Hd Hn Hi Ha He Hx E Ht Hu. pose proof (proj2 (proj2 Hr)) as Ho.
  pose proof (entry_auth_ok _ _ _ _ _ Hx) as Hxo.
  pose proof (length_entry_bytes (wl_tail_index w + 1) _ e x Ha Hxo) as Hlen.
  assert (Htl : (0 < length t)%nat) by (destruct t; [done|cbn; lia]).
  assert (Hul : (0 < length u)%nat) by (destruct u; [done|cbn; lia]).
  pose proof (drop_len _ _ _ Hd Htl) as Htot. pose proof (f_equal len E) as El.
  rewrite Hlen in El. unfold len in El, Hn. rewrite length_app in El.
  destruct rounds as [|rounds]; [lia|]. cbn [scan_loop].
  destruct (Z.leb_spec (len c) off); [unfold len in *; lia|].
  match goal with |- ∃ _ _, (if ?g then _ else _) = _ => destruct g eqn:G; [eauto|] end. bool_prop.
  assert (WAL_RECORD_FIXED_SIZE = 104) by done.
  destruct (read_exact_reading_live v h p c off WAL_RECORD_HEADER_SIZE) as (v1 & R1 & L1 & G1 & S1);
    [done..|unfold WAL_RECORD_HEADER_SIZE; lia|]. rewrite R1.
  assert (Eh : sub c (Z.to_nat off) (Z.to_nat WAL_RECORD_HEADER_SIZE) =
    entry_header (wl_tail_index w + 1) (wl_tail_authenticator w) e).
  { apply (f_equal (take 72)) in E. unfold entry_bytes in E. unfold sub. rewrite Hd.
    rewrite take_app_length' in E by (symmetry; apply entry_header_ok, Ha).
    rewrite E. rewrite take_app_le by (unfold len in *; lia). done. }
  pose proof (entry_header_reads _ _ _ (entry_ok_typed _ _ He) (next_index_range _ Hi) Ha) as Hrd.
  rewrite Eh, (hr_payload_size _ _ _ _ Hrd), (hr_record_size _ _ _ _ Hrd).
  match goal with |- ∃ _ _, (if ?g then _ else _) = _ => replace g with true; [eauto|] end.
  symmetry. apply orb_true_iff. right. apply Z.ltb_lt. unfold len in *. lia.
Qed.

End Scan.
