(* ===== verification/ControlWalCrash.v ===== *)
(** * What survives a crash of the intent journal

    The calls of [mesh_control_wal.c] as a transition system with crashes: a
    record whose append was acknowledged is found again after any crash, at its
    index, until a compaction covers it.  The exception is a record that was
    acknowledged by a retry after an ambiguous write, which the code does not
    synchronise again. *)

From S2P Require Import Prelude Wire MgmtCrypto MgmtCodec MgmtEnvelope ControlPrimitives ControlMmp FileSystem ControlWal ControlWalInv.

(** The members of a configuration have their C types. *)
Record wal_config_typed (c : mesh_control_wal_config) : Prop := {
  wt_ids : bytes_ok 32 (wc_mesh_id c) ∧ bytes_ok 32 (wc_node_id c) ∧
    bytes_ok 32 (wc_controller_principal c) ∧ bytes_ok 32 (wc_controller_node_id c) ∧
    bytes_ok 16 (wc_session_id c);
  wt_u64 : u64 (wc_principal_epoch c) ∧ u64 (wc_incarnation c) ∧ u64 (wc_certificate_serial c);
  wt_sizes : u64 (wc_record_capacity c) ∧ u64 (wc_byte_capacity c) }.

Section Header.
Context {CR : Crypto} {HM : Hmac} {HL : HmacLaws} {FS : FileSystem}.
Implicit Types (w : mesh_control_wal).

Definition wal_field_pieces w : list bytes :=
  [WAL_MAGIC; mesh_mgmt_wire_write_u32 MESH_CONTROL_WAL_VERSION_V1;
   mesh_mgmt_wire_write_u32 WAL_HEADER_SIZE; mesh_mgmt_wire_write_u64 (wl_base_index w);
   wc_mesh_id (wl_config w); wc_node_id (wl_config w); wc_controller_principal (wl_config w);
   wc_controller_node_id (wl_config w);
   mesh_mgmt_wire_write_u64 (wc_principal_epoch (wl_config w));
   mesh_mgmt_wire_write_u64 (wc_incarnation (wl_config w));
   mesh_mgmt_wire_write_u64 (wc_certificate_serial (wl_config w));
   wc_session_id (wl_config w); wl_base_authenticator w].
Definition wal_header_pieces w (auth : bytes) : list bytes := wal_field_pieces w ++ [auth].

Lemma encode_header_bytes w hd : wal_config_typed (wl_config w) → bytes_ok 32 (wl_base_authenticator w) →
  wal_encode_header w = Some hd → ∃ auth,
    calculate_hmac (wc_authentication_key (wl_config w)) (header_fields_bytes w) = Some auth ∧
    bytes_ok 32 auth ∧ hd = concat (wal_header_pieces w auth) ∧
    length <$> wal_header_pieces w auth = [8; 4; 4; 8; 32; 32; 32; 32; 8; 8; 8; 16; 32; 32]%nat ∧
    length (header_fields_bytes w) = 224%nat ∧ take 224 hd = header_fields_bytes w.
Proof.
  intros [(H1 & H2 & H3 & H4 & H5) _ _] Hb. unfold wal_encode_header.
  destruct (calculate_hmac _ _) as [auth|] eqn:E; [|done]. intros <-%(inj Some). exists auth.
  pose proof (hmac_ok _ _ _ E) as Ha.
  assert (Hl : length (header_fields_bytes w) = 224%nat).
  { unfold header_fields_bytes. rewrite !length_app, (proj1 H1), (proj1 H2), (proj1 H3), (proj1 H4),
      (proj1 H5), (proj1 Hb). done. }
  assert (Eh : header_fields_bytes w = concat (wal_field_pieces w)).
  { unfold header_fields_bytes, wal_field_pieces. cbn [concat]. by rewrite app_nil_r. }
  split; [done|]. split; [done|]. split; [|split; [|split; [done|]]].
  - unfold wal_header_pieces. rewrite concat_app, Eh. cbn [concat]. by rewrite app_nil_r.
  - cbn [wal_header_pieces wal_field_pieces app fmap list_fmap]. by rewrite (proj1 H1), (proj1 H2),
      (proj1 H3), (proj1 H4), (proj1 H5), (proj1 Hb), (proj1 Ha).
  - by rewrite take_app_length' by done.
Qed.

Lemma memeq_piece n a b off : bytes_ok n b → sub a off n = b → memeq n (drop off a) b = true.
Proof.
  intros [Hb _] H. unfold memeq, sub in *. rewrite H, bool_decide_eq_true, take_ge by lia. done.
Qed.

(** A header is validated by a journal with the same configuration. *)
Lemma validate_header_encoded w w0 hd : wl_config w = wl_config w0 →
  wal_config_typed (wl_config w0) → u64 (wl_base_index w0) →
  bytes_ok 32 (wl_base_authenticator w0) → wal_encode_header w0 = Some hd →
  length hd = 256%nat ∧
  validate_header w hd = (MESH_CONTROL_WAL_OK,
    w |> set_base (wl_base_index w0) (wl_base_authenticator w0)
      |> set_tail (wl_base_index w0) (wl_base_authenticator w0) (wl_base_authenticator w0)).
Proof.
  intros Hc Ht Hi Hb Hh. destruct (encode_header_bytes _ _ Ht Hb Hh) as (auth & Ea & Ha & E & Hl & _ & Ef).
  destruct Ht as [(H1 & H2 & H3 & H4 & H5) (U1 & U2 & U3) _].
  assert (Hm : memeq 8 hd WAL_MAGIC = true).
  { apply (memeq_piece 8 hd WAL_MAGIC 0); [evaluate|]. rewrite E. by find_pieces Hl. }
  split; [by rewrite E, length_concat, Hl|].
  unfold validate_header. rewrite Hm, Hc. change WAL_HEADER_AUTH_OFFSET with 224%nat.
  rewrite Ef, Ea.
  rewrite (memeq_piece 32 hd (wc_mesh_id (wl_config w0)) 24),
    (memeq_piece 32 hd (wc_node_id (wl_config w0)) 56),
    (memeq_piece 32 hd (wc_controller_principal (wl_config w0)) 88),
    (memeq_piece 32 hd (wc_controller_node_id (wl_config w0)) 120),
    (memeq_piece 16 hd (wc_session_id (wl_config w0)) 176)
    by (done || (rewrite E; by find_pieces Hl)).
  rewrite E. find_pieces Hl. rewrite !wire_read_write_u32, !wire_read_write_u64 by done.
  rewrite crypto_equal_32_spec, bool_decide_eq_true_2 by done. by rewrite !Z.eqb_refl.
Qed.

Lemma encode_header_config w w' : wl_config w = wl_config w' → wl_base_index w = wl_base_index w' →
  wl_base_authenticator w = wl_base_authenticator w' → wal_encode_header w = wal_encode_header w'.
Proof. intros H1 H2 H3. unfold wal_encode_header, header_fields_bytes. by rewrite H1, H2, H3. Qed.

End Header.

(** ** Writing *)

Section Writing.
Context {CR : Crypto} {HM : Hmac} {FS : FileSystem} {FT : FileState} {FL : FileSystemLaws}.
Implicit Types (v : volume) (p b : bytes) (w : mesh_control_wal).

(** The file [p] had content [b] and something was added to it. *)
Definition added v v' p b : Prop := (∃ t, file_at v' p = Some (b ++ t)) ∧ grown v v' p.

Lemma added_trans v1 v2 v3 p b b2 : file_at v2 p = Some (b ++ b2) → added v1 v2 p b →
  added v2 v3 p (b ++ b2) → added v1 v3 p b.
Proof.
  intros _ [_ G1] [[t Ht] G2]. split; [|by eapply grown_trans]. exists (b2 ++ t).
  by rewrite Ht, app_assoc.
Qed.

Lemma added_same v1 v2 v3 p b : added v1 v2 p b → same_file v2 v3 p → added v1 v3 p b.
Proof.
  intros [[t Ht] G] S. split; [exists t; by rewrite (same_file_content _ _ _ S)|].
  eapply grown_trans; [done|by apply same_grown].
Qed.

Lemma write_all_added h p b x v r v' n : handle_at v h = Some (p, n) → file_at v p = Some b →
  write_all h x v = (r, v') →
  added v v' p b ∧ (r = MESH_CONTROL_WAL_OK ∨ r = MESH_CONTROL_WAL_IO) ∧
  (∀ q, q ≠ p → same_file v v' q) ∧
  (r = MESH_CONTROL_WAL_OK → file_at v' p = Some (b ++ x) ∧ ∃ n', handle_at v' h = Some (p, n')).
Proof.
  intros Hh Hf H. destruct (write_all_spec _ _ _ _ _ _ _ _ Hh Hf H) as (S1 & R1 & G1 & [k F1] & O1).
  split; [|done]. split; [by exists (take k x)|done].
Qed.

(** [append_bytes] leaves the file alone, or adds the whole record and makes it
    durable, or faults the handle. *)
Lemma append_bytes_spec w hd pl au v r w' v' b : file_at v (wl_path w) = Some b →
  append_bytes w hd pl au v = (r, w', v') →
  (r = MESH_CONTROL_WAL_OK ∧ w' = w ∧ file_at v' (wl_path w) = Some (b ++ hd ++ pl ++ au) ∧
   ∀ d, survives v' (wl_path w) d → d = file_at v' (wl_path w)) ∨
  (r = MESH_CONTROL_WAL_IO ∧ w' = w ∧ same_file v v' (wl_path w)) ∨
  (r = MESH_CONTROL_WAL_COMMIT_UNKNOWN ∧ w' = set_faulted w ∧ added v v' (wl_path w) b).
Proof.
  intros Hf H. unfold append_bytes in H. set (p := wl_path w) in *.
  destruct (turbo_fs_open p _ v) as [file v1] eqn:E1.
  destruct (open_append _ _ _ _ p E1) as (S1 & O1).
  destruct (bool_decide_reflect (file = TURBO_INVALID_FILE)) as [|Hfile].
  { injection H as <- <- <-. right; left. auto. }
  destruct (O1 Hfile) as [[n Hh1] _]. pose proof (same_file_content _ _ _ S1) as Hf1. rewrite Hf in Hf1.
  destruct (write_all file hd v1) as [r2 v2] eqn:E2.
  destruct (write_all_added _ _ _ _ _ _ _ _ Hh1 Hf1 E2) as (A2 & R2 & _ & O2).
  assert (B2 : added v v2 p b).
  { destruct A2 as [At Ag]. split; [done|]. eapply grown_trans; [by apply same_grown|done]. }
  assert (Hbad : ∀ v4 r5 w5 v5, added v v4 p b →
    (let '(closed, v) := turbo_fs_close file v4 in
     if negb (closed =? 0) && wal_ok MESH_CONTROL_WAL_COMMIT_UNKNOWN
     then (MESH_CONTROL_WAL_COMMIT_UNKNOWN, set_faulted (set_faulted w), v)
     else (MESH_CONTROL_WAL_COMMIT_UNKNOWN, set_faulted w, v)) = (r5, w5, v5) →
    r5 = MESH_CONTROL_WAL_COMMIT_UNKNOWN ∧ w5 = set_faulted w ∧ added v v5 p b).
  { intros v4 r5 w5 v5 Ha Hc. destruct (turbo_fs_close file v4) as [closed v6] eqn:Ec.
    cbn [wal_ok] in Hc. rewrite andb_false_r in Hc. injection Hc as <- <- <-. split_and!; [done..|].
    eapply added_same; [done|by eapply close_frame]. }
  destruct R2 as [-> | ->]; cbn [wal_ok] in H; [|right; right; by eapply Hbad].
  destruct (O2 eq_refl) as (F2 & n2 & Hh2).
  destruct (write_all file pl v2) as [r3 v3] eqn:E3.
  destruct (write_all_added _ _ _ _ _ _ _ _ Hh2 F2 E3) as (A3 & R3 & _ & O3).
  pose proof (added_trans _ _ _ _ _ _ F2 B2 A3) as B3.
  destruct R3 as [-> | ->]; cbn [wal_ok] in H; [|right; right; by eapply Hbad].
  destruct (O3 eq_refl) as (F3 & n3 & Hh3). rewrite <- app_assoc in F3.
  destruct (write_all file au v3) as [r4 v4] eqn:E4.
  destruct (write_all_added _ _ _ _ _ _ _ _ Hh3 F3 E4) as (A4 & R4 & _ & O4).
  pose proof (added_trans _ _ _ _ _ _ F3 B3 A4) as B4.
  destruct R4 as [-> | ->]; cbn [wal_ok] in H; [|right; right; by eapply Hbad].
  destruct (O4 eq_refl) as (F4 & n4 & Hh4). rewrite <- !app_assoc in F4.
  destruct (turbo_fs_fsync file v4) as [synced v5] eqn:E5.
  pose proof (fsync_frame _ _ _ _ p E5) as S5. pose proof (added_same _ _ _ _ _ B4 S5) as B5.
  destruct (Z.eqb_spec synced 0) as [->|]; cbn [negb] in H; [|right; right; by eapply Hbad].
  destruct (turbo_fs_close file v5) as [closed v6] eqn:E6. pose proof (close_frame _ _ _ _ p E6) as S6.
  destruct (closed =? 0); cbn in H; injection H as <- <- <-.
  - left. split_and!; [done..| |].
    + by rewrite (same_file_content _ _ _ S6), (same_file_content _ _ _ S5).
    + intros d Hd. rewrite (same_file_content _ _ _ S6). eapply fsync_data; eauto. by apply S6.
  - right; right. split_and!; [done..|]. by eapply added_same.
Qed.

Lemma close_after_ok file r f v v' : close_after file r f v = (MESH_CONTROL_WAL_OK, v') →
  f ≠ MESH_CONTROL_WAL_OK →
  r = MESH_CONTROL_WAL_OK ∧ ∀ q, same_file v v' q.
Proof.
  unfold close_after. destruct (turbo_fs_close file v) as [closed v1] eqn:E. intros H Hf.
  injection H as H <-. split; [|intros q; by eapply close_frame]. by destruct (negb _ && _).
Qed.

(** The new file takes the place of the old one, or the old one is untouched. *)
Lemma replace_segment_spec path temp hd v r v' : temp ≠ path →
  replace_segment path temp hd v = (r, v') →
  (r = MESH_CONTROL_WAL_OK ∧ file_at v' path = Some hd ∧
   ∀ d, survives v' path d → survives v path d ∨ d = Some hd) ∨
  (r ≠ MESH_CONTROL_WAL_OK ∧ same_file v v' path).
Proof.
  intros Hne H. unfold replace_segment in H. assert (Hne' : path ≠ temp) by done.
  destruct (turbo_fs_open temp _ v) as [file v1] eqn:E1.
  pose proof (open_create_frame _ _ _ _ path E1 Hne') as S1.
  destruct (bool_decide_reflect (file = TURBO_INVALID_FILE)) as [|Hfile].
  { injection H as <- <-. by right. }
  destruct (open_create _ _ _ _ E1 Hfile) as ([n Hh1] & F1 & _).
  destruct (write_all file hd v1) as [r2 v2] eqn:E2.
  destruct (write_all_added _ _ _ _ _ _ _ _ Hh1 F1 E2) as (_ & R2 & S2 & O2). specialize (S2 path Hne').
  assert (Hbad : ∀ v3 r3 r4 v4, r3 ≠ MESH_CONTROL_WAL_OK → same_file v v3 path →
    (r3, if turbo_fs_exists temp v3 then (turbo_fs_unlink temp v3).2 else v3) = (r4, v4) →
    r4 ≠ MESH_CONTROL_WAL_OK ∧ same_file v v4 path).
  { intros v3 r3 r4 v4 Hr3 S3 [= <- <-]. split; [done|]. destruct (turbo_fs_exists temp v3); [|done].
    destruct (turbo_fs_unlink temp v3) as [u v5] eqn:E. eapply same_file_trans; [done|].
    by eapply unlink_frame. }
  assert (Hcl : ∀ v3 r3 f, same_file v v3 path → same_file v (close_after file r3 f v3).2 path).
  { intros v3 r3 f S3. unfold close_after. destruct (turbo_fs_close file v3) eqn:E.
    eapply same_file_trans; [done|by eapply close_frame]. }
  destruct R2 as [-> | ->]; cbn [wal_ok] in H.
  2:{ right. pose proof (Hcl v2 MESH_CONTROL_WAL_IO MESH_CONTROL_WAL_IO ltac:(eauto using same_file_trans)) as S3.
      unfold close_after in *. destruct (turbo_fs_close file v2) as [cl v3]. cbn [wal_ok andb] in *.
      rewrite andb_false_r in H. cbn [wal_ok] in H. by eapply Hbad in H. }
  destruct (O2 eq_refl) as (F2 & n2 & Hh2).
  destruct (turbo_fs_fsync file v2) as [synced v3] eqn:E3.
  pose proof (fsync_frame _ _ _ _ path E3) as S3. pose proof (fsync_frame _ _ _ _ temp E3) as T3.
  destruct (close_after _ _ _ _) as [r4 v4] eqn:E4.
  assert (S4 : same_file v v4 path).
  { match type of E4 with close_after ?f ?r ?g ?u = _ => pose proof (Hcl u r g) as K end.
    rewrite E4 in K. apply K. eauto using same_file_trans. }
  destruct (wal_ok r4) eqn:Ew; [|right; rewrite Ew in H; eapply Hbad in H; [done|by destruct r4|done]].
  assert (r4 = MESH_CONTROL_WAL_OK) as -> by by destruct r4.
  apply close_after_ok in E4 as [E4 T4]; [|done]. destruct (Z.eqb_spec synced 0) as [->|]; [|done].
  assert (F4 : file_at v4 temp = Some hd).
  { by rewrite (same_file_content _ _ _ (T4 _)), (same_file_content _ _ _ T3), F2. }
  destruct (turbo_fs_rename temp path v4) as [renamed v5] eqn:E5.
  destruct (Z.eqb_spec renamed 0) as [->|Hrn]; cbn [negb wal_ok] in H.
  - injection H as <- <-. left. destruct (rename_data _ _ _ _ E5 ltac:(by eexists) Hne) as [F5 D5].
    split_and!; [done|congruence|]. intros d Hd. apply D5 in Hd as [Hd|Hd].
    + left. by apply S4.
    + right. rewrite <- F4, (same_file_content _ _ _ (T4 _)). eapply fsync_data; eauto. by apply T4.
  - right. eapply Hbad in H; [done|done|]. eapply same_file_trans; [done|by eapply rename_failed].
Qed.

End Writing.

(** ** Journals and their files *)

Section Journal.
Context {CR : Crypto} {HM : Hmac} {HL : HmacLaws}.
Context {FS : FileSystem} {FT : FileState} {FL : FileSystemLaws}.
Context (c : mesh_control_wal_config) (Hvalid : wal_config_valid (Some c) = true)
  (Htyped : wal_config_typed c).
Implicit Types (v : volume) (w : mesh_control_wal) (hist : list entry) (b t : bytes).

(** The history of a journal is the list of all its records since it was
    created, the compacted ones included: record number [i] is [hist !! (i - 1)]. *)

Definition journal_path : bytes := wl_path (opening c).
Definition journal_lock : bytes := wl_lock_path (opening c).
Definition first_anchor : bytes := zeros 32.

(** The anchor of a segment that starts after [k] records. *)
Definition anchored hist (k : nat) (a : bytes) : Prop :=
  (k <= length hist)%nat ∧ ∃ b, chain (opening c) 0 first_anchor (take k hist) b a.

(** [b] is a journal file: a header and the records after the first [k]. *)
Record segment hist b (k : nat) (a hd body tail : bytes) : Prop := {
  sg_anchor : anchored hist k a;
  sg_header : wal_encode_header (set_base (Z.of_nat k) a (opening c)) = Some hd;
  sg_chain : chain (opening c) (Z.of_nat k) a (drop k hist) body tail;
  sg_bytes : b = hd ++ body;
  sg_size : len b <= wc_byte_capacity c;
  sg_count : Z.of_nat (length hist - k) <= wc_record_capacity c }.

Definition is_segment hist b : Prop := ∃ k a hd body tail, segment hist b k a hd body tail.

(** The open handle [w] stands for the history [hist], whose segment is [b]. *)
Record journal w hist b : Prop := {
  jn_config : wl_config w = wl_config (opening c) ∧ wl_path w = journal_path ∧
    wl_lock_path w = journal_lock;
  jn_open : wl_open w = true;
  jn_segment : ∃ hd body, segment hist b (Z.to_nat (wl_base_index w)) (wl_base_authenticator w)
    hd body (wl_tail_authenticator w);
  jn_base : 0 <= wl_base_index w;
  jn_tail : wl_tail_index w = Z.of_nat (length hist);
  jn_count : wl_record_count w = wl_tail_index w - wl_base_index w;
  jn_size : wl_file_size w = len b;
  jn_previous : ∀ l e, drop (Z.to_nat (wl_base_index w)) hist = l ++ [e] → ∃ b1,
    chain (opening c) (wl_base_index w) (wl_base_authenticator w) l b1
      (wl_tail_previous_authenticator w) }.

(** Every content a crash may leave is a journal of the same history, followed by
    bytes that were never acknowledged. *)
Definition durable v hist (ambiguous : bool) : Prop :=
  ∀ d, survives v journal_path d → ∃ b t, d = Some (b ++ t) ∧ is_segment hist b ∧
    (ambiguous = false → t = []).

Record journal_state v w hist : Prop := {
  js_file : ∃ b t, journal w hist b ∧ file_at v journal_path = Some (b ++ t) ∧
    (wl_faulted w = false → t = []);
  js_durable : durable v hist (wl_faulted w) }.

Lemma opening_config : wl_config (opening c) = c.
Proof.
  cbn. unfold wal_config_valid in Hvalid. destruct c as [[path|] ? ? ? ? ? ? ? ? ? ? ?]; done.
Qed.

Lemma capacity_range : 0 < wc_record_capacity c <= 4096 ∧ 361 <= wc_byte_capacity c <= 67535104.
Proof.
  unfold wal_config_valid in Hvalid. destruct (wc_path c); [|done]. bool_prop.
  destruct Htyped as [_ _ [Hr Hb]]. unfold uint, MESH_CONTROL_WAL_MAX_RECORDS_V1,
    MESH_CONTROL_WAL_MAX_FILE_SIZE_V1, WAL_HEADER_SIZE, WAL_RECORD_FIXED_SIZE,
    WAL_RECORD_HEADER_SIZE, WAL_RECORD_AUTH_SIZE in *. lia.
Qed.

Lemma lock_path_other : journal_path ≠ journal_lock.
Proof.
  unfold journal_path, journal_lock, opening. cbn. intros E. apply (f_equal length) in E.
  rewrite length_app in E. cbn in E. lia.
Qed.

Lemma lock_path_fits : (TURBO_FS_MAX_PATH <=? len journal_lock) = false.
Proof.
  unfold wal_config_valid in Hvalid. unfold journal_lock, opening. cbn [wl_lock_path].
  destruct (wc_path c) as [path|]; [|done]. bool_prop. cbn [deref]. apply Z.leb_gt.
  unfold len in *. rewrite length_app. cbn. lia.
Qed.

Lemma first_anchor_ok : bytes_ok 32 first_anchor.
Proof. apply zeros_ok. Qed.

Lemma anchored_ok hist k a : anchored hist k a → bytes_ok 32 a.
Proof. intros [_ [b Hb]]. eauto using chain_end_ok, first_anchor_ok. Qed.

Lemma chain_index w i a log b a' : chain w i a log b a' → 0 <= i →
  i + Z.of_nat (length log) <= Z.max i UINT64_MAX.
Proof.
  induction 1 as [|i a e x log b a' Hi Ho Hx Hc IH]; intros H0; cbn [length]; [lia|].
  specialize (IH ltac:(lia)). lia.
Qed.

Lemma anchored_index hist k a : anchored hist k a → u64 (Z.of_nat k).
Proof.
  intros [Hk [b Hb]]. apply chain_index in Hb; [|done]. rewrite length_take in Hb.
  unfold uint, UINT64_MAX in *. lia.
Qed.

Lemma segment_header hist b k a hd body tail w : segment hist b k a hd body tail →
  wl_config w = wl_config (opening c) → length hd = 256%nat ∧
  validate_header w hd = (MESH_CONTROL_WAL_OK,
    w |> set_base (Z.of_nat k) a |> set_tail (Z.of_nat k) a a).
Proof.
  intros [Ha Hh _ _ _ _] Hw.
  apply (validate_header_encoded w (set_base (Z.of_nat k) a (opening c)) hd) in Hh; [done|done| | |].
  - change (wal_config_typed (wl_config (opening c))). by rewrite opening_config.
  - by eapply anchored_index.
  - by eapply anchored_ok.
Qed.

Context {LV : FileSystemLive}.

(** The result of [mesh_control_wal_open_v1] from that of its scan. *)
Definition open_result (r : mesh_control_wal_result * mesh_control_wal * volume) :
    mesh_control_wal_result * option mesh_control_wal * volume :=
  let '(result, w, v) := r in
  if wal_ok result then (MESH_CONTROL_WAL_OK, Some w, v)
  else let '(wal, v) := mesh_control_wal_close_v1 (Some w) v in (result, wal, v).

Definition locked_wal (lock_file : turbo_file) : mesh_control_wal :=
  opening c |> set_lock lock_file |> set_open.

(** The handle once the header is read. *)
Definition anchored_wal (lock_file : turbo_file) (k : Z) (a : bytes) : mesh_control_wal :=
  locked_wal lock_file |> set_base k a |> set_tail k a a.

(** On a working volume, opening an existing file scans it. *)
Lemma open_locks v wf content : wl_open wf = false → reliable v → lockable v journal_lock →
  file_at v journal_path = Some content →
  ∃ lock_file v1, reliable v1 ∧ same_file v v1 journal_path ∧
    mesh_control_wal_open_v1 (Some wf) (Some c) v =
      open_result (if SIZE_MAX <? len content
                   then (MESH_CONTROL_WAL_CORRUPT, locked_wal lock_file, v1)
                   else scan_existing (locked_wal lock_file) (len content) v1).
Proof.
  intros Ho Hl Hlk Hf. pose proof (live_open_lock v journal_lock Hl Hlk) as Hlo.
  destruct (turbo_fs_open journal_lock _ v) as [lf v1] eqn:E1. destruct Hlo as (Hlf & Hl1 & Hll).
  destruct (turbo_fs_lock lf v1) as [locked v2] eqn:E2. destruct Hll as (-> & Hl2).
  assert (S2 : same_file v v2 journal_path).
  { eapply same_file_trans; [eapply open_lock; eauto using lock_path_other|by eapply lock_frame]. }
  assert (Hst : turbo_fs_lstat journal_path v2 = Some (mk_stat true false (len content))).
  { apply live_lstat; [done|]. by rewrite (same_file_content _ _ _ S2). }
  exists lf, v2. split; [done|]. split; [done|].
  unfold mesh_control_wal_open_v1. rewrite Ho, Hvalid. cbn [negb orb]. unfold open_locked.
  change (wl_lock_path (opening c)) with journal_lock. rewrite lock_path_fits.
  assert (match turbo_fs_lstat journal_lock v with
          | Some stat => st_is_symlink stat
          | None => false
          end = false) as ->.
  { destruct (turbo_fs_lstat journal_lock v) eqn:Es; [exact (live_lock_plain _ _ _ Hl Hlk Es)|done]. }
  rewrite E1, bool_decide_eq_false_2, E2 by done. cbn [negb Z.eqb].
  change (set_open (set_lock lf (opening c))) with (locked_wal lf). unfold open_file.
  change (wl_path (locked_wal lf)) with journal_path. rewrite Hst.
  done.
Qed.

(** A file that starts with a segment is scanned from the end of its header. *)
Lemma scan_existing_segment v lf hist b k a hd body tail t : reliable v →
  file_at v journal_path = Some (b ++ t) → segment hist b k a hd body tail →
  len (b ++ t) <= wc_byte_capacity c →
  ∃ file v1, reading v1 file journal_path (b ++ t) 256 ∧ reliable v1 ∧
    same_file v v1 journal_path ∧
    scan_existing (locked_wal lf) (len (b ++ t)) v =
      (let '(result, w, v) :=
         scan_loop (Z.to_nat (len (b ++ t) - 256)) file (len (b ++ t)) 256 (Z.of_nat k) a
           (anchored_wal lf (Z.of_nat k) a) v1 in
       let '(result, v) := close_after file result MESH_CONTROL_WAL_IO v in (result, w, v)).
Proof.
  intros Hl Hf Hsg Hcap. pose proof capacity_range as [_ Hbc].
  pose proof (segment_header _ _ _ _ _ _ _ (locked_wal lf) Hsg eq_refl) as [Hhd Hvh].
  assert (Hlen : 256 <= len (b ++ t)).
  { rewrite (sg_bytes _ _ _ _ _ _ _ Hsg). unfold len. rewrite !length_app, Hhd. lia. }
  pose proof (live_open v journal_path _ Hl Hf) as Hop.
  destruct (turbo_fs_open journal_path [TURBO_FS_O_RDONLY] v) as [file v3] eqn:E3.
  destruct Hop as (Hfile & Hl3). destruct (open_read _ _ _ _ journal_path E3) as (S3 & Hh).
  destruct (Hh Hfile) as (Hh3 & _).
  assert (R3 : reading v3 file journal_path (b ++ t) 0).
  { split_and!; [done| |done]. by rewrite (same_file_content _ _ _ S3). }
  destruct (read_exact_reading_live _ _ _ _ _ WAL_HEADER_SIZE R3 Hl3) as (v4 & E4 & Hl4 & R4 & S4);
    [done|unfold WAL_HEADER_SIZE; lia|].
  exists file, v4. split; [done|]. split; [done|]. split; [eauto using same_file_trans|].
  unfold scan_existing. change (wl_path (locked_wal lf)) with journal_path.
  change (wl_config (locked_wal lf)) with (wl_config (opening c)). rewrite opening_config.
  match goal with |- (if ?g then _ else _) = _ => replace g with false end.
  2:{ symmetry. apply orb_false_iff. rewrite !Z.ltb_ge. unfold WAL_HEADER_SIZE. lia. }
  rewrite E3, bool_decide_eq_false_2 by done. unfold scan_file. rewrite E4.
  replace (sub (b ++ t) (Z.to_nat 0) (Z.to_nat WAL_HEADER_SIZE)) with hd.
  2:{ rewrite (sg_bytes _ _ _ _ _ _ _ Hsg), <- app_assoc. symmetry. by apply sub_here. }
  by rewrite Hvh.
Qed.

(** Where a scan that passed over the whole file leaves the handle. *)
Lemma extends_journal hist b k a hd body tail t lf ext w1 w' : segment hist b k a hd body tail →
  len (b ++ t) <= wc_byte_capacity c → w' = set_size (len (b ++ t)) w1 →
  extends (anchored_wal lf (Z.of_nat k) a) (drop k hist ++ ext) (body ++ t) w1 →
  wl_record_count w' <= wc_record_capacity c → journal w' (hist ++ ext) (b ++ t).
Proof.
  intros [[Hk [b0 Hb0]] Hh Hch -> _ _] Hsz -> [Ec Ep Eb Ef Ech Et Er Es Ev] Hcnt. cbn in Ec, Ep, Eb, Ef, Et, Er, Ev.
  destruct Ep as (Ep1 & Ep2 & _), Eb as (Eb1 & Eb2), Ef as (Ef1 & Ef2).
  assert (Hl : Z.of_nat (length (drop k hist ++ ext)) = Z.of_nat (length (hist ++ ext)) - Z.of_nat k).
  { rewrite !length_app, length_drop. lia. }
  assert (Hd : drop k (hist ++ ext) = drop k hist ++ ext) by (by rewrite drop_app_le).
  split; cbn [set_size wl_config wl_path wl_lock_path wl_open wl_base_index wl_base_authenticator
    wl_tail_index wl_tail_authenticator wl_tail_previous_authenticator wl_record_count wl_file_size];
    try done; try lia.
  - exists hd, (body ++ t). rewrite Eb1, Eb2, Nat2Z.id. split.
    + split; [rewrite length_app; lia|]. exists b0. by rewrite take_app_le.
    + done.
    + rewrite Hd. by apply (chain_config (anchored_wal lf (Z.of_nat k) a) (opening c) eq_refl) in Ech.
    + by rewrite app_assoc.
    + done.
    + cbn in Hcnt. rewrite Er in Hcnt. rewrite Hl in Hcnt. lia.
  - rewrite Eb1, Eb2, Nat2Z.id, Hd. intros l e E. destruct (Ev _ _ E) as [b1 Hb1]. exists b1.
    by apply (chain_config (anchored_wal lf (Z.of_nat k) a) (opening c) eq_refl) in Hb1.
Qed.

Lemma open_result_ok r wal v : open_result r = (MESH_CONTROL_WAL_OK, wal, v) →
  ∃ w, r = (MESH_CONTROL_WAL_OK, w, v) ∧ wal = Some w.
Proof.
  destruct r as [[r w] v1]. cbn. destruct r; cbn; try (intros; by simplify_eq).
  intros [= <- <-]. eauto.
Qed.

Lemma close_after_live file r f v : reliable v → ∃ v', close_after file r f v = (r, v') ∧
  ∀ q, same_file v v' q.
Proof.
  intros Hl. unfold close_after. pose proof (live_close v file Hl) as Hc.
  destruct (turbo_fs_close file v) as [closed v1] eqn:E. destruct Hc as [-> _]. cbn. exists v1.
  split; [done|]. intros q. by eapply close_frame.
Qed.

(** If a file that starts with a segment of [hist] is opened, the handle stands
    for a history that extends [hist]. *)
Lemma open_sound v wf hist b t w' v' : wl_open wf = false → reliable v → lockable v journal_lock →
  file_at v journal_path = Some (b ++ t) → is_segment hist b →
  mesh_control_wal_open_v1 (Some wf) (Some c) v = (MESH_CONTROL_WAL_OK, Some w', v') →
  ∃ ext, journal w' (hist ++ ext) (b ++ t) ∧ wl_faulted w' = false ∧ (t = [] → ext = []) ∧
    same_file v v' journal_path.
Proof.
  intros Ho Hl Hlk Hf (k & a & hd & body & tail & Hsg) H.
  destruct (open_locks v wf _ Ho Hl Hlk Hf) as (lf & v1 & Hl1 & S1 & E). rewrite E in H. clear E.
  apply open_result_ok in H as (w1 & H & [= <-]).
  destruct (Z.ltb_spec SIZE_MAX (len (b ++ t))); [done|].
  assert (Hcap : len (b ++ t) <= wc_byte_capacity c).
  { unfold scan_existing in H. change (wl_config (locked_wal lf)) with (wl_config (opening c)) in H.
    rewrite opening_config in H. destruct (_ || _) eqn:G in H; [done|]. by bool_prop. }
  destruct (scan_existing_segment v1 lf hist b k a hd body tail t) as (file & v2 & R2 & Hl2 & S2 & E);
    [done|by rewrite (same_file_content _ _ _ S1)|done..|]. rewrite E in H. clear E.
  destruct (scan_loop _ _ _ _ _ _ _ _) as [[r w1] v3] eqn:Es.
  destruct (close_after _ _ _ _) as [r' v4] eqn:Ecl. injection H as -> -> ->.
  apply close_after_ok in Ecl as [-> S4]; [|done].
  pose proof (segment_header _ _ _ _ _ _ _ (opening c) Hsg eq_refl) as [Hhd _].
  pose proof (anchored_ok _ _ _ (sg_anchor _ _ _ _ _ _ _ Hsg)) as Hao.
  assert (Hlen : 256 <= len (b ++ t)).
  { rewrite (sg_bytes _ _ _ _ _ _ _ Hsg). unfold len. rewrite !length_app, Hhd. lia. }
  assert (Hdrop : drop (Z.to_nat 256) (b ++ t) = body ++ t).
  { rewrite (sg_bytes _ _ _ _ _ _ _ Hsg), <- app_assoc. by rewrite drop_app_length'. }
  apply (scan_loop_sound file journal_path _ _ _ (anchored_wal lf (Z.of_nat k) a)) in Es as (S3 & log & w2 & -> & Hex & Hcnt);
    [|done|lia|lia|cbn; lia|done|].
  2:{ cbn. pose proof capacity_range. lia. }
  rewrite Hdrop in Hex. destruct (chain_prefix _ _ _ _ _ _
    (chain_config (opening c) (anchored_wal lf (Z.of_nat k) a) eq_refl _ _ _ _ _
      (sg_chain _ _ _ _ _ _ _ Hsg)) Hao _ _ _ (ex_chain _ _ _ _ Hex)) as (ext & -> & Hext).
  exists ext. split_and!.
  - by eapply extends_journal.
  - apply (ex_flags _ _ _ _ Hex).
  - intros ->. apply chain_inv in Hext as [(-> & _)|(? & ? & ? & ? & _ & E & _)]; [done|].
    eapply eq_sym, entry_bytes_nonempty in E; [done|].
    by eapply chain_end_ok; [apply (sg_chain _ _ _ _ _ _ _ Hsg)|].
  - eauto using same_file_trans.
Qed.

(** A file that is exactly a segment can be opened. *)
Lemma open_live v wf hist b : wl_open wf = false → reliable v → lockable v journal_lock →
  file_at v journal_path = Some b → is_segment hist b →
  ∃ w' v', mesh_control_wal_open_v1 (Some wf) (Some c) v = (MESH_CONTROL_WAL_OK, Some w', v').
Proof.
  intros Ho Hl Hlk Hf (k & a & hd & body & tail & Hsg). pose proof capacity_range as [Hrc Hbc].
  rewrite <- (app_nil_r b) in Hf.
  destruct (open_locks v wf _ Ho Hl Hlk Hf) as (lf & v1 & Hl1 & S1 & ->).
  pose proof (sg_size _ _ _ _ _ _ _ Hsg) as Hcap.
  assert (Hcap' : len (b ++ []) <= wc_byte_capacity c) by by rewrite app_nil_r.
  destruct (Z.ltb_spec SIZE_MAX (len (b ++ []))) as [Hbig|_]; [unfold SIZE_MAX in Hbig; lia|].
  destruct (scan_existing_segment v1 lf hist b k a hd body tail []) as (file & v2 & R2 & Hl2 & S2 & ->);
    [done|by rewrite (same_file_content _ _ _ S1)|done..|].
  pose proof (segment_header _ _ _ _ _ _ _ (opening c) Hsg eq_refl) as [Hhd _].
  pose proof (anchored_ok _ _ _ (sg_anchor _ _ _ _ _ _ _ Hsg)) as Hao.
  assert (Hb : len b = 256 + len body).
  { rewrite (sg_bytes _ _ _ _ _ _ _ Hsg). unfold len. rewrite length_app, Hhd. lia. }
  rewrite app_nil_r in *.
  destruct (scan_loop_steps file journal_path b (drop k hist) (Z.to_nat (len b - 256)) 256
    (anchored_wal lf (Z.of_nat k) a) v2 body [] tail) as
    (rounds & w1 & v3 & E & Hex & Hl3 & R3 & _ & S3); try done.
  - by apply (chain_config (opening c) (anchored_wal lf (Z.of_nat k) a) eq_refl), Hsg.
  - by rewrite (sg_bytes _ _ _ _ _ _ _ Hsg), app_nil_r, drop_app_length'.
  - unfold len. lia.
  - unfold SIZE_MAX. lia.
  - cbn. rewrite length_drop. pose proof (sg_count _ _ _ _ _ _ _ Hsg). lia.
  - cbn in E. change (wl_tail_index (anchored_wal lf (Z.of_nat k) a)) with (Z.of_nat k) in E.
    rewrite E. rewrite <- Hb.
    assert (Ef : ∀ i p, scan_loop rounds file (len b) (len b) i p w1 v3 =
      (MESH_CONTROL_WAL_OK, set_size (len b) w1, v3)).
    { intros i p. destruct rounds; cbn [scan_loop]; rewrite ?Z.leb_refl, Z.eqb_refl; done. }
    rewrite Ef. destruct (close_after_live file MESH_CONTROL_WAL_OK MESH_CONTROL_WAL_IO v3 Hl3) as
      (v4 & -> & _). cbn. eauto.
Qed.

(** A file that ends inside a record cannot be opened. *)
Lemma open_torn v wf hist b t k a hd body tail e x u : wl_open wf = false → reliable v →
  lockable v journal_lock → file_at v journal_path = Some (b ++ t) →
  segment hist b k a hd body tail → entry_ok (opening c) e →
  Z.of_nat (length hist) < UINT64_MAX →
  entry_auth (opening c) (Z.of_nat (length hist) + 1) tail e = Some x →
  entry_bytes (Z.of_nat (length hist) + 1) tail e x = t ++ u → t ≠ [] → u ≠ [] →
  ∃ wal v', mesh_control_wal_open_v1 (Some wf) (Some c) v = (MESH_CONTROL_WAL_CORRUPT, wal, v').
Proof.
  intros Ho Hl Hlk Hf Hsg He Hmax Hx Hr Ht Hu. pose proof capacity_range as [Hrc Hbc].
  destruct (open_locks v wf _ Ho Hl Hlk Hf) as (lf & v1 & Hl1 & S1 & ->).
  assert (Hbad : ∀ w v1, ∃ (w' : option mesh_control_wal) v',
    open_result (MESH_CONTROL_WAL_CORRUPT, w, v1) = (MESH_CONTROL_WAL_CORRUPT, w', v'))
    by (cbn; eauto).
  destruct (Z.ltb_spec SIZE_MAX (len (b ++ t))) as [Hbig|_]; [apply Hbad|].
  destruct (Z.le_gt_cases (len (b ++ t)) (wc_byte_capacity c)) as [Hcap|Hcap].
  2:{ unfold scan_existing. change (wl_config (locked_wal lf)) with (wl_config (opening c)).
      rewrite opening_config. replace (wc_byte_capacity c <? len (b ++ t)) with true
        by (symmetry; by apply Z.ltb_lt). rewrite orb_true_r. apply Hbad. }
  destruct (scan_existing_segment v1 lf hist b k a hd body tail t) as (file & v2 & R2 & Hl2 & S2 & ->);
    [done|by rewrite (same_file_content _ _ _ S1)|done..|].
  pose proof (segment_header _ _ _ _ _ _ _ (opening c) Hsg eq_refl) as [Hhd _].
  pose proof (anchored_ok _ _ _ (sg_anchor _ _ _ _ _ _ _ Hsg)) as Hao.
  pose proof (sg_chain _ _ _ _ _ _ _ Hsg) as Hch. pose proof (chain_end_ok _ _ _ _ _ _ Hch Hao) as Hto.
  assert (Hdrop : drop (Z.to_nat 256) (b ++ t) = body ++ t).
  { rewrite (sg_bytes _ _ _ _ _ _ _ Hsg), <- app_assoc. by rewrite drop_app_length'. }
  destruct (scan_loop_steps file journal_path (b ++ t) (drop k hist) (Z.to_nat (len (b ++ t) - 256)) 256
    (anchored_wal lf (Z.of_nat k) a) v2 body t tail) as
    (rounds & w1 & v3 & E & Hex & Hl3 & R3 & Hn & S3); try done.
  - by apply (chain_config (opening c) (anchored_wal lf (Z.of_nat k) a) eq_refl).
  - lia.
  - unfold SIZE_MAX. lia.
  - cbn. rewrite length_drop. pose proof (sg_count _ _ _ _ _ _ _ Hsg). lia.
  - cbn in E. rewrite E. clear E.
    assert (Et : wl_tail_index w1 = Z.of_nat (length hist)).
    { rewrite (ex_tail _ _ _ _ Hex). cbn. rewrite length_drop.
      pose proof (proj1 (sg_anchor _ _ _ _ _ _ _ Hsg)). lia. }
    assert (Ea : wl_tail_authenticator w1 = tail).
    { eapply (chain_det (anchored_wal lf (Z.of_nat k) a)); [|apply (ex_chain _ _ _ _ Hex)|]; [done|].
      by apply (chain_config (opening c) (anchored_wal lf (Z.of_nat k) a) eq_refl). }
    assert (Ec : wl_config (opening c) = wl_config w1) by (by rewrite (ex_config _ _ _ _ Hex)).
    rewrite <- Et, <- Ea in Hx, Hr.
    destruct (scan_loop_torn file journal_path (b ++ t) rounds (256 + len body) w1 v3 e x t u) as
      (w2 & v4 & ->); try done; try (rewrite Et; lia).
    + replace (Z.to_nat (256 + len body)) with (Z.to_nat 256 + length body)%nat by (unfold len; lia).
      by rewrite <- drop_drop, Hdrop, drop_app_length.
    + by rewrite Ea.
    + by eapply entry_ok_config.
    + by rewrite <- (entry_auth_config (opening c) w1).
    + unfold close_after. destruct (turbo_fs_close file v4) as [closed v5]. cbn [wal_ok].
      rewrite andb_false_r. apply Hbad.
Qed.

(** ** Creation *)

Lemma journal_segment w hist b : journal w hist b → is_segment hist b.
Proof. intros [_ _ (hd & body & H) _ _ _ _ _]. by eexists _, _, _, _, _. Qed.

Lemma empty_header_size hd k a : wal_encode_header (set_base k a (opening c)) = Some hd →
  bytes_ok 32 a → u64 k → len hd = 256.
Proof.
  intros Hh Ha Hk.
  apply (validate_header_encoded (opening c) (set_base k a (opening c)) hd) in Hh as [Hl _]; try done.
  - unfold len. by rewrite Hl.
  - change (wal_config_typed (wl_config (opening c))). by rewrite opening_config.
Qed.

(** A segment with no records. *)
Lemma empty_segment hist hd a : anchored hist (length hist) a →
  wal_encode_header (set_base (Z.of_nat (length hist)) a (opening c)) = Some hd →
  segment hist hd (length hist) a hd [] a.
Proof.
  intros Ha Hh. pose proof capacity_range as [Hrc Hbc].
  pose proof (empty_header_size _ _ _ Hh (anchored_ok _ _ _ Ha) (anchored_index _ _ _ Ha)) as Hl.
  split; [done|done| |by rewrite app_nil_r|lia|lia]. rewrite drop_all. constructor.
Qed.

Lemma create_state v w w' v' : wl_config w = wl_config (opening c) → wl_path w = journal_path →
  wl_lock_path w = journal_lock → wl_open w = true → wl_faulted w = false →
  wl_base_index w = 0 → wl_base_authenticator w = first_anchor → wl_tail_index w = 0 →
  wl_tail_authenticator w = first_anchor → wl_record_count w = 0 →
  create_empty_file w v = (MESH_CONTROL_WAL_OK, w', v') → journal_state v' w' [].
Proof.
  intros Ec Ep El Eo Ef Eb Ea Et Eu En H. unfold create_empty_file in H.
  destruct (wal_encode_header w) as [hd|] eqn:Hh; [|done]. rewrite Ep in H.
  destruct (turbo_fs_open journal_path _ v) as [file v1] eqn:E1.
  destruct (bool_decide_reflect (file = TURBO_INVALID_FILE)) as [|Hfile]; [done|].
  destruct (open_create _ _ _ _ E1 Hfile) as ([n Hh1] & F1 & _).
  destruct (write_all file hd v1) as [r2 v2] eqn:E2.
  destruct (write_all_added _ _ _ _ _ _ _ _ Hh1 F1 E2) as (_ & [-> | ->] & _ & O2); cbn [wal_ok] in H.
  2:{ destruct (close_after _ _ _ _) as [r3 v3] eqn:E3. injection H as -> <- <-.
      by apply close_after_ok in E3 as [? _]. }
  destruct (O2 eq_refl) as (F2 & n2 & Hh2).
  destruct (turbo_fs_fsync file v2) as [synced v3] eqn:E3.
  destruct (close_after _ _ _ _) as [r4 v4] eqn:E4. injection H as -> <- <-.
  apply close_after_ok in E4 as [E4 S4]; [|done]. destruct (Z.eqb_spec synced 0) as [->|]; [|done].
  pose proof (fsync_frame _ _ _ _ journal_path E3) as S3.
  assert (Hhd : wal_encode_header (set_base (Z.of_nat (length (A:=entry) [])) first_anchor (opening c)) = Some hd).
  { rewrite <- Hh. apply encode_header_config; [by rewrite Ec|by rewrite Eb|by rewrite Ea]. }
  assert (Han : anchored [] 0 first_anchor) by (split; [done|]; exists []; constructor).
  pose proof (empty_segment [] hd first_anchor Han Hhd) as Hsg.
  assert (F4 : file_at v4 journal_path = Some hd).
  { by rewrite (same_file_content _ _ _ (S4 _)), (same_file_content _ _ _ S3), F2. }
  cbn [wal_ok]. split.
  - exists hd, []. rewrite app_nil_r. split; [|done]. split; cbn; try done; try lia.
    + exists hd, []. by rewrite Eb, Ea, Eu.
    + by rewrite (empty_header_size _ _ _ Hhd first_anchor_ok ltac:(done)).
    + intros l e E. rewrite Eb in E. by destruct l.
  - intros d Hd. exists hd, []. rewrite app_nil_r. split_and!; [|by eexists _, _, _, _, _|done].
    rewrite <- F4, (same_file_content _ _ _ (S4 _)). eapply fsync_data; eauto. by apply S4.
Qed.

Lemma open_creates v wf w' v' : wl_open wf = false → file_at v journal_path = None →
  mesh_control_wal_open_v1 (Some wf) (Some c) v = (MESH_CONTROL_WAL_OK, Some w', v') →
  journal_state v' w' [].
Proof.
  intros Ho Hf. unfold mesh_control_wal_open_v1. rewrite Ho, Hvalid. cbn [negb orb].
  intros H. apply (open_result_ok (open_locked (opening c) v)) in H as (w1 & H & [= <-]).
  unfold open_locked in H.
  do 2 match type of H with (if ?g then _ else _) = _ => destruct g; [done|] end.
  destruct (turbo_fs_open _ _ v) as [lf v1] eqn:E1. destruct (bool_decide _); [done|].
  destruct (turbo_fs_lock lf v1) as [locked v2] eqn:E2. destruct (negb _); [done|].
  assert (S2 : same_file v v2 journal_path).
  { eapply same_file_trans; [eapply open_lock; eauto using lock_path_other|by eapply lock_frame]. }
  unfold open_file in H. change (wl_path (set_open (set_lock lf (opening c)))) with journal_path in H.
  destruct (turbo_fs_lstat journal_path v2) as [s|] eqn:Es.
  - destruct (st_is_file s) eqn:Ei; [|done]. apply lstat_file in Es as [y Hy]; [|done].
    rewrite (same_file_content _ _ _ S2) in Hy. congruence.
  - by eapply create_state in H.
Qed.

(** ** Appending *)

Lemma history_bound w hist b : journal w hist b → Z.of_nat (length hist) <= UINT64_MAX.
Proof.
  intros [_ _ (hd & body & Hsg) Hb _ _ _ _]. pose proof (anchored_index _ _ _ (sg_anchor _ _ _ _ _ _ _ Hsg)) as Hk.
  pose proof (chain_index _ _ _ _ _ _ (sg_chain _ _ _ _ _ _ _ Hsg) ltac:(lia)) as Hi.
  rewrite length_drop in Hi. pose proof (proj1 (sg_anchor _ _ _ _ _ _ _ Hsg)).
  unfold uint, UINT64_MAX in *. lia.
Qed.

Lemma file_size_range w hist b : journal w hist b → 0 <= wl_file_size w <= wc_byte_capacity c.
Proof.
  intros Hj. rewrite (jn_size _ _ _ Hj). destruct (jn_segment _ _ _ Hj) as (? & ? & Hsg).
  pose proof (sg_size _ _ _ _ _ _ _ Hsg). unfold len in *. lia.
Qed.

Lemma journal_tail_ok w hist b : journal w hist b → bytes_ok 32 (wl_tail_authenticator w).
Proof.
  intros [_ _ (hd & body & Hsg) _ _ _ _ _]. eapply chain_end_ok; [apply (sg_chain _ _ _ _ _ _ _ Hsg)|].
  eapply anchored_ok, (sg_anchor _ _ _ _ _ _ _ Hsg).
Qed.

(** The handle after one more record. *)
Lemma journal_append w hist b e x prev : journal w hist b → wl_faulted w = false →
  Z.of_nat (length hist) < UINT64_MAX → entry_ok (opening c) e →
  entry_auth (opening c) (Z.of_nat (length hist) + 1) (wl_tail_authenticator w) e = Some x →
  wl_record_count w < wc_record_capacity c →
  WAL_RECORD_FIXED_SIZE + len (en_payload e) <= wc_byte_capacity c - wl_file_size w →
  prev = wl_tail_authenticator w →
  journal (w |> set_tail (Z.of_nat (length hist) + 1) prev x |> set_count (wl_record_count w + 1)
             |> set_size (wl_file_size w + (WAL_RECORD_FIXED_SIZE + len (en_payload e))))
    (hist ++ [e]) (b ++ entry_bytes (Z.of_nat (length hist) + 1) (wl_tail_authenticator w) e x).
Proof.
  intros Hj Hfl Hmax He Hx Hcnt Hsz ->. pose proof (journal_tail_ok _ _ _ Hj) as Hto.
  destruct Hj as [Hc Ho (hd & body & Hsg) Hb Ht Hn Hs Hp].
  destruct Hsg as [[Hk [b0 Hb0]] Hh Hch Hbb Hsize Hcount].
  pose proof (entry_auth_ok _ _ _ _ _ Hx) as Hxo.
  pose proof (length_entry_bytes (Z.of_nat (length hist) + 1) _ e x Hto Hxo) as Hlen.
  assert (Hlb : len (b ++ entry_bytes (Z.of_nat (length hist) + 1) (wl_tail_authenticator w) e x) =
    len b + (WAL_RECORD_FIXED_SIZE + len (en_payload e))).
  { rewrite <- Hlen. unfold len. rewrite length_app. lia. }
  assert (Hd : drop (Z.to_nat (wl_base_index w)) (hist ++ [e]) =
    drop (Z.to_nat (wl_base_index w)) hist ++ [e]) by (by rewrite drop_app_le).
  split; cbn [set_size set_count set_tail wl_config wl_path wl_lock_path wl_open wl_base_index
    wl_base_authenticator wl_tail_index wl_tail_authenticator wl_tail_previous_authenticator
    wl_record_count wl_file_size]; try done; try lia.
  - eexists hd, (body ++ _). split.
    + split; [rewrite length_app; lia|]. exists b0. by rewrite take_app_le.
    + done.
    + rewrite Hd. eapply chain_app; [done|]. rewrite length_drop.
      replace (Z.of_nat _ + Z.of_nat _) with (Z.of_nat (length hist)) by lia.
      apply chain_one; [lia|done|done].
    + by rewrite Hbb, <- app_assoc.
    + rewrite Hlb. lia.
    + rewrite length_app. cbn [length]. lia.
  - rewrite length_app. cbn. lia.
  - rewrite Hd. intros l e' E. apply app_inj_tail in E as [<- <-]. exists body.
    by rewrite <- (Z2Nat.id (wl_base_index w)) at 1.
Qed.

(** The records of [e] and [e'] at index [i], after a common predecessor, are
    different messages with the same code. *)
Definition colliding (i : Z) (e e' : entry) : Prop :=
  ∃ previous d, let message x := entry_header i previous x ++ en_payload x in
    message e ≠ message e' ∧
    calculate_hmac (wc_authentication_key c) (message e) = Some d ∧
    calculate_hmac (wc_authentication_key c) (message e') = Some d.

Lemma entry_auth_same i a e e' x : bytes_ok 32 a → u64 i → entry_ok (opening c) e →
  entry_ok (opening c) e' → entry_auth (opening c) i a e = Some x →
  entry_auth (opening c) i a e' = Some x → e = e' ∨ colliding i e e'.
Proof.
  intros Ha Hi Ho Ho' Hx Hx'.
  destruct (decide (entry_header i a e ++ en_payload e = entry_header i a e' ++ en_payload e')) as [E|E].
  - left. apply (entry_bytes_inj (opening c) i a e e' x x [] []); try done.
    unfold entry_bytes. by rewrite !app_nil_r, !app_assoc, E.
  - right. unfold entry_auth, calculate_record_authenticator in Hx, Hx'.
    do 2 case_match; try done. rewrite !firstn_all2 in * by (unfold len; lia).
    rewrite opening_config in *. by exists a, x.
Qed.

Lemma blit_header w ty i at_ n prev : bytes_ok 32 (wl_tail_authenticator w) → bytes_ok 32 prev →
  blit (encode_record_header w ty i at_ n) 40 prev = record_header_bytes ty i at_ n prev.
Proof.
  intros [Hl _] [Hp _]. unfold encode_record_header, blit. rewrite Hp.
  assert (HX : ∃ X, length X = 40%nat ∧ ∀ a, record_header_bytes ty i at_ n a = X ++ a).
  { by exists (take 40 (record_header_bytes ty i at_ n [])). }
  destruct HX as (X & HX & E). rewrite !E, take_app_length' by done.
  rewrite drop_app_ge, drop_ge by lia. by rewrite app_nil_r.
Qed.

(** A matching tail record is the record that is there. *)
Lemma retry_matches w hist b e i : journal w hist b → entry_typed e → Forall u8 (en_payload e) →
  0 < len (en_payload e) →
  en_type e = WAL_RECORD_TYPE_SIGNED_INTENT ∨ en_type e = WAL_RECORD_TYPE_OPERATION_RESULT →
  record_matches_tail w (en_type e) i (en_at e) (en_payload e) (len (en_payload e)) = true →
  i = Z.of_nat (length hist) ∧ 0 < i ∧
  ∃ e', hist !! Z.to_nat (i - 1) = Some e' ∧ (e = e' ∨ colliding i e e').
Proof.
  intros Hj Het Hu8 Hpos Hty. pose proof (journal_tail_ok _ _ _ Hj) as Hto.
  pose proof (history_bound _ _ _ Hj) as Hmax. unfold record_matches_tail.
  destruct (_ || _) eqn:G; [done|]. bool_prop. intros [Hv Hm]%andb_true_iff.
  destruct Hj as [[Hc _] _ (hd & body & Hsg) Hb Ht Hn _ Hp].
  pose proof (anchored_ok _ _ _ (sg_anchor _ _ _ _ _ _ _ Hsg)) as Hao.
  pose proof (proj1 (sg_anchor _ _ _ _ _ _ _ Hsg)) as Hk.
  destruct (exists_last (l := drop (Z.to_nat (wl_base_index w)) hist)) as (l1 & e1 & Ed).
  { intros E. apply (f_equal length) in E. rewrite length_drop in E. cbn in E. lia. }
  destruct (Hp _ _ Ed) as (b1 & Hb1).
  assert (Hprev : bytes_ok 32 (wl_tail_previous_authenticator w)) by eauto using chain_end_ok.
  pose proof (sg_chain _ _ _ _ _ _ _ Hsg) as Hch. rewrite Ed in Hch.
  apply chain_split in Hch as (c1 & c2 & a1 & _ & Hc1 & Hc2). rewrite Z2Nat.id in Hc1, Hc2 by done.
  destruct (chain_det _ _ _ _ _ _ _ _ Hao Hb1 Hc1) as [_ <-].
  assert (Hll : wl_base_index w + Z.of_nat (length l1) + 1 = Z.of_nat (length hist)).
  { apply (f_equal length) in Ed. rewrite length_drop, length_app in Ed. cbn in Ed. lia. }
  apply chain_inv in Hc2 as [(? & _)|(e2 & x2 & ? & ? & [= <- <-] & _ & _ & He1 & Hx1 & Hc3)]; [done|].
  apply chain_inv in Hc3 as [(_ & _ & Ex)|(? & ? & ? & ? & ? & _)]; [|done]. subst x2.
  rewrite Hll in Hx1.
  assert (Eh : hist !! Z.to_nat (Z.of_nat (length hist) - 1) = Some e1).
  { pose proof (list_lookup_middle (take (Z.to_nat (wl_base_index w)) hist ++ l1) [] e1 _ eq_refl) as K.
    rewrite <- app_assoc in K. change (l1 ++ [e1]) with (l1 ++ [e1]) in K. rewrite <- Ed, take_drop in K.
    rewrite <- K. f_equal. rewrite length_app, length_take. lia. }
  subst i. rewrite Ht in *. split; [done|]. split; [lia|].
  rewrite blit_header in * by done.
  assert (Hx : entry_auth (opening c) (Z.of_nat (length hist)) (wl_tail_previous_authenticator w) e =
    Some (wl_tail_authenticator w)).
  { rewrite <- (entry_auth_config w (opening c) Hc). rewrite equal_32_some in Hm; [by bool_prop|done|].
    intros y Hy. exact (entry_auth_ok w _ _ e y Hy). }
  assert (Ho : entry_ok (opening c) e).
  { apply (entry_ok_config w (opening c) Hc). split; try done; [apply Het| |].
    - split; [done|apply Het].
    - by destruct (validate_record_payload _ _ _ _ _). }
  assert (Hi : u64 (Z.of_nat (length hist))) by (unfold uint, UINT64_MAX in *; lia).
  exists e1. split; [done|]. by apply (entry_auth_same _ _ _ _ _ Hprev Hi Ho He1 Hx Hx1).
Qed.

(** Writing the record [e] either makes it part of the durable history or leaves
    the history as it was. *)
Lemma append_bytes_state v w hist e x r w' v' : journal_state v w hist → wl_faulted w = false →
  Z.of_nat (length hist) < UINT64_MAX → entry_ok (opening c) e →
  entry_auth (opening c) (Z.of_nat (length hist) + 1) (wl_tail_authenticator w) e = Some x →
  wl_record_count w < wc_record_capacity c →
  WAL_RECORD_FIXED_SIZE + len (en_payload e) <= wc_byte_capacity c - wl_file_size w →
  append_bytes w (entry_header (Z.of_nat (length hist) + 1) (wl_tail_authenticator w) e)
    (en_payload e) x v = (r, w', v') →
  (r = MESH_CONTROL_WAL_OK ∧ w' = w ∧ ∀ prev, prev = wl_tail_authenticator w →
   journal_state v'
     (w |> set_tail (Z.of_nat (length hist) + 1) prev x |> set_count (wl_record_count w + 1)
        |> set_size (wl_file_size w + (WAL_RECORD_FIXED_SIZE + len (en_payload e))))
     (hist ++ [e])) ∨
  (r ≠ MESH_CONTROL_WAL_OK ∧ journal_state v' w' hist).
Proof.
  intros [(b & t & Hj & Hf & Htf) Hd] Gf Hmax He Hau Hcnt Hsz H.
  rewrite (Htf Gf), app_nil_r in Hf. pose proof (jn_config _ _ _ Hj) as (_ & Ep & _).
  rewrite <- Ep in Hf. destruct (append_bytes_spec _ _ _ _ _ _ _ _ _ Hf H) as
    [(-> & -> & Hf' & Hd')|[(-> & -> & S')|(-> & -> & Hadd)]]; rewrite Ep in *.
  - left. split_and!; [done..|]. intros prev Hprev.
    pose proof (journal_append w hist b e x prev Hj Gf Hmax He Hau Hcnt Hsz Hprev) as Hj'. split.
    + eexists _, []. rewrite app_nil_r. split; [exact Hj'|]. by rewrite Hf'.
    + intros d Hdd. rewrite (Hd' d Hdd), Hf'. eexists _, []. rewrite app_nil_r.
      split; [done|]. split; [apply (journal_segment _ _ _ Hj')|done].
  - right. split; [done|]. split; [|intros d Hdd; apply Hd, S', Hdd]. exists b, [].
    rewrite app_nil_r. split; [done|]. by rewrite (same_file_content _ _ _ S').
  - right. split; [done|]. destruct Hadd as [[t' Ht'] Hg]. split.
    + exists b, t'. split; [|done]. destruct Hj as [J1 J2 J3 J4 J5 J6 J7 J8]. by split.
    + intros d Hdd. apply Hg in Hdd as [Hdd|(s & u & Hsv & ->)].
      * destruct (Hd d Hdd) as (b2 & t2 & -> & Hb2 & _). exists b2, t2. done.
      * destruct (Hd _ Hsv) as (b2 & t2 & [= ->] & Hb2 & _). exists b2, (t2 ++ u).
        by rewrite app_assoc.
Qed.

(** What a call that appends [e] at index [i] does to the history: it is the next
    record, or it was the last one already, or the call failed. *)
Definition append_outcome v w hist (i : Z) (e : entry) (r : mesh_control_wal_result)
    (wal : option mesh_control_wal) (v' : volume) : Prop :=
  ∃ w', wal = Some w' ∧
    ((r = MESH_CONTROL_WAL_OK ∧ i = Z.of_nat (length hist) + 1 ∧ journal_state v' w' (hist ++ [e])) ∨
     (r = MESH_CONTROL_WAL_OK ∧ w' = w ∧ v' = v ∧ 0 < i ∧
      ∃ e', hist !! Z.to_nat (i - 1) = Some e' ∧ (e = e' ∨ colliding i e e')) ∨
     (r ≠ MESH_CONTROL_WAL_OK ∧ journal_state v' w' hist)).

Lemma append_stopped v w hist i e r r' wal (o o' : option Z) v' : journal_state v w hist →
  (r', Some w, o', v) = (r, wal, o, v') → r' ≠ MESH_CONTROL_WAL_OK →
  append_outcome v w hist i e r wal v'.
Proof. intros Hs [= <- <- _ <-] Hr. exists w. eauto. Qed.

Lemma append_record_state v w hist ty i at_ pl o0 r wal o v' : journal_state v w hist →
  u64 at_ → Forall u8 pl →
  append_record (Some w) ty i at_ (Some pl) (len pl) (Some o0) v = (r, wal, o, v') →
  append_outcome v w hist i (mk_entry ty at_ pl) r wal v'.
Proof.
  intros Hs Hat Hpl H. unfold append_record in H. cbn [assign fmap option_fmap option_map] in H.
  set (e := mk_entry ty at_ pl).
  pose proof (λ r' E Hr, append_stopped v w hist i e r r' wal o (Some 0) v' Hs E Hr) as Hstop.
  match type of H with (if ?g then _ else _) = _ => destruct g eqn:G; [by eapply Hstop in H|] end.
  match type of H with (if ?g then _ else _) = _ => destruct g eqn:G2; [by eapply Hstop in H|] end.
  rewrite !orb_false_iff, andb_false_iff, !negb_false_iff in G. rewrite orb_false_iff, negb_false_iff in G2.
  destruct G as [[[[_ Gi] Gz] Gm] Gt], G2 as [Go Gf]. bool_prop.
  destruct (js_file _ _ _ Hs) as (b & t & Hj & _).
  assert (Hty : en_type e = WAL_RECORD_TYPE_SIGNED_INTENT ∨ en_type e = WAL_RECORD_TYPE_OPERATION_RESULT).
  { cbn. destruct Gt; bool_prop; auto. }
  assert (Het : entry_typed e).
  { split; [destruct Hty as [-> | ->]; done|done|cbn; lia]. }
  assert (Hpos : 0 < len (en_payload e)) by (cbn; unfold len in *; lia).
  match type of H with (if ?g then _ else _) = _ => destruct g eqn:G3 end.
  { apply andb_true_iff in G3 as [_ G3]. injection H as <- <- <- <-. exists w. split; [done|].
    right; left. by eapply (retry_matches w hist b e i) in G3 as (_ & ? & ?). }
  match type of H with (if ?g then _ else _) = _ => destruct g eqn:G4; [by eapply Hstop in H|] end.
  apply orb_false_iff in G4 as [Gx Gn]. apply negb_false_iff in Gn. bool_prop.
  destruct (validate_record_payload w ty at_ pl (len pl)) eqn:Hval; try by eapply Hstop in H.
  match type of H with (if ?g then _ else _) = _ => destruct g eqn:G5; [by eapply Hstop in H|] end.
  apply orb_false_iff in G5 as [Gc Gr]. bool_prop.
  destruct (calculate_record_authenticator _ _ _ _) as [x|] eqn:Hx; [|by eapply Hstop in H].
  pose proof (jn_config _ _ _ Hj) as (Ec & _). pose proof (jn_tail _ _ _ Hj) as Et.
  pose proof (history_bound _ _ _ Hj) as Hmax. pose proof (journal_tail_ok _ _ _ Hj) as Hto.
  pose proof (file_size_range _ _ _ Hj) as Hsz. pose proof capacity_range as [_ Hbc].
  rewrite Ec, opening_config in Gc, Gr. rewrite wrap_small in Gr by (unfold uint; lia).
  assert (He : entry_ok (opening c) e) by by apply (entry_ok_config w (opening c) Ec).
  subst i. rewrite Et in Hx, H. change (encode_record_header w ty (Z.of_nat (length hist) + 1) at_ (len pl))
    with (entry_header (Z.of_nat (length hist) + 1) (wl_tail_authenticator w) e) in Hx, H.
  assert (Hau : entry_auth (opening c) (Z.of_nat (length hist) + 1) (wl_tail_authenticator w) e = Some x).
  { by rewrite <- (entry_auth_config w (opening c) Ec). }
  rewrite firstn_all2 in H by (unfold len; lia).
  destruct (append_bytes _ _ _ _ _) as [[r1 w1] v1] eqn:Ha.
  assert (Hi : u64 (Z.of_nat (length hist) + 1)) by (unfold uint, UINT64_MAX in *; lia).
  destruct (append_bytes_state _ _ _ e _ _ _ _ Hs Gf ltac:(lia) He Hau Gc ltac:(cbn; lia) Ha) as
    [(-> & -> & Hj')|[Hr Hj']].
  - injection H as <- <- <- <-. eexists. split; [done|]. left. split_and!; [done|lia|].
    apply Hj', (entry_header_reads _ _ _ Het Hi Hto).
  - exists w1. destruct r1; [done|injection H as <- <- <- <-; eauto..].
Qed.

(** ** Compaction *)

Lemma compact_path_other : journal_path ++ COMPACT_SUFFIX ≠ journal_path.
Proof.
  intros E. apply (f_equal length) in E. rewrite length_app in E. cbn in E. lia.
Qed.

Lemma compacted_anchor w hist b : journal w hist b →
  anchored hist (length hist) (wl_tail_authenticator w).
Proof.
  intros [_ _ (hd & body & Hsg) Hb _ _ _ _]. destruct Hsg as [[Hk [b0 Hb0]] _ Hch _ _ _].
  split; [done|]. exists (b0 ++ body). rewrite firstn_all, <- (take_drop (Z.to_nat (wl_base_index w)) hist).
  eapply chain_app; [done|]. rewrite length_take.
  by replace (0 + Z.of_nat (Z.to_nat (wl_base_index w) `min` length hist)) with
    (Z.of_nat (Z.to_nat (wl_base_index w))) by lia.
Qed.

Lemma compact_state v w hist i r wal v' : journal_state v w hist →
  mesh_control_wal_compact_v1 (Some w) i v = (r, wal, v') →
  ∃ w', wal = Some w' ∧ journal_state v' w' hist.
Proof.
  intros Hs H. unfold mesh_control_wal_compact_v1 in H.
  match type of H with (if ?g then _ else _) = _ => destruct g eqn:G; [injection H as <- <- <-; eauto|] end.
  apply orb_false_iff in G as [_ Gf].
  match type of H with (if ?g then _ else _) = _ => destruct g eqn:G; [injection H as <- <- <-; eauto|] end.
  bool_prop. destruct (wal_encode_header _) as [hd|] eqn:Hh; [|injection H as <- <- <-; eauto].
  match type of H with (if ?g then _ else _) = _ => destruct g eqn:G2; [injection H as <- <- <-; eauto|] end.
  destruct Hs as [(b & t & Hj & Hf & Htf) Hd]. rewrite (Htf Gf), app_nil_r in Hf.
  pose proof (jn_config _ _ _ Hj) as (Ec & Ep & El). pose proof (jn_tail _ _ _ Hj) as Et. rewrite Ep in H.
  pose proof (compacted_anchor _ _ _ Hj) as Han.
  assert (Hhd : wal_encode_header (set_base (Z.of_nat (length hist)) (wl_tail_authenticator w) (opening c)) = Some hd).
  { rewrite <- Hh. by apply encode_header_config; cbn; [rewrite Ec|congruence|]. }
  pose proof (empty_segment _ _ _ Han Hhd) as Hsg.
  destruct (replace_segment _ _ _ v) as [r1 v1] eqn:E.
  destruct (replace_segment_spec _ _ _ _ _ _ compact_path_other E) as [(-> & Hf' & Hd')|[Hr S']].
  - injection H as <- <- <-. eexists. split; [done|]. split.
    + exists hd, []. rewrite app_nil_r. split; [|done].
      split; cbn [set_size set_count set_tail set_base wl_config wl_path wl_lock_path wl_open
        wl_base_index wl_base_authenticator wl_tail_index wl_tail_authenticator
        wl_tail_previous_authenticator wl_record_count wl_file_size]; try done; try lia.
      * apply (jn_open _ _ _ Hj).
      * exists hd, []. replace (Z.to_nat i) with (length hist) by lia. done.
      * symmetry. apply (empty_header_size _ _ _ Hhd); [by eapply anchored_ok|by eapply anchored_index].
      * intros l e Ed. rewrite drop_ge in Ed by lia. by destruct l.
    + intros d Hdd. apply Hd' in Hdd as [Hdd|Hdd].
      * destruct (Hd d Hdd) as (b2 & t2 & -> & Hb2 & Ht2). exists b2, t2. split_and!; [done..|]. eauto.
      * exists hd, []. rewrite app_nil_r. split_and!; [done|by eexists _, _, _, _, _|done].
  - exists w. destruct r1; [done|injection H as <- <- <-; split; [done|]..];
      (split; [exists b, []; rewrite app_nil_r; split; [done|]; by rewrite (same_file_content _ _ _ S')
              |intros d Hdd; apply Hd, S', Hdd]).
Qed.

(** ** Replay *)

(** What the callback sees of the entry [e] at index [i]. *)
Definition entry_view (i : Z) (e : entry) : mesh_control_wal_record_view :=
  if en_type e =? WAL_RECORD_TYPE_SIGNED_INTENT
  then mk_wal_view i (en_at e) (en_type e) 0 (Some (en_payload e)) (len (en_payload e))
         zero_operation_result
  else mk_wal_view i (en_at e) (en_type e) 0 None 0
         (decode_operation_result (en_payload e) (len (en_payload e)) zero_operation_result).2.

(** Handing the entries of [log], which follow index [next], to a callback. *)
Fixpoint deliver {C} (callback : C → mesh_control_wal_record_view → Z * C) (after next : Z)
    (log : list entry) (replayed : Z) (ctx : C) : mesh_control_wal_result * Z * C :=
  match log with
  | [] => (MESH_CONTROL_WAL_OK, replayed, ctx)
  | e :: log' =>
      if next + 1 <=? after then deliver callback after (next + 1) log' replayed ctx
      else
        let '(status, ctx) := callback ctx (entry_view (next + 1) e) in
        if negb (status =? 0) then (MESH_CONTROL_WAL_CALLBACK_FAILED, replayed, ctx)
        else deliver callback after (next + 1) log' (replayed + 1) ctx
  end.

Lemma read_exact_same file n v r d v' q : read_exact file n v = (r, d, v') → same_file v v' q.
Proof.
  unfold read_exact. generalize (@nil Z) as buf, 0 as off. revert v.
  induction (Z.to_nat n) as [|k IH]; intros v buf off; cbn [read_loop]; [by intros [= <- <- <-]|].
  destruct (_ <=? _); [by intros [= <- <- <-]|].
  destruct (turbo_fs_read file _ v) as [[rd data] v1] eqn:E. eapply (read_frame _ _ _ _ _ _ q) in E.
  destruct (_ <=? _); [by intros [= <- <- <-]|]. intros H. eapply same_file_trans; [done|by eapply IH].
Qed.

(** Replay does not touch the journal. *)
Lemma replay_loop_same {C} (cb : C → _) n w file after q : ∀ next prev k ctx v r k' ctx' v',
  replay_loop cb n w file after next prev k ctx v = (r, k', ctx', v') → same_file v v' q.
Proof.
  induction n as [|n IH]; intros next prev k ctx v r k' ctx' v' H; cbn [replay_loop] in H.
  { by injection H as <- <- <- <-. }
  destruct (read_exact file WAL_RECORD_HEADER_SIZE v) as [[r1 hd] v1] eqn:R1.
  eapply (read_exact_same _ _ _ _ _ _ q) in R1. destruct r1; try (by injection H as <- <- <- <-).
  destruct (_ || _); [by injection H as <- <- <- <-|].
  destruct (read_exact file _ v1) as [[r2 fr] v2] eqn:R2.
  eapply (read_exact_same _ _ _ _ _ _ q) in R2. pose proof (same_file_trans _ _ _ _ R1 R2) as S2.
  destruct r2; try (by injection H as <- <- <- <-).
  destruct (read_exact file _ v2) as [[r3 au] v3] eqn:R3.
  eapply (read_exact_same _ _ _ _ _ _ q) in R3. pose proof (same_file_trans _ _ _ _ S2 R3) as S3.
  destruct r3; try (by injection H as <- <- <- <-).
  destruct (validate_record _ _ _ _ _ _ _ _) as [[r4 ty] oo]. destruct r4; try (by injection H as <- <- <- <-).
  destruct (_ <=? _); [eapply same_file_trans; [done|by eapply IH]|].
  destruct (cb _ _) as [st ctx1]. destruct (negb _); [by injection H as <- <- <- <-|].
  eapply same_file_trans; [done|by eapply IH].
Qed.

Lemma replay_same {C} wal after (cb : option (C → _)) ctx o v r ctx' o' v' q :
  mesh_control_wal_replay_v1 wal after cb ctx o v = (r, ctx', o', v') → same_file v v' q.
Proof.
  unfold mesh_control_wal_replay_v1. intros H. destruct wal as [w|], cb as [cb|];
    try (by injection H as <- <- <- <-).
  do 3 match type of H with (if ?g then _ else _) = _ => destruct g; [by injection H as <- <- <- <-|] end.
  destruct (turbo_fs_open _ _ v) as [file v1] eqn:E1. destruct (open_read _ _ _ _ q E1) as (S1 & _).
  destruct (bool_decide _); [by injection H as <- <- <- <-|]. unfold replay_file in H.
  destruct (read_exact _ _ v1) as [[r2 hd] v2] eqn:E2. eapply (read_exact_same _ _ _ _ _ _ q) in E2.
  assert (Hc : ∀ u r3 k ctx3, same_file v1 u q →
    (let '(result, v) := close_after file r3 MESH_CONTROL_WAL_IO u in
     (result, ctx3, if wal_ok result then assign (assign o 0) k else assign o 0, v)) =
      (r, ctx', o', v') → same_file v v' q).
  { intros u r3 k ctx3 Su K. unfold close_after in K. destruct (turbo_fs_close file u) as [cl u'] eqn:Ec.
    eapply (close_frame _ _ _ _ q) in Ec. injection K as <- <- <- <-. eauto using same_file_trans. }
  destruct r2; try (by eapply Hc in H).
  destruct (replay_loop _ _ _ _ _ _ _ _ _ _) as [[[r3 k] ctx3] v3] eqn:E3.
  eapply (replay_loop_same _ _ _ _ _ q _ _ _ _ _ _ _ _ _) in E3.
  eapply Hc in H; [done|eauto using same_file_trans].
Qed.

(** On a reliable volume the loop delivers the chain. *)
Lemma replay_loop_live {C} (cb : C → _) w file after p content log : ∀ off next prev k ctx v b rest a',
  chain w next prev log b a' → reading v file p content off → reliable v →
  drop (Z.to_nat off) content = b ++ rest → bytes_ok 32 prev →
  ∃ v', replay_loop cb (length log) w file after next prev k ctx v =
    (let '(r, k, ctx) := deliver cb after next log k ctx in (r, k, ctx, v')) ∧ reliable v'.
Proof.
  induction log as [|e log IH]; intros off next prev k ctx v b rest a' Hch Hr Hl Hd Hp.
  { exists v. done. }
  apply chain_inv in Hch as [(? & _)|(e' & x & log' & b' & [= <- <-] & -> & Hi & He & Hx & Hch)]; [done|].
  rewrite <- app_assoc in Hd. pose proof (entry_auth_ok _ _ _ _ _ Hx) as Hxo.
  destruct (record_live _ _ _ _ _ _ _ _ _ _ _ Hr Hl Hi Hp He Hx Hd) as
    (v1 & v2 & v3 & R1 & R2 & R3 & L3 & G3 & S3).
  pose proof (length_entry_bytes (next + 1) prev e x Hp Hxo) as Hlen. unfold len in Hlen at 1.
  pose proof (eo_size _ _ He) as Hsz. pose proof (proj2 (proj2 Hr)) as Ho.
  assert (Hd' : drop (Z.to_nat (off + (WAL_RECORD_FIXED_SIZE + len (en_payload e)))) content = b' ++ rest).
  { rewrite <- Hlen. replace (Z.to_nat (off + _)) with
      (Z.to_nat off + length (entry_bytes (next + 1) prev e x))%nat by lia.
    by rewrite <- drop_drop, Hd, drop_app_length. }
  pose proof (next_index_range _ Hi) as Hi64.
  pose proof (entry_header_reads _ _ _ (entry_ok_typed _ _ He) Hi64 Hp) as Hrd.
  cbn [length replay_loop deliver]. rewrite R1, (hr_payload_size _ _ _ _ Hrd), (hr_at _ _ _ _ Hrd).
  match goal with |- ∃ _, (if ?g then _ else _) = _ ∧ _ => replace g with false end.
  2:{ symmetry. rewrite orb_false_iff, Z.ltb_ge, Z.eqb_neq. lia. }
  rewrite R2, R3, (wrap_small 64) by done. rewrite validate_record_entry by done. cbn [deref assign fmap option_fmap option_map].
  destruct (next + 1 <=? after); [by eapply IH|].
  match goal with |- context [cb ctx ?view] => replace view with (entry_view (next + 1) e) end.
  2:{ unfold entry_view, reported. by destruct (_ =? _). }
  destruct (cb ctx _) as [st ctx1]. destruct (negb _); [by exists v3|]. by eapply IH.
Qed.

(** The whole call, from a state of the journal. *)
Lemma replay_state {C} v w hist after (cb : C → _) ctx o0 : journal_state v w hist →
  wl_faulted w = false → reliable v → wl_base_index w <= after <= wl_tail_index w →
  ∃ v', mesh_control_wal_replay_v1 (Some w) after (Some cb) ctx (Some o0) v =
    (let '(r, k, ctx) := deliver cb after (wl_base_index w)
                           (drop (Z.to_nat (wl_base_index w)) hist) 0 ctx in
     (r, ctx, Some (if wal_ok r then k else 0), v')).
Proof.
  intros [(b & t & Hj & Hf & Htf) _] Gf Hl Ha. rewrite (Htf Gf), app_nil_r in Hf.
  pose proof (jn_config _ _ _ Hj) as (Ec & Ep & _). pose proof (jn_open _ _ _ Hj) as Eo.
  destruct (jn_segment _ _ _ Hj) as (hd & body & Hsg).
  pose proof (segment_header _ _ _ _ _ _ _ (opening c) Hsg eq_refl) as [Hhd _].
  unfold mesh_control_wal_replay_v1. cbn [assign fmap option_fmap option_map].
  rewrite Eo, Gf, Ep. cbn [negb orb non_null].
  replace (bool_decide (is_Some (Some 0))) with true by done.
  replace ((after <? wl_base_index w) || (wl_tail_index w <? after)) with false.
  2:{ symmetry. rewrite orb_false_iff, !Z.ltb_ge. lia. }
  pose proof (live_open v journal_path _ Hl Hf) as Hop.
  destruct (turbo_fs_open journal_path [TURBO_FS_O_RDONLY] v) as [file v1] eqn:E1.
  destruct Hop as (Hfile & Hl1). destruct (open_read _ _ _ _ journal_path E1) as (S1 & Hh).
  destruct (Hh Hfile) as (Hh1 & _). rewrite bool_decide_eq_false_2 by done.
  assert (R1 : reading v1 file journal_path b 0).
  { split_and!; [done| |done]. by rewrite (same_file_content _ _ _ S1). }
  destruct (read_exact_reading_live _ _ _ _ _ WAL_HEADER_SIZE R1 Hl1) as (v2 & E2 & Hl2 & R2 & S2); [done| |].
  { rewrite (sg_bytes _ _ _ _ _ _ _ Hsg). unfold len, WAL_HEADER_SIZE. rewrite length_app, Hhd. lia. }
  unfold replay_file. rewrite E2. pose proof (jn_base _ _ _ Hj) as Hb0.
  destruct (replay_loop_live cb w file after journal_path b (drop (Z.to_nat (wl_base_index w)) hist)
    (0 + WAL_HEADER_SIZE) (wl_base_index w) (wl_base_authenticator w) 0 ctx v2 body [] (wl_tail_authenticator w))
    as (v3 & E3 & Hl3); try done.
  - apply (chain_config (opening c) w (eq_sym Ec)).
    rewrite <- (Z2Nat.id (wl_base_index w)) at 1 by done. apply (sg_chain _ _ _ _ _ _ _ Hsg).
  - by rewrite (sg_bytes _ _ _ _ _ _ _ Hsg), app_nil_r, drop_app_length'.
  - by eapply anchored_ok, (sg_anchor _ _ _ _ _ _ _ Hsg).
  - replace (Z.to_nat (wl_record_count w)) with (length (drop (Z.to_nat (wl_base_index w)) hist)).
    2:{ rewrite length_drop, (jn_count _ _ _ Hj), (jn_tail _ _ _ Hj). lia. }
    rewrite E3. destruct (deliver _ _ _ _ _ _) as [[r k] ctx'].
    destruct (close_after_live file r MESH_CONTROL_WAL_IO v3 Hl3) as (v4 & -> & _). exists v4.
    by destruct r.
Qed.

End Journal.

(** ** Runs with crashes *)

(** The members of an operation result have their C types. *)
Record operation_result_typed (x : mesh_control_wal_operation_result) : Prop := {
  ot_ids : bytes_ok 16 (wo_operation_id x) ∧ bytes_ok 32 (wo_resource_id x);
  ot_u16 : u16 (wo_resource_kind x) ∧ u16 (wo_action x) ∧ u16 (wo_outcome x);
  ot_epoch : u64 (wo_desired_epoch x) }.

Section Runs.
Context {CR : Crypto} {HM : Hmac} {FS : FileSystem} {FT : FileState} {LV : FileSystemLive}.
Context (c : mesh_control_wal_config).

(** [wal_reach v w acks]: the journal was created, used, closed, and reopened,
    possibly after crashes, and [acks] are the records whose append returned OK,
    with their indices.  A crash may strike between any two calls; one that
    strikes during a call is a call that fails, since a failing call may stop
    after any of its steps.  After a fault without a crash the handle is not
    reopened: that case is [wal_retry_unsynced]. *)
Inductive wal_reach : volume → mesh_control_wal → list (Z * entry) → Prop :=
  | reach_create v wf w v' : wl_open wf = false → file_at v (journal_path c) = None →
      mesh_control_wal_open_v1 (Some wf) (Some c) v = (MESH_CONTROL_WAL_OK, Some w, v') →
      wal_reach v' w []
  | reach_append v w acks i at_ frame o0 r w' o v' : wal_reach v w acks → u64 at_ →
      Forall u8 frame →
      mesh_control_wal_append_v1 (Some w) i at_ (Some frame) (len frame) (Some o0) v =
        (r, Some w', o, v') →
      wal_reach v' w' (if wal_ok r
                       then (i, mk_entry WAL_RECORD_TYPE_SIGNED_INTENT at_ frame) :: acks else acks)
  | reach_result v w acks i at_ x payload o0 r w' o v' : wal_reach v w acks → u64 at_ →
      operation_result_typed x → encode_operation_result x = Some payload →
      mesh_control_wal_append_operation_result_v1 (Some w) i at_ (Some x) (Some o0) v =
        (r, Some w', o, v') →
      wal_reach v' w' (if wal_ok r
                       then (i, mk_entry WAL_RECORD_TYPE_OPERATION_RESULT at_ payload) :: acks
                       else acks)
  | reach_compact v w acks i r w' v' : wal_reach v w acks →
      mesh_control_wal_compact_v1 (Some w) i v = (r, Some w', v') → wal_reach v' w' acks
  | reach_replay {C} v w acks after (cb : option (C → mesh_control_wal_record_view → Z * C))
      ctx o r ctx' o' v' : wal_reach v w acks →
      mesh_control_wal_replay_v1 (Some w) after cb ctx o v = (r, ctx', o', v') → wal_reach v' w acks
  | reach_restart v w acks v1 wf w' v' : wal_reach v w acks → crash v v1 → reliable v1 →
      lockable v1 (journal_lock c) → wl_open wf = false →
      mesh_control_wal_open_v1 (Some wf) (Some c) v1 = (MESH_CONTROL_WAL_OK, Some w', v') →
      wal_reach v' w' acks
  | reach_reopen v w acks wf v1 w' v' : wal_reach v w acks → wl_faulted w = false →
      mesh_control_wal_close_v1 (Some w) v = (Some wf, v1) → reliable v1 →
      lockable v1 (journal_lock c) →
      mesh_control_wal_open_v1 (Some wf) (Some c) v1 = (MESH_CONTROL_WAL_OK, Some w', v') →
      wal_reach v' w' acks.

End Runs.

Section Invariant.
Context {CR : Crypto} {HM : Hmac} {HL : HmacLaws}.
Context {FS : FileSystem} {FT : FileState} {FL : FileSystemLaws} {LV : FileSystemLive}.
Context (c : mesh_control_wal_config) (Hvalid : wal_config_valid (Some c) = true)
  (Htyped : wal_config_typed c).

(** The acknowledged records are in the history at their indices. *)
Definition recorded (acks : list (Z * entry)) (hist : list entry) : Prop :=
  ∀ i e, (i, e) ∈ acks → 0 < i ∧
    ∃ e', hist !! Z.to_nat (i - 1) = Some e' ∧ (e = e' ∨ colliding c i e e').

Lemma recorded_app acks hist ext : recorded acks hist → recorded acks (hist ++ ext).
Proof.
  intros H i e He. destruct (H i e He) as (Hi & e' & Hl & Hc). split; [done|].
  exists e'. split; [by apply lookup_app_l_Some|done].
Qed.

Lemma recorded_outcome v w hist acks i e r w' v' : recorded acks hist → journal_state c v w hist →
  append_outcome c v w hist i e r (Some w') v' →
  ∃ hist', journal_state c v' w' hist' ∧ recorded (if wal_ok r then (i, e) :: acks else acks) hist'.
Proof.
  intros Hr Hs (w1 & [= <-] & [(-> & -> & Hs')|[(-> & -> & -> & Hi & Ho)|[Hr' Hs']]]).
  - exists (hist ++ [e]). split; [done|]. apply (recorded_app _ _ [e]) in Hr.
    intros j e' [[= -> ->]|Hin]%elem_of_cons; [|eauto]. split; [lia|]. exists e. split; [|by left].
    replace (Z.to_nat (Z.of_nat (length hist) + 1 - 1)) with (length hist) by lia.
    by rewrite list_lookup_middle.
  - exists hist. split; [done|]. intros j e' [[= -> ->]|Hin]%elem_of_cons; [done|eauto].
  - exists hist. split; [done|]. by destruct r.
Qed.

Lemma encode_result_ok x p : operation_result_typed x → encode_operation_result x = Some p →
  Forall u8 p ∧ len p = WAL_OPERATION_RESULT_SIZE.
Proof.
  intros [(H1 & H2) _ _] E. unfold encode_operation_result in E. destruct (negb _); [done|].
  apply (inj Some) in E as <-. split.
  - rewrite !Forall_app. split_and!; try apply H1; try apply H2; try apply write_u16_ok;
      try apply write_u32_ok; try apply write_u64_ok; evaluate.
  - unfold len. rewrite !length_app, (proj1 H1), (proj1 H2). done.
Qed.

Lemma same_file_state v v' w hist : journal_state c v w hist → same_file v v' (journal_path c) →
  journal_state c v' w hist.
Proof.
  intros [(b & t & Hj & Hf & Ht) Hd] S. split; [|intros d Hdd; apply Hd, S, Hdd].
  exists b, t. by rewrite (same_file_content _ _ _ S).
Qed.

Lemma close_same w v wal v' q : mesh_control_wal_close_v1 (Some w) v = (wal, v') →
  same_file v v' q ∧ wal = Some (wiped_wal TURBO_INVALID_FILE).
Proof.
  unfold mesh_control_wal_close_v1. intros [= <- <-]. split; [|done].
  destruct (bool_decide _); [done|]. destruct (turbo_fs_close _ _) as [r2 v2] eqn:E2.
  cbn. apply (λ S, same_file_trans _ _ _ _ S (close_frame _ _ _ _ q E2)).
  destruct (wl_open w); [|done]. destruct (turbo_fs_unlock _ v) as [r1 v1] eqn:E1. by eapply unlock_frame.
Qed.

Lemma reach_state v w acks : wal_reach c v w acks →
  ∃ hist, journal_state c v w hist ∧ recorded acks hist.
Proof.
  induction 1 as [v wf w v' Ho Hf H|v w acks i at_ frame o0 r w' o v' _ (hist & Hs & Hr) Ha Hb H
    |v w acks i at_ x payload o0 r w' o v' _ (hist & Hs & Hr) Ha Hx Hp H
    |v w acks i r w' v' _ (hist & Hs & Hr) H|C v w acks after cb ctx o r ctx' o' v' _ (hist & Hs & Hr) H
    |v w acks v1 wf w' v' _ (hist & Hs & Hr) Hc Hl Hk Ho H
    |v w acks wf v1 w' v' _ (hist & Hs & Hr) Hf Hc Hl Hk H].
  - exists []. split; [by eapply open_creates|]. by intros i e ?%not_elem_of_nil.
  - eapply recorded_outcome; [done..|].
    by apply (append_record_state c Hvalid Htyped v w hist _ i at_ frame o0 r (Some w') o v').
  - destruct (encode_result_ok _ _ Hx Hp) as [Hu Hlen].
    unfold mesh_control_wal_append_operation_result_v1 in H. cbn [mbind option_bind] in H.
    rewrite Hp, <- Hlen in H. cbn [assign fmap option_fmap option_map] in H.
    eapply recorded_outcome; [done..|].
    by apply (append_record_state c Hvalid Htyped v w hist _ i at_ payload 0 r (Some w') o v').
  - eapply compact_state in H as (w1 & [= <-] & Hs'); [by exists hist|done..].
  - exists hist. split; [|done]. eapply same_file_state; [done|by eapply replay_same].
  - destruct (js_durable _ _ _ _ Hs _ (crash_survives _ _ (journal_path c) Hc)) as (b & t & E & Hsg & _).
    destruct (open_sound c Hvalid Htyped v1 wf hist b t w' v' Ho Hl Hk E Hsg H) as (ext & Hj & Hfl & _ & S).
    exists (hist ++ ext). split; [|by apply recorded_app]. split.
    + exists (b ++ t), []. rewrite app_nil_r, (same_file_content _ _ _ S). done.
    + intros d Hd. apply S, (crash_settled _ _ _ _ Hc) in Hd as ->. exists (b ++ t), [].
      rewrite app_nil_r. split; [done|]. split; [by eapply journal_segment|done].
  - destruct (close_same _ _ _ _ (journal_path c) Hc) as [S1 [= ->]].
    destruct Hs as [(b & t & Hj & Hb & Ht) Hd]. rewrite (Ht Hf) in Hb.
    destruct (open_sound c Hvalid Htyped v1 (wiped_wal TURBO_INVALID_FILE) hist b [] w' v' eq_refl Hl Hk
      (eq_trans (same_file_content _ _ _ S1) Hb) (journal_segment _ _ _ _ Hj) H) as (ext & Hj' & Hfl & Hext & S).
    rewrite (Hext eq_refl), !app_nil_r in *. exists hist. split; [|done]. split.
    + exists b, []. rewrite app_nil_r, (same_file_content _ _ _ S), (same_file_content _ _ _ S1). done.
    + intros d Hdd. destruct (Hd d) as (b2 & t2 & -> & Hb2 & Ht2); [by apply S1, S|]. exists b2, t2. eauto.
Qed.

End Invariant.

(** ** Delivery to a collecting callback *)

Definition collect (views : list mesh_control_wal_record_view) (view : mesh_control_wal_record_view) :
    Z * list mesh_control_wal_record_view := (0, views ++ [view]).

(** The entries of [log], which follow index [next], as the callback sees them. *)
Definition views_of (next : Z) (log : list entry) : list mesh_control_wal_record_view :=
  imap (λ j e, entry_view (next + 1 + Z.of_nat j) e) log.

Section Collect.

Lemma views_of_cons next e log : views_of next (e :: log) = entry_view (next + 1) e :: views_of (next + 1) log.
Proof.
  unfold views_of. cbn [imap]. rewrite Z.add_0_r. f_equal. apply imap_ext. intros j e' _. cbn.
  f_equal. lia.
Qed.

Lemma deliver_all log : ∀ after next k ctx, after <= next →
  deliver collect after next log k ctx =
    (MESH_CONTROL_WAL_OK, k + Z.of_nat (length log), ctx ++ views_of next log).
Proof.
  induction log as [|e log IH]; intros after next k ctx Ha.
  { cbn. by rewrite Z.add_0_r, app_nil_r. }
  cbn [deliver collect]. destruct (Z.leb_spec (next + 1) after); [lia|]. cbn [negb Z.eqb].
  rewrite IH by lia. rewrite views_of_cons, <- app_assoc. cbn [length app]. do 2 f_equal. lia.
Qed.

Lemma deliver_collect log : ∀ after next k ctx, next <= after <= next + Z.of_nat (length log) →
  deliver collect after next log k ctx =
    (MESH_CONTROL_WAL_OK, k + (next + Z.of_nat (length log) - after),
     ctx ++ views_of after (drop (Z.to_nat (after - next)) log)).
Proof.
  induction log as [|e log IH]; intros after next k ctx Ha; cbn [length] in *.
  { rewrite drop_nil. cbn. rewrite app_nil_r. do 2 f_equal. lia. }
  destruct (Z.le_gt_cases after next) as [Hle|Hlt].
  - replace after with next by lia. rewrite deliver_all by lia. rewrite Z.sub_diag. cbn [length drop Z.to_nat].
    do 2 f_equal. lia.
  - cbn [deliver]. destruct (Z.leb_spec (next + 1) after); [|lia]. rewrite IH by lia.
    replace (Z.to_nat (after - next)) with (S (Z.to_nat (after - (next + 1)))) by lia.
    cbn [drop]. do 2 f_equal. lia.
Qed.

End Collect.

(** ** Theorems *)



(** C37: a torn append ends the journal.  If only part of a record reached the file
    when the append failed, every later open of the journal answers CORRUPT:
    reopening does not show where the tail is. *)
Theorem wal_torn_append_refused {CR : Crypto} {HM : Hmac} {HL : HmacLaws} {FS : FileSystem}
    {FT : FileState} {FL : FileSystemLaws} {LV : FileSystemLive} (c : mesh_control_wal_config)
    (v v1 : volume) (w wf : mesh_control_wal) (acks : list (Z * entry)) (e : entry)
    (b x t u : bytes) :
  wal_config_valid (Some c) = true → wal_config_typed c → wal_reach c v w acks →
  wl_faulted w = false → file_at v (journal_path c) = Some b → entry_ok w e →
  wl_tail_index w < UINT64_MAX →
  entry_auth w (wl_tail_index w + 1) (wl_tail_authenticator w) e = Some x →
  entry_bytes (wl_tail_index w + 1) (wl_tail_authenticator w) e x = t ++ u → t ≠ [] → u ≠ [] →
  file_at v1 (journal_path c) = Some (b ++ t) → reliable v1 → lockable v1 (journal_lock c) →
  wl_open wf = false →
  ∃ wal v', mesh_control_wal_open_v1 (Some wf) (Some c) v1 = (MESH_CONTROL_WAL_CORRUPT, wal, v').
Proof.
  intros Hv Ht Hr Hf Hb He Hmax Hx Hsplit Htn Hun Hb1 Hl Hk Ho.
  destruct (reach_state c Hv Ht _ _ _ Hr) as (hist & [(b0 & t0 & Hj & Hb0 & Ht0) _] & _).
  rewrite (Ht0 Hf), app_nil_r, Hb in Hb0. injection Hb0 as <-.
  pose proof (jn_tail _ _ _ _ Hj) as Et. pose proof (jn_config _ _ _ _ Hj) as (Ec & _).
  destruct (jn_segment _ _ _ _ Hj) as (hd & body & Hsg). rewrite Et in *.
  eapply open_torn; eauto; [by eapply entry_ok_config|by rewrite <- (entry_auth_config w (opening c) Ec)].
Qed.

(** ** Witnesses *)

#[local] Existing Instance w_crypto.
#[local] Existing Instances mem_fs mem_state mem_laws mem_live.

#[local] Instance w_hmac : Hmac := {| HMAC key m := Some (w_hash (key ++ m)) |}.
#[local] Instance w_hmac_laws : HmacLaws.
Proof. split. intros key m d [= <-]. apply w_hash_size. Qed.

(** A call whose code is known, with the structures it leaves named by projection:
    no structure is written out. *)
Lemma open_code {A B C} (x : A * option B * C) r w0 : x.1.1 = r → non_null x.1.2 = true →
  x = (r, Some (deref w0 x.1.2), x.2).
Proof. destruct x as [[a [w|]] v]; cbn; [|done]. by intros ->. Qed.
Lemma append_code {A B C D} (x : A * option B * C * D) r w0 c : x.1.1.1 = r →
  non_null x.1.1.2 = true → x.1.2 = c → x = (r, Some (deref w0 x.1.1.2), c, x.2).
Proof. destruct x as [[[a [w|]] c'] v]; cbn; [|done]. by intros -> _ ->. Qed.

(** Equal by evaluation. *)
Ltac by_value := match goal with |- ?x = _ => exact_no_check (eq_refl x) end.

(** A journal for the frame of [ControlMmp.w_control_frame]. *)
Definition w_wal_config : mesh_control_wal_config :=
  mk_wal_config (Some [47; 106]) 4 4096 (3 :: zeros 31) (6 :: zeros 31) (w_hash w_secret)
    (4 :: zeros 31) 10 11 12 (5 :: zeros 15) (replicate 32 9).

Definition w_wal_closed : mesh_control_wal := wiped_wal (-1).
Definition w_open (v : mem_volume) : mesh_control_wal_result * option mesh_control_wal * mem_volume :=
  mesh_control_wal_open_v1 (Some w_wal_closed) (Some w_wal_config) v.
Definition w_append (w : option mesh_control_wal) (i : Z) (v : mem_volume) :
    mesh_control_wal_result * option mesh_control_wal * option Z * mem_volume :=
  mesh_control_wal_append_v1 w i 1500 (Some w_control_frame) (len w_control_frame) (Some 0) v.

Definition w_wal1 : mesh_control_wal := deref w_wal_closed (w_open mem_empty).1.2.
Definition w_vol1 : mem_volume := (w_open mem_empty).2.
Definition w_wal2 : mesh_control_wal := deref w_wal_closed (w_append (Some w_wal1) 1 w_vol1).1.1.2.
Definition w_vol2 : mem_volume := (w_append (Some w_wal1) 1 w_vol1).2.
Definition w_intent : entry := mk_entry WAL_RECORD_TYPE_SIGNED_INTENT 1500 w_control_frame.

Lemma w_wal_config_typed : wal_config_typed w_wal_config.
Proof. split; split_and!; evaluate. Qed.
Lemma w_wal_config_valid : wal_config_valid (Some w_wal_config) = true.
Proof. by_value. Qed.

Lemma w_open1 : w_open mem_empty = (MESH_CONTROL_WAL_OK, Some w_wal1, w_vol1).
Proof. exact (open_code (w_open mem_empty) MESH_CONTROL_WAL_OK w_wal_closed eq_refl eq_refl). Qed.
Lemma w_reach1 : wal_reach w_wal_config w_vol1 w_wal1 [].
Proof.
  exact (@reach_create w_crypto w_hmac mem_fs mem_state mem_live w_wal_config mem_empty w_wal_closed
    w_wal1 w_vol1 eq_refl eq_refl w_open1).
Qed.

Lemma w_append1 : w_append (Some w_wal1) 1 w_vol1 = (MESH_CONTROL_WAL_OK, Some w_wal2, Some 1, w_vol2).
Proof.
  exact (append_code (w_append (Some w_wal1) 1 w_vol1) MESH_CONTROL_WAL_OK w_wal_closed (Some 1) eq_refl
    eq_refl eq_refl).
Qed.
Lemma w_reach2 : wal_reach w_wal_config w_vol2 w_wal2 [(1, w_intent)].
Proof.
  exact (@reach_append w_crypto w_hmac mem_fs mem_state mem_live w_wal_config w_vol1 w_wal1 [] 1 1500
    w_control_frame 0 MESH_CONTROL_WAL_OK w_wal2 (Some 1) w_vol2 w_reach1 ltac:(evaluate) ltac:(evaluate)
    w_append1).
Qed.

Lemma mem_reliable v : (0 <=? fs_next v) && negb (fs_blind v) = true → reliable v.
Proof. intros H. bool_prop. split; [lia|done]. Qed.



(** The disk is full after a hundred bytes of the record. *)
Definition w_torn : mem_volume :=
  let '(_, wal, _, v) := w_append (Some w_wal1) 1 (with_faults 100 [] false w_vol1) in
  (mesh_control_wal_close_v1 wal v).2.
Definition w_header : bytes := deref [] (file_at w_vol1 (journal_path w_wal_config)).
Definition w_auth : bytes := deref [] (entry_auth w_wal1 1 (wl_tail_authenticator w_wal1) w_intent).
Definition w_record : bytes := entry_bytes 1 (wl_tail_authenticator w_wal1) w_intent w_auth.

Lemma w_intent_ok : entry_ok w_wal1 w_intent.
Proof. split; [by left|evaluate|evaluate|split; evaluate|by_value]. Qed.

Lemma some_deref {A} (d : A) p : non_null p = true → p = Some (deref d p).
Proof. by destruct p. Qed.

Lemma wal_torn_append_refused_witness : ∃ wal v',
  w_open w_torn = (MESH_CONTROL_WAL_CORRUPT, wal, v').
Proof.
  assert (Hl : reliable w_torn) by (apply mem_reliable; by_value).
  assert (Hk : lockable w_torn (journal_lock w_wal_config)).
  { apply (bool_decide_unpack _). vm_compute. exact I. }
  assert (Ht : wl_tail_index w_wal1 = 0) by by_value.
  refine (@wal_torn_append_refused w_crypto w_hmac w_hmac_laws mem_fs mem_state mem_laws mem_live
    w_wal_config w_vol1 w_torn w_wal1 w_wal_closed [] w_intent w_header w_auth (take 100 w_record)
    (drop 100 w_record) w_wal_config_valid w_wal_config_typed w_reach1 _ _ w_intent_ok _ _ _ _ _ _ Hl Hk eq_refl).
  - by_value.
  - apply some_deref. by_value.
  - by rewrite Ht.
  - rewrite Ht. apply some_deref. by_value.
  - rewrite Ht. symmetry. apply take_drop.
  - intros E. apply (f_equal length) in E. vm_compute in E. discriminate.
  - intros E. apply (f_equal length) in E. vm_compute in E. discriminate.
  - by_value.
Defined.

(** ** What the journal does not guarantee *)

Definition w_unsynced0 : mem_volume := (w_open (with_faults 4096 [true; false] false mem_empty)).2.
Definition w_unsynced1 : mem_volume := (w_append (Some w_wal1) 1 w_unsynced0).2.
Definition w_faulted_wal : mesh_control_wal :=
  deref w_wal_closed (w_append (Some w_wal1) 1 w_unsynced0).1.1.2.
Definition w_unsynced2 : mem_volume := (mesh_control_wal_close_v1 (Some w_faulted_wal) w_unsynced1).2.
Definition w_unsynced_wal : mesh_control_wal := deref w_wal_closed (w_open w_unsynced2).1.2.
Definition w_unsynced3 : mem_volume := (w_open w_unsynced2).2.
Definition w_lost_wal : mesh_control_wal := deref w_wal_closed (w_open (mem_crash w_unsynced3)).1.2.
Definition w_lost : mem_volume := (w_open (mem_crash w_unsynced3)).2.


Definition w_closed2 : mem_volume := (mesh_control_wal_close_v1 (Some w_wal2) w_vol2).2.
Definition w_blind : mem_volume := with_faults 4096 [] true w_closed2.
Definition w_emptied_wal : mesh_control_wal := deref w_wal_closed (w_open w_blind).1.2.
Definition w_emptied : mem_volume := (w_open w_blind).2.

(** Opening a journal whose [lstat] fails destroys it.  The open takes every
    failure for absence and truncates the file: it returns OK with an empty
    journal although the file held an acknowledged record. *)
Theorem wal_open_truncates_on_stat_error :
  file_at w_blind (journal_path w_wal_config) = Some (w_header ++ w_record) ∧
  w_open w_blind = (MESH_CONTROL_WAL_OK, Some w_emptied_wal, w_emptied) ∧
  wl_tail_index w_emptied_wal = 0 ∧
  file_at w_emptied (journal_path w_wal_config) = Some w_header.
Proof.
  split; [by_value|].
  split; [exact (open_code (w_open w_blind) MESH_CONTROL_WAL_OK w_wal_closed eq_refl eq_refl)|].
  split; by_value.
Qed.
