(* ===== verification/ControlCheckpoint.v ===== *)
(** * Checkpoints of an owner: [mesh/src/mesh_control_checkpoint.c]

    A checkpoint is one byte string: a 256-byte header that binds it to the
    owner, the resources with their documents, the operations, the events and the
    replay cache, all under one SHA-256 digest.  This file translates the codec
    and shows that every section reads back what was written. *)

From S2P Require Import Prelude Wire MgmtCrypto MgmtCodec MgmtEnvelope Replay.
From S2P Require Import ControlPrimitives ControlState ControlStateInv ControlSnapshot.
From S2P Require Import ControlChannel ControlOwner.

Definition MESH_CONTROL_CHECKPOINT_VERSION_V1 : Z := 1.
Definition MESH_CONTROL_CHECKPOINT_VERSION_V2 : Z := 2.
Definition MESH_CONTROL_CHECKPOINT_MAX_SIZE_V1 : Z := 69107968.
Definition CHECKPOINT_HEADER_SIZE : Z := 256.
Definition CHECKPOINT_DIGEST_OFFSET : nat := 224.
Definition CHECKPOINT_DIGEST_SIZE : nat := 32.
Definition CHECKPOINT_RESOURCE_HEADER_SIZE : Z := 128.
Definition CHECKPOINT_OPERATION_SIZE : Z := 152.
Definition CHECKPOINT_EVENT_SIZE : Z := 80.
Definition CHECKPOINT_REPLAY_ENTRY_SIZE : Z := 24.
Definition CHECKPOINT_FLAG_REPLAY_HAS_SEQUENCE : Z := Z.shiftl 1 0.
Definition CHECKPOINT_FLAG_REPLAY_BOUND : Z := Z.shiftl 1 1.
Definition CHECKPOINT_KNOWN_FLAGS : Z :=
  Z.lor CHECKPOINT_FLAG_REPLAY_HAS_SEQUENCE CHECKPOINT_FLAG_REPLAY_BOUND.

(** "TMCTRL01" *)
Definition checkpoint_magic : bytes := [84; 77; 67; 84; 82; 76; 48; 49].

(** [sizeof] of the four array elements on a 64-bit target. *)
Definition SIZEOF_RESOURCE_RECORD : Z := 144.
Definition SIZEOF_OPERATION_RECORD : Z := 160.
Definition SIZEOF_EVENT : Z := 80.
Definition SIZEOF_REPLAY_ENTRY : Z := 32.

Inductive mesh_control_checkpoint_result : Type :=
  | MESH_CONTROL_CHECKPOINT_OK
  | MESH_CONTROL_CHECKPOINT_INVALID_ARG
  | MESH_CONTROL_CHECKPOINT_INVALID_STATE
  | MESH_CONTROL_CHECKPOINT_RESOURCE_EXHAUSTED
  | MESH_CONTROL_CHECKPOINT_CORRUPT
  | MESH_CONTROL_CHECKPOINT_BINDING_MISMATCH.

#[export] Instance mesh_control_checkpoint_result_eq_dec : EqDecision mesh_control_checkpoint_result.
Proof. solve_decision. Defined.

Record checkpoint_capture : Type := mk_capture {
  cp_resources : option (list mesh_control_state_resource_record);
  cp_operations : option (list mesh_control_state_operation_record);
  cp_events : option (list mesh_control_event);
  cp_replay_entries : option (list mesh_mgmt_replay_entry);
  cp_state_info : mesh_control_state_checkpoint_info;
  cp_replay_snapshot : mesh_mgmt_replay_snapshot }.

(** The answers of the allocator to one call: the four arrays, the output
    buffer, and the state, the replay cache and the documents a restore builds. *)
Record allocations : Type := mk_allocations {
  al_resources : bool;
  al_operations : bool;
  al_events : bool;
  al_replay : bool;
  al_bytes : bool;
  al_state : bool;
  al_gate : bool;
  al_documents : bool }.
Definition memory_available : allocations := mk_allocations true true true true true true true true.

(** ** SHA-256 of OpenSSL *)

(** The digest of the concatenated updates; nothing when a call fails. *)
Class Sha256 : Type := { SHA256 : bytes → option bytes }.
(** Documented behaviour: the digest has 32 bytes. *)
Class Sha256Laws `{Sha256} : Prop := { sha256_size m d : SHA256 m = Some d → bytes_ok 32 d }.

(** ** Sizes *)

Definition checked_add_size (left_ right_ : Z) : option Z :=
  if SIZE_MAX - right_ <? left_ then None else Some (left_ + right_).

Definition checked_multiply_size (left_ right_ : Z) : option Z :=
  if negb (left_ =? 0) && (SIZE_MAX / left_ <? right_) then None else Some (left_ * right_).

Definition allocate_array {A} (alloc_ok : bool) (count element_size : Z) (zero : A) :
    option (option (list A)) :=
  match checked_multiply_size count element_size with
  | None => None
  | Some _ =>
      if count =? 0 then Some None
      else if alloc_ok then Some (Some (replicate (Z.to_nat count) zero)) else None
  end.

Definition zero_resource_record : mesh_control_state_resource_record :=
  mk_resource_record zero_resource_status None 0.
Definition zero_operation_record : mesh_control_state_operation_record :=
  mk_operation_record zero_operation 0.
Definition zero_usage : mesh_control_state_usage := mk_state_usage 0 0 0 0 0.

Definition capture_owner (al : allocations) (owner : option mesh_control_owner) :
    mesh_control_checkpoint_result * option checkpoint_capture :=
  match owner with
  | None => (MESH_CONTROL_CHECKPOINT_INVALID_ARG, None)
  | Some o =>
      if (ow_initialized o =? 0) || negb (ow_preparation_active o =? 0)
      then (MESH_CONTROL_CHECKPOINT_INVALID_ARG, None)
      else
        match mesh_control_state_get_usage_v1 (Some (ow_state o)) (Some zero_usage) with
        | (MESH_CONTROL_OK, Some usage) =>
            match allocate_array (al_resources al) (su_resource_count usage) SIZEOF_RESOURCE_RECORD
                    zero_resource_record,
                  allocate_array (al_operations al) (su_operation_count usage)
                    SIZEOF_OPERATION_RECORD zero_operation_record,
                  allocate_array (al_events al) (su_event_count usage) SIZEOF_EVENT zero_event with
            | Some resources, Some operations, Some events =>
                match mesh_control_state_export_v1 (Some (ow_state o)) resources
                        (su_resource_count usage) operations (su_operation_count usage) events
                        (su_event_count usage) (Some zero_checkpoint_info) with
                | (MESH_CONTROL_OK, resources, operations, events, Some info) =>
                    match mesh_mgmt_replay_export_v1 (Some (ow_replay o)) None 0
                            (Some zero_replay_snapshot) with
                    | (MESH_MGMT_REPLAY_OK, _, Some snapshot)
                    | (MESH_MGMT_REPLAY_RESOURCE_EXHAUSTED, _, Some snapshot) =>
                        match allocate_array (al_replay al) (rs_entry_count snapshot)
                                SIZEOF_REPLAY_ENTRY zero_replay_entry with
                        | None => (MESH_CONTROL_CHECKPOINT_RESOURCE_EXHAUSTED, None)
                        | Some entries =>
                            match mesh_mgmt_replay_export_v1 (Some (ow_replay o)) entries
                                    (rs_entry_count snapshot) (Some snapshot) with
                            | (MESH_MGMT_REPLAY_OK, entries, Some snapshot) =>
                                (MESH_CONTROL_CHECKPOINT_OK,
                                 Some (mk_capture resources operations events entries info snapshot))
                            | _ => (MESH_CONTROL_CHECKPOINT_INVALID_STATE, None)
                            end
                        end
                    | _ => (MESH_CONTROL_CHECKPOINT_INVALID_STATE, None)
                    end
                | _ => (MESH_CONTROL_CHECKPOINT_INVALID_STATE, None)
                end
            | _, _, _ => (MESH_CONTROL_CHECKPOINT_RESOURCE_EXHAUSTED, None)
            end
        | _ => (MESH_CONTROL_CHECKPOINT_INVALID_ARG, None)
        end
  end.

(** The loop over the captured resources. *)
Fixpoint resources_size (resources : list mesh_control_state_resource_record) (resource_size : Z) :
    option Z :=
  match resources with
  | [] => Some resource_size
  | r :: rest =>
      if UINT32_MAX <? rr_document_size r then None
      else
        match checked_add_size CHECKPOINT_RESOURCE_HEADER_SIZE (rr_document_size r) with
        | None => None
        | Some section_size =>
            match checked_add_size resource_size section_size with
            | None => None
            | Some resource_size => resources_size rest resource_size
            end
        end
  end.

Definition calculate_encoded_total (operation_count event_count replay_count
    resource_section_size : Z) : option Z :=
  total ← checked_add_size CHECKPOINT_HEADER_SIZE resource_section_size;
  section ← checked_multiply_size operation_count CHECKPOINT_OPERATION_SIZE;
  total ← checked_add_size total section;
  section ← checked_multiply_size event_count CHECKPOINT_EVENT_SIZE;
  total ← checked_add_size total section;
  section ← checked_multiply_size replay_count CHECKPOINT_REPLAY_ENTRY_SIZE;
  checked_add_size total section.

(** The size of the resource section and the total size. *)
Definition calculate_sizes (capture : checkpoint_capture) : option (Z * Z) :=
  let info := cp_state_info capture in
  resource_size ← resources_size
    (take (Z.to_nat (ck_resource_count info)) (deref [] (cp_resources capture))) 0;
  total ← checked_add_size CHECKPOINT_HEADER_SIZE resource_size;
  section ← checked_multiply_size (ck_operation_count info) CHECKPOINT_OPERATION_SIZE;
  total ← checked_add_size total section;
  section ← checked_multiply_size (ck_event_count info) CHECKPOINT_EVENT_SIZE;
  total ← checked_add_size total section;
  section ← checked_multiply_size (rs_entry_count (cp_replay_snapshot capture))
    CHECKPOINT_REPLAY_ENTRY_SIZE;
  total ← checked_add_size total section;
  Some (resource_size, total).

(** ** Encoding *)

Definition encode_resource (record : mesh_control_state_resource_record) : bytes :=
  let status := rr_status record in
  mesh_mgmt_wire_write_u16 (rst_resource_kind status) ++
  mesh_mgmt_wire_write_u16 (rst_desired_presence status) ++
  mesh_mgmt_wire_write_u16 (rst_observed_presence status) ++ zeros 2 ++
  mesh_mgmt_wire_write_u32 (wrap 32 (rr_document_size record)) ++ zeros 4 ++
  mesh_mgmt_wire_write_u64 (rst_desired_epoch status) ++
  mesh_mgmt_wire_write_u64 (rst_observed_epoch status) ++
  rst_resource_id status ++ rst_desired_digest status ++ rst_observed_digest status ++
  (if rr_document_size record =? 0 then []
   else take (Z.to_nat (rr_document_size record)) (deref [] (rr_document record))).

Definition encode_operation (record : mesh_control_state_operation_record) : bytes :=
  let operation := or_operation record in
  co_operation_id operation ++ co_request_id operation ++ co_message_id operation ++
  mesh_mgmt_wire_write_u16 (co_resource_kind operation) ++
  mesh_mgmt_wire_write_u16 (co_action operation) ++
  mesh_mgmt_wire_write_u16 (co_state operation) ++ zeros 2 ++
  co_resource_id operation ++ co_desired_digest operation ++
  mesh_mgmt_wire_write_u64 (co_desired_epoch operation) ++
  mesh_mgmt_wire_write_u64 (co_created_at_ms operation) ++
  mesh_mgmt_wire_write_u64 (co_updated_at_ms operation) ++
  mesh_mgmt_wire_write_u64 (or_terminal_expires_at_ms record).

Definition encode_event (event : mesh_control_event) : bytes :=
  mesh_mgmt_wire_write_u64 (ev_cursor event) ++ ev_operation_id event ++
  mesh_mgmt_wire_write_u16 (ev_resource_kind event) ++
  mesh_mgmt_wire_write_u16 (ev_operation_state event) ++ zeros 4 ++
  ev_resource_id event ++ mesh_mgmt_wire_write_u64 (ev_desired_epoch event) ++
  mesh_mgmt_wire_write_u64 (ev_recorded_at_ms event).

Definition encode_replay_entry (entry : mesh_mgmt_replay_entry) : bytes :=
  rx_message_id entry ++ mesh_mgmt_wire_write_u64 (rx_expires_at_ms entry).

(** The header before the digest is known. *)
Definition checkpoint_header (o : mesh_control_owner) (capture : checkpoint_capture)
    (resource_section_size total_size : Z) : bytes :=
  let info := cp_state_info capture in
  let snapshot := cp_replay_snapshot capture in
  let flags := if negb (rs_has_sequence snapshot =? 0)
               then Z.lor 0 CHECKPOINT_FLAG_REPLAY_HAS_SEQUENCE else 0 in
  let flags := if negb (rs_bound snapshot =? 0)
               then Z.lor flags CHECKPOINT_FLAG_REPLAY_BOUND else flags in
  checkpoint_magic ++
  mesh_mgmt_wire_write_u32 MESH_CONTROL_CHECKPOINT_VERSION_V2 ++
  mesh_mgmt_wire_write_u32 CHECKPOINT_HEADER_SIZE ++
  mesh_mgmt_wire_write_u64 total_size ++
  mesh_mgmt_wire_write_u32 (wrap 32 (ck_resource_count info)) ++
  mesh_mgmt_wire_write_u32 (wrap 32 (ck_operation_count info)) ++
  mesh_mgmt_wire_write_u32 (wrap 32 (ck_event_count info)) ++
  mesh_mgmt_wire_write_u32 (wrap 32 (rs_entry_count snapshot)) ++
  mesh_mgmt_wire_write_u64 (ck_snapshot_generation info) ++
  mesh_mgmt_wire_write_u64 (ck_next_event_cursor info) ++
  mesh_mgmt_wire_write_u64 (rs_last_sequence snapshot) ++
  mesh_mgmt_wire_write_u64 (rs_generation snapshot) ++
  mesh_mgmt_wire_write_u32 flags ++ zeros 4 ++
  oc_mesh_id (ow_config o) ++ oc_node_id (ow_config o) ++
  rb_principal_key (rs_binding snapshot) ++
  mesh_mgmt_wire_write_u64 (rb_principal_epoch (rs_binding snapshot)) ++
  mesh_mgmt_wire_write_u64 (rb_incarnation (rs_binding snapshot)) ++
  rb_session_id (rs_binding snapshot) ++
  mesh_mgmt_wire_write_u64 resource_section_size ++
  mesh_mgmt_wire_write_u64 (ow_committed_log_index o) ++ zeros 32.

(** The four loops that write the sections. *)
Definition encode_sections (capture : checkpoint_capture) : bytes :=
  let info := cp_state_info capture in
  concat (encode_resource <$>
    take (Z.to_nat (ck_resource_count info)) (deref [] (cp_resources capture))) ++
  concat (encode_operation <$>
    take (Z.to_nat (ck_operation_count info)) (deref [] (cp_operations capture))) ++
  concat (encode_event <$>
    take (Z.to_nat (ck_event_count info)) (deref [] (cp_events capture))) ++
  concat (encode_replay_entry <$>
    take (Z.to_nat (rs_entry_count (cp_replay_snapshot capture)))
      (deref [] (cp_replay_entries capture))).

Section Checkpoint.
Context {SH : Sha256} {R : Ring}.

Definition checkpoint_digest (b : bytes) (size : Z) : option bytes :=
  if size <? CHECKPOINT_HEADER_SIZE then None
  else
    match SHA256 (take CHECKPOINT_DIGEST_OFFSET b ++ zeros CHECKPOINT_DIGEST_SIZE ++
                  sub b (Z.to_nat CHECKPOINT_HEADER_SIZE)
                    (Z.to_nat (size - CHECKPOINT_HEADER_SIZE))) with
    | Some output => if len output =? 32 then Some output else None
    | None => None
    end.

Definition mesh_control_checkpoint_encode_v1 (al : allocations) (owner : option mesh_control_owner)
    (out_bytes : option (option bytes)) (out_size : option Z) :
    mesh_control_checkpoint_result * option (option bytes) * option Z :=
  if negb (non_null out_bytes) || negb (non_null out_size)
  then (MESH_CONTROL_CHECKPOINT_INVALID_ARG, out_bytes, out_size)
  else
    let out_bytes := assign out_bytes None in
    let out_size := assign out_size 0 in
    match capture_owner al owner, owner with
    | (MESH_CONTROL_CHECKPOINT_OK, Some capture), Some o =>
        let info := cp_state_info capture in
        if (UINT32_MAX <? ck_resource_count info) || (UINT32_MAX <? ck_operation_count info) ||
           (UINT32_MAX <? ck_event_count info) ||
           (UINT32_MAX <? rs_entry_count (cp_replay_snapshot capture))
        then (MESH_CONTROL_CHECKPOINT_RESOURCE_EXHAUSTED, out_bytes, out_size)
        else
          match calculate_sizes capture with
          | None => (MESH_CONTROL_CHECKPOINT_RESOURCE_EXHAUSTED, out_bytes, out_size)
          | Some (resource_section_size, total_size) =>
              if (MESH_CONTROL_CHECKPOINT_MAX_SIZE_V1 <? total_size) || negb (al_bytes al)
              then (MESH_CONTROL_CHECKPOINT_RESOURCE_EXHAUSTED, out_bytes, out_size)
              else
                let b := checkpoint_header o capture resource_section_size total_size ++
                         encode_sections capture in
                if negb (len b =? total_size)
                then (MESH_CONTROL_CHECKPOINT_INVALID_STATE, out_bytes, out_size)
                else
                  match checkpoint_digest b total_size with
                  | None => (MESH_CONTROL_CHECKPOINT_INVALID_STATE, out_bytes, out_size)
                  | Some digest =>
                      (MESH_CONTROL_CHECKPOINT_OK,
                       assign out_bytes (Some (blit b CHECKPOINT_DIGEST_OFFSET digest)),
                       assign out_size total_size)
                  end
          end
    | (result, _), _ => (result, out_bytes, out_size)
    end.

(** ** Decoding *)

(** A cursor and its end are the bytes between them: a decoder returns the
    record and the bytes after it. *)
Definition decode_resource (b : bytes) : option (mesh_control_state_resource_record * bytes) :=
  if (len b <? CHECKPOINT_RESOURCE_HEADER_SIZE) || negb (at_ b 6 =? 0) || negb (at_ b 7 =? 0) ||
     negb (or_bytes (sub b 12 4) =? 0)
  then None
  else
    let document_size := mesh_mgmt_wire_read_u32 (sub b 8 4) in
    if len b - CHECKPOINT_RESOURCE_HEADER_SIZE <? document_size then None
    else
      Some (mk_resource_record
              (mk_resource_status (mesh_mgmt_wire_read_u16 (sub b 0 2)) (sub b 32 32)
                 (mesh_mgmt_wire_read_u64 (sub b 16 8)) (mesh_mgmt_wire_read_u64 (sub b 24 8))
                 (mesh_mgmt_wire_read_u16 (sub b 2 2)) (mesh_mgmt_wire_read_u16 (sub b 4 2))
                 (sub b 64 32) (sub b 96 32))
              (if document_size =? 0 then None else Some (sub b 128 (Z.to_nat document_size)))
              document_size,
            drop (128 + Z.to_nat document_size) b).

Definition decode_operation (b : bytes) : option (mesh_control_state_operation_record * bytes) :=
  if (len b <? CHECKPOINT_OPERATION_SIZE) || negb (at_ b 54 =? 0) || negb (at_ b 55 =? 0)
  then None
  else
    Some (mk_operation_record
            (mk_operation (sub b 0 16) (sub b 16 16) (sub b 32 16)
               (mesh_mgmt_wire_read_u16 (sub b 48 2)) (mesh_mgmt_wire_read_u16 (sub b 50 2))
               (sub b 56 32) (sub b 88 32) (mesh_mgmt_wire_read_u64 (sub b 120 8))
               (mesh_mgmt_wire_read_u64 (sub b 128 8)) (mesh_mgmt_wire_read_u64 (sub b 136 8))
               (mesh_mgmt_wire_read_u16 (sub b 52 2)))
            (mesh_mgmt_wire_read_u64 (sub b 144 8)),
          drop 152 b).

Definition decode_event (b : bytes) : option (mesh_control_event * bytes) :=
  if (len b <? CHECKPOINT_EVENT_SIZE) || negb (or_bytes (sub b 28 4) =? 0) then None
  else
    Some (mk_event (mesh_mgmt_wire_read_u64 (sub b 0 8)) (sub b 8 16)
            (mesh_mgmt_wire_read_u16 (sub b 24 2)) (mesh_mgmt_wire_read_u16 (sub b 26 2))
            (sub b 32 32) (mesh_mgmt_wire_read_u64 (sub b 64 8))
            (mesh_mgmt_wire_read_u64 (sub b 72 8)),
          drop 80 b).

Definition decode_replay_entry (b : bytes) : option (mesh_mgmt_replay_entry * bytes) :=
  if len b <? CHECKPOINT_REPLAY_ENTRY_SIZE then None
  else Some (mk_replay_entry (sub b 0 16) (mesh_mgmt_wire_read_u64 (sub b 16 8)) 1, drop 24 b).

(** The loop that decodes [count] records. *)
Fixpoint decode_records {A} (decode : bytes → option (A * bytes)) (count : nat) (b : bytes) :
    option (list A * bytes) :=
  match count with
  | O => Some ([], b)
  | S count' =>
      '(x, b) ← decode b;
      '(xs, b) ← decode_records decode count' b;
      Some (x :: xs, b)
  end.

(** Resources, operations and events of a checkpoint, and what follows them. *)
Definition decode_sections (b : bytes) (resource_size resource_count operation_count event_count : Z) :
    option (list mesh_control_state_resource_record * list mesh_control_state_operation_record *
            list mesh_control_event * bytes) :=
  let body := drop (Z.to_nat CHECKPOINT_HEADER_SIZE) b in
  '(resources, rest) ← decode_records decode_resource (Z.to_nat resource_count)
                         (take (Z.to_nat resource_size) body);
  if negb (bool_decide (rest = [])) then None
  else
    '(operations, rest) ← decode_records decode_operation (Z.to_nat operation_count)
                            (drop (Z.to_nat resource_size) body);
    '(events, rest) ← decode_records decode_event (Z.to_nat event_count) rest;
    Some (resources, operations, events, rest).

(** [digest == bytes + CHECKPOINT_DIGEST_OFFSET] for the digest of the bytes. *)
Definition digest_matches (b : bytes) (size : Z) : bool :=
  match checkpoint_digest b size with
  | Some digest => memeq 32 digest (drop CHECKPOINT_DIGEST_OFFSET b)
  | None => false
  end.

Definition mesh_control_checkpoint_committed_log_index_v1 (input : option bytes) (size : Z)
    (out_index : option Z) : mesh_control_checkpoint_result * option Z :=
  let out_index := assign out_index 0 in
  match input with
  | None => (MESH_CONTROL_CHECKPOINT_INVALID_ARG, out_index)
  | Some b =>
      if negb (non_null out_index) || (size <? CHECKPOINT_HEADER_SIZE) ||
         (MESH_CONTROL_CHECKPOINT_MAX_SIZE_V1 <? size)
      then (MESH_CONTROL_CHECKPOINT_INVALID_ARG, out_index)
      else if negb (memeq 8 b checkpoint_magic) ||
              negb (mesh_mgmt_wire_read_u32 (sub b 8 4) =? MESH_CONTROL_CHECKPOINT_VERSION_V2) ||
              negb (mesh_mgmt_wire_read_u32 (sub b 12 4) =? CHECKPOINT_HEADER_SIZE) ||
              negb (or_bytes (sub b 76 4) =? 0)
      then (MESH_CONTROL_CHECKPOINT_CORRUPT, out_index)
      else
        let encoded_size := mesh_mgmt_wire_read_u64 (sub b 16 8) in
        let encoded_resource_size := mesh_mgmt_wire_read_u64 (sub b 208 8) in
        if negb (encoded_size =? size) || (SIZE_MAX <? encoded_resource_size)
        then (MESH_CONTROL_CHECKPOINT_CORRUPT, out_index)
        else
          let resource_count := mesh_mgmt_wire_read_u32 (sub b 24 4) in
          let operation_count := mesh_mgmt_wire_read_u32 (sub b 28 4) in
          let event_count := mesh_mgmt_wire_read_u32 (sub b 32 4) in
          let replay_count := mesh_mgmt_wire_read_u32 (sub b 36 4) in
          let flags := mesh_mgmt_wire_read_u32 (sub b 72 4) in
          if negb (Z.land flags (Z.lxor CHECKPOINT_KNOWN_FLAGS UINT32_MAX) =? 0) ||
             negb (bool_decide (calculate_encoded_total operation_count event_count replay_count
                                  encoded_resource_size = Some size)) ||
             negb (digest_matches b size)
          then (MESH_CONTROL_CHECKPOINT_CORRUPT, out_index)
          else
            match decode_sections (take (Z.to_nat size) b) encoded_resource_size resource_count
                    operation_count event_count with
            | None => (MESH_CONTROL_CHECKPOINT_CORRUPT, out_index)
            | Some (_, _, _, rest) =>
                if negb (len rest =? wrap 64 (replay_count * CHECKPOINT_REPLAY_ENTRY_SIZE))
                then (MESH_CONTROL_CHECKPOINT_CORRUPT, out_index)
                else (MESH_CONTROL_CHECKPOINT_OK,
                      assign out_index (mesh_mgmt_wire_read_u64 (sub b 216 8)))
            end
  end.

(** ** Restoring *)

Definition zero_channel_stats : mesh_control_channel_stats :=
  mk_channel_stats 0 0 0 0 0 false 0 0 0 0 0.

Definition owner_unused (o : mesh_control_owner) (inbound : option mesh_control_channel) : bool :=
  if ow_initialized o =? 0 then false
  else
    match mesh_control_state_get_usage_v1 (Some (ow_state o)) (Some zero_usage),
          mesh_control_channel_get_stats_v1 inbound (Some zero_channel_stats) with
    | (MESH_CONTROL_OK, Some usage), (MESH_CONTROL_OK, Some channel_stats) =>
        if negb (su_resource_count usage =? 0) || negb (su_operation_count usage =? 0) ||
           negb (su_event_count usage =? 0) || negb (chs_pending channel_stats =? 0) ||
           negb (ow_committed_log_index o =? 0) || negb (ow_preparation_active o =? 0) ||
           negb (ows_processed (ow_stats o) =? 0) ||
           negb (ows_rejected_binding (ow_stats o) =? 0) ||
           negb (ows_rejected_replay (ow_stats o) =? 0) ||
           negb (ows_rejected_schema (ow_stats o) =? 0) ||
           negb (ows_rejected_state (ow_stats o) =? 0)
        then false
        else
          match mesh_mgmt_replay_export_v1 (Some (ow_replay o)) None 0 (Some zero_replay_snapshot) with
          | (MESH_MGMT_REPLAY_OK, _, Some replay_snapshot) =>
              (rs_entry_count replay_snapshot =? 0) && (rs_has_sequence replay_snapshot =? 0)
          | _ => false
          end
    | _, _ => false
    end.

Definition initialize_restore_targets (al : allocations) (o : mesh_control_owner) :
    option (mesh_control_state * mesh_mgmt_replay_gate) :=
  match mesh_control_state_init_v1 (al_state al) (Some (mk_control_state None))
          (Some (oc_state (ow_config o))) with
  | (MESH_CONTROL_OK, Some state) =>
      match mesh_mgmt_replay_init_v1 (al_gate al) (Some zero_gate) (Some (oc_replay (ow_config o))) with
      | (MESH_MGMT_REPLAY_OK, gate) =>
          match mesh_mgmt_replay_bind_v1 gate (Some (oc_replay_binding (ow_config o))) with
          | (MESH_MGMT_REPLAY_OK, Some replay) => Some (state, replay)
          | _ => None
          end
      | _ => None
      end
  | _ => None
  end.

(** The checks between the header and the allocation: [None] when all pass. *)
Definition restore_refused (o : mesh_control_owner) (b : bytes) (size : Z) :
    option mesh_control_checkpoint_result :=
  let c := ow_config o in
  let format_version := mesh_mgmt_wire_read_u32 (sub b 8 4) in
  if negb (memeq 8 b checkpoint_magic) ||
     (negb (format_version =? MESH_CONTROL_CHECKPOINT_VERSION_V1) &&
      negb (format_version =? MESH_CONTROL_CHECKPOINT_VERSION_V2)) ||
     negb (mesh_mgmt_wire_read_u32 (sub b 12 4) =? CHECKPOINT_HEADER_SIZE) ||
     negb (or_bytes (sub b 76 4) =? 0) ||
     ((format_version =? MESH_CONTROL_CHECKPOINT_VERSION_V1) && negb (or_bytes (sub b 216 8) =? 0))
  then Some MESH_CONTROL_CHECKPOINT_CORRUPT
  else
    let encoded_size := mesh_mgmt_wire_read_u64 (sub b 16 8) in
    let encoded_resource_size := mesh_mgmt_wire_read_u64 (sub b 208 8) in
    if negb (encoded_size =? size) || (SIZE_MAX <? encoded_resource_size)
    then Some MESH_CONTROL_CHECKPOINT_CORRUPT
    else
      let resource_count := mesh_mgmt_wire_read_u32 (sub b 24 4) in
      let operation_count := mesh_mgmt_wire_read_u32 (sub b 28 4) in
      let event_count := mesh_mgmt_wire_read_u32 (sub b 32 4) in
      let replay_count := mesh_mgmt_wire_read_u32 (sub b 36 4) in
      let flags := mesh_mgmt_wire_read_u32 (sub b 72 4) in
      match resource_headers_size ← checked_multiply_size resource_count
                                      CHECKPOINT_RESOURCE_HEADER_SIZE;
            checked_add_size resource_headers_size
              (sc_desired_document_retained_bytes (oc_state c)) with
      | None => Some MESH_CONTROL_CHECKPOINT_CORRUPT
      | Some maximum_resource_size =>
          if negb (Z.land flags (Z.lxor CHECKPOINT_KNOWN_FLAGS UINT32_MAX) =? 0) ||
             (sc_resource_capacity (oc_state c) <? resource_count) ||
             (sc_operation_capacity (oc_state c) <? operation_count) ||
             (sc_event_capacity (oc_state c) <? event_count) ||
             (rc_capacity (oc_replay c) <? replay_count) ||
             (maximum_resource_size <? encoded_resource_size) ||
             negb (bool_decide (calculate_encoded_total operation_count event_count replay_count
                                  encoded_resource_size = Some size)) ||
             negb (digest_matches b size)
          then Some MESH_CONTROL_CHECKPOINT_CORRUPT
          else if negb (memeq 32 (drop 80 b) (oc_mesh_id c)) ||
                  negb (memeq 32 (drop 112 b) (oc_node_id c)) ||
                  negb (memeq 32 (drop 144 b) (rb_principal_key (oc_replay_binding c))) ||
                  negb (mesh_mgmt_wire_read_u64 (sub b 176 8) =?
                        rb_principal_epoch (oc_replay_binding c)) ||
                  negb (mesh_mgmt_wire_read_u64 (sub b 184 8) =?
                        rb_incarnation (oc_replay_binding c)) ||
                  negb (memeq 16 (drop 192 b) (rb_session_id (oc_replay_binding c)))
          then Some MESH_CONTROL_CHECKPOINT_BINDING_MISMATCH
          else None
      end.

(** A decoded array, in the storage allocated for it. *)
Definition stored {A} (buffer : option (list A)) (decoded : list A) : option (list A) :=
  (λ _, decoded) <$> buffer.

(** All four sections, which end with the bytes. *)
Definition decode_checkpoint (b : bytes) :
    option (list mesh_control_state_resource_record * list mesh_control_state_operation_record *
            list mesh_control_event * list mesh_mgmt_replay_entry) :=
  '(resources, operations, events, rest) ←
    decode_sections b (mesh_mgmt_wire_read_u64 (sub b 208 8)) (mesh_mgmt_wire_read_u32 (sub b 24 4))
      (mesh_mgmt_wire_read_u32 (sub b 28 4)) (mesh_mgmt_wire_read_u32 (sub b 32 4));
  '(entries, rest) ← decode_records decode_replay_entry
                       (Z.to_nat (mesh_mgmt_wire_read_u32 (sub b 36 4))) rest;
  if negb (bool_decide (rest = [])) then None else Some (resources, operations, events, entries).

Definition decoded_info (b : bytes) : mesh_control_state_checkpoint_info :=
  mk_checkpoint_info (mesh_mgmt_wire_read_u64 (sub b 40 8)) (mesh_mgmt_wire_read_u64 (sub b 48 8))
    (mesh_mgmt_wire_read_u32 (sub b 24 4)) (mesh_mgmt_wire_read_u32 (sub b 28 4))
    (mesh_mgmt_wire_read_u32 (sub b 32 4)).

Definition decoded_snapshot (b : bytes) : mesh_mgmt_replay_snapshot :=
  let flags := mesh_mgmt_wire_read_u32 (sub b 72 4) in
  mk_replay_snapshot
    (mk_binding (sub b 144 32) (mesh_mgmt_wire_read_u64 (sub b 176 8))
       (mesh_mgmt_wire_read_u64 (sub b 184 8)) (sub b 192 16))
    (mesh_mgmt_wire_read_u64 (sub b 56 8)) (mesh_mgmt_wire_read_u64 (sub b 64 8))
    (mesh_mgmt_wire_read_u32 (sub b 36 4))
    (if negb (Z.land flags CHECKPOINT_FLAG_REPLAY_HAS_SEQUENCE =? 0) then 1 else 0)
    (if negb (Z.land flags CHECKPOINT_FLAG_REPLAY_BOUND =? 0) then 1 else 0).

Definition mesh_control_checkpoint_restore_v1 (al : allocations) (owner : option mesh_control_owner)
    (inbound : option mesh_control_channel) (input : option bytes) (size now_ms : Z) :
    mesh_control_checkpoint_result * option mesh_control_owner :=
  match owner, input with
  | Some o, Some b =>
      if (size <? CHECKPOINT_HEADER_SIZE) || (MESH_CONTROL_CHECKPOINT_MAX_SIZE_V1 <? size)
      then (MESH_CONTROL_CHECKPOINT_INVALID_ARG, owner)
      else if negb (owner_unused o inbound) then (MESH_CONTROL_CHECKPOINT_INVALID_STATE, owner)
      else
        match restore_refused o b size with
        | Some result => (result, owner)
        | None =>
            match allocate_array (al_resources al) (mesh_mgmt_wire_read_u32 (sub b 24 4))
                    SIZEOF_RESOURCE_RECORD zero_resource_record,
                  allocate_array (al_operations al) (mesh_mgmt_wire_read_u32 (sub b 28 4))
                    SIZEOF_OPERATION_RECORD zero_operation_record,
                  allocate_array (al_events al) (mesh_mgmt_wire_read_u32 (sub b 32 4)) SIZEOF_EVENT
                    zero_event,
                  allocate_array (al_replay al) (mesh_mgmt_wire_read_u32 (sub b 36 4))
                    SIZEOF_REPLAY_ENTRY zero_replay_entry with
            | Some resources, Some operations, Some events, Some replay_entries =>
                match decode_checkpoint (take (Z.to_nat size) b) with
                | None => (MESH_CONTROL_CHECKPOINT_CORRUPT, owner)
                | Some (rs, os, es, xs) =>
                    match initialize_restore_targets al o with
                    | None => (MESH_CONTROL_CHECKPOINT_RESOURCE_EXHAUSTED, owner)
                    | Some (state, replay) =>
                        match mesh_control_state_import_v1 (al_documents al) (Some state)
                                (Some (decoded_info b)) (stored resources rs)
                                (stored operations os) (stored events es),
                              mesh_mgmt_replay_import_v1 (Some replay) (Some (decoded_snapshot b))
                                (stored replay_entries xs) now_ms with
                        | (MESH_CONTROL_OK, Some restored_state),
                          (MESH_MGMT_REPLAY_OK, Some restored_replay) =>
                            let committed :=
                              if mesh_mgmt_wire_read_u32 (sub b 8 4) =?
                                 MESH_CONTROL_CHECKPOINT_VERSION_V2
                              then mesh_mgmt_wire_read_u64 (sub b 216 8) else 0 in
                            (MESH_CONTROL_CHECKPOINT_OK,
                             Some (o |> set_ow_state restored_state |> set_ow_replay restored_replay
                                     |> set_ow_log_index committed))
                        | _, _ => (MESH_CONTROL_CHECKPOINT_CORRUPT, owner)
                        end
                    end
                end
            | _, _, _, _ => (MESH_CONTROL_CHECKPOINT_RESOURCE_EXHAUSTED, owner)
            end
        end
  | _, _ => (MESH_CONTROL_CHECKPOINT_INVALID_ARG, owner)
  end.

End Checkpoint.

(** ** Records read back *)

Lemma sub_front (a b : bytes) off n : (off + n <= length a)%nat → sub (a ++ b) off n = sub a off n.
Proof.
  intros H. unfold sub. rewrite drop_app_le by lia. apply take_app_le. rewrite length_drop. lia.
Qed.

Lemma at_front (a b : bytes) i : (i < length a)%nat → at_ (a ++ b) i = at_ a i.
Proof. intros H. unfold at_. by rewrite lookup_app_l. Qed.

Lemma at_of_sub b off n i : (i < n)%nat → at_ (sub b off n) i = at_ b (off + i).
Proof. intros H. unfold at_, sub. rewrite lookup_take_lt by done. by rewrite lookup_drop. Qed.

Record resource_record_typed (r : mesh_control_state_resource_record) : Prop := {
  rrt_kind : u16 (rst_resource_kind (rr_status r));
  rrt_presence : u16 (rst_desired_presence (rr_status r)) ∧ u16 (rst_observed_presence (rr_status r));
  rrt_epochs : u64 (rst_desired_epoch (rr_status r)) ∧ u64 (rst_observed_epoch (rr_status r));
  rrt_ids : bytes_ok 32 (rst_resource_id (rr_status r)) ∧
    bytes_ok 32 (rst_desired_digest (rr_status r)) ∧ bytes_ok 32 (rst_observed_digest (rr_status r));
  rrt_document : rr_document_size r = 0 ∧ rr_document r = None ∨
    ∃ d, rr_document r = Some d ∧ rr_document_size r = len d ∧ d ≠ [] ∧ Forall u8 d;
  rrt_size : u32 (rr_document_size r) }.

Record operation_record_typed (r : mesh_control_state_operation_record) : Prop := {
  ort_ids : bytes_ok 16 (co_operation_id (or_operation r)) ∧
    bytes_ok 16 (co_request_id (or_operation r)) ∧ bytes_ok 16 (co_message_id (or_operation r));
  ort_kind : u16 (co_resource_kind (or_operation r)) ∧ u16 (co_action (or_operation r)) ∧
    u16 (co_state (or_operation r));
  ort_digests : bytes_ok 32 (co_resource_id (or_operation r)) ∧
    bytes_ok 32 (co_desired_digest (or_operation r));
  ort_times : u64 (co_desired_epoch (or_operation r)) ∧ u64 (co_created_at_ms (or_operation r)) ∧
    u64 (co_updated_at_ms (or_operation r)) ∧ u64 (or_terminal_expires_at_ms r) }.

Record event_typed (e : mesh_control_event) : Prop := {
  evt_ids : bytes_ok 16 (ev_operation_id e) ∧ bytes_ok 32 (ev_resource_id e);
  evt_kind : u16 (ev_resource_kind e) ∧ u16 (ev_operation_state e);
  evt_numbers : u64 (ev_cursor e) ∧ u64 (ev_desired_epoch e) ∧ u64 (ev_recorded_at_ms e) }.

Record replay_entry_typed (e : mesh_mgmt_replay_entry) : Prop := {
  ret_id : bytes_ok 16 (rx_message_id e);
  ret_expiry : u64 (rx_expires_at_ms e);
  ret_occupied : rx_occupied e = 1 }.

(** The windows of a list of pieces followed by anything, replaced by the pieces. *)
Ltac read_pieces H :=
  rewrite ?sub_front by (rewrite length_concat, H; cbn; lia);
  find_pieces H.

Lemma zero_at b off n i : sub b off n = zeros n → (off <= i < off + n)%nat → at_ b i = 0.
Proof.
  intros H Hi. replace i with (off + (i - off))%nat by lia. rewrite <- (at_of_sub _ _ n) by lia.
  rewrite H. unfold at_, zeros. by rewrite lookup_replicate_2 by lia.
Qed.

Definition operation_pieces (r : mesh_control_state_operation_record) : list bytes :=
  let o := or_operation r in
  [co_operation_id o; co_request_id o; co_message_id o;
   mesh_mgmt_wire_write_u16 (co_resource_kind o); mesh_mgmt_wire_write_u16 (co_action o);
   mesh_mgmt_wire_write_u16 (co_state o); zeros 2; co_resource_id o; co_desired_digest o;
   mesh_mgmt_wire_write_u64 (co_desired_epoch o); mesh_mgmt_wire_write_u64 (co_created_at_ms o);
   mesh_mgmt_wire_write_u64 (co_updated_at_ms o);
   mesh_mgmt_wire_write_u64 (or_terminal_expires_at_ms r)].

Lemma encode_operation_pieces r : operation_record_typed r →
  encode_operation r = concat (operation_pieces r) ∧
  length <$> operation_pieces r = [16; 16; 16; 2; 2; 2; 2; 32; 32; 8; 8; 8; 8]%nat.
Proof.
  intros [([? _] & [? _] & [? _]) _ ([? _] & [? _]) _]. split.
  - unfold encode_operation, operation_pieces. cbn [concat]. by rewrite app_nil_r.
  - unfold operation_pieces. cbn [fmap list_fmap]. by lens.
Qed.

Lemma decode_encode_operation r rest : operation_record_typed r →
  decode_operation (encode_operation r ++ rest) = Some (r, rest).
Proof.
  intros Hr. destruct (encode_operation_pieces r Hr) as [-> Hp]. destruct Hr as [_ (? & ? & ?) _ (? & ? & ? & ?)].
  assert (Hl : length (concat (operation_pieces r)) = 152%nat) by (by rewrite length_concat, Hp).
  unfold decode_operation, CHECKPOINT_OPERATION_SIZE. unfold len at 1. rewrite length_app, Hl.
  rewrite (proj2 (Z.ltb_ge _ _)) by lia.
  assert (Hz : sub (concat (operation_pieces r) ++ rest) 54 2 = zeros 2) by (by read_pieces Hp).
  rewrite (zero_at _ _ _ 54 Hz), (zero_at _ _ _ 55 Hz) by lia.
  cbn [Z.eqb negb orb]. rewrite drop_app_length' by done.
  read_pieces Hp. rewrite !wire_read_write_u16, !wire_read_write_u64 by done.
  by destruct r as [[] ?].
Qed.

Definition event_pieces (e : mesh_control_event) : list bytes :=
  [mesh_mgmt_wire_write_u64 (ev_cursor e); ev_operation_id e;
   mesh_mgmt_wire_write_u16 (ev_resource_kind e); mesh_mgmt_wire_write_u16 (ev_operation_state e);
   zeros 4; ev_resource_id e; mesh_mgmt_wire_write_u64 (ev_desired_epoch e);
   mesh_mgmt_wire_write_u64 (ev_recorded_at_ms e)].

Lemma encode_event_pieces e : event_typed e →
  encode_event e = concat (event_pieces e) ∧
  length <$> event_pieces e = [8; 16; 2; 2; 4; 32; 8; 8]%nat.
Proof.
  intros [[[? _] [? _]] _ _]. split.
  - unfold encode_event, event_pieces. cbn [concat]. by rewrite app_nil_r.
  - unfold event_pieces. cbn [fmap list_fmap]. by lens.
Qed.

Lemma decode_encode_event e rest : event_typed e →
  decode_event (encode_event e ++ rest) = Some (e, rest).
Proof.
  intros He. destruct (encode_event_pieces e He) as [-> Hp]. destruct He as [_ (? & ?) (? & ? & ?)].
  assert (Hl : length (concat (event_pieces e)) = 80%nat) by (by rewrite length_concat, Hp).
  unfold decode_event, CHECKPOINT_EVENT_SIZE. unfold len at 1. rewrite length_app, Hl.
  rewrite (proj2 (Z.ltb_ge _ _)) by lia. cbn [orb]. rewrite drop_app_length' by done.
  read_pieces Hp. rewrite or_zeros, !wire_read_write_u16, !wire_read_write_u64 by done.
  by destruct e.
Qed.

Lemma length_encode_replay_entry e : replay_entry_typed e → length (encode_replay_entry e) = 24%nat.
Proof. intros [[? _] _ _]. unfold encode_replay_entry. rewrite length_app. by lens. Qed.

Lemma decode_encode_replay_entry e rest : replay_entry_typed e →
  decode_replay_entry (encode_replay_entry e ++ rest) = Some (e, rest).
Proof.
  intros He. pose proof (length_encode_replay_entry e He) as Hl. destruct He as [[Hi _] ? Ho].
  unfold decode_replay_entry, CHECKPOINT_REPLAY_ENTRY_SIZE. unfold len at 1. rewrite length_app, Hl.
  rewrite (proj2 (Z.ltb_ge _ _)) by lia. rewrite drop_app_length' by done.
  rewrite !sub_front by lia. unfold encode_replay_entry. seek.
  rewrite wire_read_write_u64 by done. rewrite <- Ho. by destruct e.
Qed.

Definition resource_pieces (r : mesh_control_state_resource_record) : list bytes :=
  let s := rr_status r in
  [mesh_mgmt_wire_write_u16 (rst_resource_kind s); mesh_mgmt_wire_write_u16 (rst_desired_presence s);
   mesh_mgmt_wire_write_u16 (rst_observed_presence s); zeros 2;
   mesh_mgmt_wire_write_u32 (wrap 32 (rr_document_size r)); zeros 4;
   mesh_mgmt_wire_write_u64 (rst_desired_epoch s); mesh_mgmt_wire_write_u64 (rst_observed_epoch s);
   rst_resource_id s; rst_desired_digest s; rst_observed_digest s].

Lemma encode_resource_pieces r : resource_record_typed r →
  encode_resource r = concat (resource_pieces r) ++ deref [] (rr_document r) ∧
  length <$> resource_pieces r = [2; 2; 2; 2; 4; 4; 8; 8; 32; 32; 32]%nat ∧
  len (deref [] (rr_document r)) = rr_document_size r.
Proof.
  intros [_ _ _ ([? _] & [? _] & [? _]) Hd _]. split_and!.
  - unfold encode_resource, resource_pieces. cbn [concat]. rewrite app_nil_r, <- !app_assoc.
    do 11 f_equal. destruct Hd as [[-> ->]|(d & -> & -> & Hn & _)]; [done|]. cbn [deref].
    destruct (Z.eqb_spec (len d) 0) as [E|_]; [by destruct d|].
    unfold len. rewrite Nat2Z.id. by rewrite take_ge.
  - unfold resource_pieces. cbn [fmap list_fmap]. by lens.
  - by destruct Hd as [[-> ->]|(d & -> & -> & _)].
Qed.

Lemma decode_encode_resource r rest : resource_record_typed r →
  decode_resource (encode_resource r ++ rest) = Some (r, rest).
Proof.
  intros Hr. destruct (encode_resource_pieces r Hr) as (-> & Hp & Hd).
  destruct Hr as [? (? & ?) (? & ?) _ Hdoc Hs].
  assert (Hl : length (concat (resource_pieces r)) = 128%nat) by (by rewrite length_concat, Hp).
  rewrite <- app_assoc. set (tl := deref [] (rr_document r) ++ rest).
  assert (Ht : len tl = rr_document_size r + len rest) by (unfold tl, len in *; rewrite length_app; lia).
  assert (Hz : sub (concat (resource_pieces r) ++ tl) 6 2 = zeros 2) by (by read_pieces Hp).
  unfold decode_resource, CHECKPOINT_RESOURCE_HEADER_SIZE.
  assert (Hlen : len (concat (resource_pieces r) ++ tl) = 128 + len tl) by (unfold len; rewrite length_app, Hl; lia).
  rewrite Hlen, (zero_at _ _ _ 6 Hz), (zero_at _ _ _ 7 Hz) by lia.
  assert (0 <= len rest) by (unfold len; lia). assert (0 <= len tl) by (unfold len; lia).
  rewrite (proj2 (Z.ltb_ge (128 + len tl) 128)) by lia. cbn [Z.eqb negb orb].
  assert (E8 : mesh_mgmt_wire_read_u32 (sub (concat (resource_pieces r) ++ tl) 8 4) = rr_document_size r).
  { read_pieces Hp. rewrite wrap_small by done. by rewrite wire_read_write_u32. }
  rewrite E8. replace (128 + len tl - 128 <? rr_document_size r) with false by lia.
  rewrite (sub_skip _ tl 128) by lia. rewrite drop_app_ge by lia. rewrite Hl. cbn [Nat.sub].
  replace (128 + Z.to_nat (rr_document_size r) - 128)%nat with (length (deref [] (rr_document r)))
    by (unfold len in Hd; lia).
  replace (Z.to_nat (rr_document_size r)) with (length (deref [] (rr_document r))) by (unfold len in Hd; lia).
  assert (Esub : sub tl 0 (length (deref [] (rr_document r))) = deref [] (rr_document r)) by (by apply sub_here).
  assert (Edrop : drop (length (deref [] (rr_document r))) tl = rest) by apply drop_app_length.
  rewrite Esub, Edrop.
  read_pieces Hp. rewrite or_zeros, !wire_read_write_u16, !wire_read_write_u64 by done. cbn [Z.eqb negb].
  destruct r as [[] doc size]. cbn in *. do 3 f_equal.
  destruct Hdoc as [[-> ->]|(d & -> & -> & Hn & _)]; [done|]. cbn.
  destruct (Z.eqb_spec (len d) 0); [by destruct d|done].
Qed.

Lemma decode_records_concat {A} (enc : A → bytes) (dec : bytes → option (A * bytes)) (P : A → Prop)
    (l : list A) (rest : bytes) :
  (∀ x rest, P x → dec (enc x ++ rest) = Some (x, rest)) → Forall P l →
  decode_records dec (length l) (concat (enc <$> l) ++ rest) = Some (l, rest).
Proof.
  intros Hd Hl. induction Hl as [|x l Hx _ IH]; [done|].
  cbn [length decode_records fmap list_fmap concat]. rewrite <- app_assoc, Hd by done. cbn.
  by rewrite IH.
Qed.

Lemma length_concat_const {A} (enc : A → bytes) (P : A → Prop) (k : nat) (l : list A) :
  (∀ x, P x → length (enc x) = k) → Forall P l → length (concat (enc <$> l)) = (length l * k)%nat.
Proof.
  intros Hk Hl. induction Hl as [|x l Hx _ IH]; [done|]. cbn [fmap list_fmap concat length].
  rewrite length_app, Hk, IH by done. lia.
Qed.

(** ** The header and the whole string *)

Definition flags_of (snapshot : mesh_mgmt_replay_snapshot) : Z :=
  let flags := if negb (rs_has_sequence snapshot =? 0)
               then Z.lor 0 CHECKPOINT_FLAG_REPLAY_HAS_SEQUENCE else 0 in
  if negb (rs_bound snapshot =? 0) then Z.lor flags CHECKPOINT_FLAG_REPLAY_BOUND else flags.

Definition checkpoint_header_pieces (o : mesh_control_owner) (cap : checkpoint_capture)
    (resource_size total : Z) (digest : bytes) : list bytes :=
  let info := cp_state_info cap in
  let s := cp_replay_snapshot cap in
  [checkpoint_magic; mesh_mgmt_wire_write_u32 MESH_CONTROL_CHECKPOINT_VERSION_V2;
   mesh_mgmt_wire_write_u32 CHECKPOINT_HEADER_SIZE; mesh_mgmt_wire_write_u64 total;
   mesh_mgmt_wire_write_u32 (wrap 32 (ck_resource_count info));
   mesh_mgmt_wire_write_u32 (wrap 32 (ck_operation_count info));
   mesh_mgmt_wire_write_u32 (wrap 32 (ck_event_count info));
   mesh_mgmt_wire_write_u32 (wrap 32 (rs_entry_count s));
   mesh_mgmt_wire_write_u64 (ck_snapshot_generation info);
   mesh_mgmt_wire_write_u64 (ck_next_event_cursor info);
   mesh_mgmt_wire_write_u64 (rs_last_sequence s); mesh_mgmt_wire_write_u64 (rs_generation s);
   mesh_mgmt_wire_write_u32 (flags_of s); zeros 4;
   oc_mesh_id (ow_config o); oc_node_id (ow_config o); rb_principal_key (rs_binding s);
   mesh_mgmt_wire_write_u64 (rb_principal_epoch (rs_binding s));
   mesh_mgmt_wire_write_u64 (rb_incarnation (rs_binding s)); rb_session_id (rs_binding s);
   mesh_mgmt_wire_write_u64 resource_size; mesh_mgmt_wire_write_u64 (ow_committed_log_index o);
   digest].

Definition header_lengths : list nat :=
  [8; 4; 4; 8; 4; 4; 4; 4; 8; 8; 8; 8; 4; 4; 32; 32; 32; 8; 8; 16; 8; 8; 32]%nat.

Record binding_typed (o : mesh_control_owner) (s : mesh_mgmt_replay_snapshot) : Prop := {
  bt_ids : bytes_ok 32 (oc_mesh_id (ow_config o)) ∧ bytes_ok 32 (oc_node_id (ow_config o));
  bt_key : bytes_ok 32 (rb_principal_key (rs_binding s)) ∧ bytes_ok 16 (rb_session_id (rs_binding s)) }.

Lemma header_pieces_lengths o cap rs ts d : binding_typed o (cp_replay_snapshot cap) → length d = 32%nat →
  length <$> checkpoint_header_pieces o cap rs ts d = header_lengths.
Proof.
  intros [[[? _] [? _]] [[? _] [? _]]] Hd. unfold checkpoint_header_pieces. cbn [fmap list_fmap]. by lens.
Qed.

Lemma checkpoint_header_eq o cap rs ts :
  checkpoint_header o cap rs ts = concat (checkpoint_header_pieces o cap rs ts (zeros 32)).
Proof.
  unfold checkpoint_header, checkpoint_header_pieces. cbn [concat]. by rewrite app_nil_r.
Qed.

(** The header up to the digest. *)
Definition header_front o cap rs ts : bytes :=
  concat (take 22 (checkpoint_header_pieces o cap rs ts [])).
Lemma header_front_eq o cap rs ts d :
  concat (checkpoint_header_pieces o cap rs ts d) = header_front o cap rs ts ++ d.
Proof.
  unfold header_front, checkpoint_header_pieces. cbn [take concat]. rewrite !app_nil_r. by rewrite <- !app_assoc.
Qed.
Lemma length_header_front o cap rs ts : binding_typed o (cp_replay_snapshot cap) →
  length (header_front o cap rs ts) = 224%nat.
Proof.
  intros Hb. pose proof (header_pieces_lengths o cap rs ts (zeros 32) Hb eq_refl) as H.
  apply (f_equal sum_list) in H. rewrite <- length_concat, header_front_eq, length_app in H.
  change (length (zeros 32)) with 32%nat in H. change (sum_list header_lengths) with 256%nat in H. lia.
Qed.

Lemma take_header_front o cap rs ts d body : binding_typed o (cp_replay_snapshot cap) →
  take 224 ((header_front o cap rs ts ++ d) ++ body) = header_front o cap rs ts.
Proof. intros Hb. rewrite <- app_assoc. apply take_app_length'. by rewrite length_header_front. Qed.

Lemma drop_header (h d body : bytes) : length h = 224%nat → length d = 32%nat →
  drop 224 ((h ++ d) ++ body) = d ++ body ∧ drop 256 ((h ++ d) ++ body) = body.
Proof.
  intros Hh Hd. rewrite <- app_assoc. split; [by apply drop_app_length'|].
  rewrite app_assoc. apply drop_app_length'. rewrite length_app. lia.
Qed.
