(* ===== verification/ControlImport.v ===== *)
(** * Importing records from an untrusted source

    A checkpoint is read from a file: its records are whatever the bytes say.
    The validation of [mesh_control_state_import_v1] and
    [mesh_mgmt_replay_import_v1] is enough: an accepted import leaves a
    well-formed state and a well-formed gate. *)

From S2P Require Import Prelude Wire MgmtCrypto MgmtCodec MgmtEnvelope Replay.
From S2P Require Import ControlPrimitives ControlState ControlStateInv ControlSnapshot.
From S2P Require Import ControlChannel ControlOwner ControlCheckpoint.

(** ** One record *)

Lemma presence_coherent p dg : presence_valid p = true →
  eqb (p =? MESH_CONTROL_PRESENCE_PRESENT) (negb (bool_decide (dg = zeros 32))) = true → coherent p dg.
Proof.
  unfold presence_valid, coherent. intros [E%Z.eqb_eq|E%Z.eqb_eq]%orb_true_iff H%eqb_prop; subst p; cbn in H;
    symmetry in H.
  - right. split; [done|]. apply negb_false_iff in H. by bool_prop.
  - left. split; [done|]. apply negb_true_iff in H. by bool_prop.
Qed.

Lemma valid_resource c r : resource_record_typed r → resource_record_valid r c = true →
  resource_ok c (imported_resource r).
Proof.
  intros [_ _ [He1 He2] (Hi & Hd1 & Hd2) Hdoc Hs] Hv. unfold resource_record_valid in Hv.
  apply negb_true_iff in Hv. rewrite !(control_bytes_zero_spec 32) in Hv by done. bool_prop. unfold uint in *.
  pose proof (presence_coherent _ _ H6 H4) as Hc1. pose proof (presence_coherent _ _ H5 H3) as Hc2.
  split; cbn [imported_resource rsl_status rsl_desired_document rsl_desired_document_size]; try done; try lia.
  - intros E. destruct Hc1 as [[E' _]|[_ ?]]; [by rewrite E in E'|done].
  - destruct Hdoc as [[-> _]|(x & -> & -> & Hn & _)]; [by left|right]. exists x. cbn [deref].
    destruct (Z.eqb_spec (len x) 0); [by destruct x|]. unfold len. rewrite Nat2Z.id. by rewrite take_ge.
Qed.

Lemma valid_operation r : operation_record_typed r → operation_record_valid r = true →
  operation_ok (or_operation r) (or_terminal_expires_at_ms r).
Proof.
  intros [(Hi & Hq & Hm) _ (Hr & Hd) (He & _)] Hv. unfold operation_record_valid, uint in *. step_in Hv; [done|].
  rewrite !(control_bytes_zero_spec 16), !(control_bytes_zero_spec 32), memeq_spec in * by (done || apply Hi || apply Hm).
  bool_prop.
  split; try done; try lia.
  destruct (mesh_control_operation_state_is_terminal_v1 _); by bool_prop.
Qed.

(** ** The lists *)

Lemma import_documents_sound c rs : config_ok c → Forall resource_record_typed rs → ∀ n m, 0 <= n →
  n <= sc_desired_document_retained_bytes c → import_documents c n rs = Some m →
  Forall (λ r, resource_ok c (imported_resource r)) rs ∧
  m = n + doc_total (imported_resource <$> rs) ∧ m <= sc_desired_document_retained_bytes c.
Proof.
  intros []. induction 1 as [|r rs Hr _ IH]; intros n m Hn Hb H; cbn [import_documents fmap list_fmap] in *.
  { injection H as <-. split; [constructor|]. cbn. lia. }
  step_in H; [done|]. bool_prop. pose proof (valid_resource c r Hr ltac:(done)) as Hok.
  pose proof (ro_size _ _ Hok) as Hs. cbn [imported_resource rsl_desired_document_size] in Hs.
  rewrite wrap_small in * by (unfold uint; lia).
  destruct (IH (n + rr_document_size r) m ltac:(lia) ltac:(lia) H) as (Hf & -> & Hle). split; [by constructor|].
  cbn [doc_total foldr imported_resource rsl_desired_document_size]. fold (doc_total (imported_resource <$> rs)). lia.
Qed.

(** Two imported resources have the same key when the records match. *)
Lemma same_resource_imported kind id r : length id = 32%nat → resource_record_typed r →
  same_resource kind id r = bool_decide ((kind, id) = rkey (imported_resource r)).
Proof.
  intros Hid Hr. unfold same_resource, rkey. cbn [imported_resource rsl_status].
  rewrite memeq_spec; [|done|apply Hr]. apply eq_true_iff_eq.
  rewrite andb_true_iff, Z.eqb_eq, !bool_decide_eq_true. naive_solver.
Qed.

Lemma resources_unique_sound rs : Forall resource_record_typed rs → resources_unique rs = true →
  NoDup (rkey <$> (imported_resource <$> rs)).
Proof.
  induction 1 as [|r rs Hr Hrs IH]; intros H; cbn [resources_unique fmap list_fmap] in *; [constructor|].
  apply andb_true_iff in H as [Hn H]. constructor; [|by apply IH].
  intros (x & Ek & (y & -> & Hy)%list_elem_of_fmap)%list_elem_of_fmap.
  apply negb_true_iff in Hn. rewrite existsb_Forall_false, Forall_forall in Hn. specialize (Hn y Hy).
  rewrite Forall_forall in Hrs. rewrite same_resource_imported in Hn by (apply Hr || by apply Hrs).
  apply bool_decide_eq_false in Hn. by apply Hn.
Qed.

Lemma resource_bound_sound rs tl kind id epoch : Forall resource_record_typed rs → length id = 32%nat →
  resource_bound rs kind id epoch = true → bound_in ((imported_resource <$> rs) ++ tl) kind id epoch.
Proof.
  intros Hrs Hid H. unfold resource_bound in H. destruct (find_slot _ rs) as [[i r]|] eqn:E; [|done].
  apply find_slot_Some in E as [Hi Hs]. rewrite same_resource_imported in Hs by (done || by eapply Forall_lookup_1).
  bool_prop. exists i, (imported_resource r). split_and!; [|done|done|cbn; lia].
  rewrite lookup_app_l by (rewrite length_fmap; by eapply lookup_lt_Some). by rewrite list_lookup_fmap, Hi.
Qed.

Lemma operations_sound rs tl os : Forall resource_record_typed rs → Forall operation_record_typed os →
  operations_unique_and_bound rs os = true →
  NoDup (okey <$> (imported_operation <$> os)) ∧
  Forall (λ x, bound_in ((imported_resource <$> rs) ++ tl) (co_resource_kind (or_operation x))
    (co_resource_id (or_operation x)) (co_desired_epoch (or_operation x))) os.
Proof.
  intros Hrs. induction 1 as [|x os Hx Hos IH]; intros H; cbn [operations_unique_and_bound fmap list_fmap] in *;
    [by split; constructor|].
  apply andb_true_iff in H as [[Hn Hb]%andb_true_iff H]. destruct (IH H) as [IH1 IH2]. split.
  - constructor; [|done]. intros (s & Ek & (y & -> & Hy)%list_elem_of_fmap)%list_elem_of_fmap.
    apply negb_true_iff in Hn. rewrite existsb_Forall_false, Forall_forall in Hn. specialize (Hn y Hy). cbn in Hn.
    unfold okey in Ek. cbn [imported_operation osl_operation] in Ek. rewrite Ek, memeq_refl, orb_true_r in Hn. done.
  - constructor; [|done]. apply resource_bound_sound; [done|apply Hx|done].
Qed.

Lemma events_sound rs tl es base : Forall resource_record_typed rs → Forall event_typed es →
  0 <= base → base + Z.of_nat (length es) < 2 ^ 64 → events_consecutive base es = true →
  forallb (λ ev, resource_bound rs (ev_resource_kind ev) (ev_resource_id ev) (ev_desired_epoch ev)) es = true →
  Forall (event_ok ((imported_resource <$> rs) ++ tl)) es ∧
  ∀ k e, es !! k = Some e → ev_cursor e = base + Z.of_nat k.
Proof.
  intros Hrs Hes. revert base. induction Hes as [|e es He _ IH]; intros base Hb Hm H Hf; [by split; [constructor|]|].
  cbn [events_consecutive forallb length] in *. apply andb_true_iff in H as [[Hv Hc]%andb_true_iff H].
  apply andb_true_iff in Hf as [Hbd Hf]. rewrite wrap_small in H by (unfold uint; lia).
  destruct (IH (base + 1) ltac:(lia) ltac:(lia) H Hf) as [IH1 IH2]. apply Z.eqb_eq in Hc. split.
  - constructor; [|done]. destruct He as [[Hi Hr] _ (_ & Hep & _)]. unfold event_record_valid in Hv.
    rewrite (control_bytes_zero_spec 16), (control_bytes_zero_spec 32) in Hv by done. bool_prop.
    split; try done. unfold uint in Hep. lia. apply resource_bound_sound; [done|apply Hr|done].
  - intros [|k] e' Hk; cbn in Hk; [simplify_eq; lia|]. rewrite (IH2 k e' Hk). lia.
Qed.

(** ** A whole state *)

Lemma doc_total_tail l n : doc_total (l ++ replicate n zero_resource_slot) = doc_total l.
Proof.
  induction l as [|s l IH]; [apply doc_total_zero|]. cbn [app doc_total foldr].
  fold (doc_total l). fold (doc_total (l ++ replicate n zero_resource_slot)). by rewrite IH.
Qed.

Lemma unique_front {A K} `{EqDecision K} (occ : A → bool) (key : A → K) (l : list A) n z :
  occ z = false → Forall (λ x, occ x = true) l → NoDup (key <$> l) → slots_unique occ key (l ++ replicate n z).
Proof.
  intros Hz Hl Hn. apply occupied_unique. rewrite filter_app.
  replace (filter (λ x, occ x = true) (replicate n z)) with (@nil A).
  - rewrite app_nil_r. replace (filter (λ x, occ x = true) l) with l; [done|].
    induction Hl as [|x l Hx _ IH]; [done|]. rewrite filter_cons_True by done. f_equal.
    cbn [fmap list_fmap] in Hn. apply NoDup_cons in Hn as [_ Hn]. by apply IH.
  - induction n; cbn [replicate]; [done|]. by rewrite filter_cons_False by congruence.
Qed.

(** The ring of an imported state, which starts at slot 0. *)
Lemma ring_list_front c rs os es n cursor generation retained : Z.of_nat (length es + n) = sc_event_capacity c →
  ring_list (mk_impl c rs os (es ++ replicate n zero_event) (Z.of_nat (length es)) 0 cursor generation retained) = es.
Proof.
  intros Hl. apply list_eq. intros i. set (impl := mk_impl _ _ _ _ _ _ _ _ _).
  destruct (decide (i < length es)%nat) as [Hi|Hi].
  - rewrite ring_list_lookup by (cbn; lia). unfold ring_at, impl. cbn [im_events im_event_head im_config].
    rewrite Z.add_0_l, Z.mod_small, Nat2Z.id by lia. rewrite lookup_app_l by done.
    destruct (lookup_lt_is_Some_2 es i Hi) as [e ->]. done.
  - rewrite !lookup_ge_None_2; [done|lia|]. rewrite ring_list_length. cbn. lia.
Qed.

Record info_typed (info : mesh_control_state_checkpoint_info)
    (rs : list mesh_control_state_resource_record) (os : list mesh_control_state_operation_record)
    (es : list mesh_control_event) : Prop := {
  it_counters : u64 (ck_snapshot_generation info) ∧ u64 (ck_next_event_cursor info);
  it_resources : ck_resource_count info = Z.of_nat (length rs) ∧ Forall resource_record_typed rs;
  it_operations : ck_operation_count info = Z.of_nat (length os) ∧ Forall operation_record_typed os;
  it_events : ck_event_count info = Z.of_nat (length es) ∧ Forall event_typed es }.

Section State.
Context (c : mesh_control_state_config) (Hfresh : impl_ok (fresh_impl c)).

(** What an accepted import builds. *)
Definition imported_impl (info : mesh_control_state_checkpoint_info)
    (rs : list mesh_control_state_resource_record) (os : list mesh_control_state_operation_record)
    (es : list mesh_control_event) (retained : Z) : mesh_control_state_impl :=
  mk_impl c
    ((imported_resource <$> rs) ++
       replicate (Z.to_nat (sc_resource_capacity c) - length rs) zero_resource_slot)
    ((imported_operation <$> os) ++
       replicate (Z.to_nat (sc_operation_capacity c) - length os) zero_operation_slot)
    (es ++ replicate (Z.to_nat (sc_event_capacity c) - length es) zero_event)
    (Z.of_nat (length es)) 0 (ck_next_event_cursor info) (ck_snapshot_generation info) retained.

Record accepted info rs os es retained : Prop := {
  ac_generation : ck_snapshot_generation info ≠ 0 ∧ ck_next_event_cursor info ≠ 0;
  ac_capacity : Z.of_nat (length rs) <= sc_resource_capacity c ∧
    Z.of_nat (length os) <= sc_operation_capacity c ∧ Z.of_nat (length es) <= sc_event_capacity c;
  ac_documents : import_documents c 0 rs = Some retained;
  ac_operations : Forall (λ x, operation_record_valid x = true) os;
  ac_cursor : Z.of_nat (length es) < ck_next_event_cursor info;
  ac_events : events_consecutive (ck_next_event_cursor info - Z.of_nat (length es)) es = true;
  ac_unique : checkpoint_inputs_unique_and_bound rs os es = true }.

Lemma import_accepted a info rs os es st : info_typed info rs os es →
  mesh_control_state_import_v1 a (holds (fresh_impl c)) (Some info) (Some rs) (Some os) (Some es) =
    (MESH_CONTROL_OK, st) →
  ∃ retained, accepted info rs os es retained ∧ st = holds (imported_impl info rs os es retained).
Proof.
  intros [_ [E1 _] [E2 _] [E3 _]] H. unfold mesh_control_state_import_v1 in H.
  cbn [state_impl mbind option_bind cst_impl fresh_impl im_config im_resources im_operations im_events deref] in H.
  rewrite E1, E2, E3, !Nat2Z.id, !take_ge in H by done. step_in H; [done|].
  destruct (import_documents c 0 rs) as [retained|] eqn:Ed; [|done].
  repeat (step_in H; [done|]). injection H as <-. bool_prop. exists retained. split.
  - split; try done; try lia. apply forallb_Forall_true. done.
  - rewrite !drop_replicate, ?length_fmap. done.
Qed.

Lemma imported_ok info rs os es retained : info_typed info rs os es → accepted info rs os es retained →
  impl_ok (imported_impl info rs os es retained).
Proof.
  intros [[Hg Hc] [_ Hrs] [_ Hos] [_ Hes]] [[Hg0 Hc0] (L1 & L2 & L3) Hd Ho Hcu Hev Hu].
  pose proof (io_config _ Hfresh) as Hcf. cbn [fresh_impl im_config] in Hcf. pose proof Hcf as [].
  unfold checkpoint_inputs_unique_and_bound in Hu. apply andb_true_iff in Hu as [[Hu1 Hu2]%andb_true_iff Hu3].
  destruct (import_documents_sound c rs Hcf Hrs 0 retained ltac:(lia) ltac:(lia) Hd) as (Hr & Hret & Hbud).
  set (tl := replicate (Z.to_nat (sc_resource_capacity c) - length rs) zero_resource_slot).
  destruct (operations_sound rs tl os Hrs Hos Hu2) as [Hn Hb].
  unfold uint in *.
  destruct (events_sound rs tl es (ck_next_event_cursor info - Z.of_nat (length es)) Hrs Hes ltac:(lia)
    ltac:(lia) Hev Hu3) as [He Hk].
  assert (Hring : ring_list (imported_impl info rs os es retained) = es) by (apply ring_list_front; lia).
  split; rewrite ?Hring;
    cbn [imported_impl im_config im_resources im_operations im_events im_event_count im_next_cursor
      im_snapshot_generation im_retained_document_bytes]; fold tl; try done; try lia.
  - unfold tl. rewrite length_app, length_fmap, length_replicate. lia.
  - rewrite length_app, length_fmap, length_replicate. lia.
  - apply Forall_app_2; [|by apply Forall_replicate]. apply Forall_fmap. exact Hr.
  - apply Forall_app_2; [|by apply Forall_replicate]. apply Forall_fmap, Forall_forall. intros x Hx.
    rewrite Forall_forall in Hos, Ho, Hb. split; [apply valid_operation; [by apply Hos|by apply Ho]|by apply Hb].
  - apply unique_front; [done|by apply Forall_fmap, Forall_true|by apply resources_unique_sound].
  - apply unique_front; [done|by apply Forall_fmap, Forall_true|done].
  - unfold tl. rewrite doc_total_tail. lia.
  - split; cbn [imported_impl im_config im_events im_event_head im_event_count];
      rewrite ?length_app, ?length_replicate; lia.
Qed.
End State.

(** ** A replay gate *)

Lemma replay_import_sound g l s es now g' : fresh_gate g l → u64 (rs_generation s) →
  Forall (λ e, bytes_ok 16 (rx_message_id e)) es →
  mesh_mgmt_replay_import_v1 (Some g) (Some s) (Some es) now = (MESH_MGMT_REPLAY_OK, Some g') →
  (∃ l', gate_ok g' l') ∧ rg_bound g' = 1 ∧ rg_config g' = rg_config g ∧ rg_binding g' = rg_binding g.
Proof.
  intros [[Hen Hl Hc Ht Hids Hbd Hg] Hb _] Hgen Hes H. unfold mesh_mgmt_replay_import_v1 in H. rewrite Hen in H.
  repeat (step_in H; [done|]). injection H as <-. split; [|done]. bool_prop.
  cbn [deref] in *. eexists.
  split; cbn [rg_entries rg_config rg_binding rg_generation]; try done.
  - rewrite length_app, length_replicate. lia.
  - apply Forall_app_2; [|apply Forall_replicate, zeros_ok].
    apply (Forall_take _ (Z.to_nat (rs_entry_count s))) in Hes. rewrite Forall_forall in Hes.
    apply Forall_forall. intros e [_ Hin]%list_elem_of_filter. by apply Hes.
  - by apply wrap_range.
Qed.

(** ** What the decoders yield *)

Lemma decode_records_sound {A} (dec : bytes → option (A * bytes)) (P : A → Prop) n :
  (∀ b x b', Forall u8 b → dec b = Some (x, b') → P x ∧ Forall u8 b') →
  ∀ b xs b', Forall u8 b → decode_records dec n b = Some (xs, b') →
  length xs = n ∧ Forall P xs ∧ Forall u8 b'.
Proof.
  intros Hd. induction n as [|n IH]; intros b xs b' Hb H; cbn [decode_records] in H.
  { by simplify_eq. }
  destruct (dec b) as [[x b1]|] eqn:E1; [|done]. cbn [mbind option_bind] in H.
  destruct (decode_records dec n b1) as [[xs1 b2]|] eqn:E2; [|done]. cbn [mbind option_bind] in H.
  injection H as <- <-. destruct (Hd _ _ _ Hb E1) as [Hx Hb1]. destruct (IH _ _ _ Hb1 E2) as (Hl & Hf & Hb2).
  cbn [length]. split_and!; [lia|by constructor|done].
Qed.

Lemma window_bytes_ok n (b : bytes) off m : Forall u8 b → len b >= Z.of_nat n → (off + m <= n)%nat →
  bytes_ok m (sub b off m).
Proof. intros Hb Hl Hm. unfold len in Hl. split; [apply length_sub; lia|by apply sub_Forall]. Qed.

Lemma read_u64_window n b off : Forall u8 b → len b >= Z.of_nat n → (off + 8 <= n)%nat →
  u64 (mesh_mgmt_wire_read_u64 (sub b off 8)).
Proof.
  intros Hb Hl Hm. rewrite wire_read_u64_eq by by eapply window_bytes_ok.
  pose proof (window_bytes_ok n b off 8 Hb Hl Hm) as [Hlen Hu]. pose proof (be_value_range _ Hu) as Hr.
  unfold len in Hr. rewrite Hlen in Hr. unfold uint. lia.
Qed.

Lemma decode_resource_sound b r b' : Forall u8 b → decode_resource b = Some (r, b') →
  resource_record_typed r ∧ Forall u8 b'.
Proof.
  intros Hb H. unfold decode_resource in H. step_in H; [done|]. step_in H; [done|]. injection H as <- <-.
  unfold CHECKPOINT_RESOURCE_HEADER_SIZE in *. bool_prop. split; [|by apply Forall_drop].
  set (size := mesh_mgmt_wire_read_u32 (sub b 8 4)) in *. pose proof (wire_read_u32_range (sub b 8 4)) as Hs. fold size in Hs.
  split; cbn [rr_status rr_document rr_document_size rst_resource_kind rst_resource_id rst_desired_epoch
    rst_observed_epoch rst_desired_presence rst_observed_presence rst_desired_digest rst_observed_digest].
  - apply wire_read_u16_range.
  - split; apply wire_read_u16_range.
  - split; apply (read_u64_window 128); (done || lia).
  - split_and!; apply (window_bytes_ok 128); (done || lia).
  - destruct (Z.eqb_spec size 0) as [|Hz]; [by left|right]. unfold uint in Hs. unfold len in *.
    assert (Hl : length (sub b 128 (Z.to_nat size)) = Z.to_nat size) by (apply length_sub; lia).
    eexists. split; [done|]. rewrite Hl. split_and!; [lia| |by apply sub_Forall].
    intros E. rewrite E in Hl. cbn in Hl. lia.
  - done.
Qed.

Lemma decode_operation_sound b r b' : Forall u8 b → decode_operation b = Some (r, b') →
  operation_record_typed r ∧ Forall u8 b'.
Proof.
  intros Hb H. unfold decode_operation, CHECKPOINT_OPERATION_SIZE in H. step_in H; [done|]. injection H as <- <-.
  bool_prop. split; [|by apply Forall_drop].
  split; cbn [or_operation or_terminal_expires_at_ms co_operation_id co_request_id co_message_id co_resource_kind
    co_action co_resource_id co_desired_digest co_desired_epoch co_created_at_ms co_updated_at_ms co_state].
  - split_and!; apply (window_bytes_ok 152); (done || lia).
  - split_and!; apply wire_read_u16_range.
  - split_and!; apply (window_bytes_ok 152); (done || lia).
  - split_and!; apply (read_u64_window 152); (done || lia).
Qed.

Lemma decode_event_sound b r b' : Forall u8 b → decode_event b = Some (r, b') → event_typed r ∧ Forall u8 b'.
Proof.
  intros Hb H. unfold decode_event, CHECKPOINT_EVENT_SIZE in H. step_in H; [done|]. injection H as <- <-.
  bool_prop. split; [|by apply Forall_drop].
  split; cbn [ev_cursor ev_operation_id ev_resource_kind ev_operation_state ev_resource_id ev_desired_epoch
    ev_recorded_at_ms].
  - split_and!; apply (window_bytes_ok 80); (done || lia).
  - split_and!; apply wire_read_u16_range.
  - split_and!; apply (read_u64_window 80); (done || lia).
Qed.

Lemma decode_replay_entry_sound b r b' : Forall u8 b → decode_replay_entry b = Some (r, b') →
  replay_entry_typed r ∧ Forall u8 b'.
Proof.
  intros Hb H. unfold decode_replay_entry, CHECKPOINT_REPLAY_ENTRY_SIZE in H. step_in H; [done|].
  injection H as <- <-. bool_prop. split; [|by apply Forall_drop].
  split; cbn [rx_message_id rx_expires_at_ms rx_occupied]; [|by apply (read_u64_window 24); (done || lia)|done].
  apply (window_bytes_ok 24); (done || lia).
Qed.

(** A replay section that is used up has the length its count says. *)
Lemma decode_replay_length n : ∀ b xs, decode_records decode_replay_entry n b = Some (xs, []) →
  length b = (n * 24)%nat.
Proof.
  induction n as [|n IH]; intros b xs H; cbn [decode_records] in H; [by simplify_eq|].
  destruct (decode_replay_entry b) as [[x b1]|] eqn:E1; [|done]. cbn [mbind option_bind] in H.
  destruct (decode_records decode_replay_entry n b1) as [[xs1 b2]|] eqn:E2; [|done]. cbn [mbind option_bind] in H.
  injection H as <- ->. apply IH in E2. unfold decode_replay_entry, CHECKPOINT_REPLAY_ENTRY_SIZE in E1.
  step_in E1; [done|]. injection E1 as <- <-. rewrite length_drop in E2. bool_prop. unfold len in *. lia.
Qed.
