(* ===== verification/ControlCheckpointInv.v ===== *)
(** * What a checkpoint guarantees

    Encoding an owner and restoring the string into an unused owner of the same
    configuration gives back the control state, the replay verdicts and the log
    index; whatever string is restored, the owner it leaves is well formed. *)

From S2P Require Import Prelude Wire MgmtCrypto MgmtCodec MgmtEnvelope Replay.
From S2P Require Import ControlPrimitives ControlState ControlStateInv ControlSnapshot.
From S2P Require Import ControlChannel ControlOwner ControlCheckpoint ControlImport.

(** ** Arrays of exactly the needed size *)

(** [calloc] of [count] elements, NULL for none. *)
Definition arr {A} (l : list A) : option (list A) := match l with [] => None | _ => Some l end.

Lemma deref_arr {A} (l : list A) : deref [] (arr l) = l.
Proof. by destruct l. Qed.

Lemma arr_given {A} (l : list A) : negb (Z.of_nat (length l) =? 0) && negb (non_null (arr l)) = false.
Proof. by destruct l. Qed.

Lemma fill_arr {A} (z : A) l : fill (arr (replicate (length l) z)) l = arr l.
Proof.
  destruct l as [|x l]; [done|]. cbn [length replicate arr]. unfold fill. cbn [fmap option_fmap option_map].
  f_equal. rewrite drop_ge by (cbn [length]; rewrite length_replicate; lia). by rewrite app_nil_r.
Qed.

Lemma stored_arr {A} (z : A) l : stored (arr (replicate (length l) z)) l = arr l.
Proof. by destruct l. Qed.

Lemma allocate_arr {A} (z : A) (n : nat) size : Z.of_nat n <= 65536 → 0 <= size <= 65536 →
  allocate_array true (Z.of_nat n) size z = Some (arr (replicate n z)).
Proof.
  intros Hn Hs. unfold allocate_array, checked_multiply_size, SIZE_MAX.
  destruct (Z.eqb_spec (Z.of_nat n) 0) as [E|E]; cbn [negb andb]; [by destruct n|].
  replace (_ <? size) with false; [|symmetry; apply Z.ltb_ge; apply Z.div_le_lower_bound; nia].
  rewrite Nat2Z.id. by destruct n.
Qed.

(** ** The records of a well-formed owner *)

(** The fields of the structures fit their C types. *)
Record owner_typed (o : mesh_control_owner) (impl : mesh_control_state_impl)
    (l : list mesh_mgmt_replay_entry) : Prop := {
  ot_documents : Forall (λ s, Forall u8 (deref [] (rsl_desired_document s))) (im_resources impl);
  ot_operations : Forall (λ s, u64 (co_created_at_ms (osl_operation s)) ∧
    u64 (co_updated_at_ms (osl_operation s)) ∧ u64 (osl_terminal_expires_at_ms s)) (im_operations impl);
  ot_events : Forall (λ e, u64 (ev_recorded_at_ms e)) (ring_list impl);
  ot_entries : Forall (λ e, u64 (rx_expires_at_ms e)) l;
  ot_sequence : u64 (rg_last_sequence (ow_replay o));
  ot_binding : u64 (rb_principal_epoch (rg_binding (ow_replay o))) ∧
    u64 (rb_incarnation (rg_binding (ow_replay o)));
  ot_ids : bytes_ok 32 (oc_mesh_id (ow_config o)) ∧ bytes_ok 32 (oc_node_id (ow_config o)) }.

(** The owner's parts were built from its configuration. *)
Record owner_configured (o : mesh_control_owner) (impl : mesh_control_state_impl) : Prop := {
  oc_is_state : oc_state (ow_config o) = im_config impl;
  oc_is_replay : oc_replay (ow_config o) = rg_config (ow_replay o);
  oc_is_binding : oc_replay_binding (ow_config o) = rg_binding (ow_replay o);
  oc_bindable : rb_principal_key (rg_binding (ow_replay o)) ≠ zeros 32 ∧
    rb_session_id (rg_binding (ow_replay o)) ≠ zeros 16 }.

Definition occupied_entries (l : list mesh_mgmt_replay_entry) : list mesh_mgmt_replay_entry :=
  filter (λ e, occupied e = true) l.
Definition captured_snapshot (g : mesh_mgmt_replay_gate) (l : list mesh_mgmt_replay_entry) :
    mesh_mgmt_replay_snapshot :=
  mk_replay_snapshot (rg_binding g) (rg_last_sequence g) (rg_generation g)
    (Z.of_nat (length (occupied_entries l))) (rg_has_sequence g) (rg_bound g).
Definition captured (o : mesh_control_owner) (impl : mesh_control_state_impl)
    (l : list mesh_mgmt_replay_entry) : checkpoint_capture :=
  mk_capture (arr (checkpoint_resources impl)) (arr (checkpoint_operations impl))
    (arr (ring_list impl)) (arr (occupied_entries l)) (checkpoint_info impl)
    (captured_snapshot (ow_replay o) l).

Lemma small_kind k : resource_kind_valid k = true → u16 k.
Proof. unfold resource_kind_valid, uint. intros H. bool_prop. unfold MESH_CONTROL_RESOURCE_NODE,
  MESH_CONTROL_RESOURCE_RELEASE in *. lia. Qed.
Lemma small_state s : operation_state_valid s = true → u16 s.
Proof. unfold operation_state_valid, uint. intros H. bool_prop. unfold MESH_CONTROL_OPERATION_SUBMITTED,
  MESH_CONTROL_OPERATION_INTERRUPTED in *. lia. Qed.
Lemma small_presence p : presence_valid p = true → u16 p.
Proof. unfold presence_valid, MESH_CONTROL_PRESENCE_ABSENT, MESH_CONTROL_PRESENCE_PRESENT, uint.
  intros [?%Z.eqb_eq|?%Z.eqb_eq]%orb_true_iff; lia. Qed.

Section Owner.
Context (o : mesh_control_owner) (impl : mesh_control_state_impl) (l : list mesh_mgmt_replay_entry).
Context (Hok : owner_ok o impl l) (Hty : owner_typed o impl l).

Lemma checkpoint_resources_typed : Forall resource_record_typed (checkpoint_resources impl).
Proof.
  unfold checkpoint_resources. apply Forall_fmap. pose proof (io_config _ (oo_impl _ _ _ Hok)) as [].
  pose proof (occupied_resource_ok impl (oo_impl _ _ _ Hok)) as Hr. rewrite Forall_forall in Hr |- *.
  intros s Hs. destruct (Hr s Hs) as [Ho [Hk [Hi _] He Hd _ [? ?] Hobs _ Hdoc Hsz]].
  pose proof (ot_documents _ _ _ Hty) as Hu. rewrite Forall_forall in Hu.
  apply list_elem_of_filter in Hs as [_ Hs]. specialize (Hu s Hs). cbn in Hu.
  split; cbn [resource_record rr_status rr_document rr_document_size].
  - by apply small_kind.
  - split; [by apply small_presence|]. unfold coherent, MESH_CONTROL_PRESENCE_PRESENT,
      MESH_CONTROL_PRESENCE_ABSENT in Hobs. unfold uint. destruct Hobs as [[-> _]|[-> _]]; lia.
  - unfold uint. lia.
  - done.
  - destruct Hdoc as [?|(d & Ed & ? & ?)]; [by left|right]. exists d. rewrite Ed in Hu. done.
  - unfold uint. lia.
Qed.

Lemma checkpoint_operations_typed : Forall operation_record_typed (checkpoint_operations impl).
Proof.
  unfold checkpoint_operations. apply Forall_fmap.
  pose proof (occupied_operation_ok impl (oo_impl _ _ _ Hok)) as Hr. rewrite Forall_forall in Hr |- *.
  intros s Hs. destruct (Hr s Hs) as [Ho [[[Hi _] [Hq _] Hm Hk Ha [Hri _] Hd He Hst _] _]].
  pose proof (ot_operations _ _ _ Hty) as Hu. rewrite Forall_forall in Hu.
  apply list_elem_of_filter in Hs as [_ Hs]. destruct (Hu s Hs) as (? & ? & ?).
  split; cbn [operation_record or_operation or_terminal_expires_at_ms].
  - by rewrite Hm.
  - split_and!; [by apply small_kind| |by apply small_state].
    unfold MESH_CONTROL_DESIRED_APPLY, MESH_CONTROL_DESIRED_DELETE, uint in *. destruct Ha as [-> | ->]; lia.
  - done.
  - unfold uint in *. split_and!; try done; lia.
Qed.

Lemma ring_events_typed : Forall event_typed (ring_list impl).
Proof.
  pose proof (oo_impl _ _ _ Hok) as Hi. pose proof (io_events _ Hi) as He. pose proof (io_cursor _ Hi) as Hc.
  destruct (io_ring _ Hi) as [_ _ _ Hn]. pose proof (ring_list_length impl) as Hl.
  apply Forall_lookup. intros k e Hk. pose proof (io_cursors _ Hi _ _ Hk) as Hcur.
  pose proof (Forall_lookup_1 _ _ _ _ He Hk) as [[? _] ? ? [? _] Hep (i & s & Hs & Ho & _ & Hb)].
  pose proof (Forall_lookup_1 _ _ _ _ (ot_events _ _ _ Hty) Hk) as Ht.
  pose proof (resource_slot_at impl Hi _ _ Hs) as Hr. unfold resource_slot_ok in Hr. rewrite Ho in Hr.
  pose proof (ro_epochs _ _ Hr). apply lookup_lt_Some in Hk. split; [done|split|].
  - by apply small_kind.
  - by apply small_state.
  - unfold uint in *. split_and!; try done; lia.
Qed.

Lemma occupied_entries_typed : exportable (ow_replay o) l → Forall replay_entry_typed (occupied_entries l).
Proof.
  intros [Hg _ _ _ He _]. pose proof (go_ids _ _ Hg) as Hids. pose proof (ot_entries _ _ _ Hty) as Ht.
  rewrite !Forall_forall in *. intros e [Ho Hin]%list_elem_of_filter. specialize (He e Hin Ho).
  split; [by apply Hids|by apply Ht|apply He].
Qed.
End Owner.

(** ** Capturing an owner *)

Section Capture.
Context (o : mesh_control_owner) (impl : mesh_control_state_impl) (l : list mesh_mgmt_replay_entry).
Context (Hok : owner_ok o impl l).

Lemma checkpoint_counts : Z.of_nat (length (checkpoint_resources impl)) <= 4096 ∧
  Z.of_nat (length (checkpoint_operations impl)) <= 4096 ∧ Z.of_nat (length (ring_list impl)) <= 8192 ∧
  Z.of_nat (length (occupied_entries l)) <= 8192 ∧
  ck_resource_count (checkpoint_info impl) = Z.of_nat (length (checkpoint_resources impl)) ∧
  ck_operation_count (checkpoint_info impl) = Z.of_nat (length (checkpoint_operations impl)) ∧
  ck_event_count (checkpoint_info impl) = Z.of_nat (length (ring_list impl)).
Proof.
  pose proof (oo_impl _ _ _ Hok) as Hi. destruct (io_config _ Hi), (io_ring _ Hi).
  destruct (occupied_lengths impl) as (? & ? & ?); [done|]. pose proof (io_rlen _ Hi). pose proof (io_olen _ Hi).
  destruct (oo_gate _ _ _ Hok). pose proof (length_filter (λ e, occupied e = true) l).
  pose proof (ring_list_length impl) as Hl.
  unfold checkpoint_resources, checkpoint_operations, occupied_entries. rewrite !length_fmap.
  cbn [checkpoint_info ck_resource_count ck_operation_count ck_event_count].
  split_and!; (done || lia).
Qed.

Lemma export_exact :
  mesh_control_state_export_v1 (holds impl)
    (arr (replicate (length (checkpoint_resources impl)) zero_resource_record))
    (Z.of_nat (length (checkpoint_resources impl)))
    (arr (replicate (length (checkpoint_operations impl)) zero_operation_record))
    (Z.of_nat (length (checkpoint_operations impl)))
    (arr (replicate (length (ring_list impl)) zero_event)) (Z.of_nat (length (ring_list impl)))
    (Some zero_checkpoint_info) =
  (MESH_CONTROL_OK, arr (checkpoint_resources impl), arr (checkpoint_operations impl),
   arr (ring_list impl), Some (checkpoint_info impl)).
Proof.
  destruct checkpoint_counts as (_ & _ & _ & _ & H1 & H2 & H3). unfold mesh_control_state_export_v1.
  cbn [state_impl mbind option_bind cst_impl].
  assert (Hg : ∀ {A} (z : A) n, negb (Z.of_nat n =? 0) && negb (non_null (arr (replicate n z))) = false).
  { intros A z n. rewrite <- (length_replicate n z) at 1. apply arr_given. }
  rewrite !Hg. cbn [orb]. rewrite !count_filter. fold (occupied_resources impl) (occupied_operations impl).
  fold (ring_list impl). fold (checkpoint_resources impl) (checkpoint_operations impl).
  cbn [checkpoint_info ck_resource_count ck_operation_count ck_event_count] in H1, H2, H3.
  rewrite H1, H2, H3, !Z.ltb_irrefl. cbn [orb]. rewrite !fill_arr. unfold checkpoint_info.
  by rewrite H1, H2, H3.
Qed.

Lemma replay_export_exact n s0 : n = length (occupied_entries l) →
  mesh_mgmt_replay_export_v1 (Some (ow_replay o)) (arr (replicate n zero_replay_entry)) (Z.of_nat n)
    (Some s0) =
  (MESH_MGMT_REPLAY_OK, arr (occupied_entries l), Some (captured_snapshot (ow_replay o) l)).
Proof.
  intros ->. destruct (oo_gate _ _ _ Hok) as [He Hl Hc _ _ _ _]. unfold mesh_mgmt_replay_export_v1. rewrite He.
  rewrite take_ge by lia. rewrite count_occupied. fold (occupied_entries l). rewrite Nat2Z.id.
  unfold captured_snapshot. destruct (occupied_entries l) as [|e es]; [done|]. cbn [length replicate arr].
  rewrite (bool_decide_true (is_Some _)) by done. cbn [negb]. rewrite andb_false_r, Z.ltb_irrefl.
  cbn [fmap option_fmap option_map]. rewrite drop_ge by (cbn; rewrite length_replicate; lia).
  by rewrite app_nil_r.
Qed.

Lemma replay_export_count s0 : ∃ r, (r = MESH_MGMT_REPLAY_OK ∨ r = MESH_MGMT_REPLAY_RESOURCE_EXHAUSTED) ∧
  mesh_mgmt_replay_export_v1 (Some (ow_replay o)) None 0 (Some s0) =
    (r, None, Some (captured_snapshot (ow_replay o) l)).
Proof.
  destruct (oo_gate _ _ _ Hok) as [He Hl Hc _ _ _ _]. unfold mesh_mgmt_replay_export_v1. rewrite He.
  rewrite take_ge by lia. rewrite count_occupied. fold (occupied_entries l). cbn [Z.eqb negb andb].
  destruct (_ <? _); [by exists MESH_MGMT_REPLAY_RESOURCE_EXHAUSTED; auto|by exists MESH_MGMT_REPLAY_OK; auto].
Qed.

Lemma capture_spec : ow_preparation_active o = 0 →
  capture_owner memory_available (Some o) = (MESH_CONTROL_CHECKPOINT_OK, Some (captured o impl l)).
Proof.
  intros Hp. destruct checkpoint_counts as (? & ? & ? & ? & H1 & H2 & H3).
  unfold capture_owner. rewrite (oo_init _ _ _ Hok), Hp, (oo_state _ _ _ Hok). cbn [Z.eqb negb orb].
  cbn [mesh_control_state_get_usage_v1 state_impl mbind option_bind cst_impl memory_available al_resources
    al_operations al_events al_replay su_resource_count su_operation_count su_event_count].
  rewrite !count_filter. fold (occupied_resources impl) (occupied_operations impl).
  cbn [checkpoint_info ck_resource_count ck_operation_count ck_event_count] in H1, H2, H3.
  rewrite H1, H2, H3, !allocate_arr by (unfold SIZEOF_RESOURCE_RECORD, SIZEOF_OPERATION_RECORD, SIZEOF_EVENT; lia).
  rewrite export_exact. destruct (replay_export_count zero_replay_snapshot) as (r & Hr & ->).
  assert (Ea : allocate_array true (rs_entry_count (captured_snapshot (ow_replay o) l)) SIZEOF_REPLAY_ENTRY
    zero_replay_entry = Some (arr (replicate (length (occupied_entries l)) zero_replay_entry))).
  { apply allocate_arr; unfold SIZEOF_REPLAY_ENTRY; lia. }
  assert (Ex := replay_export_exact _ (captured_snapshot (ow_replay o) l) eq_refl).
  destruct Hr as [-> | ->]; rewrite Ea; cbn [rs_entry_count captured_snapshot]; rewrite Ex; done.
Qed.
End Capture.

(** ** The encoded string *)

Definition resource_section (impl : mesh_control_state_impl) : bytes :=
  concat (encode_resource <$> checkpoint_resources impl).
Definition operation_section (impl : mesh_control_state_impl) : bytes :=
  concat (encode_operation <$> checkpoint_operations impl).
Definition event_section (impl : mesh_control_state_impl) : bytes :=
  concat (encode_event <$> ring_list impl).
Definition replay_section (l : list mesh_mgmt_replay_entry) : bytes :=
  concat (encode_replay_entry <$> occupied_entries l).
Definition sections (impl : mesh_control_state_impl) (l : list mesh_mgmt_replay_entry) : bytes :=
  resource_section impl ++ operation_section impl ++ event_section impl ++ replay_section l.
Definition total_size (impl : mesh_control_state_impl) (l : list mesh_mgmt_replay_entry) : Z :=
  CHECKPOINT_HEADER_SIZE + len (sections impl l).

Lemma checked_add_small a b : 0 <= a → 0 <= b → a + b <= SIZE_MAX → checked_add_size a b = Some (a + b).
Proof. intros. unfold checked_add_size. by rewrite (proj2 (Z.ltb_ge _ _)) by lia. Qed.
Lemma checked_multiply_small a b : 0 <= a → 0 <= b → a * b <= SIZE_MAX →
  checked_multiply_size a b = Some (a * b).
Proof.
  intros. unfold checked_multiply_size. destruct (Z.eqb_spec a 0) as [->|]; [done|]. cbn [negb andb].
  rewrite (proj2 (Z.ltb_ge _ _)); [done|]. apply Z.div_le_lower_bound; lia.
Qed.

Lemma resources_size_spec rs : Forall resource_record_typed rs → ∀ acc, 0 <= acc →
  acc + len (concat (encode_resource <$> rs)) <= SIZE_MAX →
  resources_size rs acc = Some (acc + len (concat (encode_resource <$> rs))).
Proof.
  induction 1 as [|r rs Hr _ IH]; intros acc Ha Hb; [unfold len; cbn; f_equal; lia|].
  destruct (encode_resource_pieces r Hr) as (Ee & Hp & Hd). pose proof (rrt_size _ Hr) as Hs. unfold uint in Hs.
  assert (El : len (encode_resource r) = 128 + rr_document_size r).
  { rewrite Ee, <- Hd. unfold len. rewrite length_app, length_concat, Hp. change (sum_list _) with 128%nat. lia. }
  cbn [resources_size fmap list_fmap concat] in *.
  assert (Ec : len (encode_resource r ++ concat (encode_resource <$> rs)) =
    len (encode_resource r) + len (concat (encode_resource <$> rs))) by (unfold len; rewrite length_app; lia).
  rewrite Ec in *. assert (0 <= len (concat (encode_resource <$> rs))) by (unfold len; lia).
  unfold UINT32_MAX, CHECKPOINT_RESOURCE_HEADER_SIZE. rewrite (proj2 (Z.ltb_ge _ _)) by lia.
  rewrite checked_add_small by (unfold SIZE_MAX; lia). rewrite checked_add_small by lia.
  rewrite IH by lia. f_equal. lia.
Qed.

Lemma resource_section_len rs : Forall resource_record_typed rs →
  len (concat (encode_resource <$> rs)) =
    128 * Z.of_nat (length rs) + foldr (λ r n, rr_document_size r + n) 0 rs.
Proof.
  induction 1 as [|r rs Hr _ IH]; [done|].
  destruct (encode_resource_pieces r Hr) as (Ee & Hp & Hd).
  cbn [fmap list_fmap concat length foldr]. unfold len in *.
  rewrite length_app, Nat2Z.inj_add, IH, Ee, length_app, length_concat, Hp.
  change (sum_list _) with 128%nat. lia.
Qed.

Section Sizes.
Context (o : mesh_control_owner) (impl : mesh_control_state_impl) (l : list mesh_mgmt_replay_entry).
Context (Hok : owner_ok o impl l) (Hty : owner_typed o impl l) (Hex : exportable (ow_replay o) l).

Lemma section_sizes :
  len (operation_section impl) = Z.of_nat (length (checkpoint_operations impl)) * CHECKPOINT_OPERATION_SIZE ∧
  len (event_section impl) = Z.of_nat (length (ring_list impl)) * CHECKPOINT_EVENT_SIZE ∧
  len (replay_section l) = Z.of_nat (length (occupied_entries l)) * CHECKPOINT_REPLAY_ENTRY_SIZE ∧
  0 <= len (resource_section impl) <=
    128 * Z.of_nat (length (checkpoint_resources impl)) +
      sc_desired_document_retained_bytes (im_config impl).
Proof.
  unfold operation_section, event_section, replay_section, resource_section, CHECKPOINT_OPERATION_SIZE,
    CHECKPOINT_EVENT_SIZE, CHECKPOINT_REPLAY_ENTRY_SIZE.
  split_and!.
  - unfold len. rewrite (length_concat_const _ operation_record_typed 152); [lia| |by eapply checkpoint_operations_typed].
    intros x Hx. destruct (encode_operation_pieces x Hx) as [-> Hp]. by rewrite length_concat, Hp.
  - unfold len. rewrite (length_concat_const _ event_typed 80); [lia| |by eapply ring_events_typed].
    intros x Hx. destruct (encode_event_pieces x Hx) as [-> Hp]. by rewrite length_concat, Hp.
  - unfold len. rewrite (length_concat_const _ replay_entry_typed 24); [lia| |by eapply occupied_entries_typed].
    apply length_encode_replay_entry.
  - unfold len. lia.
  - rewrite resource_section_len by (by eapply checkpoint_resources_typed).
    pose proof (occupied_documents impl (oo_impl _ _ _ Hok)) as Hd.
    pose proof (io_budget _ (oo_impl _ _ _ Hok)) as Hb.
    assert (E : foldr (λ r n, rr_document_size r + n) 0 (checkpoint_resources impl) =
      doc_total (occupied_resources impl)).
    { unfold checkpoint_resources, doc_total. clear. induction (occupied_resources impl); cbn in *; lia. }
    lia.
Qed.

Lemma sections_len : len (sections impl l) = len (resource_section impl) + len (operation_section impl) +
  len (event_section impl) + len (replay_section l).
Proof. unfold sections, len. rewrite !length_app. lia. Qed.

Lemma total_size_bound : 256 <= total_size impl l <= MESH_CONTROL_CHECKPOINT_MAX_SIZE_V1.
Proof.
  destruct section_sizes as (H1 & H2 & H3 & H4). destruct (checkpoint_counts o impl l Hok) as (? & ? & ? & ? & _).
  destruct (io_config _ (oo_impl _ _ _ Hok)). unfold total_size. rewrite sections_len.
  unfold CHECKPOINT_HEADER_SIZE, MESH_CONTROL_CHECKPOINT_MAX_SIZE_V1, CHECKPOINT_OPERATION_SIZE,
    CHECKPOINT_EVENT_SIZE, CHECKPOINT_REPLAY_ENTRY_SIZE in *. lia.
Qed.

Lemma encoded_total : calculate_encoded_total (Z.of_nat (length (checkpoint_operations impl)))
    (Z.of_nat (length (ring_list impl))) (Z.of_nat (length (occupied_entries l)))
    (len (resource_section impl)) = Some (total_size impl l).
Proof.
  destruct section_sizes as (H1 & H2 & H3 & H4). destruct (checkpoint_counts o impl l Hok) as (? & ? & ? & ? & _).
  destruct (io_config _ (oo_impl _ _ _ Hok)).
  unfold calculate_encoded_total, CHECKPOINT_HEADER_SIZE, CHECKPOINT_OPERATION_SIZE, CHECKPOINT_EVENT_SIZE,
    CHECKPOINT_REPLAY_ENTRY_SIZE, SIZE_MAX in *.
  repeat (first [rewrite checked_add_small by (unfold SIZE_MAX; lia)
                |rewrite checked_multiply_small by (unfold SIZE_MAX; lia)]; cbn [mbind option_bind]).
  f_equal. unfold total_size, CHECKPOINT_HEADER_SIZE. rewrite sections_len. lia.
Qed.

Lemma calculate_sizes_spec : calculate_sizes (captured o impl l) =
  Some (len (resource_section impl), total_size impl l).
Proof.
  destruct (checkpoint_counts o impl l Hok) as (? & ? & ? & ? & E1 & E2 & E3). pose proof encoded_total as Ht.
  destruct section_sizes as (_ & _ & _ & H4). destruct (io_config _ (oo_impl _ _ _ Hok)).
  unfold calculate_sizes. cbn [captured cp_state_info cp_resources cp_replay_snapshot rs_entry_count captured_snapshot].
  rewrite E1, E2, E3, deref_arr, Nat2Z.id, take_ge by done.
  rewrite resources_size_spec by first [by eapply checkpoint_resources_typed | unfold SIZE_MAX, resource_section in *; lia].
  cbn [mbind option_bind]. rewrite Z.add_0_l. fold (resource_section impl). unfold calculate_encoded_total in Ht.
  repeat match type of Ht with
  | mbind _ ?x = _ => destruct x eqn:?; cbn [mbind option_bind] in Ht |- *; [|done]
  end. by rewrite Ht.
Qed.
End Sizes.

(** The encoded owner, with [d] in the place of the digest. *)
Definition encoded (o : mesh_control_owner) (impl : mesh_control_state_impl)
    (l : list mesh_mgmt_replay_entry) (d : bytes) : bytes :=
  (header_front o (captured o impl l) (len (resource_section impl)) (total_size impl l) ++ d) ++
  sections impl l.

Section Encode.
Context {SH : Sha256} {SL : Sha256Laws} {R : Ring}.
Context (o : mesh_control_owner) (impl : mesh_control_state_impl) (l : list mesh_mgmt_replay_entry).
Context (Hok : owner_ok o impl l) (Hty : owner_typed o impl l) (Hex : exportable (ow_replay o) l).

Lemma captured_binding : binding_typed o (cp_replay_snapshot (captured o impl l)).
Proof. split; [apply Hty|]. apply (go_binding _ _ (oo_gate _ _ _ Hok)). Qed.

Lemma encoded_len d : length d = 32%nat → len (encoded o impl l d) = total_size impl l.
Proof.
  intros Hd. unfold encoded, total_size, len, CHECKPOINT_HEADER_SIZE. rewrite !length_app, Hd.
  rewrite length_header_front by apply captured_binding. lia.
Qed.

(** The digest does not depend on the bytes in its own place. *)
Lemma encoded_digest d : length d = 32%nat →
  checkpoint_digest (encoded o impl l d) (total_size impl l) =
  checkpoint_digest (encoded o impl l (zeros 32)) (total_size impl l).
Proof.
  intros Hd. pose proof (total_size_bound o impl l Hok Hty Hex) as [Hb _].
  pose proof (length_header_front o _ (len (resource_section impl)) (total_size impl l) captured_binding) as Hh.
  unfold checkpoint_digest, encoded, CHECKPOINT_DIGEST_OFFSET, sub.
  rewrite !take_header_front by apply captured_binding.
  change (Z.to_nat CHECKPOINT_HEADER_SIZE) with 256%nat.
  rewrite (proj2 (drop_header _ d (sections impl l) Hh Hd)).
  by rewrite (proj2 (drop_header _ (zeros 32) (sections impl l) Hh eq_refl)).
Qed.

Lemma digest_size b size d : checkpoint_digest b size = Some d → bytes_ok 32 d.
Proof.
  unfold checkpoint_digest. intros H. step_in H; [done|]. destruct (SHA256 _) as [x|] eqn:Ex; [|done].
  step_in H; [|done]. injection H as <-. by eapply sha256_size.
Qed.

Lemma encode_sections_eq : encode_sections (captured o impl l) = sections impl l.
Proof.
  destruct (checkpoint_counts o impl l Hok) as (_ & _ & _ & _ & E1 & E2 & E3).
  unfold encode_sections, sections, resource_section, operation_section, event_section, replay_section.
  cbn [captured cp_state_info cp_resources cp_operations cp_events cp_replay_entries cp_replay_snapshot
    rs_entry_count captured_snapshot].
  rewrite E1, E2, E3, !deref_arr, !Nat2Z.id. by rewrite !take_ge by done.
Qed.

Lemma blit_digest d : length d = 32%nat →
  blit (encoded o impl l (zeros 32)) 224 d = encoded o impl l d.
Proof.
  intros Hd. pose proof (length_header_front o _ (len (resource_section impl)) (total_size impl l) captured_binding) as Hh.
  unfold blit, encoded. rewrite take_header_front by apply captured_binding. rewrite Hd. change (224 + 32)%nat with 256%nat.
  rewrite (proj2 (drop_header _ (zeros 32) (sections impl l) Hh eq_refl)). by rewrite <- app_assoc.
Qed.

Lemma encode_spec : ow_preparation_active o = 0 → (∀ m, is_Some (SHA256 m)) →
  ∃ d, bytes_ok 32 d ∧ checkpoint_digest (encoded o impl l d) (total_size impl l) = Some d ∧
  mesh_control_checkpoint_encode_v1 memory_available (Some o) (Some None) (Some 0) =
    (MESH_CONTROL_CHECKPOINT_OK, Some (Some (encoded o impl l d)), Some (total_size impl l)).
Proof.
  intros Hp Hsha. pose proof (total_size_bound o impl l Hok Hty Hex) as Hb.
  destruct (checkpoint_counts o impl l Hok) as (? & ? & ? & ? & E1 & E2 & E3).
  assert (Hd : ∃ d, checkpoint_digest (encoded o impl l (zeros 32)) (total_size impl l) = Some d).
  { unfold checkpoint_digest, CHECKPOINT_HEADER_SIZE. rewrite (proj2 (Z.ltb_ge _ _)) by lia.
    match goal with |- context [SHA256 ?m] => destruct (Hsha m) as [d Ed]; rewrite Ed end.
    apply sha256_size in Ed as [Ed _]. exists d. unfold len. by rewrite Ed. }
  destruct Hd as [d Hd]. pose proof (digest_size _ _ _ Hd) as Hsz. exists d. split; [done|].
  split; [by rewrite encoded_digest by apply Hsz|].
  unfold mesh_control_checkpoint_encode_v1. cbn [non_null assign fmap option_fmap option_map].
  rewrite (capture_spec o impl l Hok Hp). cbn [captured cp_state_info cp_replay_snapshot].
  rewrite E1, E2, E3. cbn [captured_snapshot rs_entry_count]. unfold UINT32_MAX.
  rewrite !(proj2 (Z.ltb_ge _ _)) by lia. change (non_null (Some _)) with true. cbn [negb orb].
  rewrite (calculate_sizes_spec o impl l Hok Hty Hex). rewrite (proj2 (Z.ltb_ge _ _)) by lia.
  cbn [memory_available al_bytes negb orb]. fold (captured_snapshot (ow_replay o) l). fold (captured o impl l).
  rewrite checkpoint_header_eq, header_front_eq, encode_sections_eq. fold (encoded o impl l (zeros 32)).
  rewrite encoded_len, Z.eqb_refl by done. cbn [negb]. rewrite Hd. unfold CHECKPOINT_DIGEST_OFFSET.
  by rewrite blit_digest by apply Hsz.
Qed.
End Encode.

(** ** Reading the encoded string *)

Lemma memeq_window n off (b x : bytes) : length x = n → memeq n (drop off b) x = bool_decide (sub b off n = x).
Proof. intros H. unfold memeq, sub. by rewrite (take_ge x) by lia. Qed.

Definition flag (b : Z) : Z := if b =? 0 then 0 else 1.

Lemma flags_of_spec s : u32 (flags_of s) ∧
  Z.land (flags_of s) (Z.lxor CHECKPOINT_KNOWN_FLAGS UINT32_MAX) = 0 ∧
  (if negb (Z.land (flags_of s) CHECKPOINT_FLAG_REPLAY_HAS_SEQUENCE =? 0) then 1 else 0) =
    flag (rs_has_sequence s) ∧
  (if negb (Z.land (flags_of s) CHECKPOINT_FLAG_REPLAY_BOUND =? 0) then 1 else 0) = flag (rs_bound s).
Proof.
  unfold flags_of, flag. destruct (rs_has_sequence s =? 0), (rs_bound s =? 0); cbn [negb];
    (split; [evaluate|done]).
Qed.

Section Read.
Context (o : mesh_control_owner) (impl : mesh_control_state_impl) (l : list mesh_mgmt_replay_entry).
Context (Hok : owner_ok o impl l) (Hty : owner_typed o impl l) (Hex : exportable (ow_replay o) l).
Context (d : bytes) (Hd : bytes_ok 32 d).
Abbreviation b := (encoded o impl l d).
Abbreviation pieces := (checkpoint_header_pieces o (captured o impl l) (len (resource_section impl))
  (total_size impl l) d).

Lemma encoded_pieces : b = concat pieces ++ sections impl l ∧ length <$> pieces = header_lengths.
Proof.
  split; [unfold encoded; by rewrite header_front_eq|].
  apply header_pieces_lengths; [by apply captured_binding|apply Hd].
Qed.

Lemma encoded_window k x off n : pieces !! k = Some x → off = sum_list (take k header_lengths) →
  header_lengths !! k = Some n → (off + n <= 256)%nat → sub b off n = x.
Proof.
  intros Hk Ho Hn Hle. destruct encoded_pieces as [-> Hp]. rewrite sub_front.
  - by eapply piece_at.
  - rewrite length_concat, Hp. change (sum_list header_lengths) with 256%nat. lia.
Qed.

(** The field at [off], which is piece [k]. *)
Ltac field k := erewrite (encoded_window k) by (first [reflexivity|lia]).

Lemma encoded_numbers :
  mesh_mgmt_wire_read_u32 (sub b 8 4) = MESH_CONTROL_CHECKPOINT_VERSION_V2 ∧
  mesh_mgmt_wire_read_u32 (sub b 12 4) = CHECKPOINT_HEADER_SIZE ∧
  mesh_mgmt_wire_read_u64 (sub b 16 8) = total_size impl l ∧
  mesh_mgmt_wire_read_u64 (sub b 208 8) = len (resource_section impl) ∧
  mesh_mgmt_wire_read_u64 (sub b 216 8) = ow_committed_log_index o ∧
  or_bytes (sub b 76 4) = 0.
Proof.
  pose proof (total_size_bound o impl l Hok Hty Hex) as Hb. unfold MESH_CONTROL_CHECKPOINT_MAX_SIZE_V1 in Hb.
  pose proof (sections_len impl l) as Hl. unfold total_size, CHECKPOINT_HEADER_SIZE in Hb.
  assert (∀ x : bytes, 0 <= len x) as Hp by (intros; unfold len; lia).
  pose proof (Hp (resource_section impl)). pose proof (Hp (operation_section impl)).
  pose proof (Hp (event_section impl)). pose proof (Hp (replay_section l)).
  field 1%nat. field 2%nat. field 3%nat. field 20%nat. field 21%nat. field 13%nat.
  rewrite !wire_read_write_u32, !wire_read_write_u64 by
    first [apply (oo_index _ _ _ Hok)|unfold total_size, CHECKPOINT_HEADER_SIZE, MESH_CONTROL_CHECKPOINT_VERSION_V2, uint in *; lia].
  by rewrite or_zeros.
Qed.

Lemma encoded_counts :
  mesh_mgmt_wire_read_u32 (sub b 24 4) = Z.of_nat (length (checkpoint_resources impl)) ∧
  mesh_mgmt_wire_read_u32 (sub b 28 4) = Z.of_nat (length (checkpoint_operations impl)) ∧
  mesh_mgmt_wire_read_u32 (sub b 32 4) = Z.of_nat (length (ring_list impl)) ∧
  mesh_mgmt_wire_read_u32 (sub b 36 4) = Z.of_nat (length (occupied_entries l)).
Proof.
  destruct (checkpoint_counts o impl l Hok) as (? & ? & ? & ? & E1 & E2 & E3).
  field 4%nat. field 5%nat. field 6%nat. field 7%nat.
  cbn [captured cp_state_info cp_replay_snapshot captured_snapshot rs_entry_count]. rewrite E1, E2, E3.
  by rewrite !wrap_small, !wire_read_write_u32 by (rewrite ?wrap_small; unfold uint; lia).
Qed.

Lemma encoded_info : decoded_info b = checkpoint_info impl.
Proof.
  destruct (checkpoint_counts o impl l Hok) as (_ & _ & _ & _ & E1 & E2 & E3).
  destruct encoded_counts as (C1 & C2 & C3 & _). pose proof (io_generation _ (oo_impl _ _ _ Hok)).
  pose proof (io_cursor _ (oo_impl _ _ _ Hok)). destruct (io_ring _ (oo_impl _ _ _ Hok)).
  unfold decoded_info. rewrite C1, C2, C3, <- E1, <- E2, <- E3. field 8%nat. field 9%nat.
  cbn [captured cp_state_info checkpoint_info ck_snapshot_generation ck_next_event_cursor
    ck_resource_count ck_operation_count ck_event_count].
  by rewrite !wire_read_write_u64 by (unfold uint; lia).
Qed.

Lemma encoded_flags : mesh_mgmt_wire_read_u32 (sub b 72 4) = flags_of (captured_snapshot (ow_replay o) l).
Proof. field 12%nat. apply wire_read_write_u32. apply flags_of_spec. Qed.

Lemma encoded_snapshot : decoded_snapshot b = captured_snapshot (ow_replay o) l.
Proof.
  destruct encoded_counts as (_ & _ & _ & C4). destruct (flags_of_spec (captured_snapshot (ow_replay o) l)) as (_ & _ & F1 & F2).
  destruct (ot_binding _ _ _ Hty), Hex as [Hg Hb _ Hs _ _].
  unfold decoded_snapshot. rewrite encoded_flags, C4, F1, F2.
  field 16%nat. field 17%nat. field 18%nat. field 19%nat. field 10%nat. field 11%nat.
  cbn [captured cp_replay_snapshot captured_snapshot rs_binding rs_last_sequence rs_generation rs_has_sequence rs_bound].
  rewrite !wire_read_write_u64 by first [done|apply (ot_sequence _ _ _ Hty)|apply (go_generation _ _ Hg)].
  rewrite Hb. unfold captured_snapshot. rewrite Hb.
  replace (flag (rg_has_sequence (ow_replay o))) with (rg_has_sequence (ow_replay o))
    by (destruct Hs as [-> |(-> & _)]; done).
  by destruct (rg_binding (ow_replay o)).
Qed.

Lemma encoded_ids :
  memeq 8 b checkpoint_magic = true ∧
  memeq 32 (drop 80 b) (oc_mesh_id (ow_config o)) = true ∧
  memeq 32 (drop 112 b) (oc_node_id (ow_config o)) = true ∧
  memeq 32 (drop 144 b) (rb_principal_key (rg_binding (ow_replay o))) = true ∧
  mesh_mgmt_wire_read_u64 (sub b 176 8) = rb_principal_epoch (rg_binding (ow_replay o)) ∧
  mesh_mgmt_wire_read_u64 (sub b 184 8) = rb_incarnation (rg_binding (ow_replay o)) ∧
  memeq 16 (drop 192 b) (rb_session_id (rg_binding (ow_replay o))) = true ∧
  memeq 32 d (drop 224 b) = true.
Proof.
  destruct (captured_binding o impl l Hok Hty) as [[[? _] [? _]] [[? _] [? _]]]. destruct (ot_binding _ _ _ Hty).
  cbn [captured cp_replay_snapshot captured_snapshot rs_binding] in *.
  rewrite <- (drop_0 b) at 1. rewrite !memeq_window by done.
  field 0%nat. field 14%nat. field 15%nat. field 16%nat. field 17%nat. field 18%nat. field 19%nat.
  cbn [captured cp_replay_snapshot captured_snapshot rs_binding]. rewrite !wire_read_write_u64 by done.
  rewrite !bool_decide_eq_true_2 by done. split_and!; try done.
  unfold memeq. apply bool_decide_eq_true. change (take 32 (drop 224 b)) with (sub b 224 32).
  field 22%nat. apply take_ge. destruct Hd; lia.
Qed.
End Read.

Section Decode.
Context {SH : Sha256} {SL : Sha256Laws} {R : Ring}.
Context (o : mesh_control_owner) (impl : mesh_control_state_impl) (l : list mesh_mgmt_replay_entry).
Context (Hok : owner_ok o impl l) (Hty : owner_typed o impl l) (Hex : exportable (ow_replay o) l).
Context (d : bytes) (Hd : bytes_ok 32 d).
Context (Hdig : checkpoint_digest (encoded o impl l d) (total_size impl l) = Some d).
Abbreviation b := (encoded o impl l d).

Lemma encoded_whole : take (Z.to_nat (total_size impl l)) b = b.
Proof.
  pose proof (encoded_len o impl l Hok Hty d (proj1 Hd)) as H. unfold len in H. rewrite <- H, Nat2Z.id.
  by apply take_ge.
Qed.

Lemma decode_sections_spec :
  decode_sections b (len (resource_section impl)) (Z.of_nat (length (checkpoint_resources impl)))
    (Z.of_nat (length (checkpoint_operations impl))) (Z.of_nat (length (ring_list impl))) =
  Some (checkpoint_resources impl, checkpoint_operations impl, ring_list impl, replay_section l).
Proof.
  unfold decode_sections. change (Z.to_nat CHECKPOINT_HEADER_SIZE) with 256%nat. unfold encoded.
  rewrite (proj2 (drop_header _ _ _ (length_header_front _ _ _ _ (captured_binding o impl l Hok Hty)) (proj1 Hd))).
  unfold len, sections. rewrite !Nat2Z.id. rewrite take_app_length, drop_app_length.
  rewrite <- (app_nil_r (resource_section impl)).
  unfold resource_section at 1, operation_section, event_section.
  rewrite (decode_records_concat _ _ resource_record_typed); [|apply decode_encode_resource|by eapply checkpoint_resources_typed].
  cbn [mbind option_bind]. rewrite bool_decide_true by done. cbn [negb].
  rewrite (decode_records_concat _ _ operation_record_typed); [|apply decode_encode_operation|by eapply checkpoint_operations_typed].
  cbn [mbind option_bind].
  rewrite (decode_records_concat _ _ event_typed); [done|apply decode_encode_event|by eapply ring_events_typed].
Qed.

Lemma decode_checkpoint_spec : decode_checkpoint b =
  Some (checkpoint_resources impl, checkpoint_operations impl, ring_list impl, occupied_entries l).
Proof.
  destruct (encoded_counts o impl l Hok Hty d Hd) as (C1 & C2 & C3 & C4).
  destruct (encoded_numbers o impl l Hok Hty Hex d Hd) as (_ & _ & _ & N4 & _).
  unfold decode_checkpoint. rewrite C1, C2, C3, C4, N4, decode_sections_spec. cbn [mbind option_bind].
  rewrite Nat2Z.id. unfold replay_section. rewrite <- (app_nil_r (concat _)).
  rewrite (decode_records_concat _ _ replay_entry_typed);
    [done|apply decode_encode_replay_entry|by eapply occupied_entries_typed].
Qed.

Lemma digest_matches_encoded : digest_matches b (total_size impl l) = true.
Proof. unfold digest_matches. rewrite Hdig. by apply encoded_ids. Qed.

Lemma committed_index_spec :
  mesh_control_checkpoint_committed_log_index_v1 (Some b) (total_size impl l) (Some 0) =
    (MESH_CONTROL_CHECKPOINT_OK, Some (ow_committed_log_index o)).
Proof.
  pose proof (total_size_bound o impl l Hok Hty Hex) as Hb.
  destruct (encoded_counts o impl l Hok Hty d Hd) as (C1 & C2 & C3 & C4).
  destruct (encoded_numbers o impl l Hok Hty Hex d Hd) as (N1 & N2 & N3 & N4 & N5 & N6).
  destruct (encoded_ids o impl l Hok Hty d Hd) as (I1 & _).
  destruct (flags_of_spec (captured_snapshot (ow_replay o) l)) as (_ & F & _).
  destruct (section_sizes o impl l Hok Hty Hex) as (_ & _ & S3 & S4).
  destruct (checkpoint_counts o impl l Hok) as (? & ? & ? & ? & _). destruct (io_config _ (oo_impl _ _ _ Hok)).
  unfold mesh_control_checkpoint_committed_log_index_v1. cbn [assign fmap option_fmap option_map].
  change (non_null (Some _)) with true. cbn [negb orb]. unfold CHECKPOINT_HEADER_SIZE at 1.
  rewrite (proj2 (Z.ltb_ge (total_size impl l) _)), (proj2 (Z.ltb_ge _ (total_size impl l))) by lia.
  cbn [orb]. rewrite I1, N1, N2, N3, N4, N5, N6, C1, C2, C3, C4, !Z.eqb_refl. cbn [negb orb].
  rewrite (proj2 (Z.ltb_ge SIZE_MAX _)) by (unfold SIZE_MAX; lia). cbn [negb orb].
  rewrite (encoded_flags o impl l Hok Hty d Hd), F, Z.eqb_refl, (encoded_total o impl l Hok Hty Hex).
  rewrite bool_decide_true, digest_matches_encoded by done. cbn [negb orb].
  rewrite encoded_whole, decode_sections_spec, S3.
  rewrite wrap_small by (unfold uint, CHECKPOINT_REPLAY_ENTRY_SIZE; lia). by rewrite Z.eqb_refl.
Qed.

(** ** Restoring the encoded string *)

Lemma restore_accepts o' : ow_config o' = ow_config o → owner_configured o impl →
  restore_refused o' b (total_size impl l) = None.
Proof.
  intros Hc Hcf. destruct Hcf as [K1 K2 K3 _].
  destruct (encoded_counts o impl l Hok Hty d Hd) as (C1 & C2 & C3 & C4).
  destruct (encoded_numbers o impl l Hok Hty Hex d Hd) as (N1 & N2 & N3 & N4 & N5 & N6).
  destruct (encoded_ids o impl l Hok Hty d Hd) as (I1 & I2 & I3 & I4 & I5 & I6 & I7 & I8).
  destruct (flags_of_spec (captured_snapshot (ow_replay o) l)) as (_ & F & _).
  destruct (section_sizes o impl l Hok Hty Hex) as (_ & _ & _ & S4).
  destruct (checkpoint_counts o impl l Hok) as (? & ? & ? & ? & _).
  pose proof (oo_impl _ _ _ Hok) as Hi. destruct (io_config _ Hi), (io_ring _ Hi).
  destruct (occupied_lengths impl Hi) as (L1 & L2 & L3). pose proof (io_rlen _ Hi). pose proof (io_olen _ Hi).
  destruct (oo_gate _ _ _ Hok) as [_ G2 _ _ _ _ _]. pose proof (length_filter (λ e, occupied e = true) l) as L4.
  fold (occupied_entries l) in L4.
  unfold restore_refused. rewrite Hc, K1, K2, K3, I1, N1, N2, N3, N4, N6, C1, C2, C3, C4, !Z.eqb_refl.
  cbn [negb orb andb]. change (MESH_CONTROL_CHECKPOINT_VERSION_V2 =? MESH_CONTROL_CHECKPOINT_VERSION_V1) with false.
  cbn [negb orb andb]. rewrite (proj2 (Z.ltb_ge SIZE_MAX _)) by (unfold SIZE_MAX; lia). cbn [orb].
  unfold CHECKPOINT_RESOURCE_HEADER_SIZE.
  rewrite checked_multiply_small by (unfold SIZE_MAX; lia). cbn [mbind option_bind].
  rewrite checked_add_small by (unfold SIZE_MAX; lia).
  rewrite (encoded_flags o impl l Hok Hty d Hd), F, Z.eqb_refl, (encoded_total o impl l Hok Hty Hex).
  rewrite bool_decide_true, digest_matches_encoded by done.
  assert (length (checkpoint_resources impl) = length (occupied_resources impl)) by apply length_fmap.
  assert (length (checkpoint_operations impl) = length (occupied_operations impl)) by apply length_fmap.
  rewrite !(proj2 (Z.ltb_ge _ _)) by lia. cbn [negb orb].
  rewrite I2, I3, I4, I5, I6, I7, !Z.eqb_refl. done.
Qed.
End Decode.

Lemma import_arr a st info rs os es : ck_resource_count info = Z.of_nat (length rs) →
  ck_operation_count info = Z.of_nat (length os) → ck_event_count info = Z.of_nat (length es) →
  mesh_control_state_import_v1 a st (Some info) (arr rs) (arr os) (arr es) =
  mesh_control_state_import_v1 a st (Some info) (Some rs) (Some os) (Some es).
Proof.
  intros E1 E2 E3. unfold mesh_control_state_import_v1. destruct (state_impl st); [|done].
  rewrite E1, E2, E3, !arr_given, !deref_arr. change (non_null (Some _)) with true. cbn [negb].
  by rewrite !andb_false_r.
Qed.

Lemma replay_import_arr g s es now : rs_entry_count s = Z.of_nat (length es) →
  mesh_mgmt_replay_import_v1 (Some g) (Some s) (arr es) now =
  mesh_mgmt_replay_import_v1 (Some g) (Some s) (Some es) now.
Proof.
  intros E. unfold mesh_mgmt_replay_import_v1. destruct (rg_entries g); [|done].
  rewrite deref_arr. fold (non_null (arr es)). fold (non_null (Some es)). rewrite E, arr_given.
  change (non_null (Some es)) with true. cbn [negb]. by rewrite !andb_false_r.
Qed.

Definition bound_gate (c : mesh_mgmt_replay_config) (bd : mesh_mgmt_replay_binding) : mesh_mgmt_replay_gate :=
  mk_gate c bd (Some (replicate (Z.to_nat (rc_capacity c)) zero_replay_entry)) 0 1 0 1.

Lemma targets_sound al o st g : owner_config_typed (ow_config o) →
  initialize_restore_targets al o = Some (st, g) →
  st = mk_control_state (Some (fresh_impl (oc_state (ow_config o)))) ∧
  impl_ok (fresh_impl (oc_state (ow_config o))) ∧
  g = bound_gate (oc_replay (ow_config o)) (oc_replay_binding (ow_config o)) ∧
  fresh_gate g (replicate (Z.to_nat (rc_capacity (oc_replay (ow_config o)))) zero_replay_entry) ∧
  rb_principal_key (oc_replay_binding (ow_config o)) ≠ zeros 32 ∧
  rb_session_id (oc_replay_binding (ow_config o)) ≠ zeros 16.
Proof.
  intros [Hst [Hc Ht] [Hk Hs] _] H. unfold initialize_restore_targets in H.
  destruct (mesh_control_state_init_v1 _ _ _) as [r st1] eqn:E1. destruct r; try done. destruct st1 as [st1|]; [|done].
  destruct (init_ok _ _ _ Hst E1) as (impl & Ei & Hi & _). apply init_fresh in E1. injection E1 as ->.
  injection Ei as <-. unfold mesh_mgmt_replay_init_v1 in H. step_in H; [by destruct (al_gate al)|].
  step_in H; [done|]. cbn [mesh_mgmt_replay_bind_v1 rg_entries] in H. step_in H; [done|]. injection H as <- <-.
  split; [done|]. split; [done|]. split; [done|]. rewrite (zero_test 32), (zero_test 16) in * by done.
  unfold MESH_MGMT_REPLAY_CACHE_MAX, MESH_MGMT_REPLAY_TTL_MAX_MS in *. bool_prop. split; [|done].
  split; [|done|split_and!; [done..|by apply Forall_replicate]].
  split; cbn; try done; try lia.
  - rewrite length_replicate. lia.
  - apply Forall_replicate, zeros_ok.
Qed.

Lemma init_accepts c : config_ok c →
  mesh_control_state_init_v1 true (Some (mk_control_state None)) (Some c) = (MESH_CONTROL_OK, holds (fresh_impl c)).
Proof.
  intros []. unfold mesh_control_state_init_v1. cbn [cst_impl]. change (non_null None) with false.
  unfold MESH_CONTROL_STATE_MAX_RESOURCES_V1, MESH_CONTROL_STATE_MAX_OPERATIONS_V1,
    MESH_CONTROL_STATE_MAX_EVENTS_V1, MESH_CONTROL_STATE_MAX_DESIRED_DOCUMENT_SIZE_V1,
    MESH_CONTROL_MAX_FRAME_SIZE_V1, MESH_CONTROL_STATE_MAX_RETAINED_DOCUMENT_BYTES_V1,
    MESH_CONTROL_OUTBOX_MAX_RETAINED_BYTES_V1.
  rewrite !(proj2 (Z.eqb_neq _ _)) by lia. rewrite !(proj2 (Z.ltb_ge _ _)) by lia. done.
Qed.

Lemma targets_live o impl l : owner_ok o impl l → owner_configured o impl →
  initialize_restore_targets memory_available o =
    Some (mk_control_state (Some (fresh_impl (im_config impl))),
          bound_gate (rg_config (ow_replay o)) (rg_binding (ow_replay o))).
Proof.
  intros Hok [K1 K2 K3 [Kp Ks]]. destruct (oo_gate _ _ _ Hok) as [_ _ Hc Ht _ [Hk Hs] _].
  unfold initialize_restore_targets. rewrite K1, K2, K3.
  rewrite init_accepts by apply (io_config _ (oo_impl _ _ _ Hok)).
  unfold mesh_mgmt_replay_init_v1, MESH_MGMT_REPLAY_CACHE_MAX, MESH_MGMT_REPLAY_TTL_MAX_MS.
  rewrite !(proj2 (Z.eqb_neq _ _)) by lia. rewrite !(proj2 (Z.ltb_ge _ _)) by lia.
  cbn [orb memory_available al_gate negb mesh_mgmt_replay_bind_v1 rg_entries].
  rewrite !(zero_test 32), !(zero_test 16) by done. by rewrite !bool_decide_eq_false_2.
Qed.

Lemma bound_gate_fresh o impl l : owner_ok o impl l →
  fresh_gate (bound_gate (rg_config (ow_replay o)) (rg_binding (ow_replay o)))
    (replicate (Z.to_nat (rc_capacity (rg_config (ow_replay o)))) zero_replay_entry).
Proof.
  intros Hok. destruct (oo_gate _ _ _ Hok) as [_ _ Hc Ht _ Hb _].
  split; [|done|split_and!; [done..|by apply Forall_replicate]]. split; cbn; try done.
  - rewrite length_replicate. lia.
  - apply Forall_replicate, zeros_ok.
Qed.

Section Restore.
Context {SH : Sha256} {SL : Sha256Laws} {R : Ring}.
Context (o : mesh_control_owner) (impl : mesh_control_state_impl) (l : list mesh_mgmt_replay_entry).
Context (Hok : owner_ok o impl l) (Hty : owner_typed o impl l) (Hex : exportable (ow_replay o) l).
Context (Hcf : owner_configured o impl).
Context (d : bytes) (Hd : bytes_ok 32 d).
Context (Hdig : checkpoint_digest (encoded o impl l d) (total_size impl l) = Some d).

Definition restored_gate (now : Z) : mesh_mgmt_replay_gate :=
  let g := ow_replay o in
  mk_gate (rg_config g) (rg_binding g) (Some (Replay.restored now l)) (rg_last_sequence g)
    (rg_generation g + 1) (rg_has_sequence g) 1.

Lemma restore_spec o' inbound now : ow_config o' = ow_config o → owner_unused o' inbound = true →
  mesh_control_checkpoint_restore_v1 memory_available (Some o') inbound (Some (encoded o impl l d))
    (total_size impl l) now =
  if import_checks impl
  then (MESH_CONTROL_CHECKPOINT_OK,
        Some (o' |> set_ow_state (mk_control_state (Some (restored impl)))
                 |> set_ow_replay (restored_gate now)
                 |> set_ow_log_index (ow_committed_log_index o)))
  else (MESH_CONTROL_CHECKPOINT_CORRUPT, Some o').
Proof.
  intros Hc Hu. pose proof (total_size_bound o impl l Hok Hty Hex) as Hb.
  destruct (encoded_counts o impl l Hok Hty d Hd) as (C1 & C2 & C3 & C4).
  destruct (encoded_numbers o impl l Hok Hty Hex d Hd) as (N1 & _ & _ & _ & N5 & _).
  destruct (checkpoint_counts o impl l Hok) as (? & ? & ? & ? & E1 & E2 & E3).
  unfold mesh_control_checkpoint_restore_v1. unfold CHECKPOINT_HEADER_SIZE.
  rewrite (proj2 (Z.ltb_ge (total_size impl l) _)), (proj2 (Z.ltb_ge _ (total_size impl l))) by lia.
  cbn [orb]. rewrite Hu, (restore_accepts o impl l Hok Hty Hex d Hd Hdig o' Hc Hcf). cbn [negb].
  rewrite C1, C2, C3, C4. cbn [memory_available al_resources al_operations al_events al_replay al_documents].
  rewrite !allocate_arr by (unfold SIZEOF_RESOURCE_RECORD, SIZEOF_OPERATION_RECORD, SIZEOF_EVENT, SIZEOF_REPLAY_ENTRY; lia).
  rewrite (encoded_whole o impl l Hok Hty d Hd), (decode_checkpoint_spec o impl l Hok Hty Hex d Hd).
  assert (Ht : initialize_restore_targets memory_available o' = initialize_restore_targets memory_available o).
  { unfold initialize_restore_targets. by rewrite Hc. }
  rewrite Ht, (targets_live o impl l Hok Hcf), !stored_arr.
  rewrite (encoded_info o impl l Hok Hty d Hd), (encoded_snapshot o impl l Hok Hty Hex d Hd).
  rewrite import_arr, replay_import_arr by done.
  pose proof (import_checkpoint impl (oo_impl _ _ _ Hok) [] [] []) as Hi. rewrite !app_nil_r in Hi. cbv zeta in Hi.
  rewrite Hi. pose proof (import_restores (ow_replay o) l _ _ now [] Hex (bound_gate_fresh o impl l Hok) eq_refl eq_refl) as Hr.
  cbv zeta in Hr. rewrite app_nil_r in Hr. unfold captured_snapshot, occupied_entries. rewrite Hr, N1, N5, Z.eqb_refl.
  by destruct (import_checks impl).
Qed.
End Restore.

(** ** Restoring any string *)

Section Sound.
Context {SH : Sha256} {R : Ring}.

(** What the checks before the allocation establish. *)
Lemma restore_header o b size : restore_refused o b size = None →
  memeq 8 b checkpoint_magic = true ∧
  (mesh_mgmt_wire_read_u32 (sub b 8 4) = MESH_CONTROL_CHECKPOINT_VERSION_V1 ∨
   mesh_mgmt_wire_read_u32 (sub b 8 4) = MESH_CONTROL_CHECKPOINT_VERSION_V2) ∧
  mesh_mgmt_wire_read_u32 (sub b 12 4) = CHECKPOINT_HEADER_SIZE ∧ or_bytes (sub b 76 4) = 0 ∧
  mesh_mgmt_wire_read_u64 (sub b 16 8) = size ∧ mesh_mgmt_wire_read_u64 (sub b 208 8) <= SIZE_MAX ∧
  Z.land (mesh_mgmt_wire_read_u32 (sub b 72 4)) (Z.lxor CHECKPOINT_KNOWN_FLAGS UINT32_MAX) = 0 ∧
  mesh_mgmt_wire_read_u32 (sub b 36 4) <= rc_capacity (oc_replay (ow_config o)) ∧
  calculate_encoded_total (mesh_mgmt_wire_read_u32 (sub b 28 4)) (mesh_mgmt_wire_read_u32 (sub b 32 4))
    (mesh_mgmt_wire_read_u32 (sub b 36 4)) (mesh_mgmt_wire_read_u64 (sub b 208 8)) = Some size ∧
  digest_matches b size = true ∧
  memeq 32 (drop 80 b) (oc_mesh_id (ow_config o)) = true ∧
  memeq 32 (drop 112 b) (oc_node_id (ow_config o)) = true ∧
  memeq 32 (drop 144 b) (rb_principal_key (oc_replay_binding (ow_config o))) = true ∧
  memeq 16 (drop 192 b) (rb_session_id (oc_replay_binding (ow_config o))) = true.
Proof.
  intros H. unfold restore_refused in H. step_in H; [done|]. step_in H; [done|].
  destruct (checked_multiply_size _ _) as [hs|]; cbn [mbind option_bind] in H; [|done].
  destruct (checked_add_size _ _) as [ms|]; [|done]. repeat (step_in H; [done|]). bool_prop.
  split_and!; try done.
  destruct (Z.eqb_spec (mesh_mgmt_wire_read_u32 (sub b 8 4)) MESH_CONTROL_CHECKPOINT_VERSION_V1); [by left|right].
  cbn [negb andb] in *. by bool_prop.
Qed.
End Sound.

Lemma sub_take k (b : bytes) off n : (off + n <= k)%nat → sub (take k b) off n = sub b off n.
Proof. intros H. unfold sub. rewrite skipn_firstn_comm, firstn_firstn. f_equal. lia. Qed.

Lemma allocate_shape {A} a n size (z : A) buf xs : u32 n → allocate_array a n size z = Some buf →
  Z.of_nat (length xs) = n → stored buf xs = arr xs.
Proof.
  intros Hn H Hl. unfold allocate_array in H. destruct (checked_multiply_size _ _); [|done]. step_in H.
  - injection H as <-. bool_prop. destruct xs; [done|cbn in Hl; lia].
  - step_in H; [|done]. injection H as <-. bool_prop. destruct xs; [cbn in Hl; lia|done].
Qed.

(** The four sections of a string that decodes. *)
Record decoded (b : bytes) (rs : list mesh_control_state_resource_record)
    (os : list mesh_control_state_operation_record) (es : list mesh_control_event)
    (xs : list mesh_mgmt_replay_entry) (rest : bytes) : Prop := {
  de_sections : decode_sections b (mesh_mgmt_wire_read_u64 (sub b 208 8)) (mesh_mgmt_wire_read_u32 (sub b 24 4))
    (mesh_mgmt_wire_read_u32 (sub b 28 4)) (mesh_mgmt_wire_read_u32 (sub b 32 4)) = Some (rs, os, es, rest);
  de_rest : Z.of_nat (length rest) = mesh_mgmt_wire_read_u32 (sub b 36 4) * CHECKPOINT_REPLAY_ENTRY_SIZE;
  de_info : info_typed (decoded_info b) rs os es;
  de_entries : Z.of_nat (length xs) = mesh_mgmt_wire_read_u32 (sub b 36 4) ∧ Forall replay_entry_typed xs }.

Lemma decode_checkpoint_sound b rs os es xs : Forall u8 b → 256 <= len b →
  decode_checkpoint b = Some (rs, os, es, xs) → ∃ rest, decoded b rs os es xs rest.
Proof.
  intros Hb Hl H. unfold decode_checkpoint in H.
  destruct (decode_sections _ _ _ _ _) as [[[[rs1 os1] es1] rest]|] eqn:E; [|done]. cbn [mbind option_bind] in H.
  destruct (decode_records decode_replay_entry _ rest) as [[xs1 rest1]|] eqn:Ex; [|done].
  cbn [mbind option_bind] in H. step_in H; [done|]. injection H as <- <- <- <-. bool_prop. subst rest1.
  pose proof E as E'. unfold decode_sections in E'.
  destruct (decode_records decode_resource _ _) as [[rs2 r1]|] eqn:E1; [|done]. cbn [mbind option_bind] in E'.
  step_in E'; [done|].
  destruct (decode_records decode_operation _ _) as [[os2 r2]|] eqn:E2; [|done]. cbn [mbind option_bind] in E'.
  destruct (decode_records decode_event _ _) as [[es2 r3]|] eqn:E3; [|done]. cbn [mbind option_bind] in E'.
  injection E' as -> -> -> ->.
  apply (decode_records_sound _ resource_record_typed) in E1 as (L1 & F1 & _);
    [|apply decode_resource_sound|by apply Forall_take, Forall_drop].
  apply (decode_records_sound _ operation_record_typed) in E2 as (L2 & F2 & Hr2);
    [|apply decode_operation_sound|by do 2 apply Forall_drop].
  apply (decode_records_sound _ event_typed) in E3 as (L3 & F3 & Hr3); [|apply decode_event_sound|done].
  pose proof (decode_replay_length _ _ _ Ex) as Hlen.
  apply (decode_records_sound _ replay_entry_typed) in Ex as (L4 & F4 & _); [|apply decode_replay_entry_sound|done].
  pose proof (wire_read_u32_range (sub b 24 4)). pose proof (wire_read_u32_range (sub b 28 4)).
  pose proof (wire_read_u32_range (sub b 32 4)). pose proof (wire_read_u32_range (sub b 36 4)). unfold uint in *.
  exists rest. split; [done|unfold CHECKPOINT_REPLAY_ENTRY_SIZE; lia| |split; [lia|done]].
  split; cbn [decoded_info ck_snapshot_generation ck_next_event_cursor ck_resource_count ck_operation_count ck_event_count].
  - split; apply (read_u64_window 256); (done || lia).
  - split; [lia|done].
  - split; [lia|done].
  - split; [lia|done].
Qed.

(** The call returned an error and left the owner alone. *)
Ltac refused H := left; injection H as <- <-; split; [discriminate|reflexivity].

Section Success.
Context {SH : Sha256} {R : Ring}.
Context (al : allocations) (o : mesh_control_owner) (inbound : option mesh_control_channel).
Context (b : bytes) (size now : Z) (Hb : Forall u8 b) (Hsz : size <= len b).
Context (Hcf : owner_config_typed (ow_config o)).
Abbreviation s := (take (Z.to_nat size) b).

Lemma restore_success r o2 :
  mesh_control_checkpoint_restore_v1 al (Some o) inbound (Some b) size now = (r, o2) →
  (r ≠ MESH_CONTROL_CHECKPOINT_OK ∧ o2 = Some o) ∨
  r = MESH_CONTROL_CHECKPOINT_OK ∧ 256 <= size <= MESH_CONTROL_CHECKPOINT_MAX_SIZE_V1 ∧
  restore_refused o b size = None ∧
  ∃ rs os es xs rest impl' g' l', decoded s rs os es xs rest ∧ impl_ok impl' ∧
    im_config impl' = oc_state (ow_config o) ∧ gate_ok g' l' ∧ rg_bound g' = 1 ∧
    rg_config g' = oc_replay (ow_config o) ∧ rg_binding g' = oc_replay_binding (ow_config o) ∧
    rb_principal_key (rg_binding g') ≠ zeros 32 ∧ rb_session_id (rg_binding g') ≠ zeros 16 ∧
    o2 = Some (o |> set_ow_state (mk_control_state (Some impl')) |> set_ow_replay g'
                 |> set_ow_log_index
                      (if mesh_mgmt_wire_read_u32 (sub b 8 4) =? MESH_CONTROL_CHECKPOINT_VERSION_V2
                       then mesh_mgmt_wire_read_u64 (sub b 216 8) else 0)).
Proof.
  intros H. unfold mesh_control_checkpoint_restore_v1 in H.
  step_in H; [refused H|]. step_in H; [refused H|].
  destruct (restore_refused o b size) as [r0|] eqn:Er; [left|].
  { simplify_eq. split; [|done]. intros ->. unfold restore_refused in Er. repeat case_match; by simplify_eq. }
  destruct (allocate_array (al_resources al) _ _ _) as [ra|] eqn:A1; [|refused H].
  destruct (allocate_array (al_operations al) _ _ _) as [oa|] eqn:A2; [|refused H].
  destruct (allocate_array (al_events al) _ _ _) as [ea|] eqn:A3; [|refused H].
  destruct (allocate_array (al_replay al) _ _ _) as [xa|] eqn:A4; [|refused H].
  destruct (decode_checkpoint s) as [[[[rs os] es] xs]|] eqn:Ed; [|refused H].
  destruct (initialize_restore_targets al o) as [[st g]|] eqn:Et; [|refused H].
  unfold CHECKPOINT_HEADER_SIZE in *. bool_prop.
  assert (Hs : 256 <= len s) by (unfold len in *; rewrite length_take; lia).
  destruct (decode_checkpoint_sound s rs os es xs (Forall_take _ _ _ Hb) Hs Ed) as [rest Hde].
  assert (Ei : decoded_info s = decoded_info b) by (unfold decoded_info; by rewrite !sub_take by lia).
  pose proof (de_info _ _ _ _ _ _ Hde) as Hin. rewrite Ei in Hin. pose proof Hin as [_ [I1 _] [I2 _] [I3 _]].
  destruct (de_entries _ _ _ _ _ _ Hde) as [I4 Hxs]. rewrite sub_take in I4 by lia.
  cbn [decoded_info ck_resource_count ck_operation_count ck_event_count] in I1, I2, I3.
  rewrite (allocate_shape _ _ _ _ _ rs (wire_read_u32_range _) A1), (allocate_shape _ _ _ _ _ os (wire_read_u32_range _) A2),
    (allocate_shape _ _ _ _ _ es (wire_read_u32_range _) A3), (allocate_shape _ _ _ _ _ xs (wire_read_u32_range _) A4) in H by done.
  destruct (targets_sound al o st g Hcf Et) as (-> & Hfr & -> & Hg & Hnz).
  rewrite import_arr, replay_import_arr in H by done.
  destruct (mesh_control_state_import_v1 _ _ _ _ _ _) as [r1 st1] eqn:Im.
  destruct (mesh_mgmt_replay_import_v1 _ _ _ _) as [r2 g1] eqn:Ig.
  destruct r1; try refused H. destruct st1 as [st1|]; [|refused H].
  destruct r2; try refused H. destruct g1 as [g1|]; [|refused H].
  injection H as <- <-. right. split; [done|]. split; [lia|]. split; [done|].
  destruct (import_accepted (oc_state (ow_config o)) _ _ _ _ _ _ Hin Im) as (retained & Hac & Est). injection Est as ->.
  apply (replay_import_sound _ _ _ _ _ _ Hg) in Ig as ([l' Hl'] & Hbd & Hgc & Hgb).
  - exists rs, os, es, xs, rest, (imported_impl (oc_state (ow_config o)) (decoded_info b) rs os es retained), g1, l'.
    rewrite Hgb. split_and!; try done; [by apply imported_ok|apply Hnz..].
  - cbn [decoded_snapshot rs_generation]. apply (read_u64_window 256); (done || lia).
  - eapply Forall_impl; [exact Hxs|]. by intros x [].
Qed.
End Success.

Section Agree.
Context {SH : Sha256} {R : Ring} (o : mesh_control_owner) (b : bytes) (size : Z).

Lemma digest_carried : digest_matches b size = true → checkpoint_digest b size = Some (sub b 224 32).
Proof.
  unfold digest_matches. destruct (checkpoint_digest b size) as [x|] eqn:E; [|done]. intros H.
  assert (Hl : length x = 32%nat).
  { unfold checkpoint_digest in E. step_in E; [done|]. destruct (SHA256 _) as [y|]; [|done]. step_in E; [|done].
    injection E as <-. bool_prop. unfold len in *. lia. }
  unfold memeq in H. bool_prop. by rewrite take_ge in H by lia; rewrite H.
Qed.

(** A restorable string of the second format passes the compaction check. *)
Lemma committed_agrees rs os es xs rest : 256 <= size <= MESH_CONTROL_CHECKPOINT_MAX_SIZE_V1 →
  size <= len b → restore_refused o b size = None →
  mesh_mgmt_wire_read_u32 (sub b 8 4) = MESH_CONTROL_CHECKPOINT_VERSION_V2 →
  decoded (take (Z.to_nat size) b) rs os es xs rest →
  mesh_control_checkpoint_committed_log_index_v1 (Some b) size (Some 0) =
    (MESH_CONTROL_CHECKPOINT_OK, Some (mesh_mgmt_wire_read_u64 (sub b 216 8))).
Proof.
  intros Hs Hl Hr V Hde.
  destruct (restore_header o b size Hr) as (M & _ & N2 & N6 & N3 & N4 & F & _ & T & D & _).
  pose proof (de_sections _ _ _ _ _ _ Hde) as Hsec. pose proof (de_rest _ _ _ _ _ _ Hde) as Hrest.
  rewrite sub_take in Hrest by lia. do 4 rewrite sub_take in Hsec by lia. pose proof (wire_read_u32_range (sub b 36 4)) as Hu. unfold uint in Hu.
  unfold mesh_control_checkpoint_committed_log_index_v1. cbn [assign fmap option_fmap option_map].
  change (non_null (Some _)) with true. cbn [negb orb]. unfold CHECKPOINT_HEADER_SIZE at 1.
  rewrite (proj2 (Z.ltb_ge size _)), (proj2 (Z.ltb_ge _ size)) by lia.
  rewrite M, V, N2, N3, N6, F, T, !Z.eqb_refl. cbn [negb orb].
  rewrite (proj2 (Z.ltb_ge SIZE_MAX _)) by done. rewrite bool_decide_true, D by done. cbn [negb orb].
  rewrite Hsec. unfold len. unfold CHECKPOINT_REPLAY_ENTRY_SIZE in *.
  rewrite wrap_small by (unfold uint; lia). rewrite Hrest, Z.eqb_refl. done.
Qed.
End Agree.

(** ** Theorems *)


(** C16: restoring cannot break an owner.  Whatever bytes are presented, with
    whatever memory available, a failed restore leaves the owner as it was; a
    successful one leaves a well-formed owner of the same configuration, and the
    string carries the digest of its contents and the owner's mesh, node,
    principal and session.  The log index is the one the compaction check reads
    from the same string, or 0 for the first format. *)
Theorem checkpoint_restore_sound {SH : Sha256} {SL : Sha256Laws} {R : Ring} (al : allocations)
    (o : mesh_control_owner) (impl : mesh_control_state_impl) (l : list mesh_mgmt_replay_entry)
    (inbound : option mesh_control_channel) (b : bytes) (size now : Z)
    (r : mesh_control_checkpoint_result) (o2 : option mesh_control_owner) :
  owner_ok o impl l → owner_config_typed (ow_config o) → Forall u8 b → size <= len b →
  mesh_control_checkpoint_restore_v1 al (Some o) inbound (Some b) size now = (r, o2) →
  (r ≠ MESH_CONTROL_CHECKPOINT_OK ∧ o2 = Some o) ∨
  r = MESH_CONTROL_CHECKPOINT_OK ∧ ∃ o' impl' l', o2 = Some o' ∧ owner_ok o' impl' l' ∧
    ow_config o' = ow_config o ∧ owner_configured o' impl' ∧
    checkpoint_digest b size = Some (sub b 224 32) ∧
    sub b 80 32 = oc_mesh_id (ow_config o) ∧ sub b 112 32 = oc_node_id (ow_config o) ∧
    sub b 144 32 = rb_principal_key (oc_replay_binding (ow_config o)) ∧
    sub b 192 16 = rb_session_id (oc_replay_binding (ow_config o)) ∧
    (mesh_mgmt_wire_read_u32 (sub b 8 4) = MESH_CONTROL_CHECKPOINT_VERSION_V1 ∧
       ow_committed_log_index o' = 0 ∨
     mesh_control_checkpoint_committed_log_index_v1 (Some b) size (Some 0) =
       (MESH_CONTROL_CHECKPOINT_OK, Some (ow_committed_log_index o'))).
Proof.
  intros Hok Hct Hb Hsz H. destruct (restore_success al o inbound b size now Hb Hsz Hct r o2 H) as
    [?|(-> & Hs & Hr & rs & os & es & xs & rest & impl' & g' & l' & Hde & Hi & Hic & Hg & Hgb & Hgc & Hgbd & Hk & Hn & ->)];
    [by left|right]. split; [done|]. do 3 eexists. split; [done|].
  destruct (restore_header o b size Hr) as (_ & V & _ & _ & _ & _ & _ & _ & _ & D & I1 & I2 & I3 & I4).
  pose proof Hct as [_ _ [[K1 _] [K2 _]] [[K3 _] [K4 _]]]. rewrite memeq_window in I1, I2, I3, I4 by done. bool_prop.
  split; [|split; [done|split; [|split; [by apply digest_carried|split_and!; try done]]]].
  - split; cbn [set_ow_log_index set_ow_replay set_ow_state ow_initialized ow_state ow_replay
      ow_committed_log_index]; try done; [apply Hok|lia|].
    destruct (_ =? _); [apply (read_u64_window 256); (done || lia)|evaluate].
  - by split.
  - cbn [set_ow_log_index ow_committed_log_index]. destruct V as [-> |V]; [by left|right]. rewrite V.
    change (MESH_CONTROL_CHECKPOINT_VERSION_V2 =? MESH_CONTROL_CHECKPOINT_VERSION_V2) with true.
    by eapply committed_agrees.
Qed.

(** ** Witnesses *)

#[local] Existing Instance list_ring.
#[local] Existing Instance list_ring_laws.
#[local] Instance w_sha256 : Sha256 := {| SHA256 m := Some (w_hash m) |}.
#[local] Instance w_sha256_laws : Sha256Laws.
Proof. split. intros m d [= <-]. apply w_hash_size. Qed.

(** The owner of [ControlOwner.w_sys_committed], which committed one intent, and a fresh one. *)
Definition w_source : mesh_control_owner := sy_owner w_sys_committed.
Definition w_source_impl : mesh_control_state_impl := deref (fresh_impl w_config) (cst_impl (ow_state w_source)).
Definition w_source_entries : list mesh_mgmt_replay_entry := deref [] (rg_entries (ow_replay w_source)).
Definition w_fresh_impl : mesh_control_state_impl := deref (fresh_impl w_config) (cst_impl (ow_state w_owner)).
Definition w_fresh_entries : list mesh_mgmt_replay_entry := deref [] (rg_entries (ow_replay w_owner)).

Lemma reachable_owner config s impl l : reachable config s →
  deref impl (cst_impl (ow_state (sy_owner s))) = impl → deref l (rg_entries (ow_replay (sy_owner s))) = l →
  owner_ok (sy_owner s) impl l.
Proof.
  intros Hr Hi Hl. destruct (reachable_inv _ _ Hr) as [(i & x & Hok & _) _ _ _ _ _ _ _].
  rewrite (oo_state _ _ _ Hok) in Hi. rewrite (go_entries _ _ (oo_gate _ _ _ Hok)) in Hl. cbn in Hi, Hl.
  by rewrite <- Hi, <- Hl.
Qed.

Lemma w_source_ok : owner_ok w_source w_source_impl w_source_entries.
Proof. apply (reachable_owner w_own_config); [exact w_reach_committed|reflexivity|reflexivity]. Qed.
Lemma w_target_ok : owner_ok w_owner w_fresh_impl w_fresh_entries.
Proof.
  apply (reachable_owner w_own_config w_sys_pushed); [exact w_reach_pushed|reflexivity|reflexivity].
Qed.

Lemma w_source_typed : owner_typed w_source w_source_impl w_source_entries.
Proof. split; [evaluate..|split; evaluate|split; evaluate]. Qed.
Lemma w_source_configured : owner_configured w_source w_source_impl.
Proof. split; [vm_compute; reflexivity..|split; evaluate]. Qed.
Lemma w_source_exportable : exportable (ow_replay w_source) w_source_entries.
Proof.
  split; [apply w_source_ok|vm_compute; reflexivity|split; evaluate|left; vm_compute; reflexivity|evaluate|evaluate].
Qed.
Lemma w_source_restorable : restorable w_source_impl.
Proof. apply import_checks_iff; [apply w_source_ok|vm_compute; reflexivity]. Qed.


Definition w_checkpoint : bytes :=
  deref [] (deref None (mesh_control_checkpoint_encode_v1 memory_available (Some w_source) (Some None) (Some 0)).1.2).

Lemma checkpoint_restore_sound_witness : ∃ o' impl' l',
  mesh_control_checkpoint_restore_v1 memory_available (Some w_owner) (Some w_own_empty)
    (Some w_checkpoint) (len w_checkpoint) 1600 = (MESH_CONTROL_CHECKPOINT_OK, Some o') ∧
  owner_ok o' impl' l'.
Proof.
  assert (Hr : (mesh_control_checkpoint_restore_v1 memory_available (Some w_owner) (Some w_own_empty)
    (Some w_checkpoint) (len w_checkpoint) 1600).1 = MESH_CONTROL_CHECKPOINT_OK) by (vm_compute; reflexivity).
  assert (Hb : Forall u8 w_checkpoint) by evaluate.
  assert (Hc : owner_config_typed (ow_config w_owner)).
  { split; [evaluate|split; vm_compute; discriminate|split; evaluate|split; evaluate]. }
  destruct (mesh_control_checkpoint_restore_v1 memory_available (Some w_owner) (Some w_own_empty)
    (Some w_checkpoint) (len w_checkpoint) 1600) as [r o2] eqn:E. cbn [fst] in Hr.
  destruct (checkpoint_restore_sound memory_available w_owner w_fresh_impl w_fresh_entries (Some w_own_empty)
    w_checkpoint (len w_checkpoint) 1600 r o2 w_target_ok Hc Hb (Z.le_refl _) E) as
    [[Hn _]|(_ & o' & impl' & l' & Ho & Hok & _)]; [by destruct (Hn Hr)|].
  exists o', impl', l'. rewrite Hr, Ho. split; [reflexivity|exact Hok].
Defined.
