(* ===== verification/TunnelTypes.v ===== *)
(** * The tunnel: data structures and memory

    The types of [tunnel_types.h] that the tunnel's components share, and the
    memory they work on.  A session is linked into two lists at once by pointers
    inside it, and it outlives its place in them, so sessions live in a store of
    locations; an operation is a computation on that store that may go wrong: it
    has no result when it follows a pointer to memory that was released, or when
    it never returns. *)

From S2P Require Import Prelude.

(** ** Constants *)

Definition TUNNEL_OK : Z := 0.
Definition TUNNEL_ERR_INVALID_ARG : Z := -1.
Definition TUNNEL_ERR_NO_MEMORY : Z := -2.
Definition TUNNEL_ERR_TUN_OPEN : Z := -3.
Definition TUNNEL_ERR_NETWORK : Z := -8.
Definition TUNNEL_ERR_NOT_SUPPORTED : Z := -11.
Definition TUNNEL_ERR_NOT_FOUND : Z := -12.

(** The address families of the Linux headers. *)
Definition AF_INET : Z := 2.
Definition AF_INET6 : Z := 10.

Definition TUNNEL_IPPROTO_ICMP : Z := 1.
Definition TUNNEL_IPPROTO_ICMPV6 : Z := 58.
Definition TUNNEL_IPPROTO_TCP : Z := 6.
Definition TUNNEL_IPPROTO_UDP : Z := 17.

(** ** Endpoints and keys *)

(** [ep_addr] is the sixteen bytes of the union: [addr.v6] is all of them,
    [addr.v4] the first four, which hold the address in network order. *)
Record tunnel_endpoint : Type := mk_endpoint {
  ep_family : Z;
  ep_addr : bytes;
  ep_port : Z }.

Definition addr_v4 (e : tunnel_endpoint) : bytes := sub (ep_addr e) 0 4.
Definition addr_v6 (e : tunnel_endpoint) : bytes := sub (ep_addr e) 0 16.

Definition endpoint_typed (e : tunnel_endpoint) : Prop := bytes_ok 16 (ep_addr e) ∧ u16 (ep_port e).
Definition set_port (v : Z) (e : tunnel_endpoint) : tunnel_endpoint :=
  mk_endpoint (ep_family e) (ep_addr e) v.

Record tunnel_session_key : Type := mk_key {
  sk_src : tunnel_endpoint;
  sk_dst : tunnel_endpoint;
  sk_protocol : Z }.

#[export] Instance endpoint_eq_dec : EqDecision tunnel_endpoint.
Proof. solve_decision. Defined.
#[export] Instance key_eq_dec : EqDecision tunnel_session_key.
Proof. solve_decision. Defined.

(** Both ends of a key are of one family, as in every packet. *)
Definition key_uniform (k : tunnel_session_key) : Prop :=
  ep_family (sk_src k) = ep_family (sk_dst k).
#[export] Instance key_uniform_dec k : Decision (key_uniform k).
Proof. unfold key_uniform. apply _. Defined.

(** ** Sessions *)

Inductive tunnel_session_state : Type :=
  | TUNNEL_SESSION_INIT
  | TUNNEL_SESSION_CONNECTING
  | TUNNEL_SESSION_ESTABLISHED
  | TUNNEL_SESSION_CLOSING
  | TUNNEL_SESSION_CLOSED
  | TUNNEL_SESSION_ERROR.
#[export] Instance session_state_eq_dec : EqDecision tunnel_session_state.
Proof. solve_decision. Defined.

Inductive tunnel_tcp_state : Type :=
  | TUNNEL_TCP_CLOSED
  | TUNNEL_TCP_SYN_RECEIVED
  | TUNNEL_TCP_SYN_SENT
  | TUNNEL_TCP_ESTABLISHED
  | TUNNEL_TCP_FIN_WAIT_1
  | TUNNEL_TCP_FIN_WAIT_2
  | TUNNEL_TCP_CLOSING
  | TUNNEL_TCP_TIME_WAIT
  | TUNNEL_TCP_CLOSE_WAIT
  | TUNNEL_TCP_LAST_ACK.
#[export] Instance tcp_state_eq_dec : EqDecision tunnel_tcp_state.
Proof. solve_decision. Defined.

(** The location of a session; a pointer to one is an [option loc]. *)
Abbreviation loc := positive.

Record links : Type := mk_links { next : option loc; prev : option loc }.

Record traffic : Type := mk_traffic {
  bytes_rx : Z; bytes_tx : Z; packets_rx : Z; packets_tx : Z }.

Record tcp_block : Type := mk_tcp {
  seq_local : Z; seq_remote : Z; ack_local : Z; ack_remote : Z; window : Z;
  tcp_state : tunnel_tcp_state }.

(** [se_send] is the filled part of [send_buf], so [send_len] is its length; the
    receive buffer is allocated and never filled.  [se_proxy_conn] is the
    connection of the session at the proxy; [se_local_port] is
    [udp.local_port].  The back-reference to the tunnel is set once, when the
    session is made. *)
Record tunnel_session : Type := mk_session {
  se_key : tunnel_session_key;
  se_state : tunnel_session_state;
  se_proxy_conn : option Z;
  se_traffic : traffic;
  se_create_time : Z;
  se_last_active : Z;
  se_tcp : tcp_block;
  se_local_port : Z;
  se_send : bytes;
  se_send_cap : Z;
  se_recv_cap : Z;
  se_domain : bytes;
  se_hash : links;
  se_lru : links }.

(** The two lists a session is on: [hash_next]/[hash_prev] and
    [lru_next]/[lru_prev]. *)
Inductive chain : Type := HASH | LRU.

Definition link_of (k : chain) (s : tunnel_session) : links :=
  match k with HASH => se_hash s | LRU => se_lru s end.

Definition set_link (k : chain) (l : links) (s : tunnel_session) : tunnel_session :=
  mk_session (se_key s) (se_state s) (se_proxy_conn s) (se_traffic s) (se_create_time s)
    (se_last_active s) (se_tcp s) (se_local_port s) (se_send s) (se_send_cap s) (se_recv_cap s)
    (se_domain s) (match k with HASH => l | LRU => se_hash s end)
    (match k with HASH => se_lru s | LRU => l end).

(** ** Computations on a store *)

(** [M S A]: a computation on a store [S] with result [A], or none. *)
Definition M (S A : Type) : Type := S → option (A * S).

#[export] Instance M_ret S : MRet (M S) := λ A x s, Some (x, s).
#[export] Instance M_bind S : MBind (M S) := λ A B f c s,
  match c s with Some (x, s') => f x s' | None => None end.

Definition fail {S A} : M S A := λ _, None.
Definition gets {S A} (f : S → A) : M S A := λ s, Some (f s, s).
Definition modify {S} (f : S → S) : M S unit := λ s, Some (tt, f s).

(** [runs c s Q]: the computation returns, and [Q] holds of result and store. *)
Definition runs {S A} (c : M S A) (s : S) (Q : A → S → Prop) : Prop :=
  ∃ x s', c s = Some (x, s') ∧ Q x s'.

Section Computations.
Context {S : Type}.

Lemma runs_ret {A} (x : A) (s : S) (Q : A → S → Prop) : Q x s → runs (mret x) s Q.
Proof. intros. by exists x, s. Qed.

Lemma runs_bind {A B} (c : M S A) (f : A → M S B) s (Q : B → S → Prop) :
  runs c s (λ x s', runs (f x) s' Q) → runs (c ≫= f) s Q.
Proof.
  intros (x & s' & Hc & y & t & Hf & HQ). exists y, t. split; [|done].
  unfold mbind, M_bind. by rewrite Hc.
Qed.

Lemma runs_gets {A} (f : S → A) s (Q : A → S → Prop) : Q (f s) s → runs (gets f) s Q.
Proof. intros. by exists (f s), s. Qed.

Lemma runs_modify (f : S → S) s (Q : unit → S → Prop) : Q tt (f s) → runs (modify f) s Q.
Proof. intros. by exists tt, (f s). Qed.

Lemma runs_mono {A} (c : M S A) s (P Q : A → S → Prop) :
  runs c s P → (∀ x s', P x s' → Q x s') → runs c s Q.
Proof. intros (x & s' & E & HP) HPQ. exists x, s'. auto. Qed.

Lemma runs_det {A} (c : M S A) s x s' (Q : A → S → Prop) :
  c s = Some (x, s') → runs c s Q → Q x s'.
Proof. intros E (y & t & E' & HQ). by simplify_eq. Qed.

End Computations.
