(* ===== verification/TunnelNat.v ===== *)
(** * The tunnel's session table: [tunnel_nat.c]

    A hash table of sessions by five-tuple, chained through the sessions; a list
    of the same sessions in order of use; and a bitmap of the UDP ports in use.
    The table does not own the sessions: removing one leaves it allocated. *)

From S2P Require Import Prelude TunnelTypes.

Definition TUNNEL_NAT_HASH_SIZE : Z := 65536.
Definition TUNNEL_NAT_UDP_PORT_MIN : Z := 10000.
Definition TUNNEL_NAT_UDP_PORT_MAX : Z := 60000.

Record nat_stats : Type := mk_stats { lookups : Z; hits : Z; misses : Z; evictions : Z }.

(** [nt_table] has an entry for each non-empty bucket, [nt_udp_port_bitmap] one
    for each byte that was written; the others are NULL and 0. *)
Record tunnel_nat : Type := mk_nat {
  nt_table : gmap Z loc;
  nt_table_size : Z;
  nt_session_count : Z;
  nt_lru_head : option loc;
  nt_lru_tail : option loc;
  nt_next_udp_port : Z;
  nt_udp_port_bitmap : gmap Z Z;
  nt_stats : nat_stats }.

(** The memory of the table: the table itself, if there is one, and the allocated
    sessions, on it or not. *)
Record memory : Type := mk_memory {
  m_nat : option tunnel_nat;
  m_sessions : gmap loc tunnel_session }.

Abbreviation Mem := (M memory).

(** ** Field assignments *)

Definition set_bucket (i : Z) (p : option loc) (n : tunnel_nat) : tunnel_nat :=
  mk_nat (partial_alter (λ _, p) i (nt_table n)) (nt_table_size n) (nt_session_count n)
    (nt_lru_head n) (nt_lru_tail n) (nt_next_udp_port n) (nt_udp_port_bitmap n) (nt_stats n).
Definition set_count (v : Z) (n : tunnel_nat) : tunnel_nat :=
  mk_nat (nt_table n) (nt_table_size n) v
    (nt_lru_head n) (nt_lru_tail n) (nt_next_udp_port n) (nt_udp_port_bitmap n) (nt_stats n).
Definition set_head (p : option loc) (n : tunnel_nat) : tunnel_nat :=
  mk_nat (nt_table n) (nt_table_size n) (nt_session_count n)
    p (nt_lru_tail n) (nt_next_udp_port n) (nt_udp_port_bitmap n) (nt_stats n).
Definition set_tail (p : option loc) (n : tunnel_nat) : tunnel_nat :=
  mk_nat (nt_table n) (nt_table_size n) (nt_session_count n)
    (nt_lru_head n) p (nt_next_udp_port n) (nt_udp_port_bitmap n) (nt_stats n).
Definition set_next_port (v : Z) (n : tunnel_nat) : tunnel_nat :=
  mk_nat (nt_table n) (nt_table_size n) (nt_session_count n)
    (nt_lru_head n) (nt_lru_tail n) v (nt_udp_port_bitmap n) (nt_stats n).
Definition set_bitmap (i v : Z) (n : tunnel_nat) : tunnel_nat :=
  mk_nat (nt_table n) (nt_table_size n) (nt_session_count n)
    (nt_lru_head n) (nt_lru_tail n) (nt_next_udp_port n) (<[i := v]> (nt_udp_port_bitmap n))
    (nt_stats n).
Definition set_stats (v : nat_stats) (n : tunnel_nat) : tunnel_nat :=
  mk_nat (nt_table n) (nt_table_size n) (nt_session_count n)
    (nt_lru_head n) (nt_lru_tail n) (nt_next_udp_port n) (nt_udp_port_bitmap n) v.

(** ** Memory accesses *)

Definition set_sessions (f : gmap loc tunnel_session → gmap loc tunnel_session) (m : memory)
  : memory := mk_memory (m_nat m) (f (m_sessions m)).
Definition put_nat (n : tunnel_nat) (m : memory) : memory := mk_memory (Some n) (m_sessions m).

(** [*nat], on the paths where [nat] is not NULL. *)
Definition the_nat : Mem tunnel_nat := λ m, (λ n, (n, m)) <$> m_nat m.
Definition update_nat (f : tunnel_nat → tunnel_nat) : Mem unit :=
  n ← the_nat; modify (put_nat (f n)).

(** Reading and writing the session at [p]: neither is possible once it was
    released. *)
Definition load (p : loc) : Mem tunnel_session := λ m, (λ s, (s, m)) <$> m_sessions m !! p.
Definition assign_session (p : loc) (f : tunnel_session → tunnel_session) : Mem unit :=
  _ ← load p; modify (set_sessions (alter f p)).

Definition link_set_next (k : chain) (v : option loc) (s : tunnel_session) : tunnel_session :=
  set_link k (mk_links v (prev (link_of k s))) s.
Definition link_set_prev (k : chain) (v : option loc) (s : tunnel_session) : tunnel_session :=
  set_link k (mk_links (next (link_of k s)) v) s.

Definition get_next (k : chain) (p : loc) : Mem (option loc) :=
  s ← load p; mret (next (link_of k s)).
Definition get_prev (k : chain) (p : loc) : Mem (option loc) :=
  s ← load p; mret (prev (link_of k s)).
Definition set_next (k : chain) (p : loc) (v : option loc) : Mem unit :=
  assign_session p (link_set_next k v).
Definition set_prev (k : chain) (p : loc) (v : option loc) : Mem unit :=
  assign_session p (link_set_prev k v).

(** [if (p) f(p);] *)
Definition when_ptr (p : option loc) (f : loc → Mem unit) : Mem unit :=
  match p with Some x => f x | None => mret tt end.

(** ** Hash and comparison of keys *)

Definition fnv_step (hash x : Z) : Z := wrap 32 (Z.lxor hash x * 16777619).

Definition hash_addr (hash : Z) (e : tunnel_endpoint) : Z :=
  foldl fnv_step hash (if ep_family e =? AF_INET then addr_v4 e else addr_v6 e).
Definition hash_port (hash : Z) (e : tunnel_endpoint) : Z :=
  fnv_step (fnv_step hash (Z.shiftr (ep_port e) 8)) (Z.land (ep_port e) 255).

Definition tunnel_nat_hash (key : tunnel_session_key) : Z :=
  let hash := 2166136261 in
  let hash := hash_port (hash_addr hash (sk_src key)) (sk_src key) in
  let hash := hash_port (hash_addr hash (sk_dst key)) (sk_dst key) in
  fnv_step hash (sk_protocol key).

Definition bucket (n : tunnel_nat) (key : tunnel_session_key) : Z :=
  Z.land (tunnel_nat_hash key) (wrap 32 (nt_table_size n - 1)).

Definition tunnel_session_key_compare (a b : tunnel_session_key) : Z :=
  if negb (sk_protocol a =? sk_protocol b) then 1
  else if negb (ep_family (sk_src a) =? ep_family (sk_src b)) then 1
  else if negb (ep_port (sk_src a) =? ep_port (sk_src b)) then 1
  else if negb (ep_port (sk_dst a) =? ep_port (sk_dst b)) then 1
  else if ep_family (sk_src a) =? AF_INET then
    if negb (bool_decide (addr_v4 (sk_src a) = addr_v4 (sk_src b))) then 1
    else if negb (bool_decide (addr_v4 (sk_dst a) = addr_v4 (sk_dst b))) then 1
    else 0
  else
    if negb (memeq 16 (ep_addr (sk_src a)) (ep_addr (sk_src b))) then 1
    else if negb (memeq 16 (ep_addr (sk_dst a)) (ep_addr (sk_dst b))) then 1
    else 0.

(** The sign of a [memcmp] of different addresses is not used: 1 stands for it. *)
Definition tunnel_endpoint_compare (a b : tunnel_endpoint) : Z :=
  if negb (ep_family a =? ep_family b) then 1
  else if negb (ep_port a =? ep_port b) then 1
  else if ep_family a =? AF_INET then
    if bool_decide (addr_v4 a = addr_v4 b) then 0 else 1
  else if memeq 16 (ep_addr a) (ep_addr b) then 0 else 1.

Definition tunnel_nat_reverse_key (key : tunnel_session_key) : tunnel_session_key :=
  mk_key (sk_dst key) (sk_src key) (sk_protocol key).

(** ** Life cycle *)

Definition empty_nat : tunnel_nat :=
  mk_nat ∅ TUNNEL_NAT_HASH_SIZE 0 None None TUNNEL_NAT_UDP_PORT_MIN ∅ (mk_stats 0 0 0 0).

(** [nat_memory] and [table_memory] tell whether the two [calloc]s succeed. *)
Definition tunnel_nat_create (nat_memory table_memory : bool) : option tunnel_nat :=
  if negb nat_memory then None
  else if negb table_memory then None
  else Some empty_nat.

Definition tunnel_nat_destroy : Mem unit := modify (λ m, mk_memory None (m_sessions m)).

(** Apply [f] to the table unless the pointer is NULL. *)
Definition with_nat {A} (null : A) (c : Mem A) : Mem A :=
  nat ← gets m_nat;
  match nat with Some _ => c | None => mret null end.

Definition tunnel_nat_clear : Mem unit :=
  with_nat tt (update_nat (λ n,
    mk_nat ∅ (nt_table_size n) 0 None None TUNNEL_NAT_UDP_PORT_MIN ∅ (mk_stats 0 0 0 0))).

(** ** Insertion and removal *)

Definition tunnel_nat_insert (session : option loc) : Mem Z :=
  with_nat TUNNEL_ERR_INVALID_ARG
  match session with
  | None => mret TUNNEL_ERR_INVALID_ARG
  | Some s =>
      x ← load s;
      n ← the_nat;
      let index := bucket n (se_key x) in
      let head := nt_table n !! index in
      set_next HASH s head;;
      set_prev HASH s None;;
      when_ptr head (λ b, set_prev HASH b (Some s));;
      update_nat (set_bucket index (Some s));;
      set_prev LRU s None;;
      n ← the_nat;
      set_next LRU s (nt_lru_head n);;
      when_ptr (nt_lru_head n) (λ b, set_prev LRU b (Some s));;
      update_nat (set_head (Some s));;
      n ← the_nat;
      (if non_null (nt_lru_tail n) then mret tt else update_nat (set_tail (Some s)));;
      update_nat (λ n, set_count (wrap 64 (nt_session_count n + 1)) n);;
      mret TUNNEL_OK
  end.

(** The statements of [tunnel_nat_remove] that take [s] off one of its lists;
    [on_first] and [on_last] are what it does instead when [s] has no predecessor
    or no successor. *)
Definition unlink (k : chain) (s : loc) (on_first on_last : option loc → Mem unit) : Mem unit :=
  p ← get_prev k s;
  match p with
  | Some y => x ← get_next k s; set_next k y x
  | None => x ← get_next k s; on_first x
  end;;
  x ← get_next k s;
  match x with
  | Some z => p ← get_prev k s; set_prev k z p
  | None => p ← get_prev k s; on_last p
  end.

Definition tunnel_nat_remove (session : option loc) : Mem unit :=
  with_nat tt
  match session with
  | None => mret tt
  | Some s =>
      x ← load s;
      n ← the_nat;
      let index := bucket n (se_key x) in
      unlink HASH s (λ p, update_nat (set_bucket index p)) (λ _, mret tt);;
      unlink LRU s (λ p, update_nat (set_head p)) (λ p, update_nat (set_tail p));;
      assign_session s (set_link HASH (mk_links None None));;
      assign_session s (set_link LRU (mk_links None None));;
      update_nat (λ n, if 0 <? nt_session_count n then set_count (nt_session_count n - 1) n else n)
  end.

(** ** Lookup *)

(** Following more links than there are sessions means going round for ever. *)
Definition all_sessions : Mem nat := gets (λ m, S (size (m_sessions m))).

(** [while (session) { if (found(session)) return session; session = next; }] *)
Fixpoint search (k : chain) (found : tunnel_session → bool) (fuel : nat) (session : option loc)
  : Mem (option loc) :=
  match session, fuel with
  | None, _ => mret None
  | Some _, O => fail
  | Some s, S fuel =>
      x ← load s;
      if found x then mret (Some s) else search k found fuel (next (link_of k x))
  end.

Definition count_lookup (n : tunnel_nat) : tunnel_nat :=
  set_stats (mk_stats (wrap 64 (lookups (nt_stats n) + 1)) (hits (nt_stats n))
               (misses (nt_stats n)) (evictions (nt_stats n))) n.
Definition count_hit (n : tunnel_nat) : tunnel_nat :=
  set_stats (mk_stats (lookups (nt_stats n)) (wrap 64 (hits (nt_stats n) + 1))
               (misses (nt_stats n)) (evictions (nt_stats n))) n.
Definition count_miss (n : tunnel_nat) : tunnel_nat :=
  set_stats (mk_stats (lookups (nt_stats n)) (hits (nt_stats n))
               (wrap 64 (misses (nt_stats n) + 1)) (evictions (nt_stats n))) n.
Definition count_eviction (n : tunnel_nat) : tunnel_nat :=
  set_stats (mk_stats (lookups (nt_stats n)) (hits (nt_stats n))
               (misses (nt_stats n)) (wrap 64 (evictions (nt_stats n) + 1))) n.

Definition tunnel_nat_lookup (key : option tunnel_session_key) : Mem (option loc) :=
  with_nat None
  match key with
  | None => mret None
  | Some key =>
      update_nat count_lookup;;
      n ← the_nat;
      fuel ← all_sessions;
      r ← search HASH (λ x, tunnel_session_key_compare (se_key x) key =? 0) fuel
            (nt_table n !! bucket n key);
      update_nat (if non_null r then count_hit else count_miss);;
      mret r
  end.

Definition tunnel_nat_lookup_by_src (src : option tunnel_endpoint) (protocol : Z)
  : Mem (option loc) :=
  with_nat None
  match src with
  | None => mret None
  | Some src =>
      n ← the_nat;
      fuel ← all_sessions;
      search LRU (λ x, (sk_protocol (se_key x) =? protocol) &&
                       (tunnel_endpoint_compare (sk_src (se_key x)) src =? 0)) fuel
        (nt_lru_head n)
  end.

Definition tunnel_nat_lookup_reverse (dst src : tunnel_endpoint) (protocol : Z)
  : Mem (option loc) :=
  tunnel_nat_lookup (Some (mk_key dst src protocol)).

(** ** Order of use *)

Definition tunnel_nat_touch (session : option loc) : Mem unit :=
  with_nat tt
  match session with
  | None => mret tt
  | Some s =>
      n ← the_nat;
      if bool_decide (Some s = nt_lru_head n) then mret tt
      else
        unlink LRU s (λ _, mret tt) (λ p, update_nat (set_tail p));;
        set_prev LRU s None;;
        n ← the_nat;
        set_next LRU s (nt_lru_head n);;
        when_ptr (nt_lru_head n) (λ b, set_prev LRU b (Some s));;
        update_nat (set_head (Some s))
  end.

Definition tunnel_nat_get_oldest : Mem (option loc) :=
  with_nat None (n ← the_nat; mret (nt_lru_tail n)).

(** Each round takes one from [session_count], which bounds their number.  A
    session is larger than 64 KiB, so their number stays within an [int]. *)
Fixpoint evict_oldest_loop (max_sessions : Z) (fuel : nat) (evicted : Z) : Mem Z :=
  n ← the_nat;
  match nt_lru_tail n, fuel with
  | Some oldest, S fuel =>
      if max_sessions <? nt_session_count n then
        tunnel_nat_remove (Some oldest);;
        update_nat count_eviction;;
        evict_oldest_loop max_sessions fuel (evicted + 1)
      else mret evicted
  | _, _ => mret evicted
  end.

Definition tunnel_nat_evict_oldest (max_sessions : Z) : Mem Z :=
  with_nat 0 (n ← the_nat; evict_oldest_loop max_sessions (Z.to_nat (nt_session_count n)) 0).

Definition session_expired (now tcp_timeout_ms udp_timeout_ms : Z) (x : tunnel_session) : bool :=
  let timeout := if sk_protocol (se_key x) =? TUNNEL_IPPROTO_TCP then tcp_timeout_ms
                 else udp_timeout_ms in
  timeout <? wrap 64 (now - se_last_active x).

Fixpoint evict_expired_loop (now tcp_timeout_ms udp_timeout_ms : Z) (fuel : nat)
    (session : option loc) (evicted : Z) : Mem Z :=
  match session, fuel with
  | None, _ => mret evicted
  | Some _, O => fail
  | Some s, S fuel =>
      x ← load s;
      let p := prev (se_lru x) in
      if session_expired now tcp_timeout_ms udp_timeout_ms x then
        tunnel_nat_remove (Some s);;
        update_nat count_eviction;;
        evict_expired_loop now tcp_timeout_ms udp_timeout_ms fuel p (evicted + 1)
      else evict_expired_loop now tcp_timeout_ms udp_timeout_ms fuel p evicted
  end.

(** [time] is the answer of [time(NULL)], in seconds. *)
Definition tunnel_nat_evict_expired (time tcp_timeout_ms udp_timeout_ms : Z) : Mem Z :=
  with_nat 0
    (n ← the_nat;
     fuel ← all_sessions;
     evict_expired_loop (wrap 64 (time * 1000)) tcp_timeout_ms udp_timeout_ms fuel
       (nt_lru_tail n) 0).

(** ** UDP ports *)

Definition port_outside (port : Z) : bool :=
  (port <? TUNNEL_NAT_UDP_PORT_MIN) || (TUNNEL_NAT_UDP_PORT_MAX <? port).

Definition bitmap_byte (n : tunnel_nat) (i : Z) : Z := default 0 (nt_udp_port_bitmap n !! i).

Definition port_bitmap_get (n : tunnel_nat) (port : Z) : Z :=
  if port_outside port then 0
  else
    let index := wrap 16 (port - TUNNEL_NAT_UDP_PORT_MIN) in
    Z.land (Z.shiftr (bitmap_byte n (index / 8)) (index mod 8)) 1.

Definition port_bitmap_set (port : Z) (value : bool) (n : tunnel_nat) : tunnel_nat :=
  if port_outside port then n
  else
    let index := wrap 16 (port - TUNNEL_NAT_UDP_PORT_MIN) in
    let byte := bitmap_byte n (index / 8) in
    let bit := Z.shiftl 1 (index mod 8) in
    set_bitmap (index / 8)
      (wrap 8 (if value then Z.lor byte bit else Z.land byte (Z.lnot bit))) n.

Definition port_after (port : Z) : Z :=
  let port := wrap 16 (port + 1) in
  if TUNNEL_NAT_UDP_PORT_MAX <? port then TUNNEL_NAT_UDP_PORT_MIN else port.

(** The loop goes round the range once: its length bounds the rounds. *)
Fixpoint alloc_port_loop (start : Z) (fuel : nat) (port : Z) (n : tunnel_nat)
  : option (Z * tunnel_nat) :=
  match fuel with
  | O => None
  | S fuel =>
      if port_bitmap_get n port =? 0 then
        Some (port, set_next_port (port_after port) (port_bitmap_set port true n))
      else
        let port := port_after port in
        if port =? start then Some (0, n) else alloc_port_loop start fuel port n
  end.

Definition port_range : nat :=
  Z.to_nat (TUNNEL_NAT_UDP_PORT_MAX - TUNNEL_NAT_UDP_PORT_MIN + 1).

Definition tunnel_nat_alloc_udp_port : Mem Z :=
  with_nat 0
    (n ← the_nat;
     match alloc_port_loop (nt_next_udp_port n) port_range (nt_next_udp_port n) n with
     | Some (port, n') => update_nat (λ _, n');; mret port
     | None => fail
     end).

Definition tunnel_nat_free_udp_port (port : Z) : Mem unit :=
  with_nat tt (update_nat (port_bitmap_set port false)).

Definition tunnel_nat_udp_port_in_use (port : Z) : Mem Z :=
  with_nat 0 (n ← the_nat; mret (port_bitmap_get n port)).

(** ** Statistics *)

Definition tunnel_nat_get_stats : Mem (option nat_stats) :=
  with_nat None (n ← the_nat; mret (Some (nt_stats n))).
Definition tunnel_nat_reset_stats : Mem unit :=
  with_nat tt (update_nat (set_stats (mk_stats 0 0 0 0))).
Definition tunnel_nat_session_count : Mem Z :=
  with_nat 0 (n ← the_nat; mret (nt_session_count n)).
