(* ===== verification/TunnelNatInv.v ===== *)
(** * What the session table promises

    The table seen as two lists of sessions: in order of insertion, newest first,
    and in order of use, latest first.  The pointers in the sessions are shown to
    stand for these lists, and every operation to do to the lists what its
    specification says. *)

From S2P Require Import Prelude TunnelTypes TunnelNat.

Abbreviation heap := (gmap loc tunnel_session).

(** ** Running the accesses *)

Section Accesses.
Context {m : memory}.
Implicit Types (p : loc) (v : option loc) (k : chain).

Definition link_at (k : chain) (h : heap) (x : loc) : option links := link_of k <$> h !! x.

(** What a session holds apart from its links. *)
Definition unlinked (s : tunnel_session) : tunnel_session :=
  set_link HASH (mk_links None None) (set_link LRU (mk_links None None) s).
Definition body_at (h : heap) (x : loc) : option tunnel_session := unlinked <$> h !! x.

Lemma runs_the_nat n (Q : tunnel_nat → memory → Prop) :
  m_nat m = Some n → Q n m → runs the_nat m Q.
Proof. intros Hn HQ. exists n, m. unfold the_nat. by rewrite Hn. Qed.

Lemma runs_update_nat f n (Q : unit → memory → Prop) :
  m_nat m = Some n → Q tt (put_nat (f n) m) → runs (update_nat f) m Q.
Proof. intros Hn HQ. apply runs_bind, (runs_the_nat n); [done|]. by apply runs_modify. Qed.

Lemma runs_with_nat {A} (d : A) c n (Q : A → memory → Prop) :
  m_nat m = Some n → runs c m Q → runs (with_nat d c) m Q.
Proof. intros Hn HQ. apply runs_bind, runs_gets. by rewrite Hn. Qed.

Lemma runs_load p s (Q : tunnel_session → memory → Prop) :
  m_sessions m !! p = Some s → Q s m → runs (load p) m Q.
Proof. intros Hp HQ. exists s, m. split; [|done]. unfold load. cbn. rewrite Hp. done. Qed.

Lemma runs_assign p f (Q : unit → memory → Prop) : is_Some (m_sessions m !! p) →
  Q tt (set_sessions (alter f p) m) → runs (assign_session p f) m Q.
Proof. intros [s Hp] HQ. apply runs_bind, (runs_load p s); [done|]. by apply runs_modify. Qed.

Lemma runs_get_next k p l (Q : option loc → memory → Prop) :
  link_at k (m_sessions m) p = Some l → Q (next l) m → runs (get_next k p) m Q.
Proof.
  intros (s & Hp & ->)%fmap_Some HQ. apply runs_bind, (runs_load p s); [done|]. by apply runs_ret.
Qed.

Lemma runs_get_prev k p l (Q : option loc → memory → Prop) :
  link_at k (m_sessions m) p = Some l → Q (prev l) m → runs (get_prev k p) m Q.
Proof.
  intros (s & Hp & ->)%fmap_Some HQ. apply runs_bind, (runs_load p s); [done|]. by apply runs_ret.
Qed.

End Accesses.

(** ** Links in the store *)

Definition h_next (k : chain) (p : loc) (v : option loc) (h : heap) : heap :=
  alter (link_set_next k v) p h.
Definition h_prev (k : chain) (p : loc) (v : option loc) (h : heap) : heap :=
  alter (link_set_prev k v) p h.

(** [h'] is [h] up to links on list [k]. *)
Definition relinked (k : chain) (h h' : heap) : Prop :=
  (∀ x, body_at h' x = body_at h x) ∧ ∀ k' x, k' ≠ k → link_at k' h' x = link_at k' h x.

Section Links.
Implicit Types (h : heap) (k : chain) (p x y : loc) (v : option loc) (l : list loc).

Lemma relinked_refl k h : relinked k h h.
Proof. done. Qed.
Lemma relinked_trans k h1 h2 h3 : relinked k h1 h2 → relinked k h2 h3 → relinked k h1 h3.
Proof.
  intros [B1 L1] [B2 L2]. split; intros; [by rewrite B2, B1|]. by rewrite L2, L1.
Qed.

Lemma link_at_alter_ne k f p x h : x ≠ p → link_at k (alter f p h) x = link_at k h x.
Proof. intros. unfold link_at. by rewrite lookup_alter_ne. Qed.

Lemma relinked_alter k f p h : (∀ s, unlinked (f s) = unlinked s) →
  (∀ k' s, k' ≠ k → link_of k' (f s) = link_of k' s) → relinked k h (alter f p h).
Proof.
  intros Hb Hl. split; [intros x|intros k' x Hk]; unfold body_at, link_at;
    destruct (decide (x = p)) as [->|]; rewrite ?lookup_alter_eq, ?lookup_alter_ne by done;
    try done; destruct (h !! p); cbn; by rewrite ?Hb, ?Hl.
Qed.

Lemma relinked_next k p v h : relinked k h (h_next k p v h).
Proof. apply relinked_alter; [by destruct k|]. by intros [] ? ?; destruct k. Qed.
Lemma relinked_prev k p v h : relinked k h (h_prev k p v h).
Proof. apply relinked_alter; [by destruct k|]. by intros [] ? ?; destruct k. Qed.
Lemma relinked_link k p ln h : relinked k h (alter (set_link k ln) p h).
Proof. apply relinked_alter; [by destruct k|]. by intros [] ? ?; destruct k. Qed.

Lemma link_at_next k p v h ln : link_at k h p = Some ln →
  link_at k (h_next k p v h) p = Some (mk_links v (prev ln)).
Proof.
  unfold link_at, h_next. rewrite lookup_alter_eq. intros (s & -> & ->)%fmap_Some. by destruct k.
Qed.
Lemma link_at_prev k p v h ln : link_at k h p = Some ln →
  link_at k (h_prev k p v h) p = Some (mk_links (next ln) v).
Proof.
  unfold link_at, h_prev. rewrite lookup_alter_eq. intros (s & -> & ->)%fmap_Some. by destruct k.
Qed.

Lemma relinked_alive k h h' x : relinked k h h' → is_Some (h !! x) → is_Some (h' !! x).
Proof.
  intros [B _]. specialize (B x). unfold body_at in B. destruct (h' !! x); [done|].
  cbn in B. intros [s E]. by rewrite E in B.
Qed.
Lemma link_at_alive k h x ln : link_at k h x = Some ln → is_Some (h !! x).
Proof. intros (s & ? & ->)%fmap_Some. eauto. Qed.
Lemma alive_link_at k h x : is_Some (h !! x) → ∃ ln, link_at k h x = Some ln.
Proof. intros [s E]. unfold link_at. rewrite E. eauto. Qed.

End Links.

(** ** List segments *)

Section Segments.
Implicit Types (h : heap) (k : chain) (x y z : loc) (p q : option loc) (l : list loc).

Definition first_of (l : list loc) (q : option loc) : option loc :=
  match l with [] => q | x :: _ => Some x end.
Definition last_of (p : option loc) (l : list loc) : option loc :=
  match last l with Some x => Some x | None => p end.

(** The sessions of [l] are linked in this order; [p] comes before, [q] after. *)
Fixpoint seg (k : chain) (h : heap) (p : option loc) (l : list loc) (q : option loc) : Prop :=
  match l with
  | [] => True
  | x :: l => link_at k h x = Some (mk_links (first_of l q) p) ∧ seg k h (Some x) l q
  end.

Lemma first_of_head l : first_of l None = head l.
Proof. by destruct l. Qed.
Lemma last_of_last l : last_of None l = last l.
Proof. unfold last_of. by destruct (last l). Qed.
Lemma first_of_app l1 l2 q : first_of (l1 ++ l2) q = first_of l1 (first_of l2 q).
Proof. by destruct l1. Qed.
Lemma last_of_cons p x l : last_of (Some x) l = last_of p (x :: l).
Proof.
  unfold last_of. destruct l as [|y l]; [done|]. rewrite last_cons_cons.
  destruct (last (y :: l)) eqn:E; [done|]. by apply last_None in E.
Qed.

Lemma seg_app k h l2 q : ∀ l1 p, seg k h p (l1 ++ l2) q ↔
  seg k h p l1 (first_of l2 q) ∧ seg k h (last_of p l1) l2 q.
Proof.
  induction l1 as [|x l1 IH]; intros p; cbn; [tauto|].
  rewrite IH, first_of_app, (last_of_cons p). tauto.
Qed.

Lemma seg_ext k h h' q : ∀ l p, (∀ x, x ∈ l → link_at k h' x = link_at k h x) →
  seg k h p l q → seg k h' p l q.
Proof.
  induction l as [|x l IH]; intros p Hx; cbn; [done|]. intros [Hl Hs]. split.
  - rewrite Hx; [done|]. set_solver.
  - apply IH; [|done]. set_solver.
Qed.

Lemma seg_alive k h q x : ∀ l p, seg k h p l q → x ∈ l → is_Some (h !! x).
Proof.
  induction l as [|y l IH]; intros p; cbn; [set_solver|].
  intros [Hl Hs] [->|Hx]%elem_of_cons; [by eapply link_at_alive|by eapply IH].
Qed.

Lemma seg_relinked k k' h h' p l q : k' ≠ k → relinked k' h h' → seg k h p l q → seg k h' p l q.
Proof. intros Hk [_ L] Hs. eapply seg_ext; [|done]. intros x _. by apply L. Qed.

Lemma seg_frame k f x h p l q : x ∉ l → seg k h p l q → seg k (alter f x h) p l q.
Proof.
  intros Hx. apply seg_ext. intros y Hy. apply link_at_alter_ne. by intros ->.
Qed.

(** Redirecting what comes after the last session, or before the first. *)
Lemma seg_set_last k h p l y q q' : y ∉ l → seg k h p (l ++ [y]) q →
  seg k (h_next k y q' h) p (l ++ [y]) q'.
Proof.
  intros Hy [Hl [Hlk _]]%seg_app. apply seg_app. cbn in *. split; [by apply seg_frame|].
  split; [|done]. by apply (link_at_next _ _ _ _ _ Hlk).
Qed.
Lemma seg_set_first k h p p' x l q : x ∉ l → seg k h p (x :: l) q →
  seg k (h_prev k x p' h) p' (x :: l) q.
Proof.
  intros Hx [Hlk Hs]. split; [by apply (link_at_prev _ _ _ _ _ Hlk)|]. by apply seg_frame.
Qed.


(** Taking a session out from between [l1] and [l2]. *)
Definition h_unlink (k : chain) (l1 l2 : list loc) (h : heap) : heap :=
  let h1 := match last l1 with Some y => h_next k y (head l2) h | None => h end in
  match head l2 with Some z => h_prev k z (last l1) h1 | None => h1 end.

Lemma relinked_unlink k l1 l2 h : relinked k h (h_unlink k l1 l2 h).
Proof.
  unfold h_unlink. destruct (last l1), (head l2);
    eauto using relinked_refl, relinked_trans, relinked_next, relinked_prev.
Qed.

Lemma seg_unlink_last k h p l1 q q' : NoDup l1 → seg k h p l1 q →
  seg k (match last l1 with Some y => h_next k y q' h | None => h end) p l1 q'.
Proof.
  destruct l1 as [|y l1 _] using rev_ind; [done|]. rewrite last_snoc.
  intros [_ [Hy _]]%NoDup_app. apply seg_set_last. set_solver.
Qed.

Lemma link_at_unlink k s l1 l2 h : s ∉ l1 → s ∉ l2 →
  link_at k (h_unlink k l1 l2 h) s = link_at k h s.
Proof.
  intros H1 H2. unfold h_unlink.
  destruct (last l1) as [y|] eqn:Ey, (head l2) as [z|] eqn:Ez; unfold h_prev, h_next;
    rewrite ?link_at_alter_ne; try done; intros ->;
    solve [apply H1; by apply last_Some_elem_of | apply H2; by apply head_Some_elem_of].
Qed.

Lemma seg_unlink k h l1 s l2 : NoDup (l1 ++ s :: l2) → seg k h None (l1 ++ s :: l2) None →
  seg k (h_unlink k l1 l2 h) None (l1 ++ l2) None.
Proof.
  intros (Hd1 & Hd & [Hs Hd2]%NoDup_cons)%NoDup_app [H1 [_ H2]]%seg_app.
  cbn in H1. rewrite seg_app, first_of_head, last_of_last.
  apply (seg_unlink_last _ _ _ _ _ (head l2)) in H1; [|done].
  assert (Hy : ∀ y, last l1 = Some y → y ∉ l2).
  { intros y E%last_Some_elem_of Hy. apply (Hd y E). set_solver. }
  unfold h_unlink. destruct l2 as [|z l2]; cbn in *; [done|]. apply NoDup_cons in Hd2 as [Hz Hd2].
  split.
  - apply seg_frame; [|done]. intros Hz1. apply (Hd z Hz1). set_solver.
  - apply (seg_set_first _ _ (Some s)); [done|].
    destruct (last l1) as [y|]; [|done]. apply seg_frame; [by apply Hy|done].
Qed.

(** Putting a session in front. *)
Definition h_push (k : chain) (s : loc) (l : list loc) (h : heap) : heap :=
  let h1 := alter (set_link k (mk_links (head l) None)) s h in
  match head l with Some b => h_prev k b (Some s) h1 | None => h1 end.

Lemma relinked_push k s l h : relinked k h (h_push k s l h).
Proof.
  unfold h_push. destruct (head l);
    eauto using relinked_trans, relinked_link, relinked_prev.
Qed.

Lemma seg_push k h s l : is_Some (h !! s) → s ∉ l → NoDup l → seg k h None l None →
  seg k (h_push k s l h) None (s :: l) None.
Proof.
  intros [c Hc] Hs Hd Hl. unfold h_push.
  assert (Hlk : link_at k (alter (set_link k (mk_links (head l) None)) s h) s
    = Some (mk_links (head l) None)).
  { unfold link_at. rewrite lookup_alter_eq, Hc. by destruct k. }
  apply (seg_frame _ (set_link k (mk_links (head l) None)) s) in Hl; [|done].
  destruct l as [|b l]; cbn [head first_of] in *; [done|].
  apply NoDup_cons in Hd as [Hb Hd]. split.
  - unfold h_prev. rewrite link_at_alter_ne; [done|]. set_solver.
  - by apply (seg_set_first _ _ None).
Qed.

(** The neighbours of a session. *)
Lemma seg_at k h l1 s l2 : seg k h None (l1 ++ s :: l2) None →
  link_at k h s = Some (mk_links (head l2) (last l1)).
Proof.
  intros [_ [H _]]%seg_app. by rewrite first_of_head, last_of_last in H.
Qed.

End Segments.

(** ** The two statements blocks on links *)

(** [f] applied to the table. *)
Definition nat_map (f : tunnel_nat → tunnel_nat) (m : memory) : memory :=
  mk_memory (f <$> m_nat m) (m_sessions m).

Lemma runs_update_map f n m (Q : unit → memory → Prop) : m_nat m = Some n →
  Q tt (nat_map f m) → runs (update_nat f) m Q.
Proof.
  intros Hn HQ. apply (runs_update_nat f n); [done|]. unfold nat_map in HQ. by rewrite Hn in HQ.
Qed.

(** [unlink] changes the store as [h_unlink] does, and the table by [F] and [G]
    when the session was first or last. *)
Lemma runs_unlink k s l1 l2 n m onf onl F G (Q : unit → memory → Prop) :
  NoDup (l1 ++ s :: l2) → seg k (m_sessions m) None (l1 ++ s :: l2) None → m_nat m = Some n →
  (∀ p m' n' (P : unit → memory → Prop), m_nat m' = Some n' →
     P tt (nat_map (F p) m') → runs (onf p) m' P) →
  (∀ p m' n' (P : unit → memory → Prop), m_nat m' = Some n' →
     P tt (nat_map (G p) m') → runs (onl p) m' P) →
  Q tt (mk_memory (Some ((if l2 is [] then G (last l1) else id)
                           ((if l1 is [] then F (head l2) else id) n)))
          (h_unlink k l1 l2 (m_sessions m))) →
  runs (unlink k s onf onl) m Q.
Proof.
  intros Hnd Hs Hn HF HG HQ. pose proof (seg_at _ _ _ _ _ Hs) as Hat.
  pose proof Hnd as (_ & Hd & [Hs2 _]%NoDup_cons)%NoDup_app.
  assert (Hs1 : s ∉ l1) by (intros Hin; apply (Hd s Hin); set_solver).
  unfold unlink. apply runs_bind, (runs_get_prev k s _ _ Hat). cbn [prev].
  apply runs_bind.
  set (m1 := mk_memory (Some ((if l1 is [] then F (head l2) else id) n))
    (match last l1 with Some y => h_next k y (head l2) (m_sessions m) | None => m_sessions m end)).
  assert (Hm1 : ∀ P : unit → memory → Prop, P tt m1 →
    runs match last l1 with
      | Some y => x ← get_next k s; set_next k y x
      | None => x ← get_next k s; onf x end m P).
  { intros P HP. subst m1. destruct l1 as [|y l1 _] using rev_ind; cbn [last] in *.
    - apply runs_bind, (runs_get_next k s _ _ Hat). apply (HF _ _ n); [done|].
      unfold nat_map. rewrite Hn. apply HP.
    - rewrite last_snoc in *. apply runs_bind, (runs_get_next k s _ _ Hat).
      apply runs_assign; [eapply (seg_alive _ _ _ y); [apply Hs|]; set_solver|].
      unfold set_sessions. rewrite Hn. destruct (l1 ++ [y]) eqn:E; [by destruct l1|]. apply HP. }
  apply Hm1. clear Hm1.
  assert (Hat1 : link_at k (m_sessions m1) s = Some (mk_links (head l2) (last l1))).
  { rewrite <-Hat. cbn. destruct (last l1) as [y|] eqn:E; [|done]. apply link_at_alter_ne.
    intros ->. apply Hs1. by apply last_Some_elem_of. }
  apply runs_bind, (runs_get_next k s _ _ Hat1). cbn [next].
  destruct l2 as [|z l2]; cbn [head] in *.
  - apply runs_bind, (runs_get_prev k s _ _ Hat1). eapply HG; [reflexivity|].
    unfold nat_map. cbn. exact HQ.
  - apply runs_bind, (runs_get_prev k s _ _ Hat1). apply runs_assign; [|exact HQ].
    assert (is_Some (m_sessions m !! z)) as Hz by (eapply (seg_alive _ _ _ z); [apply Hs|]; set_solver).
    cbn. destruct (last l1); [|done]. unfold h_next. by apply lookup_alter_is_Some.
Qed.

(** ** Keys up to what the table compares *)

(** Comparison ignores the unused bytes of an IPv4 address; on keys whose ends
    are of one family it is an equivalence which the hash respects. *)
Definition key_same (a b : tunnel_session_key) : Prop :=
  key_uniform a ∧ key_uniform b ∧ tunnel_session_key_compare a b = 0.

(** What comparison looks at. *)
Definition key_parts (k : tunnel_session_key) : Z * Z * Z * Z * bytes * bytes :=
  let part e := if ep_family (sk_src k) =? AF_INET then addr_v4 e else addr_v6 e in
  (sk_protocol k, ep_family (sk_src k), ep_port (sk_src k), ep_port (sk_dst k),
   part (sk_src k), part (sk_dst k)).

Lemma key_compare_parts a b : tunnel_session_key_compare a b = 0 ↔ key_parts a = key_parts b.
Proof.
  unfold tunnel_session_key_compare, key_parts, addr_v6, memeq, sub. rewrite !drop_0. split.
  - intros H. repeat (step_in H; [done|]). destruct (ep_family (sk_src a) =? AF_INET) eqn:Ef;
      repeat (step_in H; [done|]); bool_prop;
      repeat match goal with E : ep_family _ = ep_family _ |- _ => rewrite <-E; clear E end;
      [rewrite Ef, Z.eqb_refl|apply Z.eqb_neq in Ef; rewrite Ef]; congruence.
  - intros H. injection H as H1 H2 H3 H4 H5 H6. rewrite H1, H2, H3, H4, !Z.eqb_refl. cbn.
    rewrite H2 in H5, H6. destruct (ep_family (sk_src b) =? AF_INET); rewrite H5, H6;
      by rewrite !bool_decide_eq_true_2.
Qed.

#[export] Instance key_same_sym : Symmetric key_same.
Proof. intros a b (? & ? & H). split_and!; [done..|]. by apply key_compare_parts, eq_sym, key_compare_parts. Qed.
#[export] Instance key_same_trans : Transitive key_same.
Proof.
  intros a b c (? & _ & H1) (_ & ? & H2). split_and!; [done..|].
  apply key_compare_parts in H1, H2. apply key_compare_parts. congruence.
Qed.

#[export] Instance tunnel_nat_hash_proper : Proper (key_same ==> eq) tunnel_nat_hash.
Proof.
  intros a b (Ua & Ub & H%key_compare_parts). unfold key_parts, key_uniform in *.
  injection H as H1 H2 H3 H4 H5 H6. unfold tunnel_nat_hash, hash_addr, hash_port.
  by rewrite <-Ua, <-Ub, H1, H3, H4, H5, H6.
Qed.

(** ** The table as lists *)

Definition key_bucket (k : tunnel_session_key) : Z := Z.land (tunnel_nat_hash k) 65535.
Definition bucket_at (h : heap) (x : loc) : option Z := key_bucket ∘ se_key <$> h !! x.
Definition in_bucket (h : heap) (i : Z) (l : list loc) : list loc :=
  filter (λ x, bucket_at h x = Some i) l.

(** [v_order] is the order of insertion, newest first; [v_lru] the order of use,
    latest first; [v_ports] the UDP ports in use. *)
Record nat_view : Type := mk_view {
  v_order : list loc;
  v_lru : list loc;
  v_ports : gset Z;
  v_stats : nat_stats }.

Record table_repr (n : tunnel_nat) (h : heap) (a : nat_view) : Prop := {
  tr_size : nt_table_size n = TUNNEL_NAT_HASH_SIZE;
  tr_nodup : NoDup (v_order a);
  tr_perm : v_lru a ≡ₚ v_order a;
  tr_lru : seg LRU h None (v_lru a) None;
  tr_head : nt_lru_head n = head (v_lru a);
  tr_tail : nt_lru_tail n = last (v_lru a);
  tr_hash : ∀ i, seg HASH h None (in_bucket h i (v_order a)) None;
  tr_table : ∀ i, nt_table n !! i = head (in_bucket h i (v_order a));
  tr_count : nt_session_count n = Z.of_nat (length (v_lru a));
  tr_uniform : ∀ x s, x ∈ v_order a → h !! x = Some s → key_uniform (se_key s);
  tr_ports : ∀ p, port_bitmap_get n p = if bool_decide (p ∈ v_ports a) then 1 else 0;
  tr_stats : nt_stats n = v_stats a;
  tr_next : TUNNEL_NAT_UDP_PORT_MIN <= nt_next_udp_port n <= TUNNEL_NAT_UDP_PORT_MAX }.

(** The sessions have distinct 64-bit addresses, so there are fewer than [2^64]. *)
Definition nat_repr (m : memory) (a : nat_view) : Prop :=
  Z.of_nat (size (m_sessions m)) < 2 ^ 64 ∧
  ∃ n, m_nat m = Some n ∧ table_repr n (m_sessions m) a.

(** The sessions keep their contents, links apart. *)
Definition same_bodies (h h' : heap) : Prop := ∀ x, body_at h' x = body_at h x.

Section Bodies.
Context (h h' : heap) (B : same_bodies h h').

Lemma bodies_info {A} (f : tunnel_session → A) x : (∀ s, f (unlinked s) = f s) →
  f <$> h' !! x = f <$> h !! x.
Proof.
  intros Hf. specialize (B x). unfold body_at in B. apply (f_equal (fmap f)) in B.
  rewrite <-!option_fmap_compose in B.
  trans (f ∘ unlinked <$> h' !! x); [|rewrite B]; apply option_fmap_ext; intros s; cbn;
    by rewrite Hf.
Qed.

Lemma bodies_bucket x : bucket_at h' x = bucket_at h x.
Proof. unfold bucket_at. by apply bodies_info. Qed.

Lemma bodies_in_bucket i l : in_bucket h' i l = in_bucket h i l.
Proof. unfold in_bucket. apply list_filter_iff. intros x. by rewrite bodies_bucket. Qed.

Lemma bodies_dom : dom h' = dom h.
Proof.
  apply set_eq. intros x. rewrite !elem_of_dom. specialize (B x). unfold body_at in B.
  destruct (h' !! x), (h !! x); cbn in B; try done; split; intros []; done.
Qed.

Lemma bodies_size : size h' = size h.
Proof. by rewrite <-!size_dom, bodies_dom. Qed.

End Bodies.

Lemma relinked_bodies k h h' : relinked k h h' → same_bodies h h'.
Proof. by intros [? _]. Qed.
Lemma same_bodies_trans h1 h2 h3 : same_bodies h1 h2 → same_bodies h2 h3 → same_bodies h1 h3.
Proof. intros B1 B2 x. by rewrite B2, B1. Qed.
Lemma same_bodies_refl h : same_bodies h h.
Proof. done. Qed.
Lemma same_bodies_sym h1 h2 : same_bodies h1 h2 → same_bodies h2 h1.
Proof. intros B x. by rewrite B. Qed.

(** ** Lists without an element *)

Definition without (s : loc) (l : list loc) : list loc := filter (.≠ s) l.

Section Without.
Implicit Types (s x : loc) (l : list loc).

Lemma without_id s l : s ∉ l → without s l = l.
Proof.
  induction l as [|x l IH]; [done|]. intros [? ?]%not_elem_of_cons. unfold without.
  rewrite filter_cons_True by done. f_equal. by apply IH.
Qed.

Lemma without_split l1 s l2 : NoDup (l1 ++ s :: l2) → without s (l1 ++ s :: l2) = l1 ++ l2.
Proof.
  intros (_ & Hd & [Hs _]%NoDup_cons)%NoDup_app. unfold without.
  rewrite filter_app, filter_cons_False by tauto. fold (without s l1) (without s l2).
  rewrite !without_id; [done|done|]. intros H. apply (Hd s H). set_solver.
Qed.

Lemma in_bucket_without h i s l : in_bucket h i (without s l) = without s (in_bucket h i l).
Proof.
  unfold in_bucket, without. rewrite !list_filter_filter. apply list_filter_iff. tauto.
Qed.

Lemma elem_of_in_bucket h i x l : x ∈ in_bucket h i l ↔ bucket_at h x = Some i ∧ x ∈ l.
Proof. unfold in_bucket. by rewrite list_elem_of_filter. Qed.

End Without.

Definition view_insert (s : loc) (a : nat_view) : nat_view :=
  mk_view (s :: v_order a) (s :: v_lru a) (v_ports a) (v_stats a).
Definition view_remove (s : loc) (a : nat_view) : nat_view :=
  mk_view (without s (v_order a)) (without s (v_lru a)) (v_ports a) (v_stats a).
Definition view_touch (s : loc) (a : nat_view) : nat_view :=
  mk_view (v_order a) (s :: without s (v_lru a)) (v_ports a) (v_stats a).

(** ** Removal *)

(** The store and the table after removing [s], which was between [c1] and [c2] in
    bucket [i] and between [l1] and [l2] in the order of use. *)
Definition h_remove (c1 c2 l1 l2 : list loc) (s : loc) (h : heap) : heap :=
  alter (set_link LRU (mk_links None None)) s
    (alter (set_link HASH (mk_links None None)) s
       (h_unlink LRU l1 l2 (h_unlink HASH c1 c2 h))).

Definition n_remove (i : Z) (c1 c2 l1 l2 : list loc) (n : tunnel_nat) : tunnel_nat :=
  set_count (nt_session_count n - 1)
    ((if l2 is [] then set_tail (last l1) else id)
       ((if l1 is [] then set_head (head l2) else id)
          ((if c1 is [] then set_bucket i (head c2) else id) n))).

Lemma n_remove_fields i c1 c2 l1 l2 n : let n' := n_remove i c1 c2 l1 l2 n in
  nt_table_size n' = nt_table_size n ∧
  nt_lru_head n' = (if l1 is [] then head l2 else nt_lru_head n) ∧
  nt_lru_tail n' = (if l2 is [] then last l1 else nt_lru_tail n) ∧
  nt_table n' = (if c1 is [] then partial_alter (λ _, head c2) i (nt_table n) else nt_table n) ∧
  nt_next_udp_port n' = nt_next_udp_port n ∧
  nt_udp_port_bitmap n' = nt_udp_port_bitmap n ∧ nt_stats n' = nt_stats n.
Proof. destruct c1, l1, l2; done. Qed.

Lemma head_skip (l1 l2 : list loc) s :
  (if l1 is [] then head l2 else head (l1 ++ s :: l2)) = head (l1 ++ l2).
Proof. by destruct l1. Qed.
Lemma last_skip (l1 l2 : list loc) s :
  (if l2 is [] then last l1 else last (l1 ++ s :: l2)) = last (l1 ++ l2).
Proof.
  destruct l2 as [|y l2]; [by rewrite app_nil_r|]. rewrite !last_app, last_cons_cons.
  destruct (last (y :: l2)) eqn:E; [done|]. by apply last_None in E.
Qed.

Lemma port_bitmap_ext n n' p : nt_udp_port_bitmap n' = nt_udp_port_bitmap n →
  port_bitmap_get n' p = port_bitmap_get n p.
Proof. unfold port_bitmap_get, bitmap_byte. by intros ->. Qed.

Lemma middle_notin (s : loc) (x1 x2 : list loc) : NoDup (x1 ++ s :: x2) → s ∉ x1 ∧ s ∉ x2.
Proof.
  intros (_ & Hd & [Hs _]%NoDup_cons)%NoDup_app. split; [|done].
  intros Hs1. apply (Hd s Hs1). set_solver.
Qed.

Section Remove.
Context (n : tunnel_nat) (h : heap) (a : nat_view) (R : table_repr n h a).
Context (s : loc) (i : Z) (c1 c2 l1 l2 : list loc).
Context (Hi : bucket_at h s = Some i) (Hc : in_bucket h i (v_order a) = c1 ++ s :: c2).
Context (Hl : v_lru a = l1 ++ s :: l2).

Let h_removed : heap := h_remove c1 c2 l1 l2 s h.

Lemma chain_nodup : NoDup (c1 ++ s :: c2).
Proof. rewrite <-Hc. apply NoDup_filter, (tr_nodup _ _ _ R). Qed.
Lemma lru_nodup : NoDup (l1 ++ s :: l2).
Proof. rewrite <-Hl, (tr_perm _ _ _ R). apply (tr_nodup _ _ _ R). Qed.

Lemma remove_bodies : same_bodies h h_removed.
Proof.
  unfold h_removed, h_remove. eapply same_bodies_trans; [|eapply relinked_bodies, relinked_link].
  eapply same_bodies_trans; [|eapply relinked_bodies, relinked_link].
  eapply same_bodies_trans; eapply relinked_bodies, relinked_unlink.
Qed.

Lemma remove_lru : seg LRU h_removed None (l1 ++ l2) None.
Proof.
  destruct (middle_notin _ _ _ lru_nodup). unfold h_removed, h_remove.
  apply seg_frame; [set_solver|]. apply seg_frame; [set_solver|].
  apply (seg_unlink _ _ _ s); [apply lru_nodup|].
  eapply seg_relinked; [|apply relinked_unlink|]; [done|].
  rewrite <-Hl. apply (tr_lru _ _ _ R).
Qed.

Lemma remove_hash j : seg HASH h_removed None (without s (in_bucket h j (v_order a))) None.
Proof.
  destruct (middle_notin _ _ _ chain_nodup).
  assert (Hs : s ∉ without s (in_bucket h j (v_order a))).
  { intros [H' _]%list_elem_of_filter. done. }
  unfold h_removed, h_remove. apply seg_frame; [done|]. apply seg_frame; [done|].
  eapply seg_relinked; [|apply relinked_unlink|]; [done|].
  pose proof (tr_hash _ _ _ R) as HT.
  destruct (decide (j = i)) as [->|Hji].
  - rewrite Hc, without_split by apply chain_nodup. apply (seg_unlink _ _ _ s); [apply chain_nodup|].
    rewrite <-Hc. apply HT.
  - assert (Hx : ∀ x, x ∈ in_bucket h j (v_order a) → x ∉ c1 ++ s :: c2).
    { intros x [Hj _]%elem_of_in_bucket. rewrite <-Hc, elem_of_in_bucket. intros [? _]. congruence. }
    rewrite without_id by (intros Hin; apply (Hx s Hin); set_solver).
    eapply seg_ext; [|apply HT]. intros x Hin%Hx. apply link_at_unlink; set_solver.
Qed.

Lemma table_remove :
  table_repr (n_remove i c1 c2 l1 l2 n) (h_remove c1 c2 l1 l2 s h) (view_remove s a).
Proof.
  pose proof remove_bodies as B. destruct R as [Rsz Rnd Rpm Rlr Rhd Rtl Rha Rtb Rct Run Rpo Rst Rnx].
  pose proof lru_nodup as Hnl. pose proof chain_nodup as Hnc.
  destruct (n_remove_fields i c1 c2 l1 l2 n) as (Nsz & Nhd & Ntl & Ntb & Nnx & Nbm & Nst).
  split; unfold view_remove; cbn [v_order v_lru v_ports v_stats].
  - by rewrite Nsz.
  - by apply NoDup_filter.
  - unfold without. by rewrite Rpm.
  - rewrite Hl, without_split by done. apply remove_lru.
  - by rewrite Nhd, Rhd, Hl, without_split, head_skip by done.
  - by rewrite Ntl, Rtl, Hl, without_split, last_skip by done.
  - intros j. rewrite (bodies_in_bucket _ _ B), in_bucket_without. apply remove_hash.
  - intros j. rewrite (bodies_in_bucket _ _ B), in_bucket_without, Ntb.
    destruct (decide (j = i)) as [->|Hji].
    + rewrite Hc, without_split by done. pose proof (Rtb i) as E. rewrite Hc in E.
      rewrite <-(head_skip c1 c2 s), <-E. case_match; [apply lookup_partial_alter_eq|done].
    + rewrite without_id by (intros [Hj _]%elem_of_in_bucket; congruence). rewrite <-Rtb.
      case_match; [by apply lookup_partial_alter_ne|done].
  - rewrite Hl, without_split by done. rewrite Hl in Rct. rewrite length_app in *. cbn [length] in Rct.
    change (nt_session_count n - 1 = Z.of_nat (length l1 + length l2)). lia.
  - intros x y [_ Hx]%list_elem_of_filter Hy.
    pose proof (bodies_info _ _ B se_key x (λ _, eq_refl)) as E.
    unfold h_removed in E. rewrite Hy in E. cbn in E.
    symmetry in E. apply fmap_Some in E as (y' & Hy' & ->). by eapply Run.
  - intros p. by rewrite <-Rpo, (port_bitmap_ext _ _ _ Nbm).
  - by rewrite Nst.
  - by rewrite Nnx.
Qed.

End Remove.

Lemma bucket_size n k : nt_table_size n = TUNNEL_NAT_HASH_SIZE → bucket n k = key_bucket k.
Proof. unfold bucket, key_bucket. by intros ->. Qed.

Lemma repr_member m n a s : table_repr n (m_sessions m) a → s ∈ v_lru a →
  ∃ x, m_sessions m !! s = Some x.
Proof. intros R Hs. by apply (seg_alive _ _ _ _ _ _ (tr_lru _ _ _ R)). Qed.

(** What an operation leaves as it was. *)
Definition keeps (m m' : memory) : Prop := same_bodies (m_sessions m) (m_sessions m').

Lemma keeps_trans m1 m2 m3 : keeps m1 m2 → keeps m2 m3 → keeps m1 m3.
Proof. apply same_bodies_trans. Qed.
Lemma keeps_alive m m' x : keeps m m' → is_Some (m_sessions m !! x) → is_Some (m_sessions m' !! x).
Proof. intros B. by rewrite <-!elem_of_dom, (bodies_dom _ _ B). Qed.

Lemma repr_intro m m' n' a' : Z.of_nat (size (m_sessions m)) < 2 ^ 64 → keeps m m' →
  m_nat m' = Some n' → table_repr n' (m_sessions m') a' → nat_repr m' a'.
Proof. intros Hs B Hn R. split; [by rewrite (bodies_size _ _ B)|eauto]. Qed.

(** The links of a session once it is off the table. *)
Definition detached (m : memory) (s : loc) : Prop :=
  ∀ k, link_at k (m_sessions m) s = Some (mk_links None None).

Lemma runs_remove m a s : nat_repr m a → s ∈ v_lru a →
  runs (tunnel_nat_remove (Some s)) m (λ _ m',
    nat_repr m' (view_remove s a) ∧ keeps m m' ∧ detached m' s).
Proof.
  intros (Hsz & n & Hn & R) Hs. destruct (repr_member _ _ _ _ R Hs) as [x Hx].
  assert (Hi : bucket_at (m_sessions m) s = Some (key_bucket (se_key x)))
    by (unfold bucket_at; by rewrite Hx).
  assert (Hc : s ∈ in_bucket (m_sessions m) (key_bucket (se_key x)) (v_order a)).
  { apply elem_of_in_bucket. split; [done|]. by rewrite <-(tr_perm _ _ _ R). }
  apply list_elem_of_split in Hc as (c1 & c2 & Hc), Hs as (l1 & l2 & Hl).
  pose proof (chain_nodup _ _ _ R _ _ _ _ Hc) as Nc. pose proof (lru_nodup _ _ _ R _ _ _ Hl) as Nl.
  pose proof (table_remove _ _ _ R _ _ _ _ _ _ Hi Hc Hl) as R'.
  unfold tunnel_nat_remove. apply (runs_with_nat _ _ n); [done|].
  apply runs_bind, (runs_load s x); [done|]. apply runs_bind, (runs_the_nat n); [done|].
  rewrite bucket_size by apply (tr_size _ _ _ R). apply runs_bind.
  apply (runs_unlink _ _ c1 c2 n _ _ _ (set_bucket (key_bucket (se_key x))) (λ _, id)); try done.
  { rewrite <-Hc. apply (tr_hash _ _ _ R). }
  { intros. by eapply runs_update_map. }
  { intros p m' n' P Hn' HP. apply runs_ret. unfold nat_map in HP. rewrite option_fmap_id in HP.
    by destruct m'. }
  apply runs_bind. eapply (runs_unlink _ _ l1 l2 _ _ _ _ set_head set_tail); try done.
  { eapply seg_relinked; [|apply relinked_unlink|]; [done|]. rewrite <-Hl. apply (tr_lru _ _ _ R). }
  { intros. by eapply runs_update_map. }
  { intros. by eapply runs_update_map. }
  cbn [m_sessions].
  set (h1 := h_unlink LRU l1 l2 (h_unlink HASH c1 c2 (m_sessions m))).
  assert (H1 : is_Some (h1 !! s)).
  { eapply relinked_alive; [apply relinked_unlink|]. eapply relinked_alive; [apply relinked_unlink|].
    eauto. }
  apply runs_bind, runs_assign; [done|]. apply runs_bind, runs_assign; [by apply lookup_alter_is_Some|].
  eapply runs_update_nat; [done|]. cbn [m_sessions set_sessions put_nat].
  assert (Hlen : 0 < nt_session_count n).
  { rewrite (tr_count _ _ _ R), Hl, length_app. cbn. lia. }
  match goal with |- nat_repr (put_nat (if _ <? nt_session_count ?n1 then _ else _) _) _ ∧ _ =>
    assert (E : nt_session_count n1 = nt_session_count n) by (by destruct c1, c2, l1, l2) end.
  rewrite E. apply Z.ltb_lt in Hlen. rewrite Hlen.
  match goal with |- nat_repr ?m' _ ∧ _ =>
    replace m' with (mk_memory (Some (n_remove (key_bucket (se_key x)) c1 c2 l1 l2 n))
      (h_remove c1 c2 l1 l2 s (m_sessions m))) by (by destruct c1, c2, l1, l2) end.
  assert (K : keeps m (mk_memory (Some (n_remove (key_bucket (se_key x)) c1 c2 l1 l2 n))
    (h_remove c1 c2 l1 l2 s (m_sessions m)))) by apply remove_bodies.
  split_and!; [by apply (repr_intro m _ _ _ Hsz K eq_refl)|exact K|].
  intros k. unfold link_at, h_remove. destruct H1 as [y Hy]. cbn [m_sessions].
  rewrite !lookup_alter_eq. fold h1. rewrite Hy. by destruct k.
Qed.

(** ** Insertion and use *)

Lemma link_both k s hd h :
  h_prev k s None (h_next k s hd h) = alter (set_link k (mk_links hd None)) s h ∧
  h_next k s hd (h_prev k s None h) = alter (set_link k (mk_links hd None)) s h.
Proof.
  unfold h_prev, h_next. rewrite !alter_alter_eq.
  split; apply alter_ext; intros x _; by destruct k.
Qed.

(** The blocks that put a session in front of a list. *)
Section Push.
Context {A : Type} (k : chain) (s : loc) (l : list loc) (m : memory).
Context (Hs : is_Some (m_sessions m !! s)).
Context (Hb : ∀ b, head l = Some b → is_Some (m_sessions m !! b)).

Lemma runs_push_end (c : Mem A) (Q : A → memory → Prop) :
  runs c (set_sessions (h_push k s l) m) Q →
  runs (when_ptr (head l) (λ b, set_prev k b (Some s));; c)
    (set_sessions (alter (set_link k (mk_links (head l) None)) s) m) Q.
Proof.
  intros HQ. apply runs_bind. unfold h_push in HQ.
  destruct (head l) as [b|]; cbn; [|by apply runs_ret].
  apply runs_assign; [by apply lookup_alter_is_Some, Hb|exact HQ].
Qed.

Lemma runs_push (c : Mem A) (Q : A → memory → Prop) :
  runs c (set_sessions (h_push k s l) m) Q →
  runs (set_next k s (head l);; set_prev k s None;;
        when_ptr (head l) (λ b, set_prev k b (Some s));; c) m Q.
Proof.
  intros HQ. apply runs_bind, runs_assign; [done|].
  apply runs_bind, runs_assign; [by apply lookup_alter_is_Some|].
  unfold set_sessions at 1 2. cbn [m_sessions m_nat].
  change (alter _ s (alter _ s ?h)) with (h_prev k s None (h_next k s (head l) h)).
  rewrite (proj1 (link_both _ _ _ _)). by apply runs_push_end.
Qed.

Lemma runs_push_lru (c : Mem A) n (Q : A → memory → Prop) : m_nat m = Some n →
  nt_lru_head n = head l → runs c (set_sessions (h_push k s l) m) Q →
  runs (set_prev k s None;; n ← the_nat; set_next k s (nt_lru_head n);;
        when_ptr (nt_lru_head n) (λ b, set_prev k b (Some s));; c) m Q.
Proof.
  intros Hn Hh HQ. apply runs_bind, runs_assign; [done|].
  apply runs_bind, (runs_the_nat n); [done|]. rewrite Hh.
  apply runs_bind, runs_assign; [by apply lookup_alter_is_Some|].
  unfold set_sessions at 1 2. cbn [m_sessions m_nat].
  change (alter _ s (alter _ s ?h)) with (h_next k s (head l) (h_prev k s None h)).
  rewrite (proj2 (link_both _ _ _ _)). by apply runs_push_end.
Qed.

End Push.

Section Insert.
Context (n : tunnel_nat) (h : heap) (a : nat_view) (R : table_repr n h a).
Context (s : loc) (x : tunnel_session) (Hx : h !! s = Some x).
Context (Hs : s ∉ v_order a) (Hu : key_uniform (se_key x)).

Let i : Z := key_bucket (se_key x).

Definition h_insert : heap :=
  h_push LRU s (v_lru a) (h_push HASH s (in_bucket h i (v_order a)) h).

Definition n_insert : tunnel_nat :=
  let n1 := set_head (Some s) (set_bucket i (Some s) n) in
  let n2 := if non_null (nt_lru_tail n) then n1 else set_tail (Some s) n1 in
  set_count (wrap 64 (nt_session_count n + 1)) n2.

Lemma insert_bodies : same_bodies h h_insert.
Proof. eapply same_bodies_trans; eapply relinked_bodies, relinked_push. Qed.

Lemma in_bucket_cons j : in_bucket h j (s :: v_order a) =
  if decide (j = i) then s :: in_bucket h j (v_order a) else in_bucket h j (v_order a).
Proof.
  unfold in_bucket at 1. assert (Hb : bucket_at h s = Some i) by (unfold bucket_at; by rewrite Hx).
  destruct (decide (j = i)) as [->|].
  - by rewrite filter_cons_True.
  - rewrite filter_cons_False; [done|]. congruence.
Qed.

Lemma link_at_push_ne k l y h' : y ≠ s → y ∉ l → link_at k (h_push k s l h') y = link_at k h' y.
Proof.
  intros Hy Hl. unfold h_push. destruct (head l) as [b|] eqn:E; unfold h_prev;
    rewrite ?link_at_alter_ne; try done. intros ->. by apply Hl, head_Some_elem_of.
Qed.

Lemma insert_hash j : seg HASH h_insert None (in_bucket h j (s :: v_order a)) None.
Proof.
  eapply seg_relinked; [|apply relinked_push|]; [done|]. pose proof (tr_hash _ _ _ R) as HT.
  rewrite in_bucket_cons. destruct (decide (j = i)) as [->|Hji].
  - apply seg_push; [eauto| |apply NoDup_filter, (tr_nodup _ _ _ R)|apply HT].
    by intros [_ ?]%elem_of_in_bucket.
  - eapply seg_ext; [|apply HT]. intros y [Hy Hin]%elem_of_in_bucket. apply link_at_push_ne.
    + by intros ->.
    + rewrite elem_of_in_bucket. intros [? _]. congruence.
Qed.

Lemma insert_lru : seg LRU h_insert None (s :: v_lru a) None.
Proof.
  apply seg_push.
  - eapply relinked_alive; [apply relinked_push|eauto].
  - by rewrite (tr_perm _ _ _ R).
  - rewrite (tr_perm _ _ _ R). apply (tr_nodup _ _ _ R).
  - eapply seg_relinked; [|apply relinked_push|apply (tr_lru _ _ _ R)]. done.
Qed.

Lemma table_insert : Z.of_nat (size h) < 2 ^ 64 → table_repr n_insert h_insert (view_insert s a).
Proof.
  intros Hsz. pose proof insert_bodies as B. pose proof insert_lru as Hlru.
  assert (Hlen : (length (s :: v_lru a) ≤ size h)%nat).
  { rewrite <-size_dom. transitivity (size (list_to_set (C := gset loc) (s :: v_lru a))).
    - rewrite size_list_to_set; [done|]. apply NoDup_cons. rewrite (tr_perm _ _ _ R).
      split; [done|apply (tr_nodup _ _ _ R)].
    - apply subseteq_size. intros y Hy%elem_of_list_to_set. apply elem_of_dom.
      apply elem_of_cons in Hy as [->|Hy]; [eauto|]. by eapply seg_alive; [apply (tr_lru _ _ _ R)|]. }
  destruct R as [Rsz Rnd Rpm Rlr Rhd Rtl Rha Rtb Rct Run Rpo Rst Rnx].
  assert (Hn : nt_lru_tail n_insert = last (s :: v_lru a)).
  { unfold n_insert. rewrite Rtl. destruct (v_lru a) as [|y l] eqn:E; [done|].
    rewrite last_cons_cons. destruct (last (y :: l)) eqn:El; [|by apply last_None in El].
    cbn. by rewrite Rtl. }
  split; unfold view_insert; cbn [v_order v_lru v_ports v_stats]; try done.
  - unfold n_insert. by case_match.
  - by apply NoDup_cons.
  - by rewrite Rpm.
  - unfold n_insert. by case_match.
  - intros j. rewrite (bodies_in_bucket _ _ B). apply insert_hash.
  - intros j. rewrite (bodies_in_bucket _ _ B), in_bucket_cons.
    trans (partial_alter (λ _, Some s) i (nt_table n) !! j); [unfold n_insert; by case_match|].
    destruct (decide (j = i)) as [->|].
    + by rewrite lookup_partial_alter_eq.
    + by rewrite lookup_partial_alter_ne.
  - unfold n_insert. cbn [nt_session_count set_count]. rewrite Rct. cbn [length] in *.
    rewrite wrap_small; [lia|]. unfold uint. lia.
  - intros y z Hy Hz.
    pose proof (bodies_info _ _ B se_key y (λ _, eq_refl)) as E. rewrite Hz in E. cbn in E.
    symmetry in E. apply fmap_Some in E as (z' & Hz' & ->).
    apply elem_of_cons in Hy as [->|Hy]; [congruence|]. by eapply Run.
  - intros p. rewrite <-Rpo. apply port_bitmap_ext. unfold n_insert. by case_match.
  - rewrite <-Rst. unfold n_insert. by case_match.
  - unfold n_insert. by case_match.
Qed.

End Insert.

Lemma bucket_alive n h a i b : table_repr n h a → head (in_bucket h i (v_order a)) = Some b →
  is_Some (h !! b).
Proof.
  intros R [_ Hb]%head_Some_elem_of%elem_of_in_bucket.
  eapply seg_alive; [apply (tr_lru _ _ _ R)|]. by rewrite (tr_perm _ _ _ R).
Qed.
Lemma head_alive n h a b : table_repr n h a → head (v_lru a) = Some b → is_Some (h !! b).
Proof. intros R Hb%head_Some_elem_of. by eapply seg_alive; [apply (tr_lru _ _ _ R)|]. Qed.

Lemma runs_insert m a s x : nat_repr m a → m_sessions m !! s = Some x → s ∉ v_order a →
  key_uniform (se_key x) → runs (tunnel_nat_insert (Some s)) m (λ r m',
    r = TUNNEL_OK ∧ nat_repr m' (view_insert s a) ∧ keeps m m').
Proof.
  intros (Hsz & n & Hn & R) Hx Hs Hu.
  pose proof (table_insert _ _ _ R _ _ Hx Hs Hu Hsz) as R'.
  pose proof (tr_head _ _ _ R) as Rhd. set (i := key_bucket (se_key x)) in *.
  pose proof (tr_table _ _ _ R i) as Rtb.
  unfold tunnel_nat_insert. apply (runs_with_nat _ _ n); [done|].
  apply runs_bind, (runs_load s x); [done|]. apply runs_bind, (runs_the_nat n); [done|].
  rewrite bucket_size by apply (tr_size _ _ _ R). fold i. cbn zeta. rewrite Rtb.
  apply runs_push; [eauto|intros b; by eapply bucket_alive|].
  apply runs_bind. eapply runs_update_nat; [done|].
  apply (runs_push_lru _ _ (v_lru a)) with (n := set_bucket i (Some s) n);
    [eapply relinked_alive; [apply relinked_push|eauto]| |done|done|].
  { intros b Hb. eapply relinked_alive; [apply relinked_push|]. by eapply head_alive. }
  apply runs_bind. eapply runs_update_nat; [done|]. apply runs_bind. eapply runs_the_nat; [done|].
  apply runs_bind.
  apply (runs_mono _ _ (λ _ m', m' = mk_memory (Some (let n1 := set_head (Some s) (set_bucket i (Some s) n)
    in if non_null (nt_lru_tail n) then n1 else set_tail (Some s) n1))
    (h_insert (m_sessions m) a s x))).
  { cbn. destruct (non_null (nt_lru_tail n)); [by apply runs_ret|]. by eapply runs_update_nat. }
  intros _ m' ->. apply runs_bind. eapply runs_update_nat; [done|]. apply runs_ret.
  assert (K : keeps m (mk_memory (Some (n_insert n s x)) (h_insert (m_sessions m) a s x)))
    by apply insert_bodies.
  match goal with |- _ ∧ nat_repr ?m' _ ∧ _ =>
    replace m' with (mk_memory (Some (n_insert n s x)) (h_insert (m_sessions m) a s x))
      by (unfold n_insert; by destruct (non_null (nt_lru_tail n))) end.
  split_and!; [done|by apply (repr_intro m _ _ _ Hsz K eq_refl)|exact K].
Qed.

(** Moving a session to the front. *)
Section Touch.
Context (n : tunnel_nat) (h : heap) (a : nat_view) (R : table_repr n h a).
Context (s : loc) (l1 l2 : list loc) (Hl : v_lru a = l1 ++ s :: l2) (Hl1 : l1 ≠ []).

Definition h_touch : heap := h_push LRU s (l1 ++ l2) (h_unlink LRU l1 l2 h).
Definition n_touch : tunnel_nat :=
  set_head (Some s) ((if l2 is [] then set_tail (last l1) else id) n).

Lemma touch_relinked : relinked LRU h h_touch.
Proof. eapply relinked_trans; [apply relinked_unlink|apply relinked_push]. Qed.

Lemma table_touch : table_repr n_touch h_touch (view_touch s a).
Proof.
  pose proof touch_relinked as B. pose proof (relinked_bodies _ _ _ B) as Bb.
  pose proof (lru_nodup _ _ _ R _ _ _ Hl) as Nl. destruct (middle_notin _ _ _ Nl) as [N1 N2].
  assert (Ntl : nt_lru_tail n_touch = last (s :: l1 ++ l2)).
  { trans (if l2 is [] then last l1 else nt_lru_tail n); [unfold n_touch; by case_match|].
    rewrite (tr_tail _ _ _ R), Hl, last_skip. destruct (l1 ++ l2) eqn:E; [|done].
    by apply app_eq_nil in E as [-> _]. }
  destruct R as [Rsz Rnd Rpm Rlr Rhd Rtl Rha Rtb Rct Run Rpo Rst Rnx].
  rewrite Hl in *.
  split; unfold view_touch; cbn [v_order v_lru v_ports v_stats]; rewrite ?Hl, ?without_split by done;
    try done.
  - unfold n_touch. by case_match.
  - rewrite <-Rpm. apply Permutation_middle.
  - apply seg_push; [|set_solver| |by apply (seg_unlink _ _ _ s)].
    + eapply relinked_alive; [apply relinked_unlink|]. eapply seg_alive; [apply Rlr|set_solver].
    + apply NoDup_app in Nl as (? & Hd & [? ?]%NoDup_cons). apply NoDup_app. split_and!; [done| |done].
      intros y Hy1 Hy2. apply (Hd y Hy1). set_solver.
  - intros j. rewrite (bodies_in_bucket _ _ Bb). eapply seg_relinked; [|apply B|apply Rha]. done.
  - intros j. rewrite (bodies_in_bucket _ _ Bb), <-Rtb. unfold n_touch. by case_match.
  - trans (nt_session_count n); [unfold n_touch; by case_match|]. rewrite Rct.
    rewrite length_app in *. cbn [length]. rewrite length_app. lia.
  - intros y z Hy Hz.
    pose proof (bodies_info _ _ Bb se_key y (λ _, eq_refl)) as E. rewrite Hz in E. cbn in E.
    symmetry in E. apply fmap_Some in E as (z' & Hz' & ->). by eapply Run.
  - intros p. rewrite <-Rpo. apply port_bitmap_ext. unfold n_touch. by case_match.
  - rewrite <-Rst. unfold n_touch. by case_match.
  - unfold n_touch. by case_match.
Qed.

End Touch.

Lemma runs_touch m a s : nat_repr m a → s ∈ v_lru a →
  runs (tunnel_nat_touch (Some s)) m (λ _ m', nat_repr m' (view_touch s a) ∧ keeps m m').
Proof.
  intros (Hsz & n & Hn & R) Hs. pose proof (tr_head _ _ _ R) as Rhd.
  apply list_elem_of_split in Hs as (l1 & l2 & Hl). pose proof (lru_nodup _ _ _ R _ _ _ Hl) as Nl.
  unfold tunnel_nat_touch. apply (runs_with_nat _ _ n); [done|].
  apply runs_bind, (runs_the_nat n); [done|]. rewrite Rhd, Hl.
  destruct (decide (l1 = [])) as [->|Hl1].
  { rewrite bool_decide_eq_true_2 by done. apply runs_ret.
    assert (E : view_touch s a = a).
    { destruct a as [ao al ap an]. unfold view_touch. cbn in *. f_equal. rewrite Hl.
      f_equal. exact (without_split [] s l2 Nl). }
    rewrite E. repeat split; eauto. }
  rewrite bool_decide_eq_false_2.
  2: { destruct l1 as [|y l1]; [done|]. cbn. intros [= ->]. apply NoDup_cons in Nl as [Nl _].
       set_solver. }
  apply runs_bind. apply (runs_unlink _ _ l1 l2 n _ _ _ (λ _, id) set_tail); try done.
  { rewrite <-Hl. apply (tr_lru _ _ _ R). }
  { intros p m' n' P Hn' HP. apply runs_ret. unfold nat_map in HP. rewrite option_fmap_id in HP.
    by destruct m'. }
  { intros. by eapply runs_update_map. }
  assert (Ha : ∀ b, b ∈ v_lru a → is_Some (h_unlink LRU l1 l2 (m_sessions m) !! b)).
  { intros b Hb. eapply relinked_alive; [apply relinked_unlink|].
    by eapply seg_alive; [apply (tr_lru _ _ _ R)|]. }
  eapply (runs_push_lru _ _ (l1 ++ l2)); [| |reflexivity| |].
  - apply Ha. rewrite Hl. set_solver.
  - intros b Hb%head_Some_elem_of. apply Ha. rewrite Hl. set_solver.
  - rewrite <-(head_skip l1 l2 s), <-Hl, <-Rhd. by destruct l1, l2.
  - eapply runs_update_nat; [done|].
    match goal with |- nat_repr ?m' _ ∧ _ =>
      replace m' with (mk_memory (Some (n_touch n s l1 l2)) (h_touch (m_sessions m) s l1 l2))
        by (unfold n_touch; by destruct l1, l2) end.
    assert (K : keeps m (mk_memory (Some (n_touch n s l1 l2)) (h_touch (m_sessions m) s l1 l2)))
      by (eapply relinked_bodies, touch_relinked).
    split; [|done]. apply (repr_intro m _ _ _ Hsz K eq_refl). by apply table_touch.
Qed.
