(* ===== verification/TunnelNatSpec.v ===== *)
(** * The session table refines its specification

    [nat_spec] says what each call answers and does in terms of the lists of
    [TunnelNatInv]; every sequence of calls that respects the preconditions runs
    to its end and behaves as specified.  The last part is about calls that do
    not respect them. *)

From S2P Require Import Prelude TunnelTypes TunnelNat TunnelNatInv.

(** ** Searching a list *)

Definition session_matches (b : heap) (f : tunnel_session → bool) (x : loc) : Prop :=
  f <$> b !! x = Some true.
#[export] Instance session_matches_dec b f x : Decision (session_matches b f x).
Proof. unfold session_matches. apply _. Defined.

(** The first session of [l] that satisfies [f]. *)
Definition first_match (b : heap) (f : tunnel_session → bool) (l : list loc) : option loc :=
  head (filter (session_matches b f) l).

Lemma runs_search k f m (Q : option loc → memory → Prop) : ∀ l fuel p,
  seg k (m_sessions m) p l None → (length l ≤ fuel)%nat →
  Q (first_match (m_sessions m) f l) m → runs (search k f fuel (head l)) m Q.
Proof.
  induction l as [|x l IH]; intros fuel p Hs Hf HQ.
  - destruct fuel; by apply runs_ret.
  - destruct fuel as [|fuel]; [cbn in Hf; lia|]. destruct Hs as [Hx Hs]. cbn [search head].
    apply fmap_Some in Hx as (y & Hy & Hlk).
    apply runs_bind, (runs_load x y); [done|]. unfold first_match in *.
    destruct (f y) eqn:E.
    + apply runs_ret. rewrite filter_cons_True in HQ; [done|]. unfold session_matches.
      by rewrite Hy; cbn; rewrite E.
    + rewrite <-Hlk. cbn [next]. rewrite first_of_head. apply (IH _ (Some x)); [done|cbn in Hf; lia|].
      rewrite filter_cons_False in HQ; [done|]. unfold session_matches. rewrite Hy. cbn. congruence.
Qed.

Lemma members_bound n h a (l : list loc) : table_repr n h a → NoDup l → (∀ x, x ∈ l → x ∈ v_lru a) →
  (length l ≤ size h)%nat.
Proof.
  intros R Hd Hl. rewrite <-size_dom, <-(size_list_to_set (C := gset loc) l) by done.
  apply subseteq_size. intros y Hy%elem_of_list_to_set%Hl. apply elem_of_dom.
  by eapply seg_alive; [apply (tr_lru _ _ _ R)|].
Qed.

(** The sessions with everything but their links. *)
Definition bodies (m : memory) : heap := unlinked <$> m_sessions m.

Lemma bodies_same m m' : keeps m m' ↔ bodies m' = bodies m.
Proof.
  unfold keeps, same_bodies, bodies, body_at. split.
  - intros H. apply map_eq. intros x. by rewrite !lookup_fmap.
  - intros H x. by rewrite <-!lookup_fmap, H.
Qed.

Lemma keeps_refl m : keeps m m.
Proof. done. Qed.

(** Key and time of a session are part of its body. *)
Lemma session_matches_bodies m f x : (∀ s, f (unlinked s) = f s) →
  session_matches (m_sessions m) f x ↔ session_matches (bodies m) f x.
Proof.
  intros Hf. unfold session_matches, bodies. rewrite lookup_fmap.
  destruct (m_sessions m !! x); cbn; [by rewrite Hf|done].
Qed.

Lemma first_match_bodies m f l : (∀ s, f (unlinked s) = f s) →
  first_match (m_sessions m) f l = first_match (bodies m) f l.
Proof.
  intros Hf. unfold first_match. f_equal. apply list_filter_iff. intros x.
  by apply session_matches_bodies.
Qed.

Lemma same_key_bucket a b : key_same a b → key_bucket a = key_bucket b.
Proof. unfold key_bucket. by intros ->. Qed.

(** Searching the bucket of a key is searching the whole table. *)
Lemma first_match_bucket n h a key : table_repr n h a → key_uniform key →
  first_match h (λ x, tunnel_session_key_compare (se_key x) key =? 0)
    (in_bucket h (key_bucket key) (v_order a)) =
  first_match h (λ x, tunnel_session_key_compare (se_key x) key =? 0) (v_order a).
Proof.
  intros R Hk. unfold first_match, in_bucket. rewrite list_filter_filter. f_equal.
  pose proof (tr_uniform _ _ _ R) as Hu. revert Hu. generalize (v_order a). intros l.
  induction l as [|x l IH]; intros Hu; [done|].
  rewrite !filter_cons, IH by (intros; eapply Hu; [|done]; set_solver).
  assert (E : session_matches h (λ x, tunnel_session_key_compare (se_key x) key =? 0) x →
    bucket_at h x = Some (key_bucket key)).
  { unfold session_matches, bucket_at. intros (s & Hs & E)%fmap_Some. rewrite Hs. cbn. f_equal.
    apply same_key_bucket. split_and!; [eapply (Hu x s); [set_solver|done]|done|].
    symmetry in E. by apply Z.eqb_eq in E. }
  repeat case_decide; tauto || done.
Qed.

(** ** Lookups *)

Definition view_stats (st : nat_stats) (a : nat_view) : nat_view :=
  mk_view (v_order a) (v_lru a) (v_ports a) st.

Lemma table_stats n h a st : table_repr n h a → table_repr (set_stats st n) h (view_stats st a).
Proof. intros []. by split. Qed.

Lemma repr_stats m a n st : nat_repr m a → m_nat m = Some n →
  nat_repr (put_nat (set_stats st n) m) (view_stats st a).
Proof.
  intros (Hsz & n' & Hn' & R) Hn. simplify_eq. split; [done|]. eexists. split; [done|].
  by apply table_stats.
Qed.

Definition stats_lookup (found : bool) (st : nat_stats) : nat_stats :=
  mk_stats (wrap 64 (lookups st + 1)) (if found then wrap 64 (hits st + 1) else hits st)
    (if found then misses st else wrap 64 (misses st + 1)) (evictions st).

Definition is_key (key : tunnel_session_key) (x : tunnel_session) : bool :=
  tunnel_session_key_compare (se_key x) key =? 0.
Definition is_src (src : tunnel_endpoint) (protocol : Z) (x : tunnel_session) : bool :=
  (sk_protocol (se_key x) =? protocol) && (tunnel_endpoint_compare (sk_src (se_key x)) src =? 0).

Lemma runs_lookup m a key : nat_repr m a → key_uniform key →
  runs (tunnel_nat_lookup (Some key)) m (λ r m',
    r = first_match (bodies m) (is_key key) (v_order a) ∧
    nat_repr m' (view_stats (stats_lookup (non_null r) (v_stats a)) a) ∧ keeps m m').
Proof.
  intros Hr Hk. pose proof Hr as (Hsz & n & Hn & R).
  unfold tunnel_nat_lookup. apply (runs_with_nat _ _ n); [done|].
  apply runs_bind. eapply runs_update_nat; [done|]. apply runs_bind. eapply runs_the_nat; [done|].
  apply runs_bind, runs_gets. apply runs_bind.
  rewrite bucket_size by apply (tr_size _ _ _ R).
  change (nt_table (count_lookup n)) with (nt_table n). rewrite (tr_table _ _ _ R).
  eapply (runs_search _ _ (put_nat (count_lookup n) m)); [apply (tr_hash _ _ _ R)| |].
  { cbn [m_sessions put_nat]. apply Nat.le_le_succ_r. eapply members_bound; [apply R| |].
    - apply NoDup_filter, (tr_nodup _ _ _ R).
    - intros x [_ Hx]%elem_of_in_bucket. by rewrite (tr_perm _ _ _ R). }
  cbn [m_sessions put_nat]. rewrite (first_match_bucket n) by done.
  change (λ x, tunnel_session_key_compare (se_key x) key =? 0) with (is_key key).
  rewrite first_match_bodies by done. set (r := first_match _ _ _).
  apply runs_bind. eapply runs_update_nat; [done|]. apply runs_ret. split_and!; [done| |done].
  pose proof (tr_stats _ _ _ R) as Rst. split; [done|]. eexists. split; [done|].
  unfold count_hit, count_miss, stats_lookup. rewrite <-Rst.
  destruct (non_null r); by apply (table_stats _ _ (view_stats (nt_stats (count_lookup n)) a)), table_stats.
Qed.

Lemma runs_lookup_by_src m a src protocol : nat_repr m a →
  runs (tunnel_nat_lookup_by_src (Some src) protocol) m (λ r m',
    r = first_match (bodies m) (is_src src protocol) (v_lru a) ∧ m' = m).
Proof.
  intros (Hsz & n & Hn & R). unfold tunnel_nat_lookup_by_src. apply (runs_with_nat _ _ n); [done|].
  apply runs_bind. eapply runs_the_nat; [done|]. apply runs_bind, runs_gets.
  rewrite (tr_head _ _ _ R). eapply runs_search; [apply (tr_lru _ _ _ R)| |].
  - apply Nat.le_le_succ_r. eapply members_bound; [apply R| |done].
    rewrite (tr_perm _ _ _ R). apply (tr_nodup _ _ _ R).
  - split; [|done]. by apply first_match_bodies.
Qed.

(** ** Evictions *)

(** The sessions [d] leave the table. *)
Definition view_evict (d : list loc) (a : nat_view) : nat_view :=
  mk_view (filter (.∉ d) (v_order a)) (filter (.∉ d) (v_lru a)) (v_ports a)
    (mk_stats (lookups (v_stats a)) (hits (v_stats a)) (misses (v_stats a))
       (Nat.iter (length d) (λ e, wrap 64 (e + 1)) (evictions (v_stats a)))).

(** One round of an eviction loop. *)
Definition view_drop (s : loc) (a : nat_view) : nat_view :=
  view_stats (mk_stats (lookups (v_stats a)) (hits (v_stats a)) (misses (v_stats a))
    (wrap 64 (evictions (v_stats a) + 1))) (view_remove s a).

Lemma view_evict_cons s d a : view_evict d (view_drop s a) = view_evict (s :: d) a.
Proof.
  unfold view_evict, view_drop, view_stats, view_remove, without. cbn [v_order v_lru v_ports v_stats].
  f_equal.
  - rewrite list_filter_filter. apply list_filter_iff. intros x. rewrite not_elem_of_cons. tauto.
  - rewrite list_filter_filter. apply list_filter_iff. intros x. rewrite not_elem_of_cons. tauto.
  - cbn [lookups hits misses evictions length]. by rewrite Nat.iter_succ_r.
Qed.

#[export] Instance view_evict_proper : Proper ((≡ₚ) ==> eq ==> eq) view_evict.
Proof.
  intros d d' Hd a ? <-. unfold view_evict. rewrite (Permutation_length Hd).
  f_equal; apply list_filter_iff; intros x; by rewrite Hd.
Qed.

Lemma filter_not_in_nil (l : list loc) : filter (.∉ []) l = l.
Proof.
  induction l as [|x l IH]; [done|]. rewrite filter_cons_True by apply not_elem_of_nil.
  by rewrite IH.
Qed.

Lemma view_evict_nil a : view_evict [] a = a.
Proof. destruct a as [o l p []]. unfold view_evict. cbn. by rewrite !filter_not_in_nil. Qed.

Lemma runs_drop m a s : nat_repr m a → s ∈ v_lru a →
  runs (tunnel_nat_remove (Some s);; update_nat count_eviction) m (λ _ m',
    nat_repr m' (view_drop s a) ∧ keeps m m').
Proof.
  intros Hr Hs. apply runs_bind. eapply runs_mono; [by apply runs_remove|].
  intros _ m' (Hr' & K & _). pose proof Hr' as (_ & n & Hn & R).
  eapply runs_update_nat; [done|]. split; [|done]. unfold count_eviction.
  rewrite (tr_stats _ _ _ R). by apply repr_stats.
Qed.

Lemma bind_assoc {S A B C} (c : M S A) (f : A → M S B) (g : B → M S C) s :
  (c ≫= (λ x, f x ≫= g)) s = ((c ≫= f) ≫= g) s.
Proof. unfold mbind, M_bind. by destruct (c s) as [[x s']|]. Qed.

(** A round, then the rest of the loop. *)
Lemma runs_drop_bind {A} m a s (c : Mem A) (Q : A → memory → Prop) : nat_repr m a → s ∈ v_lru a →
  (∀ m', nat_repr m' (view_drop s a) → keeps m m' → runs c m' Q) →
  runs (tunnel_nat_remove (Some s);; update_nat count_eviction;; c) m Q.
Proof.
  intros Hr Hs Hc. assert (H : runs ((tunnel_nat_remove (Some s);; update_nat count_eviction);; c) m Q).
  { apply runs_bind. eapply runs_mono; [by apply runs_drop|]. intros _ m' [? ?]. by apply Hc. }
  destruct H as (x & m' & E & HQ). exists x, m'. split; [|done]. by rewrite <-E, <-bind_assoc.
Qed.

Lemma take_snoc_short (k : nat) (l : list loc) s : (k ≤ length l)%nat →
  take k (l ++ [s]) = take k l ∧ drop k (l ++ [s]) ≡ₚ s :: drop k l.
Proof.
  intros Hk. rewrite take_app_le, drop_app_le by done. split; [done|]. by rewrite Permutation_app_comm.
Qed.

Lemma runs_evict_oldest_loop max : 0 <= max → ∀ l m a e, nat_repr m a → v_lru a = l →
  runs (evict_oldest_loop max (length l) e) m (λ r m',
    r = e + Z.of_nat (length (drop (Z.to_nat max) l)) ∧
    nat_repr m' (view_evict (drop (Z.to_nat max) l) a) ∧ keeps m m').
Proof.
  intros Hmax l. induction l as [|s l IH] using rev_ind; intros m a e Hr Hl.
  - pose proof Hr as (_ & n & Hn & R). cbn [evict_oldest_loop length].
    apply runs_bind. eapply runs_the_nat; [done|].
    rewrite drop_nil, view_evict_nil. destruct (nt_lru_tail n); apply runs_ret;
      split_and!; try done; cbn; lia.
  - pose proof Hr as (_ & n & Hn & R). rewrite length_app, Nat.add_comm. cbn [length Nat.add evict_oldest_loop].
    apply runs_bind. eapply runs_the_nat; [done|].
    rewrite (tr_tail _ _ _ R), (tr_count _ _ _ R), Hl, last_snoc, length_app. cbn [length].
    destruct (Z.ltb_spec max (Z.of_nat (length l + 1))) as [Hlt|Hge].
    + destruct (take_snoc_short (Z.to_nat max) l s) as [_ Hp]; [lia|].
      apply (runs_drop_bind _ a); [done|rewrite Hl; set_solver|]. intros m' Hr' K.
      eapply runs_mono; [apply IH; [done|]|].
      { unfold view_drop, view_remove. cbn. rewrite Hl.
        rewrite without_split; [by rewrite app_nil_r|].
        rewrite <-Hl, (tr_perm _ _ _ R). apply (tr_nodup _ _ _ R). }
      intros r m'' (-> & Hr'' & K'). rewrite view_evict_cons in Hr''. rewrite Hp. cbn [length].
      split_and!; [lia|done|by eapply keeps_trans].
    + rewrite drop_ge by (rewrite length_app; cbn; lia). rewrite view_evict_nil.
      apply runs_ret. split_and!; try done. cbn. lia.
Qed.

Lemma runs_evict_oldest m a max : nat_repr m a → 0 <= max →
  runs (tunnel_nat_evict_oldest max) m (λ r m',
    r = Z.of_nat (length (drop (Z.to_nat max) (v_lru a))) ∧
    nat_repr m' (view_evict (drop (Z.to_nat max) (v_lru a)) a) ∧ keeps m m').
Proof.
  intros Hr Hmax. pose proof Hr as (_ & n & Hn & R). apply (runs_with_nat _ _ n); [done|].
  apply runs_bind. eapply runs_the_nat; [done|]. rewrite (tr_count _ _ _ R), Nat2Z.id.
  by apply runs_evict_oldest_loop.
Qed.

Section Expiry.
Context (now tcp udp : Z).

Definition expired_at (b : heap) : loc → Prop := session_matches b (session_expired now tcp udp).
#[export] Instance expired_at_dec b x : Decision (expired_at b x).
Proof. unfold expired_at. apply _. Defined.

Lemma expired_at_session m s y : m_sessions m !! s = Some y →
  expired_at (bodies m) s ↔ session_expired now tcp udp y = true.
Proof.
  intros Hy. unfold expired_at. rewrite <-session_matches_bodies by done.
  unfold session_matches. rewrite Hy. cbn. split; [by intros [= ?]|by intros ->].
Qed.

Lemma runs_evict_expired_loop : ∀ l kept m a fuel e, nat_repr m a → v_lru a = l ++ kept →
  (length l ≤ fuel)%nat →
  runs (evict_expired_loop now tcp udp fuel (last l) e) m (λ r m',
    r = e + Z.of_nat (length (filter (expired_at (bodies m)) l)) ∧
    nat_repr m' (view_evict (filter (expired_at (bodies m)) l) a) ∧ keeps m m').
Proof.
  induction l as [|s l IH] using rev_ind; intros kept m a fuel e Hr Hl Hf.
  - rewrite filter_nil, view_evict_nil. cbn [last]. destruct fuel; apply runs_ret; split_and!; try done;
      cbn; lia.
  - pose proof Hr as (_ & n & Hn & R). rewrite length_app in Hf. cbn in Hf.
    destruct fuel as [|fuel]; [lia|]. rewrite last_snoc. cbn [evict_expired_loop].
    rewrite <-app_assoc in Hl. cbn [app] in Hl. pose proof (tr_lru _ _ _ R) as Hs. rewrite Hl in Hs.
    apply seg_at, fmap_Some in Hs as (y & Hy & Hlk).
    apply runs_bind, (runs_load s y); [done|]. cbn zeta.
    change (se_lru y) with (link_of LRU y). rewrite <-Hlk. cbn [prev].
    pose proof (expired_at_session _ _ _ Hy) as He. rewrite filter_app, filter_cons, filter_nil.
    destruct (session_expired now tcp udp y).
    + rewrite decide_True by (by apply He).
      apply (runs_drop_bind _ a); [done|rewrite Hl; set_solver|]. intros m' Hr' K.
      eapply runs_mono; [apply (IH kept); [done| |lia]|].
      { unfold view_drop, view_remove. cbn. rewrite Hl. apply without_split.
        rewrite <-Hl, (tr_perm _ _ _ R). apply (tr_nodup _ _ _ R). }
      pose proof K as Kb. apply bodies_same in Kb. rewrite Kb.
      intros r m'' (-> & Hr'' & K'). rewrite view_evict_cons in Hr''.
      rewrite length_app. cbn [length]. rewrite (Permutation_app_comm _ [s]). cbn [app].
      split_and!; [lia|done|by eapply keeps_trans].
    + rewrite decide_False, app_nil_r by (intros C; by apply He in C).
      apply (IH (s :: kept)); [done..|lia].
Qed.

End Expiry.

Lemma runs_evict_expired m a time tcp udp : nat_repr m a →
  let d := filter (expired_at (wrap 64 (time * 1000)) tcp udp (bodies m)) (v_lru a) in
  runs (tunnel_nat_evict_expired time tcp udp) m (λ r m',
    r = Z.of_nat (length d) ∧ nat_repr m' (view_evict d a) ∧ keeps m m').
Proof.
  intros Hr d. pose proof Hr as (_ & n & Hn & R). apply (runs_with_nat _ _ n); [done|].
  apply runs_bind. eapply runs_the_nat; [done|]. apply runs_bind, runs_gets.
  rewrite (tr_tail _ _ _ R). apply (runs_evict_expired_loop _ _ _ (v_lru a) [] _ _ _ 0); [done| |].
  - by rewrite app_nil_r.
  - apply Nat.le_le_succ_r. eapply members_bound; [apply R| |done].
    rewrite (tr_perm _ _ _ R). apply (tr_nodup _ _ _ R).
Qed.

(** ** UDP ports *)

Definition view_ports (P : gset Z) (a : nat_view) : nat_view :=
  mk_view (v_order a) (v_lru a) P (v_stats a).

Definition udp_port (p : Z) : Prop := TUNNEL_NAT_UDP_PORT_MIN <= p <= TUNNEL_NAT_UDP_PORT_MAX.

Lemma port_outside_spec p : port_outside p = false ↔ udp_port p.
Proof.
  unfold port_outside, udp_port, TUNNEL_NAT_UDP_PORT_MIN, TUNNEL_NAT_UDP_PORT_MAX.
  rewrite orb_false_iff, !Z.ltb_ge. lia.
Qed.

(** A bit of the bitmap is that bit of its byte. *)
Lemma port_bitmap_bit n p : udp_port p → port_bitmap_get n p =
  Z.b2z (Z.testbit (bitmap_byte n ((p - TUNNEL_NAT_UDP_PORT_MIN) / 8)) ((p - TUNNEL_NAT_UDP_PORT_MIN) mod 8)).
Proof.
  intros Hp. unfold port_bitmap_get. rewrite (proj2 (port_outside_spec p) Hp).
  rewrite wrap_small by (unfold udp_port, uint, TUNNEL_NAT_UDP_PORT_MIN, TUNNEL_NAT_UDP_PORT_MAX in *; lia).
  change 1 with (Z.ones 1). rewrite Z.land_ones, Z.shiftr_div_pow2 by (try apply Z.mod_pos_bound; lia).
  symmetry. apply Z.testbit_spec'. apply Z.mod_pos_bound. lia.
Qed.

Lemma testbit_set b (v : bool) i j : 0 <= i < 8 → 0 <= j < 8 →
  Z.testbit (wrap 8 (if v then Z.lor b (Z.shiftl 1 i) else Z.land b (Z.lnot (Z.shiftl 1 i)))) j =
  if j =? i then v else Z.testbit b j.
Proof.
  intros Hi Hj. unfold wrap. rewrite Z.mod_pow2_bits_low by lia.
  rewrite Z.shiftl_1_l. destruct v.
  - rewrite Z.lor_spec, Z.pow2_bits_eqb, (Z.eqb_sym j) by lia.
    destruct (i =? j); [by rewrite orb_true_r|by rewrite orb_false_r].
  - rewrite Z.land_spec, Z.lnot_spec, Z.pow2_bits_eqb, (Z.eqb_sym j) by lia.
    destruct (i =? j); [by rewrite andb_false_r|by rewrite andb_true_r].
Qed.

Lemma bitmap_byte_set n i j v : bitmap_byte (set_bitmap i v n) j =
  if j =? i then v else bitmap_byte n j.
Proof.
  unfold bitmap_byte. cbn. destruct (Z.eqb_spec j i) as [->|Hj].
  - by rewrite lookup_insert_eq.
  - by rewrite lookup_insert_ne.
Qed.

Lemma port_bitmap_set_get n p q v : port_bitmap_get (port_bitmap_set p v n) q =
  if bool_decide (udp_port p ∧ p = q) then Z.b2z v else port_bitmap_get n q.
Proof.
  unfold port_bitmap_set. destruct (port_outside p) eqn:Hp.
  { rewrite bool_decide_eq_false_2; [done|]. intros [H%port_outside_spec _]. congruence. }
  apply port_outside_spec in Hp.
  rewrite wrap_small by (unfold udp_port, uint, TUNNEL_NAT_UDP_PORT_MIN, TUNNEL_NAT_UDP_PORT_MAX in *; lia).
  destruct (port_outside q) eqn:Hq.
  { rewrite bool_decide_eq_false_2.
    - unfold port_bitmap_get. by rewrite Hq.
    - intros [_ ->]. apply port_outside_spec in Hp. congruence. }
  apply port_outside_spec in Hq. rewrite !port_bitmap_bit by done. rewrite bitmap_byte_set.
  set (i := p - _) in *. set (j := q - _) in *.
  pose proof (Z.mod_pos_bound i 8 ltac:(lia)). pose proof (Z.mod_pos_bound j 8 ltac:(lia)).
  destruct (decide (p = q)) as [->|Hpq].
  { rewrite bool_decide_eq_true_2 by done. rewrite Z.eqb_refl, testbit_set, Z.eqb_refl by done. done. }
  rewrite bool_decide_eq_false_2 by tauto. destruct (Z.eqb_spec (j / 8) (i / 8)) as [E|]; [|done].
  rewrite testbit_set by done. destruct (Z.eqb_spec (j mod 8) (i mod 8)) as [E'|]; [|by rewrite E].
  exfalso. apply Hpq. enough (i = j) by lia.
  rewrite (Z.div_mod i 8), (Z.div_mod j 8) by lia. by rewrite E, E'.
Qed.

Lemma table_port n h a p v : table_repr n h a → table_repr (port_bitmap_set p v n) h
  (view_ports (if decide (udp_port p) then if (v : bool) then {[p]} ∪ v_ports a else v_ports a ∖ {[p]}
               else v_ports a) a).
Proof.
  intros R. assert (E : ∃ bm, port_bitmap_set p v n = mk_nat (nt_table n) (nt_table_size n)
    (nt_session_count n) (nt_lru_head n) (nt_lru_tail n) (nt_next_udp_port n) bm (nt_stats n)).
  { unfold port_bitmap_set. destruct (port_outside p); [by destruct n; eexists|by eexists]. }
  pose proof (port_bitmap_set_get n p) as Hg. destruct E as [bm E].
  destruct R as [Rsz Rnd Rpm Rlr Rhd Rtl Rha Rtb Rct Run Rpo Rst Rnx].
  split; try by rewrite ?E. intros q. rewrite Hg, Rpo. cbn [v_ports view_ports].
  destruct (decide (udp_port p)) as [Hp|Hp].
  - destruct (decide (p = q)) as [->|Hpq].
    + rewrite (bool_decide_eq_true_2 (_ ∧ _)) by done. destruct v; cbn.
      * rewrite bool_decide_eq_true_2; [done|set_solver].
      * rewrite bool_decide_eq_false_2; [done|set_solver].
    + rewrite (bool_decide_eq_false_2 (_ ∧ _)) by tauto. erewrite bool_decide_ext; [done|].
      destruct v; set_solver.
  - rewrite (bool_decide_eq_false_2 (_ ∧ _)) by tauto. done.
Qed.

Lemma port_after_spec p : udp_port p → udp_port (port_after p) ∧
  port_after p = if p =? TUNNEL_NAT_UDP_PORT_MAX then TUNNEL_NAT_UDP_PORT_MIN else p + 1.
Proof.
  unfold udp_port, port_after, TUNNEL_NAT_UDP_PORT_MIN, TUNNEL_NAT_UDP_PORT_MAX. intros Hp.
  rewrite wrap_small by (unfold uint; lia).
  destruct (Z.ltb_spec 60000 (p + 1)), (Z.eqb_spec p 60000); lia.
Qed.

(** How many ports the loop tries before [x]. *)
Definition port_steps (start x : Z) : Z :=
  if start <=? x then x - start
  else x - start + (TUNNEL_NAT_UDP_PORT_MAX - TUNNEL_NAT_UDP_PORT_MIN + 1).

Lemma port_steps_after start p : udp_port start → udp_port p → port_after p ≠ start →
  port_steps start (port_after p) = port_steps start p + 1.
Proof.
  intros Hs Hp Hne. destruct (port_after_spec p Hp) as [_ E]. rewrite E in *. clear E.
  unfold udp_port, port_steps, TUNNEL_NAT_UDP_PORT_MIN, TUNNEL_NAT_UDP_PORT_MAX in *.
  destruct (Z.eqb_spec p 60000); repeat case_match; bool_prop; lia.
Qed.

Lemma port_steps_last start p q : udp_port start → udp_port p → udp_port q → port_after p = start →
  q = p ∨ port_steps start q < port_steps start p.
Proof.
  intros Hs Hp Hq He. destruct (port_after_spec p Hp) as [_ E]. rewrite E in *. clear E.
  unfold udp_port, port_steps, TUNNEL_NAT_UDP_PORT_MIN, TUNNEL_NAT_UDP_PORT_MAX in *.
  destruct (Z.eqb_spec p 60000); repeat case_match; bool_prop; lia.
Qed.

Lemma port_steps_inj start p q : udp_port start → udp_port p → udp_port q →
  port_steps start q = port_steps start p → q = p.
Proof.
  unfold udp_port, port_steps, TUNNEL_NAT_UDP_PORT_MIN, TUNNEL_NAT_UDP_PORT_MAX.
  intros. repeat case_match; bool_prop; lia.
Qed.

(** The search finds a free port if there is one, and always ends. *)
Lemma alloc_port_search n start : udp_port start → ∀ fuel p, udp_port p →
  (∀ q, udp_port q → port_steps start q < port_steps start p → port_bitmap_get n q ≠ 0) →
  Z.of_nat fuel + port_steps start p = TUNNEL_NAT_UDP_PORT_MAX - TUNNEL_NAT_UDP_PORT_MIN + 1 →
  ∃ r n', alloc_port_loop start fuel p n = Some (r, n') ∧
    ((udp_port r ∧ port_bitmap_get n r = 0 ∧
      n' = set_next_port (port_after r) (port_bitmap_set r true n)) ∨
     (r = 0 ∧ n' = n ∧ ∀ q, udp_port q → port_bitmap_get n q ≠ 0)).
Proof.
  intros Hs. induction fuel as [|fuel IH]; intros p Hp Hused Hf.
  { exfalso. unfold udp_port, port_steps, TUNNEL_NAT_UDP_PORT_MIN, TUNNEL_NAT_UDP_PORT_MAX in *.
    case_match; bool_prop; lia. }
  cbn [alloc_port_loop]. destruct (Z.eqb_spec (port_bitmap_get n p) 0) as [E|E].
  { exists p. eexists. split; [done|]. by left. }
  destruct (Z.eqb_spec (port_after p) start) as [Ea|Ea].
  - exists 0, n. split; [done|]. right. split_and!; try done. intros q Hq.
    destruct (port_steps_last start p q) as [->|?]; [done..|]. by apply Hused.
  - apply IH; [by apply port_after_spec| |].
    + rewrite port_steps_after by done. intros q Hq Hlt.
      destruct (decide (q = p)) as [->|Hqp]; [done|]. apply Hused; [done|].
      assert (port_steps start q ≠ port_steps start p) by (intros C; by apply Hqp, (port_steps_inj start)).
      lia.
    + rewrite port_steps_after by done. lia.
Qed.

Lemma runs_alloc_port m a : nat_repr m a →
  runs tunnel_nat_alloc_udp_port m (λ r m', keeps m m' ∧
    ((udp_port r ∧ r ∉ v_ports a ∧ nat_repr m' (view_ports ({[r]} ∪ v_ports a) a)) ∨
     (r = 0 ∧ (∀ q, udp_port q → q ∈ v_ports a) ∧ nat_repr m' a))).
Proof.
  intros (Hsz & n & Hn & R). apply (runs_with_nat _ _ n); [done|].
  apply runs_bind. eapply runs_the_nat; [done|]. pose proof (tr_ports _ _ _ R) as Rpo.
  pose proof (tr_next _ _ _ R : udp_port _) as Rnx.
  destruct (alloc_port_search n (nt_next_udp_port n) Rnx port_range (nt_next_udp_port n) Rnx)
    as (r & n' & -> & Hr).
  { unfold port_steps at 2. rewrite Z.leb_refl. intros q Hq Hlt.
    unfold udp_port, port_steps, TUNNEL_NAT_UDP_PORT_MIN, TUNNEL_NAT_UDP_PORT_MAX in *.
    case_match; bool_prop; lia. }
  { unfold port_steps. rewrite Z.leb_refl. unfold port_range. rewrite Z2Nat.id by (by vm_compute). lia. }
  apply runs_bind. eapply runs_update_nat; [done|]. apply runs_ret. split; [done|].
  destruct Hr as [(Hp & Hfree & ->)|(-> & -> & Hall)].
  - left. split_and!; [done| |].
    + rewrite Rpo in Hfree. by case_bool_decide.
    + split; [done|]. eexists. split; [done|].
      pose proof (table_port _ _ _ r true R) as R'. rewrite decide_True in R' by done.
      destruct R'. split; try done. cbn. by apply port_after_spec.
  - right. split_and!; [done| |by split; eauto]. intros q Hq%Hall. rewrite Rpo in Hq.
    by case_bool_decide.
Qed.

Lemma runs_free_port m a p : nat_repr m a →
  runs (tunnel_nat_free_udp_port p) m (λ _ m', keeps m m' ∧
    nat_repr m' (view_ports (v_ports a ∖ {[p]}) a)).
Proof.
  intros (Hsz & n & Hn & R). apply (runs_with_nat _ _ n); [done|].
  eapply runs_update_nat; [done|]. split; [done|]. split; [done|]. eexists. split; [done|].
  pose proof (table_port _ _ _ p false R) as R'. destruct (decide (udp_port p)) as [|Hp]; [done|].
  assert (E : p ∉ v_ports a).
  { pose proof (tr_ports _ _ _ R p) as Rpo. unfold port_bitmap_get in Rpo.
    rewrite <-port_outside_spec, not_false_iff_true in Hp. rewrite Hp in Rpo. by case_bool_decide. }
  by replace (v_ports a ∖ {[p]}) with (v_ports a) by set_solver.
Qed.

(** ** The specification *)

Inductive nat_call : Type :=
  | Insert (s : loc)
  | Remove (s : loc)
  | Touch (s : loc)
  | Lookup (key : tunnel_session_key)
  | LookupReverse (dst src : tunnel_endpoint) (protocol : Z)
  | LookupBySrc (src : tunnel_endpoint) (protocol : Z)
  | GetOldest
  | EvictOldest (max_sessions : Z)
  | EvictExpired (time tcp_timeout_ms udp_timeout_ms : Z)
  | AllocPort
  | FreePort (port : Z)
  | PortInUse (port : Z)
  | SessionCount
  | GetStats
  | ResetStats
  | Clear.

Inductive nat_answer : Type :=
  | Done
  | Number (v : Z)
  | Found (p : option loc)
  | Stats (st : option nat_stats).

Definition exec (c : nat_call) : Mem nat_answer :=
  match c with
  | Insert s => r ← tunnel_nat_insert (Some s); mret (Number r)
  | Remove s => tunnel_nat_remove (Some s);; mret Done
  | Touch s => tunnel_nat_touch (Some s);; mret Done
  | Lookup key => r ← tunnel_nat_lookup (Some key); mret (Found r)
  | LookupReverse dst src protocol => r ← tunnel_nat_lookup_reverse dst src protocol; mret (Found r)
  | LookupBySrc src protocol => r ← tunnel_nat_lookup_by_src (Some src) protocol; mret (Found r)
  | GetOldest => r ← tunnel_nat_get_oldest; mret (Found r)
  | EvictOldest max => r ← tunnel_nat_evict_oldest max; mret (Number r)
  | EvictExpired time tcp udp => r ← tunnel_nat_evict_expired time tcp udp; mret (Number r)
  | AllocPort => r ← tunnel_nat_alloc_udp_port; mret (Number r)
  | FreePort port => tunnel_nat_free_udp_port port;; mret Done
  | PortInUse port => r ← tunnel_nat_udp_port_in_use port; mret (Number r)
  | SessionCount => r ← tunnel_nat_session_count; mret (Number r)
  | GetStats => r ← tunnel_nat_get_stats; mret (Stats r)
  | ResetStats => tunnel_nat_reset_stats;; mret Done
  | Clear => tunnel_nat_clear;; mret Done
  end.

Fixpoint run_calls (cs : list nat_call) : Mem (list nat_answer) :=
  match cs with
  | [] => mret []
  | c :: cs => r ← exec c; rs ← run_calls cs; mret (r :: rs)
  end.

(** What the caller must see to: a session is inserted when it is not on the
    table, removed and touched when it is; keys are of one family. *)
Definition call_ready (b : heap) (c : nat_call) (a : nat_view) : Prop :=
  match c with
  | Insert s => s ∉ v_order a ∧ ∃ x, b !! s = Some x ∧ key_uniform (se_key x)
  | Remove s | Touch s => s ∈ v_lru a
  | Lookup key => key_uniform key
  | LookupReverse dst src protocol => key_uniform (mk_key dst src protocol)
  | EvictOldest max => 0 <= max
  | _ => True
  end.

(** The calls on the two lists and the set of ports.  [b] holds the sessions.  An
    allocation may answer any free port. *)
Definition nat_spec (b : heap) (c : nat_call) (a : nat_view) (r : nat_answer) (a' : nat_view) : Prop :=
  let lookup key :=
    let p := first_match b (is_key key) (v_order a) in
    r = Found p ∧ a' = view_stats (stats_lookup (non_null p) (v_stats a)) a in
  let evict d := r = Number (Z.of_nat (length d)) ∧ a' = view_evict d a in
  match c with
  | Insert s => r = Number TUNNEL_OK ∧ a' = view_insert s a
  | Remove s => r = Done ∧ a' = view_remove s a
  | Touch s => r = Done ∧ a' = view_touch s a
  | Lookup key => lookup key
  | LookupReverse dst src protocol => lookup (mk_key dst src protocol)
  | LookupBySrc src protocol => r = Found (first_match b (is_src src protocol) (v_lru a)) ∧ a' = a
  | GetOldest => r = Found (last (v_lru a)) ∧ a' = a
  | EvictOldest max => evict (drop (Z.to_nat max) (v_lru a))
  | EvictExpired time tcp udp =>
      evict (filter (expired_at (wrap 64 (time * 1000)) tcp udp b) (v_lru a))
  | AllocPort =>
      (∃ p, udp_port p ∧ p ∉ v_ports a ∧ r = Number p ∧ a' = view_ports ({[p]} ∪ v_ports a) a) ∨
      ((∀ p, udp_port p → p ∈ v_ports a) ∧ r = Number 0 ∧ a' = a)
  | FreePort port => r = Done ∧ a' = view_ports (v_ports a ∖ {[port]}) a
  | PortInUse port => r = Number (if bool_decide (port ∈ v_ports a) then 1 else 0) ∧ a' = a
  | SessionCount => r = Number (Z.of_nat (length (v_lru a))) ∧ a' = a
  | GetStats => r = Stats (Some (v_stats a)) ∧ a' = a
  | ResetStats => r = Done ∧ a' = view_stats (mk_stats 0 0 0 0) a
  | Clear => r = Done ∧ a' = mk_view [] [] ∅ (mk_stats 0 0 0 0)
  end.

Inductive nat_trace (b : heap) : nat_view → list nat_call → list nat_answer → nat_view → Prop :=
  | trace_nil a : nat_trace b a [] [] a
  | trace_cons a c cs r rs a1 a' : nat_spec b c a r a1 → nat_trace b a1 cs rs a' →
      nat_trace b a (c :: cs) (r :: rs) a'.

(** The calls can be made one after another. *)
Fixpoint calls_ready (b : heap) (cs : list nat_call) (a : nat_view) : Prop :=
  match cs with
  | [] => True
  | c :: cs => call_ready b c a ∧ ∀ r a', nat_spec b c a r a' → calls_ready b cs a'
  end.

Lemma empty_repr h : Z.of_nat (size h) < 2 ^ 64 →
  table_repr empty_nat h (mk_view [] [] ∅ (mk_stats 0 0 0 0)).
Proof.
  intros _. split; try done.
  - apply NoDup_nil_2.
  - intros x s Hx. by apply not_elem_of_nil in Hx.
  - intros p. unfold port_bitmap_get, bitmap_byte. cbn. rewrite Z.shiftr_0_l. by destruct (port_outside p).
Qed.

Lemma nat_call_refines m a c : nat_repr m a → call_ready (bodies m) c a →
  runs (exec c) m (λ r m', ∃ a', nat_spec (bodies m) c a r a' ∧ nat_repr m' a' ∧ keeps m m').
Proof.
  intros Hr Hc. pose proof Hr as (Hsz & n & Hn & R).
  destruct c; cbn [exec call_ready nat_spec] in *; apply runs_bind.
  - destruct Hc as (Hs & x & Hx & Hu). unfold bodies in Hx. rewrite lookup_fmap in Hx.
    apply fmap_Some in Hx as (y & Hy & ->).
    eapply runs_mono; [by eapply runs_insert|]. intros r m' (-> & ? & ?). apply runs_ret. eauto.
  - eapply runs_mono; [by apply runs_remove|]. intros r m' (? & ? & _). apply runs_ret. eauto.
  - eapply runs_mono; [by apply runs_touch|]. intros r m' (? & ?). apply runs_ret. eauto.
  - eapply runs_mono; [by apply runs_lookup|]. intros r m' (-> & ? & ?). apply runs_ret. eauto.
  - eapply runs_mono; [by apply runs_lookup|]. intros r m' (-> & ? & ?). apply runs_ret. eauto.
  - eapply runs_mono; [by apply runs_lookup_by_src|]. intros r m' (-> & ->). apply runs_ret. eauto using keeps_refl.
  - apply (runs_with_nat _ _ n); [done|]. apply runs_bind. eapply runs_the_nat; [done|].
    apply runs_ret, runs_ret. rewrite (tr_tail _ _ _ R). eauto using keeps_refl.
  - eapply runs_mono; [by apply runs_evict_oldest|]. intros r m' (-> & ? & ?). apply runs_ret. eauto.
  - eapply runs_mono; [by apply runs_evict_expired|]. intros r m' (-> & ? & ?). apply runs_ret. eauto.
  - eapply runs_mono; [by apply runs_alloc_port|]. intros r m' (? & [(? & ? & ?)|(-> & ? & ?)]); apply runs_ret;
      eexists; (split; [|done]); [left; eauto|right; eauto].
  - eapply runs_mono; [by apply runs_free_port|]. intros r m' (? & ?). apply runs_ret. eauto.
  - apply (runs_with_nat _ _ n); [done|]. apply runs_bind. eapply runs_the_nat; [done|].
    apply runs_ret, runs_ret. rewrite (tr_ports _ _ _ R). eauto using keeps_refl.
  - apply (runs_with_nat _ _ n); [done|]. apply runs_bind. eapply runs_the_nat; [done|].
    apply runs_ret, runs_ret. rewrite (tr_count _ _ _ R). eauto using keeps_refl.
  - apply (runs_with_nat _ _ n); [done|]. apply runs_bind. eapply runs_the_nat; [done|].
    apply runs_ret, runs_ret. rewrite (tr_stats _ _ _ R). eauto using keeps_refl.
  - apply (runs_with_nat _ _ n); [done|]. eapply runs_update_nat; [done|]. apply runs_ret.
    eexists. split; [done|]. split; [by apply repr_stats|done].
  - apply (runs_with_nat _ _ n); [done|]. eapply runs_update_nat; [done|]. apply runs_ret.
    eexists. split; [done|]. split; [|done]. split; [done|]. eexists. split; [done|].
    rewrite (tr_size _ _ _ R). by apply empty_repr.
Qed.

Lemma run_calls_refine cs : ∀ m a, nat_repr m a → calls_ready (bodies m) cs a →
  runs (run_calls cs) m (λ rs m', ∃ a', nat_trace (bodies m) a cs rs a' ∧ nat_repr m' a' ∧ keeps m m').
Proof.
  induction cs as [|c cs IH]; intros m a Hr Hc; cbn [run_calls calls_ready] in *.
  - apply runs_ret. exists a. split_and!; [constructor|done|done].
  - destruct Hc as [Hc Hcs]. apply runs_bind. eapply runs_mono; [by apply nat_call_refines|].
    intros r m1 (a1 & Hsp & Hr1 & K1). pose proof K1 as E. apply bodies_same in E.
    apply runs_bind. eapply runs_mono; [apply (IH m1 a1); [done|]; rewrite E; eauto|]. rewrite E.
    intros rs m' (a' & Ht & Hr' & K'). apply runs_ret. exists a'.
    split_and!; [by econstructor|done|by eapply keeps_trans].
Qed.

(** C3: the session table does what its specification says.  From a new table and
    any sessions in memory, every sequence of calls that respects the
    preconditions returns, follows no pointer to released memory, and answers as
    the specification does; insertion, removal, lookup, use and eviction act on
    two lists, and the contents of the sessions do not change. *)
Theorem nat_refines_spec (h : heap) (n : tunnel_nat) (cs : list nat_call) :
  Z.of_nat (size h) < 2 ^ 64 → tunnel_nat_create true true = Some n →
  calls_ready (bodies (mk_memory (Some n) h)) cs (mk_view [] [] ∅ (mk_stats 0 0 0 0)) →
  ∃ rs m' a', run_calls cs (mk_memory (Some n) h) = Some (rs, m') ∧
    nat_trace (bodies (mk_memory (Some n) h)) (mk_view [] [] ∅ (mk_stats 0 0 0 0)) cs rs a' ∧
    nat_repr m' a' ∧ bodies m' = bodies (mk_memory (Some n) h).
Proof.
  intros Hsz [= <-] Hc.
  assert (Hr : nat_repr (mk_memory (Some empty_nat) h) (mk_view [] [] ∅ (mk_stats 0 0 0 0)))
    by (split; [done|eexists; split; [done|by apply empty_repr]]).
  destruct (run_calls_refine cs _ _ Hr Hc) as (rs & m' & E & a' & Ht & Hr' & K%bodies_same).
  by exists rs, m', a'.
Qed.

(** ** Calls on a session that is not on the table *)

(** Evaluate a call on a table that is known. *)
Ltac run_table H :=
  unfold update_nat, all_sessions, with_nat, the_nat, gets, modify, mbind, M_bind, mret, M_ret;
  repeat (cbn; rewrite ?H); cbn.

(** Its links are NULL, as removal leaves them. *)
Definition off_table (m : memory) (a : nat_view) (s : loc) : Prop := detached m s ∧ s ∉ v_lru a.

(** [unlink] takes a detached session for both first and last. *)
Lemma runs_unlink_detached k s n m onf onl (Q : unit → memory → Prop) :
  link_at k (m_sessions m) s = Some (mk_links None None) → m_nat m = Some n →
  runs (onf None) m (λ _ m1, m_sessions m1 = m_sessions m ∧ runs (onl None) m1 Q) →
  runs (unlink k s onf onl) m Q.
Proof.
  intros Hl Hn H. unfold unlink. apply runs_bind, (runs_get_prev k s _ _ Hl). cbn [prev].
  apply runs_bind, runs_bind, (runs_get_next k s _ _ Hl). cbn [next].
  eapply runs_mono; [exact H|]. intros _ m1 [E H1]. rewrite <-E in Hl.
  apply runs_bind, (runs_get_next k s _ _ Hl). cbn [next].
  by apply runs_bind, (runs_get_prev k s _ _ Hl).
Qed.


(** Removing a session twice loses others.  Removing a session that is off the
    table empties its bucket and the whole order of use: no session with a key of
    that bucket is found, none by source, and none is evicted. *)
Theorem nat_remove_off_table (m : memory) (a : nat_view) (s : loc) (x : tunnel_session) :
  nat_repr m a → off_table m a s → m_sessions m !! s = Some x →
  ∃ m' n', tunnel_nat_remove (Some s) m = Some (tt, m') ∧ m_nat m' = Some n' ∧
    nt_table n' !! key_bucket (se_key x) = None ∧ nt_lru_head n' = None ∧ nt_lru_tail n' = None ∧
    (∀ key, key_bucket key = key_bucket (se_key x) →
      ∃ m'', tunnel_nat_lookup (Some key) m' = Some (None, m'')) ∧
    (∀ src protocol, tunnel_nat_lookup_by_src (Some src) protocol m' = Some (None, m')) ∧
    (∀ time tcp udp, tunnel_nat_evict_expired time tcp udp m' = Some (0, m')).
Proof.
  intros (Hsz & n & Hn & R) [Hd Hs] Hx.
  pose proof (tr_size _ _ _ R) as Rsz.
  assert (H : runs (tunnel_nat_remove (Some s)) m (λ _ m', ∃ n', m_nat m' = Some n' ∧
    nt_table_size n' = TUNNEL_NAT_HASH_SIZE ∧
    nt_table n' !! key_bucket (se_key x) = None ∧ nt_lru_head n' = None ∧ nt_lru_tail n' = None)).
  { apply (runs_with_nat _ _ n); [done|]. apply runs_bind. eapply runs_load; [done|].
    apply runs_bind. eapply runs_the_nat; [done|]. rewrite bucket_size by done.
    apply runs_bind. eapply runs_unlink_detached; [apply Hd|done|].
    eapply runs_update_nat; [done|]. split; [done|]. apply runs_ret.
    apply runs_bind. eapply runs_unlink_detached; [apply Hd|done|].
    eapply runs_update_nat; [done|]. split; [done|]. eapply runs_update_nat; [done|].
    apply runs_bind, runs_assign; [eauto|]. apply runs_bind, runs_assign; [by apply lookup_alter_is_Some; eauto|].
    eapply runs_update_nat; [done|]. eexists. split; [done|]. cbn.
    by destruct (0 <? nt_session_count n); cbn; rewrite lookup_partial_alter_eq. }
  destruct H as ([] & m' & E & n' & Hn' & Hsz' & Ht & Hh & Htl). exists m', n'. split_and!; try done.
  - intros key Hk. eexists.
    unfold tunnel_nat_lookup. run_table Hn'. rewrite bucket_size, Hk by done. by rewrite Ht.
  - intros. unfold tunnel_nat_lookup_by_src. run_table Hn'. by rewrite Hh.
  - intros. unfold tunnel_nat_evict_expired. run_table Hn'. by rewrite Htl.
Qed.

(** ** A small table *)

(** Three clients of one web server; the third session is never inserted. *)
Definition w_addr (last : Z) : bytes := [10; 0; 0; last] ++ zeros 12.
Definition w_nat_key (c : Z) : tunnel_session_key :=
  mk_key (mk_endpoint AF_INET (w_addr c) (50000 + c)) (mk_endpoint AF_INET (w_addr 1) 443)
    TUNNEL_IPPROTO_TCP.
Definition w_nat_session (c : Z) : tunnel_session :=
  mk_session (w_nat_key c) TUNNEL_SESSION_INIT None (mk_traffic 0 0 0 0) 1000 1000
    (mk_tcp 0 0 0 0 65535 TUNNEL_TCP_CLOSED) 0 [] 32768 32768 [] (mk_links None None) (mk_links None None).
Definition w_nat_heap : heap :=
  {[ 1%positive := w_nat_session 2; 2%positive := w_nat_session 3; 3%positive := w_nat_session 4 ]}.
Definition w_nat_calls : list nat_call :=
  [Insert 1; Insert 2; Touch 1; Lookup (w_nat_key 3); GetOldest; EvictOldest 1; AllocPort;
   EvictExpired 1 500 500; Remove 1].

Definition w_nat0 : memory := mk_memory (Some empty_nat) w_nat_heap.
Definition w_nat1 : memory :=
  match tunnel_nat_insert (Some 1%positive) w_nat0 with Some (_, m) => m | None => w_nat0 end.
Definition w_nat_view1 : nat_view := mk_view [1%positive] [1%positive] ∅ (mk_stats 0 0 0 0).

Lemma w_nat0_repr : nat_repr w_nat0 (mk_view [] [] ∅ (mk_stats 0 0 0 0)).
Proof. split; [by vm_compute|]. exists empty_nat. split; [done|]. apply empty_repr. by vm_compute. Qed.

Lemma w_nat1_repr : nat_repr w_nat1 w_nat_view1.
Proof.
  destruct (runs_insert w_nat0 _ 1%positive (w_nat_session 2) w_nat0_repr) as (r & m & E & -> & Hr & _).
  - done.
  - apply not_elem_of_nil.
  - done.
  - unfold w_nat1. by rewrite E.
Qed.

Lemma w_nat1_third : off_table w_nat1 w_nat_view1 3.
Proof.
  split; [intros [] | by intros ?%list_elem_of_singleton]; vm_compute; reflexivity.
Qed.

Lemma nat_refines_spec_witness : ∃ rs m' a',
  run_calls w_nat_calls w_nat0 = Some (rs, m') ∧
  nat_trace (bodies w_nat0) (mk_view [] [] ∅ (mk_stats 0 0 0 0)) w_nat_calls rs a' ∧
  nat_repr m' a' ∧ bodies m' = bodies w_nat0.
Proof.
  apply (nat_refines_spec w_nat_heap empty_nat w_nat_calls); [by vm_compute|reflexivity|].
  change (calls_ready (bodies w_nat0) w_nat_calls (mk_view [] [] ∅ (mk_stats 0 0 0 0))).
  split; [split; [apply not_elem_of_nil|by eexists]|]. intros ? ? [-> ->].
  split; [split; [evaluate|by eexists]|]. intros ? ? [-> ->].
  split; [cbn [call_ready]; evaluate|]. intros ? ? [-> ->]. split; [done|]. intros ? ? [-> ->].
  split; [done|]. intros ? ? [-> ->]. split; [done|]. intros ? ? [-> ->].
  split; [done|]. intros ? ? [(p & _ & _ & -> & ->)|(_ & -> & ->)];
    (split; [done|]; intros ? ? [-> ->]; split; [cbn [call_ready]; evaluate|done]).
Defined.


Lemma nat_remove_off_table_witness : ∃ m' n',
  tunnel_nat_remove (Some 3%positive) w_nat1 = Some (tt, m') ∧ m_nat m' = Some n' ∧
  nt_table n' !! key_bucket (w_nat_key 4) = None ∧ nt_lru_head n' = None ∧ nt_lru_tail n' = None ∧
  (∀ key, key_bucket key = key_bucket (w_nat_key 4) →
    ∃ m'', tunnel_nat_lookup (Some key) m' = Some (None, m'')) ∧
  (∀ src protocol, tunnel_nat_lookup_by_src (Some src) protocol m' = Some (None, m')) ∧
  (∀ time tcp udp, tunnel_nat_evict_expired time tcp udp m' = Some (0, m')).
Proof.
  exact (nat_remove_off_table w_nat1 w_nat_view1 3 (w_nat_session 4) w_nat1_repr w_nat1_third eq_refl).
Defined.
