(* ===== verification/TunnelPacket.v ===== *)
(** * Packets: [tunnel_checksum.c] and [tunnel_ip_stack.c]

    Parsing and building of IPv4, IPv6, TCP, UDP and ICMP headers, and the
    internet checksum.  Some functions read 16-bit words of a packet in the order
    of the host, so they are defined for both orders. *)

From S2P Require Import Prelude Wire TunnelTypes.

(** ** Host byte order *)

Inductive byte_order : Type := LITTLE | BIG.
#[export] Instance byte_order_eq_dec : EqDecision byte_order.
Proof. solve_decision. Defined.

(** The two bytes of a [uint16_t] in memory, read by the host. *)
Definition native16 (o : byte_order) (b0 b1 : Z) : Z :=
  match o with LITTLE => b0 + 256 * b1 | BIG => 256 * b0 + b1 end.
Definition swap16 (v : Z) : Z := Z.lor (Z.shiftl (Z.land v 255) 8) (Z.land (Z.shiftr v 8) 255).
Definition ntohs (o : byte_order) (v : Z) : Z :=
  match o with LITTLE => swap16 v | BIG => v end.
Definition htons (o : byte_order) (v : Z) : Z := ntohs o v.

(** ** [tunnel_checksum.c] *)

(** [while (sum >> 16) sum = (sum & 0xFFFF) + (sum >> 16);] on a 32-bit sum: two
    rounds are enough, the third only tests. *)
Fixpoint fold_rounds (fuel : nat) (sum : Z) : Z :=
  match fuel with
  | O => sum
  | S fuel =>
      if Z.shiftr sum 16 =? 0 then sum
      else fold_rounds fuel (Z.land sum 65535 + Z.shiftr sum 16)
  end.
Definition fold_sum (sum : Z) : Z := fold_rounds 3 sum.

(** [(uint16_t)~sum] *)
Definition complement16 (sum : Z) : Z := wrap 16 (Z.lnot sum).

Fixpoint checksum_loop (o : byte_order) (sum : Z) (data : bytes) : Z :=
  match data with
  | b0 :: b1 :: data => checksum_loop o (wrap 32 (sum + native16 o b0 b1)) data
  | [b0] => wrap 32 (sum + b0)
  | [] => sum
  end.

Definition tunnel_ip_checksum (o : byte_order) (data : bytes) : Z :=
  complement16 (fold_sum (checksum_loop o 0 data)).

Fixpoint pseudo_loop (o : byte_order) (sum : Z) (data : bytes) : Z :=
  match data with
  | b0 :: b1 :: data => pseudo_loop o (wrap 32 (sum + ntohs o (native16 o b0 b1))) data
  | [b0] => wrap 32 (sum + Z.shiftl b0 8)
  | [] => sum
  end.

(** The eight words of an IPv6 address are added like data. *)
Definition pseudo_header (o : byte_order) (src dst : tunnel_endpoint) (protocol size : Z) : Z :=
  if ep_family src =? AF_INET then
    let word e i := Z.lor (Z.shiftl (at_ (addr_v4 e) i) 8) (at_ (addr_v4 e) (i + 1)) in
    let sum := wrap 32 (0 + word src 0%nat) in
    let sum := wrap 32 (sum + word src 2%nat) in
    let sum := wrap 32 (sum + word dst 0%nat) in
    let sum := wrap 32 (sum + word dst 2%nat) in
    let sum := wrap 32 (sum + protocol) in
    wrap 32 (sum + wrap 32 size)
  else
    let sum := pseudo_loop o 0 (addr_v6 src) in
    let sum := pseudo_loop o sum (addr_v6 dst) in
    let sum := wrap 32 (sum + Z.land (Z.shiftr size 16) 65535) in
    let sum := wrap 32 (sum + Z.land size 65535) in
    wrap 32 (sum + protocol).

Definition tunnel_ip_pseudo_checksum (o : byte_order) (src dst : tunnel_endpoint) (protocol : Z)
    (data : bytes) : Z :=
  htons o (complement16 (fold_sum (pseudo_loop o (pseudo_header o src dst protocol (len data)) data))).

Definition tunnel_checksum_update (old_csum old_val new_val : Z) : Z :=
  let sum := complement16 old_csum in
  let sum := wrap 32 (sum + complement16 old_val) in
  let sum := wrap 32 (sum + new_val) in
  complement16 (fold_sum sum).

Definition tunnel_checksum_update32 (old_csum old_val new_val : Z) : Z :=
  let csum := tunnel_checksum_update old_csum (wrap 16 (Z.shiftr old_val 16))
                (wrap 16 (Z.shiftr new_val 16)) in
  tunnel_checksum_update csum (wrap 16 (Z.land old_val 65535)) (wrap 16 (Z.land new_val 65535)).

(** ** Headers *)

Definition TUNNEL_IPV4_HEADER_MIN : Z := 20.
Definition TUNNEL_IPV6_HEADER_LEN : Z := 40.
Definition TUNNEL_TCP_HEADER_MIN : Z := 20.
Definition TUNNEL_UDP_HEADER_LEN : Z := 8.
Definition TUNNEL_TCP_FIN : Z := 1.
Definition TUNNEL_TCP_SYN : Z := 2.
Definition TUNNEL_TCP_RST : Z := 4.
Definition TUNNEL_TCP_PSH : Z := 8.
Definition TUNNEL_TCP_ACK : Z := 16.

Record tunnel_ip_header : Type := mk_ip {
  ip_version : Z;
  ip_header_len : Z;
  ip_total_len : Z;
  ip_protocol : Z;
  ip_ttl : Z;
  ip_id : Z;
  ip_frag_offset : Z;
  ip_more_fragments : Z;
  ip_dont_fragment : Z;
  ip_src : tunnel_endpoint;
  ip_dst : tunnel_endpoint }.

Record tunnel_tcp_header : Type := mk_tcp_header {
  th_src_port : Z;
  th_dst_port : Z;
  th_seq : Z;
  th_ack : Z;
  th_header_len : Z;
  th_flags : Z;
  th_window : Z;
  th_urgent : Z;
  th_options : option bytes;
  th_options_len : Z }.

Record tunnel_udp_header : Type := mk_udp_header {
  uh_src_port : Z;
  uh_dst_port : Z;
  uh_length : Z;
  uh_checksum : Z }.

(** The union of [tunnel_packet_t]: which member was last written. *)
Inductive transport : Type :=
  | NoTransport
  | Tcp (h : tunnel_tcp_header)
  | Udp (h : tunnel_udp_header).

Record tunnel_packet : Type := mk_packet {
  pk_ip : tunnel_ip_header;
  pk_transport : transport;
  pk_payload : option bytes;
  pk_payload_len : Z }.

Definition zero_endpoint : tunnel_endpoint := mk_endpoint 0 (zeros 16) 0.
Definition zero_ip : tunnel_ip_header := mk_ip 0 0 0 0 0 0 0 0 0 zero_endpoint zero_endpoint.
Definition zero_tcp : tunnel_tcp_header := mk_tcp_header 0 0 0 0 0 0 0 0 None 0.
Definition zero_udp : tunnel_udp_header := mk_udp_header 0 0 0 0.
Definition zero_packet : tunnel_packet := mk_packet zero_ip NoTransport None 0.

(** [(data[i] << 8) | data[i + 1]] and the four-byte form. *)
Definition word_at (data : bytes) (i : nat) : Z :=
  Z.lor (Z.shiftl (at_ data i) 8) (at_ data (i + 1)).
Definition dword_at (data : bytes) (i : nat) : Z :=
  Z.lor (Z.lor (Z.lor (Z.shiftl (at_ data i) 24) (Z.shiftl (at_ data (i + 1)) 16))
           (Z.shiftl (at_ data (i + 2)) 8)) (at_ data (i + 3)).
Definition high4 (b : Z) : Z := Z.land (Z.shiftr b 4) 15.

(** ** Parsing *)

(** Result code and contents of [hdr]. *)
Definition tunnel_ipv4_parse_header (data : bytes) (hdr : tunnel_ip_header) : Z * tunnel_ip_header :=
  if len data <? TUNNEL_IPV4_HEADER_MIN then (TUNNEL_ERR_INVALID_ARG, hdr)
  else if negb (high4 (at_ data 0) =? 4) then (TUNNEL_ERR_INVALID_ARG, hdr)
  else
    let ihl := Z.land (at_ data 0) 15 * 4 in
    if (ihl <? TUNNEL_IPV4_HEADER_MIN) || (len data <? ihl) then (TUNNEL_ERR_INVALID_ARG, hdr)
    else
      let flags_frag := word_at data 6 in
      (ihl,
       mk_ip 4 ihl (word_at data 2) (at_ data 9) (at_ data 8) (word_at data 4)
         (wrap 16 (Z.land flags_frag 8191 * 8))
         (Z.land (Z.shiftr flags_frag 13) 1) (Z.land (Z.shiftr flags_frag 14) 1)
         (mk_endpoint AF_INET (sub data 12 4 ++ zeros 12) 0)
         (mk_endpoint AF_INET (sub data 16 4 ++ zeros 12) 0)).

Definition tunnel_ipv6_parse_header (data : bytes) (hdr : tunnel_ip_header) : Z * tunnel_ip_header :=
  if len data <? TUNNEL_IPV6_HEADER_LEN then (TUNNEL_ERR_INVALID_ARG, hdr)
  else if negb (high4 (at_ data 0) =? 6) then (TUNNEL_ERR_INVALID_ARG, hdr)
  else
    (TUNNEL_IPV6_HEADER_LEN,
     mk_ip 6 TUNNEL_IPV6_HEADER_LEN (TUNNEL_IPV6_HEADER_LEN + word_at data 4) (at_ data 6)
       (at_ data 7) 0 0 0 0
       (mk_endpoint AF_INET6 (sub data 8 16) 0) (mk_endpoint AF_INET6 (sub data 24 16) 0)).

(** A bad data offset is found after the first fields were stored. *)
Definition tunnel_tcp_parse_header (data : bytes) (hdr : tunnel_tcp_header)
  : Z * tunnel_tcp_header :=
  if len data <? TUNNEL_TCP_HEADER_MIN then (TUNNEL_ERR_INVALID_ARG, hdr)
  else
    let src_port := word_at data 0 in
    let dst_port := word_at data 2 in
    let seq := dword_at data 4 in
    let ack := dword_at data 8 in
    let data_offset := high4 (at_ data 12) * 4 in
    if (data_offset <? TUNNEL_TCP_HEADER_MIN) || (len data <? data_offset)
    then (TUNNEL_ERR_INVALID_ARG, mk_tcp_header src_port dst_port seq ack 0 0 0 0 None 0)
    else
      let options_len := data_offset - TUNNEL_TCP_HEADER_MIN in
      (data_offset,
       mk_tcp_header src_port dst_port seq ack data_offset (Z.land (at_ data 13) 63)
         (word_at data 14) (word_at data 18)
         (if 0 <? options_len then Some (sub data 20 (Z.to_nat options_len)) else None)
         options_len).

Definition tunnel_udp_parse_header (data : bytes) (hdr : tunnel_udp_header)
  : Z * tunnel_udp_header :=
  if len data <? TUNNEL_UDP_HEADER_LEN then (TUNNEL_ERR_INVALID_ARG, hdr)
  else (TUNNEL_UDP_HEADER_LEN,
        mk_udp_header (word_at data 0) (word_at data 2) (word_at data 4) (word_at data 6)).

Definition set_ports (src dst : Z) (h : tunnel_ip_header) : tunnel_ip_header :=
  mk_ip (ip_version h) (ip_header_len h) (ip_total_len h) (ip_protocol h) (ip_ttl h) (ip_id h)
    (ip_frag_offset h) (ip_more_fragments h) (ip_dont_fragment h)
    (set_port src (ip_src h)) (set_port dst (ip_dst h)).

(** The transport header, if it is TCP or UDP: its length or an error, the IP
    header with the ports, and the union. *)
Definition parse_transport (ip : tunnel_ip_header) (data : bytes) : Z * tunnel_ip_header * transport :=
  if ip_protocol ip =? TUNNEL_IPPROTO_TCP then
    let '(n, h) := tunnel_tcp_parse_header data zero_tcp in
    if n <? 0 then (n, ip, Tcp h) else (n, set_ports (th_src_port h) (th_dst_port h) ip, Tcp h)
  else if ip_protocol ip =? TUNNEL_IPPROTO_UDP then
    let '(n, h) := tunnel_udp_parse_header data zero_udp in
    if n <? 0 then (n, ip, Udp h) else (n, set_ports (uh_src_port h) (uh_dst_port h) ip, Udp h)
  else (0, ip, NoTransport).

Definition tunnel_ip_parse (data : option bytes) (pkt : option tunnel_packet)
  : Z * option tunnel_packet :=
  match data, pkt with
  | Some data, Some pkt =>
      if len data <? 1 then (TUNNEL_ERR_INVALID_ARG, Some pkt)
      else
        let version := high4 (at_ data 0) in
        let '(n, ip) :=
          if version =? 4 then tunnel_ipv4_parse_header data zero_ip
          else if version =? 6 then tunnel_ipv6_parse_header data zero_ip
          else (TUNNEL_ERR_INVALID_ARG, zero_ip) in
        if n <? 0 then (n, Some (mk_packet ip NoTransport None 0))
        else
          let rest := drop (Z.to_nat n) data in
          let '(t, ip, u) := parse_transport ip rest in
          if t <? 0 then (t, Some (mk_packet ip u None 0))
          else if (0 <? t) && (t <? len rest)
          then (TUNNEL_OK, Some (mk_packet ip u (Some (drop (Z.to_nat t) rest)) (len rest - t)))
          else (TUNNEL_OK, Some (mk_packet ip u None 0))
  | _, _ => (TUNNEL_ERR_INVALID_ARG, pkt)
  end.

Definition tunnel_ip_is_fragment (pkt : option tunnel_packet) : bool :=
  match pkt with
  | None => false
  | Some p =>
      if ip_version (pk_ip p) =? 4
      then negb (ip_more_fragments (pk_ip p) =? 0) || (0 <? ip_frag_offset (pk_ip p))
      else false
  end.

(** ** Building *)

(** [b[0] = (v >> 8) & 0xFF; b[1] = v & 0xFF;] and the four-byte form. *)
Definition put16 (v : Z) : bytes := [Z.land (Z.shiftr v 8) 255; Z.land v 255].
Definition put32 (v : Z) : bytes :=
  [Z.land (Z.shiftr v 24) 255; Z.land (Z.shiftr v 16) 255; Z.land (Z.shiftr v 8) 255; Z.land v 255].

Definition ipv4_header_bytes (total_len id protocol : Z) (src dst : tunnel_endpoint) (csum : bytes)
  : bytes :=
  [69; 0] ++ put16 total_len ++ put16 id ++ [64; 0; 64; wrap 8 protocol] ++ csum ++
  addr_v4 src ++ addr_v4 dst.

(** Result code, buffer and the static counter [ip_id]. *)
Definition build_ipv4_header (o : byte_order) (buf : bytes) (src dst : tunnel_endpoint)
    (protocol payload_len : Z) (id : Z) : Z * bytes * Z :=
  if len buf <? TUNNEL_IPV4_HEADER_MIN then (TUNNEL_ERR_INVALID_ARG, buf, id)
  else
    let total_len := wrap 64 (TUNNEL_IPV4_HEADER_MIN + payload_len) in
    if 65535 <? total_len then (TUNNEL_ERR_INVALID_ARG, buf, id)
    else
      let h0 := ipv4_header_bytes total_len id protocol src dst [0; 0] in
      let csum := tunnel_ip_checksum o h0 in
      (TUNNEL_IPV4_HEADER_MIN,
       blit buf 0 (ipv4_header_bytes total_len id protocol src dst (put16 csum)),
       wrap 16 (id + 1)).

Definition tcp_header_bytes (src dst : tunnel_endpoint) (seq ack flags window : Z) (csum : bytes)
  : bytes :=
  put16 (ep_port src) ++ put16 (ep_port dst) ++ put32 seq ++ put32 ack ++
  [80; flags] ++ put16 window ++ csum ++ [0; 0].

(** [if (payload && payload_len > 0) memcpy(buf + off, payload, payload_len);] *)
Definition copy_payload (buf : bytes) (off : nat) (payload : option bytes) (payload_len : Z) : bytes :=
  match payload with
  | Some p => if 0 <? payload_len then blit buf off (sub p 0 (Z.to_nat payload_len)) else buf
  | None => buf
  end.

Definition tunnel_ip_build_tcp (o : byte_order) (buf : bytes) (src dst : tunnel_endpoint)
    (seq ack flags window : Z) (payload : option bytes) (payload_len : Z) (id : Z) : Z * bytes * Z :=
  let tcp_len := wrap 64 (TUNNEL_TCP_HEADER_MIN + payload_len) in
  let total_len := wrap 64 (TUNNEL_IPV4_HEADER_MIN + tcp_len) in
  if len buf <? total_len then (TUNNEL_ERR_INVALID_ARG, buf, id)
  else
    let '(ip_len, buf, id) := build_ipv4_header o buf src dst TUNNEL_IPPROTO_TCP tcp_len id in
    if ip_len <? 0 then (ip_len, buf, id)
    else
      let tcp := Z.to_nat ip_len in
      let buf := blit buf tcp (tcp_header_bytes src dst seq ack flags window [0; 0]) in
      let buf := copy_payload buf (tcp + 20) payload payload_len in
      let csum := tunnel_ip_pseudo_checksum o src dst TUNNEL_IPPROTO_TCP
                    (sub buf tcp (Z.to_nat tcp_len)) in
      (total_len, blit buf (tcp + 16) (put16 csum), id).

Definition udp_header_bytes (src dst : tunnel_endpoint) (udp_len : Z) (csum : bytes) : bytes :=
  put16 (ep_port src) ++ put16 (ep_port dst) ++ put16 udp_len ++ csum.

Definition tunnel_ip_build_udp (o : byte_order) (buf : bytes) (src dst : tunnel_endpoint)
    (payload : option bytes) (payload_len : Z) (id : Z) : Z * bytes * Z :=
  let udp_len := wrap 64 (TUNNEL_UDP_HEADER_LEN + payload_len) in
  let total_len := wrap 64 (TUNNEL_IPV4_HEADER_MIN + udp_len) in
  if len buf <? total_len then (TUNNEL_ERR_INVALID_ARG, buf, id)
  else
    let '(ip_len, buf, id) := build_ipv4_header o buf src dst TUNNEL_IPPROTO_UDP udp_len id in
    if ip_len <? 0 then (ip_len, buf, id)
    else
      let udp := Z.to_nat ip_len in
      let buf := blit buf udp (udp_header_bytes src dst udp_len [0; 0]) in
      let buf := copy_payload buf (udp + 8) payload payload_len in
      let csum := tunnel_ip_pseudo_checksum o src dst TUNNEL_IPPROTO_UDP
                    (sub buf udp (Z.to_nat udp_len)) in
      let csum := if csum =? 0 then 65535 else csum in
      (total_len, blit buf (udp + 6) (put16 csum), id).

Definition tunnel_ip_build_tcp_rst o buf src dst seq id :=
  tunnel_ip_build_tcp o buf src dst seq 0 TUNNEL_TCP_RST 0 None 0 id.
Definition tunnel_ip_build_tcp_synack o buf src dst seq ack window id :=
  tunnel_ip_build_tcp o buf src dst seq ack (Z.lor TUNNEL_TCP_SYN TUNNEL_TCP_ACK) window None 0 id.
Definition tunnel_ip_build_tcp_fin o buf src dst seq ack id :=
  tunnel_ip_build_tcp o buf src dst seq ack (Z.lor TUNNEL_TCP_FIN TUNNEL_TCP_ACK) 0 None 0 id.
Definition tunnel_ip_build_tcp_ack o buf src dst seq ack window id :=
  tunnel_ip_build_tcp o buf src dst seq ack TUNNEL_TCP_ACK window None 0 id.
Definition tunnel_ip_build_tcp_data o buf src dst seq ack window payload payload_len id :=
  tunnel_ip_build_tcp o buf src dst seq ack (Z.lor TUNNEL_TCP_PSH TUNNEL_TCP_ACK) window
    payload payload_len id.

Definition tunnel_ip_build_icmp_unreachable (o : byte_order) (buf original : bytes) (code id : Z)
  : Z * bytes * Z :=
  let orig_copy := if 28 <? len original then 28 else len original in
  let icmp_len := 8 + orig_copy in
  let total_len := TUNNEL_IPV4_HEADER_MIN + icmp_len in
  if (len buf <? total_len) || (len original <? TUNNEL_IPV4_HEADER_MIN)
  then (TUNNEL_ERR_INVALID_ARG, buf, id)
  else
    let '(n, orig_hdr) := tunnel_ipv4_parse_header original zero_ip in
    if n <? 0 then (TUNNEL_ERR_INVALID_ARG, buf, id)
    else
      let '(ip_len, buf, id) := build_ipv4_header o buf (ip_dst orig_hdr) (ip_src orig_hdr)
                                  TUNNEL_IPPROTO_ICMP icmp_len id in
      if ip_len <? 0 then (ip_len, buf, id)
      else
        let icmp := Z.to_nat ip_len in
        let buf := blit buf icmp ([3; wrap 8 code] ++ zeros 6) in
        let buf := blit buf (icmp + 8) (sub original 0 (Z.to_nat orig_copy)) in
        let csum := tunnel_ip_checksum o (sub buf icmp (Z.to_nat icmp_len)) in
        (total_len, blit buf (icmp + 2) (put16 csum), id).
