(* ===== verification/TunnelPacketInv.v ===== *)
(** * What the packet functions guarantee

    The internet checksum of RFC 1071 as a reference, what the code's checksums
    are in terms of it on hosts of either byte order, and the round trip of built
    packets through the parser. *)

From S2P Require Import Prelude TunnelTypes TunnelPacket.

(** ** The internet checksum *)

(** Addition with end-around carry. *)
Definition ones_add (x y : Z) : Z := if 65535 <? x + y then x + y - 65535 else x + y.

(** The ones' complement sum of the 16-bit words in network order, an odd last
    byte padded with zero. *)
Fixpoint ones_sum (b : bytes) : Z :=
  match b with
  | b0 :: b1 :: b => ones_add (256 * b0 + b1) (ones_sum b)
  | [b0] => ones_add (256 * b0) 0
  | [] => 0
  end.

(** What a receiver checks: with the checksum in place, the sum is all ones. *)
Definition rfc1071_ok (b : bytes) : Prop := ones_sum b = 65535.

(** The same sum without carries, and the one the host computes. *)
Fixpoint be_sum (b : bytes) : Z :=
  match b with
  | b0 :: b1 :: b => 256 * b0 + b1 + be_sum b
  | [b0] => 256 * b0
  | [] => 0
  end.
Fixpoint native_sum (o : byte_order) (b : bytes) : Z :=
  match b with
  | b0 :: b1 :: b => native16 o b0 b1 + native_sum o b
  | [b0] => b0
  | [] => 0
  end.

(** Induction two bytes at a time. *)
Lemma pairs_ind (P : bytes → Prop) : P [] → (∀ x, P [x]) →
  (∀ x y b, P b → P (x :: y :: b)) → ∀ b, P b.
Proof.
  intros H0 H1 H2. fix IH 1. intros [|x [|y b]]; [exact H0|apply H1|apply H2, IH].
Qed.

(** The representative of a sum in 1..65535, or 0. *)
Definition ones_rep (s : Z) : Z := if s =? 0 then 0 else (s - 1) mod 65535 + 1.

Lemma ones_rep_range s : 0 <= s → 0 <= ones_rep s <= 65535 ∧ (ones_rep s = 0 ↔ s = 0).
Proof.
  intros. unfold ones_rep. destruct (Z.eqb_spec s 0); [lia|].
  pose proof (Z.mod_pos_bound (s - 1) 65535). lia.
Qed.

Lemma ones_rep_unique s r : 0 <= s → 0 <= r <= 65535 → (r = 0 ↔ s = 0) →
  (65535 | s - r) → r = ones_rep s.
Proof.
  intros Hs Hr H0 [q Hq]. unfold ones_rep. destruct (Z.eqb_spec s 0) as [|Hne]; [lia|].
  assert (E : (s - 1) mod 65535 = r - 1); [|lia].
  symmetry. apply (Z.mod_unique_pos _ _ q); lia.
Qed.

Lemma ones_rep_cong s : 0 <= s → (65535 | s - ones_rep s).
Proof.
  intros. unfold ones_rep. destruct (Z.eqb_spec s 0); [by exists 0; lia|].
  exists ((s - 1) / 65535). pose proof (Z.div_mod (s - 1) 65535). lia.
Qed.

Lemma ones_rep_full s : 0 < s → ones_rep s = 65535 ↔ (65535 | s).
Proof.
  intros Hs. pose proof (ones_rep_cong s ltac:(lia)) as [q Hq].
  destruct (ones_rep_range s) as [? ?]; [lia|]. split.
  - intros E. exists (q + 1). lia.
  - intros [p Hp]. assert (ones_rep s ≠ 0) by lia. assert (65535 * (p - q) = ones_rep s) by lia. nia.
Qed.

Lemma ones_add_rep x s : 0 <= x <= 65535 → 0 <= s → ones_add x (ones_rep s) = ones_rep (x + s).
Proof.
  intros Hx Hs. pose proof (ones_rep_cong s Hs) as [q Hq]. destruct (ones_rep_range s Hs) as [? ?].
  unfold ones_add. destruct (Z.ltb_spec 65535 (x + ones_rep s)).
  - apply ones_rep_unique; [lia..|]. exists (q + 1). lia.
  - apply ones_rep_unique; [lia..|]. exists q. lia.
Qed.

Lemma be_sum_nonneg b : Forall u8 b →
  0 <= be_sum b ∧ 2 * be_sum b <= 65535 * (Z.of_nat (length b) + 1).
Proof.
  induction b as [|x|x y b IH] using pairs_ind; cbn [be_sum length]; intros Hb.
  - lia.
  - apply Forall_cons in Hb as [Hx _]. unfold uint in *. lia.
  - apply Forall_cons in Hb as [Hx [Hy Hb]%Forall_cons]. specialize (IH Hb). unfold uint in *. lia.
Qed.

(** The reference sum without carries. *)
Lemma ones_sum_rep b : Forall u8 b → ones_sum b = ones_rep (be_sum b).
Proof.
  induction b as [|x|x y b IH] using pairs_ind; cbn [be_sum ones_sum]; intros Hb.
  - done.
  - apply Forall_cons in Hb as [Hx _]. unfold uint in *.
    change 0 with (ones_rep 0). rewrite ones_add_rep by lia. f_equal. lia.
  - apply Forall_cons in Hb as [Hx [Hy Hb]%Forall_cons]. rewrite IH by done.
    pose proof (be_sum_nonneg b Hb). unfold uint in *. apply ones_add_rep; lia.
Qed.

Lemma rfc1071_ok_sum b : Forall u8 b → 0 < be_sum b → rfc1071_ok b ↔ (65535 | be_sum b).
Proof. intros Hb Hp. unfold rfc1071_ok. rewrite ones_sum_rep by done. by apply ones_rep_full. Qed.

(** ** The code's sums *)

Lemma fold_round s : 0 <= s → Z.land s 65535 + Z.shiftr s 16 = s - 65535 * (s / 65536).
Proof.
  intros. change 65535 with (Z.ones 16) at 1. rewrite Z.land_ones, Z.shiftr_div_pow2 by lia.
  change (2 ^ 16) with 65536. pose proof (Z.div_mod s 65536). lia.
Qed.

Lemma fold_round_rep s : 65536 <= s → ones_rep (s - 65535 * (s / 65536)) = ones_rep s.
Proof.
  intros Hs. assert (1 <= s / 65536) by (by apply Z.div_le_lower_bound).
  pose proof (Z.div_mod s 65536). pose proof (Z.mod_pos_bound s 65536).
  set (q := s / 65536) in *. assert (0 < s - 65535 * q) by lia.
  destruct (ones_rep_range (s - 65535 * q)); [lia|].
  apply ones_rep_unique; [lia..|]. destruct (ones_rep_cong (s - 65535 * q)) as [p Hp]; [lia|].
  exists (p + q). lia.
Qed.

(** Folding gives the representative: two rounds are always enough. *)
Lemma fold_sum_rep s : u32 s → fold_sum s = ones_rep s.
Proof.
  intros Hs. unfold uint in Hs. unfold fold_sum.
  assert (Hstop : ∀ f t, 0 <= t < 65536 → fold_rounds f t = ones_rep t).
  { intros f t Ht. assert (Hr : ones_rep t = t).
    { symmetry. apply ones_rep_unique; [lia..|]. exists 0. lia. }
    rewrite Hr. destruct f; cbn [fold_rounds]; [done|].
    by rewrite Z.shiftr_div_pow2, Z.div_small by lia. }
  assert (Hstep : ∀ f t, 0 <= t → 65536 <= t →
    fold_rounds (S f) t = fold_rounds f (t - 65535 * (t / 65536))).
  { intros f t Ht Hge. cbn [fold_rounds]. rewrite fold_round by lia.
    rewrite Z.shiftr_div_pow2 by lia. change (2 ^ 16) with 65536.
    assert (1 <= t / 65536) by (by apply Z.div_le_lower_bound).
    by destruct (Z.eqb_spec (t / 65536) 0); [lia|]. }
  destruct (decide (s < 65536)); [apply Hstop; lia|].
  rewrite Hstep, <-fold_round_rep by lia.
  assert (s / 65536 < 65536) by (apply Z.div_lt_upper_bound; lia).
  pose proof (Z.div_mod s 65536). pose proof (Z.mod_pos_bound s 65536).
  set (t := s - 65535 * (s / 65536)) in *. assert (0 <= t <= 131070) by lia.
  destruct (decide (t < 65536)); [apply Hstop; lia|].
  rewrite Hstep, <-fold_round_rep by lia. apply Hstop.
  assert (t / 65536 = 1) as -> by (symmetry; apply (Z.div_unique_pos t 65536 1 (t - 65536)); lia). lia.
Qed.

Lemma complement16_rep s : 0 <= s <= 65535 → complement16 s = 65535 - s.
Proof.
  intros. unfold complement16, wrap. unfold Z.lnot.
  symmetry. apply (Z.mod_unique_pos _ _ (-1)); lia.
Qed.

Lemma wrap_add w x y : wrap w (wrap w x + y) = wrap w (x + y).
Proof. unfold wrap. apply Zplus_mod_idemp_l. Qed.

Lemma checksum_loop_sum o b : ∀ s, u32 s → checksum_loop o s b = wrap 32 (s + native_sum o b).
Proof.
  induction b as [|x|x y b IH] using pairs_ind; intros s Hs; cbn [checksum_loop native_sum].
  - by rewrite Z.add_0_r, wrap_small.
  - done.
  - rewrite IH by (apply wrap_range; lia). rewrite wrap_add. f_equal. lia.
Qed.

Lemma swap16_value x y : u8 x → u8 y → swap16 (x + 256 * y) = 256 * x + y.
Proof.
  unfold uint. intros Hx Hy. unfold swap16. change 255 with (Z.ones 8).
  rewrite !Z.land_ones, Z.shiftr_div_pow2 by lia. change (2 ^ 8) with 256.
  assert ((x + 256 * y) mod 256 = x) as -> by (symmetry; apply (Z.mod_unique_pos _ _ y); lia).
  assert ((x + 256 * y) / 256 = y) as -> by (symmetry; apply (Z.div_unique_pos _ _ _ x); lia).
  rewrite Z.lor_comm, (Z.mod_small y) by lia. rewrite lor_byte; unfold uint; lia.
Qed.

Lemma ntohs_native o x y : u8 x → u8 y → ntohs o (native16 o x y) = 256 * x + y.
Proof. intros. destruct o; [by apply swap16_value|done]. Qed.

Lemma pseudo_loop_sum o b : Forall u8 b → ∀ s, u32 s → pseudo_loop o s b = wrap 32 (s + be_sum b).
Proof.
  induction b as [|x|x y b IH] using pairs_ind; intros Hb s Hs; cbn [pseudo_loop be_sum].
  - by rewrite Z.add_0_r, wrap_small.
  - rewrite Z.shiftl_mul_pow2 by lia. f_equal. lia.
  - apply Forall_cons in Hb as [Hx [Hy Hb]%Forall_cons]. rewrite ntohs_native by done.
    rewrite IH by (done || apply wrap_range; lia). rewrite wrap_add. f_equal. lia.
Qed.

(** A little-endian host computes the sum with its bytes exchanged. *)
Lemma native_sum_little b : (65535 | native_sum LITTLE b - 256 * be_sum b).
Proof.
  induction b as [|x|x y b [q IH]] using pairs_ind; cbn [native_sum be_sum native16].
  - exists 0. lia.
  - exists (- x). lia.
  - exists (q - x). lia.
Qed.
Lemma native_sum_big b : Nat.Even (length b) → native_sum BIG b = be_sum b.
Proof.
  induction b as [|x|x y b IH] using pairs_ind; cbn [native_sum be_sum native16 length].
  - done.
  - by intros [k Hk]; lia.
  - intros [k Hk]. rewrite IH; [done|]. exists (k - 1)%nat. lia.
Qed.

Lemma native_sum_range o b : Forall u8 b → 0 <= native_sum o b <= 65535 * Z.of_nat (length b) ∧
  (native_sum o b = 0 ↔ be_sum b = 0).
Proof.
  induction b as [|x|x y b IH] using pairs_ind; cbn [native_sum be_sum length]; intros Hb.
  - lia.
  - apply Forall_cons in Hb as [Hx _]. unfold uint in *. lia.
  - apply Forall_cons in Hb as [Hx [Hy Hb]%Forall_cons]. specialize (IH Hb).
    pose proof (be_sum_nonneg b Hb). unfold uint in *. destruct o; cbn [native16]; lia.
Qed.

(** ** Sums of pieces *)

Lemma be_sum_app a b : Nat.Even (length a) → be_sum (a ++ b) = be_sum a + be_sum b.
Proof.
  induction a as [|x|x y a IH] using pairs_ind; cbn [be_sum app length].
  - done.
  - by intros [k Hk]; lia.
  - intros [k Hk]. rewrite IH; [lia|]. exists (k - 1)%nat. lia.
Qed.

Lemma put16_eq v : put16 v = be_bytes 2 v.
Proof. done. Qed.
Lemma put32_eq v : put32 v = be_bytes 4 v.
Proof. unfold put32, be_bytes. cbn [le_bytes]. by rewrite !Z.shiftr_shiftr by lia. Qed.

Lemma put16_ok v : bytes_ok 2 (put16 v).
Proof. split; [done|]. rewrite put16_eq. apply be_bytes_ok. Qed.
Lemma put32_ok v : bytes_ok 4 (put32 v).
Proof. split; [done|]. rewrite put32_eq. apply be_bytes_ok. Qed.

Lemma be_sum_put16 v : u16 v → be_sum (put16 v) = v.
Proof.
  unfold uint. intros Hv. cbn [be_sum put16]. change 255 with (Z.ones 8).
  rewrite !Z.land_ones, Z.shiftr_div_pow2 by lia. change (2 ^ 8) with 256.
  rewrite (Z.mod_small (v / 256)) by (split; [apply Z.div_pos|apply Z.div_lt_upper_bound]; lia).
  pose proof (Z.div_mod v 256). lia.
Qed.

Lemma complement16_range s : u16 (complement16 s).
Proof. apply wrap_range. lia. Qed.

(** Putting the checksum of [s], in the right order, makes the sum divisible. *)
Lemma checksum_fills s : 0 <= s → (65535 | s + (65535 - ones_rep s)).
Proof.
  intros Hs. destruct (ones_rep_cong s Hs) as [q Hq]. exists (q + 1). lia.
Qed.

(** In the exchanged order it does so exactly when 257 divides the sum. *)
Lemma checksum_fills_swapped s t : 0 <= s → 0 <= t → (65535 | t - 256 * s) →
  (65535 | s + (65535 - ones_rep t)) ↔ (257 | s).
Proof.
  intros Hs Ht [p Hp]. destruct (ones_rep_cong t Ht) as [q Hq]. split.
  - intros [r Hr]. exists (1 + q - p - r). lia.
  - intros [k Hk]. exists (1 + q - p - k). lia.
Qed.

Lemma tunnel_ip_checksum_value o b : Forall u8 b → Z.of_nat (length b) <= 65536 →
  tunnel_ip_checksum o b = 65535 - ones_rep (native_sum o b).
Proof.
  intros Hb Hl. destruct (native_sum_range o b Hb) as [Hr _]. unfold tunnel_ip_checksum.
  rewrite checksum_loop_sum by (unfold uint; lia). rewrite Z.add_0_l, wrap_small by (unfold uint; lia).
  rewrite fold_sum_rep by (unfold uint; lia). apply complement16_rep, ones_rep_range. lia.
Qed.

(** A string [a ++ [0; 0] ++ b] whose two zero bytes are replaced by its checksum. *)
Section Filled.
Context (a b : bytes) (Ha : Forall u8 a) (Hb : Forall u8 b) (Hea : Nat.Even (length a)).
Context (Hlen : Z.of_nat (length a + length b) <= 65534).

Let whole (c : bytes) : bytes := a ++ c ++ b.

Lemma whole_sum v : u16 v → be_sum (whole (put16 v)) = be_sum (whole [0; 0]) + v.
Proof.
  intros Hv. unfold whole. rewrite !be_sum_app by done || (by exists 1%nat).
  rewrite be_sum_put16 by done. cbn [be_sum]. lia.
Qed.

Lemma whole_ok c : bytes_ok 2 c → Forall u8 (whole c).
Proof. intros [_ Hc]. unfold whole. by rewrite !Forall_app. Qed.

Lemma zero_pair_ok : bytes_ok 2 [0; 0].
Proof. evaluate. Qed.

Lemma header_checksum_filled o : 0 < be_sum (whole [0; 0]) →
  let csum := tunnel_ip_checksum o (whole [0; 0]) in
  (o = BIG → Nat.Even (length b) → rfc1071_ok (whole (put16 csum))) ∧
  (o = LITTLE → rfc1071_ok (whole (put16 csum)) ↔ (257 | be_sum (whole [0; 0]))).
Proof.
  intros Hpos csum. pose proof (whole_ok _ zero_pair_ok) as H0.
  assert (Hl : Z.of_nat (length (whole [0; 0])) <= 65536).
  { unfold whole. rewrite !length_app. cbn [length]. lia. }
  destruct (native_sum_range o _ H0) as [Hr Hz].
  assert (Hc : csum = 65535 - ones_rep (native_sum o (whole [0; 0])))
    by (by apply tunnel_ip_checksum_value).
  assert (Hu : u16 csum).
  { destruct (ones_rep_range (native_sum o (whole [0; 0]))); unfold uint; lia. }
  assert (Hp : 0 < be_sum (whole (put16 csum))) by (rewrite whole_sum by done; unfold uint in Hu; lia).
  rewrite rfc1071_ok_sum by (apply whole_ok, put16_ok || done). rewrite whole_sum, Hc by done. split.
  - intros -> He. rewrite native_sum_big; [apply checksum_fills; lia|].
    unfold whole. rewrite !length_app. destruct Hea as [x ->], He as [y ->]. exists (x + 1 + y)%nat.
    cbn [length]. lia.
  - intros ->. apply checksum_fills_swapped; [lia..|]. apply native_sum_little.
Qed.

(** The same with a pseudo-header [ps] in front, summed in network order. *)
Lemma segment_checksum_filled o (ps : bytes) : Forall u8 ps → Nat.Even (length ps) →
  let s := be_sum ps + be_sum (whole [0; 0]) in
  0 < s → s < 2 ^ 32 →
  let csum := htons o (complement16 (fold_sum s)) in
  ∀ v, u16 v → (65535 | v - csum) →
  (o = BIG → rfc1071_ok (ps ++ whole (put16 v))) ∧
  (o = LITTLE → rfc1071_ok (ps ++ whole (put16 v)) ↔ (257 | s)).
Proof.
  intros Hps Hep s Hpos Hmax csum v Hv [k Hk].
  assert (Hsum : be_sum (ps ++ whole (put16 v)) = s + v).
  { rewrite be_sum_app, whole_sum by done. unfold s. lia. }
  assert (Hp : 0 < be_sum (ps ++ whole (put16 v))) by (unfold uint in Hv; lia).
  rewrite rfc1071_ok_sum by (done || (apply Forall_app; split; [done|apply whole_ok, put16_ok])).
  rewrite Hsum. subst csum. rewrite fold_sum_rep in Hk by (unfold uint; lia).
  destruct (ones_rep_range s) as [Hr _]; [lia|]. rewrite complement16_rep in Hk by done.
  destruct (ones_rep_cong s) as [q Hq]; [lia|]. split.
  - intros ->. cbn [htons ntohs] in Hk. exists (k + q + 1). lia.
  - intros ->. cbn [htons ntohs] in Hk. set (c := 65535 - ones_rep s) in *.
    assert (Hsw : swap16 c = c / 256 + 256 * (c mod 256)).
    { rewrite (Z.div_mod c 256) at 1 by lia. rewrite Z.add_comm.
      rewrite swap16_value; [lia| |]; unfold uint.
      - apply Z.mod_pos_bound. lia.
      - split; [apply Z.div_pos; lia|apply Z.div_lt_upper_bound; lia]. }
    pose proof (Z.div_mod c 256). set (x := c / 256) in *. set (y := c mod 256) in *. split.
    + intros [r Hr']. exists (256 * (q + 1) + k - x - r). lia.
    + intros [r Hr']. exists (256 * (q + 1) + k - x - r). lia.
Qed.

End Filled.

(** ** The bytes of a built packet *)

Lemma blit_front (buf x : bytes) : blit buf 0 x = x ++ drop (length x) buf.
Proof. unfold blit. by rewrite take_0. Qed.

Lemma blit_next (a buf x : bytes) off : length a = off →
  blit (a ++ drop off buf) off x = (a ++ x) ++ drop (off + length x) buf.
Proof.
  intros Hl. unfold blit. rewrite take_app_length', drop_app_ge by lia. rewrite <-app_assoc.
  do 2 f_equal. rewrite drop_drop. f_equal. lia.
Qed.

Lemma blit_inside (a b c x : bytes) off : length a = off → length b = length x →
  blit (a ++ b ++ c) off x = a ++ x ++ c.
Proof.
  intros Ha Hb. unfold blit. rewrite take_app_length' by lia. do 2 f_equal.
  rewrite app_assoc, drop_app_length'; [done|]. rewrite length_app. lia.
Qed.

(** The payload of a call that passes its length. *)
Definition payload_bytes (payload : option bytes) : bytes := default [] payload.

Lemma copy_payload_next (a buf : bytes) off payload : length a = off →
  copy_payload (a ++ drop off buf) off payload (len (payload_bytes payload)) =
  (a ++ payload_bytes payload) ++ drop (off + length (payload_bytes payload)) buf.
Proof.
  intros Hl. destruct payload as [p|]; cbn [copy_payload payload_bytes default from_option id].
  - destruct (Z.ltb_spec 0 (len p)) as [Hp|Hp].
    + rewrite sub_all by (unfold len; lia). by apply blit_next.
    + assert (p = []) as -> by (apply nil_length_inv; unfold len in Hp; lia).
      by rewrite app_nil_r, Nat.add_0_r.
  - by rewrite app_nil_r, Nat.add_0_r.
Qed.

(** The headers around their checksum fields. *)
Definition tcp_front (src dst : tunnel_endpoint) (seq ack flags window : Z) : bytes :=
  put16 (ep_port src) ++ put16 (ep_port dst) ++ put32 seq ++ put32 ack ++ [80; flags] ++ put16 window.
Definition ipv4_front (total id protocol : Z) : bytes :=
  [69; 0] ++ put16 total ++ put16 id ++ [64; 0; 64; wrap 8 protocol].

Definition udp_front (src dst : tunnel_endpoint) (udp_len : Z) : bytes :=
  put16 (ep_port src) ++ put16 (ep_port dst) ++ put16 udp_len.

Lemma tcp_header_split src dst seq ack flags window c :
  tcp_header_bytes src dst seq ack flags window c = tcp_front src dst seq ack flags window ++ c ++ [0; 0].
Proof. unfold tcp_header_bytes, tcp_front. by rewrite <-!app_assoc. Qed.
Lemma ipv4_header_split total id protocol src dst c :
  ipv4_header_bytes total id protocol src dst c =
  ipv4_front total id protocol ++ c ++ (addr_v4 src ++ addr_v4 dst).
Proof. unfold ipv4_header_bytes, ipv4_front. by rewrite <-!app_assoc. Qed.

Section Bytes.
Context (o : byte_order) (buf : bytes) (src dst : tunnel_endpoint) (id : Z).
Context (Hsrc : endpoint_typed src) (Hdst : endpoint_typed dst).

Lemma addr_v4_ok e : endpoint_typed e → bytes_ok 4 (addr_v4 e).
Proof. intros [H _]. unfold addr_v4. eapply sub_bytes_ok; [done|lia]. Qed.

Lemma length_ipv4_header n protocol c : length c = 2%nat →
  length (ipv4_header_bytes n id protocol src dst c) = 20%nat.
Proof.
  intros Hc. destruct (addr_v4_ok src Hsrc) as [E1 _], (addr_v4_ok dst Hdst) as [E2 _].
  unfold ipv4_header_bytes. rewrite !length_app, Hc, E1, E2. done.
Qed.

Definition ipv4_checksum (total protocol : Z) : Z :=
  tunnel_ip_checksum o (ipv4_header_bytes total id protocol src dst [0; 0]).

Lemma build_ipv4_header_bytes protocol n : 20 <= len buf → 0 <= n → n + 20 <= 65535 →
  build_ipv4_header o buf src dst protocol n id =
  (20, ipv4_header_bytes (20 + n) id protocol src dst (put16 (ipv4_checksum (20 + n) protocol)) ++
       drop 20 buf, wrap 16 (id + 1)).
Proof.
  intros Hb Hn Hm. unfold build_ipv4_header, TUNNEL_IPV4_HEADER_MIN.
  rewrite wrap_small by (unfold uint; lia).
  destruct (Z.ltb_spec (len buf) 20); [lia|]. destruct (Z.ltb_spec 65535 (20 + n)); [lia|].
  rewrite blit_front, length_ipv4_header by done. done.
Qed.

Definition tcp_checksum (seq ack flags window : Z) (p : bytes) : Z :=
  tunnel_ip_pseudo_checksum o src dst TUNNEL_IPPROTO_TCP
    (tcp_header_bytes src dst seq ack flags window [0; 0] ++ p).

Lemma build_tcp_bytes seq ack flags window payload :
  let p := payload_bytes payload in
  40 + len p <= len buf → 40 + len p <= 65535 →
  tunnel_ip_build_tcp o buf src dst seq ack flags window payload (len p) id =
  (40 + len p,
   ipv4_header_bytes (40 + len p) id TUNNEL_IPPROTO_TCP src dst
     (put16 (ipv4_checksum (40 + len p) TUNNEL_IPPROTO_TCP)) ++
   tcp_header_bytes src dst seq ack flags window (put16 (tcp_checksum seq ack flags window p)) ++
   p ++ drop (40 + length p) buf,
   wrap 16 (id + 1)).
Proof.
  intros p Hb Hm. assert (Hp : 0 <= len p) by (unfold len; lia).
  unfold tunnel_ip_build_tcp, TUNNEL_TCP_HEADER_MIN. unfold TUNNEL_IPV4_HEADER_MIN at 1 2.
  rewrite (wrap_small 64 (20 + len p)), (wrap_small 64 (20 + (20 + len p))) by (unfold uint; lia).
  destruct (Z.ltb_spec (len buf) (20 + (20 + len p))); [lia|].
  rewrite build_ipv4_header_bytes by lia. cbn -[ipv4_header_bytes tcp_header_bytes put16 blit sub len Z.add].
  replace (20 + (20 + len p)) with (40 + len p) by lia.
  set (h := ipv4_header_bytes _ _ _ _ _ (put16 _)).
  assert (Hh : length h = 20%nat) by (by apply length_ipv4_header).
  change (Pos.to_nat 20) with 20%nat. change (20 + 20)%nat with 40%nat. change (20 + 16)%nat with 36%nat.
  rewrite blit_next by done. change (20 + length _)%nat with 40%nat.
  rewrite copy_payload_next by (rewrite length_app, Hh; done). fold p.
  set (t := tcp_header_bytes src dst seq ack flags window [0; 0]).
  assert (Ht : length t = 20%nat) by done.
  replace (Z.to_nat (20 + len p)) with (20 + length p)%nat by (unfold len; lia).
  rewrite <-!app_assoc, sub_skip by lia. rewrite Hh. change (20 - 20)%nat with 0%nat.
  rewrite (app_assoc t p), sub_here by (rewrite length_app; lia). fold (tcp_checksum seq ack flags window p).
  rewrite <-app_assoc. do 2 f_equal. unfold t. rewrite !tcp_header_split, <-!app_assoc.
  rewrite (app_assoc h), blit_inside; [by rewrite <-app_assoc| |done].
  by rewrite length_app, Hh.
Qed.

Definition udp_checksum (p : bytes) : Z :=
  let csum := tunnel_ip_pseudo_checksum o src dst TUNNEL_IPPROTO_UDP
                (udp_header_bytes src dst (8 + len p) [0; 0] ++ p) in
  if csum =? 0 then 65535 else csum.

Lemma build_udp_bytes payload :
  let p := payload_bytes payload in
  28 + len p <= len buf → 28 + len p <= 65535 →
  tunnel_ip_build_udp o buf src dst payload (len p) id =
  (28 + len p,
   ipv4_header_bytes (28 + len p) id TUNNEL_IPPROTO_UDP src dst
     (put16 (ipv4_checksum (28 + len p) TUNNEL_IPPROTO_UDP)) ++
   udp_header_bytes src dst (8 + len p) (put16 (udp_checksum p)) ++
   p ++ drop (28 + length p) buf,
   wrap 16 (id + 1)).
Proof.
  intros p Hb Hm. assert (Hp : 0 <= len p) by (unfold len; lia).
  unfold tunnel_ip_build_udp, TUNNEL_UDP_HEADER_LEN. unfold TUNNEL_IPV4_HEADER_MIN at 1 2.
  rewrite (wrap_small 64 (8 + len p)), (wrap_small 64 (20 + (8 + len p))) by (unfold uint; lia).
  destruct (Z.ltb_spec (len buf) (20 + (8 + len p))); [lia|].
  rewrite build_ipv4_header_bytes by lia. cbn -[ipv4_header_bytes udp_header_bytes put16 blit sub len Z.add].
  replace (20 + (8 + len p)) with (28 + len p) by lia.
  set (h := ipv4_header_bytes _ _ _ _ _ (put16 _)).
  assert (Hh : length h = 20%nat) by (by apply length_ipv4_header).
  change (Z.to_nat 20) with 20%nat. change (20 + 8)%nat with 28%nat. change (20 + 6)%nat with 26%nat.
  rewrite blit_next by done. change (20 + length _)%nat with 28%nat.
  rewrite copy_payload_next by (rewrite length_app, Hh; done). fold p.
  set (u := udp_header_bytes src dst (8 + len p) [0; 0]).
  assert (Hu : length u = 8%nat) by done.
  replace (Z.to_nat (8 + len p)) with (8 + length p)%nat by (unfold len; lia).
  rewrite <-!app_assoc, sub_skip by lia. rewrite Hh. change (20 - 20)%nat with 0%nat.
  rewrite (app_assoc u p), sub_here by (rewrite length_app; lia).
  fold u (udp_checksum p). rewrite <-app_assoc. do 2 f_equal.
  change u with (udp_front src dst (8 + len p) ++ [0; 0]). rewrite <-!app_assoc.
  rewrite (app_assoc h), blit_inside; [by rewrite <-app_assoc| |done].
  by rewrite length_app, Hh.
Qed.

End Bytes.

(** ** Parsing what was built *)

Lemma word_value v : u16 v → Z.lor (Z.shiftl (Z.land (Z.shiftr v 8) 255) 8) (Z.land v 255) = v.
Proof. intros Hv. exact (be_value_bytes 2 v Hv). Qed.

Lemma dword_value v : u32 v → Z.lor (Z.lor (Z.lor (Z.shiftl (Z.land (Z.shiftr v 24) 255) 24)
  (Z.shiftl (Z.land (Z.shiftr v 16) 255) 16)) (Z.shiftl (Z.land (Z.shiftr v 8) 255) 8)) (Z.land v 255) = v.
Proof.
  intros Hv. rewrite <-(be_value_bytes 4 v Hv) at 5. rewrite <-put32_eq. unfold be_value, put32.
  cbn [foldl]. rewrite Z.shiftl_0_l, Z.lor_0_l. by rewrite !Z.shiftl_lor, !Z.shiftl_shiftl by lia.
Qed.

Lemma addr_v4_spell e : endpoint_typed e → ∃ a b c d, addr_v4 e = [a; b; c; d].
Proof.
  intros [Hl _]%addr_v4_ok. destruct (addr_v4 e) as [|a [|b [|c [|d [|]]]]]; try done. by exists a, b, c, d.
Qed.

(** An endpoint as it is read back from a packet. *)
Definition on_wire (e : tunnel_endpoint) : tunnel_endpoint :=
  mk_endpoint AF_INET (addr_v4 e ++ zeros 12) (ep_port e).

Section Parse.
Context (src dst : tunnel_endpoint) (Hsrc : endpoint_typed src) (Hdst : endpoint_typed dst).

Lemma parse_ipv4_built total id protocol c rest z : u16 total → u16 id → u8 protocol →
  length c = 2%nat →
  tunnel_ipv4_parse_header (ipv4_header_bytes total id protocol src dst c ++ rest) z =
  (20, mk_ip 4 20 total protocol 64 id 0 0 1 (set_port 0 (on_wire src)) (set_port 0 (on_wire dst))).
Proof.
  intros Ht Hi Hp Hc.
  destruct (addr_v4_spell src Hsrc) as (a1 & b1 & c1 & d1 & E1).
  destruct (addr_v4_spell dst Hdst) as (a2 & b2 & c2 & d2 & E2).
  destruct c as [|x [|y [|]]]; try done.
  unfold tunnel_ipv4_parse_header. destruct (Z.ltb_spec (len (ipv4_header_bytes total id protocol src dst [x; y] ++ rest))
    TUNNEL_IPV4_HEADER_MIN) as [Hlt|_].
  { exfalso. unfold len in Hlt. rewrite length_app, length_ipv4_header in Hlt by done.
    unfold TUNNEL_IPV4_HEADER_MIN in Hlt. lia. }
  unfold on_wire, set_port, ipv4_header_bytes, word_at, put16. rewrite E1, E2.
  cbn [app ep_family ep_addr Nat.add]. pick.
  change (high4 69) with 4. change (Z.land 69 15 * 4) with 20. rewrite wrap_small by done.
  cbn [Z.eqb Pos.eqb negb]. rewrite !word_value by done.
  match goal with |- context [(20 <? TUNNEL_IPV4_HEADER_MIN) || ?e] =>
    assert (Hge : e = false) end.
  { apply Z.ltb_ge. unfold len. cbn [length]. lia. }
  rewrite Hge. done.
Qed.

Lemma parse_tcp_built seq ack flags win c p z : u32 seq → u32 ack → u16 win → length c = 2%nat →
  tunnel_tcp_parse_header (tcp_header_bytes src dst seq ack flags win c ++ p) z =
  (20, mk_tcp_header (ep_port src) (ep_port dst) seq ack 20 (Z.land flags 63) win 0 None 0).
Proof.
  intros Hs Ha Hw Hc. destruct c as [|x [|y [|]]]; try done.
  destruct Hsrc as [_ Hps], Hdst as [_ Hpd].
  unfold tunnel_tcp_parse_header. destruct (Z.ltb_spec (len (tcp_header_bytes src dst seq ack flags win [x; y] ++ p))
    TUNNEL_TCP_HEADER_MIN) as [Hlt|_].
  { exfalso. unfold len, TUNNEL_TCP_HEADER_MIN in Hlt. cbn in Hlt. lia. }
  unfold tcp_header_bytes, word_at, dword_at, put16, put32. cbn [app Nat.add]. pick.
  change (high4 80 * 4) with 20. rewrite !word_value, !dword_value by done.
  match goal with |- context [(20 <? TUNNEL_TCP_HEADER_MIN) || ?e] => assert (Hge : e = false) end.
  { apply Z.ltb_ge. unfold len. cbn [length]. lia. }
  rewrite Hge. done.
Qed.

Lemma parse_udp_built n c p z : u16 n → u16 c →
  tunnel_udp_parse_header (udp_header_bytes src dst n (put16 c) ++ p) z =
  (8, mk_udp_header (ep_port src) (ep_port dst) n c).
Proof.
  intros Hn Hc. destruct Hsrc as [_ Hps], Hdst as [_ Hpd].
  unfold tunnel_udp_parse_header. destruct (Z.ltb_spec (len (udp_header_bytes src dst n (put16 c) ++ p))
    TUNNEL_UDP_HEADER_LEN) as [Hlt|_].
  { exfalso. unfold len, TUNNEL_UDP_HEADER_LEN in Hlt. cbn in Hlt. lia. }
  unfold udp_header_bytes, word_at, put16. cbn [app Nat.add]. pick. by rewrite !word_value.
Qed.

(** The payload as the parser reports it. *)
Definition parsed_payload (p : bytes) : option bytes := if p is [] then None else Some p.

(** A packet whose headers are built as above. *)
Lemma parse_built total id protocol c (t : bytes) u n p pkt : u16 total → u16 id → u8 protocol →
  length c = 2%nat → 0 < n → length t = Z.to_nat n →
  (∀ ip, ip_protocol ip = protocol → ip_src ip = set_port 0 (on_wire src) →
     parse_transport ip (t ++ p) = (n, set_ports (ep_port src) (ep_port dst) ip, u)) →
  tunnel_ip_parse (Some (ipv4_header_bytes total id protocol src dst c ++ t ++ p)) (Some pkt) =
  (TUNNEL_OK, Some (mk_packet (mk_ip 4 20 total protocol 64 id 0 0 1 (on_wire src) (on_wire dst)) u
                     (parsed_payload p) (len p))).
Proof.
  intros Ht Hi Hp Hc Hn Hl Hu. unfold tunnel_ip_parse.
  pose proof (length_ipv4_header src dst id Hsrc Hdst total protocol c Hc) as Hh.
  set (h := ipv4_header_bytes total id protocol src dst c) in *.
  destruct (Z.ltb_spec (len (h ++ t ++ p)) 1) as [Hlt|_].
  { exfalso. unfold len in Hlt. rewrite length_app in Hlt. lia. }
  change (at_ (h ++ t ++ p) 0) with 69. change (high4 69) with 4. cbn [Z.eqb Pos.eqb].
  unfold h. rewrite parse_ipv4_built by done. fold h. change (20 <? 0) with false. cbn iota beta.
  rewrite drop_app_length' by (by rewrite Hh). rewrite Hu by done.
  destruct (Z.ltb_spec n 0); [lia|]. unfold len. rewrite length_app, Hl.
  destruct (Z.ltb_spec 0 n); [|lia]. rewrite drop_app_length' by done. destruct p as [|x p].
  - destruct (Z.ltb_spec n (Z.of_nat (Z.to_nat n + length ([] : bytes)))); [cbn in *; lia|]. done.
  - destruct (Z.ltb_spec n (Z.of_nat (Z.to_nat n + length (x :: p)))); [|cbn in *; lia].
    cbn [andb parsed_payload]. do 4 f_equal. cbn [length]. lia.
Qed.

Lemma transport_tcp_built seq ack flags win c p ip : u32 seq → u32 ack → u16 win → length c = 2%nat →
  ip_protocol ip = TUNNEL_IPPROTO_TCP →
  parse_transport ip (tcp_header_bytes src dst seq ack flags win c ++ p) =
  (20, set_ports (ep_port src) (ep_port dst) ip,
   Tcp (mk_tcp_header (ep_port src) (ep_port dst) seq ack 20 (Z.land flags 63) win 0 None 0)).
Proof.
  intros Hs Ha Hw Hc E. unfold parse_transport. by rewrite E, parse_tcp_built.
Qed.

Lemma transport_udp_built n c p ip : u16 n → u16 c → ip_protocol ip = TUNNEL_IPPROTO_UDP →
  parse_transport ip (udp_header_bytes src dst n (put16 c) ++ p) =
  (8, set_ports (ep_port src) (ep_port dst) ip, Udp (mk_udp_header (ep_port src) (ep_port dst) n c)).
Proof. intros Hn Hc E. unfold parse_transport. by rewrite E, parse_udp_built. Qed.

End Parse.

Lemma pseudo_checksum_range o src dst protocol b : u16 (tunnel_ip_pseudo_checksum o src dst protocol b).
Proof.
  unfold tunnel_ip_pseudo_checksum, htons. pose proof (complement16_range
    (fold_sum (pseudo_loop o (pseudo_header o src dst protocol (len b)) b))) as Hc.
  destruct o; [|exact Hc]. cbn [ntohs]. set (v := complement16 _) in *. unfold uint in Hc.
  rewrite (Z.div_mod v 256), Z.add_comm by lia. rewrite swap16_value; unfold uint.
  - pose proof (Z.mod_pos_bound v 256). assert (0 <= v / 256 < 256) by
      (split; [apply Z.div_pos|apply Z.div_lt_upper_bound]; lia). lia.
  - apply Z.mod_pos_bound. lia.
  - split; [apply Z.div_pos|apply Z.div_lt_upper_bound]; lia.
Qed.

(** The built part of a buffer, as the caller sends it. *)
Lemma built_prefix (h t p rest : bytes) n : length h = 20%nat → n = (20 + (length t + length p))%nat →
  sub (h ++ t ++ p ++ rest) 0 n = h ++ t ++ p ∧ drop n (h ++ t ++ p ++ rest) = rest.
Proof.
  intros Hh ->. rewrite (app_assoc t), (app_assoc h). split.
  - apply sub_here. rewrite !length_app. lia.
  - apply drop_app_length'. rewrite !length_app. lia.
Qed.

(** C6: built packets parse back.  Within the size of the buffer and of an IPv4
    packet, building a TCP or a UDP packet succeeds on hosts of either byte order,
    writes nothing behind it, and parsing it gives the ports, sequence numbers,
    flags, window and payload it was built from, and the first four bytes of the
    addresses. *)
Theorem built_packets_parse (o : byte_order) (buf : bytes) (src dst : tunnel_endpoint)
    (seq ack flags win id : Z) (payload : option bytes) (pkt : tunnel_packet) :
  endpoint_typed src → endpoint_typed dst → u32 seq → u32 ack → u16 win → u16 id →
  let p := payload_bytes payload in
  40 + len p <= len buf → 40 + len p <= 65535 →
  (∃ buf', tunnel_ip_build_tcp o buf src dst seq ack flags win payload (len p) id
             = (40 + len p, buf', wrap 16 (id + 1)) ∧
    drop (40 + length p) buf' = drop (40 + length p) buf ∧
    tunnel_ip_parse (Some (sub buf' 0 (40 + length p))) (Some pkt) =
    (TUNNEL_OK, Some (mk_packet
       (mk_ip 4 20 (40 + len p) TUNNEL_IPPROTO_TCP 64 id 0 0 1 (on_wire src) (on_wire dst))
       (Tcp (mk_tcp_header (ep_port src) (ep_port dst) seq ack 20 (Z.land flags 63) win 0 None 0))
       (parsed_payload p) (len p)))) ∧
  (∃ buf' csum, tunnel_ip_build_udp o buf src dst payload (len p) id
             = (28 + len p, buf', wrap 16 (id + 1)) ∧
    drop (28 + length p) buf' = drop (28 + length p) buf ∧ csum ≠ 0 ∧
    tunnel_ip_parse (Some (sub buf' 0 (28 + length p))) (Some pkt) =
    (TUNNEL_OK, Some (mk_packet
       (mk_ip 4 20 (28 + len p) TUNNEL_IPPROTO_UDP 64 id 0 0 1 (on_wire src) (on_wire dst))
       (Udp (mk_udp_header (ep_port src) (ep_port dst) (8 + len p) csum))
       (parsed_payload p) (len p)))).
Proof.
  intros Hs Hd Hq Ha Hw Hi p Hb Hm. assert (Hp : 0 <= len p) by (unfold len; lia).
  subst p. split.
  - eexists. split; [apply build_tcp_bytes; done|].
    match goal with |- context [sub (?h ++ ?t ++ ?q ++ ?r) 0 _] =>
      destruct (built_prefix h t q r (40 + length q)) as [-> ->] end.
    { by apply length_ipv4_header. } { done. }
    split; [done|]. apply (parse_built _ _ Hs Hd) with (n := 20); try done.
    { unfold uint. lia. } intros ip E _. by apply transport_tcp_built.
  - eexists _, (udp_checksum o src dst (payload_bytes payload)). split; [apply build_udp_bytes; try done; lia|].
    match goal with |- context [sub (?h ++ ?t ++ ?q ++ ?r) 0 _] =>
      destruct (built_prefix h t q r (28 + length q)) as [-> ->] end.
    { by apply length_ipv4_header. } { done. }
    split; [done|]. split.
    { unfold udp_checksum. case_match; bool_prop; lia. }
    apply (parse_built _ _ Hs Hd) with (n := 8); try done.
    { unfold uint. lia. } intros ip E _. apply transport_udp_built; try done.
    { unfold uint. lia. } unfold udp_checksum. case_match; [unfold uint; lia|].
    apply pseudo_checksum_range.
Qed.

(** ** The checksums of a built packet *)

(** What RFC 793 puts in front of a TCP segment for its checksum. *)
Definition pseudo_bytes (src dst : tunnel_endpoint) (protocol n : Z) : bytes :=
  addr_v4 src ++ addr_v4 dst ++ [0; protocol] ++ put16 n.

Lemma be_word x y : u8 x → u8 y → Z.lor (Z.shiftl x 8) y = 256 * x + y.
Proof. intros Hx Hy. rewrite Z.lor_comm, lor_byte by (done || unfold uint in *; lia). lia. Qed.

Lemma pseudo_header_sum o src dst protocol n : ep_family src = AF_INET → endpoint_typed src →
  endpoint_typed dst → u8 protocol → u16 n →
  pseudo_header o src dst protocol n = be_sum (pseudo_bytes src dst protocol n) ∧
  0 <= be_sum (pseudo_bytes src dst protocol n) < 2 ^ 20.
Proof.
  intros Hf Hs Hd Hp Hn. pose proof (addr_v4_ok src Hs) as [_ H1]. pose proof (addr_v4_ok dst Hd) as [_ H2].
  destruct (addr_v4_spell src Hs) as (a1 & b1 & c1 & d1 & E1).
  destruct (addr_v4_spell dst Hd) as (a2 & b2 & c2 & d2 & E2).
  unfold pseudo_header, pseudo_bytes. rewrite Hf, E1, E2 in *. change (AF_INET =? AF_INET) with true.
  rewrite !Forall_cons in H1, H2. destruct H1 as (? & ? & ? & ? & _), H2 as (? & ? & ? & ? & _).
  cbn [app be_sum Nat.add]. pick. change (at_ ?x 0) with (default 0 (x !! 0%nat)).
  rewrite be_sum_put16, !be_word by done. unfold uint in *.
  repeat match goal with |- context [wrap 32 ?e] =>
    lazymatch e with context [wrap] => fail | _ => rewrite (wrap_small 32 e) by (unfold uint; lia) end end.
  lia.
Qed.

Lemma pseudo_checksum_value o src dst protocol b : ep_family src = AF_INET → endpoint_typed src →
  endpoint_typed dst → u8 protocol → Forall u8 b → len b <= 65535 →
  tunnel_ip_pseudo_checksum o src dst protocol b =
  htons o (complement16 (fold_sum (be_sum (pseudo_bytes src dst protocol (len b)) + be_sum b))).
Proof.
  intros Hf Hs Hd Hp Hb Hl. unfold tunnel_ip_pseudo_checksum.
  destruct (pseudo_header_sum o src dst protocol (len b)) as [-> Hr]; try done.
  { unfold uint, len in *. lia. }
  pose proof (be_sum_nonneg b Hb) as Hn. unfold len in Hl.
  rewrite pseudo_loop_sum by (done || unfold uint; lia). rewrite wrap_small by (unfold uint; lia). done.
Qed.

Lemma pseudo_bytes_ok src dst protocol n : endpoint_typed src → endpoint_typed dst → u8 protocol →
  Forall u8 (pseudo_bytes src dst protocol n) ∧ Nat.Even (length (pseudo_bytes src dst protocol n)).
Proof.
  intros Hs Hd Hp. destruct (addr_v4_ok src Hs) as [L1 F1], (addr_v4_ok dst Hd) as [L2 F2].
  unfold pseudo_bytes. split.
  - rewrite !Forall_app. split_and!; try done; [|apply put16_ok].
    repeat constructor; [unfold uint; lia|apply Hp..].
  - rewrite !length_app, L1, L2. by exists 6%nat.
Qed.

Section Checksums.
Context (o : byte_order) (src dst : tunnel_endpoint) (Hs : endpoint_typed src) (Hd : endpoint_typed dst).

Lemma ipv4_front_ok total id protocol : bytes_ok 10 (ipv4_front total id protocol).
Proof.
  split; [done|]. unfold ipv4_front. rewrite !Forall_app. split_and!; try apply put16_ok;
    repeat constructor; try (unfold uint; lia); apply (wrap_range 8); lia.
Qed.

Lemma addresses_ok : bytes_ok 8 (addr_v4 src ++ addr_v4 dst).
Proof.
  destruct (addr_v4_ok src Hs) as [L1 F1], (addr_v4_ok dst Hd) as [L2 F2].
  split; [by rewrite length_app, L1, L2|by apply Forall_app].
Qed.

Lemma ipv4_checksum_filled total id protocol :
  let h c := ipv4_header_bytes total id protocol src dst c in
  let filled := h (put16 (ipv4_checksum o src dst id total protocol)) in
  (o = BIG → rfc1071_ok filled) ∧ (o = LITTLE → rfc1071_ok filled ↔ (257 | be_sum (h [0; 0]))).
Proof.
  intros h filled. destruct (ipv4_front_ok total id protocol) as [Lf Ff], addresses_ok as [La Fa].
  unfold filled, h, ipv4_checksum. rewrite !ipv4_header_split.
  destruct (header_checksum_filled (ipv4_front total id protocol) (addr_v4 src ++ addr_v4 dst) Ff Fa)
    with (o := o) as [HB HL].
  - rewrite Lf. by exists 5%nat.
  - rewrite Lf, La. lia.
  - rewrite be_sum_app by (rewrite Lf; by exists 5%nat).
    pose proof (proj1 (be_sum_nonneg _ (proj2 (Forall_app _ _ _) (conj (proj2 zero_pair_ok) Fa)))).
    pose proof (be_sum_nonneg (drop 2 (ipv4_front total id protocol))) as Hr.
    assert (Hfr : be_sum (ipv4_front total id protocol) =
      256 * 69 + 0 + be_sum (drop 2 (ipv4_front total id protocol))) by done.
    specialize (Hr ltac:(by apply Forall_drop)). lia.
  - split; [|exact HL]. intros E. apply HB; [done|]. rewrite La. by exists 4%nat.
Qed.

Context (Hf : ep_family src = AF_INET).

Lemma tcp_front_ok seq ack flags win : u8 flags → bytes_ok 16 (tcp_front src dst seq ack flags win).
Proof.
  intros Hfl. split; [done|]. unfold tcp_front. rewrite !Forall_app.
  split_and!; try apply put16_ok; try apply put32_ok. repeat constructor; try apply Hfl; unfold uint; lia.
Qed.

Lemma tcp_checksum_filled seq ack flags win p : u8 flags → Forall u8 p → 40 + len p <= 65535 →
  let t c := pseudo_bytes src dst TUNNEL_IPPROTO_TCP (20 + len p) ++
             tcp_header_bytes src dst seq ack flags win c ++ p in
  let filled := t (put16 (tcp_checksum o src dst seq ack flags win p)) in
  (o = BIG → rfc1071_ok filled) ∧ (o = LITTLE → rfc1071_ok filled ↔ (257 | be_sum (t [0; 0]))).
Proof.
  intros Hfl Hp Hm t filled. destruct (tcp_front_ok seq ack flags win Hfl) as [Lt Ft].
  assert (Htcp : u8 TUNNEL_IPPROTO_TCP) by done.
  destruct (pseudo_bytes_ok src dst TUNNEL_IPPROTO_TCP (20 + len p) Hs Hd Htcp) as [Fps Eps].
  assert (Frest : Forall u8 ([0; 0] ++ p)) by (by apply Forall_app; split; [apply zero_pair_ok|]).
  assert (Hw : ∀ c, t c = pseudo_bytes src dst TUNNEL_IPPROTO_TCP (20 + len p) ++
    tcp_front src dst seq ack flags win ++ c ++ ([0; 0] ++ p)).
  { intros c. unfold t. by rewrite tcp_header_split, <-!app_assoc. }
  unfold filled. rewrite !Hw. rewrite (be_sum_app (pseudo_bytes _ _ _ _)) by done.
  destruct (pseudo_header_sum o src dst TUNNEL_IPPROTO_TCP (20 + len p)) as [_ Hr]; try done.
  { unfold uint, len in *. lia. }
  assert (Hseg : Forall u8 (tcp_front src dst seq ack flags win ++ [0; 0] ++ [0; 0] ++ p)).
  { rewrite Forall_app. split; [done|]. rewrite Forall_app. split; [apply zero_pair_ok|done]. }
  assert (Hlen : Z.of_nat (length (tcp_front src dst seq ack flags win ++ [0; 0] ++ [0; 0] ++ p)) = 20 + len p).
  { rewrite !length_app, Lt. unfold len. cbn [length]. lia. }
  pose proof (be_sum_nonneg _ Hseg) as Hb.
  assert (Hps : 0 < be_sum (pseudo_bytes src dst TUNNEL_IPPROTO_TCP (20 + len p))).
  { unfold pseudo_bytes. destruct (addr_v4_ok src Hs) as [L1 F1], (addr_v4_ok dst Hd) as [L2 F2].
    rewrite (be_sum_app (addr_v4 src)), (be_sum_app (addr_v4 dst)) by (rewrite ?L1, ?L2; by exists 2%nat).
    rewrite (be_sum_app [_; _]), be_sum_put16 by ((by exists 1%nat) || unfold uint, len in *; lia).
    pose proof (be_sum_nonneg _ F1). pose proof (be_sum_nonneg _ F2). cbn [be_sum].
    unfold TUNNEL_IPPROTO_TCP, len in *. lia. }
  apply (segment_checksum_filled _ _ Ft Frest); try done.
  - rewrite Lt. by exists 8%nat.
  - rewrite Lt, length_app. unfold len in Hm. cbn [length]. lia.
  - lia.
  - lia.
  - apply pseudo_checksum_range.
  - exists 0. unfold tcp_checksum. rewrite pseudo_checksum_value; try done.
    + rewrite tcp_header_split, <-!app_assoc. unfold len at 1. rewrite Hlen. lia.
    + rewrite tcp_header_split, <-!app_assoc. unfold len at 1. rewrite Hlen. lia.
Qed.

End Checksums.


(** ** Incremental update *)

Lemma native_sum_app o a b : Nat.Even (length a) → native_sum o (a ++ b) = native_sum o a + native_sum o b.
Proof.
  induction a as [|x|x y a IH] using pairs_ind; cbn [native_sum app length].
  - done.
  - by intros [k Hk]; lia.
  - intros [k Hk]. rewrite IH; [lia|]. exists (k - 1)%nat. lia.
Qed.


(** ** A packet *)

Definition w_src : tunnel_endpoint := mk_endpoint AF_INET ([192; 168; 1; 1] ++ zeros 12) 12345.
Definition w_dst : tunnel_endpoint := mk_endpoint AF_INET ([8; 8; 8; 8] ++ zeros 12) 80.
Definition w_packet_buf : bytes := zeros 50.

#[export] Instance endpoint_typed_dec e : Decision (endpoint_typed e).
Proof. unfold endpoint_typed. apply _. Defined.

Lemma built_packets_parse_witness :
  (∃ buf', tunnel_ip_build_tcp LITTLE w_packet_buf w_src w_dst 1000 0 18 65535 (Some [1; 2; 3]) 3 7
             = (43, buf', 8) ∧
    drop 43 buf' = drop 43 w_packet_buf ∧
    tunnel_ip_parse (Some (sub buf' 0 43)) (Some zero_packet) =
    (TUNNEL_OK, Some (mk_packet
       (mk_ip 4 20 43 TUNNEL_IPPROTO_TCP 64 7 0 0 1 (on_wire w_src) (on_wire w_dst))
       (Tcp (mk_tcp_header 12345 80 1000 0 20 18 65535 0 None 0)) (Some [1; 2; 3]) 3))) ∧
  (∃ buf' csum, tunnel_ip_build_udp LITTLE w_packet_buf w_src w_dst (Some [1; 2; 3]) 3 7
             = (31, buf', 8) ∧
    drop 31 buf' = drop 31 w_packet_buf ∧ csum ≠ 0 ∧
    tunnel_ip_parse (Some (sub buf' 0 31)) (Some zero_packet) =
    (TUNNEL_OK, Some (mk_packet
       (mk_ip 4 20 31 TUNNEL_IPPROTO_UDP 64 7 0 0 1 (on_wire w_src) (on_wire w_dst))
       (Udp (mk_udp_header 12345 80 11 csum)) (Some [1; 2; 3]) 3))).
Proof.
  apply (built_packets_parse LITTLE w_packet_buf w_src w_dst 1000 0 18 65535 7 (Some [1; 2; 3]) zero_packet);
    try evaluate; by vm_compute.
Defined.

Definition w_built (o : byte_order) : bytes :=
  match tunnel_ip_build_tcp o w_packet_buf w_src w_dst 1000 0 18 65535 (Some [1; 2; 3]) 3 7 with
  | (_, b, _) => b end.


