(* ===== verification/TunnelDns.v ===== *)
(** * Fake DNS: [tunnel_fake_dns.c]

    Names get addresses of a reserved range: a hash table from names to addresses
    and an array from addresses to names.  DNS queries are answered from it, and a
    connection to such an address is opened by name. *)

From S2P Require Import Prelude TunnelTypes TunnelPacket.

Definition TUNNEL_FAKE_DNS_SIZE : Z := 65536.
Definition TUNNEL_FAKE_DNS_TABLE_SIZE : Z := 65536.
Definition TUNNEL_FAKE_DNS_DOMAIN : nat := 256.

(** An address in network byte order is its four bytes; a name is the string before
    its terminator. *)
Record domain_entry : Type := mk_entry {
  de_domain : bytes;
  de_fake_ip : bytes;
  de_expire_time : Z }.

(** [fd_ip_to_domain] has the entries that are not NULL, [fd_domain_table] the
    chains that were used, first entry first. *)
Record tunnel_fake_dns : Type := mk_dns {
  fd_ip_to_domain : gmap Z bytes;
  fd_ip_capacity : Z;
  fd_domain_table : gmap Z (list domain_entry);
  fd_domain_table_size : Z;
  fd_domain_count : Z;
  fd_base_ip : Z;
  fd_mask : Z;
  fd_next_ip : Z;
  fd_ttl : Z;
  fd_queries : Z;
  fd_hits : Z;
  fd_allocations : Z }.

(** ** Names *)

Fixpoint cstr (b : bytes) : bytes :=
  match b with
  | [] => []
  | c :: b => if c =? 0 then [] else c :: cstr b
  end.

(** [tolower] of the C locale. *)
Definition tolower (c : Z) : Z := if (65 <=? c) && (c <=? 90) then c + 32 else c.

Definition domain_hash (domain : bytes) : Z :=
  foldl (λ hash c, wrap 32 (wrap 32 (wrap 32 (Z.shiftl hash 5) + hash) + tolower c)) 5381 domain.

Definition normalize_domain (src : bytes) (dst_len : nat) : bytes :=
  map tolower (take (dst_len - 1) src).

(** ** Life cycle *)

Definition dns_size (mask : Z) : Z := wrap 32 (wrap 32 (Z.lnot mask) + 1).

(** The addresses are in network byte order; the flags tell whether the three
    allocations succeed. *)
Definition tunnel_fake_dns_create (base_ip mask : bytes) (ttl : Z)
    (dns_memory ip_memory table_memory : bool) : option tunnel_fake_dns :=
  let base := dword_at base_ip 0 in
  let mask := dword_at mask 0 in
  let capacity := if TUNNEL_FAKE_DNS_SIZE <? dns_size mask then TUNNEL_FAKE_DNS_SIZE
                  else dns_size mask in
  if negb dns_memory then None
  else if negb ip_memory then None
  else if negb table_memory then None
  else Some (mk_dns ∅ capacity ∅ TUNNEL_FAKE_DNS_TABLE_SIZE 0 base mask base ttl 0 0 0).

(** ** Field assignments *)

Definition set_counters (queries hits allocations : Z) (d : tunnel_fake_dns) : tunnel_fake_dns :=
  mk_dns (fd_ip_to_domain d) (fd_ip_capacity d) (fd_domain_table d) (fd_domain_table_size d)
    (fd_domain_count d) (fd_base_ip d) (fd_mask d) (fd_next_ip d) (fd_ttl d) queries hits allocations.
Definition count_query (d : tunnel_fake_dns) : tunnel_fake_dns :=
  set_counters (wrap 64 (fd_queries d + 1)) (fd_hits d) (fd_allocations d) d.
Definition count_name_hit (d : tunnel_fake_dns) : tunnel_fake_dns :=
  set_counters (fd_queries d) (wrap 64 (fd_hits d + 1)) (fd_allocations d) d.
Definition count_allocation (d : tunnel_fake_dns) : tunnel_fake_dns :=
  set_counters (fd_queries d) (fd_hits d) (wrap 64 (fd_allocations d + 1)) d.

(** ** From names to addresses *)

Definition name_bucket (d : tunnel_fake_dns) (domain : bytes) : Z :=
  domain_hash domain mod fd_domain_table_size d.
Definition name_chain (d : tunnel_fake_dns) (i : Z) : list domain_entry :=
  default [] (fd_domain_table d !! i).

Fixpoint find_domain (domain : bytes) (entry : list domain_entry) : option domain_entry :=
  match entry with
  | [] => None
  | e :: entry => if bool_decide (de_domain e = domain) then Some e else find_domain domain entry
  end.

Definition ip_index (d : tunnel_fake_dns) (ip : Z) : Z := wrap 32 (ip - fd_base_ip d).
Definition slot_free (d : tunnel_fake_dns) (ip : Z) : bool :=
  (ip_index d ip <? fd_ip_capacity d) && negb (non_null (fd_ip_to_domain d !! ip_index d ip)).

Definition ip_after (d : tunnel_fake_dns) (ip : Z) : Z :=
  let ip := wrap 32 (ip + 1) in
  if Z.land ip (wrap 32 (Z.lnot (fd_mask d))) =? 0 then fd_base_ip d else ip.

(** The search goes round the range once; it leaves with the first free address,
    or with the one it started from. *)
Fixpoint find_free_loop (d : tunnel_fake_dns) (start_ip : Z) (fuel : nat) (ip : Z) : option Z :=
  match fuel with
  | O => None
  | S fuel =>
      if slot_free d ip then Some ip
      else
        let ip := ip_after d ip in
        if ip =? start_ip then Some ip else find_free_loop d start_ip fuel ip
  end.
Definition range_size (d : tunnel_fake_dns) : nat := S (Z.to_nat (wrap 32 (Z.lnot (fd_mask d)))).

(** The new mapping. *)
Definition store_name (d : tunnel_fake_dns) (normalized : bytes) (ip time : Z) : tunnel_fake_dns :=
  let index := name_bucket d normalized in
  let entry := mk_entry normalized (put32 ip) (wrap 64 (time + fd_ttl d)) in
  mk_dns (<[ip_index d ip := normalized]> (fd_ip_to_domain d)) (fd_ip_capacity d)
    (<[index := entry :: name_chain d index]> (fd_domain_table d)) (fd_domain_table_size d)
    (wrap 64 (fd_domain_count d + 1)) (fd_base_ip d) (fd_mask d) (ip_after d ip) (fd_ttl d)
    (fd_queries d) (fd_hits d) (fd_allocations d).

(** Whether [strdup] and [calloc] succeed, and the answer of [time(NULL)]. *)
Record dns_host : Type := mk_dns_host { dh_strdup : bool; dh_calloc : bool; dh_time : Z }.

(** [None]: the search does not end. *)
Definition tunnel_fake_dns_get_ip (d : tunnel_fake_dns) (domain : option bytes) (h : dns_host)
  : option (bytes * tunnel_fake_dns) :=
  match domain with
  | None => Some (zeros 4, d)
  | Some domain =>
      if len domain =? 0 then Some (zeros 4, d)
      else
        let d := count_query d in
        let normalized := normalize_domain domain TUNNEL_FAKE_DNS_DOMAIN in
        match find_domain normalized (name_chain d (name_bucket d normalized)) with
        | Some entry => Some (de_fake_ip entry, count_name_hit d)
        | None =>
            let d := count_allocation d in
            match find_free_loop d (fd_next_ip d) (range_size d) (fd_next_ip d) with
            | None => None
            | Some ip =>
                if (fd_ip_capacity d <=? ip_index d ip) || non_null (fd_ip_to_domain d !! ip_index d ip)
                then Some (zeros 4, d)
                else if negb (dh_strdup h) then Some (zeros 4, d)
                else if negb (dh_calloc h) then Some (zeros 4, d)
                else Some (put32 ip, store_name d normalized ip (dh_time h))
            end
        end
  end.

Definition in_range (d : tunnel_fake_dns) (ip : Z) : bool :=
  Z.land ip (fd_mask d) =? Z.land (fd_base_ip d) (fd_mask d).

Definition tunnel_fake_dns_get_domain (d : tunnel_fake_dns) (fake_ip : bytes) : option bytes :=
  let ip := dword_at fake_ip 0 in
  if negb (in_range d ip) then None
  else if fd_ip_capacity d <=? ip_index d ip then None
  else fd_ip_to_domain d !! ip_index d ip.

Definition tunnel_fake_dns_is_fake_ip (d : tunnel_fake_dns) (ip : bytes) : bool :=
  in_range d (dword_at ip 0).

(** ** Queries *)

(** The name in a question; [None] is an error.  A label that does not fit is cut,
    and what is left of it is taken for the next label. *)
Fixpoint extract_loop (fuel : nat) (rest domain : bytes) (domain_len : nat) : option bytes :=
  match rest, fuel with
  | [], _ => Some domain
  | _, O => None
  | label_len :: rest, S fuel =>
      if label_len =? 0 then Some domain
      else if (63 <? label_len) || (len rest <? label_len) then None
      else if (0 <? length domain)%nat && (domain_len - 1 <=? length domain)%nat then Some domain
      else
        let domain := if (0 <? length domain)%nat then domain ++ [46] else domain in
        let n := Nat.min (Z.to_nat label_len) (domain_len - 1 - length domain) in
        extract_loop fuel (drop n rest) (domain ++ take n rest) domain_len
  end.

Definition tunnel_fake_dns_extract_domain (query : bytes) (domain_len : nat) : option bytes :=
  if (len query <? 12) || (Z.of_nat domain_len <? 1) then None
  else extract_loop (length query) (drop 12 query) [] domain_len.

(** Where the terminator of the name is, or the first byte behind the query. *)
Fixpoint question_end (query : bytes) (fuel off : nat) : nat :=
  match fuel with
  | O => off
  | S fuel =>
      if (off <? length query)%nat && negb (at_ query off =? 0)
      then question_end query fuel (off + Z.to_nat (at_ query off) + 1)
      else off
  end.

Definition answer_bytes (d : tunnel_fake_dns) (fake_ip : bytes) : bytes :=
  [192; 12; 0; 1; 0; 1] ++ put32 (fd_ttl d) ++ [0; 4] ++ fake_ip.
Definition response_base (query : bytes) : bytes :=
  blit (blit query 2 [129; 128]) 6 [0; 1].

(** The response, when the query is handled. *)
Definition tunnel_fake_dns_process_query (d : tunnel_fake_dns) (query : option bytes) (max_len : Z)
    (h : dns_host) : option (option bytes * tunnel_fake_dns) :=
  match query with
  | None => Some (None, d)
  | Some query =>
      match tunnel_fake_dns_extract_domain query TUNNEL_FAKE_DNS_DOMAIN with
      | None => Some (None, d)
      | Some domain =>
          if len query <? 16 then Some (None, d)
          else
            let ptr := (question_end query (length query) 12 + 1)%nat in
            if (length query <? ptr + 4)%nat then Some (None, d)
            else if negb (word_at query ptr =? 1) || negb (word_at query (ptr + 2) =? 1)
            then Some (None, d)
            else
              match tunnel_fake_dns_get_ip d (Some (cstr domain)) h with
              | None => None
              | Some (fake_ip, d) =>
                  if bool_decide (fake_ip = zeros 4) then Some (None, d)
                  else if max_len <? len query + 16 then Some (None, d)
                  else Some (Some (response_base query ++ answer_bytes d fake_ip), d)
              end
      end
  end.

(** ** Cache management *)

(** [(time_t)entry->expire_time < now], on a signed [time_t]. *)
Definition as_time (v : Z) : Z := if v <? 2 ^ 63 then v else v - 2 ^ 64.
Definition entry_dead (now : Z) (e : domain_entry) : bool := as_time (de_expire_time e) <? now.

(** The order of the buckets does not matter. *)
Definition all_entries (d : tunnel_fake_dns) : list domain_entry :=
  map_to_list (fd_domain_table d) ≫= snd.

Definition release_address (d : tunnel_fake_dns) (e : domain_entry) (m : gmap Z bytes) : gmap Z bytes :=
  let i := ip_index d (dword_at (de_fake_ip e) 0) in
  if i <? fd_ip_capacity d then delete i m else m.

Definition tunnel_fake_dns_expire (d : tunnel_fake_dns) (now : Z) : Z * tunnel_fake_dns :=
  let dead := filter (λ e, entry_dead now e = true) (all_entries d) in
  (Z.of_nat (length dead),
   mk_dns (foldr (release_address d) (fd_ip_to_domain d) dead) (fd_ip_capacity d)
     (filter (λ e, entry_dead now e = false) <$> fd_domain_table d) (fd_domain_table_size d)
     (wrap 64 (fd_domain_count d - Z.of_nat (length dead))) (fd_base_ip d) (fd_mask d) (fd_next_ip d)
     (fd_ttl d) (fd_queries d) (fd_hits d) (fd_allocations d)).

Definition tunnel_fake_dns_clear (d : tunnel_fake_dns) : tunnel_fake_dns :=
  mk_dns ∅ (fd_ip_capacity d) ∅ (fd_domain_table_size d) 0 (fd_base_ip d) (fd_mask d) (fd_base_ip d)
    (fd_ttl d) (fd_queries d) (fd_hits d) (fd_allocations d).
