(* ===== verification/TunnelDnsInv.v ===== *)
(** * Fake DNS refines a map

    The table and the array are one finite map from names to addresses, in which
    no address has two names; a DNS answer names an address that leads back to
    the name asked for. *)

From S2P Require Import Prelude Wire TunnelTypes TunnelPacket TunnelPacketInv TunnelDns.

Abbreviation names_map := (gmap bytes (Z * Z)).

Section Range.
(** A range of [2 ^ b] addresses at [base], as the configuration gives it. *)
Context (b base ttl : Z).
Hypothesis b_range : 0 <= b < 32.
Hypothesis base_range : 0 <= base ∧ base + 2 ^ b <= 2 ^ 32.
Hypothesis base_aligned : base mod 2 ^ b = 0.

Implicit Types (d : tunnel_fake_dns) (names : names_map) (n : bytes) (ip t j : Z).

Definition capacity : Z := Z.min TUNNEL_FAKE_DNS_SIZE (2 ^ b).

Record dns_repr (d : tunnel_fake_dns) (names : names_map) : Prop := {
  dr_size : fd_domain_table_size d = TUNNEL_FAKE_DNS_TABLE_SIZE;
  dr_base : fd_base_ip d = base;
  dr_mask : fd_mask d = 2 ^ 32 - 2 ^ b;
  dr_capacity : fd_ip_capacity d = capacity;
  dr_ttl : fd_ttl d = ttl;
  dr_next : base <= fd_next_ip d < base + 2 ^ b;
  dr_chain : ∀ n, find_domain n (name_chain d (name_bucket d n)) =
    (λ v : Z * Z, mk_entry n (put32 v.1) v.2) <$> names !! n;
  dr_home : ∀ i l e, fd_domain_table d !! i = Some l → e ∈ l → name_bucket d (de_domain e) = i;
  dr_nodup : ∀ i l, fd_domain_table d !! i = Some l → NoDup (de_domain <$> l);
  dr_ips : ∀ j n, fd_ip_to_domain d !! j = Some n ↔ ∃ t, names !! n = Some (base + j, t);
  dr_range : ∀ n ip t, names !! n = Some (ip, t) → base <= ip < base + capacity }.

(** ** The range *)

Lemma size_pos : 0 < 2 ^ b.
Proof. apply Z.pow_pos_nonneg; lia. Qed.

Lemma fake_capacity_range : 0 < capacity <= 2 ^ b.
Proof. pose proof size_pos. unfold capacity, TUNNEL_FAKE_DNS_SIZE. lia. Qed.

Lemma size_divides : (2 ^ b | 2 ^ 32).
Proof. exists (2 ^ (32 - b)). rewrite <-Z.pow_add_r by lia. f_equal. lia. Qed.

Lemma lnot_mask : wrap 32 (Z.lnot (2 ^ 32 - 2 ^ b)) = 2 ^ b - 1.
Proof.
  pose proof size_pos. assert (2 ^ b <= 2 ^ 32) by (apply Z.pow_le_mono_r; lia).
  unfold wrap. replace (Z.lnot (2 ^ 32 - 2 ^ b)) with (2 ^ b - 1 + (-1) * 2 ^ 32) by (unfold Z.lnot; lia).
  rewrite Z.mod_add by lia. apply Z.mod_small. lia.
Qed.

Lemma base_offset j : (base + j) mod 2 ^ b = j mod 2 ^ b.
Proof. rewrite Z.add_mod, base_aligned, Z.add_0_l, Z.mod_mod by (pose proof size_pos; lia). done. Qed.

Section Repr.
Context (d : tunnel_fake_dns) (names : names_map) (R : dns_repr d names).

Lemma ip_after_spec ip : base <= ip < base + 2 ^ b → ip_after d ip = base + (ip + 1 - base) mod 2 ^ b.
Proof.
  intros Hip. pose proof size_pos as Hp. unfold ip_after. rewrite (dr_mask _ _ R), lnot_mask.
  replace (2 ^ b - 1) with (Z.ones b) by (rewrite Z.ones_equiv; lia).
  rewrite Z.land_ones by lia.
  assert (Hw : wrap 32 (ip + 1) mod 2 ^ b = (ip + 1 - base) mod 2 ^ b).
  { unfold wrap. rewrite Z.mod_mod_divide by apply size_divides.
    rewrite <-(base_offset (ip + 1 - base)). f_equal. lia. }
  rewrite Hw, (dr_base _ _ R). destruct (decide (ip + 1 - base = 2 ^ b)) as [E|E].
  - rewrite E, Z.mod_same by lia. cbn. lia.
  - rewrite Z.mod_small by lia. destruct (_ =? 0) eqn:E0; [lia|].
    rewrite wrap_small by (unfold uint; lia). lia.
Qed.

Lemma ip_index_spec ip : base <= ip < base + 2 ^ b → ip_index d ip = ip - base.
Proof.
  intros Hip. unfold ip_index. rewrite (dr_base _ _ R), wrap_small; [done|]. unfold uint. lia.
Qed.

Lemma slot_free_spec ip : base <= ip < base + 2 ^ b →
  slot_free d ip = true ↔ ip < base + capacity ∧ ∀ n t, names !! n ≠ Some (ip, t).
Proof.
  intros Hip. unfold slot_free. rewrite ip_index_spec, (dr_capacity _ _ R) by done.
  rewrite andb_true_iff, Z.ltb_lt, negb_true_iff. split.
  - intros [Hc Hn]. split; [lia|]. intros n t Hn'.
    assert (E : fd_ip_to_domain d !! (ip - base) = Some n).
    { apply (dr_ips _ _ R). exists t. rewrite Hn'. do 2 f_equal. lia. }
    by rewrite E in Hn.
  - intros [Hc Hn]. split; [lia|]. destruct (_ !! _) as [n|] eqn:E; [|done].
    apply (dr_ips _ _ R) in E as [t E]. exfalso. apply (Hn n t). rewrite E. do 2 f_equal. lia.
Qed.

Lemma find_free_loop_spec start fuel : ∀ i, base <= start < base + 2 ^ b → 0 <= i < 2 ^ b →
  2 ^ b - i <= Z.of_nat fuel →
  (∀ j, 0 <= j < i → slot_free d (base + (start - base + j) mod 2 ^ b) = false) →
  ∃ ip, find_free_loop d start fuel (base + (start - base + i) mod 2 ^ b) = Some ip ∧
    base <= ip < base + 2 ^ b ∧
    (slot_free d ip = true ∨ ∀ q, base <= q < base + 2 ^ b → slot_free d q = false).
Proof.
  pose proof size_pos as Hp.
  induction fuel as [|fuel IH]; intros i Hs Hi Hf Hfree; [lia|]. cbn [find_free_loop].
  set (ip := base + (start - base + i) mod 2 ^ b).
  assert (Hip : base <= ip < base + 2 ^ b).
  { pose proof (Z.mod_pos_bound (start - base + i) (2 ^ b) Hp). lia. }
  destruct (slot_free d ip) eqn:Eip; [by eauto|].
  rewrite ip_after_spec by done.
  assert (En : (ip + 1 - base) mod 2 ^ b = (start - base + (i + 1)) mod 2 ^ b).
  { unfold ip. replace (base + (start - base + i) mod 2 ^ b + 1 - base)
      with ((start - base + i) mod 2 ^ b + 1) by lia.
    rewrite Z.add_mod_idemp_l by lia. f_equal. lia. }
  assert (Hvisited : ∀ j, 0 <= j < i + 1 → slot_free d (base + (start - base + j) mod 2 ^ b) = false).
  { intros j Hj. destruct (decide (j = i)) as [->|]; [done|]. apply Hfree. lia. }
  rewrite En. destruct (decide (i + 1 = 2 ^ b)) as [E|E].
  - replace (start - base + (i + 1)) with (start - base + 1 * 2 ^ b) by lia.
    rewrite Z.mod_add, Z.mod_small by lia. replace (base + (start - base)) with start by lia.
    rewrite Z.eqb_refl. exists start. split_and!; [done|lia|lia|]. right. intros q Hq.
    assert (Eq : base + (start - base + (q - start) mod 2 ^ b) mod 2 ^ b = q).
    { rewrite Z.add_mod_idemp_r by lia. replace (start - base + (q - start)) with (q - base) by lia.
      rewrite Z.mod_small by lia. lia. }
    rewrite <-Eq. apply Hvisited. pose proof (Z.mod_pos_bound (q - start) (2 ^ b) Hp). lia.
  - destruct (_ =? start) eqn:Es; [|apply IH; try done; lia].
    exfalso. apply Z.eqb_eq in Es. assert (Hm : (start - base + (i + 1)) mod 2 ^ b = start - base) by lia.
    destruct (Z_lt_le_dec (start - base + (i + 1)) (2 ^ b)).
    + rewrite Z.mod_small in Hm by lia. lia.
    + replace (start - base + (i + 1)) with (start - base + (i + 1) - 2 ^ b + 1 * 2 ^ b) in Hm by lia.
      rewrite Z.mod_add, Z.mod_small in Hm by lia. lia.
Qed.

(** The search ends, at a free address or because none is. *)
Lemma find_free_spec : ∃ ip, find_free_loop d (fd_next_ip d) (range_size d) (fd_next_ip d) = Some ip ∧
  base <= ip < base + 2 ^ b ∧
  (slot_free d ip = true ∨ ∀ q, base <= q < base + 2 ^ b → slot_free d q = false).
Proof.
  pose proof size_pos. pose proof (dr_next _ _ R) as Hn.
  destruct (find_free_loop_spec (fd_next_ip d) (range_size d) 0) as (ip & E & Hip); [done|lia| |intros j Hj; lia|].
  - unfold range_size. rewrite (dr_mask _ _ R), lnot_mask. lia.
  - rewrite Z.add_0_r, Z.mod_small in E by lia. exists ip. split; [|done]. rewrite <-E. f_equal. lia.
Qed.

End Repr.
(** ** Chains *)

Lemma find_domain_in n l e : find_domain n l = Some e → e ∈ l ∧ de_domain e = n.
Proof.
  induction l as [|x l IH]; cbn [find_domain]; [done|]. case_bool_decide as E.
  - intros [= <-]. split; [left|done].
  - intros [? ?]%IH. split; [by right|done].
Qed.

Lemma find_domain_nodup l e : NoDup (de_domain <$> l) → e ∈ l → find_domain (de_domain e) l = Some e.
Proof.
  induction l as [|x l IH]; [by intros _ ?%not_elem_of_nil|]. intros [Hx Hl]%NoDup_cons He.
  cbn [find_domain]. apply elem_of_cons in He as [->|He]; [by rewrite bool_decide_eq_true_2|].
  rewrite bool_decide_eq_false_2; [by apply IH|]. intros E. apply Hx. rewrite E. by apply list_elem_of_fmap_2.
Qed.

Lemma find_domain_filter (P : domain_entry → bool) n l : NoDup (de_domain <$> l) →
  find_domain n (filter (λ e, P e = true) l) =
  (e ← find_domain n l; if P e then Some e else None).
Proof.
  induction l as [|x l IH]; [done|]. intros [Hx Hl]%NoDup_cons. specialize (IH Hl).
  rewrite filter_cons. cbn [find_domain]. case_bool_decide as E.
  - cbn. destruct (P x) eqn:Ep; [rewrite decide_True by done|rewrite decide_False by done].
    + cbn [find_domain]. by rewrite bool_decide_eq_true_2.
    + rewrite IH. destruct (find_domain n l) as [e|] eqn:Ee; [|done].
      apply find_domain_in in Ee as [He <-]. exfalso. apply Hx. rewrite E. by apply list_elem_of_fmap_2.
  - destruct (decide (P x = true)); [|done]. cbn [find_domain]. by rewrite bool_decide_eq_false_2.
Qed.

Lemma chain_table d i e : e ∈ name_chain d i ↔ ∃ l, fd_domain_table d !! i = Some l ∧ e ∈ l.
Proof.
  unfold name_chain. destruct (fd_domain_table d !! i) as [l|]; cbn; split; try naive_solver.
  by intros ?%not_elem_of_nil.
Qed.

Lemma chain_nodup_names d names i : dns_repr d names → NoDup (de_domain <$> name_chain d i).
Proof.
  intros R. unfold name_chain. destruct (fd_domain_table d !! i) as [l|] eqn:E; [|constructor].
  by apply (dr_nodup _ _ R i).
Qed.

(** The entries are the names of the map. *)
Lemma entry_names d names i e : dns_repr d names → e ∈ name_chain d i →
  ∃ ip t, names !! de_domain e = Some (ip, t) ∧ e = mk_entry (de_domain e) (put32 ip) t.
Proof.
  intros R He. pose proof (chain_nodup_names _ _ i R) as Hd.
  assert (Hi : name_bucket d (de_domain e) = i).
  { apply chain_table in He as (l & Hl & He). by eapply (dr_home _ _ R). }
  pose proof (find_domain_nodup _ _ Hd He) as Hf. rewrite <-Hi, (dr_chain _ _ R) in Hf.
  apply fmap_Some in Hf as ([ip t] & Hn & E). eauto.
Qed.

Lemma names_entry d names n ip t : dns_repr d names → names !! n = Some (ip, t) →
  mk_entry n (put32 ip) t ∈ name_chain d (name_bucket d n).
Proof.
  intros R Hn. eapply find_domain_in. rewrite (dr_chain _ _ R), Hn. done.
Qed.

(** No address has two names. *)
Lemma names_inj d names n n' ip t t' : dns_repr d names → names !! n = Some (ip, t) →
  names !! n' = Some (ip, t') → n = n'.
Proof.
  intros R H1 H2.
  assert (E : ∀ m s, names !! m = Some (ip, s) → fd_ip_to_domain d !! (ip - base) = Some m).
  { intros m s Hm. apply (dr_ips _ _ R). exists s. rewrite Hm. do 2 f_equal. lia. }
  pose proof (E _ _ H1). pose proof (E _ _ H2). congruence.
Qed.

Lemma dword_put32 v : u32 v → dword_at (put32 v) 0 = v.
Proof. intros Hv. unfold dword_at, put32. pick. by apply dword_value. Qed.

Lemma ip_u32 ip : base <= ip < base + 2 ^ b → u32 ip.
Proof. unfold uint. lia. Qed.

(** ** Allocation *)

Lemma repr_counters d names q h a : dns_repr d names → dns_repr (set_counters q h a d) names.
Proof. intros []. by split. Qed.

Lemma store_repr d names n ip time : dns_repr d names → names !! n = None →
  base <= ip < base + 2 ^ b → slot_free d ip = true →
  dns_repr (store_name d n ip time) (<[n := (ip, wrap 64 (time + ttl))]> names).
Proof.
  intros R Hn Hip Hf. apply (slot_free_spec d names R ip Hip) in Hf as [Hc Hfree].
  set (e := mk_entry n (put32 ip) (wrap 64 (time + ttl))).
  assert (Ht : fd_domain_table (store_name d n ip time) =
    <[name_bucket d n := e :: name_chain d (name_bucket d n)]> (fd_domain_table d)).
  { cbn. unfold e. by rewrite (dr_ttl _ _ R). }
  assert (Hb : ∀ m, name_bucket (store_name d n ip time) m = name_bucket d m) by done.
  split; try apply R; try done.
  - cbn. rewrite (ip_after_spec d names R) by done.
    pose proof (Z.mod_pos_bound (ip + 1 - base) (2 ^ b) size_pos). lia.
  - intros m. rewrite Hb. unfold name_chain. rewrite Ht.
    destruct (decide (name_bucket d m = name_bucket d n)) as [E|E].
    + rewrite E, lookup_insert_eq. cbn. case_bool_decide as Em.
      * subst m. by rewrite lookup_insert_eq.
      * rewrite lookup_insert_ne by done. rewrite <-E. apply (dr_chain _ _ R).
    + rewrite lookup_insert_ne by done. rewrite lookup_insert_ne by congruence. apply (dr_chain _ _ R).
  - intros i l x. rewrite Ht, Hb. intros [[<- <-]|[_ Hl]]%lookup_insert_Some.
    + intros [->|Hx]%elem_of_cons; [done|]. apply chain_table in Hx as (l & Hl & Hx).
      by eapply (dr_home _ _ R).
    + by apply (dr_home _ _ R).
  - intros i l. rewrite Ht. intros [[<- <-]|[_ Hl]]%lookup_insert_Some; [|by eapply (dr_nodup _ _ R)].
    rewrite fmap_cons. apply NoDup_cons. split; [|by eapply chain_nodup_names].
    intros (x & E & Hx)%list_elem_of_fmap. destruct (entry_names _ _ _ _ R Hx) as (i & t & Hi & _).
    cbn in E. by rewrite <-E, Hn in Hi.
  - intros j m. cbn. rewrite (ip_index_spec d names R) by done. split.
    + intros [[<- <-]|[Hj Hm]]%lookup_insert_Some.
      * exists (wrap 64 (time + ttl)). rewrite lookup_insert_eq. do 2 f_equal. lia.
      * apply (dr_ips _ _ R) in Hm as [t Hm]. exists t. rewrite lookup_insert_ne; [done|]. congruence.
    + intros [t [[<- [= E _]]|[Hm Ht']]%lookup_insert_Some].
      * replace j with (ip - base) by lia. apply lookup_insert_eq.
      * rewrite lookup_insert_ne; [apply (dr_ips _ _ R); eauto|]. intros <-.
        apply (Hfree m t). rewrite Ht'. do 2 f_equal. lia.
  - intros m i t [[<- [= <- _]]|[_ Hm]]%lookup_insert_Some; [lia|by eapply (dr_range _ _ R)].
Qed.

(** What asking for a name answers and does. *)
Definition get_ip_spec (names : names_map) (domain : option bytes) (h : dns_host) (a : bytes)
    (names' : names_map) : Prop :=
  match domain with
  | None | Some [] => a = zeros 4 ∧ names' = names
  | Some domain =>
      let n := normalize_domain domain TUNNEL_FAKE_DNS_DOMAIN in
      match names !! n with
      | Some (ip, _) => a = put32 ip ∧ names' = names
      | None =>
          (∃ ip, base <= ip < base + capacity ∧ (∀ n' t, names !! n' ≠ Some (ip, t)) ∧
             dh_strdup h = true ∧ dh_calloc h = true ∧ a = put32 ip ∧
             names' = <[n := (ip, wrap 64 (dh_time h + ttl))]> names) ∨
          (a = zeros 4 ∧ names' = names ∧
             (dh_strdup h = false ∨ dh_calloc h = false ∨
              ∀ ip, base <= ip < base + capacity → ∃ n' t, names !! n' = Some (ip, t)))
      end
  end.

Lemma get_ip_refines d names domain h : dns_repr d names →
  ∃ a d' names', tunnel_fake_dns_get_ip d domain h = Some (a, d') ∧ dns_repr d' names' ∧
    get_ip_spec names domain h a names'.
Proof.
  intros R. destruct domain as [[|c domain]|]; [by exists (zeros 4), d, names| |by exists (zeros 4), d, names].
  unfold tunnel_fake_dns_get_ip, get_ip_spec. rewrite (proj2 (Z.eqb_neq _ 0)) by (unfold len; cbn; lia).
  set (n := normalize_domain _ _).
  assert (R1 : dns_repr (count_query d) names) by by apply repr_counters.
  rewrite (dr_chain _ _ R1). destruct (names !! n) as [[ip t]|] eqn:En; cbn [fmap option_fmap option_map].
  { eexists _, _, names. split; [done|]. split; [by apply repr_counters|done]. }
  assert (R2 : dns_repr (count_allocation (count_query d)) names) by by apply repr_counters.
  set (d2 := count_allocation (count_query d)) in *.
  destruct (find_free_spec d2 names R2) as (ip & -> & Hip & Hfree). pose proof fake_capacity_range.
  destruct (slot_free d2 ip) eqn:Es.
  - pose proof (proj1 (slot_free_spec d2 names R2 ip Hip) Es) as [Hc Hn].
    unfold slot_free in Es. bool_prop. rewrite (proj2 (Z.leb_gt _ _)) by done.
    match goal with E : non_null _ = false |- _ => rewrite E end. cbn [orb].
    destruct (dh_strdup h) eqn:E1; cbn [negb]; [|exists (zeros 4), d2, names; eauto 10].
    destruct (dh_calloc h) eqn:E2; cbn [negb]; [|exists (zeros 4), d2, names; eauto 10].
    eexists _, _, _. split; [done|]. split; [apply store_repr; try done|].
    + unfold slot_free. rewrite (proj2 (Z.ltb_lt _ _)) by done.
      match goal with E : non_null _ = false |- _ => by rewrite E end.
    + left. exists ip. split_and!; try done; lia.
  - exists (zeros 4), d2, names. split_and!; [|done|].
    + replace (_ || _) with true; [done|]. symmetry. apply orb_true_iff. unfold slot_free in Es.
      apply andb_false_iff in Es as [Es|Es]; bool_prop; [left; by apply Z.leb_le|by right].
    + right. split_and!; [done..|]. right. right. intros q Hq. destruct Hfree as [|Hfree]; [congruence|].
      specialize (Hfree q ltac:(lia)). destruct (fd_ip_to_domain d2 !! (q - base)) as [m|] eqn:Em.
      * apply (dr_ips _ _ R2) in Em as [t Em]. exists m, t. rewrite Em. do 2 f_equal. lia.
      * unfold slot_free in Hfree. rewrite (ip_index_spec d2 names R2), Em, (dr_capacity _ _ R2) in Hfree by lia.
        rewrite (proj2 (Z.ltb_lt _ _)) in Hfree by lia. done.
Qed.

(** ** From addresses to names *)

Lemma land_mask ip : u32 ip → Z.land ip (2 ^ 32 - 2 ^ b) = ip / 2 ^ b * 2 ^ b.
Proof.
  intros Hip. rewrite <-Z.shiftr_div_pow2, <-Z.shiftl_mul_pow2 by lia.
  assert (E : 2 ^ 32 - 2 ^ b = Z.shiftl (Z.ones (32 - b)) b).
  { rewrite Z.shiftl_mul_pow2, Z.ones_equiv, <-Z.sub_1_r, Z.mul_sub_distr_r, <-Z.pow_add_r by lia.
    replace (32 - b + b) with 32 by lia. lia. }
  rewrite E. apply Z.bits_inj'. intros i Hi. rewrite Z.land_spec, !Z.shiftl_spec by done.
  destruct (Z_lt_le_dec i b); [by rewrite !(Z.testbit_neg_r _ (i - b)), andb_false_r by lia|].
  rewrite Z.shiftr_spec by lia. replace (i - b + b) with i by lia.
  destruct (Z_lt_le_dec i 32); [by rewrite Z.ones_spec_low, andb_true_r by lia|].
  rewrite Z.ones_spec_high, andb_false_r by lia. symmetry. unfold uint in Hip.
  destruct (decide (ip = 0)) as [->|]; [apply Z.bits_0|]. apply Z.bits_above_log2; [lia|].
  apply Z.lt_le_trans with 32; [|done]. apply Z.log2_lt_pow2; lia.
Qed.

Lemma in_range_spec d names ip : dns_repr d names → u32 ip →
  in_range d ip = true ↔ base <= ip < base + 2 ^ b.
Proof.
  intros R Hip. pose proof size_pos as Hp. unfold in_range. rewrite (dr_mask _ _ R), (dr_base _ _ R), Z.eqb_eq.
  rewrite !land_mask by (try done; apply ip_u32; lia).
  pose proof (Z.div_mod base (2 ^ b) ltac:(lia)) as Eb. rewrite base_aligned in Eb.
  pose proof (Z.div_mod ip (2 ^ b) ltac:(lia)) as Ei. pose proof (Z.mod_pos_bound ip (2 ^ b) Hp).
  split; [nia|]. intros Hr. f_equal.
  rewrite <-(Z.div_unique ip (2 ^ b) (base / 2 ^ b) (ip - base)) by nia. done.
Qed.

Lemma get_domain_refines d names a n : dns_repr d names → u32 (dword_at a 0) →
  tunnel_fake_dns_get_domain d a = Some n ↔ ∃ t, names !! n = Some (dword_at a 0, t).
Proof.
  intros R Hu. pose proof (in_range_spec d names _ R Hu) as Hr. pose proof fake_capacity_range.
  unfold tunnel_fake_dns_get_domain. set (ip := dword_at a 0) in *. split.
  - destruct (in_range d ip); [|done]. cbn [negb]. rewrite (dr_capacity _ _ R), (ip_index_spec d names R) by tauto.
    destruct (capacity <=? ip - base); [done|]. intros [t Ht]%(dr_ips _ _ R). exists t. rewrite Ht. do 2 f_equal. lia.
  - intros [t Ht]. pose proof (dr_range _ _ R _ _ _ Ht) as Hip.
    rewrite (proj2 Hr), (dr_capacity _ _ R), (ip_index_spec d names R) by lia. cbn [negb].
    rewrite (proj2 (Z.leb_gt _ _)) by lia. apply (dr_ips _ _ R). exists t. rewrite Ht. do 2 f_equal. lia.
Qed.

Lemma is_fake_ip_refines d names n ip t : dns_repr d names → names !! n = Some (ip, t) →
  tunnel_fake_dns_is_fake_ip d (put32 ip) = true.
Proof.
  intros R Hn. pose proof (dr_range _ _ R _ _ _ Hn). pose proof fake_capacity_range.
  unfold tunnel_fake_dns_is_fake_ip. assert (u32 ip) by (apply ip_u32; lia).
  rewrite dword_put32 by done. apply (in_range_spec d names); [done|done|lia].
Qed.

(** ** Expiry *)

Lemma elem_of_all_entries d e : e ∈ all_entries d ↔ ∃ i, e ∈ name_chain d i.
Proof.
  unfold all_entries. rewrite list_elem_of_bind. setoid_rewrite chain_table. split.
  - intros ([i l] & He & Hl%elem_of_map_to_list). eauto.
  - intros (i & l & Hl & He). exists (i, l). split; [done|]. by apply elem_of_map_to_list.
Qed.

(** The array after the addresses of some entries were released. *)
Lemma release_lookup d names (dead : list domain_entry) m j n : dns_repr d names →
  (∀ e, e ∈ dead → ∃ i, e ∈ name_chain d i) →
  foldr (release_address d) m dead !! j = Some n ↔
  m !! j = Some n ∧ ∀ e ip t, e ∈ dead → names !! de_domain e = Some (ip, t) → ip ≠ base + j.
Proof.
  intros R. pose proof fake_capacity_range. induction dead as [|e dead IH]; intros Hdead.
  { cbn. split; [|tauto]. intros Hj. split; [done|]. by intros e ip t ?%not_elem_of_nil. }
  cbn [foldr]. destruct (Hdead e) as [i He]; [left|]. destruct (entry_names _ _ _ _ R He) as (ip & t & Hn & E).
  pose proof (dr_range _ _ R _ _ _ Hn) as Hip.
  assert (Hi : ip_index d (dword_at (de_fake_ip e) 0) = ip - base).
  { rewrite E. cbn [de_fake_ip]. rewrite dword_put32 by (apply ip_u32; lia). apply (ip_index_spec d names R). lia. }
  unfold release_address at 1. rewrite Hi, (dr_capacity _ _ R), (proj2 (Z.ltb_lt _ _)) by lia.
  rewrite lookup_delete_Some, IH by (intros x Hx; apply Hdead; by right). split.
  - intros (Hj & Hm & Hall). split; [done|]. intros x ip' t' [->|Hx]%elem_of_cons Hx'; [|by eapply Hall].
    rewrite Hn in Hx'. injection Hx' as <- <-. lia.
  - intros [Hm Hall]. split_and!; [|done|].
    + intros <-. eapply (Hall e ip t); [left|done|lia].
    + intros x ip' t' Hx. eapply Hall. by right.
Qed.

(** The names that are not dead at [now]. *)
Definition names_alive (now : Z) (names : names_map) : names_map :=
  filter (λ v, (as_time v.2.2 <? now) = false) names.

Lemma names_alive_lookup now names n ip t :
  names_alive now names !! n = Some (ip, t) ↔ names !! n = Some (ip, t) ∧ (as_time t <? now) = false.
Proof. apply map_lookup_filter_Some. Qed.

Lemma fake_expire_refines d names now : dns_repr d names →
  dns_repr (tunnel_fake_dns_expire d now).2 (names_alive now names).
Proof.
  intros R. set (d' := (tunnel_fake_dns_expire d now).2).
  assert (Hc : ∀ i, name_chain d' i = filter (λ e, entry_dead now e = false) (name_chain d i)).
  { intros i. unfold name_chain. cbn. rewrite lookup_fmap. by destruct (fd_domain_table d !! i). }
  assert (Hb : ∀ n, name_bucket d' n = name_bucket d n) by done.
  split; try apply R.
  - intros n. rewrite Hb, Hc.
    assert (E : ∀ l : list domain_entry, filter (λ e, entry_dead now e = false) l = filter (λ e, negb (entry_dead now e) = true) l).
    { intros l. apply list_filter_iff. intros e. by destruct (entry_dead now e). }
    rewrite E, find_domain_filter, (dr_chain _ _ R) by by eapply chain_nodup_names. apply option_eq. intros e.
    rewrite fmap_Some. split.
    + intros Hx. apply bind_Some in Hx as (x & Hf & Hx). apply fmap_Some in Hf as ([ip t] & Hn & ->).
      unfold entry_dead in Hx. cbn in Hx. destruct (as_time t <? now) eqn:Et; [done|]. injection Hx as <-.
      exists (ip, t). split; [|done]. by apply names_alive_lookup.
    + intros ([ip t] & [Hn Ht]%names_alive_lookup & ->). rewrite Hn. cbn. unfold entry_dead. cbn. by rewrite Ht.
  - intros i l e Hl He. rewrite Hb. cbn in Hl. rewrite lookup_fmap in Hl.
    apply fmap_Some in Hl as (l' & Hl & ->). apply list_elem_of_filter in He as [_ He].
    by apply (dr_home _ _ R i l').
  - intros i l. cbn. rewrite lookup_fmap. intros (l' & Hl & ->)%fmap_Some.
    eapply sublist_NoDup; [by apply (dr_nodup _ _ R i)|]. apply fmap_sublist, sublist_filter.
  - intros j n. cbn. rewrite (release_lookup _ _ _ _ _ _ R), (dr_ips _ _ R).
    2: { intros e [_ He]%list_elem_of_filter. by apply elem_of_all_entries. }
    split.
    + intros [[t Hn] Hall]. exists t. apply names_alive_lookup. split; [done|].
      destruct (as_time t <? now) eqn:Et; [|done]. exfalso.
      eapply (Hall (mk_entry n (put32 (base + j)) t)); [|exact Hn|done].
      apply list_elem_of_filter. split; [done|]. apply elem_of_all_entries. eexists. by eapply names_entry.
    + intros [t [Hn Ht]%names_alive_lookup]. split; [eauto|].
      intros e ip' t' [Hd He]%list_elem_of_filter He' ->.
      assert (de_domain e = n) as <- by by eapply (names_inj d names). rewrite Hn in He'.
      injection He' as <-. apply elem_of_all_entries in He as [i He].
      destruct (entry_names _ _ _ _ R He) as (ip2 & t2 & Hn2 & E). rewrite Hn in Hn2. injection Hn2 as <- <-.
      rewrite E in Hd. unfold entry_dead in Hd. cbn in Hd. congruence.
  - intros n ip t [Hn _]%names_alive_lookup. by eapply (dr_range _ _ R).
Qed.

Lemma empty_repr_dns d : fd_domain_table_size d = TUNNEL_FAKE_DNS_TABLE_SIZE → fd_base_ip d = base →
  fd_mask d = 2 ^ 32 - 2 ^ b → fd_ip_capacity d = capacity → fd_ttl d = ttl → fd_next_ip d = base →
  fd_domain_table d = ∅ → fd_ip_to_domain d = ∅ → dns_repr d ∅.
Proof.
  intros H1 H2 H3 H4 H5 H6 H7 H8. pose proof size_pos.
  split; try done.
  - lia.
  - intros n. unfold name_chain. by rewrite H7, !lookup_empty.
  - intros i l e. by rewrite H7, lookup_empty.
  - intros i l. by rewrite H7, lookup_empty.
  - intros j n. rewrite H8, lookup_empty. split; [done|]. intros [t Ht]. by rewrite lookup_empty in Ht.
Qed.

Lemma clear_refines d names : dns_repr d names → dns_repr (tunnel_fake_dns_clear d) ∅.
Proof. intros []. by apply empty_repr_dns. Qed.

Lemma create_refines d : tunnel_fake_dns_create (put32 base) (put32 (2 ^ 32 - 2 ^ b)) ttl true true true = Some d →
  dns_repr d ∅.
Proof.
  pose proof size_pos. assert (2 ^ b <= 2 ^ 31) by (apply Z.pow_le_mono_r; lia).
  unfold tunnel_fake_dns_create, dns_size. rewrite !dword_put32 by (unfold uint; lia). intros [= <-].
  apply empty_repr_dns; try done. cbn [fd_ip_capacity]. unfold capacity.
  rewrite lnot_mask, (wrap_small 32) by (unfold uint; lia). replace (2 ^ b - 1 + 1) with (2 ^ b) by lia.
  destruct (Z.ltb_spec TUNNEL_FAKE_DNS_SIZE (2 ^ b)); lia.
Qed.

(** ** Queries *)

(** The name a query asks the address of, if it is one that is answered. *)
Definition question (query : option bytes) : option bytes :=
  query ← query;
  domain ← tunnel_fake_dns_extract_domain query TUNNEL_FAKE_DNS_DOMAIN;
  let ptr := (question_end query (length query) 12 + 1)%nat in
  if (len query <? 16) || (length query <? ptr + 4)%nat ||
     negb (word_at query ptr =? 1) || negb (word_at query (ptr + 2) =? 1)
  then None else Some (cstr domain).

(** The response with the address [a]. *)
Definition response (query a : bytes) : bytes :=
  response_base query ++ [192; 12; 0; 1; 0; 1] ++ put32 ttl ++ [0; 4] ++ a.

Definition query_spec (names : names_map) (query : option bytes) (max_len : Z) (h : dns_host)
    (r : option bytes) (names' : names_map) : Prop :=
  match question query with
  | None => r = None ∧ names' = names
  | Some name => ∃ a, get_ip_spec names (Some name) h a names' ∧
      r = q ← query;
          if bool_decide (a = zeros 4) || (max_len <? len q + 16) then None else Some (response q a)
  end.

Lemma query_refines d names query max_len h : dns_repr d names →
  ∃ r d' names', tunnel_fake_dns_process_query d query max_len h = Some (r, d') ∧ dns_repr d' names' ∧
    query_spec names query max_len h r names'.
Proof.
  intros R. unfold tunnel_fake_dns_process_query, query_spec, question.
  destruct query as [q|]; cbn [mbind option_bind]; [|by eauto 10].
  destruct (tunnel_fake_dns_extract_domain _ _) as [domain|]; cbn [mbind option_bind]; [|by eauto 10].
  destruct (len q <? 16); cbn [orb]; [by eauto 10|].
  destruct (length q <? _)%nat; cbn [orb]; [by eauto 10|].
  destruct (_ || _); [by eauto 10|].
  cbn [mbind option_bind].
  destruct (get_ip_refines d names (Some (cstr domain)) h R) as (a & d' & names' & -> & R' & Hs).
  case_bool_decide as Ea; cbn [orb].
  - exists None, d', names'. split_and!; [done|done|]. exists a. split; [done|]. cbn [mbind option_bind].
    by rewrite bool_decide_eq_true_2.
  - destruct (max_len <? len q + 16) eqn:Em.
    + exists None, d', names'. split_and!; [done|done|]. exists a. split; [done|].
      cbn [mbind option_bind]. by rewrite bool_decide_eq_false_2 by done.
    + eexists _, d', names'. split_and!; [done|done|]. exists a. split; [done|].
      cbn [mbind option_bind]. rewrite bool_decide_eq_false_2 by done. cbn [orb]. unfold response, answer_bytes.
      by rewrite (dr_ttl _ _ R').
Qed.

(** ** Sequences of calls *)

Inductive dns_call : Type :=
  | GetIp (domain : option bytes) (h : dns_host)
  | Query (query : option bytes) (max_len : Z) (h : dns_host)
  | GetDomain (a : bytes)
  | Expire (now : Z)
  | Clear.

Inductive dns_result : Type :=
  | Address (a : bytes)
  | Answer (r : option bytes)
  | Name (n : option bytes)
  | Expired (count : Z)
  | Cleared.

Definition run_call (c : dns_call) (d : tunnel_fake_dns) : option (dns_result * tunnel_fake_dns) :=
  match c with
  | GetIp domain h => '(a, d) ← tunnel_fake_dns_get_ip d domain h; Some (Address a, d)
  | Query query max_len h => '(r, d) ← tunnel_fake_dns_process_query d query max_len h; Some (Answer r, d)
  | GetDomain a => Some (Name (tunnel_fake_dns_get_domain d a), d)
  | Expire now => let '(n, d) := tunnel_fake_dns_expire d now in Some (Expired n, d)
  | Clear => Some (Cleared, tunnel_fake_dns_clear d)
  end.

Fixpoint run_calls (cs : list dns_call) (d : tunnel_fake_dns) : option (list dns_result * tunnel_fake_dns) :=
  match cs with
  | [] => Some ([], d)
  | c :: cs => '(r, d) ← run_call c d; '(rs, d) ← run_calls cs d; Some (r :: rs, d)
  end.

Definition call_spec (names : names_map) (c : dns_call) (r : dns_result) (names' : names_map) : Prop :=
  match c with
  | GetIp domain h => ∃ a, r = Address a ∧ get_ip_spec names domain h a names'
  | Query query max_len h => ∃ x, r = Answer x ∧ query_spec names query max_len h x names'
  | GetDomain a => names' = names ∧ ∃ x, r = Name x ∧
      ∀ n, x = Some n ↔ ∃ t, names !! n = Some (dword_at a 0, t)
  | Expire now => names' = names_alive now names ∧ ∃ k, r = Expired k
  | Clear => names' = ∅ ∧ r = Cleared
  end.

Inductive dns_trace : names_map → list dns_call → list dns_result → names_map → Prop :=
  | trace_nil names : dns_trace names [] [] names
  | trace_cons names c cs r rs names' names'' : call_spec names c r names' →
      dns_trace names' cs rs names'' → dns_trace names (c :: cs) (r :: rs) names''.

(** An address is four bytes. *)
Definition call_ready (c : dns_call) : Prop :=
  match c with GetDomain a => bytes_ok 4 a | _ => True end.

Lemma dword_u32 a : bytes_ok 4 a → u32 (dword_at a 0).
Proof.
  intros [Hl Ha]. assert (E : dword_at a 0 = be_value a).
  { destruct a as [|a0 [|a1 [|a2 [|a3 [|]]]]]; try done. unfold dword_at, be_value. cbn [foldl at_]. pick.
    rewrite Z.shiftl_0_l, Z.lor_0_l. by rewrite !Z.shiftl_lor, !Z.shiftl_shiftl by lia. }
  rewrite E. pose proof (be_value_range a Ha) as Hr. unfold len in Hr. by rewrite Hl in Hr.
Qed.

Lemma call_refines d names c : dns_repr d names → call_ready c →
  ∃ r d' names', run_call c d = Some (r, d') ∧ dns_repr d' names' ∧ call_spec names c r names'.
Proof.
  intros R Hc. destruct c as [domain h|query max_len h|a|now|]; cbn [run_call call_spec].
  - destruct (get_ip_refines d names domain h R) as (a & d' & names' & -> & R' & Hs). eauto 10.
  - destruct (query_refines d names query max_len h R) as (a & d' & names' & -> & R' & Hs). eauto 10.
  - eexists _, d, names. split_and!; [done|done|done|]. eexists. split; [done|]. intros n.
    apply get_domain_refines; [done|]. by apply dword_u32.
  - eexists _, _, _. split; [done|]. split; [by apply fake_expire_refines|]. eauto.
  - eexists _, _, _. split; [done|]. split; [by eapply clear_refines|done].
Qed.

Lemma calls_refine cs : ∀ d names, dns_repr d names → Forall call_ready cs →
  ∃ rs d' names', run_calls cs d = Some (rs, d') ∧ dns_repr d' names' ∧ dns_trace names cs rs names'.
Proof.
  induction cs as [|c cs IH]; intros d names R Hcs.
  - exists [], d, names. split_and!; [done|done|constructor].
  - apply Forall_cons in Hcs as [Hc Hcs].
    destruct (call_refines d names c R Hc) as (r & d1 & names1 & E1 & R1 & S1).
    destruct (IH d1 names1 R1 Hcs) as (rs & d2 & names2 & E2 & R2 & S2).
    exists (r :: rs), d2, names2. split_and!; [|done|by econstructor].
    cbn [run_calls]. rewrite E1. cbn [mbind option_bind]. by rewrite E2.
Qed.

(** Names only come, as long as nothing expires. *)
Definition keeps_names (c : dns_call) : Prop :=
  match c with Expire _ | Clear => False | _ => True end.

Lemma get_ip_spec_grows names domain h a names' : get_ip_spec names domain h a names' → names ⊆ names'.
Proof.
  unfold get_ip_spec. destruct domain as [[|c domain]|]; [by intros [_ ->]| |by intros [_ ->]].
  destruct (names !! _) as [[ip t]|] eqn:En; [by intros [_ ->]|].
  intros [(ip & _ & _ & _ & _ & _ & ->)|(_ & -> & _)]; [by apply insert_subseteq|done].
Qed.

Lemma call_spec_grows names c r names' : keeps_names c → call_spec names c r names' → names ⊆ names'.
Proof.
  destruct c; cbn; try done.
  - intros _ (a & _ & Hs). by eapply get_ip_spec_grows.
  - intros _ (x & _ & Hs). unfold query_spec in Hs. destruct (question query) as [n|]; [|by destruct Hs as [_ ->]].
    destruct Hs as (a & Hs & _). by eapply get_ip_spec_grows.
  - by intros _ [-> _].
Qed.

Lemma trace_grows names cs rs names' : Forall keeps_names cs → dns_trace names cs rs names' → names ⊆ names'.
Proof.
  intros Hcs Ht. induction Ht as [|names c cs r rs names' names'' Hc Ht IH]; [done|].
  apply Forall_cons in Hcs as [Hk Hcs]. transitivity names'; [by eapply call_spec_grows|by apply IH].
Qed.

(** An address that is handed out is the name's. *)
Lemma get_ip_spec_mapped names name h a names' : get_ip_spec names (Some name) h a names' → a ≠ zeros 4 →
  ∃ ip t, a = put32 ip ∧ names' !! normalize_domain name TUNNEL_FAKE_DNS_DOMAIN = Some (ip, t).
Proof.
  unfold get_ip_spec. destruct name as [|c name]; [by intros [-> _]|].
  destruct (names !! _) as [[ip t]|] eqn:En; [intros [-> ->] _; eauto|].
  intros [(ip & _ & _ & _ & _ & -> & ->)|(-> & _)]; [|done]. intros _.
  eexists _, _. split; [done|]. apply lookup_insert_eq.
Qed.

(** An answer gives the address that is the name's from then on. *)
Lemma answer_name d names q max_len h resp d' : dns_repr d names →
  tunnel_fake_dns_process_query d (Some q) max_len h = Some (Some resp, d') →
  ∃ name ip t names', question (Some q) = Some name ∧ resp = response q (put32 ip) ∧ names ⊆ names' ∧
    dns_repr d' names' ∧ names' !! normalize_domain name TUNNEL_FAKE_DNS_DOMAIN = Some (ip, t).
Proof.
  intros R E. destruct (query_refines d names (Some q) max_len h R) as (r & d1 & names' & E1 & R' & Hq).
  rewrite E in E1. injection E1 as <- <-. unfold query_spec in Hq.
  destruct (question (Some q)) as [name|]; [|by destruct Hq]. destruct Hq as (a & Ha & Hr).
  cbn [mbind option_bind] in Hr. case_bool_decide as Ez; [done|]. cbn [orb] in Hr.
  destruct (max_len <? len q + 16); [done|]. injection Hr as ->.
  destruct (get_ip_spec_mapped _ _ _ _ _ Ha Ez) as (ip & t & -> & Hn).
  exists name, ip, t, names'. split_and!; try done. by eapply get_ip_spec_grows.
Qed.

Lemma run_calls_repr d names cs rs d' : dns_repr d names → Forall call_ready cs →
  run_calls cs d = Some (rs, d') → ∃ names', dns_repr d' names' ∧ dns_trace names cs rs names'.
Proof.
  intros R Hc E. destruct (calls_refine cs d names R Hc) as (rs' & d1 & names' & E' & R' & Ht).
  rewrite E in E'. injection E' as <- <-. eauto.
Qed.

(** Two answers have the same address for the same name only. *)
Lemma same_address d names n n' ip ip' t t' : dns_repr d names → names !! n = Some (ip, t) →
  names !! n' = Some (ip', t') → put32 ip' = put32 ip ↔ n' = n.
Proof.
  intros R H1 H2. pose proof fake_capacity_range.
  pose proof (dr_range _ _ R _ _ _ H1). pose proof (dr_range _ _ R _ _ _ H2). split; [|congruence].
  intros E. apply (f_equal (λ a, dword_at a 0)) in E. rewrite !dword_put32 in E by (apply ip_u32; lia).
  subst ip'. symmetry. by eapply names_inj.
Qed.

Lemma address_resolves d names n ip t : dns_repr d names → names !! n = Some (ip, t) →
  tunnel_fake_dns_get_domain d (put32 ip) = Some n ∧ tunnel_fake_dns_is_fake_ip d (put32 ip) = true.
Proof.
  intros R Hn. pose proof fake_capacity_range. pose proof (dr_range _ _ R _ _ _ Hn).
  assert (u32 ip) by (apply ip_u32; lia). split; [|by eapply is_fake_ip_refines].
  apply (get_domain_refines d names); rewrite ?dword_put32 by done; eauto.
Qed.

End Range.

Lemma default_some {A} (x : option A) (y : A) : non_null x = true → x = Some (default y x).
Proof. by destruct x. Qed.

(** C7: the fake DNS table is a map from names to addresses.  For every range of
    [2 ^ b] addresses that is aligned, and every sequence of calls (asking for a
    name's address, answering a query, looking an address up, expiring, clearing;
    allocations may fail), every call returns, the table and the array stand for
    one map from names to addresses, and every call answers and changes the map as
    its specification says: a name that is known keeps its address, a new name
    gets an address of the range that no other name has, and 0 is answered only
    when memory or the range is exhausted; an address leads to the one name that
    has it. *)
Theorem fake_dns_refines_map (b base ttl : Z) (d : tunnel_fake_dns) (cs : list dns_call) :
  0 <= b < 32 → 0 <= base ∧ base + 2 ^ b <= 2 ^ 32 → base mod 2 ^ b = 0 →
  tunnel_fake_dns_create (put32 base) (put32 (2 ^ 32 - 2 ^ b)) ttl true true true = Some d →
  Forall call_ready cs →
  ∃ rs d' names', run_calls cs d = Some (rs, d') ∧ dns_trace b base ttl ∅ cs rs names' ∧
    dns_repr b base ttl d' names'.
Proof.
  intros Hb Hr Ha Hd Hc.
  destruct (calls_refine b base ttl Hb Hr Ha cs d ∅) as (rs & d' & names' & E & R & Ht); [|done|].
  - by eapply create_refines.
  - by exists rs, d', names'.
Qed.


(** ** Witnesses: 198.18.0.0 with a mask of 24 bits, asked for [Ab.com] and [c] *)

Definition w_dns : tunnel_fake_dns :=
  default (mk_dns ∅ 0 ∅ 0 0 0 0 0 0 0 0 0)
    (tunnel_fake_dns_create (put32 3323068416) (put32 (2 ^ 32 - 2 ^ 8)) 60 true true true).
Definition w_host : dns_host := mk_dns_host true true 1000.
Definition w_name : bytes := [65; 98; 46; 99; 111; 109].
Definition w_lower : bytes := [97; 98; 46; 99; 111; 109].
Definition w_query : bytes :=
  [18; 52; 1; 0; 0; 1; 0; 0; 0; 0; 0; 0; 2; 65; 98; 3; 99; 111; 109; 0; 0; 1; 0; 1].
Definition w_calls : list dns_call :=
  [GetIp (Some [99]) w_host; Query (Some w_query) 512 w_host; GetDomain [198; 18; 0; 1]; Expire 2000;
   GetDomain [198; 18; 0; 1]].
Definition w_after {A} (r : option (A * tunnel_fake_dns)) : tunnel_fake_dns := default w_dns (snd <$> r).

Example w_calls_run : fst <$> run_calls w_calls w_dns =
  Some [Address [198; 18; 0; 0]; Answer (Some (response 60 w_query [198; 18; 0; 1])); Name (Some w_lower);
        Expired 2; Name None].
Proof. vm_compute. reflexivity. Qed.

Lemma fake_dns_refines_map_witness : ∃ rs d' names', run_calls w_calls w_dns = Some (rs, d') ∧
  dns_trace 8 3323068416 60 ∅ w_calls rs names' ∧ dns_repr 8 3323068416 60 d' names'.
Proof.
  apply fake_dns_refines_map; [lia|lia|reflexivity| |].
  - apply default_some. vm_compute. reflexivity.
  - repeat constructor; unfold uint; lia.
Defined.

Definition w_before : list dns_call := [GetIp (Some [99]) w_host].
Definition w_later : list dns_call := [GetIp (Some [100]) w_host; GetDomain [198; 18; 0; 1]].
Definition w_d1 : tunnel_fake_dns := w_after (run_calls w_before w_dns).
Definition w_d2 : tunnel_fake_dns := w_after (tunnel_fake_dns_process_query w_d1 (Some w_query) 512 w_host).
Definition w_d3 : tunnel_fake_dns := w_after (run_calls w_later w_d2).

Lemma run_after {A} (x : option (A * tunnel_fake_dns)) (r : A) : fst <$> x = Some r → x = Some (r, w_after x).
Proof. destruct x as [[]|]; [|done]. by intros [= ->]. Qed.

