(* ===== verification/TunnelSession.v ===== *)
(** * Sessions: [tunnel_session.c]

    The life of a session: made for a new connection and put on the session
    table, fed with packets from the TUN device and data from the proxy, closed
    and released.  The proxy client, the TUN device, the fake DNS table, the
    allocator, the clock and the random generator are a class; the callbacks the
    session hands to the proxy are functions of this file. *)

From S2P Require Import Prelude TunnelTypes TunnelNat TunnelPacket.

Definition TUNNEL_SESSION_RECV_BUF : Z := 32768.
Definition TUNNEL_SESSION_SEND_BUF : Z := 32768.
Definition TUNNEL_SEND_BUF_SIZE : nat := Z.to_nat 65536.
Definition TUNNEL_MAX_DOMAIN : nat := 256.
Definition TUNNEL_SESSION_TIMEOUT_MS : Z := 300000.
Definition TUNNEL_UDP_TIMEOUT_MS : Z := 60000.

(** ** The parts around the sessions *)

(** A connection at the proxy is a number.  [malloc_session] is told which
    addresses are in use; [tunnel_endpoint_text] is the address as text. *)
Class TunnelHost : Type := {
  host : Type;
  malloc_session : gset loc → host → option loc * host;
  malloc_buffer : Z → host → bool * host;
  salts_monotonic_ms : host → Z * host;
  wall_clock : host → Z * host;
  secure_random : host → option Z * host;
  tunnel_proxy_connect_tcp : bytes → Z → loc → host → option Z * host;
  tunnel_proxy_connect_udp : loc → host → option Z * host;
  tunnel_proxy_conn_set_session : Z → loc → host → host;
  tunnel_proxy_send : Z → bytes → host → Z * host;
  tunnel_proxy_send_udp : Z → tunnel_endpoint → bytes → host → Z * host;
  tunnel_proxy_conn_close : Z → host → host;
  tunnel_proxy_conn_destroy : Z → host → host;
  tunnel_tun_write : bytes → host → Z * host;
  tunnel_fake_dns_get_domain : bytes → host → option bytes;
  tunnel_fake_dns_process_query : option bytes → host → option bytes * host;
  traffic_cb : Z → bytes → host → host;
  tunnel_endpoint_text : tunnel_endpoint → bytes }.

(** An allocation is not in use, and the addresses are 64-bit. *)
Class TunnelHostLaws `{TunnelHost} : Prop :=
  malloc_fresh : ∀ used h p h', malloc_session used h = (Some p, h') →
    p ∉ used ∧ Z.of_nat (S (size used)) < 2 ^ 64.

Inductive tunnel_mode : Type := TUNNEL_MODE_PROXY | TUNNEL_MODE_PACKET.
#[export] Instance tunnel_mode_eq_dec : EqDecision tunnel_mode.
Proof. solve_decision. Defined.

(** What the sessions read of the tunnel: its configuration and which of its parts
    exist. *)
Record tunnel_config : Type := mk_config {
  cf_mode : tunnel_mode;
  cf_udp_disabled : bool;
  cf_session_timeout : Z;
  cf_proxy : bool;
  cf_tun : bool;
  cf_fake_dns : bool }.

Section Sessions.
Context {H : TunnelHost} (o : byte_order) (cf : tunnel_config).

(** [w_ip_id] is the static counter of [build_ipv4_header]. *)
Record world : Type := mk_world {
  w_mem : memory;
  w_host : host;
  w_ip_id : Z }.

Definition W : Type → Type := M world.

(** ** Steps of the parts *)

Definition on_table {A} (c : Mem A) : W A := λ w,
  match c (w_mem w) with
  | Some (x, m) => Some (x, mk_world m (w_host w) (w_ip_id w))
  | None => None
  end.
Definition call {A} (f : host → A * host) : W A := λ w,
  let '(x, h) := f (w_host w) in Some (x, mk_world (w_mem w) h (w_ip_id w)).
Definition tell (f : host → host) : W unit := call (λ h, (tt, f h)).

Definition read_session (s : loc) : W tunnel_session := on_table (load s).
Definition write_session (s : loc) (f : tunnel_session → tunnel_session) : W unit :=
  on_table (assign_session s f).

(** [free(session)], of memory that is allocated. *)
Definition free_session (s : loc) : W unit :=
  _ ← read_session s; on_table (modify (set_sessions (delete s))).

(** Building a packet in a fresh buffer and writing it to the device; the contents
    of the buffer behind the packet do not matter. *)
Definition build_with (n : nat) (f : bytes → Z → Z * bytes * Z) : W (Z * bytes) := λ w,
  let '(r, buf, id) := f (zeros n) (w_ip_id w) in
  Some ((r, buf), mk_world (w_mem w) (w_host w) id).
Definition write_packet (r : Z) (buf : bytes) : W Z := call (tunnel_tun_write (sub buf 0 (Z.to_nat r))).

(** ** Field assignments *)

Definition set_session_state (v : tunnel_session_state) (s : tunnel_session) : tunnel_session :=
  mk_session (se_key s) v (se_proxy_conn s) (se_traffic s) (se_create_time s) (se_last_active s)
    (se_tcp s) (se_local_port s) (se_send s) (se_send_cap s) (se_recv_cap s) (se_domain s)
    (se_hash s) (se_lru s).
Definition set_conn (v : option Z) (s : tunnel_session) : tunnel_session :=
  mk_session (se_key s) (se_state s) v (se_traffic s) (se_create_time s) (se_last_active s)
    (se_tcp s) (se_local_port s) (se_send s) (se_send_cap s) (se_recv_cap s) (se_domain s)
    (se_hash s) (se_lru s).
Definition set_traffic (v : traffic) (s : tunnel_session) : tunnel_session :=
  mk_session (se_key s) (se_state s) (se_proxy_conn s) v (se_create_time s) (se_last_active s)
    (se_tcp s) (se_local_port s) (se_send s) (se_send_cap s) (se_recv_cap s) (se_domain s)
    (se_hash s) (se_lru s).
Definition set_last_active (v : Z) (s : tunnel_session) : tunnel_session :=
  mk_session (se_key s) (se_state s) (se_proxy_conn s) (se_traffic s) (se_create_time s) v
    (se_tcp s) (se_local_port s) (se_send s) (se_send_cap s) (se_recv_cap s) (se_domain s)
    (se_hash s) (se_lru s).
Definition set_tcp (v : tcp_block) (s : tunnel_session) : tunnel_session :=
  mk_session (se_key s) (se_state s) (se_proxy_conn s) (se_traffic s) (se_create_time s)
    (se_last_active s) v (se_local_port s) (se_send s) (se_send_cap s) (se_recv_cap s) (se_domain s)
    (se_hash s) (se_lru s).
Definition set_local_port (v : Z) (s : tunnel_session) : tunnel_session :=
  mk_session (se_key s) (se_state s) (se_proxy_conn s) (se_traffic s) (se_create_time s)
    (se_last_active s) (se_tcp s) v (se_send s) (se_send_cap s) (se_recv_cap s) (se_domain s)
    (se_hash s) (se_lru s).
Definition set_send (v : bytes) (s : tunnel_session) : tunnel_session :=
  mk_session (se_key s) (se_state s) (se_proxy_conn s) (se_traffic s) (se_create_time s)
    (se_last_active s) (se_tcp s) (se_local_port s) v (se_send_cap s) (se_recv_cap s) (se_domain s)
    (se_hash s) (se_lru s).
Definition set_domain (v : bytes) (s : tunnel_session) : tunnel_session :=
  mk_session (se_key s) (se_state s) (se_proxy_conn s) (se_traffic s) (se_create_time s)
    (se_last_active s) (se_tcp s) (se_local_port s) (se_send s) (se_send_cap s) (se_recv_cap s) v
    (se_hash s) (se_lru s).

Definition tcp_set_state (v : tunnel_tcp_state) (s : tunnel_session) : tunnel_session :=
  let t := se_tcp s in
  set_tcp (mk_tcp (seq_local t) (seq_remote t) (ack_local t) (ack_remote t) (window t) v) s.
Definition tcp_set_seq_local (v : Z) (s : tunnel_session) : tunnel_session :=
  let t := se_tcp s in
  set_tcp (mk_tcp v (seq_remote t) (ack_local t) (ack_remote t) (window t) (tcp_state t)) s.
Definition tcp_set_seq_remote (v : Z) (s : tunnel_session) : tunnel_session :=
  let t := se_tcp s in
  set_tcp (mk_tcp (seq_local t) v (ack_local t) (ack_remote t) (window t) (tcp_state t)) s.
Definition tcp_set_ack_local (v : Z) (s : tunnel_session) : tunnel_session :=
  let t := se_tcp s in
  set_tcp (mk_tcp (seq_local t) (seq_remote t) v (ack_remote t) (window t) (tcp_state t)) s.

Definition count_rx (n : Z) (packets : Z) (s : tunnel_session) : tunnel_session :=
  let t := se_traffic s in
  set_traffic (mk_traffic (wrap 64 (bytes_rx t + n)) (bytes_tx t)
    (wrap 64 (packets_rx t + packets)) (packets_tx t)) s.
Definition count_tx (n : Z) (packets : Z) (s : tunnel_session) : tunnel_session :=
  let t := se_traffic s in
  set_traffic (mk_traffic (bytes_rx t) (wrap 64 (bytes_tx t + n)) (packets_rx t)
    (wrap 64 (packets_tx t + packets))) s.

(** ** Life cycle *)

Definition new_session (key : tunnel_session_key) (now : Z) : tunnel_session :=
  mk_session key TUNNEL_SESSION_INIT None (mk_traffic 0 0 0 0) now now
    (mk_tcp 0 0 0 0 65535 TUNNEL_TCP_CLOSED) 0 [] TUNNEL_SESSION_SEND_BUF TUNNEL_SESSION_RECV_BUF
    (zeros TUNNEL_MAX_DOMAIN) (mk_links None None) (mk_links None None).

Definition tunnel_session_create (key : tunnel_session_key) : W (option loc) :=
  used ← on_table (gets (λ m, dom (m_sessions m)));
  p ← call (malloc_session used);
  match p with
  | None => mret None
  | Some s =>
      now ← call salts_monotonic_ms;
      send_buf ← call (malloc_buffer TUNNEL_SESSION_SEND_BUF);
      recv_buf ← call (malloc_buffer TUNNEL_SESSION_RECV_BUF);
      if negb send_buf || negb recv_buf then mret None
      else
        on_table (modify (set_sessions (<[s := new_session key now]>)));;
        nat ← on_table (gets m_nat);
        (if non_null nat then on_table (tunnel_nat_insert (Some s)) else mret TUNNEL_OK);;
        mret (Some s)
  end.

Definition tunnel_session_find (key : tunnel_session_key) : W (option loc) :=
  nat ← on_table (gets m_nat);
  if non_null nat then on_table (tunnel_nat_lookup (Some key)) else mret None.

(** The second component is [created]. *)
Definition tunnel_session_find_or_create (key : tunnel_session_key) : W (option loc * bool) :=
  p ← tunnel_session_find key;
  match p with
  | Some s => mret (Some s, false)
  | None =>
      p ← tunnel_session_create key;
      mret (p, non_null p)
  end.

(** [if (session->tunnel && session->tunnel->nat) c;] *)
Definition if_table (c : Mem unit) : W unit :=
  nat ← on_table (gets m_nat);
  if non_null nat then on_table c else mret tt.

Definition tunnel_session_destroy (session : option loc) : W unit :=
  match session with
  | None => mret tt
  | Some s =>
      x ← read_session s;
      match se_proxy_conn x with
      | Some conn => tell (tunnel_proxy_conn_destroy conn);; write_session s (set_conn None)
      | None => mret tt
      end;;
      if_table (tunnel_nat_remove (Some s));;
      x ← read_session s;
      (if (sk_protocol (se_key x) =? TUNNEL_IPPROTO_UDP) && negb (se_local_port x =? 0)
       then if_table (tunnel_nat_free_udp_port (se_local_port x)) else mret tt);;
      free_session s
  end.

Definition tunnel_session_touch (session : option loc) : W unit :=
  match session with
  | None => mret tt
  | Some s =>
      now ← call salts_monotonic_ms;
      write_session s (set_last_active now);;
      if_table (tunnel_nat_touch (Some s))
  end.

Definition tunnel_session_set_domain (s : loc) (domain : option bytes) : W unit :=
  write_session s (λ x,
    match domain with
    | Some d => set_domain (take (TUNNEL_MAX_DOMAIN - 1) d ++ zeros (TUNNEL_MAX_DOMAIN - length (take (TUNNEL_MAX_DOMAIN - 1) d))) x
    | None => set_domain (<[0%nat := 0]> (se_domain x)) x
    end).

(** ** Packets to the client *)

(** [session->key.dst] is the source of what the client receives. *)
Definition tunnel_session_send_synack (s : loc) : W Z :=
  if negb (cf_tun cf) then mret TUNNEL_ERR_INVALID_ARG
  else
    x ← read_session s;
    let t := se_tcp x in
    '(r, buf) ← build_with 64 (λ buf id,
      tunnel_ip_build_tcp_synack o buf (sk_dst (se_key x)) (sk_src (se_key x)) (seq_local t)
        (wrap 32 (seq_remote t + 1)) (window t) id);
    if r <? 0 then mret r
    else
      write_session s (λ x, tcp_set_seq_local (wrap 32 (seq_local (se_tcp x) + 1)) x);;
      write_session s (λ x, tcp_set_ack_local (wrap 32 (seq_remote (se_tcp x) + 1)) x);;
      write_packet r buf.

Definition tunnel_session_send_rst (s : loc) : W Z :=
  if negb (cf_tun cf) then mret TUNNEL_ERR_INVALID_ARG
  else
    x ← read_session s;
    '(r, buf) ← build_with 64 (λ buf id,
      tunnel_ip_build_tcp_rst o buf (sk_dst (se_key x)) (sk_src (se_key x)) (ack_local (se_tcp x)) id);
    if r <? 0 then mret r else write_packet r buf.

Definition tunnel_session_send_fin (s : loc) : W Z :=
  if negb (cf_tun cf) then mret TUNNEL_ERR_INVALID_ARG
  else
    x ← read_session s;
    '(r, buf) ← build_with 64 (λ buf id,
      tunnel_ip_build_tcp_fin o buf (sk_dst (se_key x)) (sk_src (se_key x)) (seq_local (se_tcp x))
        (ack_local (se_tcp x)) id);
    if r <? 0 then mret r else write_packet r buf.

Definition tunnel_session_send_ack (s : loc) : W Z :=
  if negb (cf_tun cf) then mret TUNNEL_ERR_INVALID_ARG
  else
    x ← read_session s;
    '(r, buf) ← build_with 64 (λ buf id,
      tunnel_ip_build_tcp_ack o buf (sk_dst (se_key x)) (sk_src (se_key x)) (seq_local (se_tcp x))
        (ack_local (se_tcp x)) (window (se_tcp x)) id);
    if r <? 0 then mret r else write_packet r buf.

Definition tunnel_session_send_to_tun (s : loc) (data : bytes) : W Z :=
  if negb (cf_tun cf) then mret TUNNEL_ERR_INVALID_ARG
  else
    x ← read_session s;
    let src := sk_dst (se_key x) in
    let dst := sk_src (se_key x) in
    let t := se_tcp x in
    let sent r buf :=
      write_session s (count_rx (len data) 1);; write_packet r buf in
    if sk_protocol (se_key x) =? TUNNEL_IPPROTO_TCP then
      '(r, buf) ← build_with TUNNEL_SEND_BUF_SIZE (λ buf id,
        tunnel_ip_build_tcp_data o buf src dst (seq_local t) (ack_local t) (window t) (Some data)
          (len data) id);
      if r <? 0 then mret r
      else
        write_session s (λ x, tcp_set_seq_local (wrap 32 (seq_local (se_tcp x) + wrap 32 (len data))) x);;
        sent r buf
    else if sk_protocol (se_key x) =? TUNNEL_IPPROTO_UDP then
      '(r, buf) ← build_with TUNNEL_SEND_BUF_SIZE (λ buf id,
        tunnel_ip_build_udp o buf src dst (Some data) (len data) id);
      if r <? 0 then mret r else sent r buf
    else mret TUNNEL_ERR_NOT_SUPPORTED.

(** ** Callbacks of the proxy *)

Definition on_proxy_connect (conn status : Z) (user_data : option loc) : W unit :=
  match user_data with
  | None => mret tt
  | Some s =>
      if negb (status =? TUNNEL_OK) then
        write_session s (set_session_state TUNNEL_SESSION_ERROR);;
        write_session s (tcp_set_state TUNNEL_TCP_CLOSED);;
        tunnel_session_send_rst s;; mret tt
      else
        write_session s (set_session_state TUNNEL_SESSION_ESTABLISHED);;
        write_session s (tcp_set_state TUNNEL_TCP_ESTABLISHED);;
        tunnel_session_send_synack s;;
        x ← read_session s;
        if 0 <? len (se_send x) then
          result ← call (tunnel_proxy_send conn (se_send x));
          if negb (result =? TUNNEL_OK) then
            write_session s (set_session_state TUNNEL_SESSION_ERROR);;
            tell (tunnel_proxy_conn_close conn);;
            tunnel_session_send_rst s;; mret tt
          else write_session s (set_send [])
        else mret tt
  end.

Definition on_proxy_data (data : bytes) (user_data : option loc) : W unit :=
  match user_data with
  | None => mret tt
  | Some s =>
      tunnel_session_touch (Some s);;
      write_session s (count_rx (len data) 0);;
      tunnel_session_send_to_tun s data;; mret tt
  end.

Definition on_proxy_close (user_data : option loc) : W unit :=
  match user_data with
  | None => mret tt
  | Some s =>
      x ← read_session s;
      (if bool_decide (tcp_state (se_tcp x) = TUNNEL_TCP_ESTABLISHED) then
         write_session s (tcp_set_state TUNNEL_TCP_FIN_WAIT_1);;
         tunnel_session_send_fin s;; mret tt
       else mret tt);;
      write_session s (set_session_state TUNNEL_SESSION_CLOSING)
  end.

(** ** TCP *)

(** The name the proxy is asked for. *)
Definition target_host (dst : tunnel_endpoint) : W (bytes * option bytes) :=
  if cf_fake_dns cf && (ep_family dst =? AF_INET) then
    domain ← call (λ h, (tunnel_fake_dns_get_domain (addr_v4 dst) h, h));
    match domain with
    | Some d => mret (take 255 d, Some d)
    | None => mret (tunnel_endpoint_text dst, None)
    end
  else mret (tunnel_endpoint_text dst, None).

Definition tunnel_session_tcp_syn (src dst : tunnel_endpoint) (seq : Z) : W (option loc) :=
  if negb (cf_proxy cf) then mret None
  else
    p ← tunnel_session_create (mk_key src dst TUNNEL_IPPROTO_TCP);
    match p with
    | None => mret None
    | Some s =>
        write_session s (set_session_state TUNNEL_SESSION_CONNECTING);;
        write_session s (tcp_set_state TUNNEL_TCP_SYN_RECEIVED);;
        write_session s (tcp_set_seq_remote seq);;
        random ← call secure_random;
        match random with
        | None => tunnel_session_destroy (Some s);; mret None
        | Some v =>
            write_session s (tcp_set_seq_local v);;
            '(target, domain) ← target_host dst;
            match domain with Some d => tunnel_session_set_domain s (Some d) | None => mret tt end;;
            conn ← call (tunnel_proxy_connect_tcp target (ep_port dst) s);
            write_session s (set_conn conn);;
            match conn with
            | None => tunnel_session_destroy (Some s);; mret None
            | Some c => tell (tunnel_proxy_conn_set_session c s);; mret (Some s)
            end
        end
    end.

Definition tunnel_session_tcp_data (s : loc) (seq : Z) (data : bytes) : W Z :=
  if UINT32_MAX <? len data then mret TUNNEL_ERR_INVALID_ARG
  else
    x ← read_session s;
    result ← match se_state x, se_proxy_conn x with
      | TUNNEL_SESSION_ESTABLISHED, Some conn => call (tunnel_proxy_send conn data)
      | TUNNEL_SESSION_CONNECTING, _ =>
          if wrap 64 (se_send_cap x - len (se_send x)) <? len data then mret TUNNEL_ERR_NO_MEMORY
          else write_session s (set_send (se_send x ++ data));; mret TUNNEL_OK
      | _, _ => mret TUNNEL_ERR_INVALID_ARG
      end;
    if negb (result =? TUNNEL_OK) then mret result
    else
      tunnel_session_touch (Some s);;
      write_session s (count_tx (len data) 1);;
      write_session s (tcp_set_seq_remote (wrap 32 (seq + wrap 32 (len data))));;
      write_session s (λ x, tcp_set_ack_local (seq_remote (se_tcp x)) x);;
      x ← read_session s;
      (if bool_decide (se_state x = TUNNEL_SESSION_ESTABLISHED)
       then tunnel_session_send_ack s;; mret tt else mret tt);;
      mret TUNNEL_OK.

Definition tunnel_session_tcp_ack (s : loc) (ack win : Z) : W Z :=
  tunnel_session_touch (Some s);;
  write_session s (λ x,
    let t := se_tcp x in
    set_tcp (mk_tcp (seq_local t) (seq_remote t) (ack_local t) ack win (tcp_state t)) x);;
  mret TUNNEL_OK.

(** [session->tcp.ack_local++] *)
Definition bump_ack (s : loc) : W unit :=
  write_session s (λ x, tcp_set_ack_local (wrap 32 (ack_local (se_tcp x) + 1)) x).

Definition tunnel_session_tcp_fin (s : loc) : W Z :=
  tunnel_session_touch (Some s);;
  x ← read_session s;
  match tcp_state (se_tcp x) with
  | TUNNEL_TCP_ESTABLISHED =>
      write_session s (tcp_set_state TUNNEL_TCP_CLOSE_WAIT);;
      match se_proxy_conn x with
      | Some conn => tell (tunnel_proxy_conn_close conn)
      | None => mret tt
      end;;
      bump_ack s;;
      tunnel_session_send_ack s;;
      write_session s (tcp_set_state TUNNEL_TCP_LAST_ACK);;
      tunnel_session_send_fin s;; mret TUNNEL_OK
  | TUNNEL_TCP_FIN_WAIT_1 =>
      write_session s (tcp_set_state TUNNEL_TCP_CLOSING);;
      bump_ack s;; tunnel_session_send_ack s;; mret TUNNEL_OK
  | TUNNEL_TCP_FIN_WAIT_2 =>
      write_session s (tcp_set_state TUNNEL_TCP_TIME_WAIT);;
      bump_ack s;; tunnel_session_send_ack s;; mret TUNNEL_OK
  | _ => mret TUNNEL_OK
  end.

Definition tunnel_session_tcp_rst (s : loc) : W Z :=
  write_session s (tcp_set_state TUNNEL_TCP_CLOSED);;
  write_session s (set_session_state TUNNEL_SESSION_CLOSED);;
  x ← read_session s;
  match se_proxy_conn x with
  | Some conn => tell (tunnel_proxy_conn_close conn)
  | None => mret tt
  end;;
  mret TUNNEL_OK.

(** ** UDP *)

Definition tunnel_session_udp_datagram (src dst : tunnel_endpoint) (data : option bytes) : W Z :=
  match data with
  | None => mret TUNNEL_ERR_INVALID_ARG
  | Some data =>
      if bool_decide (cf_mode cf = TUNNEL_MODE_PROXY) && negb (cf_udp_disabled cf)
      then mret TUNNEL_ERR_NOT_SUPPORTED
      else
        '(p, created) ← tunnel_session_find_or_create (mk_key src dst TUNNEL_IPPROTO_UDP);
        match p with
        | None => mret TUNNEL_ERR_NO_MEMORY
        | Some s =>
            (if (created : bool) then
               nat ← on_table (gets m_nat);
               (if non_null nat then
                  port ← on_table tunnel_nat_alloc_udp_port;
                  write_session s (set_local_port port)
                else mret tt);;
               write_session s (set_session_state TUNNEL_SESSION_ESTABLISHED);;
               (if cf_proxy cf && negb (cf_udp_disabled cf) then
                  conn ← call (tunnel_proxy_connect_udp s);
                  write_session s (set_conn conn);;
                  match conn with
                  | Some c => tell (tunnel_proxy_conn_set_session c s)
                  | None => mret tt
                  end
                else mret tt)
             else mret tt);;
            tunnel_session_touch (Some s);;
            write_session s (count_tx (len data) 1);;
            x ← read_session s;
            match se_proxy_conn x with
            | Some conn => call (tunnel_proxy_send_udp conn dst data)
            | None => mret TUNNEL_OK
            end
        end
  end.

(** ** Data transfer and timeouts *)

Definition tunnel_session_send_to_proxy (s : loc) (data : bytes) : W Z :=
  x ← read_session s;
  match se_state x, se_proxy_conn x with
  | TUNNEL_SESSION_ESTABLISHED, Some conn =>
      write_session s (count_tx (len data) 1);; call (tunnel_proxy_send conn data)
  | _, _ =>
      if se_send_cap x <? wrap 64 (len (se_send x) + len data) then mret TUNNEL_ERR_NO_MEMORY
      else write_session s (set_send (se_send x ++ data));; mret TUNNEL_OK
  end.

Definition tunnel_session_flush (s : loc) : W Z :=
  x ← read_session s;
  match se_state x, se_proxy_conn x with
  | TUNNEL_SESSION_ESTABLISHED, Some conn =>
      if len (se_send x) =? 0 then mret 0
      else
        result ← call (tunnel_proxy_send conn (se_send x));
        if negb (result =? TUNNEL_OK) then mret 0
        else write_session s (set_send []);; mret (len (se_send x))
  | _, _ => mret 0
  end.

Definition tunnel_session_expire_check : W Z :=
  nat ← on_table (gets m_nat);
  if non_null nat then
    time ← call wall_clock;
    on_table (tunnel_nat_evict_expired time (wrap 32 (wrap 32 (cf_session_timeout cf) * 1000))
                TUNNEL_UDP_TIMEOUT_MS)
  else mret 0.

(** [tunnel_session_foreach] with the callbacks that count the sessions of a
    protocol. *)
Fixpoint count_loop (protocol : Z) (fuel : nat) (session : option loc) (count : Z) : Mem Z :=
  match session, fuel with
  | None, _ => mret count
  | Some _, O => fail
  | Some s, S fuel =>
      x ← load s;
      count_loop protocol fuel (next (se_lru x))
        (if sk_protocol (se_key x) =? protocol then count + 1 else count)
  end.
Definition count_sessions (protocol : Z) : W Z :=
  on_table (with_nat 0 (n ← the_nat; fuel ← all_sessions; count_loop protocol fuel (nt_lru_head n) 0)).
Definition tunnel_session_tcp_count : W Z := count_sessions TUNNEL_IPPROTO_TCP.
Definition tunnel_session_udp_count : W Z := count_sessions TUNNEL_IPPROTO_UDP.

(** ** Packets from the device: [tunnel.c] *)

Definition has_flag (flags f : Z) : bool := negb (Z.land flags f =? 0).

(** False when the packet is counted as a connection error. *)
Definition tunnel_process_tcp_packet (ip : tunnel_ip_header) (tcp : tunnel_tcp_header)
    (payload : option bytes) : W bool :=
  p ← on_table (tunnel_nat_lookup (Some (mk_key (ip_src ip) (ip_dst ip) TUNNEL_IPPROTO_TCP)));
  p ← match p with
      | Some s => mret (Some s)
      | None => on_table (tunnel_nat_lookup_reverse (ip_dst ip) (ip_src ip) TUNNEL_IPPROTO_TCP)
      end;
  match p with
  | None =>
      if negb (has_flag (th_flags tcp) TUNNEL_TCP_SYN) then mret true
      else
        p ← tunnel_session_tcp_syn (ip_src ip) (ip_dst ip) (th_seq tcp);
        mret (non_null p)
  | Some s =>
      tunnel_session_touch (Some s);;
      (if has_flag (th_flags tcp) TUNNEL_TCP_RST then tunnel_session_tcp_rst s;; mret tt
       else if has_flag (th_flags tcp) TUNNEL_TCP_FIN then tunnel_session_tcp_fin s;; mret tt
       else
         (if has_flag (th_flags tcp) TUNNEL_TCP_ACK
          then tunnel_session_tcp_ack s (th_ack tcp) (th_window tcp);; mret tt else mret tt);;
         match payload with
         | Some data =>
             if 0 <? len data then tunnel_session_tcp_data s (th_seq tcp) data;; mret tt else mret tt
         | None => mret tt
         end);;
      mret true
  end.

(** [tunnel_session_close] of the public interface. *)
Definition tunnel_session_close (session : option loc) : W unit := tunnel_session_destroy session.

End Sessions.
