(* ===== verification/TunnelSessionInv.v ===== *)
(** * Sessions and their table

    As long as no session expires, the table holds exactly the sessions that
    exist and the ports in use are the ports of the UDP sessions.  A handler that
    works on one session leaves the table and the ports as they are ([quiet]);
    the handlers that make or release sessions keep the invariant ([safe]). *)

From S2P Require Import Prelude TunnelTypes TunnelNat TunnelNatInv TunnelNatSpec TunnelPacket TunnelSession.

(** ** Changing sessions under the table *)

(** [h'] agrees with [h] on links and keys of the sessions of [l]. *)
Definition agrees (l : list loc) (h h' : heap) : Prop := ∀ x, x ∈ l →
  (∀ k, link_at k h' x = link_at k h x) ∧ se_key <$> h' !! x = se_key <$> h !! x.

Lemma agrees_bucket l h h' x : agrees l h h' → x ∈ l → bucket_at h' x = bucket_at h x.
Proof.
  intros A [_ Hk]%A. unfold bucket_at. rewrite !(option_fmap_compose se_key key_bucket). by rewrite Hk.
Qed.

Lemma agrees_in_bucket i h h' l : agrees l h h' → in_bucket h' i l = in_bucket h i l.
Proof.
  unfold in_bucket. induction l as [|x l IH]; intros A; [done|].
  rewrite !filter_cons, IH by (intros y Hy; apply A; set_solver).
  rewrite (agrees_bucket (x :: l) h h' x A) by set_solver. done.
Qed.

Lemma table_agrees n h h' a : table_repr n h a → agrees (v_order a) h h' → table_repr n h' a.
Proof.
  intros [Rsz Rnd Rpm Rlr Rhd Rtl Rha Rtb Rct Run Rpo Rst Rnx] A. split; try done.
  - eapply seg_ext; [|done]. intros x Hx. apply A. by rewrite <-Rpm.
  - intros i. rewrite (agrees_in_bucket i _ _ _ A). eapply seg_ext; [|apply Rha].
    intros x [_ Hx]%elem_of_in_bucket. by apply A.
  - intros i. by rewrite (agrees_in_bucket i _ _ _ A).
  - intros x s Hx Hs. destruct (A x Hx) as [_ Hk]. rewrite Hs in Hk. symmetry in Hk.
    apply fmap_Some in Hk as (t & Ht & E). cbn in E. rewrite E. by eapply Run.
Qed.

(** The store changes under the table. *)
Lemma repr_heap m a f : nat_repr m a → agrees (v_order a) (m_sessions m) (f (m_sessions m)) →
  Z.of_nat (size (f (m_sessions m))) < 2 ^ 64 → nat_repr (set_sessions f m) a.
Proof.
  intros (_ & n & Hn & R) Ha Hsz. split; [done|]. exists n. split; [done|]. by eapply table_agrees.
Qed.

(** ** The invariant *)

(** What the invariant reads of a session: its key and its UDP port. *)
Definition content (m : memory) : gmap loc (tunnel_session_key * Z) :=
  (λ s, (se_key s, se_local_port s)) <$> m_sessions m.

Definition holds (c : gmap loc (tunnel_session_key * Z)) (x : loc) (p : Z) : Prop :=
  ∃ k, c !! x = Some (k, p) ∧ sk_protocol k = TUNNEL_IPPROTO_UDP ∧ p ≠ 0.

(** The table lists the sessions, the reserved ports are those of the UDP
    sessions, and neither a port nor a connection has two sessions. *)
Record content_ok (c : gmap loc (tunnel_session_key * Z)) (order : list loc) (ports : gset Z) : Prop := {
  co_all : ∀ x, x ∈ order ↔ is_Some (c !! x);
  co_ports : ∀ p, p ∈ ports ↔ ∃ x, holds c x p;
  co_unique : ∀ x y p, holds c x p → holds c y p → x = y;
  co_keys : ∀ x y k p k' p', c !! x = Some (k, p) → c !! y = Some (k', p') →
    tunnel_session_key_compare k k' = 0 → x = y }.

Definition sessions_ok (m : memory) (a : nat_view) : Prop :=
  nat_repr m a ∧ content_ok (content m) (v_order a) (v_ports a).

Section Content.
Implicit Types (c : gmap loc (tunnel_session_key * Z)) (s x : loc) (k : tunnel_session_key).

Lemma holds_insert_ne c s v x p : x ≠ s → holds (<[s := v]> c) x p ↔ holds c x p.
Proof. intros. unfold holds. by rewrite lookup_insert_ne. Qed.

Lemma holds_insert c s k q p : holds (<[s := (k, q)]> c) s p ↔
  p = q ∧ sk_protocol k = TUNNEL_IPPROTO_UDP ∧ q ≠ 0.
Proof.
  unfold holds. rewrite lookup_insert_eq. split; [intros (? & [= <- <-] & ?); done|].
  intros (-> & ? & ?). by exists k.
Qed.

Lemma holds_fun c x p q : holds c x p → holds c x q → p = q.
Proof. intros (? & ? & _) (? & ? & _). by simplify_eq. Qed.

Lemma content_insert c order ports s k : content_ok c order ports → c !! s = None →
  (∀ x k' p, c !! x = Some (k', p) → tunnel_session_key_compare k' k ≠ 0) →
  content_ok (<[s := (k, 0)]> c) (s :: order) ports.
Proof.
  intros [Ca Cp Cu Ck] Hs Hk.
  assert (Hh : ∀ x p, holds (<[s := (k, 0)]> c) x p ↔ holds c x p).
  { intros x p. destruct (decide (x = s)) as [->|]; [|by apply holds_insert_ne].
    rewrite holds_insert. unfold holds. rewrite Hs. naive_solver. }
  split.
  - intros x. rewrite elem_of_cons, Ca. destruct (decide (x = s)) as [->|].
    + rewrite lookup_insert_eq. split; eauto.
    + rewrite lookup_insert_ne by done. tauto.
  - intros p. rewrite Cp. by setoid_rewrite Hh.
  - intros x y p. rewrite !Hh. apply Cu.
  - intros x y k1 p1 k2 p2 [[<- [= <- <-]]|[? Hx]]%lookup_insert_Some
      [[<- [= <- <-]]|[? Hy]]%lookup_insert_Some E; try done.
    + exfalso. eapply Hk; [done|]. by apply key_compare_parts, eq_sym, key_compare_parts.
    + by eapply Hk in E.
    + by eapply Ck.
Qed.

Lemma content_delete c order ports s k q : content_ok c order ports → c !! s = Some (k, q) →
  content_ok (delete s c) (without s order)
    (if (sk_protocol k =? TUNNEL_IPPROTO_UDP) && negb (q =? 0) then ports ∖ {[q]} else ports).
Proof.
  intros [Ca Cp Cu Ck] Hs.
  assert (Hh : ∀ x p, holds (delete s c) x p ↔ x ≠ s ∧ holds c x p).
  { intros x p. unfold holds. setoid_rewrite lookup_delete_Some. naive_solver. }
  split.
  - intros x. unfold without. rewrite list_elem_of_filter, Ca, lookup_delete_is_Some. naive_solver.
  - intros p. setoid_rewrite Hh. destruct (_ && _) eqn:E.
    + bool_prop. assert (Hq : holds c s q) by (by exists k).
      rewrite elem_of_difference, elem_of_singleton, Cp. split.
      * intros [[x Hx] Hne]. exists x. split; [|done]. intros ->. by eapply Hne, holds_fun.
      * intros (x & Hne & Hx). split; [eauto|]. intros ->. by eapply Hne, Cu.
    + rewrite Cp. split; [|naive_solver]. intros [x Hx]. exists x. split; [|done]. intros ->.
      destruct Hx as (k' & ? & ? & ?). simplify_eq.
      apply andb_false_iff in E as [E|E]; [by apply Z.eqb_neq in E|by apply negb_false_iff, Z.eqb_eq in E].
  - intros x y p. rewrite !Hh. intros [_ ?] [_ ?]. by eapply Cu.
  - intros x y k1 p1 k2 p2 [_ ?]%lookup_delete_Some [_ ?]%lookup_delete_Some. by eapply Ck.
Qed.

Lemma content_port c order ports s k q : content_ok c order ports → c !! s = Some (k, 0) →
  sk_protocol k = TUNNEL_IPPROTO_UDP → q ≠ 0 → q ∉ ports →
  content_ok (<[s := (k, q)]> c) order ({[q]} ∪ ports).
Proof.
  intros [Ca Cp Cu Ck] Hs Hk Hq Hn.
  assert (Hh : ∀ x p, holds (<[s := (k, q)]> c) x p ↔ x = s ∧ p = q ∨ x ≠ s ∧ holds c x p).
  { intros x p. destruct (decide (x = s)) as [->|]; [rewrite holds_insert|rewrite holds_insert_ne by done];
      naive_solver. }
  assert (H0 : ∀ p, ¬ holds c s p) by (intros p (? & ? & _ & ?); by simplify_eq).
  split.
  - intros x. rewrite Ca. destruct (decide (x = s)) as [->|]; [|by rewrite lookup_insert_ne].
    by rewrite Hs, lookup_insert_eq.
  - intros p. setoid_rewrite Hh. rewrite elem_of_union, elem_of_singleton, Cp. split.
    + intros [->|[x Hx]]; [by exists s; left|]. exists x. right. split; [|done]. intros ->. by eapply H0.
    + intros (x & [[_ ->]|[_ Hx]]); eauto.
  - intros x y p. rewrite !Hh. intros [[-> ->]|[? Hx]] [[-> E]|[? Hy]]; try done.
    + exfalso. apply Hn, Cp. eauto.
    + subst. exfalso. apply Hn, Cp. eauto.
    + by eapply Cu.
  - assert (Hl : ∀ x k' p', <[s := (k, q)]> c !! x = Some (k', p') → ∃ p'', c !! x = Some (k', p'')).
    { intros x k' p' [[<- [= <- <-]]|[_ ?]]%lookup_insert_Some; eauto. }
    intros x y k1 p1 k2 p2 [? ?]%Hl [? ?]%Hl. by eapply Ck.
Qed.

End Content.

Lemma content_lookup m x : content m !! x = (λ s, (se_key s, se_local_port s)) <$> m_sessions m !! x.
Proof. apply lookup_fmap. Qed.

Lemma content_keeps m m' : keeps m m' → content m' = content m.
Proof.
  intros K. apply map_eq. intros x. rewrite !content_lookup.
  by apply (bodies_info _ _ K (λ s, (se_key s, se_local_port s))).
Qed.

(** Sessions and ports stay, the order of use changes. *)
Lemma sessions_ok_view m m' a a' : sessions_ok m a → content m' = content m → nat_repr m' a' →
  v_order a' = v_order a → v_ports a' = v_ports a → sessions_ok m' a'.
Proof. intros [_ C] E R' Ho Hp. split; [done|]. by rewrite E, Ho, Hp. Qed.

(** A change of a session that the invariant does not see. *)
Definition harmless (f : tunnel_session → tunnel_session) : Prop := ∀ s,
  se_key (f s) = se_key s ∧ se_hash (f s) = se_hash s ∧ se_lru (f s) = se_lru s ∧
  se_local_port (f s) = se_local_port s.

(** A change of a session that the table does not see. *)
Lemma repr_alter m a f s : nat_repr m a →
  (∀ x, se_key (f x) = se_key x ∧ se_hash (f x) = se_hash x ∧ se_lru (f x) = se_lru x) →
  nat_repr (set_sessions (alter f s) m) a.
Proof.
  intros R Hf. apply repr_heap; [done| |].
  - intros x _. unfold link_at.
    destruct (decide (x = s)) as [->|]; [|by rewrite lookup_alter_ne].
    rewrite lookup_alter_eq. destruct (m_sessions m !! s) as [y|]; [|done]. cbn.
    destruct (Hf y) as (-> & Eh & El). split; [|done]. intros []; cbn; by rewrite ?Eh, ?El.
  - assert (E : dom (alter f s (m_sessions m)) = dom (m_sessions m)) by apply dom_alter_L.
    rewrite <-size_dom, E, size_dom. apply R.
Qed.

Lemma harmless_ok m a f s : sessions_ok m a → harmless f →
  sessions_ok (set_sessions (alter f s) m) a.
Proof.
  intros Hok Hf. eapply sessions_ok_view; [done| | |done|done].
  - apply map_eq. intros x. rewrite !content_lookup. cbn.
    destruct (decide (x = s)) as [->|]; [|by rewrite lookup_alter_ne].
    rewrite lookup_alter_eq. destruct (m_sessions m !! s) as [y|]; [|done]. cbn.
    by destruct (Hf y) as (-> & _ & _ & ->).
  - apply repr_alter; [apply Hok|]. intros y. by destruct (Hf y) as (? & ? & ? & _).
Qed.

Section Quiet.
Context {H : TunnelHost}.

Lemma runs_on_table {A} (c : Mem A) w (Q : A → world → Prop) :
  runs c (w_mem w) (λ x m, Q x (mk_world m (w_host w) (w_ip_id w))) → runs (on_table c) w Q.
Proof. intros (x & m & E & HQ). eexists _, _. split; [|done]. unfold on_table. by rewrite E. Qed.

Lemma runs_call {A} (f : host → A * host) w (Q : A → world → Prop) :
  (∀ x h, f (w_host w) = (x, h) → Q x (mk_world (w_mem w) h (w_ip_id w))) → runs (call f) w Q.
Proof.
  intros HQ. unfold runs, call. destruct (f (w_host w)) as [x h] eqn:E. eexists _, _. split; [done|].
  by apply HQ.
Qed.

(** [c] runs while session [s] is on the table, and leaves the invariant and the
    same sessions. *)
Definition quiet {A} (s : loc) (c : W A) : Prop := ∀ w a,
  sessions_ok (w_mem w) a → s ∈ v_order a →
  runs c w (λ _ w', ∃ a', sessions_ok (w_mem w') a' ∧ v_order a' = v_order a).

Lemma quiet_ret {A} s (x : A) : quiet s (mret x).
Proof. intros w a Hok Hs. apply runs_ret. eauto. Qed.

Lemma quiet_bind {A B} s (c : W A) (f : A → W B) : quiet s c → (∀ x, quiet s (f x)) → quiet s (c ≫= f).
Proof.
  intros Hc Hf w a Hok Hs. apply runs_bind. eapply runs_mono; [by apply Hc|].
  intros x w1 (a1 & Hok1 & E1). eapply runs_mono; [apply (Hf x w1 a1); [done|by rewrite E1]|].
  intros y w2 (a2 & Hok2 & E2). exists a2. by rewrite E2, E1.
Qed.

Lemma quiet_call {A} s (f : host → A * host) : quiet s (call f).
Proof. intros w a Hok Hs. apply runs_call. eauto. Qed.
Lemma quiet_tell s f : quiet s (tell f).
Proof. apply quiet_call. Qed.

Lemma quiet_build s n f : quiet s (build_with n f).
Proof.
  intros w a Hok Hs. unfold runs, build_with. destruct (f (zeros n) (w_ip_id w)) as [[r b] id].
  eexists _, _. split; [done|]. eauto.
Qed.

Lemma ok_alive m a s : sessions_ok m a → s ∈ v_order a → ∃ x, m_sessions m !! s = Some x.
Proof.
  intros [_ C] Hs. apply (co_all _ _ _ C) in Hs as [v Hv]. rewrite content_lookup in Hv.
  apply fmap_Some in Hv as (x & Hx & _). eauto.
Qed.

Lemma quiet_read s : quiet s (read_session s).
Proof.
  intros w a Hok Hs. destruct (ok_alive _ _ _ Hok Hs) as [x Hx].
  apply runs_on_table, (runs_load s x); [done|]. eauto.
Qed.

Lemma quiet_write s f : harmless f → quiet s (write_session s f).
Proof.
  intros Hf w a Hok Hs. apply runs_on_table, runs_assign; [by eapply ok_alive|].
  exists a. split; [|done]. by apply harmless_ok.
Qed.

Lemma quiet_table s : quiet s (on_table (gets m_nat)).
Proof. intros w a Hok Hs. apply runs_on_table, runs_gets. destruct w. eauto. Qed.

Lemma quiet_touch_table s : quiet s (on_table (tunnel_nat_touch (Some s))).
Proof.
  intros w a Hok Hs. apply runs_on_table. pose proof (proj1 Hok) as Hr.
  pose proof Hr as (_ & n & Hn & R). eapply runs_mono; [apply runs_touch; [done|by rewrite (tr_perm _ _ _ R)]|].
  intros [] m' [Hr' K]. exists (view_touch s a). split; [|done].
  eapply sessions_ok_view; [done|by apply content_keeps|done..].
Qed.

Lemma quiet_touch s : quiet s (tunnel_session_touch (Some s)).
Proof.
  apply quiet_bind; [apply quiet_call|]. intros now. apply quiet_bind; [by apply quiet_write|].
  intros _. apply quiet_bind; [apply quiet_table|]. intros nat. case_match; [apply quiet_touch_table|apply quiet_ret].
Qed.

End Quiet.


(** Follow the branches of a computation on one session; [more] is for its calls. *)
Ltac nothing_else := idtac; fail.
Ltac be_quiet more :=
  repeat first
    [ progress cbv beta zeta
    | match goal with
      | |- quiet _ (let '_ := ?e in _) => destruct e
      | |- quiet _ (if ?b then _ else _) => destruct b
      | |- quiet _ (match ?e with _ => _ end) => destruct e
      | |- quiet _ (mbind _ _) => simple apply quiet_bind; [|intros ?]
      | |- quiet _ (mret _) => simple apply quiet_ret
      | |- quiet _ (call _) => simple apply quiet_call
      | |- quiet _ (tell _) => simple apply quiet_tell
      | |- quiet _ (build_with _ _) => simple apply quiet_build
      | |- quiet _ (read_session _) => simple apply quiet_read
      | |- quiet _ (write_session _ _) => simple apply quiet_write; intros ?; repeat split
      | |- quiet _ (tunnel_session_touch _) => simple apply quiet_touch
      | |- quiet _ _ => more
      end ].

Section Handlers.
Context {H : TunnelHost} (o : byte_order) (cf : tunnel_config).
Implicit Types s : loc.

Lemma quiet_send_synack s : quiet s (tunnel_session_send_synack o cf s).
Proof. unfold tunnel_session_send_synack, write_packet. be_quiet nothing_else. Qed.
Lemma quiet_send_rst s : quiet s (tunnel_session_send_rst o cf s).
Proof. unfold tunnel_session_send_rst, write_packet. be_quiet nothing_else. Qed.
Lemma quiet_send_fin s : quiet s (tunnel_session_send_fin o cf s).
Proof. unfold tunnel_session_send_fin, write_packet. be_quiet nothing_else. Qed.
Lemma quiet_send_ack s : quiet s (tunnel_session_send_ack o cf s).
Proof. unfold tunnel_session_send_ack, write_packet. be_quiet nothing_else. Qed.
Lemma quiet_send_to_tun s data : quiet s (tunnel_session_send_to_tun o cf s data).
Proof. unfold tunnel_session_send_to_tun, write_packet. be_quiet nothing_else. Qed.

(** The packets a handler sends. *)
Ltac sending :=
  idtac;
  match goal with
  | |- quiet _ (tunnel_session_send_synack _ _ _) => apply quiet_send_synack
  | |- quiet _ (tunnel_session_send_rst _ _ _) => apply quiet_send_rst
  | |- quiet _ (tunnel_session_send_fin _ _ _) => apply quiet_send_fin
  | |- quiet _ (tunnel_session_send_ack _ _ _) => apply quiet_send_ack
  | |- quiet _ (tunnel_session_send_to_tun _ _ _ _) => apply quiet_send_to_tun
  end.

Lemma quiet_on_connect s conn status : quiet s (on_proxy_connect o cf conn status (Some s)).
Proof. unfold on_proxy_connect. be_quiet sending. Qed.
Lemma quiet_on_data s data : quiet s (on_proxy_data o cf data (Some s)).
Proof. unfold on_proxy_data. be_quiet sending. Qed.
Lemma quiet_on_close s : quiet s (on_proxy_close o cf (Some s)).
Proof. unfold on_proxy_close. be_quiet sending. Qed.
Lemma quiet_tcp_data s seq data : quiet s (tunnel_session_tcp_data o cf s seq data).
Proof. unfold tunnel_session_tcp_data. be_quiet sending. Qed.
Lemma quiet_tcp_ack s ack win : quiet s (tunnel_session_tcp_ack s ack win).
Proof. unfold tunnel_session_tcp_ack. be_quiet sending. Qed.
Lemma quiet_tcp_fin s : quiet s (tunnel_session_tcp_fin o cf s).
Proof. unfold tunnel_session_tcp_fin, bump_ack. be_quiet sending. Qed.
Lemma quiet_tcp_rst s : quiet s (tunnel_session_tcp_rst s).
Proof. unfold tunnel_session_tcp_rst. be_quiet sending. Qed.
Lemma quiet_send_to_proxy s data : quiet s (tunnel_session_send_to_proxy s data).
Proof. unfold tunnel_session_send_to_proxy. be_quiet sending. Qed.
Lemma quiet_flush s : quiet s (tunnel_session_flush s).
Proof. unfold tunnel_session_flush. be_quiet sending. Qed.
Lemma quiet_set_domain s d : quiet s (tunnel_session_set_domain s d).
Proof. unfold tunnel_session_set_domain. apply quiet_write. by destruct d. Qed.
Lemma quiet_target_host s dst : quiet s (target_host cf dst).
Proof. unfold target_host. be_quiet sending. Qed.

End Handlers.

(** ** Making and releasing sessions *)

Lemma content_fresh m s x : content (set_sessions (<[s := x]>) m) =
  <[s := (se_key x, se_local_port x)]> (content m).
Proof. unfold content. cbn. by rewrite fmap_insert. Qed.

Lemma agrees_insert l h s x : s ∉ l → agrees l h (<[s := x]> h).
Proof.
  intros Hs y Hy. assert (s ≠ y) by congruence. unfold link_at. by rewrite lookup_insert_ne.
Qed.

Lemma agrees_delete l h s : s ∉ l → agrees l h (delete s h).
Proof.
  intros Hs y Hy. assert (s ≠ y) by congruence. unfold link_at. by rewrite lookup_delete_ne.
Qed.

(** No session has the key. *)
Definition unmatched (m : memory) (key : tunnel_session_key) : Prop :=
  ∀ x k p, content m !! x = Some (k, p) → tunnel_session_key_compare k key ≠ 0.

Lemma ok_insert m a s x : sessions_ok m a → m_sessions m !! s = None →
  key_uniform (se_key x) → se_local_port x = 0 → unmatched m (se_key x) →
  Z.of_nat (S (size (m_sessions m))) < 2 ^ 64 →
  runs (tunnel_nat_insert (Some s)) (set_sessions (<[s := x]>) m) (λ _ m',
    sessions_ok m' (view_insert s a) ∧ content m' !! s = Some (se_key x, 0)).
Proof.
  intros [R C] Hs Hu Hp Hk Hsz.
  assert (Hc : content m !! s = None) by (by rewrite content_lookup, Hs).
  assert (Hn : s ∉ v_order a) by (rewrite (co_all _ _ _ C), Hc; by intros []).
  eapply runs_mono.
  - apply (runs_insert _ a s x); [|apply lookup_insert_eq|done|done].
    apply repr_heap; [done|by apply agrees_insert|]. by rewrite map_size_insert_None.
  - intros r m' (_ & R' & K). apply content_keeps in K. rewrite content_fresh, Hp in K.
    rewrite K. split; [|apply lookup_insert_eq]. split; [done|]. rewrite K. by apply content_insert.
Qed.

(** Leaving the table, giving back the port and releasing the memory. *)
Lemma ok_release m1 m2 m3 a s k q : sessions_ok m1 a → content m1 !! s = Some (k, q) →
  keeps m1 m2 → keeps m2 m3 →
  nat_repr m3 (if (sk_protocol k =? TUNNEL_IPPROTO_UDP) && negb (q =? 0)
    then view_ports (v_ports a ∖ {[q]}) (view_remove s a) else view_remove s a) →
  ∃ a', sessions_ok (set_sessions (delete s) m3) a' ∧ v_order a' = without s (v_order a).
Proof.
  intros [_ C] Hs K1 K2 R. pose proof (content_delete _ _ _ _ _ _ C Hs) as C'.
  eexists. split; [split|].
  - apply repr_heap; [exact R| |].
    + apply agrees_delete. destruct (_ && _); cbn [view_ports v_order view_remove];
        unfold without; rewrite list_elem_of_filter; tauto.
    + eapply Z.le_lt_trans; [|apply R]. apply inj_le, map_subseteq_size, delete_subseteq.
  - unfold content. cbn. rewrite fmap_delete. fold (content m3).
    rewrite (content_keeps _ _ K2), (content_keeps _ _ K1). by destruct (_ && _).
  - by destruct (_ && _).
Qed.

Section Life.
Context {H : TunnelHost} {L : TunnelHostLaws}.

Lemma runs_table w (Q : option tunnel_nat → world → Prop) :
  Q (m_nat (w_mem w)) w → runs (on_table (gets m_nat)) w Q.
Proof. intros HQ. apply runs_on_table, runs_gets. by destruct w. Qed.

Lemma runs_if_table c w a (Q : unit → world → Prop) : nat_repr (w_mem w) a →
  runs c (w_mem w) (λ x m, Q x (mk_world m (w_host w) (w_ip_id w))) → runs (if_table c) w Q.
Proof.
  intros (_ & n & Hn & _) HQ. apply runs_bind, runs_table. rewrite Hn. by apply runs_on_table.
Qed.

Lemma runs_read s x w (Q : tunnel_session → world → Prop) : m_sessions (w_mem w) !! s = Some x →
  Q x w → runs (read_session s) w Q.
Proof. intros Hx HQ. apply runs_on_table, (runs_load s x); [done|]. by destruct w. Qed.

Lemma content_some m s k q : content m !! s = Some (k, q) ↔
  ∃ x, m_sessions m !! s = Some x ∧ se_key x = k ∧ se_local_port x = q.
Proof.
  rewrite content_lookup, fmap_Some. split; intros (x & Hx & E); exists x; [by injection E|].
  by destruct E as [-> ->].
Qed.

Lemma runs_free s w x (Q : unit → world → Prop) : m_sessions (w_mem w) !! s = Some x →
  Q tt (mk_world (set_sessions (delete s) (w_mem w)) (w_host w) (w_ip_id w)) →
  runs (free_session s) w Q.
Proof.
  intros Hx HQ. apply runs_bind, (runs_read s x); [done|]. by apply runs_on_table, runs_modify.
Qed.

Lemma runs_create key w a : sessions_ok (w_mem w) a → key_uniform key → unmatched (w_mem w) key →
  runs (tunnel_session_create key) w (λ p w',
    match p with
    | Some s => ∃ a', sessions_ok (w_mem w') a' ∧ v_order a' = s :: v_order a ∧
        content (w_mem w') !! s = Some (key, 0)
    | None => w_mem w' = w_mem w
    end).
Proof.
  intros Hok Hu Hk. apply runs_bind, runs_on_table, runs_gets, runs_bind, runs_call.
  intros [s|] h Hm; [|by apply runs_ret]. apply malloc_fresh in Hm as [Hd Hsz].
  rewrite size_dom in Hsz. apply not_elem_of_dom in Hd.
  apply runs_bind, runs_call. intros now h1 _. apply runs_bind, runs_call. intros b1 h2 _.
  apply runs_bind, runs_call. intros b2 h3 _. destruct (_ || _); [by apply runs_ret|].
  apply runs_bind, runs_on_table, runs_modify, runs_bind, runs_table.
  destruct (proj1 Hok) as (_ & n & Hn & _). cbn [w_mem set_sessions m_nat]. rewrite Hn. cbn [non_null].
  apply runs_bind, runs_on_table. eapply runs_mono; [by apply ok_insert|].
  intros _ m' [Hok' Hc]. apply runs_ret. by eexists.
Qed.

Lemma in_lru m a s : nat_repr m a → s ∈ v_order a → s ∈ v_lru a.
Proof. intros (_ & n & _ & R) Hs. by rewrite (tr_perm _ _ _ R). Qed.

(** Release, after the connection was given up. *)
Lemma runs_drop_session s w a : sessions_ok (w_mem w) a → s ∈ v_order a →
  runs (if_table (tunnel_nat_remove (Some s));;
    x ← read_session s;
    (if (sk_protocol (se_key x) =? TUNNEL_IPPROTO_UDP) && negb (se_local_port x =? 0)
     then if_table (tunnel_nat_free_udp_port (se_local_port x)) else mret tt);;
    free_session s) w (λ _ w', ∃ a', sessions_ok (w_mem w') a' ∧ v_order a' = without s (v_order a)).
Proof.
  intros Hok Hs. pose proof (proj1 Hok) as R. destruct (ok_alive _ _ _ Hok Hs) as [x Hx].
  apply runs_bind, (runs_if_table _ _ a); [done|].
  eapply runs_mono; [apply runs_remove; [done|by eapply in_lru]|]. intros _ m2 (R2 & K2 & _).
  assert (Hc : content (w_mem w) !! s = Some (se_key x, se_local_port x)) by (apply content_some; eauto).
  assert (Hy : content m2 !! s = Some (se_key x, se_local_port x)) by (by rewrite (content_keeps _ _ K2)).
  apply content_some in Hy as (y & Hy & Ek & Ep). apply runs_bind, (runs_read s y); [done|].
  rewrite Ek, Ep. apply runs_bind.
  pose proof (λ m3 K3, ok_release _ _ m3 _ _ _ _ Hok Hc K2 K3) as Hrel.
  destruct (_ && _) eqn:E.
  - apply (runs_if_table _ _ (view_remove s a)); [done|]. eapply runs_mono; [by apply runs_free_port|].
    intros _ m3 (K3 & R3). destruct (keeps_alive _ _ s K3) as [z Hz]; [by eauto|].
    apply (runs_free s _ z); [done|]. by apply Hrel.
  - apply runs_ret, (runs_free s _ y); [done|]. by apply Hrel.
Qed.

Lemma runs_destroy s w a : sessions_ok (w_mem w) a → s ∈ v_order a →
  runs (tunnel_session_destroy (Some s)) w (λ _ w',
    ∃ a', sessions_ok (w_mem w') a' ∧ v_order a' = without s (v_order a)).
Proof.
  intros Hok Hs. unfold tunnel_session_destroy.
  destruct (ok_alive _ _ _ Hok Hs) as [x Hx]. apply runs_bind, (runs_read s x); [done|].
  assert (Hq : quiet s (match se_proxy_conn x with
    | Some conn => tell (tunnel_proxy_conn_destroy conn);; write_session s (set_conn None)
    | None => mret tt end)) by be_quiet nothing_else.
  apply runs_bind. eapply runs_mono; [by apply (Hq w a)|]. intros _ w1 (a1 & Hok1 & E1).
  rewrite <-E1 in Hs |- *. by apply runs_drop_session.
Qed.

(** ** Finding sessions *)

Lemma first_match_spec b f l :
  match first_match b f l with
  | Some s => s ∈ l ∧ session_matches b f s
  | None => ∀ x, x ∈ l → ¬ session_matches b f x
  end.
Proof.
  unfold first_match. destruct (filter (session_matches b f) l) as [|s l'] eqn:E; cbn [head].
  - intros x Hx Hm. assert (x ∈ filter (session_matches b f) l) as Hf by (by apply list_elem_of_filter).
    rewrite E in Hf. by apply not_elem_of_nil in Hf.
  - assert (s ∈ filter (session_matches b f) l) as Hf by (rewrite E; constructor).
    apply list_elem_of_filter in Hf. tauto.
Qed.

(** The answer of a lookup. *)
Definition answers (m : memory) (order : list loc) (key : tunnel_session_key) (p : option loc) : Prop :=
  match p with
  | Some s => s ∈ order ∧ ∃ k q, content m !! s = Some (k, q) ∧ tunnel_session_key_compare k key = 0
  | None => unmatched m key
  end.

Lemma first_match_answers m a key : sessions_ok m a →
  answers m (v_order a) key (first_match (bodies m) (is_key key) (v_order a)).
Proof.
  intros [_ C]. rewrite <-first_match_bodies by done. unfold answers, unmatched, content.
  pose proof (first_match_spec (m_sessions m) (is_key key) (v_order a)) as Hf.
  destruct (first_match _ _ _) as [s|].
  - destruct Hf as [Hs (x & Hx & E)%fmap_Some]. split; [done|].
    exists (se_key x), (se_local_port x). rewrite lookup_fmap, Hx. split; [done|].
    symmetry in E. by apply Z.eqb_eq in E.
  - intros x k q Hc Ek. apply (Hf x); [apply (co_all _ _ _ C); eauto|].
    rewrite lookup_fmap in Hc. apply fmap_Some in Hc as (y & Hy & E). simplify_eq.
    unfold session_matches. rewrite Hy. cbn. unfold is_key. by rewrite Ek.
Qed.

Lemma runs_find key w a : sessions_ok (w_mem w) a → key_uniform key →
  runs (on_table (tunnel_nat_lookup (Some key))) w (λ p w',
    (∃ a', sessions_ok (w_mem w') a' ∧ v_order a' = v_order a) ∧
    content (w_mem w') = content (w_mem w) ∧ answers (w_mem w) (v_order a) key p).
Proof.
  intros Hok Hk. apply runs_on_table. eapply runs_mono; [apply (runs_lookup _ a key); [apply Hok|done]|].
  intros p m' (-> & R & K). pose proof (content_keeps _ _ K) as E. split.
  { eexists. split; [by eapply sessions_ok_view|done]. }
  split; [done|]. by apply first_match_answers.
Qed.

Lemma unmatched_content m m' key : content m' = content m → unmatched m key → unmatched m' key.
Proof. unfold unmatched. by intros ->. Qed.

(** [c] returns and leaves the invariant. *)
Definition safe {A} (c : W A) (w : world) : Prop :=
  runs c w (λ _ w', ∃ a', sessions_ok (w_mem w') a').

Lemma quiet_safe {A} s (c : W A) w a : quiet s c → sessions_ok (w_mem w) a → s ∈ v_order a → safe c w.
Proof. intros Hq Hok Hs. eapply runs_mono; [by apply (Hq w a)|]. intros _ w' (? & ? & _). eauto. Qed.

Lemma safe_ret {A} (x : A) w a : sessions_ok (w_mem w) a → safe (mret x) w.
Proof. intros. apply runs_ret. eauto. Qed.

(** A quiet step first. *)
Lemma safe_quiet {A B} s (c : W A) (f : A → W B) w a : quiet s c → sessions_ok (w_mem w) a →
  s ∈ v_order a → (∀ x w' a', sessions_ok (w_mem w') a' → s ∈ v_order a' → safe (f x) w') →
  safe (c ≫= f) w.
Proof.
  intros Hq Hok Hs Hf. apply runs_bind. eapply runs_mono; [by apply (Hq w a)|].
  intros x w' (a' & Hok' & E). apply (Hf x w' a'); [done|by rewrite E].
Qed.

Lemma safe_destroy {A} s (x : A) w a : sessions_ok (w_mem w) a → s ∈ v_order a →
  safe (tunnel_session_destroy (Some s);; mret x) w.
Proof.
  intros Hok Hs. apply runs_bind. eapply runs_mono; [by apply (runs_destroy s w a)|].
  intros _ w' (a' & ? & _). apply runs_ret. eauto.
Qed.

(** ** The port of a new UDP session *)

Lemma content_set_port m s q k p : content m !! s = Some (k, p) →
  content (set_sessions (alter (set_local_port q) s) m) = <[s := (k, q)]> (content m).
Proof.
  intros (x & Hx & <- & _)%content_some. apply map_eq. intros y. rewrite content_lookup. cbn.
  destruct (decide (y = s)) as [->|]; [|by rewrite lookup_alter_ne, lookup_insert_ne, content_lookup].
  by rewrite lookup_alter_eq, lookup_insert_eq, Hx.
Qed.

Lemma runs_new_port s key w a : sessions_ok (w_mem w) a → content (w_mem w) !! s = Some (key, 0) →
  sk_protocol key = TUNNEL_IPPROTO_UDP →
  runs (port ← on_table tunnel_nat_alloc_udp_port; write_session s (set_local_port port)) w (λ _ w',
    ∃ a', sessions_ok (w_mem w') a' ∧ v_order a' = v_order a).
Proof.
  intros [R C] Hc Hp. apply runs_bind, runs_on_table.
  eapply runs_mono; [by apply (runs_alloc_port _ a)|]. intros q m' (K & Hq).
  pose proof (content_keeps _ _ K) as E. apply runs_on_table, runs_assign.
  { rewrite <-E in Hc. apply content_some in Hc as (x & ? & _). eauto. }
  cbn [w_mem]. assert (Ec : content (set_sessions (alter (set_local_port q) s) m') = <[s := (key, q)]> (content (w_mem w)))
    by (by rewrite <-E in Hc |- *; eapply content_set_port).
  destruct Hq as [(Hu & Hn & R')|(-> & _ & R')].
  - exists (view_ports ({[q]} ∪ v_ports a) a). split; [|done]. split; [by apply repr_alter|].
    rewrite Ec. apply content_port; try done.
    intros ->. unfold udp_port, TUNNEL_NAT_UDP_PORT_MIN in Hu. lia.
  - exists a. split; [|done]. split; [by apply repr_alter|]. by rewrite Ec, insert_id.
Qed.

End Life.

(** ** The handlers that make sessions *)

(** Run the steps that are quiet for the session at hand. *)
Ltac safely more :=
  repeat match goal with
  | |- runs ?c ?w (λ _ w', ∃ a', sessions_ok (w_mem w') a') => change (safe c w)
  | |- safe (match ?e with _ => _ end) _ => destruct e
  | |- safe (let '_ := ?e in _) _ => destruct e
  | Hok : sessions_ok (w_mem ?w) _ |- safe (mret _) ?w => exact (safe_ret _ w _ Hok)
  | Hok : sessions_ok (w_mem ?w) ?a, Hs : ?s ∈ v_order ?a |- safe (tunnel_session_destroy (Some ?s) ≫= _) ?w =>
      exact (safe_destroy s _ w a Hok Hs)
  | Hok : sessions_ok (w_mem ?w) ?a, Hs : ?s ∈ v_order ?a |- safe (_ ≫= _) ?w =>
      apply (safe_quiet s _ _ w a); [solve [be_quiet more]|exact Hok|exact Hs|];
      clear w a Hok Hs; intros ? w a Hok Hs; cbv beta
  | Hok : sessions_ok (w_mem ?w) ?a, Hs : ?s ∈ v_order ?a |- safe _ ?w =>
      apply (quiet_safe s _ w a); [solve [be_quiet more]|exact Hok|exact Hs]
  end.

Section Packets.
Context {H : TunnelHost} {L : TunnelHostLaws} (o : byte_order) (cf : tunnel_config).

Ltac naming :=
  idtac;
  match goal with
  | |- quiet _ (target_host _ _) => apply quiet_target_host
  | |- quiet _ (tunnel_session_set_domain _ _) => apply quiet_set_domain
  end.

(** A new session is connected, or released again. *)
Lemma safe_tcp_syn src dst seq w a : sessions_ok (w_mem w) a → ep_family src = ep_family dst →
  unmatched (w_mem w) (mk_key src dst TUNNEL_IPPROTO_TCP) →
  safe (tunnel_session_tcp_syn cf src dst seq) w.
Proof.
  intros Hok Hf Hn. unfold tunnel_session_tcp_syn. destruct (negb _); [by eapply safe_ret|].
  apply runs_bind. eapply runs_mono; [by apply (runs_create _ w a)|].
  intros [s|] w1; [|intros E; apply runs_ret; rewrite E; eauto].
  intros (a1 & Hok1 & Ho & _). assert (Hs : s ∈ v_order a1) by (rewrite Ho; left).
  clear w a Hok Hn Ho. safely naming.
Qed.
(** The calls of a session that is found. *)
Ltac handling :=
  idtac;
  match goal with
  | |- quiet _ (tunnel_session_tcp_data _ _ _ _ _) => apply quiet_tcp_data
  | |- quiet _ (tunnel_session_tcp_ack _ _ _) => apply quiet_tcp_ack
  | |- quiet _ (tunnel_session_tcp_fin _ _ _) => apply quiet_tcp_fin
  | |- quiet _ (tunnel_session_tcp_rst _) => apply quiet_tcp_rst
  end.

Lemma safe_tcp_packet ip tcp payload w a : sessions_ok (w_mem w) a →
  ep_family (ip_src ip) = ep_family (ip_dst ip) →
  safe (tunnel_process_tcp_packet o cf ip tcp payload) w.
Proof.
  intros Hok Hf. apply runs_bind. eapply runs_mono; [by apply (runs_find _ w a)|].
  intros p1 w1 ((a1 & Hok1 & E1) & C1 & A1). apply runs_bind.
  eapply (runs_mono _ _ (λ p w2, ∃ a2, sessions_ok (w_mem w2) a2 ∧
    match p with
    | Some s => s ∈ v_order a2
    | None => unmatched (w_mem w2) (mk_key (ip_src ip) (ip_dst ip) TUNNEL_IPPROTO_TCP)
    end)).
  - destruct p1 as [s|].
    + apply runs_ret. exists a1. split; [done|]. rewrite E1. apply A1.
    + eapply runs_mono; [by apply (runs_find _ w1 a1)|]. intros p2 w2 ((a2 & Hok2 & E2) & C2 & A2).
      exists a2. split; [done|]. destruct p2 as [s|]; [rewrite E2; apply A2|].
      eapply unmatched_content; [|apply A1]. by rewrite C2, C1.
  - clear w a Hok p1 w1 a1 Hok1 E1 C1 A1. intros [s|] w (a & Hok & Hs); safely handling.
    apply runs_bind. eapply runs_mono; [by eapply safe_tcp_syn|]. intros p w1 (a1 & Hok1).
    by eapply safe_ret.
Qed.

Lemma runs_find_or_create key w a : sessions_ok (w_mem w) a → key_uniform key →
  runs (tunnel_session_find_or_create key) w (λ r w', ∃ a', sessions_ok (w_mem w') a' ∧
    match r with
    | (Some s, created) => s ∈ v_order a' ∧ (created = true → content (w_mem w') !! s = Some (key, 0))
    | (None, _) => True
    end).
Proof.
  intros Hok Hu. destruct (proj1 Hok) as (_ & n & Hn & _). apply runs_bind, runs_bind, runs_table.
  rewrite Hn. cbn [non_null]. eapply runs_mono; [by apply (runs_find _ w a)|].
  intros [s|] w1 ((a1 & Hok1 & E1) & C1 & A1).
  - apply runs_ret. exists a1. rewrite E1. split_and!; [done|apply A1|done].
  - apply runs_bind. eapply runs_mono; [apply (runs_create _ w1 a1); [done|done|]|].
    { by eapply unmatched_content. }
    intros [s|] w2; cbn [non_null].
    + intros (a2 & Hok2 & E2 & C2). apply runs_ret. exists a2. rewrite E2. split_and!; [done|left|done].
    + intros E. apply runs_ret. rewrite E. eauto.
Qed.

Lemma quiet_here {A} s (c : W A) w a : quiet s c → sessions_ok (w_mem w) a → s ∈ v_order a →
  runs c w (λ _ w', ∃ a', sessions_ok (w_mem w') a' ∧ s ∈ v_order a').
Proof.
  intros Hq Hok Hs. eapply runs_mono; [by apply (Hq w a)|]. intros _ w' (a' & ? & E).
  exists a'. by rewrite E.
Qed.

Lemma safe_udp_datagram src dst data w a : sessions_ok (w_mem w) a → ep_family src = ep_family dst →
  safe (tunnel_session_udp_datagram cf src dst data) w.
Proof.
  intros Hok Hf. destruct data as [data|]; [|by eapply safe_ret]. unfold tunnel_session_udp_datagram.
  destruct (_ && _); [by eapply safe_ret|].
  apply runs_bind. eapply runs_mono; [by apply (runs_find_or_create _ w a)|].
  intros [[s|] created] w1 (a1 & Hok1 & Hp); [|apply runs_ret; eauto]. destruct Hp as [Hs Hc].
  apply runs_bind. eapply (runs_mono _ _ (λ _ w2, ∃ a2, sessions_ok (w_mem w2) a2 ∧ s ∈ v_order a2)).
  2: { clear w a Hok w1 a1 Hok1 Hs Hc. intros _ w (a & Hok & Hs). safely nothing_else. }
  destruct created; [|apply runs_ret; eauto]. destruct (proj1 Hok1) as (_ & n & Hn & _).
  apply runs_bind, runs_table. rewrite Hn. cbn [non_null]. apply runs_bind.
  eapply runs_mono; [apply (runs_new_port s (mk_key src dst TUNNEL_IPPROTO_UDP) w1 a1); [done|by apply Hc|done]|].
  intros _ w2 (a2 & Hok2 & E2). rewrite <-E2 in Hs. eapply quiet_here; [be_quiet nothing_else|done|done].
Qed.

Lemma safe_ignore {A} (c : W A) w : safe c w → safe (c;; mret tt) w.
Proof.
  intros Hc. apply runs_bind. eapply runs_mono; [exact Hc|]. intros _ w' [a Hok]. by eapply safe_ret.
Qed.

Lemma live_listed s w a : sessions_ok (w_mem w) a → is_Some (m_sessions (w_mem w) !! s) → s ∈ v_order a.
Proof.
  intros [_ C] [x Hx]. apply (co_all _ _ _ C). rewrite content_lookup, Hx. eauto.
Qed.

End Packets.
