(* ===== verification/TunnelCore.v ===== *)
(** * Packets from the device and maintenance: [tunnel.c]

    What comes from the TUN device is counted, parsed, routed and handed to the
    sessions or to the fake DNS; once a second the tunnel evicts the sessions that
    have expired.  Creation and destruction of the tunnel, the device and the proxy
    are not modelled: [tunnel_create] gives the tunnel a device, a table and a
    proxy, so [cf_tun] and [cf_proxy] hold of every tunnel it returns. *)

From S2P Require Import Prelude TunnelTypes TunnelNat TunnelPacket TunnelSession.

(** The domain of a rule is not read here. *)
Inductive tunnel_route_rule : Type :=
  | TUNNEL_ROUTE_IP (addr mask : bytes)
  | TUNNEL_ROUTE_DOMAIN.

Record tunnel_stats : Type := mk_tunnel_stats {
  st_bytes_rx : Z;
  st_bytes_tx : Z;
  st_packets_rx : Z;
  st_packets_tx : Z;
  st_tcp_sessions : Z;
  st_udp_sessions : Z;
  st_connect_errors : Z;
  st_timeout_errors : Z;
  st_protocol_errors : Z;
  st_uptime_ms : Z }.

(** What the handlers read of the tunnel and do not change. *)
Record tunnel_setup : Type := mk_setup {
  su_config : tunnel_config;
  su_hijack_dns : bool;
  su_traffic_cb : bool;
  su_include_rules : list tunnel_route_rule;
  su_exclude_rules : list tunnel_route_rule }.

Section Core.
Context {H : TunnelHost} (o : byte_order) (su : tunnel_setup).

Record tunnel : Type := mk_tunnel {
  tn_world : world;
  tn_stats : tunnel_stats;
  tn_start_time : Z;
  tn_last_session_maintenance_ms : Z;
  tn_last_stats_update_ms : Z }.

Definition T : Type → Type := M tunnel.

(** A step of the sessions or of the parts around them. *)
Definition sessions {A} (c : W A) : T A := λ t,
  match c (tn_world t) with
  | Some (x, w) => Some (x, mk_tunnel w (tn_stats t) (tn_start_time t)
      (tn_last_session_maintenance_ms t) (tn_last_stats_update_ms t))
  | None => None
  end.
Definition update_stats (f : tunnel_stats → tunnel_stats) : T unit :=
  modify (λ t, mk_tunnel (tn_world t) (f (tn_stats t)) (tn_start_time t)
    (tn_last_session_maintenance_ms t) (tn_last_stats_update_ms t)).

(** ** Counters *)

Definition stats_rx (n : Z) (s : tunnel_stats) : tunnel_stats :=
  mk_tunnel_stats (wrap 64 (st_bytes_rx s + n)) (st_bytes_tx s) (wrap 64 (st_packets_rx s + 1))
    (st_packets_tx s) (st_tcp_sessions s) (st_udp_sessions s) (st_connect_errors s)
    (st_timeout_errors s) (st_protocol_errors s) (st_uptime_ms s).
Definition stats_tx (n : Z) (s : tunnel_stats) : tunnel_stats :=
  mk_tunnel_stats (st_bytes_rx s) (wrap 64 (st_bytes_tx s + n)) (st_packets_rx s)
    (wrap 64 (st_packets_tx s + 1)) (st_tcp_sessions s) (st_udp_sessions s) (st_connect_errors s)
    (st_timeout_errors s) (st_protocol_errors s) (st_uptime_ms s).
Definition stats_connect_error (s : tunnel_stats) : tunnel_stats :=
  mk_tunnel_stats (st_bytes_rx s) (st_bytes_tx s) (st_packets_rx s) (st_packets_tx s)
    (st_tcp_sessions s) (st_udp_sessions s) (wrap 32 (st_connect_errors s + 1))
    (st_timeout_errors s) (st_protocol_errors s) (st_uptime_ms s).
Definition stats_timeouts (n : Z) (s : tunnel_stats) : tunnel_stats :=
  mk_tunnel_stats (st_bytes_rx s) (st_bytes_tx s) (st_packets_rx s) (st_packets_tx s)
    (st_tcp_sessions s) (st_udp_sessions s) (st_connect_errors s)
    (wrap 32 (st_timeout_errors s + n)) (st_protocol_errors s) (st_uptime_ms s).
Definition stats_protocol_error (s : tunnel_stats) : tunnel_stats :=
  mk_tunnel_stats (st_bytes_rx s) (st_bytes_tx s) (st_packets_rx s) (st_packets_tx s)
    (st_tcp_sessions s) (st_udp_sessions s) (st_connect_errors s)
    (st_timeout_errors s) (wrap 32 (st_protocol_errors s + 1)) (st_uptime_ms s).
Definition stats_sessions (tcp udp uptime : Z) (s : tunnel_stats) : tunnel_stats :=
  mk_tunnel_stats (st_bytes_rx s) (st_bytes_tx s) (st_packets_rx s) (st_packets_tx s)
    tcp udp (st_connect_errors s) (st_timeout_errors s) (st_protocol_errors s) uptime.

(** ** Routing *)

Definition route_matches (dst : tunnel_endpoint) (rule : tunnel_route_rule) : bool :=
  match rule with
  | TUNNEL_ROUTE_IP addr mask =>
      bool_decide (zip_with Z.land (addr_v4 dst) (take 4 mask) =
                   zip_with Z.land (take 4 addr) (take 4 mask))
  | TUNNEL_ROUTE_DOMAIN => false
  end.

Definition tunnel_should_tunnel (pkt : tunnel_packet) : bool :=
  if existsb (route_matches (ip_dst (pk_ip pkt))) (su_exclude_rules su) then false
  else
    match su_include_rules su with
    | [] => true
    | rules => existsb (route_matches (ip_dst (pk_ip pkt))) rules
    end.

(** ** Packets *)

Definition tunnel_process_udp_packet (pkt : tunnel_packet) : T unit :=
  ret ← sessions (tunnel_session_udp_datagram (su_config su) (ip_src (pk_ip pkt))
                    (ip_dst (pk_ip pkt)) (pk_payload pkt));
  if ret =? TUNNEL_OK then mret tt else update_stats stats_connect_error.

Definition tunnel_process_dns_packet (pkt : tunnel_packet) : T unit :=
  if negb (cf_fake_dns (su_config su)) then tunnel_process_udp_packet pkt
  else
    response ← sessions (call (tunnel_fake_dns_process_query (pk_payload pkt)));
    match response with
    | Some response =>
        '(n, packet) ← sessions (build_with 1500 (λ buf id,
          tunnel_ip_build_udp o buf (ip_dst (pk_ip pkt)) (ip_src (pk_ip pkt)) (Some response)
            (len response) id));
        if 0 <? n then
          sessions (write_packet n packet);;
          update_stats (stats_tx n)
        else mret tt
    | None => tunnel_process_udp_packet pkt
    end.

(** The lookup of the fake address of the destination only makes a line in the log,
    and so does the address of a new session. *)
Definition tunnel_handle_tun_packet (data : option bytes) : T Z :=
  match data with
  | None => mret TUNNEL_ERR_INVALID_ARG
  | Some data =>
      if len data =? 0 then mret TUNNEL_ERR_INVALID_ARG
      else
        (if su_traffic_cb su then sessions (tell (traffic_cb 0 data)) else mret tt);;
        update_stats (stats_rx (len data));;
        if bool_decide (cf_mode (su_config su) = TUNNEL_MODE_PACKET) then mret TUNNEL_OK
        else
          let '(ret, pkt) := tunnel_ip_parse (Some data) (Some zero_packet) in
          let pkt := default zero_packet pkt in
          if negb (ret =? TUNNEL_OK) then update_stats stats_protocol_error;; mret ret
          else if negb (tunnel_should_tunnel pkt) then mret TUNNEL_OK
          else
            let protocol := ip_protocol (pk_ip pkt) in
            (if protocol =? TUNNEL_IPPROTO_TCP then
               match pk_transport pkt with
               | Tcp tcp =>
                   ok ← sessions (tunnel_process_tcp_packet o (su_config su) (pk_ip pkt) tcp (pk_payload pkt));
                   if (ok : bool) then mret tt else update_stats stats_connect_error
               | _ => fail
               end
             else if protocol =? TUNNEL_IPPROTO_UDP then
               if (ep_port (ip_dst (pk_ip pkt)) =? 53) && su_hijack_dns su
               then tunnel_process_dns_packet pkt
               else tunnel_process_udp_packet pkt
             else if (protocol =? TUNNEL_IPPROTO_ICMP) || (protocol =? TUNNEL_IPPROTO_ICMPV6)
             then mret tt
             else update_stats stats_protocol_error);;
            mret TUNNEL_OK
  end.

Definition tunnel_write_packet (data : option bytes) : T Z :=
  match data with
  | None => mret TUNNEL_ERR_INVALID_ARG
  | Some data =>
      if len data =? 0 then mret TUNNEL_ERR_INVALID_ARG
      else if negb (cf_tun (su_config su)) then mret TUNNEL_ERR_TUN_OPEN
      else
        ret ← sessions (call (tunnel_tun_write data));
        if ret <? 0 then mret TUNNEL_ERR_NETWORK
        else
          update_stats (stats_tx (len data));;
          (if su_traffic_cb su then sessions (tell (traffic_cb 1 data)) else mret tt);;
          mret TUNNEL_OK
  end.

(** ** Maintenance *)

(** In milliseconds; 0 in the configuration means the default. *)
Definition tcp_timeout : Z :=
  let v := wrap 32 (wrap 32 (cf_session_timeout (su_config su)) * 1000) in
  if v =? 0 then TUNNEL_SESSION_TIMEOUT_MS else v.

Definition evict_expired : T Z :=
  time ← sessions (call wall_clock);
  sessions (on_table (tunnel_nat_evict_expired time tcp_timeout TUNNEL_UDP_TIMEOUT_MS)).

Definition tunnel_run_maintenance : T unit :=
  now_ms ← sessions (call salts_monotonic_ms);
  t ← gets (λ t, t);
  (if 1000 <=? wrap 64 (now_ms - tn_last_session_maintenance_ms t) then
     expired ← evict_expired;
     (if 0 <? expired then update_stats (stats_timeouts expired) else mret tt);;
     modify (λ t, mk_tunnel (tn_world t) (tn_stats t) (tn_start_time t) now_ms
       (tn_last_stats_update_ms t))
   else mret tt);;
  if 5000 <=? wrap 64 (now_ms - tn_last_stats_update_ms t) then
    tcp ← sessions tunnel_session_tcp_count;
    udp ← sessions tunnel_session_udp_count;
    update_stats (stats_sessions (wrap 32 tcp) (wrap 32 udp) (wrap 64 (now_ms - tn_start_time t)));;
    modify (λ t, mk_tunnel (tn_world t) (tn_stats t) (tn_start_time t)
      (tn_last_session_maintenance_ms t) now_ms)
  else mret tt.

Definition tunnel_reset_stats : T unit :=
  now ← sessions (call salts_monotonic_ms);
  modify (λ t, mk_tunnel (tn_world t) (mk_tunnel_stats 0 0 0 0 0 0 0 0 0 0) now now now).

End Core.
