(* ===== verification/TunnelCoreInv.v ===== *)
(** * The tunnel as a whole

    Whatever bytes come from the device and whatever the proxy answers, the
    handlers return and keep the sessions, their table and their ports in step,
    until the first maintenance: the last part shows what it does. *)

From S2P Require Import Prelude TunnelTypes TunnelNat TunnelNatInv TunnelNatSpec TunnelPacket.
From S2P Require Import TunnelSession TunnelSessionInv TunnelCore.

(** ** Parsed packets *)

Lemma set_ports_family p q h : ep_family (ip_src h) = ep_family (ip_dst h) →
  ep_family (ip_src (set_ports p q h)) = ep_family (ip_dst (set_ports p q h)).
Proof. done. Qed.

Definition well_parsed (ip : tunnel_ip_header) (u : transport) : Prop :=
  ep_family (ip_src ip) = ep_family (ip_dst ip) ∧
  (ip_protocol ip = TUNNEL_IPPROTO_TCP → ∃ h, u = Tcp h).

Lemma parse_transport_ok ip data n ip' u : ep_family (ip_src ip) = ep_family (ip_dst ip) →
  parse_transport ip data = (n, ip', u) → well_parsed ip' u.
Proof.
  intros Hf. unfold parse_transport. destruct (ip_protocol ip =? TUNNEL_IPPROTO_TCP) eqn:Et.
  - destruct (tunnel_tcp_parse_header _ _) as [m h]. destruct (m <? 0); intros [= <- <- <-]; (split; [done|eauto]).
  - apply Z.eqb_neq in Et. destruct (ip_protocol ip =? TUNNEL_IPPROTO_UDP).
    + destruct (tunnel_udp_parse_header _ _) as [m h]. destruct (m <? 0); intros [= <- <- <-]; (split; [done|]);
        by intros ?.
    + intros [= <- <- <-]. by split.
Qed.

Lemma header_family data n ip : 0 <= n →
  (if high4 (at_ data 0) =? 4 then tunnel_ipv4_parse_header data zero_ip
   else if high4 (at_ data 0) =? 6 then tunnel_ipv6_parse_header data zero_ip
   else (TUNNEL_ERR_INVALID_ARG, zero_ip)) = (n, ip) →
  ep_family (ip_src ip) = ep_family (ip_dst ip).
Proof.
  intros Hn. unfold tunnel_ipv4_parse_header, tunnel_ipv6_parse_header.
  repeat case_match; intros [= <- <-]; done.
Qed.

Lemma parse_ok data pkt : tunnel_ip_parse (Some data) (Some zero_packet) = (TUNNEL_OK, Some pkt) →
  well_parsed (pk_ip pkt) (pk_transport pkt).
Proof.
  unfold tunnel_ip_parse. destruct (len data <? 1); [done|].
  destruct (if high4 (at_ data 0) =? 4 then _ else _) as [n ip] eqn:E.
  destruct (n <? 0) eqn:Hn; [intros [= -> _]; done|]. apply Z.ltb_ge in Hn.
  pose proof (header_family _ _ _ Hn E) as Hf. clear E.
  destruct (parse_transport ip _) as [[t ip'] u] eqn:E. apply parse_transport_ok in E; [|done].
  destruct (t <? 0) eqn:Ht; [intros [= -> _]; done|].
  destruct (_ && _); intros [= <-]; done.
Qed.

(** ** Handlers *)

Section Handlers.
Context {H : TunnelHost} {L : TunnelHostLaws} (o : byte_order) (su : tunnel_setup).

Definition tunnel_ok (t : tunnel) : Prop := ∃ a, sessions_ok (w_mem (tn_world t)) a.

(** [c] returns and leaves the invariant. *)
Definition total {A} (c : T A) : Prop := ∀ t, tunnel_ok t → runs c t (λ _ t', tunnel_ok t').

Lemma total_ret {A} (x : A) : total (mret x).
Proof. intros t Ht. by apply runs_ret. Qed.

Lemma total_bind {A B} (c : T A) (f : A → T B) : total c → (∀ x, total (f x)) → total (c ≫= f).
Proof.
  intros Hc Hf t Ht. apply runs_bind. eapply runs_mono; [by apply Hc|]. intros x t' Ht'. by apply Hf.
Qed.

Lemma total_sessions {A} (c : W A) : (∀ w a, sessions_ok (w_mem w) a → safe c w) → total (sessions c).
Proof.
  intros Hc t [a Ha]. destruct (Hc _ _ Ha) as (x & w & E & Hw). eexists x, _.
  split; [unfold sessions; rewrite E; reflexivity|exact Hw].
Qed.

Lemma total_stats f : total (update_stats f).
Proof. intros t Ht. by apply runs_modify. Qed.

Lemma total_call {A} (f : host → A * host) : total (sessions (call f)).
Proof. apply total_sessions. intros w a Ha. apply runs_call. eauto. Qed.

Lemma total_tell f : total (sessions (tell f)).
Proof. apply total_call. Qed.

Lemma total_build n f : total (sessions (build_with n f)).
Proof.
  apply total_sessions. intros w a Ha. unfold safe, runs, build_with. destruct (f _ _) as [[r b] id]. eauto 6.
Qed.

Lemma total_udp_packet pkt : ep_family (ip_src (pk_ip pkt)) = ep_family (ip_dst (pk_ip pkt)) →
  total (tunnel_process_udp_packet su pkt).
Proof.
  intros Hf. apply total_bind.
  - apply total_sessions. intros w a Ha. by eapply safe_udp_datagram.
  - intros r. destruct (r =? _); [apply total_ret|apply total_stats].
Qed.

Lemma total_dns_packet pkt : ep_family (ip_src (pk_ip pkt)) = ep_family (ip_dst (pk_ip pkt)) →
  total (tunnel_process_dns_packet o su pkt).
Proof.
  intros Hf. unfold tunnel_process_dns_packet. destruct (negb _); [by apply total_udp_packet|].
  apply total_bind; [apply total_call|]. intros [r|]; [|by apply total_udp_packet].
  apply total_bind; [apply total_build|]. intros [n p]. destruct (0 <? n); [|apply total_ret].
  apply total_bind; [apply total_call|]. intros _. apply total_stats.
Qed.

Lemma total_tun_packet data : total (tunnel_handle_tun_packet o su data).
Proof.
  destruct data as [data|]; [|apply total_ret]. unfold tunnel_handle_tun_packet.
  destruct (len data =? 0); [apply total_ret|].
  apply total_bind; [destruct (su_traffic_cb su); [apply total_tell|apply total_ret]|]. intros _.
  apply total_bind; [apply total_stats|]. intros _. destruct (bool_decide _); [apply total_ret|].
  destruct (tunnel_ip_parse _ _) as [r pkt] eqn:E. destruct (r =? TUNNEL_OK) eqn:Er; cbn [negb].
  2: { apply total_bind; [apply total_stats|]. intros _. apply total_ret. }
  apply Z.eqb_eq in Er as ->. destruct (negb _); [apply total_ret|].
  apply total_bind; [|intros _; apply total_ret].
  assert (W : well_parsed (pk_ip (default zero_packet pkt)) (pk_transport (default zero_packet pkt))).
  { destruct pkt as [pkt|]; [by apply parse_ok in E|]. split; [done|]. by intros ?. }
  destruct W as [Hf Ht]. destruct (_ =? TUNNEL_IPPROTO_TCP) eqn:Ep.
  - apply Z.eqb_eq, Ht in Ep as [tcp ->]. apply total_bind; [|intros []; [apply total_ret|apply total_stats]].
    apply total_sessions. intros w a Ha. by eapply safe_tcp_packet.
  - destruct (_ =? TUNNEL_IPPROTO_UDP); [destruct (_ && _); [by apply total_dns_packet|by apply total_udp_packet]|].
    destruct (_ || _); [apply total_ret|apply total_stats].
Qed.

Lemma total_write_packet data : total (tunnel_write_packet su data).
Proof.
  destruct data as [data|]; [|apply total_ret]. unfold tunnel_write_packet.
  destruct (len data =? 0); [apply total_ret|]. destruct (negb _); [apply total_ret|].
  apply total_bind; [apply total_call|]. intros r. destruct (r <? 0); [apply total_ret|].
  apply total_bind; [apply total_stats|]. intros _.
  apply total_bind; [destruct (su_traffic_cb su); [apply total_tell|apply total_ret]|]. intros _. apply total_ret.
Qed.

(** ** Any sequence of events *)

(** What happens to a tunnel, maintenance apart. *)
Inductive event : Type :=
  | TunPacket (data : option bytes)
  | WritePacket (data : option bytes)
  | ProxyConnect (conn status : Z) (s : loc)
  | ProxyData (data : bytes) (s : loc)
  | ProxyClose (s : loc)
  | SendToProxy (s : loc) (data : bytes)
  | Flush (s : loc)
  | Close (s : loc).

Definition run_event (e : event) : T unit :=
  let cf := su_config su in
  match e with
  | TunPacket data => tunnel_handle_tun_packet o su data;; mret tt
  | WritePacket data => tunnel_write_packet su data;; mret tt
  | ProxyConnect conn status s => sessions (on_proxy_connect o cf conn status (Some s))
  | ProxyData data s => sessions (on_proxy_data o cf data (Some s))
  | ProxyClose s => sessions (on_proxy_close o cf (Some s))
  | SendToProxy s data => sessions (tunnel_session_send_to_proxy s data);; mret tt
  | Flush s => sessions (tunnel_session_flush s);; mret tt
  | Close s => sessions (tunnel_session_close (Some s))
  end.

Fixpoint run_events (es : list event) : T unit :=
  match es with
  | [] => mret tt
  | e :: es => run_event e;; run_events es
  end.

(** The device may send anything; the proxy and the owner speak of sessions that
    were not released. *)
Definition event_session (e : event) : option loc :=
  match e with
  | TunPacket _ | WritePacket _ => None
  | ProxyConnect _ _ s | ProxyData _ s | ProxyClose s | SendToProxy s _ | Flush s | Close s => Some s
  end.
Definition event_ready (e : event) (t : tunnel) : Prop :=
  ∀ s, event_session e = Some s → is_Some (m_sessions (w_mem (tn_world t)) !! s).

Fixpoint events_ready (es : list event) (t : tunnel) : Prop :=
  match es with
  | [] => True
  | e :: es => event_ready e t ∧ ∀ t', run_event e t = Some (tt, t') → events_ready es t'
  end.

Lemma runs_sessions {A} (c : W A) t : safe c (tn_world t) → runs (sessions c) t (λ _ t', tunnel_ok t').
Proof.
  intros (x & w & E & Hw). eexists x, _. split; [unfold sessions; rewrite E; reflexivity|exact Hw].
Qed.

Lemma runs_event_ok e t : tunnel_ok t → event_ready e t → runs (run_event e) t (λ _ t', tunnel_ok t').
Proof.
  intros Ht He. pose proof Ht as [a Ha]. unfold event_ready in He.
  assert (Hq : ∀ A s (c : W A), event_session e = Some s → quiet s c →
    runs (sessions c) t (λ _ t', tunnel_ok t')).
  { intros A s c Hs Hc. apply runs_sessions. eapply quiet_safe; [done|done|].
    eapply live_listed; [done|by apply He]. }
  destruct e; cbn [run_event event_session] in *.
  - apply total_bind; [apply total_tun_packet|intros _; apply total_ret|done].
  - apply total_bind; [apply total_write_packet|intros _; apply total_ret|done].
  - eapply Hq; [done|apply quiet_on_connect].
  - eapply Hq; [done|apply quiet_on_data].
  - eapply Hq; [done|apply quiet_on_close].
  - apply runs_bind. eapply (runs_mono _ _ (λ _, tunnel_ok)); [eapply Hq; [done|apply quiet_send_to_proxy]|].
    intros _ t' Ht'. by apply runs_ret.
  - apply runs_bind. eapply (runs_mono _ _ (λ _, tunnel_ok)); [eapply Hq; [done|apply quiet_flush]|].
    intros _ t' Ht'. by apply runs_ret.
  - apply runs_sessions. eapply runs_mono; [apply (runs_destroy s _ a); [done|]|].
    + eapply live_listed; [done|by apply He].
    + intros _ w' (a' & ? & _). eauto.
Qed.

Lemma run_events_ok es : ∀ t, tunnel_ok t → events_ready es t → runs (run_events es) t (λ _ t', tunnel_ok t').
Proof.
  induction es as [|e es IH]; intros t Ht Hes; [by apply runs_ret|]. destruct Hes as [He Hes].
  apply runs_bind. destruct (runs_event_ok e t Ht He) as ([] & t' & E & Ht'). exists tt, t'. split; [done|].
  apply IH; [done|by apply Hes].
Qed.

(** Each session is found under its key. *)
Lemma lookup_own m a s x : sessions_ok m a → m_sessions m !! s = Some x →
  ∃ m', tunnel_nat_lookup (Some (se_key x)) m = Some (Some s, m').
Proof.
  intros Hok Hx. pose proof Hok as [R C].
  assert (Hc : content m !! s = Some (se_key x, se_local_port x)) by (apply content_some; eauto).
  assert (Hs : s ∈ v_order a) by (apply (co_all _ _ _ C); eauto).
  assert (Hu : key_uniform (se_key x)) by (destruct R as (_ & n & _ & R); by eapply (tr_uniform _ _ _ R)).
  destruct (runs_lookup m a (se_key x) R Hu) as (r & m' & E & -> & _). exists m'. rewrite E.
  pose proof (first_match_answers m a (se_key x) Hok) as A. destruct (first_match _ _ _) as [y|]; cbn in A.
  - destruct A as (_ & k & q & Hy & Hk). by rewrite (co_keys _ _ _ C y s k q _ _ Hy Hc Hk).
  - exfalso. eapply A; [done|]. by apply key_compare_parts.
Qed.

Definition new_tunnel (n : tunnel_nat) (h : host) (now : Z) : tunnel :=
  mk_tunnel (mk_world (mk_memory (Some n) ∅) h 0) (mk_tunnel_stats 0 0 0 0 0 0 0 0 0 0) now now now.

Lemma new_tunnel_ok n h now : tunnel_nat_create true true = Some n → tunnel_ok (new_tunnel n h now).
Proof.
  intros [= <-]. exists (mk_view [] [] ∅ (mk_stats 0 0 0 0)). split.
  - split; [done|]. eexists. split; [done|]. by apply empty_repr.
  - unfold content. cbn. rewrite fmap_empty. split.
    + intros x. rewrite lookup_empty. split; [by intros ?%not_elem_of_nil|by intros []].
    + intros p. split; [set_solver|]. intros (x & k & Hk & _). by rewrite lookup_empty in Hk.
    + intros x y p (k & Hk & _). by rewrite lookup_empty in Hk.
    + intros x y k p k' p' Hk. by rewrite lookup_empty in Hk.
Qed.

(** C4: packets and proxy events keep the sessions in order.  From a new tunnel,
    whatever bytes the device delivers and whatever the proxy, the allocator and
    the clock answer, every handler returns and follows no pointer to a released
    session, as long as the proxy and the owner speak of live ones; the table lists
    exactly the sessions in memory, no two of them have one connection or one UDP
    port, the reserved ports are those in use, and each session is found under its
    key. *)
Theorem tunnel_keeps_sessions (n : tunnel_nat) (h : host) (now : Z) (es : list event) :
  tunnel_nat_create true true = Some n → events_ready es (new_tunnel n h now) →
  ∃ t a, run_events es (new_tunnel n h now) = Some (tt, t) ∧
    sessions_ok (w_mem (tn_world t)) a ∧
    ∀ s x, m_sessions (w_mem (tn_world t)) !! s = Some x →
      ∃ m, tunnel_nat_lookup (Some (se_key x)) (w_mem (tn_world t)) = Some (Some s, m).
Proof.
  intros Hn Hes. destruct (run_events_ok es _ (new_tunnel_ok n h now Hn) Hes) as ([] & t & E & a & Ha).
  exists t, a. split_and!; [done|done|]. intros s x. by apply (lookup_own _ a).
Qed.

(** ** Maintenance *)

Lemma runs_count_loop protocol m : ∀ l p fuel c, seg LRU (m_sessions m) p l None → (length l ≤ fuel)%nat →
  runs (count_loop protocol fuel (head l) c) m (λ r m', m' = m ∧
    r = c + Z.of_nat (length (filter (session_matches (m_sessions m) (λ x, sk_protocol (se_key x) =? protocol)) l))).
Proof.
  induction l as [|s l IH]; intros p fuel c Hs Hf.
  - destruct fuel; apply runs_ret; by rewrite filter_nil, Z.add_0_r.
  - destruct fuel as [|fuel]; [cbn in Hf; lia|]. destruct Hs as [Hx Hs]. cbn [count_loop head].
    apply fmap_Some in Hx as (y & Hy & Hlk). apply runs_bind, (runs_load s y); [done|].
    change (se_lru y) with (link_of LRU y). rewrite <-Hlk. cbn [next]. rewrite first_of_head.
    eapply runs_mono; [apply (IH (Some s)); [done|cbn in Hf; lia]|]. intros r m' [-> ->]. split; [done|].
    rewrite filter_cons. case_decide as D; unfold session_matches in D; rewrite Hy in D; cbn in D;
      destruct (sk_protocol (se_key y) =? protocol); try done; cbn [length]; lia.
Qed.

Lemma runs_count protocol w a : nat_repr (w_mem w) a →
  runs (count_sessions protocol) w (λ r w', w' = w ∧
    r = Z.of_nat (length (filter (session_matches (m_sessions (w_mem w)) (λ x, sk_protocol (se_key x) =? protocol)) (v_lru a)))).
Proof.
  intros (Hsz & n & Hn & R). apply runs_on_table, (runs_with_nat _ _ n); [done|].
  apply runs_bind. eapply runs_the_nat; [done|]. apply runs_bind, runs_gets. rewrite (tr_head _ _ _ R).
  eapply runs_mono; [eapply runs_count_loop; [apply (tr_lru _ _ _ R)|]|].
  - apply Nat.le_le_succ_r. eapply members_bound; [apply R| |done].
    rewrite (tr_perm _ _ _ R). apply (tr_nodup _ _ _ R).
  - intros r m' [-> ->]. by destruct w.
Qed.

(** A session that has a UDP port. *)
Definition udp_holder (s : tunnel_session) : Prop :=
  sk_protocol (se_key s) = TUNNEL_IPPROTO_UDP ∧ se_local_port s ≠ 0.

(** The clock is seconds since 1970, the sessions' time milliseconds since the
    machine started. *)
Definition clock_ahead (t : tunnel) (time : Z) : Prop := ∀ s x,
  m_sessions (w_mem (tn_world t)) !! s = Some x →
  0 <= se_last_active x ∧
  se_last_active x + Z.max (tcp_timeout su) TUNNEL_UDP_TIMEOUT_MS < time * 1000 < 2 ^ 64.

Lemma filter_all {A} (P : A → Prop) `{∀ x, Decision (P x)} (l : list A) : (∀ x, x ∈ l → P x) → filter P l = l.
Proof.
  induction l as [|x l IH]; intros Hl; [done|]. rewrite filter_cons_True by (apply Hl; left).
  f_equal. apply IH. intros y Hy. apply Hl. by right.
Qed.

Lemma clock_ahead_expired t a time : nat_repr (w_mem (tn_world t)) a → clock_ahead t time →
  filter (expired_at (wrap 64 (time * 1000)) (tcp_timeout su) TUNNEL_UDP_TIMEOUT_MS
    (bodies (w_mem (tn_world t)))) (v_lru a) = v_lru a.
Proof.
  intros (_ & n & _ & R) Hc. apply filter_all. intros s Hs.
  destruct (repr_member _ _ _ _ R Hs) as [x Hx]. apply (expired_at_session _ _ _ _ _ _ Hx).
  destruct (Hc _ _ Hx) as [H0 H1]. unfold session_expired. rewrite (wrap_small 64 (time * 1000)).
  - rewrite wrap_small by (unfold uint, TUNNEL_UDP_TIMEOUT_MS in *; lia).
    apply Z.ltb_lt. destruct (_ =? _); lia.
  - unfold uint, TUNNEL_UDP_TIMEOUT_MS in *. lia.
Qed.

(** Every session left the table; nothing else changed. *)
Definition forgotten (m0 : memory) (a : nat_view) (m : memory) : Prop :=
  nat_repr m (view_evict (v_lru a) a) ∧ keeps m0 m.

Lemma forgotten_order m0 a : nat_repr m0 a → v_order (view_evict (v_lru a) a) = [].
Proof.
  intros (_ & n & _ & R). cbn [v_order view_evict]. destruct (filter _ _) as [|x l] eqn:E; [done|].
  assert (Hx : x ∈ filter (.∉ v_lru a) (v_order a)) by (rewrite E; left).
  apply list_elem_of_filter in Hx as [Hn Hx]. by rewrite (tr_perm _ _ _ R) in Hn.
Qed.

Lemma runs_evict_all t a h time : nat_repr (w_mem (tn_world t)) a → clock_ahead t time →
  wall_clock (w_host (tn_world t)) = (time, h) →
  runs (evict_expired su) t (λ _ t', forgotten (w_mem (tn_world t)) a (w_mem (tn_world t'))).
Proof.
  intros R Hc Ht. apply runs_bind. eexists time, _. split; [unfold sessions, call; rewrite Ht; reflexivity|].
  destruct (runs_evict_expired _ a time (tcp_timeout su) TUNNEL_UDP_TIMEOUT_MS R) as (r & m & E & _ & R' & K).
  rewrite clock_ahead_expired in R' by done.
  eexists r, _. split; [unfold sessions, on_table; cbn; rewrite E; reflexivity|]. by split.
Qed.

(** Counting changes nothing but the counters. *)
Lemma runs_counting protocol t a (Q : Z → tunnel → Prop) : nat_repr (w_mem (tn_world t)) a →
  (∀ r, Q r t) → runs (sessions (count_sessions protocol)) t Q.
Proof.
  intros R HQ. destruct (runs_count protocol _ _ R) as (r & w & E & -> & _). exists r, t.
  split; [|done]. unfold sessions. rewrite E. by destruct t.
Qed.

(** C22: maintenance forgets every session.  The wall clock is compared with times
    of the monotonic clock: as soon as a second has passed, all sessions leave the
    table, however recently they were used.  They stay in memory and keep their UDP
    ports, but no packet finds them any more. *)
Theorem maintenance_forgets_sessions (t : tunnel) (now time : Z) (h1 h2 : host) :
  tunnel_ok t → salts_monotonic_ms (w_host (tn_world t)) = (now, h1) → wall_clock h1 = (time, h2) →
  1000 <= wrap 64 (now - tn_last_session_maintenance_ms t) → clock_ahead t time →
  ∃ t' a', tunnel_run_maintenance su t = Some (tt, t') ∧
    nat_repr (w_mem (tn_world t')) a' ∧ v_order a' = [] ∧
    bodies (w_mem (tn_world t')) = bodies (w_mem (tn_world t)) ∧
    (∀ p x s, m_sessions (w_mem (tn_world t)) !! s = Some x → udp_holder x → se_local_port x = p →
      p ∈ v_ports a') ∧
    ∀ key, key_uniform key → ∃ m, tunnel_nat_lookup (Some key) (w_mem (tn_world t')) = Some (None, m).
Proof.
  intros [a [R C]] Hnow Htime Hd Hc.
  assert (Hr : runs (tunnel_run_maintenance su) t (λ _ t', forgotten (w_mem (tn_world t)) a (w_mem (tn_world t')))).
  { apply runs_bind. eexists now, _. split; [unfold sessions, call; rewrite Hnow; reflexivity|].
    apply runs_bind, runs_gets, runs_bind. cbn [tn_last_session_maintenance_ms].
    rewrite (proj2 (Z.leb_le _ _) Hd). apply runs_bind. eapply runs_mono; [eapply runs_evict_all; done|].
    cbn [tn_world w_mem]. intros r t1 Hf. pose proof Hf as [R1 _].
    apply runs_bind, (runs_mono _ _ (λ _ t2, w_mem (tn_world t2) = w_mem (tn_world t1))).
    { destruct (0 <? r); [by apply runs_modify|by apply runs_ret]. }
    intros _ t2 E2. apply runs_modify. cbn [tn_last_stats_update_ms].
    destruct (5000 <=? _); [|apply runs_ret; cbn; by rewrite E2].
    apply runs_bind. eapply runs_counting; [cbn; by rewrite E2|]. intros tcp.
    apply runs_bind. eapply runs_counting; [cbn; by rewrite E2|]. intros udp.
    apply runs_bind, runs_modify, runs_modify. cbn. by rewrite E2. }
  destruct Hr as ([] & t' & E & R' & K). exists t', (view_evict (v_lru a) a).
  pose proof (forgotten_order _ _ R) as Ho. split_and!; [done|done|done|by apply bodies_same| |].
  - intros p x s Hx [Hp Hz] <-. apply (co_ports _ _ _ C). exists s, (se_key x). split_and!; [|done|done].
    apply content_some. eauto.
  - intros key Hk. destruct (runs_lookup _ _ key R' Hk) as (r & m & El & -> & _). exists m.
    rewrite El, Ho. done.
Qed.

End Handlers.

(** ** A tunnel with one connection *)

(** The parts are never short of anything; their state is the monotonic clock,
    which moves half a second when it is read. *)
#[local] Instance w_host_parts : TunnelHost := {|
  host := Z;
  malloc_session used h := (if Z.of_nat (S (size used)) <? 2 ^ 64
    then Some (Pos.succ (foldr Pos.max 1%positive (elements used))) else None, h);
  malloc_buffer _ h := (true, h);
  salts_monotonic_ms h := (h, h + 500);
  wall_clock h := (1700000000, h);
  secure_random h := (Some 7000, h);
  tunnel_proxy_connect_tcp _ _ _ h := (Some 1, h);
  tunnel_proxy_connect_udp _ h := (Some 2, h);
  tunnel_proxy_conn_set_session _ _ h := h;
  tunnel_proxy_send _ _ h := (0, h);
  tunnel_proxy_send_udp _ _ _ h := (0, h);
  tunnel_proxy_conn_close _ h := h;
  tunnel_proxy_conn_destroy _ h := h;
  tunnel_tun_write p h := (len p, h);
  tunnel_fake_dns_get_domain _ _ := None;
  tunnel_fake_dns_process_query _ h := (None, h);
  traffic_cb _ _ h := h;
  tunnel_endpoint_text _ := [] |}.

Lemma max_above (x : positive) l : x ∈ l → (x <= foldr Pos.max 1 l)%positive.
Proof.
  induction l as [|y l IH]; [by intros ?%not_elem_of_nil|]. intros [->|Hx]%elem_of_cons; cbn; [lia|].
  specialize (IH Hx). lia.
Qed.

#[local] Instance w_host_laws : TunnelHostLaws.
Proof.
  intros used h p h'. cbn. destruct (_ <? _) eqn:E; [|done]. intros [= <- _]. split.
  - intros Hp%elem_of_elements%max_above. lia.
  - by apply Z.ltb_lt.
Qed.

Definition w_setup : tunnel_setup :=
  mk_setup (mk_config TUNNEL_MODE_PROXY true 300 true true false) false false [] [].

(** 10.0.0.2:50000 opens a connection to 93.184.216.34:443; a DNS query is sent to
    8.8.8.8. *)
Definition w_syn_packet : bytes :=
  [69; 0; 0; 40; 0; 1; 0; 0; 64; 6; 0; 0; 10; 0; 0; 2; 93; 184; 216; 34] ++
  [195; 80; 1; 187; 0; 0; 0; 100; 0; 0; 0; 0; 80; 2; 255; 255; 0; 0; 0; 0].
Definition w_dns_packet : bytes :=
  [69; 0; 0; 30; 0; 1; 0; 0; 64; 17; 0; 0; 10; 0; 0; 2; 8; 8; 8; 8] ++
  [195; 81; 0; 53; 0; 10; 0; 0; 1; 2].

Definition w_events : list event :=
  [TunPacket (Some w_syn_packet); TunPacket (Some w_dns_packet); ProxyConnect 1 0 2; TunPacket (Some [1; 2; 3]); Close 2].
Definition w_tunnel0 : tunnel := new_tunnel (H := w_host_parts) empty_nat 1000 0.

Definition after (e : event) (t : tunnel) : tunnel :=
  match run_event LITTLE w_setup e t with Some (_, t') => t' | None => t end.

Lemma ready_step e es t : event_ready e t → events_ready LITTLE w_setup es (after e t) →
  events_ready LITTLE w_setup (e :: es) t.
Proof. intros He Hes. split; [done|]. intros t' E. unfold after in Hes. by rewrite E in Hes. Qed.

Lemma after_ok e t : tunnel_ok t → event_ready e t → tunnel_ok (after e t).
Proof.
  intros Ht He. destruct (runs_event_ok LITTLE w_setup e t Ht He) as (r & t' & E & Ht').
  unfold after. by rewrite E.
Qed.

Lemma tunnel_keeps_sessions_witness : ∃ t a, run_events LITTLE w_setup w_events w_tunnel0 = Some (tt, t) ∧
  sessions_ok (w_mem (tn_world t)) a ∧
  ∀ s x, m_sessions (w_mem (tn_world t)) !! s = Some x →
    ∃ m, tunnel_nat_lookup (Some (se_key x)) (w_mem (tn_world t)) = Some (Some s, m).
Proof.
  apply (tunnel_keeps_sessions (H := w_host_parts) LITTLE w_setup empty_nat 1000 0 w_events); [reflexivity|].
  apply ready_step; [intros s [=]|]. apply ready_step; [intros s [=]|].
  apply ready_step; [intros s [= <-]; vm_compute; eauto|]. apply ready_step; [intros s [=]|].
  apply ready_step; [intros s [= <-]; vm_compute; eauto|]. exact I.
Defined.

Definition w_tunnel2 : tunnel := after (TunPacket (Some w_dns_packet)) (after (TunPacket (Some w_syn_packet)) w_tunnel0).

Lemma w_tunnel2_ok : tunnel_ok w_tunnel2.
Proof. apply after_ok; [apply after_ok; [by apply new_tunnel_ok|]|]; intros s [=]. Qed.

Lemma w_tunnel2_clock : clock_ahead w_setup w_tunnel2 1700000000.
Proof.
  assert (E : map_Forall (λ _ x, 0 <= se_last_active x ∧
    se_last_active x + Z.max (tcp_timeout w_setup) TUNNEL_UDP_TIMEOUT_MS < 1700000000 * 1000 < 2 ^ 64)
    (m_sessions (w_mem (tn_world w_tunnel2)))) by (refine (bool_decide_unpack _ _); vm_compute; exact I).
  intros s x Hx. by apply (E s x).
Qed.

Lemma maintenance_forgets_sessions_witness : ∃ t' a',
  tunnel_run_maintenance w_setup w_tunnel2 = Some (tt, t') ∧
  nat_repr (w_mem (tn_world t')) a' ∧ v_order a' = [] ∧
  bodies (w_mem (tn_world t')) = bodies (w_mem (tn_world w_tunnel2)) ∧
  (∀ p x s, m_sessions (w_mem (tn_world w_tunnel2)) !! s = Some x → udp_holder x → se_local_port x = p →
    p ∈ v_ports a') ∧
  ∀ key, key_uniform key → ∃ m, tunnel_nat_lookup (Some key) (w_mem (tn_world t')) = Some (None, m).
Proof.
  eapply (maintenance_forgets_sessions w_setup w_tunnel2); [exact w_tunnel2_ok|reflexivity|reflexivity| |].
  - by vm_compute.
  - exact w_tunnel2_clock.
Defined.
